(* ===== verification/_CoqProject ===== *)
-Q . S2P
Prelude.v
GoStd.v
Redis.v
Keys.v
Types.v
Codec.v
Lock.v
Interleave.v
Env.v
WorkerRepo.v
ContainerRepo.v
WorkspaceRepo.v
ContainerSpec.v
Backlog.v
PoolManager.v
Scheduler.v
Samples.v
ContainerProps.v
WorkerSpec.v
WorkerProps.v
SchedulerSpec.v
SchedulerProps.v
RingBuffer.v
PoolSizing.v
PoolHealth.v
TaskRepo.v
Dispatcher.v
TaskProps.v
DispatcherProps.v
TaskQueue.v
Autoscaler.v
AutoscalerProps.v
Instances.v
RequestBuffer.v
PodProxy.v
QueueService.v
QueueProps.v
GpuManager.v
Network.v
NetworkProps.v
Firewall.v
PoolCleaner.v
ProviderRepo.v
ProviderProps.v
Primitives.v
PrimitivesProps.v
ProtoConv.v
WorkerDaemon.v
CapacityLedger.v
DaemonProps.v
EventBus.v
Bot.v
BotProps.v
ModelRegistry.v
InferenceRouter.v
InferenceProps.v
Registry.v
Regex.v
ImageRef.v
ImageOptions.v
ImageProps.v
ImageBuild.v
ImageService.v
ImageBuildProps.v
HostFs.v
Storage.v
StorageProps.v
Agent.v
Machines.v
AgentProps.v
Crypto.v
Postgres.v
Backend.v
AuthCache.v
Auth.v
Api.v
TaskApi.v
AuthProps.v
Deployments.v
ApiProps.v
