(* ===== verification/Prelude.v ===== *)
(** * Beta9: a verification development

    Beta9 runs containers for serverless workloads.  A gateway accepts requests;
    the scheduler (pkg/scheduler) finds a worker for each; the repositories
    (pkg/repository) keep workers, containers, pools, machines, quotas and tasks in
    Redis; the abstractions (pkg/abstractions) turn endpoints, task queues, pods and
    bots into container requests, scale them and pass requests on to them, and build
    images; the task dispatcher (pkg/task) stores, claims, expires and retries tasks;
    the worker (pkg/worker) receives container requests, gives a container its
    network, GPUs, limits and file systems, runs it and returns its capacity; the
    event bus (pkg/common) tells workers to stop containers; the inference gateway
    (pkg/gateway) routes requests to nodes that serve models; the agent (pkg/agent)
    brings a machine into a pool; tokens (pkg/auth) say who may call the handlers of
    the API (pkg/api, pkg/gateway/services), which read and write PostgreSQL
    (pkg/repository/backend_postgres.go).  The parts meet in Redis, so the
    development models the code as programs over Redis commands, and the handlers as
    programs on Redis and the database, and proves what these programs do on every
    server that executes commands as documented.

    ** Method

    - [Redis]: a program is a term of a free monad over Redis commands ([prog]),
      an executable one ([run]) on any [RedisServer].  [RedisLaws] says that a
      successful command has its documented effect and that a failed one had no
      effect or its documented one (a lost reply).  [wp] is the weakest
      precondition over all replies of a lawful server, [rwp] over those of a
      reliable one (which fails only commands that have no effect on the
      contents, such as a key of the wrong type).  [ends p s L Q] is the
      statement of every theorem about a run; [ref_server] is an executable
      lawful server with a fault schedule, on which the witnesses run.  A
      program of the monad always ends, so a theorem about [ends] says that the
      code returns.
    - [Interleave]: processes that share the server.  Each command is atomic and
      those of different threads interleave freely ([sstep]); [protocol_sound] is
      the rely-guarantee rule with which a thread is checked alone, and [tracks_sound]
      the one for protocols that also speak of the memory of the processes.  Mutual
      exclusion of the locks (C6), the request tokens
      (C9), the handlers of an event (C22) and the
      connection counters are proved over all interleavings.
    - The worker and an image build have local state besides Redis: monads over
      [prog] with the state of the daemon ([DM]), the network ([NM]), a build
      ([BM]).  File systems are programs on the host's table of mounts ([HM]).
      A handler that waits for ever, or a process that ends, returns [None].
    - [Postgres]: the database is a record of tables, a statement a function on
      them, and a handler ([GM]) a program on Redis that carries the database
      along.  A schedule says which statements fail, with or without effect.  [gwp]
      is the weakest precondition of a handler; [keeps] says that it preserves a
      property of the tables whatever both servers answer.
    - Go's integers are [Z] with explicit wrap-around ([wrap_i64], [wrap_u32],
      ...); [float64] of an integer is written out ([float64_of_int]);
      [fmt.Sprintf], [strconv], [strings] and [path] functions are defined in
      [GoStd], [Keys] and [HostFs], [regexp] in [Regex]; errors are values of
      [gerr], a Go panic is [EPanic].
    - Code that is not in the repository is a parameter with named laws:
      encoding/json ([JsonRequests], [TaskJson], [JsonAddressMap], [EventCodec],
      [BotJson], [JsonCreds], [AuthJson], [StubConfigJson]), mapstructure ([Mapstructure]), sort.Slice
      ([SortSlice]), the kind of the Redis client and the keys that a scan which
      breaks off had reported ([RedisMode]), the types, clock and random values of PostgreSQL and of the
      program ([PgWorld] with [PgLaws]), AES-GCM ([AesGcm]), the queries that the
      scheduler, the dispatcher, the queue service and the image service make
      ([BackendRepository], [TaskBackend], [QueueBackend], [ImageBackend]), clouds
      ([PoolServices], [EcrService]), the
      kernel's links and namespaces ([Kernel]), iptables ([IPTables] with
      [IPTablesLaws]), the operating system's mounts ([HostOS]), the Kubernetes
      API ([KubeClient]), templates and hashes ([BuildHost]) and the servers of
      inference nodes ([NodeHttp]).  Each class of laws has an instance.  What the
      scheduler asks of registries and of the event bus ([SchedulerServices]) is an
      interface that [Registry] and [EventBus] discharge ([scheduler_services]).
    - Time is an argument ([now]); the time to live of a key is recorded and a key
      set to expire at once is removed, but time does not pass during a program,
      so a theorem about a sequence of calls holds while no key involved
      expires.  A goroutine started by a function is returned as data and run as a
      program of its own; the mutex of an object makes its methods atomic within
      the process (the lock of the worker's containers is explicit, since one
      handler does not release it); logging, metrics and usage events are left out.

    ** Files

    - [Prelude], [GoStd]: integers, strings, formatting and parsing.
    - [Redis], [Lock]: commands, programs and their logic; [RedisLock] of
      pkg/common/redis.go with the rules for locked methods and footprints
      ([touches]).  [Interleave] (C6): see above.
    - [Keys]: pkg/common/keys.go and its collision analysis.
    - [Types], [Codec], [Env]: the structs of pkg/types; ToSlice and ToStruct of
      pkg/common/redis.go; the library parameters.  [ProtoConv]: the protobuf
      conversions of container requests, and what survives the wire.
    - [WorkerRepo], [ContainerRepo], [WorkspaceRepo]: worker_redis.go,
      container_redis.go, workspace_redis.go and worker_pool_redis.go of
      pkg/repository, method by method; [WorkerSpec], [ContainerSpec] hold the
      abstract views and lemmas, [WorkerProps] (C1,
      C2, C13, C39) and
      [ContainerProps] (C4) the theorems: capacity accounting with
      optimistic versions, no overcommitment, the FIFO of a worker's requests,
      quotas of a workspace, container status transitions.
    - [Backlog], [PoolManager], [Scheduler]: backlog.go, pool_manager.go (with
      pkg/common/safemap.go) and scheduler.go of pkg/scheduler; [SchedulerSpec]
      and [SchedulerProps] (C5, C12, C29): optimal worker choice, placement
      within capacity, accounting of every popped request, the backlog as a
      priority queue.
    - [WorkerDaemon]: worker.go and lifecycle.go of pkg/worker with the service of
      pkg/gateway/services/repository they call; [CapacityLedger], [DaemonProps]
      (C3): over all sequences of handlers, goroutines and scheduling calls
      the capacity of a worker and what its requests hold add up to its total, up
      to the requests of three paths that are named.
    - [EventBus] (C22): events.go and key_events.go of pkg/common; the
      consumers of an event that asks for a lock run their callbacks one at a time.
    - [RingBuffer] (C33): pkg/abstractions/common/ring_buffer.go refines a
      bounded double-ended queue.
    - [PoolSizing], [PoolHealth], [PoolCleaner] (C35): utils.go, pool_sizing.go,
      pool_health.go, pool_cleaner.go and the capacity of pool.go.
    - [ProviderRepo], [ProviderProps]: provider_redis.go.
    - [TaskRepo], [Dispatcher]: pkg/types/task.go, task_redis.go and dispatch.go;
      [TaskProps] (C30): the task repository refines two finite maps;
      [DispatcherProps] (C32): retries, retry budget and monitor against the
      executor interface [ExecutorLaws], which [TaskQueue] discharges for the
      task-queue and endpoint executors of pkg/abstractions.
    - [QueueService], [QueueProps] (C10, C11): the task-queue service and the life of
      a task across service, dispatcher, repository and queue.
    - [Autoscaler], [AutoscalerProps], [Instances]: sampling,
      scale functions, scaling decisions and the choice of containers to stop.
    - [RequestBuffer] (C9), [PodProxy]: the buffers through which endpoint
      requests and pod connections reach containers; a container has at most as many
      requests as it has tokens, but for those whose heartbeat has expired.
    - [Bot], [BotProps] (C14): the bots of pkg/abstractions/experimental are Petri
      nets; the stored markers refine a marking and a step of the instance fires
      the enabled transitions.
    - [GpuManager] (C24): nvidia.go, gpu_info.go and container_resources.go of
      pkg/worker.
    - [Network], [NetworkProps] (C23), [Firewall] (C38): network.go and
      network_util.go of pkg/worker.
    - [HostFs], [Storage], [StorageProps] (C25, C26, C40): pkg/storage,
      storage_manager.go and mount.go of pkg/worker and overlay.go of pkg/common:
      what is mounted, what is given back and when a removal deletes what is
      mounted.
    - [Registry]: pkg/registry/credentials.go.  [Regex], [ImageRef],
      [ImageOptions], [ImageProps] (C31): the pure parts of
      pkg/abstractions/image: references, build steps, Dockerfiles and image
      identity.  [ImageBuild], [ImageService], [ImageBuildProps] (C21): a
      build and the image service.
    - [ModelRegistry], [InferenceRouter], [InferenceProps] (C27, C28):
      model_registry.go, inference_router.go and inference_handlers.go of
      pkg/gateway.
    - [Primitives], [PrimitivesProps] (C34): the distributed queues, maps and
      signals of pkg/abstractions.
    - [Agent], [Machines], [AgentProps] (C15, C36, C37): pkg/agent, machine.go of pkg/api/v1 and of
      pkg/gateway/services and base.go of pkg/providers: a machine is created,
      registers, sends keep-alives (the JSON bodies of both are written by the agent's
      tags and bound by the gateway's) and is reconciled with its instance.
    - [Crypto]: crypto.go of pkg/common and sign.go of pkg/auth.  [Postgres],
      [Backend]: the tables and backend_postgres.go with backend_utils.go.
      [AuthCache]: the cached tokens of workspace_redis.go.
    - [Auth]: http.go and grpc.go of pkg/auth; the errors of base.go of pkg/api/v1
      are in [Env].
      [Api], [TaskApi]: the handlers of tokens, limits, workspaces, secrets, tasks
      and containers in pkg/api/v1, pkg/gateway/services and
      pkg/abstractions/secret.
    - [AuthProps] (C7, C8): requests are served in the name
      of tokens that the database has at that moment, and a token that the HTTP API has
      taken away is refused; tokens for one use, whose cached copy outlives them, are told apart.
      [ApiProps] (C16, C17, C18, C19): what belongs to other workspaces
      is left alone, whatever fails; a new limit is the one that is enforced; a
      secret is read back as it was written.
    - [Deployments] (C20): stub.go and deployment.go of
      pkg/gateway/services, deployment.go and common.go of pkg/api/v1, url.go of
      pkg/common and deployment.go of pkg/abstractions/common; a stub that was
      deployed is the one that requests for its name reach, once the stub that the
      gateway has cached for them is gone.
    - [Samples]: concrete data for the witnesses.

    ** Bounds and fuel

    Recursion is structural throughout.  [GetWorkerAddress], the wait for a machine
    and that for an event pair are bounded by the number of ticks of their timeouts,
    the wait for a build container by the list of what its polls find,
    [retries] of [SchedulerSpec] and [retry_rounds] of [DispatcherProps] by the
    number of rounds the theorem quantifies over; [find_ip] has one unit of fuel per
    host of the subnet and one more, within which it returns
    ([configureContainerNetwork_correct]); [pop_valid] has one unit per message of
    the queue and one more (C11).  The matcher of [Regex] has fuel for the length of
    its input, and [search_complete] shows that it is enough.  Hypotheses such as
    [in_i64] or [small] say where Go's arithmetic does not wrap or round.

    ** Not modelled

    Container processes (runc, gVisor), image pulls, checkpoints and the OCI
    specification of pkg/worker; paginated listings, checkpoints and
    metrics of the database; HTTP, websocket and gRPC transport; Kubernetes job
    specifications; the clients of clouds and of object storage; the services for
    functions, volumes, outputs and shells; the language-model interface of bots;
    the terminal interface of the agent and the command-line tools:
    operating-system and network I/O, or serialization around queries.  What the
    modelled code asks of them is a parameter or an argument. *)

From Stdlib Require Export Ascii String ZArith Lia.
From stdpp Require Export base tactics list gmap strings sorting.
From stdpp Require Import options.
#[export] Unset Default Proof Using.

Open Scope Z_scope.
Open Scope string_scope.

Create HintDb beta9.

(** ** Machine-width integers *)

(** Go's fixed-width integers are kept as [Z] with explicit wrap-around. *)
Definition wrap_u (bits : Z) (z : Z) : Z := z `mod` 2 ^ bits.
Definition wrap_i (bits : Z) (z : Z) : Z :=
  (z + 2 ^ (bits - 1)) `mod` 2 ^ bits - 2 ^ (bits - 1).

Abbreviation wrap_i64 := (wrap_i 64).
Abbreviation wrap_i32 := (wrap_i 32).
Abbreviation wrap_u32 := (wrap_u 32).
Abbreviation wrap_u64 := (wrap_u 64).

Definition in_i (bits z : Z) : Prop := - 2 ^ (bits - 1) <= z < 2 ^ (bits - 1).
Definition in_u (bits z : Z) : Prop := 0 <= z < 2 ^ bits.
Abbreviation in_i64 := (in_i 64).
Abbreviation in_i32 := (in_i 32).
Abbreviation in_u32 := (in_u 32).
Abbreviation in_u64 := (in_u 64).

Lemma wrap_u_id bits z : in_u bits z -> wrap_u bits z = z.
Proof. unfold in_u, wrap_u. intros. by apply Z.mod_small. Qed.

Lemma wrap_i_id bits z : 0 < bits -> in_i bits z -> wrap_i bits z = z.
Proof.
  unfold in_i, wrap_i. intros Hb Hz.
  assert (2 ^ bits = 2 * 2 ^ (bits - 1)) as E.
  { rewrite <- Z.pow_succ_r by lia. f_equal. lia. }
  rewrite Z.mod_small by lia. lia.
Qed.

Lemma wrap_u_range bits z : 0 <= bits -> in_u bits (wrap_u bits z).
Proof. intros. apply Z.mod_pos_bound. by apply Z.pow_pos_nonneg. Qed.

Lemma wrap_i_range bits z : 0 < bits -> in_i bits (wrap_i bits z).
Proof.
  intros Hb. unfold in_i, wrap_i.
  assert (2 ^ bits = 2 * 2 ^ (bits - 1)) as E.
  { rewrite <- Z.pow_succ_r by lia. f_equal. lia. }
  pose proof (Z.mod_pos_bound (z + 2 ^ (bits - 1)) (2 ^ bits)
    ltac:(apply Z.pow_pos_nonneg; lia)).
  lia.
Qed.

(** Wrapping an intermediate result changes nothing. *)
Lemma wrap_i_add_l bits a b : wrap_i bits (wrap_i bits a + b) = wrap_i bits (a + b).
Proof.
  unfold wrap_i. f_equal.
  replace (_ - _ + b + _) with ((a + 2 ^ (bits - 1)) `mod` 2 ^ bits + b) by lia.
  rewrite Zplus_mod_idemp_l. f_equal. lia.
Qed.

Lemma wrap_u_add_l bits a b : wrap_u bits (wrap_u bits a + b) = wrap_u bits (a + b).
Proof. apply Zplus_mod_idemp_l. Qed.

(** ** Strings *)

Lemma str_app_nil_r (s : string) : s +:+ "" = s.
Proof. induction s as [|a s IH]; [done|]. by apply (f_equal (String a)). Qed.

Lemma str_app_assoc (a b c : string) : (a +:+ b) +:+ c = a +:+ (b +:+ c).
Proof. induction a as [|x a IH]; [done|]. by apply (f_equal (String x)). Qed.

(** ** Tactics *)

Lemma str_app_length (a b : string) :
  String.length (a +:+ b) = (String.length a + String.length b)%nat.
Proof. induction a as [|x a IH]; [done|]. exact (f_equal S IH). Qed.

Lemma str_app_inj_r (a b s : string) : a +:+ s = b +:+ s -> a = b.
Proof.
  revert b. induction a as [|x a IH]; intros [|y b] E; [done|..].
  - exfalso. apply (f_equal String.length) in E. change ("" +:+ s) with s in E.
    change (String y b +:+ s) with (String y (b +:+ s)) in E. simpl in E.
    rewrite str_app_length in E. lia.
  - exfalso. apply (f_equal String.length) in E. change ("" +:+ s) with s in E.
    change (String x a +:+ s) with (String x (a +:+ s)) in E. simpl in E.
    rewrite str_app_length in E. lia.
  - change (String x (a +:+ s) = String y (b +:+ s)) in E. injection E as -> E. f_equal. by apply IH.
Qed.

Lemma str_app_inj_l (s a b : string) : s +:+ a = s +:+ b -> a = b.
Proof. induction s as [|x s IH]; intros E; [done|]. injection E as E. by apply IH. Qed.

(** Splits conjunctions and existentials among the hypotheses. *)
Ltac split_hyps :=
  repeat match goal with
  | H : _ /\ _ |- _ => destruct H
  | H : exists _, _ |- _ => destruct H
  end; simplify_eq.
