(* ===== verification/GoStd.v ===== *)
(** * The parts of Go's standard library the program uses

    [strings.Split] and its relatives, prefixes and suffixes, letter case,
    [strconv.ParseInt]/[ParseUint] in base 10, the decimal output of
    [fmt]'s %v and %d, the conversion of an [int64] to a [float64], and the times
    that [time.Parse] reads. *)

From Stdlib Require Import Ascii DecimalString DecimalZ DecimalPos.
From S2P Require Import Prelude.

Local Open Scope Z_scope.

(** ** Strings *)

(** [no_char c s]: the character [c] does not occur in [s]. *)
Fixpoint no_char (c : Ascii.ascii) (s : string) : bool :=
  match s with
  | "" => true
  | String a s' => negb (Ascii.eqb a c) && no_char c s'
  end.

Abbreviation colon := (Ascii.ascii_of_nat 58).
Abbreviation no_colon := (no_char colon).

(** [strings.Split(s, sep)] for a one-character separator. *)
Fixpoint split_on (c : Ascii.ascii) (s : string) : list string :=
  match s with
  | "" => [""]
  | String a s' =>
      if Ascii.eqb a c then "" :: split_on c s'
      else match split_on c s' with
           | [] => [String a ""]
           | h :: t => String a h :: t
           end
  end.

(** [strings.Split(s, ":")[len(strings.Split(s, ":"))-1]] *)
Definition last_segment (s : string) : string := List.last (split_on colon s) "".

(** The rest of [s] after the prefix [p], if [s] starts with it. *)
Fixpoint strip_prefix (p s : string) : option string :=
  match p with
  | "" => Some s
  | String a p' =>
      match s with
      | "" => None
      | String b s' => if Ascii.eqb a b then strip_prefix p' s' else None
      end
  end.

Definition HasPrefix (s p : string) : bool :=
  match strip_prefix p s with Some _ => true | None => false end.
Definition TrimPrefix (s p : string) : string := default s (strip_prefix p s).

Fixpoint strip_suffix (x s : string) : option string :=
  if String.eqb s x then Some ""
  else match s with
       | "" => None
       | String a s' => String a <$> strip_suffix x s'
       end.

Definition TrimSuffix (s x : string) : string := default s (strip_suffix x s).

Fixpoint Contains (s sub : string) : bool :=
  HasPrefix s sub ||
  match s with
  | "" => false
  | String _ s' => Contains s' sub
  end.

(** The functions on letters and white space treat ASCII only, as the program's names are. *)

(** ASCII white space, as [strings.TrimSpace] removes it. *)
Definition is_space (c : Ascii.ascii) : bool :=
  let n := Ascii.nat_of_ascii c in (9 <=? n)%nat && (n <=? 13)%nat || (n =? 32)%nat.

Fixpoint trim_left (s : string) : string :=
  match s with
  | String c s' => if is_space c then trim_left s' else s
  | "" => ""
  end.

Fixpoint trim_right (s : string) : string :=
  match s with
  | "" => ""
  | String c s' =>
      match trim_right s' with
      | "" => if is_space c then "" else String c ""
      | t => String c t
      end
  end.

Definition TrimSpace (s : string) : string := trim_right (trim_left s).

Definition lower (c : Ascii.ascii) : Ascii.ascii :=
  let n := Ascii.nat_of_ascii c in
  if (65 <=? n)%nat && (n <=? 90)%nat then Ascii.ascii_of_nat (n + 32) else c.

Fixpoint ToLower (s : string) : string :=
  match s with "" => "" | String c s' => String (lower c) (ToLower s') end.

Definition upper (c : Ascii.ascii) : Ascii.ascii :=
  let n := Ascii.nat_of_ascii c in
  if (97 <=? n)%nat && (n <=? 122)%nat then Ascii.ascii_of_nat (n - 32) else c.

Fixpoint ToUpper (s : string) : string :=
  match s with "" => "" | String c s' => String (upper c) (ToUpper s') end.

(** [strings.ReplaceAll] of one character by another. *)
Fixpoint replace_char (a b : Ascii.ascii) (s : string) : string :=
  match s with
  | "" => ""
  | String c s' => String (if Ascii.eqb c a then b else c) (replace_char a b s')
  end.

(** [strings.SplitN(s, sep, 2)] for a one-character separator: the parts before and
    after the first one. *)
Fixpoint cut_at (sep : Ascii.ascii) (s : string) : option (string * string) :=
  match s with
  | "" => None
  | String c s' =>
      if Ascii.eqb c sep then Some ("", s')
      else match cut_at sep s' with Some (a, b) => Some (String c a, b) | None => None end
  end.

(** [strings.FieldsFunc]: the maximal runs of characters outside [p]. *)
Fixpoint FieldsFunc_from (p : Ascii.ascii -> bool) (cur s : string) : list string :=
  match s with
  | "" => match cur with "" => [] | _ => [cur] end
  | String c s' =>
      if p c then match cur with "" => FieldsFunc_from p "" s' | _ => cur :: FieldsFunc_from p "" s' end
      else FieldsFunc_from p (cur +:+ String c "") s'
  end.
Definition FieldsFunc (s : string) (p : Ascii.ascii -> bool) : list string := FieldsFunc_from p "" s.

(** The part of [s] after the first occurrence of [sep], if there is one. *)
Fixpoint after_first (sep s : string) : option string :=
  match strip_prefix sep s with
  | Some rest => Some rest
  | None => match s with "" => None | String _ s' => after_first sep s' end
  end.

(** The part of [s] before the first occurrence of [sep]. *)
Fixpoint before_first (sep s : string) : string :=
  match strip_prefix sep s with
  | Some _ => ""
  | None => match s with "" => "" | String c s' => String c (before_first sep s') end
  end.

Fixpoint Join (l : list string) (sep : string) : string :=
  match l with
  | [] => ""
  | [s] => s
  | s :: l' => s +:+ sep +:+ Join l' sep
  end.

Definition hex_char (v : Z) : Ascii.ascii :=
  Ascii.ascii_of_nat (Z.to_nat (if v <? 10 then 48 + v else 87 + v)).

Lemma no_char_app c a b : no_char c (a +:+ b) = no_char c a && no_char c b.
Proof. induction a as [|x a IH]; simpl; [done|]. by rewrite IH, andb_assoc. Qed.

Lemma split_on_sep c a b :
  no_char c a = true -> split_on c (a +:+ String c b) = a :: split_on c b.
Proof.
  induction a as [|x a IH]; simpl; intros H.
  - by rewrite Ascii.eqb_refl.
  - apply andb_prop in H as [H1 H2]. rewrite IH by done.
    by destruct (Ascii.eqb x c).
Qed.

Lemma split_on_single c a : no_char c a = true -> split_on c a = [a].
Proof.
  induction a as [|x a IH]; simpl; intros H; [done|].
  apply andb_prop in H as [H1 H2]. rewrite IH by done.
  by destruct (Ascii.eqb x c).
Qed.

Lemma split_on_nonempty c s : split_on c s <> [].
Proof. destruct s; simpl; repeat case_match; done. Qed.

Lemma split_on_sep_length c a b : (2 <= length (split_on c (a +:+ String c b)))%nat.
Proof.
  induction a as [|x a IH]; simpl.
  - rewrite Ascii.eqb_refl. simpl.
    pose proof (split_on_nonempty c b). destruct (split_on c b); simpl; [done|lia].
  - destruct (Ascii.eqb x c); simpl; [lia|].
    destruct (split_on c (a +:+ String c b)); simpl in *; lia.
Qed.

Lemma last_split_on_sep c a b d :
  List.last (split_on c (a +:+ String c b)) d = List.last (split_on c b) d.
Proof.
  induction a as [|x a IH]; simpl.
  - rewrite Ascii.eqb_refl. pose proof (split_on_nonempty c b).
    by destruct (split_on c b).
  - pose proof (split_on_sep_length c a b).
    destruct (split_on c (a +:+ String c b)) as [|h [|h' t]]; simpl in *; [lia..|].
    by destruct (Ascii.eqb x c).
Qed.

(** The last segment of [prefix:id] is [id] when [id] has no colon. *)
Lemma last_segment_app p id :
  no_colon id = true -> last_segment (p +:+ String colon id) = id.
Proof.
  intros H. unfold last_segment. rewrite last_split_on_sep.
  by rewrite split_on_single.
Qed.

Lemma strip_prefix_app p s : strip_prefix p (p +:+ s) = Some s.
Proof. induction p; simpl; [done|]. by rewrite Ascii.eqb_refl. Qed.

Lemma strip_prefix_Some p s r : strip_prefix p s = Some r <-> s = p +:+ r.
Proof.
  split; [|intros ->; apply strip_prefix_app].
  revert s. induction p as [|a p IH]; intros s; simpl; [naive_solver|].
  destruct s as [|b s]; [done|].
  destruct (Ascii.eqb_spec a b) as [->|]; [|done].
  intros H. by rewrite (IH _ H).
Qed.

Lemma HasPrefix_spec s p : HasPrefix s p = true <-> exists r, s = p +:+ r.
Proof.
  unfold HasPrefix. destruct (strip_prefix p s) eqn:E.
  - apply strip_prefix_Some in E. naive_solver.
  - split; [done|]. intros [r ->]. by rewrite strip_prefix_app in E.
Qed.

(** ** Decimal integers *)

(** The output of [fmt.Sprintf("%v", z)] and [strconv.FormatInt(z, 10)]. *)
Definition fmt_int (z : Z) : string := NilZero.string_of_int (Z.to_int z).

(** A non-empty run of decimal digits. *)
Definition parse_digits (s : string) : option Z :=
  Z.of_uint <$> NilZero.uint_of_string s.

#[export] Instance in_i_dec bits z : Decision (in_i bits z).
Proof. unfold in_i. apply _. Defined.
#[export] Instance in_u_dec bits z : Decision (in_u bits z).
Proof. unfold in_u. apply _. Defined.

(** [strconv.ParseInt(s, 10, bits)]: [None] stands for a non-nil error
    (syntax or range); an optional sign is accepted. *)
Definition ParseInt (bits : Z) (s : string) : option Z :=
  z ← match s with
      | String "+"%char r => parse_digits r
      | String "-"%char r => Z.opp <$> parse_digits r
      | _ => parse_digits s
      end;
  if bool_decide (in_i bits z) then Some z else None.

(** [strconv.ParseUint(s, 10, bits)]: no sign is accepted. *)
Definition ParseUint (bits : Z) (s : string) : option Z :=
  z ← parse_digits s;
  if bool_decide (in_u bits z) then Some z else None.

(** [strconv.ParseBool] *)
Definition ParseBool (s : string) : option bool :=
  if bool_decide (s ∈ ["1"; "t"; "T"; "TRUE"; "true"; "True"]) then Some true
  else if bool_decide (s ∈ ["0"; "f"; "F"; "FALSE"; "false"; "False"]) then Some false
  else None.

Definition fmt_bool (b : bool) : string := if b then "true" else "false".


Lemma uint_string_head u :
  u <> Decimal.Nil ->
  exists a r, NilZero.string_of_uint u = String a r /\ a <> "+"%char /\ a <> "-"%char.
Proof. destruct u; intros; [done|..]; simpl; eexists _, _; repeat split; done. Qed.

Lemma Pos_to_uint_nonnil p : Pos.to_uint p <> Decimal.Nil.
Proof. apply DecimalPos.Unsigned.to_uint_nonnil. Qed.

Lemma parse_digits_uint u :
  u <> Decimal.Nil -> parse_digits (NilZero.string_of_uint u) = Some (Z.of_uint u).
Proof. intros H. unfold parse_digits. by rewrite NilZero.usu. Qed.

Lemma Z_of_uint_Pos p : Z.of_uint (Pos.to_uint p) = Z.pos p.
Proof. apply (DecimalZ.of_to (Z.pos p)). Qed.

Lemma ParseInt_no_sign bits a r :
  a <> "+"%char -> a <> "-"%char ->
  ParseInt bits (String a r) =
  (z ← parse_digits (String a r); if bool_decide (in_i bits z) then Some z else None).
Proof. intros Hp Hm. unfold ParseInt. repeat case_match; congruence. Qed.

Lemma ParseInt_unsigned bits u :
  u <> Decimal.Nil -> in_i bits (Z.of_uint u) ->
  ParseInt bits (NilZero.string_of_uint u) = Some (Z.of_uint u).
Proof.
  intros Hu Hr. pose proof (parse_digits_uint u Hu) as E.
  destruct (uint_string_head u Hu) as (a & r & Hs & Hp & Hm).
  rewrite Hs in *. rewrite ParseInt_no_sign, E by done. simpl.
  by rewrite bool_decide_true.
Qed.

(** Printing an integer and parsing it back at a width that holds it. *)
Lemma ParseInt_fmt_int bits z : in_i bits z -> ParseInt bits (fmt_int z) = Some z.
Proof.
  intros Hz. unfold fmt_int. destruct z as [|p|p]; simpl.
  - by apply (ParseInt_unsigned bits (Decimal.D0 Decimal.Nil)).
  - rewrite ParseInt_unsigned; rewrite ?Z_of_uint_Pos; auto using Pos_to_uint_nonnil.
  - unfold ParseInt. simpl.
    rewrite parse_digits_uint by apply Pos_to_uint_nonnil.
    rewrite Z_of_uint_Pos. simpl. by rewrite bool_decide_true.
Qed.

Lemma ParseUint_fmt_int bits z : in_u bits z -> ParseUint bits (fmt_int z) = Some z.
Proof.
  intros Hz. unfold ParseUint, fmt_int. destruct z as [|p|p]; simpl.
  - change (parse_digits "0") with (Some 0). simpl. by rewrite bool_decide_true.
  - rewrite parse_digits_uint by apply Pos_to_uint_nonnil.
    rewrite Z_of_uint_Pos. simpl. by rewrite bool_decide_true.
  - unfold in_u in Hz. lia.
Qed.

Lemma ParseBool_fmt_bool b : ParseBool (fmt_bool b) = Some b.
Proof. by destruct b. Qed.

Lemma fmt_int_inj z1 z2 : fmt_int z1 = fmt_int z2 -> z1 = z2.
Proof.
  intros H. assert (exists bits, in_i bits z1 /\ in_i bits z2) as (b & H1 & H2).
  { exists (Z.log2_up (Z.abs z1 + Z.abs z2 + 1) + 1 + 1).
    unfold in_i.
    pose proof (Z.log2_up_spec (Z.abs z1 + Z.abs z2 + 1)).
    pose proof (Z.log2_up_nonneg (Z.abs z1 + Z.abs z2 + 1)).
    replace (Z.log2_up (Z.abs z1 + Z.abs z2 + 1) + 1 + 1 - 1)
      with (Z.succ (Z.log2_up (Z.abs z1 + Z.abs z2 + 1))) by lia.
    rewrite Z.pow_succ_r by done.
    destruct (decide (1 < Z.abs z1 + Z.abs z2 + 1)); [lia|].
    assert (z1 = 0 /\ z2 = 0) as [-> ->] by lia. simpl. lia. }
  apply ParseInt_fmt_int in H1, H2. congruence.
Qed.

(** ** [float64(x)] of a non-negative [int64]

    A [float64] has a 53-bit significand: above 2^53 the value is rounded
    to the nearest multiple of the unit in the last place, ties to even. *)
Definition float64_of_int (x : Z) : Z :=
  let e := Z.log2 x - 52 in
  if e <=? 0 then x
  else
    let u := 2 ^ e in
    let q := x / u in
    let r := x `mod` u in
    if (2 * r <? u) || ((2 * r =? u) && Z.even q) then q * u else (q + 1) * u.

(** Rounding is monotone: a later timestamp never gets a smaller score. *)
Lemma float64_of_int_bounds x :
  0 < x ->
  let u := 2 ^ (Z.log2 x - 52) in
  52 < Z.log2 x ->
  x / u * u <= float64_of_int x <= (x / u + 1) * u.
Proof.
  intros Hx u He. unfold float64_of_int.
  rewrite (proj2 (Z.leb_gt _ _)) by lia. fold u.
  assert (0 < u) by (apply Z.pow_pos_nonneg; lia).
  case_match; nia.
Qed.

Lemma float64_of_int_mono x y :
  0 <= x -> x <= y -> float64_of_int x <= float64_of_int y.
Proof.
  intros Hx Hxy.
  destruct (decide (x = y)) as [->|Hne]; [lia|].
  assert (0 < y) as Hy by lia.
  pose proof (Z.log2_le_mono x y Hxy) as Hlog.
  destruct (decide (Z.log2 y <= 52)) as [Hs|Hs].
  { unfold float64_of_int. rewrite !(proj2 (Z.leb_le _ _)) by lia. lia. }
  assert (0 < 2 ^ (Z.log2 y - 52)) as Hu by (apply Z.pow_pos_nonneg; lia).
  pose proof (float64_of_int_bounds y Hy ltac:(lia)) as [By _].
  set (u := 2 ^ (Z.log2 y - 52)) in *.
  destruct (Z.log2_spec y Hy) as [Ly _].
  assert (2 ^ Z.log2 y = 2 ^ 52 * u) as Epow.
  { unfold u. rewrite <- Z.pow_add_r by lia. f_equal. lia. }
  assert (2 ^ Z.log2 y <= y / u * u) as Lq.
  { assert (2 ^ 52 <= y / u) by (apply Z.div_le_lower_bound; lia). nia. }
  destruct (decide (Z.log2 x < Z.log2 y)) as [Hlt|Hge].
  - (* a smaller binade: [x] rounds to at most the power of two below [y] *)
    assert (float64_of_int x <= 2 ^ Z.log2 y) as Bx; [|lia].
    destruct (decide (x = 0)) as [->|]; [by apply Z.pow_nonneg|].
    destruct (Z.log2_spec x ltac:(lia)) as [_ Ux].
    assert (2 ^ Z.succ (Z.log2 x) <= 2 ^ Z.log2 y) by (apply Z.pow_le_mono_r; lia).
    destruct (decide (Z.log2 x <= 52)).
    { unfold float64_of_int. rewrite (proj2 (Z.leb_le _ _)) by lia. lia. }
    pose proof (float64_of_int_bounds x ltac:(lia) ltac:(lia)) as [_ Bx].
    set (v := 2 ^ (Z.log2 x - 52)) in *.
    assert (0 < v) by (apply Z.pow_pos_nonneg; lia).
    assert (2 ^ Z.succ (Z.log2 x) = 2 ^ 53 * v) as Ev.
    { unfold v. rewrite <- Z.pow_add_r by lia. f_equal. lia. }
    assert (x / v < 2 ^ 53) by (apply Z.div_lt_upper_bound; lia). nia.
  - (* the same binade: compare the rounded quotients *)
    assert (Z.log2 x = Z.log2 y) as El by lia.
    unfold float64_of_int. rewrite El.
    rewrite (proj2 (Z.leb_gt _ _)) by lia. fold u.
    pose proof (Z.div_mod x u ltac:(lia)). pose proof (Z.div_mod y u ltac:(lia)).
    pose proof (Z.mod_pos_bound x u Hu). pose proof (Z.mod_pos_bound y u Hu).
    pose proof (Z.div_le_mono x y u Hu Hxy) as Hq.
    destruct (decide (x / u = y / u)) as [Eq|Nq].
    + rewrite Eq in *.
      destruct (Z.ltb_spec (2 * (x `mod` u)) u), (Z.ltb_spec (2 * (y `mod` u)) u),
        (Z.eqb_spec (2 * (x `mod` u)) u), (Z.eqb_spec (2 * (y `mod` u)) u),
        (Z.even (y / u)); simpl; nia.
    + repeat case_match; nia.
Qed.

(** [float64(x)] of any [int64]: rounding is symmetric. *)
Definition float64_of_i64 (x : Z) : Z :=
  if x <? 0 then - float64_of_int (- x) else float64_of_int x.

Lemma float64_of_i64_mono x y : x <= y -> float64_of_i64 x <= float64_of_i64 y.
Proof.
  intros H. unfold float64_of_i64.
  assert (forall z, 0 <= z -> 0 <= float64_of_int z) as Hp
    by (intros z Hz; apply (float64_of_int_mono 0 z); lia).
  destruct (Z.ltb_spec x 0), (Z.ltb_spec y 0); try lia.
  - pose proof (float64_of_int_mono (- y) (- x)). lia.
  - pose proof (Hp (- x)). pose proof (Hp y). lia.
  - by apply float64_of_int_mono.
Qed.

(** ** Times as Go's package time parses them

    [time.Parse(time.RFC3339, s)].  The date of a value is proleptic Gregorian, and
    a time the number of nanoseconds since Go's zero time.  Go accepts
    an hour of one digit and any fraction of a second, of which nine digits count. *)

Definition digit_value (c : Ascii.ascii) : option Z :=
  let n := Z.of_nat (Ascii.nat_of_ascii c) in
  if (48 <=? n) && (n <=? 57) then Some (n - 48) else None.

(** Exactly [n] digits, and the rest of the text. *)
Fixpoint digits (n : nat) (acc : Z) (s : string) : option (Z * string) :=
  match n with
  | O => Some (acc, s)
  | S n' =>
      match s with
      | "" => None
      | String c s' => v ← digit_value c; digits n' (10 * acc + v) s'
      end
  end.

(** [getnum] without the demand of two digits. *)
Definition one_or_two (s : string) : option (Z * string) :=
  match digits 2 0 s with Some r => Some r | None => digits 1 0 s end.

Definition skip (c : Ascii.ascii) (s : string) : option string :=
  match s with String d s' => if Ascii.eqb c d then Some s' else None | "" => None end.

Definition within_Z (lo hi v : Z) : option unit := if (lo <=? v) && (v <=? hi) then Some tt else None.

(** The digits of a fraction: their value in nanoseconds ([scale] is that of the next
    digit) and the rest. *)
Fixpoint fraction (scale acc : Z) (s : string) : Z * string :=
  match s with
  | "" => (acc, s)
  | String c s' =>
      match digit_value c with
      | Some v => fraction (scale / 10) (acc + scale * v) s'
      | None => (acc, s)
      end
  end.

(** A fraction needs a digit after its point or comma. *)
Definition opt_fraction (s : string) : Z * string :=
  match s with
  | String p (String c _ as s') =>
      if (Ascii.eqb p "." || Ascii.eqb p ",") && match digit_value c with Some _ => true | None => false end
      then fraction 100000000 0 s' else (0, s)
  | _ => (0, s)
  end.

(** The offset from UTC in seconds. *)
Definition zone (s : string) : option (Z * string) :=
  match s with
  | String "Z" s' => Some (0, s')
  | String sign s' =>
      '(h, s1) ← digits 2 0 s'; s2 ← skip ":" s1; '(m, s3) ← digits 2 0 s2;
      within_Z 0 24 h;; within_Z 0 60 m;;
      if Ascii.eqb sign "+" then Some (60 * (60 * h + m), s3)
      else if Ascii.eqb sign "-" then Some (- (60 * (60 * h + m)), s3)
      else None
  | "" => None
  end.

Definition is_leap (y : Z) : bool :=
  (y mod 4 =? 0) && (negb (y mod 100 =? 0) || (y mod 400 =? 0)).

Definition month_days (y m : Z) : Z :=
  if m =? 2 then (if is_leap y then 29 else 28)
  else if (m =? 4) || (m =? 6) || (m =? 9) || (m =? 11) then 30 else 31.

(** Days of the year before its month [m]. *)
Definition days_before (y : Z) (m : nat) : Z :=
  foldr (λ k acc, month_days y (Z.of_nat k) + acc) 0 (seq 1 (m - 1)).

(** Days since the first of January of the year 1. *)
Definition date_days (y m d : Z) : Z :=
  let p := y - 1 in
  365 * p + p / 4 - p / 100 + p / 400 + days_before y (Z.to_nat m) + (d - 1).

Definition parse_rfc3339 (s : string) : option Z :=
  '(y, s) ← digits 4 0 s; s ← skip "-" s;
  '(m, s) ← digits 2 0 s; within_Z 1 12 m;; s ← skip "-" s;
  '(d, s) ← digits 2 0 s; s ← skip "T" s;
  '(hh, s) ← one_or_two s; within_Z 0 23 hh;; s ← skip ":" s;
  '(mm, s) ← digits 2 0 s; within_Z 0 59 mm;; s ← skip ":" s;
  '(ss, s) ← digits 2 0 s; within_Z 0 59 ss;;
  let '(ns, s) := opt_fraction s in
  '(off, s) ← zone s;
  if String.eqb s "" then
    within_Z 1 (month_days y m) d;;
    Some ((86400 * date_days y m d + 3600 * hh + 60 * mm + ss - off) * 1000000000 + ns)
  else None.

(** The Unix epoch. *)
Example parse_epoch : parse_rfc3339 "1970-01-01T00:00:00Z" = Some (62135596800 * 1000000000).
Proof. vm_compute. reflexivity. Qed.

Example parse_zone : parse_rfc3339 "2024-02-29T23:30:00.25-01:00" = parse_rfc3339 "2024-03-01T00:30:00.250Z".
Proof. vm_compute. reflexivity. Qed.

Example parse_no_leap_day : parse_rfc3339 "2023-02-29T00:00:00Z" = None.
Proof. vm_compute. reflexivity. Qed.

Example parse_short : parse_rfc3339 "2024-03-01T00:30Z" = None.
Proof. vm_compute. reflexivity. Qed.
