(* ===== verification/Redis.v ===== *)
(** * Redis as the program sees it

    The repositories talk to Redis through go-redis and to the redislock
    package.  Neither is part of the repository, so the server is a parameter
    of the model ([RedisServer]): a state, its observable contents and a
    function that executes one command and may fail.  [RedisLaws] states what
    the code relies on: a command that succeeds has its documented effect
    ([rsem]), and a command that fails has either no effect or its documented
    effect (the reply was lost on the way back).

    The program's own code is a term of the free monad [prog]: it is
    independent of the server and runs on any of them ([run]); [wp] is its
    weakest-precondition calculus over all replies a lawful server may give. *)

From S2P Require Import Prelude GoStd.

Local Open Scope Z_scope.

(** ** Contents of a Redis database *)

Inductive rval :=
| RVStr (s : string)
| RVHash (h : gmap string string)
| RVList (l : list string)
| RVSet (X : gset string)
| RVZSet (z : gmap string Z).

#[export] Instance rval_eq_dec : EqDecision rval.
Proof. solve_decision. Defined.

(** Keys with their values, and the time to live (in nanoseconds) set on a key. *)
Record rdb := mkRdb { kv : gmap string rval; ttl : gmap string Z }.

Definition empty_rdb : rdb := mkRdb ∅ ∅.

(** ** Errors *)

(** An error of the connection or of the server. *)
Inductive rerr := RErr (msg : string).

(** The [error] values of the program. *)
Inductive gerr :=
| ERedis (e : rerr)
| ERedisNil
| ELockNotObtained
| ELockNotHeld
| EWorkerNotFound (workerId : string)
| EContainerStateNotFound (containerId : string)
| EWorkerPoolStateNotFound (poolName : string)
| EContainerAlreadyScheduled
| EThrottledByConcurrencyLimit (reason : string)
| ENoSuitableWorkerFound
| ESqlNoRows
| EPanic (msg : string)
| EMsg (msg : string)
| EWrap (msg : string) (e : gerr).

(** [err.Error()] *)
Fixpoint Error (e : gerr) : string :=
  match e with
  | ERedis (RErr msg) => msg
  | ERedisNil => "redis: nil"
  | ELockNotObtained => "redislock: not obtained"
  | ELockNotHeld => "redislock: lock not held"
  | EWorkerNotFound id => "worker not found: " +:+ id
  | EContainerStateNotFound id => "container state not found: " +:+ id
  | EWorkerPoolStateNotFound name => "worker pool state not found: " +:+ name
  | EContainerAlreadyScheduled => "a container with this id is already running or pending"
  | EThrottledByConcurrencyLimit reason => "concurrency_limit_reached: " +:+ reason
  | ENoSuitableWorkerFound => "no suitable worker found for request"
  | ESqlNoRows => "sql: no rows in result set"
  | EPanic msg => msg
  | EMsg msg => msg
  | EWrap msg e' => msg +:+ ": " +:+ Error e'
  end.

#[export] Instance rerr_eq_dec : EqDecision rerr.
Proof. solve_decision. Defined.
#[export] Instance gerr_eq_dec : EqDecision gerr.
Proof. solve_decision. Defined.

(** ** Commands

    The type index is the type of a successful reply.  [CGet] answers [None]
    for [redis.Nil]; [CLockObtain] answers the token of the new lock, or
    [None] for [redislock.ErrNotObtained]; [CLockRelease] answers [false] for
    [redislock.ErrLockNotHeld], and [CLockRetrieve] for a lock that cannot be
    looked up by its token; [CPublish] answers the number of receivers. *)
Inductive rcmd : Type -> Type :=
| CGet (k : string) : rcmd (option string)
| CSet (k v : string) (expire : Z) : rcmd unit
| CDel (ks : list string) : rcmd Z
| CExists (k : string) : rcmd Z
| CExpire (k : string) (d : Z) : rcmd unit
| CHGetAll (k : string) : rcmd (gmap string string)
| CHSet (k : string) (fs : list (string * string)) : rcmd unit
| CSAdd (k m : string) : rcmd unit
| CSRem (k m : string) : rcmd unit
| CSMembers (k : string) : rcmd (list string)
| CRPush (k v : string) : rcmd unit
| CLPop (k : string) : rcmd (option string)
| CLLen (k : string) : rcmd Z
| CZAdd (k : string) (score : Z) (m : string) : rcmd unit
| CZPopMin (k : string) : rcmd (option (string * Z))
| CZCard (k : string) : rcmd Z
| CIncr (k : string) : rcmd Z
| CDecr (k : string) : rcmd Z
| CSetNX (k v : string) (expire : Z) : rcmd bool
| CLRange (k : string) (start stop : Z) : rcmd (list string)
| CScan (pattern : string) : rcmd (list string)
| CLockObtain (k : string) (ttlS retries : Z) : rcmd (option string)
| CLockRelease (k token : string) : rcmd bool
| CLockRetrieve (k token : string) : rcmd bool
| CPublish (channel message : string) : rcmd Z.

(** ** The documented effect of a successful command *)

Definition set_kv (k : string) (v : rval) (d : rdb) : rdb := mkRdb (<[k := v]> (kv d)) (ttl d).
Definition del_kv (k : string) (d : rdb) : rdb := mkRdb (delete k (kv d)) (delete k (ttl d)).

(** HSET writes the field/value pairs in order (at least one is required). *)
Definition hset_fields (fs : list (string * string)) (h : gmap string string) : gmap string string :=
  foldl (λ h p, <[p.1 := p.2]> h) h fs.

(** A key with a time to live that is not positive is removed (EXPIRE).
    A collection that becomes empty is removed with its key. *)
Definition set_or_del (k : string) (X : gset string) (d : rdb) : rdb :=
  if decide (X = ∅) then del_kv k d else set_kv k (RVSet X) d.
Definition list_or_del (k : string) (l : list string) (d : rdb) : rdb :=
  if decide (l = []) then del_kv k d else set_kv k (RVList l) d.
Definition zset_or_del (k : string) (z : gmap string Z) (d : rdb) : rdb :=
  if decide (z = ∅) then del_kv k d else set_kv k (RVZSet z) d.

(** The values a key holds when it is read as a hash, set, list or sorted
    set; an absent key reads as the empty collection, a key of another type
    is an error ([None]). *)
Definition as_hash (v : option rval) : option (gmap string string) :=
  match v with None => Some ∅ | Some (RVHash h) => Some h | _ => None end.
Definition as_set (v : option rval) : option (gset string) :=
  match v with None => Some ∅ | Some (RVSet X) => Some X | _ => None end.
Definition as_list (v : option rval) : option (list string) :=
  match v with None => Some [] | Some (RVList l) => Some l | _ => None end.
Definition as_zset (v : option rval) : option (gmap string Z) :=
  match v with None => Some ∅ | Some (RVZSet z) => Some z | _ => None end.
Definition as_str (v : option rval) : option (option string) :=
  match v with None => Some None | Some (RVStr s) => Some (Some s) | _ => None end.

(** INCR and DECR read a decimal 64-bit integer, an absent key as 0. *)
Definition as_int (v : option rval) : option Z :=
  match v with
  | None => Some 0
  | Some (RVStr s) =>
      match ParseInt 64 s with
      | Some z => if String.eqb s (fmt_int z) then Some z else None
      | None => None
      end
  | _ => None
  end.

(** INCR/DECR by [n]: an error when the result leaves the 64-bit range. *)
Definition incr_by (n : Z) (k : string) (d : rdb) : option (Z * rdb) :=
  match as_int (kv d !! k) with
  | Some z =>
      if bool_decide (in_i 64 (z + n))
      then Some (z + n, set_kv k (RVStr (fmt_int (z + n))) d) else None
  | None => None
  end.

Lemma incr_by_Some n k d r d' :
  incr_by n k d = Some (r, d') <->
  exists z, as_int (kv d !! k) = Some z /\ r = z + n /\ in_i 64 r /\
            d' = set_kv k (RVStr (fmt_int r)) d.
Proof.
  unfold incr_by. destruct (as_int _) as [z|]; [|naive_solver].
  case_bool_decide; naive_solver.
Qed.

Lemma as_int_fmt z : in_i 64 z -> as_int (Some (RVStr (fmt_int z))) = Some z.
Proof. intros H. simpl. by rewrite ParseInt_fmt_int, String.eqb_refl by done. Qed.

(** LRANGE: negative indices count from the end, both ends are included. *)
Definition lrange (l : list string) (start stop : Z) : list string :=
  let n := Z.of_nat (length l) in
  let a := Z.max 0 (if start <? 0 then n + start else start) in
  let b := if stop <? 0 then n + stop else stop in
  take (Z.to_nat (b - a + 1)) (drop (Z.to_nat a) l).

(** The prefix of a pattern [prefix*] without other special characters. *)
Definition glob_prefix (p : string) : option string :=
  match strip_suffix "*" p with
  | Some q =>
      if no_char "*" q && no_char "?" q && no_char "[" q && no_char "\" q then Some q else None
  | None => None
  end.

Definition exists_kv (k : string) (d : rdb) : bool := bool_decide (is_Some (kv d !! k)).

(** [(m, s)] has the lowest score of [z]. *)
Definition zmin (z : gmap string Z) (m : string) (s : Z) : Prop :=
  z !! m = Some s /\ forall m' s', z !! m' = Some s' -> s <= s'.

Definition rsem {R} (c : rcmd R) (d : rdb) : R -> rdb -> Prop :=
  match c in rcmd R return R -> rdb -> Prop with
  | CGet k => λ r d', as_str (kv d !! k) = Some r /\ d' = d
  | CSet k v e => λ _ d',
      d' = mkRdb (<[k := RVStr v]> (kv d))
             (if e =? 0 then delete k (ttl d) else <[k := e]> (ttl d))
  | CDel ks => λ _ d', d' = foldr del_kv d ks
  | CExists k => λ r d', r = (if exists_kv k d then 1 else 0) /\ d' = d
  | CExpire k e => λ _ d',
      d' = if exists_kv k d
           then if e <=? 0 then del_kv k d else mkRdb (kv d) (<[k := e]> (ttl d))
           else d
  | CHGetAll k => λ r d', as_hash (kv d !! k) = Some r /\ d' = d
  | CHSet k fs => λ _ d', exists h,
      fs <> [] /\ as_hash (kv d !! k) = Some h /\ d' = set_kv k (RVHash (hset_fields fs h)) d
  | CSAdd k m => λ _ d', exists X,
      as_set (kv d !! k) = Some X /\ d' = set_kv k (RVSet ({[m]} ∪ X)) d
  | CSRem k m => λ _ d', exists X,
      as_set (kv d !! k) = Some X /\ d' = set_or_del k (X ∖ {[m]}) d
  | CSMembers k => λ r d', exists X,
      as_set (kv d !! k) = Some X /\ r ≡ₚ elements X /\ d' = d
  | CRPush k v => λ _ d', exists l,
      as_list (kv d !! k) = Some l /\ d' = set_kv k (RVList (l ++ [v])) d
  | CLPop k => λ r d', exists l,
      as_list (kv d !! k) = Some l /\ r = head l /\ d' = list_or_del k (tail l) d
  | CLLen k => λ r d', exists l,
      as_list (kv d !! k) = Some l /\ r = Z.of_nat (length l) /\ d' = d
  | CZAdd k s m => λ _ d', exists z,
      as_zset (kv d !! k) = Some z /\ d' = set_kv k (RVZSet (<[m := s]> z)) d
  | CZPopMin k => λ r d', exists z,
      as_zset (kv d !! k) = Some z /\
      match r with
      | None => z = ∅ /\ d' = d
      | Some (m, s) => zmin z m s /\ d' = zset_or_del k (delete m z) d
      end
  | CZCard k => λ r d', exists z,
      as_zset (kv d !! k) = Some z /\ r = Z.of_nat (size z) /\ d' = d
  | CIncr k => λ r d', incr_by 1 k d = Some (r, d')
  | CDecr k => λ r d', incr_by (-1) k d = Some (r, d')
  | CSetNX k v e => λ r d',
      if exists_kv k d then r = false /\ d' = d
      else r = true /\
           d' = mkRdb (<[k := RVStr v]> (kv d))
                  (if e =? 0 then delete k (ttl d) else <[k := e]> (ttl d))
  | CLRange k a b => λ r d', exists l,
      as_list (kv d !! k) = Some l /\ r = lrange l a b /\ d' = d
  | CScan p => λ r d', d' = d /\
      forall q, glob_prefix p = Some q ->
        forall k, k ∈ r <-> is_Some (kv d !! k) /\ HasPrefix k q = true
  | CLockObtain k t _ => λ r d',
      match r with
      | Some tok =>
          kv d !! k = None /\
          d' = mkRdb (<[k := RVStr tok]> (kv d)) (<[k := t * 10 ^ 9]> (ttl d))
      | None => exists_kv k d = true /\ d' = d
      end
  | CLockRelease k tok => λ r d',
      if decide (kv d !! k = Some (RVStr tok))
      then r = true /\ d' = del_kv k d
      else r = false /\ d' = d
  | CLockRetrieve k tok => λ _ d', d' = d
  | CPublish _ _ => λ r d', 0 <= r /\ d' = d
  end.

(** ** The server *)

Class RedisServer := {
  srv : Type;
  view : srv -> rdb;
  exec : forall {R}, rcmd R -> srv -> (rerr + R) * srv;
}.

Class RedisLaws (S : RedisServer) : Prop := {
  exec_ok : forall R (c : rcmd R) (s : srv) (r : R) (s' : srv),
    exec c s = (inr r, s') -> rsem c (view s) r (view s');
  exec_err : forall R (c : rcmd R) (s : srv) (e : rerr) (s' : srv),
    exec c s = (inl e, s') ->
    view s' = view s \/ exists r, rsem c (view s) r (view s');
}.

(** ** Programs *)

(** The in-memory [locks] map of every [RedisLock] of the process: the owner
    (which repository) and the key, to the token. *)
Abbreviation lmap :=
  (@gmap (string * string) (@prod_eq_dec string String.eq_dec string String.eq_dec)
     (@prod_countable string String.eq_dec String.countable string String.eq_dec String.countable)
     string).

Inductive prog (A : Type) : Type :=
| Ret (a : A)
| Do {R : Type} (c : rcmd R) (k : rerr + R -> prog A)
| Loc {R : Type} (f : lmap -> R * lmap) (k : R -> prog A).
Arguments Ret {A} a.
Arguments Do {A R} c k.
Arguments Loc {A R} f k.

Fixpoint pbind {A B} (p : prog A) (f : A -> prog B) : prog B :=
  match p with
  | Ret a => f a
  | Do c k => Do c (λ r, pbind (k r) f)
  | Loc g k => Loc g (λ r, pbind (k r) f)
  end.

Definition cmd {R} (c : rcmd R) : prog (rerr + R) := Do c Ret.

(** Go functions that return [(T, error)]. *)
Abbreviation M A := (prog (gerr + A)).

Definition ok {A} (a : A) : M A := Ret (inr a).
Definition fail {A} (e : gerr) : M A := Ret (inl e).
Definition mbind {A B} (p : M A) (f : A -> M B) : M B :=
  pbind p (λ r, match r with inl e => fail e | inr a => f a end).
(** The command's error is wrapped by [w] (the [fmt.Errorf] of the call). *)
Definition rcall {R} (w : gerr -> gerr) (c : rcmd R) : M R :=
  pbind (cmd c) (λ r, match r with inl e => fail (w (ERedis e)) | inr a => ok a end).

Declare Scope prog_scope.
Delimit Scope prog_scope with prog.
Notation "x <- p ;; q" := (mbind p (λ x, q))
  (at level 100, p at next level, right associativity) : prog_scope.
Notation "p ;; q" := (mbind p (λ _, q)) (at level 100, right associativity) : prog_scope.
Notation "x <~ p ;; q" := (pbind p (λ x, q))
  (at level 100, p at next level, right associativity) : prog_scope.
Notation "p ;~ q" := (pbind p (λ _, q)) (at level 100, right associativity) : prog_scope.
Open Scope prog_scope.

(** [run p s L] executes a program on a server. *)
Fixpoint run {S : RedisServer} {A} (p : prog A) (s : srv) (L : lmap) : A * srv * lmap :=
  match p with
  | Ret a => (a, s, L)
  | Do c k => let '(r, s') := exec c s in run (k r) s' L
  | Loc f k => let '(r, L') := f L in run (k r) s L'
  end.

(** ** Weakest preconditions

    [wpg err p Q d L]: started on contents [d] and lock map [L], [p] ends in a
    result, contents and lock map in [Q], whatever a server answers that
    executes commands as documented and whose failed commands change the
    contents as [err] allows.  [wp] is the case of an arbitrary lawful server
    (a failed command has no effect or its documented one) and [rwp] the case
    of a reliable server, which fails only a command that has no documented
    effect on the contents at hand (a key of the wrong type). *)
Definition lost {R} (c : rcmd R) (d d' : rdb) : Prop := d' = d \/ exists r, rsem c d r d'.
Definition stuck {R} (c : rcmd R) (d d' : rdb) : Prop :=
  d' = d /\ forall r d1, ~ rsem c d r d1.

Fixpoint wpg (err : forall R, rcmd R -> rdb -> rdb -> Prop) {A} (p : prog A)
    (Q : A -> rdb -> lmap -> Prop) (d : rdb) (L : lmap) : Prop :=
  match p with
  | Ret a => Q a d L
  | Do c k =>
      (forall r d', rsem c d r d' -> wpg err (k (inr r)) Q d' L) /\
      (forall e d', err _ c d d' -> wpg err (k (inl e)) Q d' L)
  | Loc f k => wpg err (k (f L).1) Q d (f L).2
  end.

Abbreviation wp := (wpg (@lost)).
Abbreviation rwp := (wpg (@stuck)).

Section wp_rules.
Context {err : forall R, rcmd R -> rdb -> rdb -> Prop}.

Lemma wp_mono {A} (p : prog A) (Q Q' : A -> rdb -> lmap -> Prop) d L :
  (forall a d L, Q a d L -> Q' a d L) -> wpg err p Q d L -> wpg err p Q' d L.
Proof.
  intros HQ. revert d L. induction p as [a|R c k IH|R f k IH]; simpl; intros d L.
  - apply HQ.
  - intros [H1 H2]. split; intros; apply IH; auto.
  - apply IH.
Qed.

Lemma wp_pbind {A B} (p : prog A) (f : A -> prog B) Q d L :
  wpg err (pbind p f) Q d L <-> wpg err p (λ a d' L', wpg err (f a) Q d' L') d L.
Proof.
  revert d L. induction p as [a|R c k IH|R g k IH]; simpl; intros d L.
  - done.
  - split; intros [H1 H2]; split; intros; apply IH; auto.
  - apply IH.
Qed.

Lemma wp_mbind {A B} (p : M A) (f : A -> M B) Q d L :
  wpg err (mbind p f) Q d L <->
  wpg err p (λ r d' L',
    match r with inl e => Q (inl e) d' L' | inr a => wpg err (f a) Q d' L' end) d L.
Proof.
  unfold mbind. rewrite wp_pbind.
  split; apply wp_mono; by intros [e|a] d' L'.
Qed.

(** Every program ends. *)
Lemma wp_any {A} (p : prog A) d L : wpg err p (λ _ _ _, True) d L.
Proof. revert d L. induction p as [a|R c k IH|R f k IH]; simpl; intros d L; auto. Qed.

Lemma wp_rcall {R} w (c : rcmd R) Q d L :
  (forall r d', rsem c d r d' -> Q (inr r) d' L) ->
  (forall e d', err _ c d d' -> Q (inl (w (ERedis e))) d' L) ->
  wpg err (rcall w c) Q d L.
Proof. intros H1 H2. split; simpl; auto. Qed.

Lemma wp_cmd {R} (c : rcmd R) Q d L :
  (forall r d', rsem c d r d' -> Q (inr r) d' L) ->
  (forall e d', err _ c d d' -> Q (inl e) d' L) ->
  wpg err (cmd c) Q d L.
Proof. intros H1 H2. split; simpl; auto. Qed.
Lemma wp_Ret {A} (a : A) (Q : A -> rdb -> lmap -> Prop) d L : Q a d L -> wpg err (Ret a) Q d L.
Proof. exact id. Qed.
Lemma wp_Loc {A R} (f : lmap -> R * lmap) (k : R -> prog A) (Q : A -> rdb -> lmap -> Prop) d L :
  wpg err (k (f L).1) Q d (f L).2 -> wpg err (Loc f k) Q d L.
Proof. exact id. Qed.
End wp_rules.

(** What holds for all lawful replies holds for the reliable ones. *)
Lemma rwp_wp {A} (p : prog A) Q d L : wp p Q d L -> rwp p Q d L.
Proof.
  revert d L. induction p as [a|R c k IH|R f k IH]; simpl; intros d L.
  - done.
  - intros [H1 H2]. split; intros; apply IH; auto. apply H2. left. by destruct H.
  - apply IH.
Qed.

(** A server is reliable from the states in [ok_state], which it never leaves,
    when it fails only commands that have no documented effect. *)
Definition reliable `{S : RedisServer} (ok_state : srv -> Prop) : Prop :=
  forall R (c : rcmd R) (s : srv), ok_state s ->
    ok_state (exec c s).2 /\
    forall e, (exec c s).1 = inl e -> stuck c (view s) (view (exec c s).2).

(** A property of all lawful replies is a property of every lawful server. *)
Lemma run_wp `{HS : !RedisServer, HL : !RedisLaws HS} {A} (p : prog A) Q s L :
  wp p Q (view s) L ->
  let '(a, s', L') := run p s L in Q a (view s') L'.
Proof.
  revert s L. induction p as [a|R c k IH|R f k IH]; simpl; intros s L.
  - done.
  - intros [H1 H2]. destruct (exec c s) as [[e|r] s'] eqn:E.
    + apply IH, H2. by apply (exec_err R c s e s').
    + apply IH, H1. by apply exec_ok.
  - intros H. specialize (IH (f L).1 s (f L).2 H). by destruct (f L).
Qed.

Lemma run_rwp `{HS : !RedisServer, HL : !RedisLaws HS} {A} I (p : prog A) Q s L :
  reliable I -> I s -> rwp p Q (view s) L ->
  let '(a, s', L') := run p s L in Q a (view s') L' /\ I s'.
Proof.
  intros HR. revert s L. induction p as [a|R c k IH|R f k IH]; simpl; intros s L HI.
  - done.
  - intros [H1 H2]. destruct (HR R c s HI) as [HI' Hst].
    destruct (exec c s) as [[e|r] s'] eqn:E; simpl in *.
    + apply IH; [done|]. by apply H2, (Hst e).
    + apply IH; [done|]. by apply H1, exec_ok.
  - intros H. specialize (IH (f L).1 s (f L).2 HI H). by destruct (f L).
Qed.

(** The result, contents and lock map at the end of a run. *)
Definition ends `{S : RedisServer} {A} (p : prog A) (s : srv) (L : lmap)
    (Q : A -> rdb -> Prop) : Prop :=
  let '(r, s', _) := run p s L in Q r (view s').

Lemma ends_wp `{S : RedisServer, SL : !RedisLaws S} {A} (p : prog A) s L (Q : A -> rdb -> Prop) :
  wp p (λ r d _, Q r d) (view s) L -> ends p s L Q.
Proof. intros H. by apply (run_wp p (λ r d _, Q r d)). Qed.

Lemma ends_rwp `{S : RedisServer, SL : !RedisLaws S} {A} I (p : prog A) s L (Q : A -> rdb -> Prop) :
  reliable I -> I s -> rwp p (λ r d _, Q r d) (view s) L -> ends p s L Q.
Proof.
  intros HR HI H. pose proof (run_rwp I p _ s L HR HI H) as H'. unfold ends.
  destruct (run p s L) as [[r s'] L']. by destruct H'.
Qed.

Lemma run_pbind `{HS : !RedisServer} {A B} (p : prog A) (f : A -> prog B) s L :
  run (pbind p f) s L = let '(a, s', L') := run p s L in run (f a) s' L'.
Proof.
  revert s L. induction p as [a|R c k IH|R g k IH]; simpl; intros s L.
  - done.
  - destruct (exec c s) as [r s']. apply IH.
  - destruct (g L) as [r L']. apply IH.
Qed.

(** ** A reference server

    An executable server with a fault schedule; it shows that [RedisLaws] can
    be met, and the concrete runs evaluate on it. *)

(** The member with the lowest score. *)
Definition zfind_min (z : gmap string Z) : option (string * Z) :=
  foldr (λ p acc, match acc with
                  | None => Some p
                  | Some q => if p.2 <=? q.2 then Some p else Some q
                  end) None (map_to_list z).

(** The effect of a command, with [tok] the token for a new lock; [None] when
    the key holds a value of another type. *)
Definition rstep {R} (c : rcmd R) (tok : string) (d : rdb) : option (R * rdb) :=
  match c in rcmd R return option (R * rdb) with
  | CGet k => r ← as_str (kv d !! k); Some (r, d)
  | CSet k v e =>
      Some (tt, mkRdb (<[k := RVStr v]> (kv d))
                  (if e =? 0 then delete k (ttl d) else <[k := e]> (ttl d)))
  | CDel ks => Some (Z.of_nat (length ks), foldr del_kv d ks)
  | CExists k => Some (if exists_kv k d then 1 else 0, d)
  | CExpire k e =>
      Some (tt, if exists_kv k d
                then if e <=? 0 then del_kv k d else mkRdb (kv d) (<[k := e]> (ttl d))
                else d)
  | CHGetAll k => h ← as_hash (kv d !! k); Some (h, d)
  | CHSet k fs =>
      h ← as_hash (kv d !! k);
      if decide (fs = []) then None else Some (tt, set_kv k (RVHash (hset_fields fs h)) d)
  | CSAdd k m => X ← as_set (kv d !! k); Some (tt, set_kv k (RVSet ({[m]} ∪ X)) d)
  | CSRem k m => X ← as_set (kv d !! k); Some (tt, set_or_del k (X ∖ {[m]}) d)
  | CSMembers k => X ← as_set (kv d !! k); Some (elements X, d)
  | CRPush k v => l ← as_list (kv d !! k); Some (tt, set_kv k (RVList (l ++ [v])) d)
  | CLPop k => l ← as_list (kv d !! k); Some (head l, list_or_del k (tail l) d)
  | CLLen k => l ← as_list (kv d !! k); Some (Z.of_nat (length l), d)
  | CZAdd k s m => z ← as_zset (kv d !! k); Some (tt, set_kv k (RVZSet (<[m := s]> z)) d)
  | CZPopMin k =>
      z ← as_zset (kv d !! k);
      match zfind_min z with
      | None => Some (None, d)
      | Some (m, s) => Some (Some (m, s), zset_or_del k (delete m z) d)
      end
  | CZCard k => z ← as_zset (kv d !! k); Some (Z.of_nat (size z), d)
  | CIncr k => incr_by 1 k d
  | CDecr k => incr_by (-1) k d
  | CSetNX k v e =>
      Some (if exists_kv k d then (false, d)
            else (true, mkRdb (<[k := RVStr v]> (kv d))
                          (if e =? 0 then delete k (ttl d) else <[k := e]> (ttl d))))
  | CLRange k a b => l ← as_list (kv d !! k); Some (lrange l a b, d)
  | CScan p =>
      let q := default "" (glob_prefix p) in
      Some (filter (λ k, HasPrefix k q = true) (map_to_list (kv d)).*1, d)
  | CLockObtain k t _ =>
      match kv d !! k with
      | None => Some (Some tok, mkRdb (<[k := RVStr tok]> (kv d)) (<[k := t * 10 ^ 9]> (ttl d)))
      | Some _ => Some (None, d)
      end
  | CLockRelease k tok' =>
      if decide (kv d !! k = Some (RVStr tok')) then Some (true, del_kv k d)
      else Some (false, d)
  | CLockRetrieve k tok' => Some (bool_decide (kv d !! k = Some (RVStr tok')), d)
  | CPublish _ _ => Some (0, d)
  end.

Lemma foldr_zmin (l : list (string * Z)) :
  match foldr (λ p acc, match acc with
                  | None => Some p
                  | Some q => if p.2 <=? q.2 then Some p else Some q
                  end) None l with
  | None => l = []
  | Some p => p ∈ l /\ forall q, q ∈ l -> p.2 <= q.2
  end.
Proof.
  induction l as [|p l IH]; simpl; [done|].
  destruct (foldr _ None l) as [q|]; simpl.
  - destruct IH as [H1 H2].
    destruct (Z.leb_spec p.2 q.2); split;
      try set_solver; intros q' [->|Hin]%elem_of_cons; try lia;
      specialize (H2 _ Hin); lia.
  - subst l. split; [set_solver|]. intros q Hq.
    apply list_elem_of_singleton in Hq as ->. lia.
Qed.

Lemma zfind_min_spec z :
  match zfind_min z with
  | None => z = ∅
  | Some (m, s) => zmin z m s
  end.
Proof.
  unfold zfind_min, zmin. pose proof (foldr_zmin (map_to_list z)) as H.
  destruct (foldr _ None (map_to_list z)) as [[m s]|].
  - destruct H as [H1 H2]. split; [by apply elem_of_map_to_list|].
    intros m' s' H. apply elem_of_map_to_list in H. by apply (H2 (m', s')).
  - by apply map_to_list_empty_iff.
Qed.

Lemma rstep_sound {R} (c : rcmd R) tok d r d' :
  rstep c tok d = Some (r, d') -> rsem c d r d'.
Proof.
  destruct c; simpl; intros H;
    try (apply bind_Some in H as (x & Hx & H); simplify_eq; eauto 6; fail);
    simplify_eq; auto.
  - apply bind_Some in H as (x & Hx & H). exists x. by case_decide; simplify_eq.
  - apply bind_Some in H as (x & Hx & H). exists x. split; [done|].
    pose proof (zfind_min_spec x). repeat case_match; simplify_eq; auto.
  - by case_match; simplify_eq.
  - split; [done|]. intros q Hq k. rewrite Hq. simpl.
    rewrite list_elem_of_filter, list_elem_of_fmap. split.
    + intros (Hp & [k' v] & -> & Hk%elem_of_map_to_list). simpl in *. by eauto.
    + intros [[v Hv] Hp]. split; [done|]. exists (k, v). split; [done|].
      by apply elem_of_map_to_list.
  - unfold exists_kv. case_match; simplify_eq; [|done].
    by rewrite bool_decide_true by eauto.
  - case_decide; by simplify_eq.
  - split; [lia|done].
Qed.

Inductive fault := NoFault | FailBefore | FailAfter.

Record refsrv := mkRef { ref_db : rdb; ref_next : nat; ref_faults : list fault }.

Definition ref_token (n : nat) : string := "token-" +:+ String.string_of_list_ascii (replicate n "i"%char).

Definition ref_exec {R} (c : rcmd R) (s : refsrv) : (rerr + R) * refsrv :=
  let '(f, fs) := match ref_faults s with [] => (NoFault, []) | f :: fs => (f, fs) end in
  match f with
  | FailBefore => (inl (RErr "connection"), mkRef (ref_db s) (ref_next s) fs)
  | _ =>
      match rstep c (ref_token (ref_next s)) (ref_db s) with
      | None => (inl (RErr "WRONGTYPE"), mkRef (ref_db s) (ref_next s) fs)
      | Some (r, d') =>
          (match f with NoFault => inr r | _ => inl (RErr "reply lost") end,
           mkRef d' (S (ref_next s)) fs)
      end
  end.

#[export] Instance ref_server : RedisServer :=
  {| srv := refsrv; view := ref_db; exec := @ref_exec |}.

#[export] Instance ref_server_laws : RedisLaws ref_server.
Proof.
  split; intros R c s r s' H; simpl in *; unfold ref_exec in H.
  - destruct (ref_faults s) as [|[] fs];
      repeat case_match; simplify_eq; eauto using rstep_sound.
  - destruct (ref_faults s) as [|[] fs];
      repeat case_match; simplify_eq; simpl; eauto using rstep_sound.
Qed.

(** A server that never loses a command, started on given contents. *)
Definition on (d : rdb) : refsrv := mkRef d 0 [].

Lemma rstep_stuck {R} (c : rcmd R) tok d : rstep c tok d = None -> stuck c d d.
Proof.
  intros H. split; [done|]. intros r d1 Hr.
  destruct c; simpl in *; split_hyps; try done;
    try (apply bind_None in H as [H|(? & ? & H)]; congruence).
  - apply bind_None in H as [H|(? & ? & H)]; [congruence|]. by case_decide.
  - apply bind_None in H as [H|(? & ? & H)]; [congruence|]. repeat case_match; done.
  - repeat case_match; done.
  - repeat case_match; done.
Qed.

Lemma ref_reliable : @reliable ref_server (λ s, ref_faults s = []).
Proof.
  intros R c s Hs. simpl. unfold ref_exec. rewrite Hs.
  destruct (rstep c _ _) as [[r d']|] eqn:E; simpl; split; try done.
  intros _ _. by eapply rstep_stuck.
Qed.
