(* ===== verification/Keys.v ===== *)
(** * Redis keys (pkg/common/keys.go)

    The format strings of the key space and the functions that build keys from
    them.  Distinct families never share a key when the ids they are built from
    contain no colon, and a key determines the ids it was built from. *)

From S2P Require Import Prelude GoStd.

(** [fmt.Sprintf] for formats whose only verb is %s. *)
Fixpoint sprintf (f : string) (args : list string) : string :=
  match f with
  | "" => ""
  | String "%"%char (String "s"%char f') =>
      match args with
      | a :: args' => a +:+ sprintf f' args'
      | [] => "%!s(MISSING)" +:+ sprintf f' []
      end
  | String c f' => String c (sprintf f' args)
  end.

(** ** Formats *)

Definition schedulerPrefix : string := "scheduler:".
Definition schedulerContainerRequests : string := "scheduler:container_requests".
Definition schedulerWorkerLock : string := "scheduler:worker:lock:%s".
Definition schedulerWorkerRequests : string := "scheduler:worker:requests:%s".
Definition schedulerWorkerIndex : string := "scheduler:worker:worker_index".
Definition schedulerWorkerState : string := "scheduler:worker:state:%s".
Definition schedulerContainerConfig : string := "scheduler:container:config:%s".
Definition schedulerContainerState : string := "scheduler:container:state:%s".
Definition schedulerContainerAddress : string := "scheduler:container:container_addr:%s".
Definition schedulerContainerAddressMap : string := "scheduler:container:container_addr_map:%s".
Definition schedulerContainerRequestStatus : string := "scheduler:container:request_status:%s".
Definition schedulerContainerIndex : string := "scheduler:container:index:%s".
Definition schedulerContainerWorkerIndex : string := "scheduler:container:worker:index:%s".
Definition schedulerContainerWorkspaceIndex : string := "scheduler:container:workspace:index:%s".
Definition schedulerWorkerAddress : string := "scheduler:container:worker_addr:%s".
Definition schedulerContainerLock : string := "scheduler:container:lock:%s".
Definition schedulerContainerExitCode : string := "scheduler:container:exit_code:%s".
Definition schedulerCheckpointState : string := "scheduler:checkpoint_state:%s:%s".
Definition schedulerServeLock : string := "scheduler:serve:lock:%s:%s".
Definition schedulerStubState : string := "scheduler:stub:state:%s".
Definition gatewayPrefix : string := "gateway".
Definition gatewayDefaultDeployment : string := "gateway:default_deployment:%s".
Definition gatewayDeploymentMinContainerCount : string := "gateway:min_containers:%s".
Definition gatewayAuthKey : string := "gateway:auth:%s:%s".
Definition workerPrefix : string := "worker".
Definition workerImageLock : string := "worker:%s:image:%s:lock".
Definition workerContainerResourceUsage : string := "worker:%s:container:%s:resource_usage".
Definition workerNetworkLock : string := "worker:network:%s:lock".
Definition workerNetworkIpIndex : string := "worker:network:%s:ip_index".
Definition workerNetworkContainerIp : string := "worker:network:%s:container_ip:%s".
Definition workerPoolPrefix : string := "workerpool".
Definition workerPoolState : string := "workerpool:%s:state".
Definition workerPoolStateLock : string := "workerpool:%s:state:lock".
Definition workerPoolSizerLock : string := "workerpool:%s:sizer:lock".
Definition workerPoolCleanerLock : string := "workerpool:%s:cleaner:lock".
Definition taskPrefix : string := "task".
Definition taskIndex : string := "task:index".
Definition taskIndexByStub : string := "task:%s:%s:stub_index".
Definition taskClaimIndex : string := "task:%s:%s:claim_index".
Definition taskEntry : string := "task:%s:%s:%s".
Definition taskClaim : string := "task:%s:%s:%s:claim".
Definition taskCancel : string := "task:%s:%s:%s:cancel".
Definition taskRetryLock : string := "task:%s:%s:%s:retry_lock".
Definition workspacePrefix : string := "workspace".
Definition workspaceVolumePathDownloadToken : string := "workspace:volume_path_download_token:%s".
Definition workspaceConcurrencyLimit : string := "workspace:concurrency_limit:%s".
Definition workspaceConcurrencyLimitLock : string := "workspace:concurrency_limit:lock:%s".
Definition workspaceAuthorizedToken : string := "workspace:authorization:token:%s".
Definition providerPrefix : string := "provider".
Definition providerMachineState : string := "provider:machine:%s:%s:%s".
Definition providerMachineMetrics : string := "provider:machine:%s:%s:%s:metrics".
Definition providerMachineIndex : string := "provider:machine:%s:%s:machine_index".
Definition providerMachineLock : string := "provider:machine:%s:%s:%s:lock".
Definition tailscalePrefix : string := "tailscale".
Definition tailscaleServiceHostname : string := "tailscale:%s:%s".
Definition containerName : string := "%s-%s-%s".
Definition imageBuildContainerTTL : string := "image:build_container_ttl:%s".

(** ** Key builders *)

Definition SchedulerPrefix : string :=
  schedulerPrefix.
Definition SchedulerWorkerIndex : string :=
  schedulerWorkerIndex.
Definition SchedulerContainerRequests : string :=
  schedulerContainerRequests.
Definition SchedulerWorkerLock (workerId : string) : string :=
  sprintf schedulerWorkerLock [workerId].
Definition SchedulerWorkerRequests (workerId : string) : string :=
  sprintf schedulerWorkerRequests [workerId].
Definition SchedulerWorkerState (workerId : string) : string :=
  sprintf schedulerWorkerState [workerId].
Definition SchedulerContainerLock (containerId : string) : string :=
  sprintf schedulerContainerLock [containerId].
Definition SchedulerServeLock (workspaceName stubId : string) : string :=
  sprintf schedulerServeLock [workspaceName; stubId].
Definition SchedulerContainerState (containerId : string) : string :=
  sprintf schedulerContainerState [containerId].
Definition SchedulerContainerConfig (containerId : string) : string :=
  sprintf schedulerContainerConfig [containerId].
Definition SchedulerContainerIndex (stubId : string) : string :=
  sprintf schedulerContainerIndex [stubId].
Definition SchedulerContainerWorkerIndex (workerId : string) : string :=
  sprintf schedulerContainerWorkerIndex [workerId].
Definition SchedulerContainerWorkspaceIndex (workspaceId : string) : string :=
  sprintf schedulerContainerWorkspaceIndex [workspaceId].
Definition SchedulerContainerAddress (containerId : string) : string :=
  sprintf schedulerContainerAddress [containerId].
Definition SchedulerContainerAddressMap (containerId : string) : string :=
  sprintf schedulerContainerAddressMap [containerId].
Definition SchedulerContainerRequestStatus (containerId : string) : string :=
  sprintf schedulerContainerRequestStatus [containerId].
Definition SchedulerWorkerAddress (containerId : string) : string :=
  sprintf schedulerWorkerAddress [containerId].
Definition SchedulerContainerExitCode (containerId : string) : string :=
  sprintf schedulerContainerExitCode [containerId].
Definition SchedulerCheckpointState (workspaceName checkpointId : string) : string :=
  sprintf schedulerCheckpointState [workspaceName; checkpointId].
Definition SchedulerStubState (stubId : string) : string :=
  sprintf schedulerStubState [stubId].
Definition GatewayPrefix : string :=
  gatewayPrefix.
Definition GatewayDefaultDeployment (appId : string) : string :=
  sprintf gatewayDefaultDeployment [appId].
Definition GatewayAuthKey (appId encodedAuthToken : string) : string :=
  sprintf gatewayAuthKey [appId; encodedAuthToken].
Definition GatewayDeploymentMinContainerCount (appId : string) : string :=
  sprintf gatewayDeploymentMinContainerCount [appId].
Definition WorkerPrefix : string :=
  workerPrefix.
Definition WorkerContainerResourceUsage (workerId containerId : string) : string :=
  sprintf workerContainerResourceUsage [workerId; containerId].
Definition WorkerImageLock (workerId imageId : string) : string :=
  sprintf workerImageLock [workerId; imageId].
Definition WorkerNetworkLock (networkPrefix : string) : string :=
  sprintf workerNetworkLock [networkPrefix].
Definition WorkerNetworkIpIndex (networkPrefix : string) : string :=
  sprintf workerNetworkIpIndex [networkPrefix].
Definition WorkerNetworkContainerIp (networkPrefix containerId : string) : string :=
  sprintf workerNetworkContainerIp [networkPrefix; containerId].
Definition WorkerPoolPrefix : string :=
  workerPoolPrefix.
Definition WorkerPoolStateKey (poolName : string) : string :=
  sprintf workerPoolState [poolName].
Definition WorkerPoolStateLock (poolName : string) : string :=
  sprintf workerPoolStateLock [poolName].
Definition WorkerPoolSizerLock (poolName : string) : string :=
  sprintf workerPoolSizerLock [poolName].
Definition WorkerPoolCleanerLock (poolName : string) : string :=
  sprintf workerPoolCleanerLock [poolName].
Definition TaskPrefix : string :=
  taskPrefix.
Definition TaskIndex : string :=
  taskIndex.
Definition TaskCancel (workspaceName stubId taskId : string) : string :=
  sprintf taskCancel [workspaceName; stubId; taskId].
Definition TaskIndexByStub (workspaceName stubId : string) : string :=
  sprintf taskIndexByStub [workspaceName; stubId].
Definition TaskClaimIndex (workspaceName stubId : string) : string :=
  sprintf taskClaimIndex [workspaceName; stubId].
Definition TaskEntry (workspaceName stubId taskId : string) : string :=
  sprintf taskEntry [workspaceName; stubId; taskId].
Definition TaskClaim (workspaceName stubId taskId : string) : string :=
  sprintf taskClaim [workspaceName; stubId; taskId].
Definition TaskRetryLock (workspaceName stubId taskId : string) : string :=
  sprintf taskRetryLock [workspaceName; stubId; taskId].
Definition WorkspacePrefix : string :=
  workspacePrefix.
Definition WorkspaceConcurrencyLimit (workspaceId : string) : string :=
  sprintf workspaceConcurrencyLimit [workspaceId].
Definition WorkspaceConcurrencyLimitLock (workspaceId : string) : string :=
  sprintf workspaceConcurrencyLimitLock [workspaceId].
Definition WorkspaceVolumePathDownloadToken (token : string) : string :=
  sprintf workspaceVolumePathDownloadToken [token].
Definition WorkspaceAuthorizedToken (token : string) : string :=
  sprintf workspaceAuthorizedToken [token].
Definition TailscalePrefix : string :=
  tailscalePrefix.
Definition TailscaleServiceHostname (serviceName hostName : string) : string :=
  sprintf tailscaleServiceHostname [serviceName; hostName].
Definition ProviderPrefix : string :=
  providerPrefix.
Definition ProviderMachineState (providerName poolName machineId : string) : string :=
  sprintf providerMachineState [providerName; poolName; machineId].
Definition ProviderMachineMetrics (providerName poolName machineId : string) : string :=
  sprintf providerMachineMetrics [providerName; poolName; machineId].
Definition ProviderMachineIndex (providerName poolName : string) : string :=
  sprintf providerMachineIndex [providerName; poolName].
Definition ProviderMachineLock (providerName poolName machineId : string) : string :=
  sprintf providerMachineLock [providerName; poolName; machineId].
Definition ContainerName (prefix stubId containerId : string) : string :=
  sprintf containerName [prefix; stubId; containerId].
Definition ImageBuildContainerTTL (containerId : string) : string :=
  sprintf imageBuildContainerTTL [containerId].

(** ** Keys as segments *)

(** A format split at the colons: literal segments and %s segments. *)
Inductive seg := Lit (s : string) | Arg.

#[export] Instance seg_eq_dec : EqDecision seg.
Proof. solve_decision. Defined.

Definition seg_of (s : string) : seg := if String.eqb s "%s" then Arg else Lit s.
Definition segments (f : string) : list seg := seg_of <$> split_on colon f.
Definition seg_text (g : seg) : string := match g with Lit s => s | Arg => "%s" end.

(** A segment is a verb or plain text. *)
Definition seg_wf (g : seg) : bool :=
  match g with Lit s => no_char "%"%char s && no_colon s | Arg => true end.

Fixpoint join (l : list string) : string :=
  match l with
  | [] => ""
  | [s] => s
  | s :: l' => s +:+ String colon (join l')
  end.

Fixpoint fill (gs : list seg) (args : list string) : list string :=
  match gs with
  | [] => []
  | Lit s :: gs' => s :: fill gs' args
  | Arg :: gs' =>
      match args with a :: args' => a :: fill gs' args' | [] => "%!s(MISSING)" :: fill gs' [] end
  end.

Definition n_args (gs : list seg) : nat := length (filter (λ g, g = Arg) gs).

Lemma join_split f : join (split_on colon f) = f.
Proof.
  induction f as [|a f IH]; [done|]. cbn -[Ascii.ascii_of_nat].
  pose proof (split_on_nonempty colon f).
  destruct (Ascii.eqb_spec a colon) as [->|];
    destruct (split_on colon f) as [|h [|h' t]]; try done; by rewrite <- IH.
Qed.

Lemma join_segments f : join (seg_text <$> segments f) = f.
Proof.
  rewrite <- (join_split f) at 2. f_equal. unfold segments.
  induction (split_on colon f) as [|s l IH]; csimpl; [done|]. rewrite IH.
  unfold seg_of. by destruct (String.eqb_spec s "%s") as [->|].
Qed.

Lemma sprintf_plain s f args :
  no_char "%"%char s = true -> sprintf (s +:+ f) args = s +:+ sprintf f args.
Proof.
  induction s as [|a s IH]; [done|]. intros [H1 H2]%andb_prop.
  change (String a s +:+ sprintf f args) with (String a (s +:+ sprintf f args)).
  rewrite <- IH by done. clear IH.
  assert (a <> "%"%char) as Ha by (by intros ->).
  change (String a s +:+ f) with (String a (s +:+ f)).
  simpl. repeat case_match; congruence.
Qed.

Lemma split_sprintf gs args :
  forallb seg_wf gs = true -> gs <> [] ->
  length args = n_args gs ->
  Forall (λ a, no_colon a = true) args ->
  split_on colon (sprintf (join (seg_text <$> gs)) args) = fill gs args.
Proof.
  revert args. induction gs as [|g gs IH]; [done|]. intros args Hwf _ Hn Hargs.
  apply andb_prop in Hwf as [Hg Hgs].
  destruct gs as [|g' gs]; csimpl.
  - destruct g as [s|]; simpl in *.
    + apply andb_prop in Hg as [H1 H2].
      rewrite <- (str_app_nil_r s) at 1. rewrite sprintf_plain by done. simpl.
      rewrite str_app_nil_r. by rewrite split_on_single.
    + destruct args as [|a [|]]; simpl in Hn; try done. inversion Hargs; subst.
      simpl. rewrite str_app_nil_r. by rewrite split_on_single.
  - destruct g as [s|].
    + apply andb_prop in Hg as [H1 H2]. cbn [seg_text fill].
      rewrite sprintf_plain by done.
      change (sprintf (String colon ?x) args) with (String colon (sprintf x args)).
      rewrite split_on_sep by done. f_equal. by apply IH.
    + destruct args as [|a args]; [done|]. apply Forall_cons in Hargs as [Ha Hargs].
      change (split_on colon (a +:+ String colon (sprintf (join (seg_text <$> g' :: gs)) args))
              = a :: fill (g' :: gs) args).
      rewrite split_on_sep by done. f_equal. apply IH; auto.
Qed.

(** Two formats clash when no choice of colon-free ids gives the same key:
    their lengths differ, or two literal segments differ. *)
Fixpoint seg_clash (g1 g2 : list seg) : bool :=
  match g1, g2 with
  | [], [] => false
  | Lit a :: g1', Lit b :: g2' => negb (String.eqb a b) || seg_clash g1' g2'
  | _ :: g1', _ :: g2' => seg_clash g1' g2'
  | _, _ => true
  end.

Lemma fill_clash g1 g2 a1 a2 : seg_clash g1 g2 = true -> fill g1 a1 <> fill g2 a2.
Proof.
  revert g2 a1 a2. induction g1 as [|x g1 IH]; intros [|y g2] a1 a2 H; simpl in *;
    try done; repeat case_match; simplify_eq; try done.
  all: intros E; simplify_eq; try by eapply IH.
  apply orb_prop in H as [H|H]; [|by eapply IH].
  by rewrite String.eqb_refl in H.
Qed.

Lemma fill_inj g a1 a2 :
  length a1 = n_args g -> length a2 = n_args g -> fill g a1 = fill g a2 -> a1 = a2.
Proof.
  revert a1 a2. induction g as [|[s|] g IH]; intros a1 a2 H1 H2 E.
  - by destruct a1, a2.
  - simpl in E. simplify_eq. by apply IH.
  - destruct a1 as [|x1 a1], a2 as [|x2 a2]; try done. simpl in E.
    simplify_eq. f_equal. apply IH; auto.
Qed.

(** Every format of the key space, except [containerName] (not a key) and the
    bare prefixes. *)
Definition key_formats : list string :=
  [ schedulerContainerRequests; schedulerWorkerLock; schedulerWorkerRequests;
    schedulerWorkerIndex; schedulerWorkerState; schedulerContainerConfig;
    schedulerContainerState; schedulerContainerAddress; schedulerContainerAddressMap;
    schedulerContainerRequestStatus; schedulerContainerIndex; schedulerContainerWorkerIndex;
    schedulerContainerWorkspaceIndex; schedulerWorkerAddress; schedulerContainerLock;
    schedulerContainerExitCode; schedulerCheckpointState; schedulerServeLock;
    schedulerStubState; gatewayDefaultDeployment; gatewayDeploymentMinContainerCount;
    gatewayAuthKey; workerImageLock; workerContainerResourceUsage; workerNetworkLock;
    workerNetworkIpIndex; workerNetworkContainerIp; workerPoolState; workerPoolStateLock;
    workerPoolSizerLock; workerPoolCleanerLock; taskIndex; taskIndexByStub; taskClaimIndex;
    taskEntry; taskClaim; taskCancel; taskRetryLock; workspaceVolumePathDownloadToken;
    workspaceConcurrencyLimit; workspaceConcurrencyLimitLock; workspaceAuthorizedToken;
    providerMachineState; providerMachineMetrics; providerMachineIndex; providerMachineLock;
    tailscaleServiceHostname; imageBuildContainerTTL ].

(** The pairs of formats that colon-free ids can make equal. *)
Definition ambiguous_formats : list (string * string) :=
  [ (workerImageLock, workerNetworkContainerIp);
    (workerContainerResourceUsage, workerNetworkContainerIp);
    (taskIndexByStub, taskEntry); (taskClaimIndex, taskEntry);
    (providerMachineState, providerMachineIndex) ].

Definition format_pair_ok (f1 f2 : string) : bool :=
  String.eqb f1 f2 || seg_clash (segments f1) (segments f2)
  || bool_decide ((f1, f2) ∈ ambiguous_formats) || bool_decide ((f2, f1) ∈ ambiguous_formats).

Definition format_wf (f : string) : bool := forallb seg_wf (segments f).

Lemma key_formats_checked :
  forallb format_wf key_formats &&
  forallb (λ f1, forallb (format_pair_ok f1) key_formats) key_formats = true.
Proof. vm_compute. reflexivity. Qed.

Lemma split_key f args :
  f ∈ key_formats ->
  length args = n_args (segments f) -> Forall (λ a, no_colon a = true) args ->
  split_on colon (sprintf f args) = fill (segments f) args.
Proof.
  intros Hf Hn Ha. rewrite <- (join_segments f) at 1.
  apply split_sprintf; auto.
  - pose proof key_formats_checked as [H _]%andb_prop.
    rewrite forallb_forall in H. apply H. by apply list_elem_of_In.
  - unfold segments. pose proof (split_on_nonempty colon f).
    by destruct (split_on colon f).
Qed.

(** The key space is unambiguous: keys built by two formats of keys.go from ids
    without colons coincide only when format and ids coincide, outside the five
    pairs of [ambiguous_formats] (for instance the entry of a task called
    "stub_index" is the stub index itself). *)
Theorem key_space_injective f1 f2 a1 a2 :
  f1 ∈ key_formats -> f2 ∈ key_formats ->
  length a1 = n_args (segments f1) -> length a2 = n_args (segments f2) ->
  Forall (λ a, no_colon a = true) a1 -> Forall (λ a, no_colon a = true) a2 ->
  sprintf f1 a1 = sprintf f2 a2 ->
  (f1 = f2 /\ a1 = a2) \/ (f1, f2) ∈ ambiguous_formats \/ (f2, f1) ∈ ambiguous_formats.
Proof.
  intros Hf1 Hf2 Hn1 Hn2 Ha1 Ha2 E.
  pose proof (f_equal (split_on colon) E) as Es.
  rewrite !split_key in Es by done.
  pose proof key_formats_checked as [_ Hpairs]%andb_prop.
  rewrite forallb_forall in Hpairs. setoid_rewrite forallb_forall in Hpairs.
  specialize (Hpairs f1 ltac:(by apply list_elem_of_In) f2 ltac:(by apply list_elem_of_In)).
  apply orb_prop in Hpairs as [Hpairs|H]; [|right; right; by apply bool_decide_eq_true in H].
  apply orb_prop in Hpairs as [Hpairs|H]; [|right; left; by apply bool_decide_eq_true in H].
  apply orb_prop in Hpairs as [->%String.eqb_eq|Hc].
  - left. split; [done|]. by eapply fill_inj.
  - by eapply fill_clash in Hc.
Qed.

Lemma key_space_injective_witness :
  sprintf taskEntry ["ws"; "stub"; "stub_index"] = sprintf taskIndexByStub ["ws"; "stub"] /\
  ((taskEntry = taskIndexByStub /\ ["ws"; "stub"; "stub_index"] = ["ws"; "stub"]) \/
   (taskEntry, taskIndexByStub) ∈ ambiguous_formats \/ (taskIndexByStub, taskEntry) ∈ ambiguous_formats).
Proof.
  split; [reflexivity|].
  apply (key_space_injective taskEntry taskIndexByStub ["ws"; "stub"; "stub_index"] ["ws"; "stub"]);
    [apply (bool_decide_unpack _); vm_compute; exact I..|reflexivity|reflexivity|
     repeat constructor|repeat constructor|reflexivity].
Defined.

(** ** Reasoning about concrete key builders *)

(** The builders stay folded under [simpl]. *)
Arguments SchedulerPrefix : simpl never.
Arguments SchedulerWorkerIndex : simpl never.
Arguments SchedulerContainerRequests : simpl never.
Arguments SchedulerWorkerLock : simpl never.
Arguments SchedulerWorkerRequests : simpl never.
Arguments SchedulerWorkerState : simpl never.
Arguments SchedulerContainerLock : simpl never.
Arguments SchedulerServeLock : simpl never.
Arguments SchedulerContainerState : simpl never.
Arguments SchedulerContainerConfig : simpl never.
Arguments SchedulerContainerIndex : simpl never.
Arguments SchedulerContainerWorkerIndex : simpl never.
Arguments SchedulerContainerWorkspaceIndex : simpl never.
Arguments SchedulerContainerAddress : simpl never.
Arguments SchedulerContainerAddressMap : simpl never.
Arguments SchedulerContainerRequestStatus : simpl never.
Arguments SchedulerWorkerAddress : simpl never.
Arguments SchedulerContainerExitCode : simpl never.
Arguments SchedulerCheckpointState : simpl never.
Arguments SchedulerStubState : simpl never.
Arguments GatewayPrefix : simpl never.
Arguments GatewayDefaultDeployment : simpl never.
Arguments GatewayAuthKey : simpl never.
Arguments GatewayDeploymentMinContainerCount : simpl never.
Arguments WorkerPrefix : simpl never.
Arguments WorkerContainerResourceUsage : simpl never.
Arguments WorkerImageLock : simpl never.
Arguments WorkerNetworkLock : simpl never.
Arguments WorkerNetworkIpIndex : simpl never.
Arguments WorkerNetworkContainerIp : simpl never.
Arguments WorkerPoolPrefix : simpl never.
Arguments WorkerPoolStateKey : simpl never.
Arguments WorkerPoolStateLock : simpl never.
Arguments WorkerPoolSizerLock : simpl never.
Arguments WorkerPoolCleanerLock : simpl never.
Arguments TaskPrefix : simpl never.
Arguments TaskIndex : simpl never.
Arguments TaskCancel : simpl never.
Arguments TaskIndexByStub : simpl never.
Arguments TaskClaimIndex : simpl never.
Arguments TaskEntry : simpl never.
Arguments TaskClaim : simpl never.
Arguments TaskRetryLock : simpl never.
Arguments WorkspacePrefix : simpl never.
Arguments WorkspaceConcurrencyLimit : simpl never.
Arguments WorkspaceConcurrencyLimitLock : simpl never.
Arguments WorkspaceVolumePathDownloadToken : simpl never.
Arguments WorkspaceAuthorizedToken : simpl never.
Arguments TailscalePrefix : simpl never.
Arguments TailscaleServiceHostname : simpl never.
Arguments ProviderPrefix : simpl never.
Arguments ProviderMachineState : simpl never.
Arguments ProviderMachineMetrics : simpl never.
Arguments ProviderMachineIndex : simpl never.
Arguments ProviderMachineLock : simpl never.
Arguments ContainerName : simpl never.
Arguments ImageBuildContainerTTL : simpl never.

(** Keys of two builders with different literal prefixes differ. *)
Ltac key_ne :=
  solve [ let E := fresh in intros E; vm_compute in E; discriminate E
        | let E := fresh in intros E; symmetry in E; vm_compute in E; discriminate E
        | done ].

(** Membership of a concrete key in a set of keys. *)
Ltac key_in := solve [ repeat (rewrite ?elem_of_union, ?elem_of_singleton; first [by left | by right | right | done ])
                     | set_solver ].
Ltac key_not_in :=
  rewrite ?not_elem_of_union, ?not_elem_of_singleton; repeat split; key_ne.

#[export] Instance SchedulerWorkerState_inj : Inj (=) (=) SchedulerWorkerState.
Proof.
  intros a b E. unfold SchedulerWorkerState, schedulerWorkerState in E. simpl in E.
  simplify_eq. by rewrite !str_app_nil_r in *.
Qed.

#[export] Instance SchedulerContainerState_inj : Inj (=) (=) SchedulerContainerState.
Proof.
  intros a b E. unfold SchedulerContainerState, schedulerContainerState in E. simpl in E.
  simplify_eq. by rewrite !str_app_nil_r in *.
Qed.

Lemma last_segment_worker_state id :
  no_colon id = true -> last_segment (SchedulerWorkerState id) = id.
Proof.
  intros H. unfold SchedulerWorkerState, schedulerWorkerState. simpl. rewrite str_app_nil_r.
  by apply (last_segment_app "scheduler:worker:state").
Qed.
