(* ===== verification/Types.v ===== *)
(** * The program's data types (pkg/types)

    Structs as records: a [string] is [string], every integer type is [Z] (its
    width is enforced where values are computed or parsed), [time.Time] is the
    number of nanoseconds since the epoch, a pointer is an [option], a slice is a
    [list] and [float64] is its IEEE-754 bit pattern.  Each record's fields carry
    a prefix, since Rocq projections share one name space. *)

From S2P Require Import Prelude GoStd.

Local Open Scope Z_scope.

(** ** Structs *)

Record MountPointConfig := mkMountPointConfig {
  mp_BucketName : string;
  mp_AccessKey : string;
  mp_SecretKey : string;
  mp_EndpointURL : string;
  mp_Region : string;
  mp_ReadOnly : bool;
  mp_ForcePathStyle : bool;
}.
#[export] Instance MountPointConfig_eq_dec : EqDecision MountPointConfig.
Proof. solve_decision. Defined.

Record Mount := mkMount {
  mt_LocalPath : string;
  mt_MountPath : string;
  mt_LinkPath : string;
  mt_ReadOnly : bool;
  mt_MountType : string;
  mt_MountPointConfig : option MountPointConfig;
}.
#[export] Instance Mount_eq_dec : EqDecision Mount.
Proof. solve_decision. Defined.

Record ConcurrencyLimit := mkConcurrencyLimit {
  cl_Id : Z;
  cl_ExternalId : string;
  cl_WorkspaceId : Z;
  cl_GPULimit : Z;
  cl_CPUMillicoreLimit : Z;
  cl_CreatedAt : Z;
  cl_UpdatedAt : Z;
}.
#[export] Instance ConcurrencyLimit_eq_dec : EqDecision ConcurrencyLimit.
Proof. solve_decision. Defined.

Record WorkspaceStorage := mkWorkspaceStorage {
  ws_Id : option Z;
  ws_ExternalId : option string;
  ws_BucketName : option string;
  ws_AccessKey : option string;
  ws_SecretKey : option string;
  ws_EndpointUrl : option string;
  ws_Region : option string;
  ws_CreatedAt : option Z;
  ws_UpdatedAt : option Z;
}.
#[export] Instance WorkspaceStorage_eq_dec : EqDecision WorkspaceStorage.
Proof. solve_decision. Defined.

Record Workspace := mkWorkspace {
  wk_Id : Z;
  wk_ExternalId : string;
  wk_Name : string;
  wk_CreatedAt : Z;
  wk_UpdatedAt : Z;
  wk_SigningKey : option string;
  wk_VolumeCacheEnabled : bool;
  wk_MultiGpuEnabled : bool;
  wk_ConcurrencyLimitId : option Z;
  wk_ConcurrencyLimit : option ConcurrencyLimit;
  wk_StorageId : option Z;
  wk_Storage : option WorkspaceStorage;
}.
#[export] Instance Workspace_eq_dec : EqDecision Workspace.
Proof. solve_decision. Defined.

Record Object := mkObject {
  ob_Id : Z;
  ob_ExternalId : string;
  ob_Hash : string;
  ob_Size : Z;
  ob_WorkspaceId : Z;
  ob_CreatedAt : Z;
}.
#[export] Instance Object_eq_dec : EqDecision Object.
Proof. solve_decision. Defined.

Record App := mkApp {
  ap_Id : Z;
  ap_ExternalId : string;
  ap_Name : string;
  ap_Description : string;
  ap_WorkspaceId : Z;
  ap_CreatedAt : Z;
  ap_UpdatedAt : Z;
  ap_DeletedAt : option Z;
}.
#[export] Instance App_eq_dec : EqDecision App.
Proof. solve_decision. Defined.

Record Stub := mkStub {
  st_Id : Z;
  st_ExternalId : string;
  st_Name : string;
  st_Type : string;
  st_Config : string;
  st_ConfigVersion : Z;
  st_ObjectId : Z;
  st_WorkspaceId : Z;
  st_CreatedAt : Z;
  st_UpdatedAt : Z;
  st_Public : bool;
  st_AppId : Z;
}.
#[export] Instance Stub_eq_dec : EqDecision Stub.
Proof. solve_decision. Defined.

Record StubWithRelated := mkStubWithRelated {
  sr_Stub : Stub;
  sr_Workspace : Workspace;
  sr_Object : Object;
  sr_App : option App;
}.
#[export] Instance StubWithRelated_eq_dec : EqDecision StubWithRelated.
Proof. solve_decision. Defined.

Record Checkpoint := mkCheckpoint {
  ck_Id : Z;
  ck_CheckpointId : string;
  ck_ExternalId : string;
  ck_SourceContainerId : string;
  ck_ContainerIp : string;
  ck_Status : string;
  ck_RemoteKey : string;
  ck_WorkspaceId : Z;
  ck_StubId : Z;
  ck_StubType : string;
  ck_AppId : Z;
  ck_ExposedPorts : list Z;
  ck_CreatedAt : Z;
  ck_LastRestoredAt : Z;
  ck_DeletedAt : option Z;
}.
#[export] Instance Checkpoint_eq_dec : EqDecision Checkpoint.
Proof. solve_decision. Defined.

Record BuildOptions := mkBuildOptions {
  bo_SourceImage : option string;
  bo_Dockerfile : option string;
  bo_BuildCtxObject : option string;
  bo_SourceImageCreds : string;
  bo_BuildSecrets : list string;
}.
#[export] Instance BuildOptions_eq_dec : EqDecision BuildOptions.
Proof. solve_decision. Defined.

Record Container := mkContainer {
  c_ContainerId : string;
  c_StubId : string;
  c_Status : string;
  c_ScheduledAt : Z;
  c_StartedAt : Z;
  c_WorkspaceId : string;
  c_WorkerId : string;
  c_MachineId : string;
  c_DeploymentId : string;
}.
#[export] Instance Container_eq_dec : EqDecision Container.
Proof. solve_decision. Defined.

Record ContainerState := mkContainerState {
  cs_ContainerId : string;
  cs_StubId : string;
  cs_Status : string;
  cs_ScheduledAt : Z;
  cs_WorkspaceId : string;
  cs_Gpu : string;
  cs_GpuCount : Z;
  cs_Cpu : Z;
  cs_Memory : Z;
  cs_StartedAt : Z;
}.
#[export] Instance ContainerState_eq_dec : EqDecision ContainerState.
Proof. solve_decision. Defined.

Record Worker := mkWorker {
  w_Id : string;
  w_Status : string;
  w_TotalCpu : Z;
  w_TotalMemory : Z;
  w_TotalGpuCount : Z;
  w_FreeCpu : Z;
  w_FreeMemory : Z;
  w_FreeGpuCount : Z;
  w_Gpu : string;
  w_PoolName : string;
  w_MachineId : string;
  w_ResourceVersion : Z;
  w_RequiresPoolSelector : bool;
  w_Priority : Z;
  w_Preemptable : bool;
  w_BuildVersion : string;
  w_ActiveContainers : list Container;
  w_Runtime : string;
}.
#[export] Instance Worker_eq_dec : EqDecision Worker.
Proof. solve_decision. Defined.

Record ContainerRequest := mkContainerRequest {
  cr_ContainerId : string;
  cr_EntryPoint : list string;
  cr_Env : list string;
  cr_Cpu : Z;
  cr_Memory : Z;
  cr_Gpu : string;
  cr_GpuRequest : list string;
  cr_GpuCount : Z;
  cr_ImageId : string;
  cr_StubId : string;
  cr_WorkspaceId : string;
  cr_Workspace : Workspace;
  cr_Stub : StubWithRelated;
  cr_Timestamp : Z;
  cr_Mounts : list Mount;
  cr_RetryCount : Z;
  cr_PoolSelector : string;
  cr_Preemptable : bool;
  cr_CheckpointEnabled : bool;
  cr_BuildOptions : BuildOptions;
  cr_Ports : list Z;
  cr_CostPerMs : Z;
  cr_AppId : string;
  cr_Checkpoint : option Checkpoint;
  cr_ConfigPath : string;
  cr_ImageCredentials : string;
  cr_BuildRegistryCredentials : string;
  cr_BlockNetwork : bool;
  cr_AllowList : list string;
  cr_DockerEnabled : bool;
}.
#[export] Instance ContainerRequest_eq_dec : EqDecision ContainerRequest.
Proof. solve_decision. Defined.

Record WorkerPoolState := mkWorkerPoolState {
  ps_Status : string;
  ps_SchedulingLatency : Z;
  ps_FreeGpu : Z;
  ps_FreeCpu : Z;
  ps_FreeMemory : Z;
  ps_PendingWorkers : Z;
  ps_AvailableWorkers : Z;
  ps_PendingContainers : Z;
  ps_RunningContainers : Z;
  ps_RegisteredMachines : Z;
  ps_PendingMachines : Z;
  ps_ReadyMachines : Z;
}.
#[export] Instance WorkerPoolState_eq_dec : EqDecision WorkerPoolState.
Proof. solve_decision. Defined.

Record WorkerPoolSizingConfig := mkWorkerPoolSizingConfig {
  sz_MinFreeCpu : Z;
  sz_MinFreeMemory : Z;
  sz_MinFreeGpu : Z;
  sz_DefaultWorkerCpu : Z;
  sz_DefaultWorkerMemory : Z;
  sz_DefaultWorkerGpuType : string;
  sz_DefaultWorkerGpuCount : Z;
}.
#[export] Instance WorkerPoolSizingConfig_eq_dec : EqDecision WorkerPoolSizingConfig.
Proof. solve_decision. Defined.

Record StopContainerArgs := mkStopContainerArgs {
  sa_ContainerId : string;
  sa_Force : bool;
  sa_Reason : string;
}.
#[export] Instance StopContainerArgs_eq_dec : EqDecision StopContainerArgs.
Proof. solve_decision. Defined.

Record ContainerResourceUsage := mkContainerResourceUsage {
  ru_ContainerID : string;
  ru_CpuMillicoresUsed : Z;
  ru_MemoryUsed : Z;
  ru_GpuMemoryUsed : Z;
  ru_GpuMemoryTotal : Z;
  ru_GpuType : string;
}.
#[export] Instance ContainerResourceUsage_eq_dec : EqDecision ContainerResourceUsage.
Proof. solve_decision. Defined.

Record WorkerPoolJobSpecPoolSizingConfig := mkWorkerPoolJobSpecPoolSizingConfig {
  pz_DefaultWorkerCPU : string;
  pz_DefaultWorkerMemory : string;
  pz_DefaultWorkerGpuType : string;
  pz_DefaultWorkerGpuCount : string;
  pz_MinFreeCPU : string;
  pz_MinFreeMemory : string;
  pz_MinFreeGPU : string;
  pz_SharedMemoryLimitPct : string;
}.
#[export] Instance WorkerPoolJobSpecPoolSizingConfig_eq_dec : EqDecision WorkerPoolJobSpecPoolSizingConfig.
Proof. solve_decision. Defined.

Record FailoverConfig := mkFailoverConfig {
  fo_Enabled : bool;
  fo_MaxPendingWorkers : Z;
  fo_MaxSchedulingLatencyMs : Z;
  fo_MinMachinesAvailable : Z;
}.
#[export] Instance FailoverConfig_eq_dec : EqDecision FailoverConfig.
Proof. solve_decision. Defined.

(** ** Field updates *)

Definition set_w_Status (v : string) (x : Worker) : Worker :=
  mkWorker (w_Id x) v (w_TotalCpu x) (w_TotalMemory x) (w_TotalGpuCount x) (w_FreeCpu x) (w_FreeMemory x) (w_FreeGpuCount x) (w_Gpu x) (w_PoolName x) (w_MachineId x) (w_ResourceVersion x) (w_RequiresPoolSelector x) (w_Priority x) (w_Preemptable x) (w_BuildVersion x) (w_ActiveContainers x) (w_Runtime x).
Definition set_w_FreeCpu (v : Z) (x : Worker) : Worker :=
  mkWorker (w_Id x) (w_Status x) (w_TotalCpu x) (w_TotalMemory x) (w_TotalGpuCount x) v (w_FreeMemory x) (w_FreeGpuCount x) (w_Gpu x) (w_PoolName x) (w_MachineId x) (w_ResourceVersion x) (w_RequiresPoolSelector x) (w_Priority x) (w_Preemptable x) (w_BuildVersion x) (w_ActiveContainers x) (w_Runtime x).
Definition set_w_FreeMemory (v : Z) (x : Worker) : Worker :=
  mkWorker (w_Id x) (w_Status x) (w_TotalCpu x) (w_TotalMemory x) (w_TotalGpuCount x) (w_FreeCpu x) v (w_FreeGpuCount x) (w_Gpu x) (w_PoolName x) (w_MachineId x) (w_ResourceVersion x) (w_RequiresPoolSelector x) (w_Priority x) (w_Preemptable x) (w_BuildVersion x) (w_ActiveContainers x) (w_Runtime x).
Definition set_w_FreeGpuCount (v : Z) (x : Worker) : Worker :=
  mkWorker (w_Id x) (w_Status x) (w_TotalCpu x) (w_TotalMemory x) (w_TotalGpuCount x) (w_FreeCpu x) (w_FreeMemory x) v (w_Gpu x) (w_PoolName x) (w_MachineId x) (w_ResourceVersion x) (w_RequiresPoolSelector x) (w_Priority x) (w_Preemptable x) (w_BuildVersion x) (w_ActiveContainers x) (w_Runtime x).
Definition set_w_ResourceVersion (v : Z) (x : Worker) : Worker :=
  mkWorker (w_Id x) (w_Status x) (w_TotalCpu x) (w_TotalMemory x) (w_TotalGpuCount x) (w_FreeCpu x) (w_FreeMemory x) (w_FreeGpuCount x) (w_Gpu x) (w_PoolName x) (w_MachineId x) v (w_RequiresPoolSelector x) (w_Priority x) (w_Preemptable x) (w_BuildVersion x) (w_ActiveContainers x) (w_Runtime x).
Definition set_w_Priority (v : Z) (x : Worker) : Worker :=
  mkWorker (w_Id x) (w_Status x) (w_TotalCpu x) (w_TotalMemory x) (w_TotalGpuCount x) (w_FreeCpu x) (w_FreeMemory x) (w_FreeGpuCount x) (w_Gpu x) (w_PoolName x) (w_MachineId x) (w_ResourceVersion x) (w_RequiresPoolSelector x) v (w_Preemptable x) (w_BuildVersion x) (w_ActiveContainers x) (w_Runtime x).
Definition set_cs_Status (v : string) (x : ContainerState) : ContainerState :=
  mkContainerState (cs_ContainerId x) (cs_StubId x) v (cs_ScheduledAt x) (cs_WorkspaceId x) (cs_Gpu x) (cs_GpuCount x) (cs_Cpu x) (cs_Memory x) (cs_StartedAt x).
Definition set_cs_StartedAt (v : Z) (x : ContainerState) : ContainerState :=
  mkContainerState (cs_ContainerId x) (cs_StubId x) (cs_Status x) (cs_ScheduledAt x) (cs_WorkspaceId x) (cs_Gpu x) (cs_GpuCount x) (cs_Cpu x) (cs_Memory x) v.
Definition set_cs_Gpu (v : string) (x : ContainerState) : ContainerState :=
  mkContainerState (cs_ContainerId x) (cs_StubId x) (cs_Status x) (cs_ScheduledAt x) (cs_WorkspaceId x) v (cs_GpuCount x) (cs_Cpu x) (cs_Memory x) (cs_StartedAt x).
Definition set_cr_Gpu (v : string) (x : ContainerRequest) : ContainerRequest :=
  mkContainerRequest (cr_ContainerId x) (cr_EntryPoint x) (cr_Env x) (cr_Cpu x) (cr_Memory x) v (cr_GpuRequest x) (cr_GpuCount x) (cr_ImageId x) (cr_StubId x) (cr_WorkspaceId x) (cr_Workspace x) (cr_Stub x) (cr_Timestamp x) (cr_Mounts x) (cr_RetryCount x) (cr_PoolSelector x) (cr_Preemptable x) (cr_CheckpointEnabled x) (cr_BuildOptions x) (cr_Ports x) (cr_CostPerMs x) (cr_AppId x) (cr_Checkpoint x) (cr_ConfigPath x) (cr_ImageCredentials x) (cr_BuildRegistryCredentials x) (cr_BlockNetwork x) (cr_AllowList x) (cr_DockerEnabled x).
Definition set_cr_GpuCount (v : Z) (x : ContainerRequest) : ContainerRequest :=
  mkContainerRequest (cr_ContainerId x) (cr_EntryPoint x) (cr_Env x) (cr_Cpu x) (cr_Memory x) (cr_Gpu x) (cr_GpuRequest x) v (cr_ImageId x) (cr_StubId x) (cr_WorkspaceId x) (cr_Workspace x) (cr_Stub x) (cr_Timestamp x) (cr_Mounts x) (cr_RetryCount x) (cr_PoolSelector x) (cr_Preemptable x) (cr_CheckpointEnabled x) (cr_BuildOptions x) (cr_Ports x) (cr_CostPerMs x) (cr_AppId x) (cr_Checkpoint x) (cr_ConfigPath x) (cr_ImageCredentials x) (cr_BuildRegistryCredentials x) (cr_BlockNetwork x) (cr_AllowList x) (cr_DockerEnabled x).
Definition set_cr_Timestamp (v : Z) (x : ContainerRequest) : ContainerRequest :=
  mkContainerRequest (cr_ContainerId x) (cr_EntryPoint x) (cr_Env x) (cr_Cpu x) (cr_Memory x) (cr_Gpu x) (cr_GpuRequest x) (cr_GpuCount x) (cr_ImageId x) (cr_StubId x) (cr_WorkspaceId x) (cr_Workspace x) (cr_Stub x) v (cr_Mounts x) (cr_RetryCount x) (cr_PoolSelector x) (cr_Preemptable x) (cr_CheckpointEnabled x) (cr_BuildOptions x) (cr_Ports x) (cr_CostPerMs x) (cr_AppId x) (cr_Checkpoint x) (cr_ConfigPath x) (cr_ImageCredentials x) (cr_BuildRegistryCredentials x) (cr_BlockNetwork x) (cr_AllowList x) (cr_DockerEnabled x).
Definition set_cr_RetryCount (v : Z) (x : ContainerRequest) : ContainerRequest :=
  mkContainerRequest (cr_ContainerId x) (cr_EntryPoint x) (cr_Env x) (cr_Cpu x) (cr_Memory x) (cr_Gpu x) (cr_GpuRequest x) (cr_GpuCount x) (cr_ImageId x) (cr_StubId x) (cr_WorkspaceId x) (cr_Workspace x) (cr_Stub x) (cr_Timestamp x) (cr_Mounts x) v (cr_PoolSelector x) (cr_Preemptable x) (cr_CheckpointEnabled x) (cr_BuildOptions x) (cr_Ports x) (cr_CostPerMs x) (cr_AppId x) (cr_Checkpoint x) (cr_ConfigPath x) (cr_ImageCredentials x) (cr_BuildRegistryCredentials x) (cr_BlockNetwork x) (cr_AllowList x) (cr_DockerEnabled x).
Definition set_cr_Checkpoint (v : option Checkpoint) (x : ContainerRequest) : ContainerRequest :=
  mkContainerRequest (cr_ContainerId x) (cr_EntryPoint x) (cr_Env x) (cr_Cpu x) (cr_Memory x) (cr_Gpu x) (cr_GpuRequest x) (cr_GpuCount x) (cr_ImageId x) (cr_StubId x) (cr_WorkspaceId x) (cr_Workspace x) (cr_Stub x) (cr_Timestamp x) (cr_Mounts x) (cr_RetryCount x) (cr_PoolSelector x) (cr_Preemptable x) (cr_CheckpointEnabled x) (cr_BuildOptions x) (cr_Ports x) (cr_CostPerMs x) (cr_AppId x) v (cr_ConfigPath x) (cr_ImageCredentials x) (cr_BuildRegistryCredentials x) (cr_BlockNetwork x) (cr_AllowList x) (cr_DockerEnabled x).
Definition set_cr_ImageCredentials (v : string) (x : ContainerRequest) : ContainerRequest :=
  mkContainerRequest (cr_ContainerId x) (cr_EntryPoint x) (cr_Env x) (cr_Cpu x) (cr_Memory x) (cr_Gpu x) (cr_GpuRequest x) (cr_GpuCount x) (cr_ImageId x) (cr_StubId x) (cr_WorkspaceId x) (cr_Workspace x) (cr_Stub x) (cr_Timestamp x) (cr_Mounts x) (cr_RetryCount x) (cr_PoolSelector x) (cr_Preemptable x) (cr_CheckpointEnabled x) (cr_BuildOptions x) (cr_Ports x) (cr_CostPerMs x) (cr_AppId x) (cr_Checkpoint x) (cr_ConfigPath x) v (cr_BuildRegistryCredentials x) (cr_BlockNetwork x) (cr_AllowList x) (cr_DockerEnabled x).
Definition set_cr_BuildRegistryCredentials (v : string) (x : ContainerRequest) : ContainerRequest :=
  mkContainerRequest (cr_ContainerId x) (cr_EntryPoint x) (cr_Env x) (cr_Cpu x) (cr_Memory x) (cr_Gpu x) (cr_GpuRequest x) (cr_GpuCount x) (cr_ImageId x) (cr_StubId x) (cr_WorkspaceId x) (cr_Workspace x) (cr_Stub x) (cr_Timestamp x) (cr_Mounts x) (cr_RetryCount x) (cr_PoolSelector x) (cr_Preemptable x) (cr_CheckpointEnabled x) (cr_BuildOptions x) (cr_Ports x) (cr_CostPerMs x) (cr_AppId x) (cr_Checkpoint x) (cr_ConfigPath x) (cr_ImageCredentials x) v (cr_BlockNetwork x) (cr_AllowList x) (cr_DockerEnabled x).
Definition set_ps_Status (v : string) (x : WorkerPoolState) : WorkerPoolState :=
  mkWorkerPoolState v (ps_SchedulingLatency x) (ps_FreeGpu x) (ps_FreeCpu x) (ps_FreeMemory x) (ps_PendingWorkers x) (ps_AvailableWorkers x) (ps_PendingContainers x) (ps_RunningContainers x) (ps_RegisteredMachines x) (ps_PendingMachines x) (ps_ReadyMachines x).
Definition set_sz_MinFreeCpu (v : Z) (x : WorkerPoolSizingConfig) : WorkerPoolSizingConfig :=
  mkWorkerPoolSizingConfig v (sz_MinFreeMemory x) (sz_MinFreeGpu x) (sz_DefaultWorkerCpu x) (sz_DefaultWorkerMemory x) (sz_DefaultWorkerGpuType x) (sz_DefaultWorkerGpuCount x).
Definition set_sz_MinFreeMemory (v : Z) (x : WorkerPoolSizingConfig) : WorkerPoolSizingConfig :=
  mkWorkerPoolSizingConfig (sz_MinFreeCpu x) v (sz_MinFreeGpu x) (sz_DefaultWorkerCpu x) (sz_DefaultWorkerMemory x) (sz_DefaultWorkerGpuType x) (sz_DefaultWorkerGpuCount x).
Definition set_sz_MinFreeGpu (v : Z) (x : WorkerPoolSizingConfig) : WorkerPoolSizingConfig :=
  mkWorkerPoolSizingConfig (sz_MinFreeCpu x) (sz_MinFreeMemory x) v (sz_DefaultWorkerCpu x) (sz_DefaultWorkerMemory x) (sz_DefaultWorkerGpuType x) (sz_DefaultWorkerGpuCount x).
Definition set_sz_DefaultWorkerCpu (v : Z) (x : WorkerPoolSizingConfig) : WorkerPoolSizingConfig :=
  mkWorkerPoolSizingConfig (sz_MinFreeCpu x) (sz_MinFreeMemory x) (sz_MinFreeGpu x) v (sz_DefaultWorkerMemory x) (sz_DefaultWorkerGpuType x) (sz_DefaultWorkerGpuCount x).
Definition set_sz_DefaultWorkerMemory (v : Z) (x : WorkerPoolSizingConfig) : WorkerPoolSizingConfig :=
  mkWorkerPoolSizingConfig (sz_MinFreeCpu x) (sz_MinFreeMemory x) (sz_MinFreeGpu x) (sz_DefaultWorkerCpu x) v (sz_DefaultWorkerGpuType x) (sz_DefaultWorkerGpuCount x).
Definition set_sz_DefaultWorkerGpuType (v : string) (x : WorkerPoolSizingConfig) : WorkerPoolSizingConfig :=
  mkWorkerPoolSizingConfig (sz_MinFreeCpu x) (sz_MinFreeMemory x) (sz_MinFreeGpu x) (sz_DefaultWorkerCpu x) (sz_DefaultWorkerMemory x) v (sz_DefaultWorkerGpuCount x).
Definition set_sz_DefaultWorkerGpuCount (v : Z) (x : WorkerPoolSizingConfig) : WorkerPoolSizingConfig :=
  mkWorkerPoolSizingConfig (sz_MinFreeCpu x) (sz_MinFreeMemory x) (sz_MinFreeGpu x) (sz_DefaultWorkerCpu x) (sz_DefaultWorkerMemory x) (sz_DefaultWorkerGpuType x) v.

(** ** Constants *)

Definition WorkerStatusAvailable : string := "available".
Definition WorkerStatusPending : string := "pending".
Definition WorkerStatusDisabled : string := "disabled".
Definition WorkerStateTtlS : Z := 60.

Definition ContainerStatusPending : string := "PENDING".
Definition ContainerStatusRunning : string := "RUNNING".
Definition ContainerStatusStopping : string := "STOPPING".

Definition ContainerRequestStatusFailed : string := "failed".

Definition second : Z := 10 ^ 9.
Definition minute : Z := 60 * second.

Definition ContainerRequestStatusTTL : Z := 10 * minute.
Definition ContainerExitCodeTtlS : Z := 300.
Definition ContainerStateTtlSWhilePending : Z := 600.
Definition ContainerStateTtlS : Z := 120.
Definition ContainerResourceUsageEmissionInterval : Z := 3 * second.

Definition StubStateDegraded : string := "degraded".
Definition StubStateWarning : string := "warning".
Definition StubStateHealthy : string := "healthy".

Definition WorkerPoolStatusHealthy : string := "HEALTHY".
Definition WorkerPoolStatusDegraded : string := "DEGRADED".

Definition PoolModeLocal : string := "local".
Definition PoolModeExternal : string := "external".

Definition ClipVersion2 : Z := 2.
Definition WorkerUserCodeVolume : string := "/mnt/code".
Definition StubTypeSandbox : string := "sandbox".
Definition BuildContainerPrefix : string := "build-".

Inductive CapacityUpdateType := AddCapacity | RemoveCapacity | InvalidCapacityUpdate (n : Z).

(** ** GPU types (pkg/types/gpu.go) *)

Definition GPU_A10G : string := "A10G".
Definition GPU_A100_40 : string := "A100-40".
Definition GPU_A100_80 : string := "A100-80".
Definition GPU_L4 : string := "L4".
Definition GPU_T4 : string := "T4".
Definition GPU_H100 : string := "H100".
Definition GPU_A6000 : string := "A6000".
Definition GPU_RTX4090 : string := "RTX4090".
Definition GPU_L40S : string := "L40S".
Definition GPU_MPS : string := "MPS".
Definition NO_GPU : string := "NO_GPU".
Definition GPU_ANY : string := "any".

Definition AllGPUTypes : list string :=
  [GPU_A10G; GPU_A100_40; GPU_A100_80; GPU_L4; GPU_T4; GPU_H100; GPU_A6000;
   GPU_RTX4090; GPU_L40S; GPU_MPS; GPU_ANY].

(** A Go map filled by [m[k] = i] over a slice: the last index wins. *)
Fixpoint index_map_from (i : Z) (l : list string) (m : gmap string Z) : gmap string Z :=
  match l with
  | [] => m
  | k :: l' => index_map_from (i + 1) l' (<[k := i]> m)
  end.

Definition GPUTypesToMap (gpuTypes : list string) : gmap string Z :=
  index_map_from 0 gpuTypes ∅.

(** ** Exit codes (pkg/types/worker.go) *)

Definition ContainerExitCodeInvalidCustomImage : Z := 555.
Definition ContainerExitCodeIncorrectImageArch : Z := 556.
Definition ContainerExitCodeIncorrectImageOs : Z := 557.
Definition ContainerExitCodeUnknownError : Z := 1.
Definition ContainerExitCodeSuccess : Z := 0.
Definition ContainerExitCodeOomKill : Z := 137.
Definition ContainerExitCodeSigterm : Z := 143.
Definition ContainerExitCodeScheduler : Z := 558.
Definition ContainerExitCodeTtl : Z := 559.
Definition ContainerExitCodeUser : Z := 560.
Definition ContainerExitCodeAdmin : Z := 561.

Definition IsFailed (c : Z) : bool :=
  negb (bool_decide (c ∈
    [ContainerExitCodeSuccess; ContainerExitCodeOomKill; ContainerExitCodeScheduler;
     ContainerExitCodeTtl; ContainerExitCodeUser; ContainerExitCodeAdmin])).

(** ** Methods of ContainerRequest (pkg/types/scheduler.go) *)

Definition RequiresGPU (c : ContainerRequest) : bool :=
  negb (bool_decide (cr_GpuRequest c = [])) || negb (String.eqb (cr_Gpu c) "").

Definition IsBuildRequest (c : ContainerRequest) : bool :=
  bool_decide (is_Some (bo_SourceImage (cr_BuildOptions c)))
  || bool_decide (is_Some (bo_Dockerfile (cr_BuildOptions c))).

Definition WorkspaceStorageAvailable (w : Workspace) : bool :=
  match wk_Storage w with
  | Some st => match ws_Id st with Some id => 0 <? id | None => false end
  | None => false
  end.

Definition StorageAvailable (c : ContainerRequest) : bool :=
  WorkspaceStorageAvailable (cr_Workspace c).

Definition VolumeCacheCompatible (c : ContainerRequest) : bool :=
  if IsBuildRequest c || cr_CheckpointEnabled c || StorageAvailable c then false
  else wk_VolumeCacheEnabled (cr_Workspace c).

Definition getPointerOrNil (s : string) : option string :=
  if String.eqb s "" then None else Some s.

Definition getStringOrDefault (s : option string) : string := default "" s.

(** ** Zero values *)

(** [time.Time{}] is midnight, January 1, year 1 UTC. *)
Definition zeroTime : Z := -62135596800 * second.

Definition zeroWorker (id : string) : Worker :=
  mkWorker id "" 0 0 0 0 0 0 "" "" "" 0 false 0 false "" [] "".
Definition zeroContainerState : ContainerState :=
  mkContainerState "" "" "" 0 "" "" 0 0 0 0.
Definition zeroWorkerPoolState : WorkerPoolState :=
  mkWorkerPoolState "" 0 0 0 0 0 0 0 0 0 0 0.
Definition zeroConcurrencyLimit : ConcurrencyLimit := mkConcurrencyLimit 0 "" 0 0 0 zeroTime zeroTime.
Definition zeroWorkspace : Workspace :=
  mkWorkspace 0 "" "" zeroTime zeroTime None false false None None None None.
Definition zeroStub : Stub := mkStub 0 "" "" "" "" 0 0 0 zeroTime zeroTime false 0.
Definition zeroObject : Object := mkObject 0 "" "" 0 0 zeroTime.
Definition zeroBuildOptions : BuildOptions := mkBuildOptions None None None "" [].
