(* ===== verification/Codec.v ===== *)
(** * Structs as Redis hashes (pkg/common/redis.go, ToSlice and ToStruct)

    [ToSlice] flattens a struct into field/value pairs by its redis tags and
    [ToStruct] reads such pairs back, both by reflection.  A reflected struct is
    the list of its fields in declaration order, each with its redis tag and its
    value; a value carries the kind and width the Go code switches on.  The kinds
    are those of the structs the repositories store: strings, integers, booleans
    and floats (a [float64] is represented by the decimal text that %v prints for
    it and [ParseFloat] reads back); a field of any other kind is printed by [ToSlice] and left alone by
    [ToStruct] ([GOther]). *)

From S2P Require Import Prelude GoStd Redis Types.

Local Open Scope Z_scope.

Inductive gval :=
| GString (s : string)
| GInt (bits : Z) (z : Z)
| GUint (bits : Z) (z : Z)
| GBool (b : bool)
| GFloat (text : string)
| GOther (printed : string).

(** The decimal floats [strconv.ParseFloat] reads: sign, digits, fraction, exponent. *)
Definition is_digit (c : Ascii.ascii) : bool :=
  let n := Ascii.nat_of_ascii c in (48 <=? n)%nat && (n <=? 57)%nat.

Fixpoint skip_digits (s : string) : bool * string :=
  match s with
  | String c s' => if is_digit c then (true, (skip_digits s').2) else (false, s)
  | "" => (false, "")
  end.

Definition skip_sign (s : string) : string :=
  match s with
  | String c s' => if Ascii.eqb c "+" || Ascii.eqb c "-" then s' else s
  | "" => ""
  end.

Definition skip_fraction (s : string) : bool * string :=
  match s with
  | String c s' => if Ascii.eqb c "." then skip_digits s' else (false, s)
  | "" => (false, "")
  end.

Definition is_exponent (s : string) : bool :=
  match s with
  | "" => true
  | String c s' =>
      (Ascii.eqb c "e" || Ascii.eqb c "E") &&
      (let '(d, r) := skip_digits (skip_sign s') in d && String.eqb r "")
  end.

Definition is_float (s : string) : bool :=
  let '(d1, s1) := skip_digits (skip_sign s) in
  let '(d2, s2) := skip_fraction s1 in
  (d1 || d2) && is_exponent s2.

(** A struct under reflection: [(tag, value)] per field. *)
Abbreviation gstruct := (list (string * gval)).

(** [tagVal == "" || tagVal == "-"] *)
Definition tag_skipped (tag : string) : bool := String.eqb tag "" || String.eqb tag "-".

(** [fmt.Sprintf("%v", fieldValue)] *)
Definition sprint_v (g : gval) : string :=
  match g with
  | GString s => s
  | GInt _ z => fmt_int z
  | GUint _ z => fmt_int z
  | GBool b => fmt_bool b
  | GFloat f => f
  | GOther p => p
  end.

Fixpoint ToSlice (v : gstruct) : list (string * string) :=
  match v with
  | [] => []
  | (tag, g) :: v' =>
      if tag_skipped tag then ToSlice v' else (tag, sprint_v g) :: ToSlice v'
  end.

(** One field of [ToStruct]: the value [v] of the hash is parsed for the field's
    kind; when it does not parse the field gets Go's zero value. *)
Definition set_field (g : gval) (v : string) : gval :=
  match g with
  | GString _ => GString v
  | GInt bits _ => GInt bits (default 0 (ParseInt bits v))
  | GUint bits _ => GUint bits (default 0 (ParseUint bits v))
  | GBool _ => GBool (default false (ParseBool v))
  | GFloat _ => GFloat (if is_float v then v else "0")
  | GOther p => GOther p
  end.

Definition ToStruct_field (m : gmap string string) (f : string * gval) : string * gval :=
  let '(tag, g) := f in
  if tag_skipped tag then (tag, g)
  else match m !! tag with
       | Some v => (tag, set_field g v)
       | None => (tag, g)
       end.

Definition ToStruct (m : gmap string string) (out : gstruct) : gstruct :=
  ToStruct_field m <$> out.

(** ** Typed structs

    [fields] is the reflected view of a record and [with_fields] writes a
    reflected view back into it. *)
Class Reflect (A : Type) := {
  fields : A -> gstruct;
  with_fields : A -> gstruct -> A;
}.

Definition to_slice `{Reflect A} (x : A) : list (string * string) := ToSlice (fields x).
Definition to_struct `{Reflect A} (m : gmap string string) (out : A) : A :=
  with_fields out (ToStruct m (fields out)).

Arguments to_slice : simpl never.
Arguments to_struct : simpl never.

(** How %v prints a slice of containers; the text is written to the hash and
    never read back. *)
Class GoFmt := { fmt_containers : list Container -> string }.

#[export] Instance Worker_Reflect `{GoFmt} : Reflect Worker := {
  fields w :=
    [ ("id", GString (w_Id w)); ("status", GString (w_Status w));
      ("total_cpu", GInt 64 (w_TotalCpu w)); ("total_memory", GInt 64 (w_TotalMemory w));
      ("total_gpu_count", GUint 32 (w_TotalGpuCount w)); ("free_cpu", GInt 64 (w_FreeCpu w));
      ("free_memory", GInt 64 (w_FreeMemory w)); ("gpu_count", GUint 32 (w_FreeGpuCount w));
      ("gpu", GString (w_Gpu w)); ("pool_name", GString (w_PoolName w));
      ("machine_id", GString (w_MachineId w)); ("resource_version", GInt 64 (w_ResourceVersion w));
      ("requires_pool_selector", GBool (w_RequiresPoolSelector w));
      ("priority", GInt 32 (w_Priority w)); ("preemptable", GBool (w_Preemptable w));
      ("build_version", GString (w_BuildVersion w));
      ("active_containers", GOther (fmt_containers (w_ActiveContainers w)));
      ("runtime", GString (w_Runtime w)) ];
  with_fields w fs :=
    match fs with
    | [ (_, GString id); (_, GString status); (_, GInt _ tcpu); (_, GInt _ tmem);
        (_, GUint _ tgpu); (_, GInt _ fcpu); (_, GInt _ fmem); (_, GUint _ fgpu);
        (_, GString gpu); (_, GString pool); (_, GString machine); (_, GInt _ version);
        (_, GBool sel); (_, GInt _ prio); (_, GBool preempt); (_, GString build);
        (_, GOther _); (_, GString runtime) ] =>
        mkWorker id status tcpu tmem tgpu fcpu fmem fgpu gpu pool machine version sel prio
          preempt build (w_ActiveContainers w) runtime
    | _ => w
    end }.

#[export] Instance ContainerState_Reflect : Reflect ContainerState := {
  fields s :=
    [ ("container_id", GString (cs_ContainerId s)); ("stub_id", GString (cs_StubId s));
      ("status", GString (cs_Status s)); ("scheduled_at", GInt 64 (cs_ScheduledAt s));
      ("workspace_id", GString (cs_WorkspaceId s)); ("gpu", GString (cs_Gpu s));
      ("gpu_count", GUint 32 (cs_GpuCount s)); ("cpu", GInt 64 (cs_Cpu s));
      ("memory", GInt 64 (cs_Memory s)); ("started_at", GInt 64 (cs_StartedAt s)) ];
  with_fields s fs :=
    match fs with
    | [ (_, GString cid); (_, GString stub); (_, GString status); (_, GInt _ sched);
        (_, GString ws); (_, GString gpu); (_, GUint _ gpuCount); (_, GInt _ cpu);
        (_, GInt _ mem); (_, GInt _ started) ] =>
        mkContainerState cid stub status sched ws gpu gpuCount cpu mem started
    | _ => s
    end }.

#[export] Instance WorkerPoolState_Reflect : Reflect WorkerPoolState := {
  fields s :=
    [ ("status", GString (ps_Status s)); ("scheduling_latency", GInt 64 (ps_SchedulingLatency s));
      ("free_gpu", GUint 64 (ps_FreeGpu s)); ("free_cpu", GInt 64 (ps_FreeCpu s));
      ("free_memory", GInt 64 (ps_FreeMemory s)); ("pending_workers", GInt 64 (ps_PendingWorkers s));
      ("available_workers", GInt 64 (ps_AvailableWorkers s));
      ("pending_containers", GInt 64 (ps_PendingContainers s));
      ("running_containers", GInt 64 (ps_RunningContainers s));
      ("registered_machines", GInt 64 (ps_RegisteredMachines s));
      ("pending_machines", GInt 64 (ps_PendingMachines s));
      ("ready_machines", GInt 64 (ps_ReadyMachines s)) ];
  with_fields s fs :=
    match fs with
    | [ (_, GString status); (_, GInt _ lat); (_, GUint _ fgpu); (_, GInt _ fcpu);
        (_, GInt _ fmem); (_, GInt _ pw); (_, GInt _ aw); (_, GInt _ pc); (_, GInt _ rc);
        (_, GInt _ rm); (_, GInt _ pm); (_, GInt _ ready) ] =>
        mkWorkerPoolState status lat fgpu fcpu fmem pw aw pc rc rm pm ready
    | _ => s
    end }.

#[export] Instance ConcurrencyLimit_Reflect : Reflect ConcurrencyLimit := {
  fields c :=
    [ ("-", GUint 64 (cl_Id c)); ("external_id", GString (cl_ExternalId c));
      ("workspace_id", GUint 64 (cl_WorkspaceId c)); ("gpu_limit", GUint 32 (cl_GPULimit c));
      ("cpu_millicore_limit", GUint 32 (cl_CPUMillicoreLimit c));
      ("-", GOther ""); ("-", GOther "") ];
  with_fields c fs :=
    match fs with
    | [ (_, GUint _ id); (_, GString ext); (_, GUint _ ws); (_, GUint _ gpu); (_, GUint _ cpu);
        (_, GOther _); (_, GOther _) ] =>
        mkConcurrencyLimit id ext ws gpu cpu (cl_CreatedAt c) (cl_UpdatedAt c)
    | _ => c
    end }.

(** ** Reading back what was written *)

(** A value of a given kind within its width. *)
Definition gval_ok (g : gval) : Prop :=
  match g with
  | GInt bits z => in_i bits z
  | GUint bits z => in_u bits z
  | GFloat f => is_float f = true
  | _ => True
  end.

Definition same_kind (g1 g2 : gval) : Prop :=
  match g1, g2 with
  | GString _, GString _ | GBool _, GBool _ | GFloat _, GFloat _ | GOther _, GOther _ => True
  | GInt b1 _, GInt b2 _ | GUint b1 _, GUint b2 _ => b1 = b2
  | _, _ => False
  end.

(** The field of [dst] after the value of [src] was stored and read. *)
Definition overlay_field (src dst : string * gval) : string * gval :=
  if tag_skipped dst.1 then dst
  else match src.2 with GOther _ => dst | g => (dst.1, g) end.

Definition same_shape : gstruct -> gstruct -> Prop :=
  Forall2 (λ f1 f2, f1.1 = f2.1 /\ same_kind f1.2 f2.2).

Lemma set_field_sprint g1 g2 :
  gval_ok g1 -> same_kind g1 g2 ->
  set_field g2 (sprint_v g1) = match g1 with GOther _ => g2 | g => g end.
Proof.
  destruct g1, g2; simpl; intros Hok Hk; try done; subst.
  - by rewrite ParseInt_fmt_int.
  - by rewrite ParseUint_fmt_int.
  - by rewrite ParseBool_fmt_bool.
  - by rewrite Hok.
Qed.

(** [ToStruct] on a hash that holds the printed fields of [src]. *)
Lemma ToStruct_holds m src dst :
  same_shape src dst -> Forall (λ f, gval_ok f.2) src ->
  (forall tag g, (tag, g) ∈ src -> tag_skipped tag = false -> m !! tag = Some (sprint_v g)) ->
  ToStruct m dst = zip_with overlay_field src dst.
Proof.
  intros Hsh. induction Hsh as [|[t1 g1] [t2 g2] src dst [Ht Hk] _ IH]; [done|].
  intros [Hok Hoks]%Forall_cons Hm. simpl in *. subst t2. f_equal.
  - unfold overlay_field. simpl. destruct (tag_skipped t1) eqn:E; [done|].
    rewrite (Hm t1 g1) by set_solver. rewrite set_field_sprint by done.
    by destruct g1.
  - apply IH; [done|]. set_solver.
Qed.

Lemma hset_fields_not_in fs h t : t ∉ fs.*1 -> hset_fields fs h !! t = h !! t.
Proof.
  unfold hset_fields. revert h. induction fs as [|[k v] fs IH]; intros h; csimpl; [done|].
  intros [H1 H2]%not_elem_of_cons. rewrite IH by done. by rewrite lookup_insert_ne.
Qed.

Lemma hset_fields_in fs h t v :
  NoDup fs.*1 -> (t, v) ∈ fs -> hset_fields fs h !! t = Some v.
Proof.
  revert h. induction fs as [|[k w] fs IH]; intros h; csimpl; [set_solver|].
  intros [Hk Hnd]%NoDup_cons [[= -> ->]|Hin]%elem_of_cons.
  - change (hset_fields ((k, w) :: fs) h) with (hset_fields fs (<[k := w]> h)).
    rewrite hset_fields_not_in by done. apply lookup_insert_eq.
  - change (hset_fields ((k, w) :: fs) h) with (hset_fields fs (<[k := w]> h)).
    by apply IH.
Qed.

Lemma ToSlice_in src tag g :
  (tag, g) ∈ src -> tag_skipped tag = false -> (tag, sprint_v g) ∈ ToSlice src.
Proof.
  induction src as [|[t g'] src IH]; [set_solver|].
  intros [[= -> ->]|Hin]%elem_of_cons Hs; simpl.
  - rewrite Hs. set_solver.
  - destruct (tag_skipped t); [|apply elem_of_cons; right]; by apply IH.
Qed.

(** HSET of a flattened struct over any previous hash, then [ToStruct] into a
    struct of the same type. *)
Lemma ToStruct_hset_ToSlice h src dst :
  same_shape src dst -> Forall (λ f, gval_ok f.2) src -> NoDup (ToSlice src).*1 ->
  ToStruct (hset_fields (ToSlice src) h) dst = zip_with overlay_field src dst.
Proof.
  intros Hsh Hok Hnd. apply ToStruct_holds; [done..|].
  intros tag g Hin Hs. apply hset_fields_in; [done|]. by apply ToSlice_in.
Qed.

(** Widths of a worker's and of a container state's integers. *)
Definition worker_ok (w : Worker) : Prop :=
  in_i64 (w_TotalCpu w) /\ in_i64 (w_TotalMemory w) /\ in_u32 (w_TotalGpuCount w) /\
  in_i64 (w_FreeCpu w) /\ in_i64 (w_FreeMemory w) /\ in_u32 (w_FreeGpuCount w) /\
  in_i64 (w_ResourceVersion w) /\ in_i32 (w_Priority w).

Definition container_state_ok (s : ContainerState) : Prop :=
  in_i64 (cs_ScheduledAt s) /\ in_u32 (cs_GpuCount s) /\ in_i64 (cs_Cpu s) /\
  in_i64 (cs_Memory s) /\ in_i64 (cs_StartedAt s).

(** The worker as Redis keeps it: everything but the active containers. *)
Definition stored_worker (w : Worker) : Worker :=
  mkWorker (w_Id w) (w_Status w) (w_TotalCpu w) (w_TotalMemory w) (w_TotalGpuCount w)
    (w_FreeCpu w) (w_FreeMemory w) (w_FreeGpuCount w) (w_Gpu w) (w_PoolName w) (w_MachineId w)
    (w_ResourceVersion w) (w_RequiresPoolSelector w) (w_Priority w) (w_Preemptable w)
    (w_BuildVersion w) [] (w_Runtime w).

(** Computes a concrete list of string tags. *)
Ltac nodup_tags := refine (bool_decide_unpack _ _); vm_compute; exact I.

Lemma worker_tags_nodup `{GoFmt} (w : Worker) : NoDup (to_slice w).*1.
Proof. nodup_tags. Qed.

Lemma container_state_tags_nodup (s : ContainerState) : NoDup (to_slice s).*1.
Proof. nodup_tags. Qed.

Lemma pool_state_tags_nodup (s : WorkerPoolState) : NoDup (to_slice s).*1.
Proof. nodup_tags. Qed.

Lemma concurrency_limit_tags_nodup (c : ConcurrencyLimit) : NoDup (to_slice c).*1.
Proof. nodup_tags. Qed.

(** A worker written with HSET and read back is the same worker (its active
    containers apart), whatever the hash held before. *)
Lemma worker_hash_roundtrip `{GoFmt} (w : Worker) (id : string) h :
  worker_ok w -> to_struct (hset_fields (to_slice w) h) (zeroWorker id) = stored_worker w.
Proof.
  intros (H1 & H2 & H3 & H4 & H5 & H6 & H7 & H8). unfold to_struct, to_slice.
  rewrite ToStruct_hset_ToSlice; [reflexivity| | |apply worker_tags_nodup].
  - repeat constructor.
  - repeat first [exact (Forall_nil_2 _) | apply Forall_cons_2; [done|]].
Qed.

Lemma container_state_hash_roundtrip (s out : ContainerState) h :
  container_state_ok s -> to_struct (hset_fields (to_slice s) h) out = s.
Proof.
  intros (H1 & H2 & H3 & H4 & H5). unfold to_struct, to_slice.
  rewrite ToStruct_hset_ToSlice; [by destruct s| | |apply container_state_tags_nodup].
  - repeat constructor.
  - repeat first [exact (Forall_nil_2 _) | apply Forall_cons_2; [done|]].
Qed.

(** ** What [ToStruct] produces is always within the widths *)

Lemma in_i_zero bits z : in_i bits z -> in_i bits 0.
Proof. unfold in_i. lia. Qed.
Lemma in_u_zero bits z : in_u bits z -> in_u bits 0.
Proof. unfold in_u. lia. Qed.

Lemma ParseInt_range bits s z : ParseInt bits s = Some z -> in_i bits z.
Proof.
  unfold ParseInt. intros (x & _ & H)%bind_Some. case_bool_decide; by simplify_eq.
Qed.
Lemma ParseUint_range bits s z : ParseUint bits s = Some z -> in_u bits z.
Proof.
  unfold ParseUint. intros (x & _ & H)%bind_Some. case_bool_decide; by simplify_eq.
Qed.

Lemma set_field_ok g v : gval_ok g -> gval_ok (set_field g v) /\ same_kind (set_field g v) g.
Proof.
  destruct g; simpl; intros H; split; try done.
  - destruct (ParseInt bits v) eqn:E; simpl; eauto using ParseInt_range, in_i_zero.
  - destruct (ParseUint bits v) eqn:E; simpl; eauto using ParseUint_range, in_u_zero.
  - by destruct (is_float v) eqn:E.
Qed.

Lemma same_kind_refl g : same_kind g g.
Proof. by destruct g. Qed.

Lemma ToStruct_ok m out :
  Forall (λ f, gval_ok f.2) out ->
  Forall (λ f, gval_ok f.2) (ToStruct m out) /\ same_shape (ToStruct m out) out.
Proof.
  induction out as [|[t g] out IH]; intros H; [repeat constructor|].
  apply Forall_cons in H as [Hg Hout]. destruct (IH Hout) as [IH1 IH2].
  destruct (set_field_ok g (default "" (m !! t)) Hg) as [H1 H2].
  unfold ToStruct. csimpl. unfold ToStruct_field.
  destruct (tag_skipped t), (m !! t) eqn:E; simpl in *;
    (split; [by constructor | constructor; auto using same_kind_refl]).
Qed.

(** Walks a reflected struct of a known shape. *)
Ltac inv_shape :=
  repeat match goal with
  | H : Forall2 _ ?l (_ :: _) |- _ =>
      let t := fresh "t" in let g := fresh "g" in
      inversion H as [|[t g] ? ? ? [? ?]]; subst; clear H; simpl in *; destruct g; try done
  | H : Forall2 _ ?l [] |- _ => inversion H; subst; clear H
  end.

Lemma to_struct_worker_ok `{GoFmt} h id :
  worker_ok (to_struct h (zeroWorker id)) /\
  w_ActiveContainers (to_struct h (zeroWorker id)) = [].
Proof.
  unfold to_struct.
  destruct (ToStruct_ok h (fields (zeroWorker id))) as [Hok Hsh].
  { repeat first [exact (Forall_nil_2 _) | apply Forall_cons_2; [done|]]. }
  revert Hok Hsh. generalize (ToStruct h (fields (zeroWorker id))). intros l Hok Hsh.
  unfold same_shape in Hsh. simpl in Hsh. inv_shape.
  rewrite !Forall_cons in Hok. simpl in *. unfold worker_ok. naive_solver.
Qed.
