(* ===== verification/Lock.v ===== *)
(** * Distributed locks (pkg/common/redis.go, RedisLock)

    [RedisLock] keeps the locks it obtained in a map and delegates to the
    redislock package.  [with_lock] is the pattern of every locked method:
    acquire, return the error if that fails, otherwise run the body and release
    the lock on the way out ([defer]), ignoring the result of the release. *)

From S2P Require Import Prelude Redis.

Local Open Scope Z_scope.

Definition Acquire (owner key : string) (ttlS retries : Z) : M unit :=
  r <~ cmd (CLockObtain key ttlS retries) ;;
  match r with
  | inl e => fail (ERedis e)
  | inr None => fail ELockNotObtained
  | inr (Some tok) => Loc (λ L, (tt, <[(owner, key) := tok]> L)) (λ _, ok tt)
  end.

Definition Token (owner key : string) : M string :=
  Loc (λ L, (L !! (owner, key), L))
    (λ o, match o with Some tok => ok tok | None => fail ELockNotHeld end).

Definition ReleaseWithToken (key token : string) : M unit :=
  r <~ cmd (CLockRetrieve key token) ;;
  match r with
  | inl e => fail (ERedis e)
  | inr false => fail ELockNotHeld
  | inr true =>
      r' <~ cmd (CLockRelease key token) ;;
      match r' with
      | inl e => fail (ERedis e)
      | inr false => fail ELockNotHeld
      | inr true => ok tt
      end
  end.

Definition Release (owner key : string) : M unit :=
  Loc (λ L, (L !! (owner, key), L))
    (λ o, match o with
          | None => fail ELockNotHeld
          | Some tok =>
              r <~ cmd (CLockRelease key tok) ;;
              match r with
              | inl e => fail (ERedis e)
              | inr false => fail ELockNotHeld
              | inr true => Loc (λ L, (tt, delete (owner, key) L)) (λ _, ok tt)
              end
          end).

Definition with_lock {A} (owner key : string) (ttlS retries : Z) (body : M A) : M A :=
  Acquire owner key ttlS retries ;; (r <~ body ;; Release owner key ;~ Ret r).

(** [SetEx]: the server refuses a time to live that is not positive. *)
Definition SetEx (key value : string) (expire : Z) : M unit :=
  if expire <=? 0 then fail (EMsg "ERR invalid expire time in 'setex' command")
  else rcall (λ e, e) (CSet key value expire).

(** ** Contents up to a set of keys *)

Definition eq_except (ks : gset string) (d d' : rdb) : Prop :=
  forall k, k ∉ ks -> kv d' !! k = kv d !! k /\ ttl d' !! k = ttl d !! k.

#[export] Instance eq_except_refl ks : Reflexive (eq_except ks).
Proof. by intros d k. Qed.
#[export] Instance eq_except_sym ks : Symmetric (eq_except ks).
Proof. intros d d' H k Hk. by destruct (H k Hk). Qed.
#[export] Instance eq_except_trans ks : Transitive (eq_except ks).
Proof.
  intros d1 d2 d3 H1 H2 k Hk.
  destruct (H1 k Hk), (H2 k Hk). by split; etransitivity.
Qed.

Lemma eq_except_weaken ks ks' d d' : ks ⊆ ks' -> eq_except ks d d' -> eq_except ks' d d'.
Proof. intros Hs H k Hk. apply H. set_solver. Qed.

Lemma eq_except_kv ks d d' k : eq_except ks d d' -> k ∉ ks -> kv d' !! k = kv d !! k.
Proof. intros H Hk. by apply H. Qed.

Lemma eq_except_set_kv ks k v d : k ∈ ks -> eq_except ks d (set_kv k v d).
Proof. intros Hk k' Hk'. simpl. split; [|done]. apply lookup_insert_ne. set_solver. Qed.

Lemma eq_except_del_kv ks k d : k ∈ ks -> eq_except ks d (del_kv k d).
Proof. intros Hk k' Hk'. simpl. split; apply lookup_delete_ne; set_solver. Qed.

Lemma eq_except_set_or_del ks k X d : k ∈ ks -> eq_except ks d (set_or_del k X d).
Proof.
  intros. unfold set_or_del. case_decide; auto using eq_except_del_kv, eq_except_set_kv.
Qed.

Lemma eq_except_list_or_del ks k l d : k ∈ ks -> eq_except ks d (list_or_del k l d).
Proof.
  intros. unfold list_or_del. case_decide; auto using eq_except_del_kv, eq_except_set_kv.
Qed.

Lemma eq_except_zset_or_del ks k z d : k ∈ ks -> eq_except ks d (zset_or_del k z d).
Proof.
  intros. unfold zset_or_del. case_decide; auto using eq_except_del_kv, eq_except_set_kv.
Qed.

Lemma eq_except_mkRdb ks k v (d : rdb) t :
  k ∈ ks -> (forall k', k' ∉ ks -> t !! k' = ttl d !! k') ->
  eq_except ks d (mkRdb (<[k := v]> (kv d)) t).
Proof.
  intros Hk Ht k' Hk'. simpl. split; [|by apply Ht]. apply lookup_insert_ne. set_solver.
Qed.

#[export] Hint Resolve eq_except_set_kv eq_except_del_kv eq_except_set_or_del
  eq_except_list_or_del eq_except_zset_or_del : beta9.

(** The keys a command may change. *)
Definition cmd_keys {R} (c : rcmd R) : list string :=
  match c with
  | CGet _ | CExists _ | CHGetAll _ | CSMembers _ | CLLen _ | CZCard _ | CLRange _ _ _
  | CScan _ | CLockRetrieve _ _ | CPublish _ _ => []
  | CSet k _ _ | CExpire k _ | CHSet k _ | CSAdd k _ | CSRem k _ | CRPush k _ | CLPop k
  | CZAdd k _ _ | CZPopMin k | CIncr k | CDecr k | CSetNX k _ _ | CLockObtain k _ _ | CLockRelease k _ => [k]
  | CDel ks => ks
  end.

Lemma eq_except_foldr_del ks l d :
  (forall k, k ∈ l -> k ∈ ks) -> eq_except ks d (foldr del_kv d l).
Proof.
  induction l as [|k l IH]; intros H; simpl; [reflexivity|].
  etransitivity; [apply IH; set_solver|]. apply eq_except_del_kv. set_solver.
Qed.

(** A command leaves every other key alone, whether its reply arrives or not. *)
Lemma rsem_frame {R} (c : rcmd R) ks d r d' :
  (forall k, k ∈ cmd_keys c -> k ∈ ks) -> rsem c d r d' -> eq_except ks d d'.
Proof.
  intros Hks H.
  assert (forall k, cmd_keys c = [k] -> k ∈ ks) as Hk.
  { intros k E. apply Hks. rewrite E. set_solver. }
  destruct c; simpl in *; split_hyps; try reflexivity;
    try specialize (Hk _ eq_refl); auto using eq_except_foldr_del with beta9.
  - apply eq_except_mkRdb; [done|]. intros k' Hk'.
    case_match; [apply lookup_delete_ne|apply lookup_insert_ne]; set_solver.
  - case_match; [|reflexivity]. case_match; [auto with beta9|].
    intros k' Hk'. simpl. split; [done|]. apply lookup_insert_ne. set_solver.
  - repeat case_match; split_hyps; auto with beta9. reflexivity.
  - apply incr_by_Some in H. split_hyps. auto with beta9.
  - apply incr_by_Some in H. split_hyps. auto with beta9.
  - case_match; split_hyps; [reflexivity|].
    apply eq_except_mkRdb; [done|]. intros k' Hk'.
    case_match; [apply lookup_delete_ne|apply lookup_insert_ne]; set_solver.
  - case_match; split_hyps; [|reflexivity].
    apply eq_except_mkRdb; [done|]. intros k' Hk'. apply lookup_insert_ne. set_solver.
  - case_decide; split_hyps; auto with beta9. reflexivity.
Qed.

Lemma lost_frame {R} (c : rcmd R) ks d d' :
  (forall k, k ∈ cmd_keys c -> k ∈ ks) -> lost c d d' -> eq_except ks d d'.
Proof. intros Hks [->|[r H]]; [reflexivity|]. by eapply rsem_frame. Qed.

(** Discharges a frame goal from a command's documented or lost effect. *)
Ltac in_keys :=
  intros ?; simpl; rewrite ?elem_of_cons, ?elem_of_nil;
  intros; destruct_or?; subst; try done;
  rewrite ?elem_of_union, ?elem_of_singleton; tauto.
(** [set_solver] on the goal alone. *)
Ltac sets := clear; set_solver.
Ltac frame :=
  match goal with
  | |- eq_except _ ?d ?d => reflexivity
  | H : rsem ?c ?d ?r ?d' |- eq_except _ ?d ?d' => apply (rsem_frame c _ d r d'); [in_keys|exact H]
  | H : lost ?c ?d ?d' |- eq_except _ ?d ?d' => apply (lost_frame c _ d d'); [in_keys|exact H]
  end.

(** ** Rules for locked sections *)

(** [Q] does not look at the lock's key nor at the lock map. *)
Definition ignores_lock {A} (key : string) (Q : A -> rdb -> lmap -> Prop) : Prop :=
  forall a d d' L L', eq_except {[key]} d d' -> Q a d L -> Q a d' L'.

Lemma wp_release {A} owner key (r : A) Q d L :
  ignores_lock key Q -> Q r d L ->
  wp (Release owner key ;~ Ret r) Q d L.
Proof.
  intros HQ H. unfold Release. simpl.
  destruct (L !! (owner, key)) as [tok|]; simpl; [|done].
  split.
  - intros b d' Hd.
    assert (eq_except {[key]} d d') as Hf
      by (by eapply (rsem_frame (CLockRelease key tok)); [set_solver|]).
    destruct b; simpl; by eapply HQ.
  - intros e d' Hd. simpl. eapply HQ; [|done].
    by eapply (lost_frame (CLockRelease key tok)); [set_solver|].
Qed.

(** A locked method meets [Q] when [Q] ignores the lock, holds of the
    contents at hand for the errors of acquiring, and the body meets it from
    any contents that differ at the lock's key only. *)
Lemma wp_with_lock {A} owner key ttlS retries (body : M A) Q d L :
  ignores_lock key Q ->
  (forall e, e = ELockNotObtained \/ (exists e', e = ERedis e') -> Q (inl e) d L) ->
  (forall d' L', eq_except {[key]} d d' -> wp body Q d' L') ->
  wp (with_lock owner key ttlS retries body) Q d L.
Proof.
  intros HQ Herr Hbody. unfold with_lock, Acquire. simpl. split.
  - intros [tok|] d' Hd; simpl.
    + rewrite wp_pbind. eapply wp_mono; [|apply Hbody].
      * intros r d1 L1 H. by apply wp_release.
      * by eapply (rsem_frame (CLockObtain key ttlS retries) _ _ (Some tok)); [set_solver|].
    + destruct Hd as [_ ->]. apply Herr. by left.
  - intros e d' Hd. simpl. eapply HQ; [|apply Herr; eauto].
    by eapply (lost_frame (CLockObtain key ttlS retries)); [set_solver|].
Qed.

(** On a reliable server a free lock is obtained, and it is free again at the
    end when the body leaves it alone. *)
Lemma rwp_with_lock {A} owner key ttlS retries (body : M A) ks (Q : gerr + A -> rdb -> Prop) d L :
  kv d !! key = None -> key ∉ ks ->
  (forall r d1 d2, eq_except {[key]} d1 d2 -> Q r d1 -> Q r d2) ->
  (forall d1 L1, eq_except {[key]} d d1 ->
    rwp body (λ r d2 L2, Q r d2 /\ eq_except ks d1 d2 /\ L2 = L1) d1 L1) ->
  rwp (with_lock owner key ttlS retries body) (λ r d2 _, Q r d2 /\ kv d2 !! key = None) d L.
Proof.
  intros Hfree Hks HQ Hbody. unfold with_lock, Acquire. simpl. split.
  - intros [tok|] d1 Hd; simpl.
    + rewrite wp_pbind. eapply wp_mono; [|apply Hbody].
      2: by eapply (rsem_frame (CLockObtain key ttlS retries) _ _ (Some tok)); [set_solver|].
      intros r d2 L2 (Hr & Hf & ->). destruct Hd as [_ ->].
      assert (kv d2 !! key = Some (RVStr tok)) as Ht.
      { rewrite (eq_except_kv _ _ _ _ Hf Hks). simpl. apply lookup_insert_eq. }
      unfold Release. simpl. rewrite lookup_insert_eq. simpl. split.
      * intros b d3 Hd3. rewrite decide_True in Hd3 by done. destruct Hd3 as [-> ->].
        simpl. split; [|apply lookup_delete_eq].
        eapply HQ; [|done]. apply eq_except_del_kv. set_solver.
      * intros e d3 [_ Hno]. exfalso. eapply (Hno true). simpl. by rewrite decide_True.
    + destruct Hd as [Hd _]. unfold exists_kv in Hd. rewrite Hfree in Hd.
      apply bool_decide_eq_true in Hd as [? ?]. done.
  - intros e d' [_ Hno]. exfalso. by eapply (Hno (Some "")).
Qed.

(** ** Footprints

    [touches ks p]: whatever the replies, [p] leaves every key outside [ks] and
    the lock map alone. *)
Definition touches {A} (ks : gset string) (p : prog A) : Prop :=
  forall d L, wp p (λ _ d' L', eq_except ks d d' /\ L' = L) d L.

Lemma wp_and {err : forall R, rcmd R -> rdb -> rdb -> Prop} {A} (p : prog A) Q1 Q2 d L :
  wpg err p Q1 d L -> wpg err p Q2 d L -> wpg err p (λ a d' L', Q1 a d' L' /\ Q2 a d' L') d L.
Proof.
  revert d L. induction p as [a|R c k IH|R f k IH]; simpl; intros d L; [done| |apply IH].
  intros [H1 H2] [H3 H4]. split; auto.
Qed.

Lemma wp_impl {err : forall R, rcmd R -> rdb -> rdb -> Prop} {A} (p : prog A) (P : Prop) Q d L :
  (P -> wpg err p Q d L) -> wpg err p (λ a d' L', P -> Q a d' L') d L.
Proof.
  revert d L. induction p as [a|R c k IH|R f k IH]; simpl; intros d L H; [done| |by apply IH].
  split; intros r d' Hr; apply IH; intros HP; by apply (H HP).
Qed.

Lemma touches_ret {A} ks (a : A) : touches ks (Ret a).
Proof. intros d L. by split. Qed.

Lemma touches_pbind {A B} ks (p : prog A) (f : A -> prog B) :
  touches ks p -> (forall a, touches ks (f a)) -> touches ks (pbind p f).
Proof.
  intros Hp Hf d L. apply wp_pbind. eapply wp_mono; [|apply Hp].
  intros a d1 L1 [H1 ->]. eapply wp_mono; [|apply Hf].
  intros b d2 L2 [H2 ->]. split; [|done]. by etransitivity.
Qed.

Lemma touches_mbind {A B} ks (p : M A) (f : A -> M B) :
  touches ks p -> (forall a, touches ks (f a)) -> touches ks (mbind p f).
Proof.
  intros Hp Hf. unfold mbind. apply touches_pbind; [done|].
  intros [e|a]; [apply touches_ret|apply Hf].
Qed.

Lemma touches_cmd {R} ks (c : rcmd R) : (forall k, k ∈ cmd_keys c -> k ∈ ks) -> touches ks (cmd c).
Proof.
  intros H d L. apply wp_cmd; intros; (split; [|done]); [by eapply rsem_frame|by eapply lost_frame].
Qed.

Lemma touches_rcall {R} ks w (c : rcmd R) :
  (forall k, k ∈ cmd_keys c -> k ∈ ks) -> touches ks (rcall w c).
Proof.
  intros H. apply touches_pbind; [by apply touches_cmd|].
  intros [e|a]; apply touches_ret.
Qed.

(** Adds the footprint to what is known of a run on a reliable server. *)
Lemma rwp_touches {A} ks (p : prog A) Q d L :
  touches ks p -> rwp p Q d L ->
  rwp p (λ a d' L', Q a d' L' /\ eq_except ks d d' /\ L' = L) d L.
Proof. intros Ht HQ. apply wp_and; [done|]. apply rwp_wp, Ht. Qed.

Create HintDb touches.
#[export] Hint Resolve touches_ret : touches.

(** Footprint of a program made of commands. *)
Ltac touches :=
  repeat first
    [ progress intros | apply touches_ret
    | apply touches_mbind | apply touches_pbind
    | apply touches_rcall; in_keys | apply touches_cmd; in_keys
    | solve [auto with touches] | case_match ].

(** ** Symbolic execution

    [wp_bind] and [wp_call] step through a program; the monad stays folded
    under [simpl]. *)

Ltac wp_bind := cbn beta iota; first [ apply wp_mbind | apply wp_pbind ].
Ltac wp_call :=
  first [ apply wp_rcall | apply wp_cmd ]; [ intros ? ? ? | intros ? ? ? ].

Arguments wpg : simpl never.
Arguments mbind : simpl never.
Arguments pbind : simpl never.
Arguments rcall : simpl never.
Arguments cmd : simpl never.
Arguments with_lock : simpl never.
