(* ===== verification/Interleave.v ===== *)
(** * Processes that interleave their Redis commands

    The gateway replicas, the scheduler and the workers are processes, and the
    goroutines of one process, that share a Redis server.  Each command is
    atomic, and between two commands of one process any command of another may
    run.  [sstep] is one such step of a pool of threads; [protocol_sound] is the
    rely-guarantee rule that the properties of shared keys are proved with: each
    thread is checked alone ([follows]) against the moves the protocol allows. *)

From S2P Require Import Prelude Redis Lock.

(** ** Steps *)

(** One atomic step of a program: a command with its documented effect, a
    command whose reply is lost, or an access to the process's lock map. *)
Definition astep {A} (p : prog A) (d : rdb) (L : lmap) (p' : prog A) (d' : rdb) (L' : lmap) : Prop :=
  match p with
  | Ret _ => False
  | Do c k =>
      L' = L /\
      ((exists r, rsem c d r d' /\ p' = k (inr r)) \/
       (exists e, lost c d d' /\ p' = k (inl e)))
  | Loc f k => d' = d /\ L' = (f L).2 /\ p' = k (f L).1
  end.

(** A client enters, uses and leaves a shared resource, again and again; an
    error of entering sends it back. *)
Record client := mkClient {
  c_enter : M unit;
  c_body : M unit;
  c_leave : M unit;
}.

Inductive phase :=
| Outside
| Entering (p : M unit)
| Inside (p : M unit)
| Leaving (p : M unit).

(** A thread is such a client or a background loop [for { body }]. *)
Inductive thread :=
| Session (c : client) (ph : phase)
| Loop (body cur : prog unit).

Inductive tstep : thread -> rdb -> lmap -> thread -> rdb -> lmap -> Prop :=
| t_begin c d L : tstep (Session c Outside) d L (Session c (Entering (c_enter c))) d L
| t_enter c p d L p' d' L' : astep p d L p' d' L' ->
    tstep (Session c (Entering p)) d L (Session c (Entering p')) d' L'
| t_entered c d L :
    tstep (Session c (Entering (Ret (inr tt)))) d L (Session c (Inside (c_body c))) d L
| t_refused c e d L : tstep (Session c (Entering (Ret (inl e)))) d L (Session c Outside) d L
| t_body c p d L p' d' L' : astep p d L p' d' L' ->
    tstep (Session c (Inside p)) d L (Session c (Inside p')) d' L'
| t_done c r d L : tstep (Session c (Inside (Ret r))) d L (Session c (Leaving (c_leave c))) d L
| t_leave c p d L p' d' L' : astep p d L p' d' L' ->
    tstep (Session c (Leaving p)) d L (Session c (Leaving p')) d' L'
| t_left c r d L : tstep (Session c (Leaving (Ret r))) d L (Session c Outside) d L
| t_loop body p d L p' d' L' : astep p d L p' d' L' ->
    tstep (Loop body p) d L (Loop body p') d' L'
| t_again body r d L : tstep (Loop body (Ret r)) d L (Loop body body) d L.

(** The lock map is keyed by owner and key, so one map serves all processes. *)
Record system := mkSys { threads : list thread; db : rdb; locks : lmap }.

Inductive sstep : system -> system -> Prop :=
| s_thread i ts t t' d d' L L' :
    ts !! i = Some t -> tstep t d L t' d' L' ->
    sstep (mkSys ts d L) (mkSys (<[i := t']> ts) d' L').

Definition reaches : system -> system -> Prop := rtc sstep.

(** Threads before their first step. *)
Definition fresh (t : thread) : Prop :=
  match t with
  | Session _ ph => ph = Outside
  | Loop body cur => cur = body
  end.

Definition inside (t : thread) : bool :=
  match t with Session _ (Inside _) => true | _ => false end.

(** The number of clients that use the resource. *)
Definition users (s : system) : nat := length (filter (λ t, inside t = true) (threads s)).

(** ** Running a schedule

    [next] is the step a thread takes when no command fails, [tok] the token of a
    lock it obtains; [schedule] runs the threads with the given numbers in turn. *)

Definition anext {A} (tok : string) (p : prog A) (d : rdb) (L : lmap) : option (prog A * rdb * lmap) :=
  match p with
  | Ret _ => None
  | Do c k =>
      match rstep c tok d with Some (r, d') => Some (k (inr r), d', L) | None => None end
  | Loc f k => Some (k (f L).1, d, (f L).2)
  end.

Definition next (tok : string) (t : thread) (d : rdb) (L : lmap) : option (thread * rdb * lmap) :=
  let lift {A} (mk : prog A -> thread) (p : prog A) :=
    match anext tok p d L with Some (p', d', L') => Some (mk p', d', L') | None => None end in
  match t with
  | Session c Outside => Some (Session c (Entering (c_enter c)), d, L)
  | Session c (Entering (Ret (inr tt))) => Some (Session c (Inside (c_body c)), d, L)
  | Session c (Entering (Ret (inl _))) => Some (Session c Outside, d, L)
  | Session c (Entering p) => lift (λ p', Session c (Entering p')) p
  | Session c (Inside (Ret _)) => Some (Session c (Leaving (c_leave c)), d, L)
  | Session c (Inside p) => lift (λ p', Session c (Inside p')) p
  | Session c (Leaving (Ret _)) => Some (Session c Outside, d, L)
  | Session c (Leaving p) => lift (λ p', Session c (Leaving p')) p
  | Loop body (Ret _) => Some (Loop body body, d, L)
  | Loop body p => lift (Loop body) p
  end.

Fixpoint schedule (order : list nat) (s : system) : system :=
  match order with
  | [] => s
  | i :: order' =>
      match threads s !! i with
      | Some t =>
          match next (ref_token i) t (db s) (locks s) with
          | Some (t', d', L') => schedule order' (mkSys (<[i := t']> (threads s)) d' L')
          | None => s
          end
      | None => s
      end
  end.

Lemma anext_astep {A} tok (p : prog A) d L p' d' L' :
  anext tok p d L = Some (p', d', L') -> astep p d L p' d' L'.
Proof.
  destruct p as [a|R c k|R f k]; simpl; intros H; [done| |by simplify_eq].
  destruct (rstep c tok d) as [[r d1]|] eqn:E; [|done]. simplify_eq.
  split; [done|]. left. exists r. split; [by eapply rstep_sound|done].
Qed.

Lemma next_tstep tok t d L t' d' L' :
  next tok t d L = Some (t', d', L') -> tstep t d L t' d' L'.
Proof.
  intros H.
  destruct t as [c [|[[e|[]]| |]|[[]| |]|[[]| |]]|body [[]| |]]; simpl in H; simplify_eq;
    try (by constructor);
    repeat case_match; simplify_eq; constructor; eapply (anext_astep tok); simpl;
    first [done | by match goal with H : rstep _ _ _ = _ |- _ => rewrite H end].
Qed.

Lemma schedule_reaches order s : reaches s (schedule order s).
Proof.
  revert s. induction order as [|i order IH]; intros s; simpl; [apply rtc_refl|].
  destruct (threads s !! i) as [t|] eqn:Hi; [|apply rtc_refl].
  destruct (next _ t (db s) (locks s)) as [[[t' d'] L']|] eqn:Hn; [|apply rtc_refl].
  eapply rtc_l; [|apply IH]. destruct s as [ts d L]. simpl in *.
  apply (s_thread i ts t t' d d' L L' Hi). by eapply next_tstep.
Qed.

(** ** Thread-local checking *)

Section follows.
Context {G : Type} (move : G -> rdb -> G -> rdb -> Prop).

(** [follows p g post]: whatever the contents between its steps and whatever
    commands fail, each step of [p] is a move of the protocol, and [p] ends in
    [post]. *)
Fixpoint follows {A} (p : prog A) (g : G) (post : A -> G -> Prop) : Prop :=
  match p with
  | Ret a => post a g
  | Do c k =>
      forall d,
        (forall r d', rsem c d r d' ->
          exists g', move g d g' d' /\ follows (k (inr r)) g' post) /\
        (forall e d', lost c d d' ->
          exists g', move g d g' d' /\ follows (k (inl e)) g' post)
  | Loc f k =>
      forall L, exists g', (g' = g \/ forall d, move g d g' d) /\ follows (k (f L).1) g' post
  end.

Lemma follows_astep {A} (p : prog A) g post d L p' d' L' :
  follows p g post -> astep p d L p' d' L' ->
  exists g', (move g d g' d' \/ (g' = g /\ d' = d)) /\ follows p' g' post.
Proof.
  destruct p as [a|R c k|R f k]; simpl; intros H Hs; [done| |].
  - destruct Hs as [-> [(r & Hr & ->)|(e & He & ->)]]; destruct (H d) as [H1 H2];
      [destruct (H1 r d' Hr) as (g' & ? & ?)|destruct (H2 e d' He) as (g' & ? & ?)]; eauto.
  - destruct Hs as (-> & -> & ->). destruct (H L) as (g' & [->|Hm] & ?); eauto 6.
Qed.

Lemma follows_mono {A} (p : prog A) g (post post' : A -> G -> Prop) :
  (forall a g', post a g' -> post' a g') -> follows p g post -> follows p g post'.
Proof.
  intros Hp. revert g. induction p as [a|R c k IH|R f k IH]; simpl; intros g; [apply Hp| |].
  - intros H d. destruct (H d) as [H1 H2].
    split; [intros r d' Hr; destruct (H1 r d' Hr) as (g' & ? & ?)
           |intros e d' He; destruct (H2 e d' He) as (g' & ? & ?)]; eauto.
  - intros H L. destruct (H L) as (g' & ? & ?). eauto.
Qed.

Lemma follows_pbind {A B} (p : prog A) (f : A -> prog B) g (mid : A -> G -> Prop) post :
  follows p g mid -> (forall a g', mid a g' -> follows (f a) g' post) ->
  follows (pbind p f) g post.
Proof.
  intros H Hf. revert g H. induction p as [a|R c k IH|R h k IH]; simpl; intros g; [apply Hf| |].
  - intros H d. destruct (H d) as [H1 H2].
    split; [intros r d' Hr; destruct (H1 r d' Hr) as (g' & ? & ?)
           |intros e d' He; destruct (H2 e d' He) as (g' & ? & ?)]; eauto.
  - intros H L. destruct (H L) as (g' & ? & ?). eauto.
Qed.

Lemma follows_mbind {A B} (p : M A) (f : A -> M B) g post :
  follows p g (λ r g', match r with inl e => post (inl e) g' | inr a => follows (f a) g' post end) ->
  follows (mbind p f) g post.
Proof. intros H. eapply follows_pbind; [exact H|]. by intros [e|a] g' Hg. Qed.

Lemma follows_rcall {R} w (c : rcmd R) g (post : gerr + R -> G -> Prop) :
  follows (cmd c) g
    (λ r, post (match r with inl e => inl (w (ERedis e)) | inr a => inr a end)) ->
  follows (rcall w c) g post.
Proof. intros H. eapply follows_pbind; [exact H|]. by intros [e|a] g' Hg. Qed.

Lemma follows_cmd {R} (c : rcmd R) g post :
  (forall d,
     (forall r d', rsem c d r d' -> exists g', move g d g' d' /\ post (inr r) g') /\
     (forall e d', lost c d d' -> exists g', move g d g' d' /\ post (inl e) g')) ->
  follows (cmd c) g post.
Proof. intros H. exact H. Qed.
End follows.

(** ** The rule *)

Section protocol.
Context {G : Type} (move : G -> rdb -> G -> rdb -> Prop) (idle busy : G).

(** A move that keeps the ghost state. *)
Definition stay (g : G) (d : rdb) (g' : G) (d' : rdb) : Prop := g' = g /\ move g d g' d'.

Definition entered (r : gerr + unit) (g : G) : Prop := g = if r is inr _ then busy else idle.
Definition ends_idle {A} (_ : A) (g : G) : Prop := g = idle.

Definition good_client (c : client) : Prop :=
  follows move (c_enter c) idle entered /\
  follows stay (c_body c) busy (λ _ _, True) /\
  follows move (c_leave c) busy ends_idle.

Definition good_loop (body : prog unit) : Prop := follows move body idle ends_idle.

Definition good_thread (t : thread) : Prop :=
  match t with
  | Session c _ => good_client c
  | Loop body _ => good_loop body
  end.

(** The ghost state a thread can be in, by where its program stands. *)
Definition stands (t : thread) (g : G) : Prop :=
  good_thread t /\
  match t with
  | Session _ Outside => g = idle
  | Session _ (Entering p) => follows move p g entered
  | Session _ (Inside p) => g = busy /\ follows stay p busy (λ _ _, True)
  | Session _ (Leaving p) => follows move p g ends_idle
  | Loop _ cur => follows move cur g ends_idle
  end.

Lemma stands_fresh t : fresh t -> good_thread t -> stands t idle.
Proof. destruct t as [c ph|body cur]; simpl; intros -> H; by split. Qed.

Lemma follows_stay {A} (p : prog A) g post d L p' d' L' :
  follows stay p g post -> astep p d L p' d' L' ->
  follows stay p' g post /\ (move g d g d' \/ d' = d).
Proof.
  intros H Hs. destruct (follows_astep _ _ _ _ _ _ _ _ _ H Hs) as (g' & [[-> ?]|[-> ->]] & ?); auto.
Qed.

Lemma tstep_stands t d L t' d' L' g :
  stands t g -> tstep t d L t' d' L' ->
  exists g', (move g d g' d' \/ (g' = g /\ d' = d)) /\ stands t' g'.
Proof.
  intros [Hgood H] Hs. destruct Hs as
    [c d L|c p d L p' d' L' Ha|c d L|c e d L|c p d L p' d' L' Ha|c r d L|c p d L p' d' L' Ha
    |c r d L|body p d L p' d' L' Ha|body r d L]; simpl in *.
  - subst g. exists idle. split; [auto|]. split; [done|]. apply Hgood.
  - destruct (follows_astep _ _ _ _ _ _ _ _ _ H Ha) as (g' & ? & ?). exists g'. by split.
  - exists busy. rewrite H. split; [auto|]. split; [done|]. split; [done|apply Hgood].
  - exists idle. rewrite H. split; [auto|]. by split.
  - destruct H as [-> H]. destruct (follows_stay _ _ _ _ _ _ _ _ H Ha) as (? & [?| ->]);
      exists busy; (split; [auto|]); by split.
  - destruct H as [-> _]. exists busy. split; [auto|]. split; [done|apply Hgood].
  - destruct (follows_astep _ _ _ _ _ _ _ _ _ H Ha) as (g' & ? & ?). exists g'. by split.
  - exists g. split; [auto|]. by split.
  - destruct (follows_astep _ _ _ _ _ _ _ _ _ H Ha) as (g' & ? & ?). exists g'. by split.
  - exists g. split; [auto|]. split; [done|]. by rewrite H.
Qed.

(** An invariant of the ghost states and the contents that every move of one
    thread preserves holds in every reachable state of every pool. *)
Lemma protocol_from (Inv : list G -> rdb -> Prop) s s' gs :
  (forall gs i g g' d d', gs !! i = Some g -> move g d g' d' -> Inv gs d ->
     Inv (<[i := g']> gs) d') ->
  Forall2 stands (threads s) gs -> Inv gs (db s) -> reaches s s' ->
  exists gs', Forall2 stands (threads s') gs' /\ Inv gs' (db s').
Proof.
  intros Hpres Hf HI Hr. revert gs Hf HI. induction Hr as [s|s1 s2 s3 Hs _ IH]; intros gs Hgs HI; [eauto|].
  destruct Hs as [i ts t t' d d' L L' Hi Ht]. simpl in *.
  destruct (Forall2_lookup_l _ _ _ _ _ Hgs Hi) as (g & Hg & Hst).
  destruct (tstep_stands _ _ _ _ _ _ _ Hst Ht) as (g' & Hm & Hst').
  apply (IH (<[i := g']> gs)); [by apply Forall2_insert|].
  destruct Hm as [Hm|[-> ->]]; [eauto|]. by rewrite list_insert_id.
Qed.

(** Threads before their first step are at [idle]. *)
Theorem protocol_sound (Inv : list G -> rdb -> Prop) s s' :
  (forall gs i g g' d d', gs !! i = Some g -> move g d g' d' -> Inv gs d ->
     Inv (<[i := g']> gs) d') ->
  Forall (λ t, fresh t /\ good_thread t) (threads s) ->
  Inv (replicate (length (threads s)) idle) (db s) ->
  reaches s s' ->
  exists gs, Forall2 stands (threads s') gs /\ Inv gs (db s').
Proof.
  intros Hpres Hf. apply protocol_from; [done|].
  apply Forall2_replicate_r; [done|]. eapply Forall_impl; [exact Hf|].
  intros t [? ?]. by apply stands_fresh.
Qed.

(** Every user of the resource is at [busy]. *)
Lemma users_busy `{EqDecision G} ts gs :
  Forall2 stands ts gs ->
  (length (filter (λ t, inside t = true) ts) <= length (filter (λ g, g = busy) gs))%nat.
Proof.
  induction 1 as [|t g ts gs Hst _ IH]; simpl; [lia|].
  rewrite !filter_cons. destruct Hst as [_ Hst].
  case_decide as Hi; case_decide as Hb; simpl; try lia.
  destruct t as [c []|]; try discriminate. by destruct Hst.
Qed.
End protocol.

(** ** Protocols that also speak of the memory of the processes *)

Section tracks.
Context {G : Type} (move : G -> rdb -> lmap -> G -> rdb -> lmap -> Prop) (idle : G).

Fixpoint tracks {A} (p : prog A) (g : G) (post : A -> G -> Prop) : Prop :=
  match p with
  | Ret a => post a g
  | Do c k =>
      forall d L,
        (forall r d', rsem c d r d' -> exists g', move g d L g' d' L /\ tracks (k (inr r)) g' post) /\
        (forall e d', lost c d d' -> exists g', move g d L g' d' L /\ tracks (k (inl e)) g' post)
  | Loc f k => forall d L, exists g', move g d L g' d (f L).2 /\ tracks (k (f L).1) g' post
  end.

Lemma tracks_pbind {A B} (p : prog A) (f : A -> prog B) g (mid : A -> G -> Prop) post :
  tracks p g mid -> (forall a g', mid a g' -> tracks (f a) g' post) -> tracks (pbind p f) g post.
Proof.
  intros H Hf. revert g H. induction p as [a|R c k IH|R h k IH]; simpl; intros g; [apply Hf| |].
  - intros H d L. destruct (H d L) as [H1 H2].
    split; [intros r d' Hr; destruct (H1 r d' Hr) as (g' & ? & ?)
           |intros e d' He; destruct (H2 e d' He) as (g' & ? & ?)]; eauto.
  - intros H d L. destruct (H d L) as (g' & ? & ?). eauto.
Qed.

Lemma tracks_astep {A} (p : prog A) g post d L p' d' L' :
  tracks p g post -> astep p d L p' d' L' -> exists g', move g d L g' d' L' /\ tracks p' g' post.
Proof.
  destruct p as [a|R c k|R f k]; simpl; intros H Hs; [done| |].
  - destruct Hs as [-> [(r & Hr & ->)|(e & He & ->)]]; destruct (H d L) as [H1 H2]; eauto.
  - destruct Hs as (-> & -> & ->). apply H.
Qed.

(** Where a background loop stands. *)
Definition loop_at (t : thread) (g : G) : Prop :=
  exists body cur, t = Loop body cur /\ tracks body idle (ends_idle idle) /\ tracks cur g (ends_idle idle).

Lemma tracks_sound (Inv : list G -> rdb -> lmap -> Prop) s s' gs :
  (forall gs i g g' d L d' L', gs !! i = Some g -> move g d L g' d' L' -> Inv gs d L ->
     Inv (<[i := g']> gs) d' L') ->
  Forall2 loop_at (threads s) gs -> Inv gs (db s) (locks s) -> reaches s s' ->
  exists gs', Forall2 loop_at (threads s') gs' /\ Inv gs' (db s') (locks s').
Proof.
  intros Hpres Hf HI Hr. revert gs Hf HI. induction Hr as [s|s1 s2 s3 Hs _ IH]; intros gs Hgs HI; [eauto|].
  destruct Hs as [i ts t t' d d' L L' Hi Ht]. simpl in *.
  destruct (Forall2_lookup_l _ _ _ _ _ Hgs Hi) as (g & Hg & (body & cur & -> & Hb & Hc)).
  inversion Ht as [| | | | | | | |? ? ? ? p' ? ? Ha|? r]; subst.
  - destruct (tracks_astep _ _ _ _ _ _ _ _ Hc Ha) as (g' & Hm & Hc').
    apply (IH (<[i := g']> gs)); [|by eapply Hpres]. apply Forall2_insert; [done|]. by exists body, p'.
  - apply (IH gs); [|done]. rewrite <- (list_insert_id gs i g Hg). apply Forall2_insert; [done|].
    simpl in Hc. unfold ends_idle in Hc. subst g. by exists body, body.
Qed.
End tracks.

(** ** Mutual exclusion of locked sections *)

(** [avoids key p]: no command of [p] can change [key]. *)
Fixpoint avoids {A} (key : string) (p : prog A) : Prop :=
  match p with
  | Ret _ => True
  | Do c k => (key ∉ cmd_keys c) /\ (forall r, avoids key (k r))
  | Loc f k => forall r, avoids key (k r)
  end.

Lemma avoids_pbind {A B} key (p : prog A) (f : A -> prog B) :
  avoids key p -> (forall a, avoids key (f a)) -> avoids key (pbind p f).
Proof.
  intros Hp Hf. induction p as [a|R c k IH|R g k IH]; simpl in Hp; [apply Hf| |].
  - destruct Hp as [Hc Hk]. split; [exact Hc|]. intros r. by apply IH.
  - intros r. by apply IH.
Qed.

Lemma avoids_rcall {R} key w (c : rcmd R) : key ∉ cmd_keys c -> avoids key (rcall w c).
Proof. intros H. split; [exact H|]. by intros [e|r]. Qed.

Lemma avoids_cmd {R} key (c : rcmd R) : key ∉ cmd_keys c -> avoids key (cmd c).
Proof. by split. Qed.

Lemma avoids_mbind {A B} key (p : M A) (f : A -> M B) :
  avoids key p -> (forall a, avoids key (f a)) -> avoids key (mbind p f).
Proof. intros Hp Hf. apply avoids_pbind; [done|]. by intros [e|a]. Qed.

Lemma avoids_with_lock {A} key owner k ttlS retries (body : M A) :
  key <> k -> avoids key body -> avoids key (with_lock owner k ttlS retries body).
Proof.
  intros Hne Hb. assert (forall c : list string, c = [k] -> key ∉ c) as Hk.
  { intros c ->. by rewrite list_elem_of_singleton. }
  unfold with_lock, Acquire. apply avoids_mbind.
  - apply avoids_pbind; [by apply avoids_cmd, Hk|]. intros [e|[tok|]]; done.
  - intros []. apply avoids_pbind; [done|]. intros r. apply avoids_pbind; [|done].
    intros [tok|]; [|done]. apply avoids_pbind; [by apply avoids_cmd, Hk|]. by intros [e|[]].
Qed.

Lemma rwp_avoids {A} (P : string -> Prop) (p : prog A) d L :
  (forall k, P k -> avoids k p) -> rwp p (λ _ d' _, forall k, P k -> kv d' !! k = kv d !! k) d L.
Proof.
  intros H. apply rwp_wp. revert d L. induction p as [a|R c k IH|R f k IH]; intros d L; [done| |].
  - assert (forall d', eq_except (list_to_set (cmd_keys c)) d d' ->
              forall key, P key -> kv d' !! key = kv d !! key) as Hf.
    { intros d' He key Hk. apply (eq_except_kv _ _ _ _ He).
      rewrite elem_of_list_to_set. by apply H. }
    split; intros r d' Hd; (eapply wp_mono; [|apply IH; intros key Hk; apply (H _ Hk)]);
      intros a d2 L2 H2 key Hk; rewrite H2 by done; apply Hf; [|done| |done];
      [eapply rsem_frame|eapply lost_frame]; try exact Hd; intros k'; by rewrite elem_of_list_to_set.
  - apply IH. intros key Hk. apply (H _ Hk).
Qed.

(** A program that avoids [key] keeps every protocol about [key]. *)
Lemma avoids_follows {G A} (move : G -> rdb -> G -> rdb -> Prop) key (p : prog A) g post :
  (forall g d d', kv d' !! key = kv d !! key -> move g d g d') ->
  avoids key p -> (forall a, post a g) -> follows move p g post.
Proof.
  intros Hm Hp Hpost. induction p as [a|R c k IH|R h k IH]; simpl in *; [done| |].
  - destruct Hp as [Hc Hk]. intros d.
    assert (forall d', eq_except (list_to_set (cmd_keys c)) d d' -> move g d g d') as Hf.
    { intros d' He. apply Hm. apply (eq_except_kv _ _ _ _ He).
      by rewrite elem_of_list_to_set. }
    split; intros r d' Hd; exists g; (split; [|by apply IH]); apply Hf;
      [eapply rsem_frame|eapply lost_frame]; try exact Hd; intros k';
      by rewrite elem_of_list_to_set.
  - intros L. exists g. split; [by left|]. by apply IH.
Qed.

Section locks.
Context (key : string).

(** The ghost state says whether the thread holds the lock. *)
Definition lock_move (g : bool) (d : rdb) (g' : bool) (d' : rdb) : Prop :=
  (g' = g /\ (is_Some (kv d !! key) -> is_Some (kv d' !! key))) \/
  (g = false /\ g' = true /\ kv d !! key = None /\ is_Some (kv d' !! key)) \/
  (g = true /\ g' = false).

Definition holders (gs : list bool) : nat := length (filter (λ g, g = true) gs).

Definition lock_inv (gs : list bool) (d : rdb) : Prop :=
  (holders gs <= 1)%nat /\ (0 < holders gs -> is_Some (kv d !! key))%nat.

Lemma holders_insert gs i g g' :
  gs !! i = Some g ->
  (holders (<[i := g']> gs) + Nat.b2n g = holders gs + Nat.b2n g')%nat.
Proof.
  revert i. induction gs as [|h gs IH]; intros [|i] Hi; simplify_eq/=; unfold holders in *.
  - rewrite !filter_cons. destruct g, g'; simpl; lia.
  - rewrite !filter_cons. specialize (IH i Hi). destruct h; simpl; lia.
Qed.

Lemma holders_idle n : holders (replicate n false) = 0%nat.
Proof. induction n as [|n IH]; [done|]. exact IH. Qed.

Lemma lock_inv_move gs i g g' d d' :
  gs !! i = Some g -> lock_move g d g' d' -> lock_inv gs d -> lock_inv (<[i := g']> gs) d'.
Proof.
  intros Hi Hm [H1 H2]. pose proof (holders_insert gs i g g' Hi) as Hc.
  destruct Hm as [[-> Hk]|[(-> & -> & Hn & Hk)|[-> ->]]]; simpl in Hc; split; try lia.
  - intros Hp. apply Hk, H2. lia.
  - destruct (decide (0 < holders gs)%nat) as [Hp|]; [|lia].
    destruct (H2 Hp). congruence.
  - done.
Qed.

Lemma lock_move_same g d d' : kv d' !! key = kv d !! key -> lock_move g d g d'.
Proof. intros E. left. by rewrite E. Qed.

Lemma follows_Acquire owner ttlS retries :
  follows lock_move (Acquire owner key ttlS retries) false (entered false true).
Proof.
  unfold Acquire. eapply follows_pbind.
  { apply (follows_cmd _ _ _
      (λ r g, g = match r with inr (Some _) => true | _ => false end)).
    intros d. split.
    - intros [tok|] d' H; eexists; (split; [|done]).
      + destruct H as [Hn ->]. right; left. simpl. rewrite lookup_insert_eq. eauto.
      + destruct H as [_ ->]. by apply lock_move_same.
    - intros e d' [->|[r H]]; eexists; (split; [|done]); [by apply lock_move_same|].
      left. split; [done|]. intros [v Hv]. destruct r as [tok|], H as [H1 H2].
      + congruence.
      + by rewrite H2, Hv. }
  intros [e|[tok|]] g ->; simpl; try done. intros L. exists true. split; [by left|done].
Qed.

Lemma follows_Release owner :
  follows lock_move (Release owner key) true (ends_idle false).
Proof.
  unfold Release. simpl. intros L.
  destruct (L !! (owner, key)) as [tok|].
  - exists true. split; [by left|]. eapply follows_pbind with (mid := λ _ g, g = false).
    { apply follows_cmd. intros d. split; intros; exists false; (split; [|done]); right; by right. }
    intros [e|[]] g ->; simpl; try done. intros L'. exists false. split; [by left|done].
  - exists false. split; [|done]. right. intros d. right. by right.
Qed.

(** Clients that run a section under the lock, and any other threads that leave
    the lock's key alone. *)
Definition locked_thread (t : thread) : Prop :=
  match t with
  | Session c _ =>
      exists owner ttlS retries,
        c_enter c = Acquire owner key ttlS retries /\ c_leave c = Release owner key /\
        avoids key (c_body c)
  | Loop body _ => avoids key body
  end.

Lemma locked_thread_good t : locked_thread t -> good_thread lock_move false true t.
Proof.
  destruct t as [[en bo le] ph|body cur]; simpl.
  - intros (owner & ttlS & retries & -> & -> & Hb). split; [apply follows_Acquire|].
    split; [|apply follows_Release]. eapply avoids_follows; [|exact Hb|done].
    intros g d d' H. split; [done|by apply lock_move_same].
  - intros Hb. eapply avoids_follows; [|exact Hb|done]. apply lock_move_same.
Qed.
End locks.

(** C6. Mutual exclusion under interleaving: whatever processes run sections under one
    lock and however their commands and those of other processes interleave, fail or
    lose their replies, at most one of them is inside its section (the lock's expiry
    apart). *)
Theorem lock_mutual_exclusion key s s' :
  Forall (λ t, fresh t /\ locked_thread key t) (threads s) ->
  reaches s s' -> (users s' <= 1)%nat.
Proof.
  intros Hs Hr.
  destruct (protocol_sound (lock_move key) false true (lock_inv key) s s') as (gs & Hst & [H1 _]).
  - intros. by eapply lock_inv_move.
  - eapply Forall_impl; [exact Hs|]. intros t [? ?]. split; [done|]. by apply locked_thread_good.
  - unfold lock_inv. rewrite holders_idle. lia.
  - done.
  - etransitivity; [by apply (users_busy _ _ _ _ _ Hst)|exact H1].
Qed.

(** Two processes contend for a lock while a third writes elsewhere. *)
Definition ex_locked : system :=
  let c o := mkClient (Acquire o "lock" 10 0) (rcall id (CSet "k" o 0)) (Release o "lock") in
  mkSys [Session (c "a") Outside; Session (c "b") Outside; Loop (cmd (CIncr "n") ;~ Ret tt) (cmd (CIncr "n") ;~ Ret tt)]
    empty_rdb ∅.

Lemma lock_mutual_exclusion_witness :
  let s := schedule [0; 1; 0; 1; 0; 0; 2; 1; 2]%nat ex_locked in
  (users s <= 1)%nat /\ users s = 1%nat /\ (inside <$> threads s) = [true; false; false].
Proof.
  split; [|split; vm_compute; reflexivity].
  apply (lock_mutual_exclusion "lock" ex_locked); [|apply schedule_reaches].
  assert ("lock" ∉ ["k"] /\ "lock" ∉ ["n"]) as [Hk Hn]
    by (rewrite !list_elem_of_singleton; by split).
  repeat apply Forall_cons_2; try apply Forall_nil_2; (split; [done|]).
  - exists "a", 10%Z, 0%Z. split; [done|]. split; [done|]. by apply avoids_rcall.
  - exists "b", 10%Z, 0%Z. split; [done|]. split; [done|]. by apply avoids_rcall.
  - split; [exact Hn|]. by intros r.
Defined.
