(* ===== verification/Env.v ===== *)
(** * Libraries the repositories call

    - [JsonRequests]: encoding/json on a [ContainerRequest].  The JSON text is
      not modelled; [JsonLaws] states what the code relies on: a request whose
      strings are ASCII decodes to a request with the same fields, those of its
      nested [Workspace], [Stub] and [Checkpoint] apart (some of their fields are
      excluded from JSON by their tags).
    - [Mapstructure]: [common.CopyStruct] on a worker, a call of the mapstructure
      package; its documentation says a value of the target's own type is copied.
    - [SortSlice]: [sort.Slice] and [slices.SortFunc], which sort but promise no
      order among equal elements.
    - [http_err]: the errors of the HTTP interface (pkg/api/v1/base.go), and the kinds of
      tokens. *)

From Stdlib Require Import Sorting.Sorted.
From S2P Require Import Prelude GoStd Redis Types Codec.

Local Open Scope Z_scope.

(** ** JSON *)

Fixpoint ascii_only (s : string) : bool :=
  match s with
  | "" => true
  | String a s' => (Ascii.nat_of_ascii a <? 128)%nat && ascii_only s'
  end.

(** The fields of a request outside its nested structs. *)
Definition flat_request (r : ContainerRequest) :=
  (((cr_ContainerId r, cr_EntryPoint r, cr_Env r, cr_Cpu r, cr_Memory r),
    (cr_Gpu r, cr_GpuRequest r, cr_GpuCount r, cr_ImageId r, cr_StubId r)),
   ((cr_WorkspaceId r, cr_Timestamp r, cr_RetryCount r, cr_PoolSelector r, cr_Preemptable r),
    (cr_CheckpointEnabled r, cr_Ports r, cr_CostPerMs r, cr_AppId r, cr_ConfigPath r)),
   (cr_ImageCredentials r, cr_BuildRegistryCredentials r, cr_BlockNetwork r, cr_AllowList r,
    cr_DockerEnabled r)).

Definition same_request (r r' : ContainerRequest) : Prop := flat_request r = flat_request r'.

#[export] Instance same_request_equiv : Equivalence same_request.
Proof. split; unfold same_request; congruence. Qed.

Definition request_ascii (r : ContainerRequest) : bool :=
  forallb ascii_only
    ([cr_ContainerId r; cr_Gpu r; cr_ImageId r; cr_StubId r; cr_WorkspaceId r; cr_PoolSelector r;
      cr_AppId r; cr_ConfigPath r; cr_ImageCredentials r; cr_BuildRegistryCredentials r]
     ++ cr_EntryPoint r ++ cr_Env r ++ cr_GpuRequest r ++ cr_AllowList r).

Class JsonRequests := {
  marshalRequest : ContainerRequest -> gerr + string;
  unmarshalRequest : string -> gerr + ContainerRequest;
}.

Class JsonLaws (J : JsonRequests) : Prop := {
  json_roundtrip : forall r s,
    request_ascii r = true -> marshalRequest r = inr s ->
    exists r', unmarshalRequest s = inr r' /\ same_request r r';
}.

(** ** mapstructure *)

Class Mapstructure := { CopyStruct : Worker -> gerr + Worker }.

Class MapstructureLaws (C : Mapstructure) : Prop := {
  CopyStruct_same : forall w w', CopyStruct w = inr w' -> w' = w;
}.

(** ** Sorting *)

Class SortSlice := { sort_slice : forall {A}, (A -> A -> bool) -> list A -> list A }.

(** [less] is a strict weak ordering. *)
Record strict_weak {A} (less : A -> A -> bool) : Prop := {
  sw_irrefl : forall a, less a a = false;
  sw_trans : forall a b c, less a b = true -> less b c = true -> less a c = true;
  sw_equiv_trans : forall a b c,
    less a b = false -> less b a = false -> less b c = false -> less c b = false ->
    less a c = false /\ less c a = false;
}.

Class SortLaws (S : SortSlice) : Prop := {
  sort_slice_perm : forall A (less : A -> A -> bool) l, sort_slice less l ≡ₚ l;
  sort_slice_sorted : forall A (less : A -> A -> bool) l,
    strict_weak less -> StronglySorted (λ a b, less b a = false) (sort_slice less l);
}.

Lemma StronglySorted_impl {A} (R R' : A -> A -> Prop) l :
  (forall a b, R a b -> R' a b) -> StronglySorted R l -> StronglySorted R' l.
Proof.
  intros H. induction 1 as [|a l Hs IH Hf]; constructor; [done|].
  eapply Forall_impl; [exact Hf|]. auto.
Qed.

(** ** Instances used by concrete runs *)

Fixpoint pos_bits (p : positive) : string :=
  match p with
  | xH => ""
  | xO p' => String "0" (pos_bits p')
  | xI p' => String "1" (pos_bits p')
  end.

Fixpoint bits_pos (s : string) : option positive :=
  match s with
  | "" => Some xH
  | String "0" s' => xO <$> bits_pos s'
  | String "1" s' => xI <$> bits_pos s'
  | _ => None
  end.

Lemma bits_pos_bits p : bits_pos (pos_bits p) = Some p.
Proof. induction p as [p IH|p IH|]; simpl; by rewrite ?IH. Qed.

Definition unflat_request (t : _) : ContainerRequest :=
  let '(((cid, ep, env, cpu, mem), (gpu, gpur, gpuc, img, stub)),
        ((ws, ts, rc, pool, pre), (ce, ports, cost, app, cfg)),
        (ic, brc, bn, al, de)) := t in
  mkContainerRequest cid ep env cpu mem gpu gpur gpuc img stub ws zeroWorkspace
    (mkStubWithRelated zeroStub zeroWorkspace zeroObject None) ts [] rc pool pre ce
    zeroBuildOptions ports cost app None cfg ic brc bn al de.

(** An encoding of the flat part of a request. *)
Definition bits_json : JsonRequests := {|
  marshalRequest r := inr (pos_bits (encode (flat_request r)));
  unmarshalRequest s :=
    match p ← bits_pos s; decode p with
    | Some t => inr (unflat_request t)
    | None => inl (EMsg "invalid JSON")
    end |}.

Lemma bits_json_laws : JsonLaws bits_json.
Proof.
  split. intros r s _ [= <-]. simpl. rewrite bits_pos_bits. simpl.
  rewrite decode_encode. eexists. split; [done|]. done.
Qed.

Definition copy_struct : Mapstructure := {| CopyStruct w := inr w |}.

Lemma copy_struct_laws : MapstructureLaws copy_struct.
Proof. split. by intros w w' [= ->]. Qed.

Definition plain_fmt : GoFmt := {| fmt_containers _ := "[]" |}.

(** Insertion sort, which [sort.Slice] uses on short slices. *)
Fixpoint insert_sorted {A} (less : A -> A -> bool) (x : A) (l : list A) : list A :=
  match l with
  | [] => [x]
  | y :: l' => if less y x then y :: insert_sorted less x l' else x :: y :: l'
  end.

Definition insertion_sort : SortSlice := {|
  sort_slice A less l := foldr (insert_sorted less) [] l |}.

Lemma insert_sorted_perm {A} (less : A -> A -> bool) x l : insert_sorted less x l ≡ₚ x :: l.
Proof.
  induction l as [|y l IH]; simpl; [done|]. case_match; [|done].
  rewrite IH. apply Permutation_swap.
Qed.

Lemma strict_weak_ge_trans {A} (less : A -> A -> bool) a b c :
  strict_weak less -> less b a = false -> less c b = false -> less c a = false.
Proof.
  intros [Hi Ht He] H1 H2. destruct (less c a) eqn:E; [|done].
  destruct (less a b) eqn:E1.
  { pose proof (Ht _ _ _ E E1). congruence. }
  destruct (less b c) eqn:E2.
  { pose proof (Ht _ _ _ E2 E). congruence. }
  destruct (He a b c E1 H1 E2 H2). congruence.
Qed.

Lemma insert_sorted_sorted {A} (less : A -> A -> bool) x l :
  strict_weak less -> StronglySorted (λ a b, less b a = false) l ->
  StronglySorted (λ a b, less b a = false) (insert_sorted less x l).
Proof.
  intros Hw. induction l as [|y l IH]; intros Hs; simpl; [by repeat constructor|].
  inversion Hs as [|? ? Hs' Hf]; subst. destruct (less y x) eqn:E.
  - constructor; [by apply IH|]. rewrite insert_sorted_perm. constructor; [|done].
    destruct (less x y) eqn:E'; [|done].
    pose proof (sw_trans _ Hw _ _ _ E E'). rewrite (sw_irrefl _ Hw) in *. congruence.
  - constructor; [done|]. constructor; [done|].
    eapply Forall_impl; [exact Hf|]. intros z Hz. by eapply strict_weak_ge_trans.
Qed.

Lemma insertion_sort_laws : SortLaws insertion_sort.
Proof.
  split; intros A less l.
  - simpl. induction l as [|x l IH]; simpl; [done|]. by rewrite insert_sorted_perm, IH.
  - intros Hw. simpl. induction l as [|x l IH]; simpl; [constructor|].
    by apply insert_sorted_sorted.
Qed.

(** ** The HTTP interface *)

(** The kinds of tokens (pkg/types/backend.go). *)
Definition TokenTypeClusterAdmin : string := "admin".
Definition TokenTypeWorkspacePrimary : string := "workspace_primary".
Definition TokenTypeWorkspace : string := "workspace".
Definition TokenTypeWorker : string := "worker".
Definition TokenTypeMachine : string := "machine".
Definition TokenTypeWorkspaceRestricted : string := "workspace_restricted".

(** A panic of a handler is a value: the middleware turns it into an answer. *)
Inductive http_err := HTTPError (code : Z) (message : string) | HTTPPanic (message : string).
#[export] Instance http_err_eq_dec : EqDecision http_err.
Proof. solve_decision. Defined.

Definition HTTPBadRequest (message : string) : http_err := HTTPError 400 message.
Definition HTTPInternalServerError (message : string) : http_err := HTTPError 500 message.
Definition HTTPConflict (message : string) : http_err := HTTPError 409 message.
Definition HTTPUnauthorized (message : string) : http_err := HTTPError 401 message.
Definition HTTPForbidden (message : string) : http_err := HTTPError 403 message.
Definition HTTPNotFound : http_err := HTTPError 404 "".

(** [echo.NewHTTPError(http.StatusUnauthorized)] *)
Definition Unauthorized : http_err := HTTPError 401 "Unauthorized".
