(* ===== verification/WorkerRepo.v ===== *)
(** * Worker state (pkg/repository/worker_redis.go)

    The repository that holds the workers of the cluster: their state hashes,
    the index of state keys, the per-worker request queues, the container index
    of each worker and the addresses of the worker network. *)

From S2P Require Import Prelude GoStd Redis Keys Types Codec Lock Env.

Local Open Scope Z_scope.

(** What the repository reads of [types.WorkerPoolConfig] and [types.WorkerConfig]. *)
Record PoolConfig := mkPoolConfig { pc_GPUType : string; pc_NodeSelector : gmap string string }.
Record WorkerRepoConfig := mkWorkerRepoConfig {
  wc_Pools : gmap string PoolConfig;
  wc_CleanupPendingWorkerAgeLimit : Z;
}.

Section worker_repo.
Context {FMT : GoFmt} {MS : Mapstructure} {JSON : JsonRequests}.
Context (config : WorkerRepoConfig).

Definition AddWorker (worker : Worker) : M Worker :=
  with_lock "worker" (SchedulerWorkerLock (w_Id worker)) 10 3 (
    let stateKey := SchedulerWorkerState (w_Id worker) in
    let indexKey := SchedulerWorkerIndex in
    rcall (EWrap "failed to add worker state key to index") (CSAdd indexKey stateKey) ;;
    let worker := set_w_ResourceVersion 0 worker in
    rcall (λ _, EMsg "failed to add worker state") (CHSet stateKey (to_slice worker)) ;;
    rcall (EWrap "failed to set worker state ttl")
      (CExpire stateKey (wc_CleanupPendingWorkerAgeLimit config)) ;;
    ok worker).

Definition RemoveWorker (workerId : string) : M unit :=
  with_lock "worker" (SchedulerWorkerLock workerId) 10 3 (
    let stateKey := SchedulerWorkerState workerId in
    res <- rcall (λ e, e) (CExists stateKey) ;;
    if res <=? 0 then fail (EWorkerNotFound workerId)
    else
      let indexKey := SchedulerWorkerIndex in
      rcall (EWrap "failed to remove worker state key from index") (CSRem indexKey stateKey) ;;
      rcall (λ e, e) (CDel [stateKey]) ;;
      rcall (λ e, e) (CDel [SchedulerWorkerRequests workerId]) ;;
      ok tt).

Definition getWorkerFromKey (key : string) : M Worker :=
  res <- rcall (λ _, EMsg "failed to get worker") (CHGetAll key) ;;
  ok (to_struct res (zeroWorker (last_segment key))).

Definition UpdateWorkerStatus (workerId : string) (status : string) : M unit :=
  with_lock "worker" (SchedulerWorkerLock workerId) 10 3 (
    let stateKey := SchedulerWorkerState workerId in
    worker <- getWorkerFromKey stateKey ;;
    let worker := set_w_Status status worker in
    let worker := set_w_ResourceVersion (wrap_i64 (w_ResourceVersion worker + 1)) worker in
    rcall (λ _, EMsg "failed to update worker status") (CHSet stateKey (to_slice worker)) ;;
    rcall (EWrap "failed to set worker state ttl") (CExpire stateKey (WorkerStateTtlS * second)) ;;
    ok tt).

Definition SetWorkerKeepAlive (workerId : string) : M unit :=
  rcall (EWrap "failed to set worker state ttl")
    (CExpire (SchedulerWorkerState workerId) (WorkerStateTtlS * second)) ;;
  ok tt.

Definition ToggleWorkerAvailable (workerId : string) : M unit :=
  UpdateWorkerStatus workerId WorkerStatusAvailable.

(** The HGETALL commands of the pipeline, then the first error if there is one. *)
Fixpoint pipe_hgetall (keys : list string) : prog (list (rerr + gmap string string)) :=
  match keys with
  | [] => Ret []
  | k :: keys' => r <~ cmd (CHGetAll k) ;; rs <~ pipe_hgetall keys' ;; Ret (r :: rs)
  end.

Fixpoint first_error {A} (rs : list (rerr + A)) : option rerr :=
  match rs with
  | [] => None
  | inl e :: _ => Some e
  | inr _ :: rs' => first_error rs'
  end.

Fixpoint collect_workers (keys : list string) (rs : list (rerr + gmap string string))
  : M (list Worker) :=
  match keys, rs with
  | key :: keys', r :: rs' =>
      match r with
      | inr res =>
          if decide (res = ∅) then
            cmd (CSRem SchedulerWorkerIndex key) ;~ collect_workers keys' rs'
          else
            workers <- collect_workers keys' rs' ;;
            ok (to_struct res (zeroWorker (last_segment key)) :: workers)
      | inl _ => cmd (CSRem SchedulerWorkerIndex key) ;~ collect_workers keys' rs'
      end
  | _, _ => ok []
  end.

Definition getWorkersFromKeys (keys : list string) : M (list Worker) :=
  rs <~ pipe_hgetall keys ;;
  match first_error rs with
  | Some e => fail (EMsg "failed to execute pipeline")
  | None => collect_workers keys rs
  end.

(** The loop of [getWorkers(true)]: a worker whose lock is taken is skipped. *)
Fixpoint getWorkers_locked (keys : list string) : M (list Worker) :=
  match keys with
  | [] => ok []
  | key :: keys' =>
      match split_on colon key !! 3%nat with
      | None => fail (EPanic "index out of range")
      | Some workerId =>
          r <~ with_lock "worker" (SchedulerWorkerLock workerId) 10 0 (getWorkerFromKey key) ;;
          match r with
          | inl _ => getWorkers_locked keys'
          | inr w => ws <- getWorkers_locked keys' ;; ok (w :: ws)
          end
      end
  end.

Definition getWorkers (useLock : bool) : M (list Worker) :=
  keys <- rcall (λ _, EMsg "failed to retrieve worker state keys") (CSMembers SchedulerWorkerIndex) ;;
  if useLock then getWorkers_locked keys
  else
    r <~ getWorkersFromKeys keys ;;
    match r with
    | inl _ => fail (EMsg "failed to retrieve worker state keys")
    | inr workers => ok workers
    end.

Definition GetWorkerById (workerId : string) : M Worker :=
  with_lock "worker" (SchedulerWorkerLock workerId) 10 3 (
    let key := SchedulerWorkerState workerId in
    n <- rcall (λ e, e) (CExists key) ;;
    if n =? 0 then fail (EWorkerNotFound workerId)
    else getWorkerFromKey key).

(** The first eight of the characters of a new [uuid]. *)
Definition GetId (uuid : string) : string := String.substring 0 8 uuid.

Definition zero_gpu_counts : gmap string Z :=
  foldl (λ m g, <[g := 0]> m) ∅ AllGPUTypes.

(** [gpuCounts[w.Gpu] += int(count)] for the workers with a GPU. *)
Definition add_gpu_count (count : Worker -> Z) (m : gmap string Z) (w : Worker) : gmap string Z :=
  if String.eqb (w_Gpu w) "" then m
  else <[w_Gpu w := wrap_i64 (default 0 (m !! w_Gpu w) + count w)]> m.

Definition GetGpuCounts : M (gmap string Z) :=
  workers <- getWorkers false ;;
  ok (foldl (add_gpu_count w_TotalGpuCount) zero_gpu_counts workers).

Definition GetFreeGpuCounts : M (gmap string Z) :=
  workers <- getWorkers false ;;
  ok (foldl (add_gpu_count w_FreeGpuCount) zero_gpu_counts workers).

(** One entry per node selector value that mentions spot. *)
Definition GetPreemptibleGpus : list string :=
  flat_map (λ p : string * PoolConfig,
    if String.eqb (pc_GPUType p.2) "" then []
    else flat_map (λ v : string * string, if Contains v.2 "spot" then [pc_GPUType p.2] else [])
           (map_to_list (pc_NodeSelector p.2)))
    (map_to_list (wc_Pools config)).

Definition GetGpuAvailability : M (gmap string bool) :=
  gpuCounts <- GetGpuCounts ;;
  let init := foldl (λ m g, if String.eqb g GPU_ANY then m else <[g := false]> m) ∅ AllGPUTypes in
  let counted := foldl (λ m p, if String.eqb p.1 GPU_ANY then m else <[p.1 := (0 <? p.2)]> m)
                   init (map_to_list gpuCounts) in
  ok (foldl (λ m g, <[g := true]> m) counted GetPreemptibleGpus).

Definition GetAllWorkers : M (list Worker) := getWorkers true.

Definition GetAllWorkersInPool (poolName : string) : M (list Worker) :=
  workers <- getWorkers false ;;
  ok (filter (λ w, w_PoolName w = poolName) workers).

Fixpoint cordon_loop (ws : list Worker) : M unit :=
  match ws with
  | [] => ok tt
  | w :: ws' =>
      if negb (String.eqb (w_Status w) WorkerStatusPending) then cordon_loop ws'
      else UpdateWorkerStatus (w_Id w) WorkerStatusDisabled ;; cordon_loop ws'
  end.

Definition CordonAllPendingWorkersInPool (poolName : string) : M unit :=
  workers <- GetAllWorkersInPool poolName ;;
  cordon_loop workers.

Definition GetAllWorkersOnMachine (machineId : string) : M (list Worker) :=
  workers <- getWorkers false ;;
  ok (filter (λ w, w_MachineId w = machineId) workers).

(** The arithmetic of [UpdateWorkerCapacity]: [FreeCpu] and [FreeMemory] are
    [int64], [FreeGpuCount] is [uint32]. *)
Definition updated_capacity (w : Worker) (request : ContainerRequest) (t : CapacityUpdateType)
  : gerr + Worker :=
  match t with
  | AddCapacity =>
      let w1 := set_w_FreeCpu (wrap_i64 (w_FreeCpu w + cr_Cpu request)) w in
      let w2 := set_w_FreeMemory (wrap_i64 (w_FreeMemory w + cr_Memory request)) w1 in
      inr (if String.eqb (cr_Gpu request) "" then w2
           else set_w_FreeGpuCount (wrap_u32 (w_FreeGpuCount w + cr_GpuCount request)) w2)
  | RemoveCapacity =>
      let w1 := set_w_FreeCpu (wrap_i64 (w_FreeCpu w - cr_Cpu request)) w in
      let w2 := set_w_FreeMemory (wrap_i64 (w_FreeMemory w - cr_Memory request)) w1 in
      let w3 := if String.eqb (cr_Gpu request) "" then w2
                else set_w_FreeGpuCount (wrap_u32 (w_FreeGpuCount w - cr_GpuCount request)) w2 in
      if (w_FreeCpu w3 <? 0) || (w_FreeMemory w3 <? 0) || (w_FreeGpuCount w3 <? 0)
      then inl (EMsg "unable to schedule container, worker out of cpu, memory, or gpu")
      else inr w3
  | InvalidCapacityUpdate _ => inl (EMsg "invalid capacity update type")
  end.

Definition UpdateWorkerCapacity (worker : Worker) (request : ContainerRequest)
    (t : CapacityUpdateType) : M unit :=
  with_lock "worker" (SchedulerWorkerLock (w_Id worker)) 10 3 (
    let key := SchedulerWorkerState (w_Id worker) in
    r <~ getWorkerFromKey key ;;
    match r with
    | inl _ => fail (EMsg "failed to get worker state")
    | inr currentWorker =>
        match CopyStruct currentWorker with
        | inl _ => fail (EMsg "failed to copy worker struct")
        | inr updatedWorker =>
            if negb (w_ResourceVersion updatedWorker =? w_ResourceVersion worker)
            then fail (EMsg "invalid worker resource version")
            else
              match updated_capacity updatedWorker request t with
              | inl e => fail e
              | inr w =>
                  let w := set_w_ResourceVersion (wrap_i64 (w_ResourceVersion w + 1)) w in
                  rcall (λ _, EMsg "failed to update worker capacity") (CHSet key (to_slice w)) ;;
                  ok tt
              end
        end
    end).

Definition ScheduleContainerRequest (worker : Worker) (request : ContainerRequest) : M unit :=
  match marshalRequest request with
  | inl e => fail (EWrap "failed to serialize request" e)
  | inr requestJSON =>
      UpdateWorkerCapacity worker request RemoveCapacity ;;
      rcall (EWrap "failed to push request")
        (CRPush (SchedulerWorkerRequests (w_Id worker)) requestJSON) ;;
      ok tt
  end.

Definition AddContainerToWorker (workerId containerId : string) : M unit :=
  rcall (EWrap "failed to add container to worker container index")
    (CSAdd (SchedulerContainerWorkerIndex workerId) (SchedulerContainerState containerId)) ;;
  ok tt.

Definition RemoveContainerFromWorker (workerId containerId : string) : M unit :=
  rcall (EWrap "failed to remove container from worker container index")
    (CSRem (SchedulerContainerWorkerIndex workerId) (SchedulerContainerState containerId)) ;;
  ok tt.

(** [None] when the queue is empty. *)
Definition GetNextContainerRequest (workerId : string) : M (option ContainerRequest) :=
  queueLength <- rcall (λ e, e) (CLLen (SchedulerWorkerRequests workerId)) ;;
  if queueLength =? 0 then ok None
  else
    o <- rcall (λ e, e) (CLPop (SchedulerWorkerRequests workerId)) ;;
    match o with
    | None => fail ERedisNil
    | Some requestJSON =>
        match unmarshalRequest requestJSON with
        | inl e => fail e
        | inr request => ok (Some request)
        end
    end.

(** [types.ContainerResourceUsage] has json tags only: its redis tags are empty. *)
Definition resource_usage_fields (u : ContainerResourceUsage) : gstruct :=
  [ ("", GString (ru_ContainerID u)); ("", GInt 64 (ru_CpuMillicoresUsed u));
    ("", GInt 64 (ru_MemoryUsed u)); ("", GInt 64 (ru_GpuMemoryUsed u));
    ("", GInt 64 (ru_GpuMemoryTotal u)); ("", GString (ru_GpuType u)) ].

Definition SetContainerResourceValues (workerId containerId : string)
    (usage : ContainerResourceUsage) : M unit :=
  let key := WorkerContainerResourceUsage workerId containerId in
  rcall (EWrap "failed to set container resource usage")
    (CHSet key (ToSlice (resource_usage_fields usage))) ;;
  rcall (EWrap "failed to set container resource usage expiration")
    (CExpire key (2 * ContainerResourceUsageEmissionInterval)) ;;
  ok tt.

Definition SetImagePullLock (workerId imageId : string) : M string :=
  let lockKey := WorkerImageLock workerId imageId in
  Acquire "worker" lockKey 10 3 ;; Token "worker" lockKey.

Definition RemoveImagePullLock (workerId imageId token : string) : M unit :=
  ReleaseWithToken (WorkerImageLock workerId imageId) token.

Definition GetContainerIps (networkPrefix : string) : M (list string) :=
  rcall (λ e, e) (CSMembers (WorkerNetworkIpIndex networkPrefix)).

Definition GetContainerIp (networkPrefix containerId : string) : M string :=
  o <- rcall (λ e, e) (CGet (WorkerNetworkContainerIp networkPrefix containerId)) ;;
  match o with Some ip => ok ip | None => fail ERedisNil end.

Definition SetContainerIp (networkPrefix containerId containerIp : string) : M unit :=
  rcall (λ e, e) (CSet (WorkerNetworkContainerIp networkPrefix containerId) containerIp 0) ;;
  rcall (λ e, e) (CSAdd (WorkerNetworkIpIndex networkPrefix) containerIp) ;;
  ok tt.

Definition SetNetworkLock (networkPrefix : string) (ttl retries : Z) : M string :=
  let lockKey := WorkerNetworkLock networkPrefix in
  Acquire "worker" lockKey ttl retries ;; Token "worker" lockKey.

Definition RemoveNetworkLock (networkPrefix token : string) : M unit :=
  ReleaseWithToken (WorkerNetworkLock networkPrefix) token.

Definition RemoveContainerIp (networkPrefix containerId : string) : M unit :=
  o <- rcall (λ e, e) (CGet (WorkerNetworkContainerIp networkPrefix containerId)) ;;
  match o with
  | None => fail ERedisNil
  | Some containerIp =>
      rcall (λ e, e) (CDel [WorkerNetworkContainerIp networkPrefix containerId; containerIp]) ;;
      rcall (λ e, e) (CSRem (WorkerNetworkIpIndex networkPrefix) containerIp) ;;
      ok tt
  end.
End worker_repo.
