(* ===== verification/ContainerRepo.v ===== *)
(** * Container state (pkg/repository/container_redis.go)

    The repository of container states, exit codes, addresses and request
    statuses, with the indexes of containers by stub, workspace and worker, and
    the admission of a container under a workspace's concurrency limit.
    [time.Now().Unix()] is the argument [now]. *)

From S2P Require Import Prelude GoStd Redis Keys Types Codec Lock.

Local Open Scope Z_scope.

(** encoding/json on the address map of a container. *)
Class JsonAddressMap := {
  marshalAddressMap : gmap Z string -> gerr + string;
  unmarshalAddressMap : string -> gerr + gmap Z string;
}.

Definition GetContainerState (containerId : string) : M ContainerState :=
  with_lock "container" (SchedulerContainerLock containerId) 10 2 (
    let stateKey := SchedulerContainerState containerId in
    res <- rcall (EWrap "failed to get container state") (CHGetAll stateKey) ;;
    if decide (res = ∅) then fail (EContainerStateNotFound containerId)
    else ok (to_struct res zeroContainerState)).

(** The field/value pairs [SetContainerState] writes. *)
Definition container_state_fields (containerId : string) (state : ContainerState)
  : list (string * string) :=
  [ ("container_id", containerId); ("status", cs_Status state);
    ("scheduled_at", fmt_int (cs_ScheduledAt state)); ("stub_id", cs_StubId state);
    ("workspace_id", cs_WorkspaceId state); ("gpu", cs_Gpu state);
    ("gpu_count", fmt_int (cs_GpuCount state)); ("cpu", fmt_int (cs_Cpu state));
    ("memory", fmt_int (cs_Memory state)) ].

Definition SetContainerState (containerId : string) (state : ContainerState) : M unit :=
  with_lock "container" (SchedulerContainerLock containerId) 10 0 (
    let stateKey := SchedulerContainerState containerId in
    rcall (EWrap "failed to set container state")
      (CHSet stateKey (container_state_fields containerId state)) ;;
    rcall (EWrap "failed to set container state ttl")
      (CExpire stateKey (ContainerStateTtlSWhilePending * second)) ;;
    rcall (EWrap "failed to add container state key to index")
      (CSAdd (SchedulerContainerIndex (cs_StubId state)) stateKey) ;;
    rcall (EWrap "failed to add container state key to workspace index")
      (CSAdd (SchedulerContainerWorkspaceIndex (cs_WorkspaceId state)) stateKey) ;;
    ok tt).

Definition SetContainerExitCode (containerId : string) (exitCode : Z) : M unit :=
  rcall (EWrap "failed to set exit code")
    (CSet (SchedulerContainerExitCode containerId) (fmt_int exitCode)
       (ContainerExitCodeTtlS * second)) ;;
  ok tt.

(** [Get(key).Int()] *)
Definition get_int (key : string) : M Z :=
  o <- rcall (λ e, e) (CGet key) ;;
  match o with
  | None => fail ERedisNil
  | Some s =>
      match ParseInt 64 s with
      | Some z => ok z
      | None => fail (EMsg "strconv.Atoi: invalid syntax")
      end
  end.

(** The code [-1] returned beside the error is not observed by the callers. *)
Definition GetContainerExitCode (containerId : string) : M Z :=
  get_int (SchedulerContainerExitCode containerId).

(** [time.Duration(expirySeconds) * time.Second] in 64 bits. *)
Definition UpdateContainerStatus (now : Z) (containerId status : string) (expirySeconds : Z) : M unit :=
  let expiry := wrap_i64 (expirySeconds * second) in
  if String.eqb status ContainerStatusPending || String.eqb status ContainerStatusRunning
     || String.eqb status ContainerStatusStopping
  then
    with_lock "container" (SchedulerContainerLock containerId) 10 0 (
      let stateKey := SchedulerContainerState containerId in
      res <- rcall (λ e, e) (CHGetAll stateKey) ;;
      let state := to_struct res zeroContainerState in
      let state :=
        if String.eqb status ContainerStatusRunning
           && negb (String.eqb (cs_Status state) ContainerStatusRunning)
        then set_cs_StartedAt now state else state in
      let state := set_cs_Status status state in
      rcall (EWrap "failed to update container state status") (CHSet stateKey (to_slice state)) ;;
      rcall (EWrap "failed to set container state ttl") (CExpire stateKey expiry) ;;
      ok tt)
  else fail (EMsg "invalid status").

Definition UpdateAssignedContainerGPU (containerId gpuType : string) : M unit :=
  with_lock "container" (SchedulerContainerLock containerId) 10 0 (
    let stateKey := SchedulerContainerState containerId in
    res <- rcall (λ e, e) (CHGetAll stateKey) ;;
    let state := set_cs_Gpu gpuType (to_struct res zeroContainerState) in
    rcall (EWrap "failed to update container state gpu") (CHSet stateKey (to_slice state)) ;;
    ok tt).

Definition DeleteContainerState (containerId : string) : M unit :=
  with_lock "container" (SchedulerContainerLock containerId) 10 0 (
    rcall (EWrap "failed to delete container state") (CDel [SchedulerContainerState containerId]) ;;
    rcall (EWrap "failed to delete container addr") (CDel [SchedulerContainerAddress containerId]) ;;
    rcall (EWrap "failed to delete container addrMap")
      (CDel [SchedulerContainerAddressMap containerId]) ;;
    rcall (EWrap "failed to delete worker addr") (CDel [SchedulerWorkerAddress containerId]) ;;
    ok tt).

Definition SetContainerAddress (containerId addr : string) : M unit :=
  rcall (λ e, e) (CSet (SchedulerContainerAddress containerId) addr 0).

(** [Get(key).Result()] *)
Definition get_str (key : string) : M string :=
  o <- rcall (λ e, e) (CGet key) ;;
  match o with Some s => ok s | None => fail ERedisNil end.

Definition GetContainerAddress (containerId : string) : M string :=
  get_str (SchedulerContainerAddress containerId).

Definition SetContainerAddressMap `{JsonAddressMap} (containerId : string)
    (addressMap : gmap Z string) : M unit :=
  match marshalAddressMap addressMap with
  | inl e => fail (EWrap "failed to marshal addressMap" e)
  | inr data =>
      rcall (EWrap "failed to set container addressMap")
        (CSet (SchedulerContainerAddressMap containerId) data 0) ;;
      ok tt
  end.

(** [None] is the nil map. *)
Definition GetContainerAddressMap `{JsonAddressMap} (containerId : string)
  : M (option (gmap Z string)) :=
  o <- rcall (EWrap "failed to get container addressMap")
         (CGet (SchedulerContainerAddressMap containerId)) ;;
  match o with
  | None => ok None
  | Some data =>
      match unmarshalAddressMap data with
      | inl e => fail (EWrap "failed to unmarshal addressMap" e)
      | inr addressMap => ok (Some addressMap)
      end
  end.

Definition SetWorkerAddress (containerId addr : string) : M unit :=
  rcall (λ e, e) (CSet (SchedulerWorkerAddress containerId) addr 0).

Definition GetContainerRequestStatus (containerId : string) : M string :=
  get_str (SchedulerContainerRequestStatus containerId).

(** The polling loop: [ticks] is the number of ticks of the one-second ticker
    that the loop sees before its context ends (at most the 300 of the five
    minute deadline); [cancelled] tells how it ended. *)
Fixpoint GetWorkerAddress (ticks : nat) (cancelled : bool) (containerId : string) : M string :=
  match ticks with
  | O => if cancelled then fail (EMsg "context cancelled while trying to get worker addr")
         else fail (EMsg "failed to schedule container")
  | S ticks' =>
      r <~ get_str (SchedulerWorkerAddress containerId) ;;
      match r with
      | inr hostname => ok hostname
      | inl _ =>
          r <~ GetContainerRequestStatus containerId ;;
          match r with
          | inr requestStatus =>
              if String.eqb requestStatus ContainerRequestStatusFailed
              then fail (EMsg "failed to schedule container")
              else GetWorkerAddress ticks' cancelled containerId
          | inl _ => GetWorkerAddress ticks' cancelled containerId
          end
      end
  end.

(** Keys that cannot be read are skipped; a key with neither a state nor an exit
    code leaves the index. *)
Fixpoint listContainerStateByIndex (indexKey : string) (keys : list string)
  : M (list ContainerState) :=
  match keys with
  | [] => ok []
  | key :: keys' =>
      exist <~ cmd (CExists key) ;;
      match exist with
      | inl _ => listContainerStateByIndex indexKey keys'
      | inr n =>
          if n =? 0 then
            let containerId := last_segment key in
            e <~ cmd (CExists (SchedulerContainerExitCode containerId)) ;;
            match e with
            | inl _ => listContainerStateByIndex indexKey keys'
            | inr n' =>
                if 0 <? n' then listContainerStateByIndex indexKey keys'
                else cmd (CSRem indexKey key) ;~ listContainerStateByIndex indexKey keys'
            end
          else
            res <~ cmd (CHGetAll key) ;;
            match res with
            | inl _ => listContainerStateByIndex indexKey keys'
            | inr h =>
                let state := to_struct h zeroContainerState in
                if String.eqb (cs_ContainerId state) "" then listContainerStateByIndex indexKey keys'
                else
                  states <- listContainerStateByIndex indexKey keys' ;;
                  ok (state :: states)
            end
      end
  end.

Definition list_index (indexKey : string) : M (list ContainerState) :=
  keys <- rcall (λ _, EMsg "failed to retrieve container state keys") (CSMembers indexKey) ;;
  listContainerStateByIndex indexKey keys.

Definition GetActiveContainersByStubId (stubId : string) : M (list ContainerState) :=
  list_index (SchedulerContainerIndex stubId).

Definition GetActiveContainersByWorkspaceId (workspaceId : string) : M (list ContainerState) :=
  list_index (SchedulerContainerWorkspaceIndex workspaceId).

Definition GetActiveContainersByWorkerId (workerId : string) : M (list ContainerState) :=
  list_index (SchedulerContainerWorkerIndex workerId).

Fixpoint failed_loop (keys : list string) : M (list string) :=
  match keys with
  | [] => ok []
  | key :: keys' =>
      let containerId := last_segment key in
      r <~ get_int (SchedulerContainerExitCode containerId) ;;
      match r with
      | inl ERedisNil => failed_loop keys'
      | inl e => fail (EWrap "failed to get value for key" e)
      | inr exitCode =>
          ids <- failed_loop keys' ;;
          ok (if IsFailed exitCode then containerId :: ids else ids)
      end
  end.

Definition GetFailedContainersByStubId (stubId : string) : M (list string) :=
  keys <- rcall (λ _, EMsg "failed to retrieve container state keys")
            (CSMembers (SchedulerContainerIndex stubId)) ;;
  failed_loop keys.

(** The totals of the containers that are not stopping, in Go's [int]. *)
Definition add_usage (t : Z * Z) (c : ContainerState) : Z * Z :=
  if String.eqb (cs_Status c) ContainerStatusStopping then t
  else (wrap_i64 (t.1 + cs_GpuCount c), wrap_i64 (t.2 + cs_Cpu c)).

Definition pending_state (now : Z) (request : ContainerRequest) : ContainerState :=
  mkContainerState (cr_ContainerId request) (cr_StubId request) ContainerStatusPending now
    (cr_WorkspaceId request) (cr_Gpu request) (cr_GpuCount request) (cr_Cpu request)
    (cr_Memory request) 0.

(** The check of the quota and the write, without the lock of the workspace. *)
Definition check_and_store (now : Z) (quota : option ConcurrencyLimit) (request : ContainerRequest) : M unit :=
  match quota with
  | None => SetContainerState (cr_ContainerId request) (pending_state now request)
  | Some q =>
      containers <- GetActiveContainersByWorkspaceId (cr_WorkspaceId request) ;;
      let total := foldl add_usage (0, 0) containers in
      if cl_GPULimit q <? wrap_i64 (total.1 + cr_GpuCount request)
      then fail (EThrottledByConcurrencyLimit "gpu quota exceeded")
      else if cl_CPUMillicoreLimit q <? wrap_i64 (total.2 + cr_Cpu request)
      then fail (EThrottledByConcurrencyLimit "cpu quota exceeded")
      else SetContainerState (cr_ContainerId request) (pending_state now request)
  end.

(** [redislock.Obtain] is called directly: when the lock is not obtained after
    the retries the method goes on without it, and releasing the nil lock is
    harmless. *)
Definition SetContainerStateWithConcurrencyLimit (now : Z) (quota : option ConcurrencyLimit)
    (request : ContainerRequest) : M unit :=
  let lockKey := WorkspaceConcurrencyLimitLock (cr_WorkspaceId request) in
  lock <- rcall (λ e, e) (CLockObtain lockKey 10 10) ;;
  r <~ check_and_store now quota request ;;
  match lock with
  | Some tok => cmd (CLockRelease lockKey tok) ;~ Ret r
  | None => Ret r
  end.

Definition GetStubState (stubId : string) : M string :=
  o <- rcall (λ e, e) (CGet (SchedulerStubState stubId)) ;;
  match o with Some state => ok state | None => ok StubStateHealthy end.

Definition unhealthyStateTTL : Z := 10 * minute.

Definition SetStubState (stubId state : string) : M unit :=
  rcall (λ e, e) (CSet (SchedulerStubState stubId) state unhealthyStateTTL).

Definition DeleteStubState (stubId : string) : M unit :=
  rcall (λ e, e) (CDel [SchedulerStubState stubId]) ;; ok tt.

Definition SetContainerRequestStatus (containerId status : string) : M unit :=
  rcall (λ e, e)
    (CSet (SchedulerContainerRequestStatus containerId) status ContainerRequestStatusTTL).

Definition SetBuildContainerTTL (containerId : string) (ttl : Z) : M unit :=
  rcall (λ e, e) (CSet (ImageBuildContainerTTL containerId) "1" ttl).

(** [Exists(key).Val()] is 0 on an error. *)
Definition HasBuildContainerTTL (containerId : string) : prog bool :=
  r <~ cmd (CExists (ImageBuildContainerTTL containerId)) ;;
  Ret (match r with inr n => negb (n =? 0) | inl _ => false end).
