(* ===== verification/WorkspaceRepo.v ===== *)
(** * Workspace quotas and pool states

    The cached concurrency limit of a workspace
    (pkg/repository/workspace_redis.go) and the state and locks of a worker pool
    (pkg/repository/worker_pool_redis.go). *)

From S2P Require Import Prelude GoStd Redis Keys Types Codec Lock.

Local Open Scope Z_scope.

(** ** Concurrency limits *)

(** [None] when no limit is cached. *)
Definition GetConcurrencyLimitByWorkspaceId (workspaceId : string) : M (option ConcurrencyLimit) :=
  res <- rcall (λ e, e) (CHGetAll (WorkspaceConcurrencyLimit workspaceId)) ;;
  if decide (res = ∅) then ok None
  else ok (Some (to_struct res zeroConcurrencyLimit)).

Definition cachedConcurrencyLimitTtl : Z := 600.

Definition SetConcurrencyLimitByWorkspaceId (workspaceId : string) (limit : ConcurrencyLimit) : M unit :=
  let key := WorkspaceConcurrencyLimit workspaceId in
  rcall (λ e, e) (CHSet key (to_slice limit)) ;;
  rcall (λ e, e) (CExpire key (cachedConcurrencyLimitTtl * second)) ;;
  ok tt.

(** ** Worker pool state *)

Definition GetWorkerPoolState (poolName : string) : M WorkerPoolState :=
  res <- rcall (EWrap "failed to get worker pool state") (CHGetAll (WorkerPoolStateKey poolName)) ;;
  if decide (res = ∅) then fail (EWorkerPoolStateNotFound poolName)
  else ok (to_struct res zeroWorkerPoolState).

Definition SetWorkerPoolStateLock (poolName : string) : M unit :=
  Acquire "workerpool" (WorkerPoolStateLock poolName) 10 0.

Definition RemoveWorkerPoolStateLock (poolName : string) : M unit :=
  Release "workerpool" (WorkerPoolStateLock poolName).

(** The eleven pairs the method lists; [ready_machines] is not among them. *)
Definition pool_state_fields (state : WorkerPoolState) : list (string * string) :=
  [ ("status", ps_Status state); ("scheduling_latency", fmt_int (ps_SchedulingLatency state));
    ("free_gpu", fmt_int (ps_FreeGpu state)); ("free_cpu", fmt_int (ps_FreeCpu state));
    ("free_memory", fmt_int (ps_FreeMemory state));
    ("pending_workers", fmt_int (ps_PendingWorkers state));
    ("available_workers", fmt_int (ps_AvailableWorkers state));
    ("pending_containers", fmt_int (ps_PendingContainers state));
    ("running_containers", fmt_int (ps_RunningContainers state));
    ("registered_machines", fmt_int (ps_RegisteredMachines state));
    ("pending_machines", fmt_int (ps_PendingMachines state)) ].

Definition SetWorkerPoolState (poolName : string) (state : WorkerPoolState) : M unit :=
  rcall (λ e, e) (CHSet (WorkerPoolStateKey poolName) (pool_state_fields state)).

Definition SetWorkerPoolSizerLock (poolName : string) : M unit :=
  Acquire "workerpool" (WorkerPoolSizerLock poolName) 3 0.

Definition RemoveWorkerPoolSizerLock (poolName : string) : M unit :=
  Release "workerpool" (WorkerPoolSizerLock poolName).

Definition SetWorkerCleanerLock (poolName : string) : M unit :=
  Acquire "workerpool" (WorkerPoolCleanerLock poolName) 10 3.

Definition RemoveWorkerCleanerLock (poolName : string) : M unit :=
  Release "workerpool" (WorkerPoolCleanerLock poolName).

(** ** The limit read back, and the machine count that is lost *)

Definition limit_ok (c : ConcurrencyLimit) : Prop :=
  in_u64 (cl_WorkspaceId c) /\ in_u32 (cl_GPULimit c) /\ in_u32 (cl_CPUMillicoreLimit c).

(** What Redis keeps of a limit: the internal id and the timestamps are not stored. *)
Definition cached_limit (c : ConcurrencyLimit) : ConcurrencyLimit :=
  mkConcurrencyLimit 0 (cl_ExternalId c) (cl_WorkspaceId c) (cl_GPULimit c) (cl_CPUMillicoreLimit c)
    zeroTime zeroTime.

Lemma limit_hash_roundtrip c h :
  limit_ok c -> to_struct (hset_fields (to_slice c) h) zeroConcurrencyLimit = cached_limit c.
Proof.
  intros (H1 & H2 & H3).
  assert (forall tag v, (tag, v) ∈ to_slice c -> hset_fields (to_slice c) h !! tag = Some v) as Hin
    by (intros; apply hset_fields_in; [apply concurrency_limit_tags_nodup|done]).
  revert Hin. generalize (hset_fields (to_slice c) h). intros m Hin.
  unfold to_struct, ToStruct. csimpl.
  rewrite (Hin "external_id" (cl_ExternalId c)), (Hin "workspace_id" (fmt_int (cl_WorkspaceId c))),
    (Hin "gpu_limit" (fmt_int (cl_GPULimit c))),
    (Hin "cpu_millicore_limit" (fmt_int (cl_CPUMillicoreLimit c)))
    by (unfold to_slice; simpl; rewrite !elem_of_cons; tauto).
  csimpl. by rewrite !ParseUint_fmt_int.
Qed.

Lemma hset_nonempty t v fs h : hset_fields ((t, v) :: fs) h <> ∅.
Proof.
  intros E. assert (is_Some (hset_fields ((t, v) :: fs) h !! t)) as [x Hx].
  { unfold hset_fields. simpl. assert (is_Some ((<[t:=v]> h : gmap string string) !! t)) as H0
      by (rewrite lookup_insert_eq; eauto).
    revert H0. generalize (<[t:=v]> h : gmap string string). clear.
    induction fs as [|[t' v'] fs IH]; intros m Hm; simpl; [done|]. apply IH.
    destruct (decide (t' = t)) as [->|]; [rewrite lookup_insert_eq; eauto|].
    by rewrite lookup_insert_ne. }
  by rewrite E, lookup_empty in Hx.
Qed.

(** [ready_machines] written by no one is read as 0. *)
Lemma pool_state_ready state :
  ps_ReadyMachines (to_struct (hset_fields (pool_state_fields state) ∅) zeroWorkerPoolState) = 0.
Proof.
  assert (hset_fields (pool_state_fields state) ∅ !! "ready_machines" = None) as H.
  { rewrite hset_fields_not_in; [done|]. apply (bool_decide_unpack _). vm_compute. exact I. }
  revert H. generalize (hset_fields (pool_state_fields state) ∅). intros m H.
  unfold to_struct.
  destruct (ToStruct_ok m (fields zeroWorkerPoolState)) as [_ Hsh].
  { repeat first [exact (Forall_nil_2 _) | apply Forall_cons_2; [done|]]. }
  assert (ToStruct m (fields zeroWorkerPoolState) !! 11%nat = Some ("ready_machines", GInt 64 0)) as Hl
    by (unfold ToStruct; csimpl; by rewrite H).
  revert Hl Hsh. generalize (ToStruct m (fields zeroWorkerPoolState)). intros l Hl Hsh.
  unfold same_shape in Hsh. simpl in Hsh. inv_shape. by simplify_eq/=.
Qed.
