(* ===== verification/ContainerSpec.v ===== *)
(** * What the container repository guarantees *)

From S2P Require Import Prelude GoStd Redis Keys Types Codec Lock ContainerRepo.

Local Open Scope Z_scope.
Set Default Proof Using "Type".

(** ** Container states as stored *)

(** The state a key decodes to; [None] when it is absent, not a hash, or has no
    container id. *)
Definition state_at (d : rdb) (key : string) : option ContainerState :=
  match kv d !! key with
  | Some (RVHash h) =>
      let s := to_struct h zeroContainerState in
      if String.eqb (cs_ContainerId s) "" then None else Some s
  | _ => None
  end.

Lemma state_at_eq_except ks d d' key :
  eq_except ks d d' -> key ∉ ks -> state_at d' key = state_at d key.
Proof. intros H Hk. unfold state_at. by rewrite (eq_except_kv _ _ _ _ H Hk). Qed.

(** Removing members from an index does not change what any key decodes to. *)
Lemma state_at_srem idx m d r d' key :
  rsem (CSRem idx m) d r d' -> state_at d' key = state_at d key.
Proof.
  intros H. destruct (decide (key = idx)) as [->|Hne].
  - destruct H as (X & HX & ->). unfold state_at, set_or_del.
    destruct (kv d !! idx) as [[]|]; simpl in *; try done;
      case_decide; simpl; rewrite ?lookup_delete_eq, ?lookup_insert_eq; done.
  - apply (state_at_eq_except {[idx]}); [frame|]. by rewrite elem_of_singleton.
Qed.

(** ** Listing an index on a reliable server *)

Lemma rwp_exists k Q d L :
  Q (inr (if exists_kv k d then 1 else 0)) d L -> rwp (cmd (CExists k)) Q d L.
Proof.
  intros HQ. wp_call; [by destruct H as [-> ->]|]. destruct H as [_ H]. exfalso. by eapply H.
Qed.

Lemma rwp_hgetall k Q d L :
  (forall h, as_hash (kv d !! k) = Some h -> Q (inr h) d L) ->
  (forall e, as_hash (kv d !! k) = None -> Q (inl e) d L) ->
  rwp (cmd (CHGetAll k)) Q d L.
Proof.
  intros H1 H2. wp_call.
  - destruct H as [Hh ->]. by apply H1.
  - destruct H as [-> H]. destruct (as_hash (kv d !! k)) as [h|] eqn:E; [|by apply H2].
    exfalso. by eapply H.
Qed.

(** The contents an index listing leaves: members dropped from the index only,
    and none that has a state. *)
Definition cleaned (idx : string) (d d' : rdb) : Prop :=
  eq_except {[idx]} d d' /\ (forall key, state_at d' key = state_at d key) /\
  forall X, as_set (kv d !! idx) = Some X ->
    exists X', as_set (kv d' !! idx) = Some X' /\ X' ⊆ X /\
      forall key, key ∈ X -> key ∉ X' -> kv d !! key = None.

Lemma cleaned_refl idx d : cleaned idx d d.
Proof. split; [reflexivity|]. split; [done|]. intros X HX. exists X. by split_and!; [| |intros]. Qed.

Lemma cleaned_srem idx key d r d1 d2 :
  kv d !! key = None -> rsem (CSRem idx key) d r d1 -> cleaned idx d1 d2 -> cleaned idx d d2.
Proof.
  intros Hk Hs (Hf & Hst & HX). split; [etransitivity; [|exact Hf]; frame|]. split.
  { intros k. rewrite Hst. by eapply state_at_srem. }
  intros X HX0. assert (eq_except {[idx]} d d1) as Hf1 by frame.
  destruct Hs as (X0 & HX1 & ->). rewrite HX0 in HX1. injection HX1 as <-.
  destruct (HX (X ∖ {[key]})) as (X' & HX' & Hsub & Hdrop).
  { unfold set_or_del. case_decide as E; simpl;
      [rewrite lookup_delete_eq, E|rewrite lookup_insert_eq]; done. }
  exists X'. split; [done|]. split; [set_solver|]. intros k Hin Hnin.
  destruct (decide (k = key)) as [->|Hne]; [done|].
  assert (k ∈ X ∖ {[key]}) as Hk' by set_solver.
  specialize (Hdrop k Hk' Hnin). destruct (decide (k = idx)) as [->|Hi].
  - unfold set_or_del in Hdrop. case_decide as E; simpl in Hdrop; [set_solver|].
    rewrite lookup_insert_eq in Hdrop. done.
  - by rewrite (eq_except_kv _ _ _ _ Hf1) in Hdrop by (by rewrite elem_of_singleton).
Qed.

Lemma omap_ext_state d d' (keys : list string) :
  (forall key, state_at d' key = state_at d key) -> omap (state_at d') keys = omap (state_at d) keys.
Proof. intros H. induction keys as [|k keys IH]; csimpl; [done|]. by rewrite H, IH. Qed.

Lemma rwp_list idx keys d L :
  rwp (listContainerStateByIndex idx keys)
    (λ r d' L', r = inr (omap (state_at d) keys) /\ cleaned idx d d' /\ L' = L) d L.
Proof.
  revert d. induction keys as [|key keys IH]; intros d; simpl.
  { split; [done|]. split; [apply cleaned_refl|done]. }
  wp_bind. apply rwp_exists. unfold exists_kv. case_bool_decide as Hex; simpl.
  - wp_bind. apply rwp_hgetall.
    + intros h Hh. destruct Hex as [v Hv]. unfold state_at at 1. rewrite Hv in *.
      destruct v; simplify_eq/=. csimpl. case_match; [apply IH|].
      wp_bind. eapply wp_mono; [|apply IH]. intros r d' L' (-> & Hc & ->). done.
    + intros e Hn. destruct Hex as [v Hv]. unfold state_at at 1. rewrite Hv in *.
      destruct v; simplify_eq/=; apply IH.
  - assert (kv d !! key = None) as Hk by (by apply eq_None_not_Some).
    unfold state_at at 1. rewrite Hk. csimpl.
    wp_bind. apply rwp_exists. destruct (0 <? _); [apply IH|]. wp_bind. wp_call.
    + eapply wp_mono; [|apply IH]. intros r' d2 L2 (-> & Hc & ->). split; [|split; [|done]].
      * f_equal. apply omap_ext_state. intros k. by eapply state_at_srem.
      * by eapply cleaned_srem.
    + destruct H as [-> _]. apply IH.
Qed.

Lemma rwp_list_index idx X d L :
  as_set (kv d !! idx) = Some X ->
  rwp (list_index idx)
    (λ r d' L', (exists l, r = inr l /\ l ≡ₚ omap (state_at d) (elements X)) /\
                cleaned idx d d' /\ L' = L) d L.
Proof.
  intros HX. unfold list_index. wp_bind. wp_call.
  - destruct H as (X' & HX' & Hp & ->). rewrite HX in HX'. injection HX' as <-.
    eapply wp_mono; [|apply rwp_list]. intros r' d' L' (-> & Hc & ->). split; [|done].
    eexists. split; [done|]. by rewrite Hp.
  - destruct H as [_ H]. exfalso. by eapply (H (elements X)); exists X.
Qed.

(** ** Usage of a workspace *)

Definition zsum (l : list Z) : Z := foldr Z.add 0 l.

#[export] Instance zsum_perm : Proper ((≡ₚ) ==> (=)) zsum.
Proof. intros l1 l2 H. induction H; simpl; lia. Qed.

Lemma zsum_app l1 l2 : zsum (l1 ++ l2)%list = zsum l1 + zsum l2.
Proof. induction l1 as [|x l1 IH]; simpl; [done|]. rewrite IH. lia. Qed.

Definition set_sum (f : string -> Z) (X : gset string) : Z := zsum (f <$> elements X).

Lemma set_sum_union f X Y : X ## Y -> set_sum f (X ∪ Y) = set_sum f X + set_sum f Y.
Proof.
  intros H. unfold set_sum. by rewrite (elements_disj_union _ _ H), fmap_app, zsum_app.
Qed.

Lemma set_sum_ext f g X : (forall k, k ∈ X -> f k = g k) -> set_sum f X = set_sum g X.
Proof.
  intros H. unfold set_sum. f_equal. apply list_fmap_ext. intros i k Hk. apply H.
  apply elem_of_elements. by eapply list_elem_of_lookup_2.
Qed.

Lemma set_sum_zero f X : (forall k, k ∈ X -> f k = 0) -> set_sum f X = 0.
Proof.
  intros H. rewrite (set_sum_ext f (λ _, 0)) by done. unfold set_sum.
  induction (elements X) as [|x l IH]; simpl; [done|]. exact IH.
Qed.

Lemma set_sum_subset f X Y :
  Y ⊆ X -> (forall k, k ∈ X -> k ∉ Y -> f k = 0) -> set_sum f Y = set_sum f X.
Proof.
  intros Hs H0. rewrite (union_difference_L Y X Hs), set_sum_union by set_solver.
  rewrite (set_sum_zero f (X ∖ Y)); [lia|]. intros k [? ?]%elem_of_difference. auto.
Qed.

(** A weight added at a member that had none. *)
Lemma set_sum_add f f' X Y k :
  Y ⊆ X -> (forall k', k' ∈ X -> k' ∉ Y -> f k' = 0) -> f k = 0 ->
  (forall k', k' ∈ X -> k' <> k -> f' k' = f k') ->
  set_sum f' ({[k]} ∪ Y) = f' k + set_sum f X.
Proof.
  intros Hs H0 Hk Hf. replace ({[k]} ∪ Y) with ({[k]} ∪ (Y ∖ {[k]}) : gset string).
  2: { apply leibniz_equiv. intros x. destruct (decide (x = k)); set_solver. }
  rewrite set_sum_union by set_solver. f_equal.
  - unfold set_sum. rewrite elements_singleton. simpl. lia.
  - rewrite (set_sum_ext f' f) by (intros k' Hk'; apply Hf; set_solver).
    apply set_sum_subset; [set_solver|]. intros k' Hin Hnin.
    destruct (decide (k' = k)) as [->|Hne]; [done|]. apply H0; set_solver.
Qed.

(** What a container counts for: nothing once it is stopping. *)
Definition gpu_weight (c : ContainerState) : Z :=
  if String.eqb (cs_Status c) ContainerStatusStopping then 0 else cs_GpuCount c.
Definition cpu_weight (c : ContainerState) : Z :=
  if String.eqb (cs_Status c) ContainerStatusStopping then 0 else cs_Cpu c.

Definition weight_at (w : ContainerState -> Z) (d : rdb) (key : string) : Z :=
  match state_at d key with Some c => w c | None => 0 end.

(** The usage of a workspace: the sum over its index. *)
Definition usage (w : ContainerState -> Z) (d : rdb) (ws : string) : Z :=
  match as_set (kv d !! SchedulerContainerWorkspaceIndex ws) with
  | Some X => set_sum (weight_at w d) X
  | None => 0
  end.

Lemma zsum_omap (w : ContainerState -> Z) d (l : list string) :
  zsum (w <$> omap (state_at d) l) = zsum (weight_at w d <$> l).
Proof.
  unfold weight_at. induction l as [|k l IH]; csimpl; [done|].
  destruct (state_at d k); csimpl; rewrite IH; lia.
Qed.

Lemma foldl_add_usage g c (l : list ContainerState) :
  foldl add_usage (wrap_i64 g, wrap_i64 c) l
  = (wrap_i64 (g + zsum (gpu_weight <$> l)), wrap_i64 (c + zsum (cpu_weight <$> l))).
Proof.
  revert g c. induction l as [|s l IH]; intros g c; csimpl.
  { by rewrite !Z.add_0_r. }
  unfold add_usage at 2, gpu_weight at 1, cpu_weight at 1.
  destruct (String.eqb _ _); simpl.
  - rewrite IH. f_equal; f_equal; lia.
  - rewrite !wrap_i_add_l, IH. f_equal; f_equal; lia.
Qed.

Lemma total_usage d ws X l :
  as_set (kv d !! SchedulerContainerWorkspaceIndex ws) = Some X ->
  l ≡ₚ omap (state_at d) (elements X) ->
  foldl add_usage (0, 0) l
  = (wrap_i64 (usage gpu_weight d ws), wrap_i64 (usage cpu_weight d ws)).
Proof.
  intros HX Hl. change (0, 0) with (wrap_i64 0, wrap_i64 0). rewrite foldl_add_usage, Hl, !zsum_omap.
  unfold usage. by rewrite HX.
Qed.

(** ** Writing a state *)

(** The state [SetContainerState] leaves under a key that was absent. *)
Definition written (containerId : string) (s : ContainerState) : ContainerState :=
  mkContainerState containerId (cs_StubId s) (cs_Status s) (cs_ScheduledAt s) (cs_WorkspaceId s)
    (cs_Gpu s) (cs_GpuCount s) (cs_Cpu s) (cs_Memory s) 0.

Lemma container_state_fields_nodup id s : NoDup (container_state_fields id s).*1.
Proof. nodup_tags. Qed.

Lemma written_roundtrip id s :
  container_state_ok s ->
  to_struct (hset_fields (container_state_fields id s) ∅) zeroContainerState = written id s.
Proof.
  intros (H1 & H2 & H3 & H4 & H5).
  assert (forall tag v, (tag, v) ∈ container_state_fields id s ->
    hset_fields (container_state_fields id s) ∅ !! tag = Some v) as Hin
    by (intros; apply hset_fields_in; [apply container_state_fields_nodup|done]).
  assert (hset_fields (container_state_fields id s) ∅ !! "started_at" = None) as Hst.
  { rewrite hset_fields_not_in; [done|]. apply (bool_decide_unpack _). vm_compute. exact I. }
  revert Hin Hst. generalize (hset_fields (container_state_fields id s) ∅). intros h Hin Hst.
  unfold to_struct, ToStruct. csimpl. rewrite Hst.
  rewrite (Hin "container_id" id), (Hin "status" (cs_Status s)), (Hin "stub_id" (cs_StubId s)),
    (Hin "scheduled_at" (fmt_int (cs_ScheduledAt s))), (Hin "workspace_id" (cs_WorkspaceId s)),
    (Hin "gpu" (cs_Gpu s)), (Hin "gpu_count" (fmt_int (cs_GpuCount s))),
    (Hin "cpu" (fmt_int (cs_Cpu s))), (Hin "memory" (fmt_int (cs_Memory s)))
    by (unfold container_state_fields; rewrite !elem_of_cons; tauto).
  csimpl. by rewrite !ParseInt_fmt_int, ParseUint_fmt_int.
Qed.

Definition set_keys (id stub ws : string) : gset string :=
  {[SchedulerContainerState id; SchedulerContainerIndex stub; SchedulerContainerWorkspaceIndex ws]}.

(** What [SetContainerState] leaves when it goes through. *)
Definition recorded (id : string) (s : ContainerState) (X : gset string) (d : rdb) : Prop :=
  state_at d (SchedulerContainerState id) = Some (written id s) /\
  as_set (kv d !! SchedulerContainerWorkspaceIndex (cs_WorkspaceId s))
    = Some ({[SchedulerContainerState id]} ∪ X).

Lemma lock_not_in_set id stub ws : SchedulerContainerLock id ∉ set_keys id stub ws.
Proof. unfold set_keys. key_not_in. Qed.

Lemma recorded_ignores_lock id s X d1 d2 :
  eq_except {[SchedulerContainerLock id]} d1 d2 -> recorded id s X d1 -> recorded id s X d2.
Proof.
  intros Heq [H1 H2]. split.
  - rewrite (state_at_eq_except _ _ _ _ Heq); [done|]. key_not_in.
  - rewrite (eq_except_kv _ _ _ _ Heq); [done|]. key_not_in.
Qed.

Lemma rwp_sadd wrapE k m X Q d L :
  as_set (kv d !! k) = Some X ->
  (forall d', rsem (CSAdd k m) d tt d' -> as_set (kv d' !! k) = Some ({[m]} ∪ X) -> Q (inr tt) d' L) ->
  rwp (rcall wrapE (CSAdd k m)) Q d L.
Proof.
  intros HX HQ. wp_call.
  - destruct r. apply HQ; [done|]. destruct H as (Y & HY & ->). rewrite HX in HY.
    injection HY as <-. simpl. by rewrite lookup_insert_eq.
  - destruct H as [_ H]. exfalso. eapply (H tt). by exists X.
Qed.

Lemma written_state d id s r d1 :
  container_state_ok s -> id <> "" -> kv d !! SchedulerContainerState id = None ->
  rsem (CHSet (SchedulerContainerState id) (container_state_fields id s)) d r d1 ->
  state_at d1 (SchedulerContainerState id) = Some (written id s) /\
  is_Some (kv d1 !! SchedulerContainerState id).
Proof.
  intros Hok Hid Hk (h & _ & Hh & ->). rewrite Hk in Hh. injection Hh as <-.
  unfold state_at, set_kv. cbn [kv]. rewrite lookup_insert_eq, written_roundtrip by done.
  simpl. rewrite (proj2 (String.eqb_neq _ _)) by done. eauto.
Qed.

Lemma rwp_SetContainerState id s X Y d L :
  container_state_ok s -> id <> "" ->
  kv d !! SchedulerContainerLock id = None -> kv d !! SchedulerContainerState id = None ->
  as_set (kv d !! SchedulerContainerIndex (cs_StubId s)) = Some Y ->
  as_set (kv d !! SchedulerContainerWorkspaceIndex (cs_WorkspaceId s)) = Some X ->
  rwp (SetContainerState id s)
    (λ r d' _, (r = inr tt /\ recorded id s X d' /\
      eq_except (set_keys id (cs_StubId s) (cs_WorkspaceId s) ∪ {[SchedulerContainerLock id]}) d d') /\
      kv d' !! SchedulerContainerLock id = None) d L.
Proof.
  intros Hok Hid Hl Hk HY HX. unfold SetContainerState.
  set (ks := set_keys id (cs_StubId s) (cs_WorkspaceId s)).
  apply (rwp_with_lock _ _ _ _ _ ks
    (λ r d', r = inr tt /\ recorded id s X d' /\ eq_except (ks ∪ {[SchedulerContainerLock id]}) d d'));
    [done|apply lock_not_in_set| |].
  { intros r d1 d2 Heq (-> & H & Hf). split; [done|]. split; [by eapply recorded_ignores_lock|].
    etransitivity; [exact Hf|]. eapply eq_except_weaken; [|exact Heq]. apply union_subseteq_r. }
  intros d1 L1 Heq.
  assert (forall k, k <> SchedulerContainerLock id -> kv d1 !! k = kv d !! k) as Hd1.
  { intros k Hne. apply (eq_except_kv _ _ _ _ Heq). by rewrite elem_of_singleton. }
  wp_bind. wp_call.
  2: { destruct H as [_ H]. exfalso. eapply (H tt). exists ∅.
       rewrite Hd1, Hk by key_ne. done. }
  assert (eq_except ks d1 d') as Hf1 by (unfold ks, set_keys; frame).
  assert (eq_except {[SchedulerContainerState id]} d1 d') as Hs1 by frame.
  apply written_state in H as [Hw1 Hex]; [|done|done|by rewrite Hd1 by key_ne].
  wp_bind. wp_call; [|by destruct H as [_ H]; exfalso; eapply (H tt)].
  assert (eq_except ks d' d'0) as Hf2 by (unfold ks, set_keys; frame).
  assert (eq_except {[SchedulerContainerState id]} d' d'0) as Hs2 by frame.
  assert (state_at d'0 (SchedulerContainerState id) = Some (written id s)) as Hw2.
  { rewrite H. unfold exists_kv. by rewrite bool_decide_true. }
  wp_bind. eapply (rwp_sadd _ _ _ Y).
  { rewrite (eq_except_kv _ _ _ _ Hs2), (eq_except_kv _ _ _ _ Hs1), Hd1 by (key_not_in || key_ne). done. }
  intros d2 H2 _. assert (eq_except ks d'0 d2) as Hf3 by (unfold ks, set_keys; frame).
  assert (eq_except {[SchedulerContainerIndex (cs_StubId s)]} d'0 d2) as Hs3 by frame.
  wp_bind. eapply (rwp_sadd _ _ _ X).
  { rewrite (eq_except_kv _ _ _ _ Hs3), (eq_except_kv _ _ _ _ Hs2), (eq_except_kv _ _ _ _ Hs1), Hd1
      by (key_not_in || key_ne). done. }
  intros d3 H3 HX3. assert (eq_except ks d2 d3) as Hf4 by (unfold ks, set_keys; frame).
  assert (eq_except {[SchedulerContainerWorkspaceIndex (cs_WorkspaceId s)]} d2 d3) as Hs4 by frame.
  assert (eq_except ks d1 d3) as Hf by (by repeat (etransitivity; [eassumption|])).
  split; [|done]. split; [done|]. split.
  - split; [|done].
    rewrite (state_at_eq_except _ _ _ _ Hs4), (state_at_eq_except _ _ _ _ Hs3) by key_not_in. done.
  - etransitivity; [eapply eq_except_weaken; [|exact Heq]; apply union_subseteq_r|].
    eapply eq_except_weaken; [|exact Hf]. apply union_subseteq_l.
Qed.

(** ** Admission under a concurrency limit *)

(** The workspace index holds container state keys only. *)
Definition index_wf (d : rdb) (ws : string) (X : gset string) : Prop :=
  as_set (kv d !! SchedulerContainerWorkspaceIndex ws) = Some X /\
  forall k, k ∈ X -> exists id, k = SchedulerContainerState id.

Lemma usage_same w d d' ws X :
  index_wf d ws X ->
  kv d' !! SchedulerContainerWorkspaceIndex ws = kv d !! SchedulerContainerWorkspaceIndex ws ->
  (forall id, kv d' !! SchedulerContainerState id = kv d !! SchedulerContainerState id) ->
  usage w d' ws = usage w d ws.
Proof.
  intros [HX Hk] Hi Hs. unfold usage. rewrite Hi, HX. apply set_sum_ext.
  intros k Hin. destruct (Hk k Hin) as [id ->]. unfold weight_at, state_at. by rewrite Hs.
Qed.

(** Recording a new container adds its weight to the usage. *)
Lemma usage_recorded w d d1 d2 id s X X1 :
  index_wf d (cs_WorkspaceId s) X -> kv d !! SchedulerContainerState id = None ->
  cleaned (SchedulerContainerWorkspaceIndex (cs_WorkspaceId s)) d d1 ->
  as_set (kv d1 !! SchedulerContainerWorkspaceIndex (cs_WorkspaceId s)) = Some X1 ->
  recorded id s X1 d2 ->
  eq_except (set_keys id (cs_StubId s) (cs_WorkspaceId s) ∪ {[SchedulerContainerLock id]}) d1 d2 ->
  usage w d2 (cs_WorkspaceId s) = w (written id s) + usage w d (cs_WorkspaceId s).
Proof.
  intros [HX Hwf] Hnone (_ & Hst & Hc) HX1 [Hw HX2] Hf.
  destruct (Hc X HX) as (X1' & HX1' & Hsub & Hdrop). rewrite HX1 in HX1'. injection HX1' as <-.
  unfold usage. rewrite HX2, HX. rewrite (set_sum_add (weight_at w d) _ X).
  - unfold weight_at at 1. by rewrite Hw.
  - done.
  - intros k Hin Hnin. unfold weight_at, state_at. by rewrite (Hdrop k Hin Hnin).
  - unfold weight_at, state_at. by rewrite Hnone.
  - intros k Hin Hne. destruct (Hwf k Hin) as [id' ->]. unfold weight_at.
    rewrite (state_at_eq_except _ _ _ _ Hf), Hst; [done|].
    unfold set_keys. rewrite !not_elem_of_union, !not_elem_of_singleton.
    repeat split; [done|key_ne..].
Qed.

(** The decision: the new totals against the limits, in 64-bit arithmetic. *)
Definition admission (q : ConcurrencyLimit) (gpu cpu : Z) (req : ContainerRequest) : gerr + unit :=
  if cl_GPULimit q <? wrap_i64 (gpu + cr_GpuCount req)
  then inl (EThrottledByConcurrencyLimit "gpu quota exceeded")
  else if cl_CPUMillicoreLimit q <? wrap_i64 (cpu + cr_Cpu req)
  then inl (EThrottledByConcurrencyLimit "cpu quota exceeded")
  else inr tt.

(** A container that is new, with free locks and indexes of the right type. *)
Record admissible (d : rdb) (req : ContainerRequest) (X : gset string) : Prop := {
  ad_index : index_wf d (cr_WorkspaceId req) X;
  ad_stub : is_Some (as_set (kv d !! SchedulerContainerIndex (cr_StubId req)));
  ad_new : kv d !! SchedulerContainerState (cr_ContainerId req) = None;
  ad_lock : kv d !! SchedulerContainerLock (cr_ContainerId req) = None;
  ad_id : cr_ContainerId req <> "";
  ad_ranges : in_u32 (cr_GpuCount req) /\ in_i64 (cr_Cpu req) /\ in_i64 (cr_Memory req);
}.

Lemma pending_state_ok now req d X :
  in_i64 now -> admissible d req X -> container_state_ok (pending_state now req).
Proof. intros Hn H. destruct (ad_ranges _ _ _ H) as (? & ? & ?). by refine (conj Hn (conj _ (conj _ (conj _ _)))). Qed.

Lemma pending_weight now req :
  gpu_weight (written (cr_ContainerId req) (pending_state now req)) = cr_GpuCount req /\
  cpu_weight (written (cr_ContainerId req) (pending_state now req)) = cr_Cpu req.
Proof. done. Qed.

Definition admitted (q : ConcurrencyLimit) (req : ContainerRequest) (d : rdb)
    (r : gerr + unit) (d' : rdb) : Prop :=
  r = admission q (usage gpu_weight d (cr_WorkspaceId req)) (usage cpu_weight d (cr_WorkspaceId req)) req /\
  usage gpu_weight d' (cr_WorkspaceId req)
    = usage gpu_weight d (cr_WorkspaceId req) + (if decide (r = inr tt) then cr_GpuCount req else 0) /\
  usage cpu_weight d' (cr_WorkspaceId req)
    = usage cpu_weight d (cr_WorkspaceId req) + (if decide (r = inr tt) then cr_Cpu req else 0) /\
  exists X, index_wf d' (cr_WorkspaceId req) X.

Lemma index_wf_cleaned d d' ws X :
  index_wf d ws X -> cleaned (SchedulerContainerWorkspaceIndex ws) d d' ->
  exists X', index_wf d' ws X'.
Proof.
  intros [HX Hwf] (_ & _ & Hc). destruct (Hc X HX) as (X' & HX' & Hsub & _).
  exists X'. split; [done|]. auto.
Qed.

Lemma usage_cleaned w d d' ws X :
  index_wf d ws X -> cleaned (SchedulerContainerWorkspaceIndex ws) d d' ->
  usage w d' ws = usage w d ws.
Proof.
  intros [HX _] (_ & Hst & Hc). destruct (Hc X HX) as (X' & HX' & Hsub & Hdrop).
  unfold usage. rewrite HX', HX. rewrite (set_sum_ext _ (weight_at w d)).
  - apply set_sum_subset; [done|]. intros k Hin Hnin. unfold weight_at, state_at.
    by rewrite (Hdrop k Hin Hnin).
  - intros k _. unfold weight_at. by rewrite Hst.
Qed.

Lemma rwp_check_and_store now q req d L X :
  in_i64 now -> admissible d req X ->
  rwp (check_and_store now (Some q) req) (λ r d' _, admitted q req d r d') d L.
Proof.
  intros Hn Had. pose proof (ad_index _ _ _ Had) as Hi. unfold check_and_store.
  wp_bind. eapply wp_mono; [|apply rwp_list_index, Hi].
  intros r d1 L1 ((l & -> & Hl) & Hc & ->). cbn beta iota.
  rewrite (total_usage d (cr_WorkspaceId req) X l (proj1 Hi) Hl). simpl. rewrite !wrap_i_add_l.
  assert (forall e, admission q (usage gpu_weight d (cr_WorkspaceId req))
      (usage cpu_weight d (cr_WorkspaceId req)) req = inl e -> admitted q req d (inl e) d1) as Herr.
  { intros e He. unfold admitted. rewrite !decide_False, !Z.add_0_r by done.
    rewrite !(usage_cleaned _ _ _ _ _ Hi Hc). split_and!; try done. by eapply index_wf_cleaned. }
  unfold admission in Herr. destruct (_ <? _) eqn:E1; [by apply Herr|].
  destruct (cl_CPUMillicoreLimit q <? _) eqn:E2; [by apply Herr|]. clear Herr.
  destruct Hc as (Hf & Hst & Hset). destruct (Hset X (proj1 Hi)) as (X1 & HX1 & Hsub & Hdrop).
  destruct (ad_stub _ _ _ Had) as [Y HY].
  assert (forall k, k <> SchedulerContainerWorkspaceIndex (cr_WorkspaceId req) -> kv d1 !! k = kv d !! k)
    as Hk by (intros k Hne; apply (eq_except_kv _ _ _ _ Hf); by rewrite elem_of_singleton).
  eapply wp_mono; [|eapply (rwp_SetContainerState _ _ X1 Y)];
    [|by eapply pending_state_ok|apply Had|rewrite Hk by key_ne; apply Had
     |rewrite Hk by key_ne; apply Had|rewrite Hk by key_ne; apply HY|exact HX1].
  intros r d2 L2 [(-> & Hrec & Hf2) _]. unfold admitted, admission. rewrite E1, E2, !decide_True by done.
  destruct (pending_weight now req) as [Hg Hcpu].
  assert (forall w, usage w d2 (cr_WorkspaceId req)
    = w (written (cr_ContainerId req) (pending_state now req)) + usage w d (cr_WorkspaceId req)) as Hu.
  { intros w. apply (usage_recorded w d d1 d2 _ (pending_state now req) X X1); try done. apply Had. }
  rewrite !Hu, Hg, Hcpu. split_and!; [done|lia|lia|].
  exists ({[SchedulerContainerState (cr_ContainerId req)]} ∪ X1). split; [apply Hrec|].
  intros k [->%elem_of_singleton|Hin]%elem_of_union; [eauto|]. apply (proj2 Hi). auto.
Qed.

(** The whole method, whether the lock of the workspace is obtained or not. *)
Lemma rwp_SetContainerStateWithConcurrencyLimit now q req d L X :
  in_i64 now -> admissible d req X ->
  rwp (SetContainerStateWithConcurrencyLimit now (Some q) req) (λ r d' _, admitted q req d r d') d L.
Proof.
  intros Hn Had. unfold SetContainerStateWithConcurrencyLimit.
  set (lk := WorkspaceConcurrencyLimitLock (cr_WorkspaceId req)) in *.
  assert (forall d1, eq_except {[lk]} d d1 -> admissible d1 req X /\
    forall w, usage w d1 (cr_WorkspaceId req) = usage w d (cr_WorkspaceId req)) as Hlk.
  { intros d1 Hf.
    assert (forall k, k <> lk -> kv d1 !! k = kv d !! k) as Hk
      by (intros k Hne; apply (eq_except_kv _ _ _ _ Hf); by rewrite elem_of_singleton).
    destruct Had as [Hi ? ? ? ? ?]. split.
    - split; rewrite ?Hk by key_ne; try done. destruct Hi as [HX Hwf].
      split; [by rewrite Hk by key_ne|done].
    - intros w. eapply usage_same; [exact Hi| |]; intros; apply Hk; key_ne. }
  wp_bind. wp_call.
  2: { destruct H as [_ H]. exfalso. destruct (kv d !! lk) eqn:E; [|by eapply (H (Some ""))].
       apply (H None d). simpl. unfold exists_kv. rewrite bool_decide_true; eauto. }
  destruct r as [tok|].
  2: { destruct H as [_ ->]. wp_bind. eapply wp_mono; [|by eapply rwp_check_and_store]. done. }
  assert (eq_except {[lk]} d d') as Hf by frame. destruct (Hlk _ Hf) as [Had1 Hu1].
  wp_bind. eapply wp_mono; [|by eapply rwp_check_and_store]. intros r d1 L1 (Hr & Hg & Hc & X' & HX').
  rewrite (Hu1 gpu_weight), (Hu1 cpu_weight) in Hr.
  rewrite (Hu1 gpu_weight) in Hg. rewrite (Hu1 cpu_weight) in Hc.
  assert (forall d2, eq_except {[lk]} d1 d2 -> admitted q req d r d2) as Hfin.
  { intros d2 Hf2. unfold admitted.
    assert (forall k, k <> lk -> kv d2 !! k = kv d1 !! k) as Hk
      by (intros k Hne; apply (eq_except_kv _ _ _ _ Hf2); by rewrite elem_of_singleton).
    rewrite (usage_same gpu_weight d1 d2 _ X' HX'), (usage_same cpu_weight d1 d2 _ X' HX')
      by (intros; apply Hk; key_ne).
    split; [exact Hr|split; [exact Hg|split; [exact Hc|]]]. exists X'. destruct HX' as [H1 H2]. split; [by rewrite Hk by key_ne|done]. }
  wp_bind. wp_call; apply Hfin; [frame|]. destruct H0 as [-> _]. reflexivity.
Qed.

(** ** Reading a state back *)

Lemma written_hash d id s r d1 :
  kv d !! SchedulerContainerState id = None ->
  rsem (CHSet (SchedulerContainerState id) (container_state_fields id s)) d r d1 ->
  exists h, kv d1 !! SchedulerContainerState id = Some (RVHash h) /\ h <> ∅.
Proof.
  intros Hk (h & _ & Hh & ->). unfold set_kv. cbn [kv]. rewrite lookup_insert_eq.
  eexists. split; [done|]. intros E.
  pose proof (hset_fields_in (container_state_fields id s) h "container_id" id) as H.
  rewrite E, lookup_empty in H. discriminate H; [apply container_state_fields_nodup|].
  apply elem_of_cons. by left.
Qed.

Lemma state_at_hash d key s :
  state_at d key = Some s ->
  exists h, kv d !! key = Some (RVHash h) /\ to_struct h zeroContainerState = s /\ h <> ∅.
Proof.
  unfold state_at. destruct (kv d !! key) as [[]|]; try done. case_match eqn:E; [done|].
  intros [= <-]. eexists. split_and!; [done..|]. intros ->. done.
Qed.

Lemma rwp_GetContainerState id s d L :
  kv d !! SchedulerContainerLock id = None ->
  state_at d (SchedulerContainerState id) = Some s ->
  rwp (GetContainerState id)
    (λ r d' _, (r = inr s /\ state_at d' (SchedulerContainerState id) = Some s) /\
               kv d' !! SchedulerContainerLock id = None) d L.
Proof.
  intros Hl Hs. unfold GetContainerState.
  apply (rwp_with_lock _ _ _ _ _ ∅
    (λ r d', r = inr s /\ state_at d' (SchedulerContainerState id) = Some s)); [done|sets| |].
  { intros r d1 d2 Heq [-> H]. split; [done|].
    rewrite (state_at_eq_except _ _ _ _ Heq); [done|]. key_not_in. }
  intros d1 L1 Heq.
  assert (state_at d1 (SchedulerContainerState id) = Some s) as Hs1
    by (rewrite (state_at_eq_except _ _ _ _ Heq); [done|key_not_in]).
  destruct (state_at_hash _ _ _ Hs1) as (h & Hh & Hd & Hne). wp_bind. wp_call.
  - destruct H as [H ->]. rewrite Hh in H. injection H as <-. rewrite decide_False by done.
    by rewrite Hd.
  - destruct H as [_ H]. exfalso. eapply (H h). simpl. by rewrite Hh.
Qed.

(** ** Status updates *)

(** The change [UpdateContainerStatus] makes to a state. *)
Definition status_updated (now : Z) (status : string) (s : ContainerState) : ContainerState :=
  set_cs_Status status
    (if String.eqb status ContainerStatusRunning
        && negb (String.eqb (cs_Status s) ContainerStatusRunning)
     then set_cs_StartedAt now s else s).

Definition valid_status (status : string) : bool :=
  String.eqb status ContainerStatusPending || String.eqb status ContainerStatusRunning
  || String.eqb status ContainerStatusStopping.

(** The struct the state key decodes to (the zero struct when it is absent). *)
Definition decoded (d : rdb) (id : string) : option ContainerState :=
  match as_hash (kv d !! SchedulerContainerState id) with
  | Some h => Some (to_struct h zeroContainerState)
  | None => None
  end.

Lemma to_struct_container_ok h : container_state_ok (to_struct h zeroContainerState).
Proof.
  unfold to_struct.
  destruct (ToStruct_ok h (fields zeroContainerState)) as [Hok Hsh].
  { repeat first [exact (Forall_nil_2 _) | apply Forall_cons_2; [done|]]. }
  revert Hok Hsh. generalize (ToStruct h (fields zeroContainerState)). intros l Hok Hsh.
  unfold same_shape in Hsh. simpl in Hsh. inv_shape.
  rewrite !Forall_cons in Hok. simpl in *. unfold container_state_ok. naive_solver.
Qed.

Lemma status_updated_ok now status s :
  in_i64 now -> container_state_ok s -> container_state_ok (status_updated now status s).
Proof.
  unfold container_state_ok, status_updated. intros Hn H.
  destruct (_ && _); simpl; tauto.
Qed.

Definition status_post (now : Z) (id status : string) (expirySeconds : Z) (d : rdb)
    (r : gerr + unit) (d' : rdb) : Prop :=
  eq_except {[SchedulerContainerState id; SchedulerContainerLock id]} d d' /\
  match r with
  | inr _ => valid_status status = true /\ exists s, decoded d id = Some s /\
      (0 < wrap_i64 (expirySeconds * second) -> decoded d' id = Some (status_updated now status s))
  | inl _ => valid_status status = false -> d' = d
  end.

Lemma decoded_eq_except ks d d' id :
  eq_except ks d d' -> SchedulerContainerState id ∉ ks -> decoded d' id = decoded d id.
Proof. intros H Hk. unfold decoded. by rewrite (eq_except_kv _ _ _ _ H Hk). Qed.

Lemma status_post_ignores_lock now id status e d :
  valid_status status = true ->
  ignores_lock (SchedulerContainerLock id) (λ r d' _, status_post now id status e d r d').
Proof.
  intros Hv r d1 d2 L1 L2 Heq [Hf Hr]. split.
  - etransitivity; [exact Hf|]. eapply eq_except_weaken; [|exact Heq]. sets.
  - destruct r as [|[]]; [congruence|]. rewrite (decoded_eq_except _ _ _ _ Heq); [done|key_not_in].
Qed.

Lemma wp_UpdateContainerStatus now id status e d L :
  in_i64 now ->
  wp (UpdateContainerStatus now id status e) (λ r d' _, status_post now id status e d r d') d L.
Proof.
  intros Hn. unfold UpdateContainerStatus. fold (valid_status status).
  destruct (valid_status status) eqn:Hv; [|split; [reflexivity|done]].
  apply wp_with_lock; [by apply status_post_ignores_lock| |].
  { intros err _. split; [reflexivity|congruence]. }
  intros d1 L1 Heq.
  assert (eq_except {[SchedulerContainerState id; SchedulerContainerLock id]} d d1) as Hf0
    by (eapply eq_except_weaken; [|exact Heq]; sets).
  assert (decoded d1 id = decoded d id) as Hd0
    by (apply (decoded_eq_except _ _ _ _ Heq); key_not_in).
  wp_bind. wp_call; [|split; [etransitivity; [exact Hf0|]; frame|congruence]].
  destruct H as [Hh ->]. set (s := to_struct r zeroContainerState).
  assert (decoded d id = Some s) as Hs by (rewrite <- Hd0; unfold decoded; by rewrite Hh).
  fold (status_updated now status s).
  wp_bind. wp_call; [|split; [etransitivity; [exact Hf0|]; frame|congruence]].
  assert (eq_except {[SchedulerContainerState id; SchedulerContainerLock id]} d d') as Hf1
    by (etransitivity; [exact Hf0|]; frame).
  assert (decoded d' id = Some (status_updated now status s) /\
    is_Some (kv d' !! SchedulerContainerState id)) as [Hs' Hex].
  { destruct H as (h & _ & _ & ->). unfold decoded, set_kv. cbn [kv]. rewrite lookup_insert_eq.
    split; [|eauto]. cbn [as_hash]. rewrite container_state_hash_roundtrip; [done|].
    apply status_updated_ok; [done|]. apply to_struct_container_ok. }
  wp_bind. wp_call; (split; [etransitivity; [exact Hf1|]; frame|]); [|congruence].
  split; [done|]. exists s. split; [done|]. intros Hpos.
  rewrite H0. unfold exists_kv. rewrite bool_decide_true by done.
  destruct (Z.leb_spec (wrap_i64 (e * second)) 0); [lia|]. exact Hs'.
Qed.
