(* ===== verification/Backlog.v ===== *)
(** * The request backlog (pkg/scheduler/backlog.go)

    A Redis sorted set of requests as JSON, scored by [float64] of the request's
    timestamp in nanoseconds.  The mutex of the struct makes each method atomic
    within the process; every method is a single command.

    The backlog refines a priority queue: [Pop] takes a request whose score is
    least. *)

From S2P Require Import Prelude GoStd Redis Keys Types Codec Lock Env.

Local Open Scope Z_scope.
Set Default Proof Using "Type".

(** The abstract queue: the waiting requests by their JSON. *)
Abbreviation pqueue := (gmap string ContainerRequest).

Section backlog.
Context {JSON : JsonRequests}.

(** [float64(request.Timestamp.UnixNano())] *)
Definition backlog_score (request : ContainerRequest) : Z :=
  float64_of_i64 (wrap_i64 (cr_Timestamp request)).

Definition Push (request : ContainerRequest) : M unit :=
  match marshalRequest request with
  | inl e => fail e
  | inr jsonData =>
      rcall (λ e, e) (CZAdd SchedulerContainerRequests (backlog_score request) jsonData)
  end.

Definition Pop : M ContainerRequest :=
  result <- rcall (λ e, e) (CZPopMin SchedulerContainerRequests) ;;
  match result with
  | None => fail (EMsg "backlog empty")
  | Some (member, _) =>
      match unmarshalRequest member with
      | inl e => fail e
      | inr poppedItem => ok poppedItem
      end
  end.

(** [ZCard(...).Val()] is 0 on an error. *)
Definition Len : prog Z :=
  r <~ cmd (CZCard SchedulerContainerRequests) ;;
  Ret (match r with inr n => n | inl _ => 0 end).

(** ** Refinement of a priority queue *)

Inductive bop := BPush (req : ContainerRequest) | BPop.

Definition backlog_op (op : bop) : M (option ContainerRequest) :=
  match op with
  | BPush req => Push req ;; ok None
  | BPop => req <- Pop ;; ok (Some req)
  end.

Fixpoint backlog_ops (ops : list bop) : prog (list (gerr + option ContainerRequest)) :=
  match ops with
  | [] => Ret []
  | op :: ops' => r <~ backlog_op op ;; rs <~ backlog_ops ops' ;; Ret (r :: rs)
  end.

Definition first_in (Q : pqueue) (j : string) (r : ContainerRequest) : Prop :=
  Q !! j = Some r /\ forall j' r', Q !! j' = Some r' -> backlog_score r <= backlog_score r'.

Inductive pq_step : pqueue -> bop -> gerr + option ContainerRequest -> pqueue -> Prop :=
| pq_push Q r j : marshalRequest r = inr j -> pq_step Q (BPush r) (inr None) (<[j := r]> Q)
| pq_push_not Q r e : pq_step Q (BPush r) (inl e) Q
| pq_push_lost Q r j e : marshalRequest r = inr j -> pq_step Q (BPush r) (inl e) (<[j := r]> Q)
| pq_pop Q j r r' :
    first_in Q j r -> same_request r r' -> pq_step Q BPop (inr (Some r')) (delete j Q)
| pq_pop_empty : pq_step ∅ BPop (inl (EMsg "backlog empty")) ∅
| pq_pop_not Q e : pq_step Q BPop (inl (ERedis e)) Q
| pq_pop_lost Q j r e : first_in Q j r -> pq_step Q BPop (inl (ERedis e)) (delete j Q).

Inductive pq_trace : pqueue -> list bop -> list (gerr + option ContainerRequest) -> pqueue -> Prop :=
| pq_nil Q : pq_trace Q [] [] Q
| pq_cons Q op x Q1 ops xs Q2 :
    pq_step Q op x Q1 -> pq_trace Q1 ops xs Q2 -> pq_trace Q (op :: ops) (x :: xs) Q2.

(** The sorted set holds exactly the waiting requests with their scores. *)
Definition backlog_rel (d : rdb) (Q : pqueue) : Prop :=
  as_zset (kv d !! SchedulerContainerRequests) = Some (backlog_score <$> Q) /\
  forall j r, Q !! j = Some r -> marshalRequest r = inr j /\ request_ascii r = true.

Definition bop_ok (op : bop) : Prop :=
  match op with BPush r => request_ascii r = true | BPop => True end.

Lemma backlog_rel_push d Q r j s d' :
  backlog_rel d Q -> marshalRequest r = inr j -> request_ascii r = true ->
  rsem (CZAdd SchedulerContainerRequests (backlog_score r) j) d s d' ->
  backlog_rel d' (<[j := r]> Q).
Proof.
  intros [Hz HQ] Hj Ha (z & Hz' & ->). rewrite Hz in Hz'. injection Hz' as <-. split.
  - unfold set_kv. cbn [kv]. rewrite lookup_insert_eq. simpl. by rewrite fmap_insert.
  - intros j' r' [[<- <-]|[_ H]]%lookup_insert_Some; [done|by apply HQ].
Qed.

Lemma zmin_first_in Q m s :
  zmin (backlog_score <$> Q) m s -> exists r, first_in Q m r.
Proof.
  intros [Hm Hmin]. apply lookup_fmap_Some in Hm as (r & <- & Hr). exists r. split; [done|].
  intros j' r' H'. apply (Hmin j'). by rewrite lookup_fmap, H'.
Qed.

Lemma backlog_rel_delete d Q m z :
  backlog_rel d Q -> as_zset (kv d !! SchedulerContainerRequests) = Some z ->
  backlog_rel (zset_or_del SchedulerContainerRequests (delete m z) d) (delete m Q).
Proof.
  intros [Hz HQ] Hz'. rewrite Hz in Hz'. injection Hz' as <-. split.
  - unfold zset_or_del. case_decide as E; simpl.
    + rewrite lookup_delete_eq. simpl. by rewrite fmap_delete, E.
    + rewrite lookup_insert_eq. simpl. by rewrite fmap_delete.
  - intros j r [_ H]%lookup_delete_Some. by apply HQ.
Qed.

(** A reply of [Pop] as a step of the queue. *)
Definition pop_step (Q : pqueue) (x : gerr + ContainerRequest) (Q' : pqueue) : Prop :=
  match x with
  | inl e => pq_step Q BPop (inl e) Q'
  | inr r => pq_step Q BPop (inr (Some r)) Q'
  end.

Lemma wp_Pop `{JL : !JsonLaws JSON} Q d L :
  backlog_rel d Q ->
  wp Pop (λ x d' _, eq_except {[SchedulerContainerRequests]} d d' /\
    exists Q', pop_step Q x Q' /\ backlog_rel d' Q') d L.
Proof.
  intros HQ. unfold Pop. wp_bind. wp_call.
  - assert (eq_except {[SchedulerContainerRequests]} d d') as Hf by frame.
    destruct H as (z & Hz & H). destruct r as [[m s]|].
    + destruct H as [Hmin ->]. pose proof (proj1 HQ) as Hz'. rewrite Hz in Hz'.
      injection Hz' as ->. destruct (zmin_first_in _ _ _ Hmin) as [r Hr].
      destruct (proj2 HQ m r (proj1 Hr)) as [Hj Ha].
      destruct (json_roundtrip _ _ Ha Hj) as (r' & Hu & Hs). rewrite Hu. split; [done|].
      exists (delete m Q). split; [by eapply pq_pop|by eapply backlog_rel_delete].
    + destruct H as [-> ->]. pose proof (proj1 HQ) as Hz'. rewrite Hz in Hz'.
      injection Hz' as Hz'. symmetry in Hz'. apply fmap_empty_inv in Hz' as ->.
      split; [done|]. exists ∅. split; [apply pq_pop_empty|done].
  - split; [frame|]. destruct H as [->|[[[m s]|] H]].
    + exists Q. split; [apply pq_pop_not|done].
    + destruct H as (z & Hz & Hmin & ->). pose proof (proj1 HQ) as Hz'. rewrite Hz in Hz'.
      injection Hz' as ->. destruct (zmin_first_in _ _ _ Hmin) as [r Hr].
      exists (delete m Q). split; [by eapply pq_pop_lost|by eapply backlog_rel_delete].
    + destruct H as (z & Hz & -> & ->). exists Q. split; [apply pq_pop_not|done].
Qed.

Lemma wp_backlog_op `{JL : !JsonLaws JSON} op Q d L :
  bop_ok op -> backlog_rel d Q ->
  wp (backlog_op op) (λ x d' _, exists Q', pq_step Q op x Q' /\ backlog_rel d' Q') d L.
Proof.
  intros Hop HQ. destruct op as [r|]; simpl.
  - unfold Push. destruct (marshalRequest r) as [e|j] eqn:Hj.
    { exists Q. split; [apply pq_push_not|done]. }
    wp_bind. wp_call.
    + exists (<[j := r]> Q). split; [by apply pq_push|by eapply backlog_rel_push].
    + destruct H as [->|[s H]]; [exists Q; split; [apply pq_push_not|done]|].
      exists (<[j := r]> Q). split; [by apply pq_push_lost|by eapply backlog_rel_push].
  - wp_bind. eapply wp_mono; [|by apply wp_Pop].
    intros [e|r] d' L' (_ & Q' & Hs & HQ'); by exists Q'.
Qed.

Lemma wp_backlog_ops `{JL : !JsonLaws JSON} ops Q d L :
  Forall bop_ok ops -> backlog_rel d Q ->
  wp (backlog_ops ops) (λ xs d' _, exists Q', pq_trace Q ops xs Q' /\ backlog_rel d' Q') d L.
Proof.
  revert Q d L. induction ops as [|op ops IH]; intros Q d L Hops HQ.
  - exists Q. split; [constructor|done].
  - apply Forall_cons in Hops as [Hop Hops]. simpl. wp_bind.
    eapply wp_mono; [|by apply wp_backlog_op]. intros x d1 L1 (Q1 & Hs & HQ1). wp_bind.
    eapply wp_mono; [|by apply IH]. intros xs d2 L2 (Q2 & Ht & HQ2).
    exists Q2. split; [by econstructor|done].
Qed.

Lemma backlog_rel_eq d d' Q :
  kv d' !! SchedulerContainerRequests = kv d !! SchedulerContainerRequests ->
  backlog_rel d Q -> backlog_rel d' Q.
Proof. intros E [H1 H2]. split; [by rewrite E|done]. Qed.

(** The score order is the timestamp order up to the rounding of [float64]. *)
Lemma score_order r r' :
  in_i64 (cr_Timestamp r) -> in_i64 (cr_Timestamp r') ->
  backlog_score r <= backlog_score r' ->
  cr_Timestamp r <= cr_Timestamp r' \/ backlog_score r = backlog_score r'.
Proof.
  unfold backlog_score. intros H1 H2. rewrite !wrap_i_id by done. intros H.
  destruct (Z.le_gt_cases (cr_Timestamp r) (cr_Timestamp r')) as [|Hgt]; [by left|right].
  pose proof (float64_of_i64_mono (cr_Timestamp r') (cr_Timestamp r)). lia.
Qed.
End backlog.
