(* ===== verification/PoolManager.v ===== *)
(** * Worker pools (pkg/common/safemap.go, pkg/scheduler/pool_manager.go)

    The pools the scheduler knows, by name, and their selection by GPU type.
    Go visits a map in an unspecified order: the order of a [Range] is an
    argument, a permutation of the map. *)

From Stdlib Require Import Sorting.Sorted.
From S2P Require Import Prelude GoStd Redis Types Env.

Local Open Scope Z_scope.

(** ** SafeMap *)

Section safemap.
Context {V : Type}.

Definition NewSafeMap : gmap string V := ∅.
Definition SafeMap_Set (m : gmap string V) (key : string) (value : V) : gmap string V :=
  <[key := value]> m.
Definition SafeMap_Get (m : gmap string V) (key : string) : option V := m !! key.
Definition SafeMap_Delete (m : gmap string V) (key : string) : gmap string V := delete key m.
Definition SafeMap_Len (m : gmap string V) : Z := Z.of_nat (size m).

(** [f] updates the variables it captures ([A]) and tells whether to go on. *)
Fixpoint SafeMap_Range {A} (order : list (string * V)) (f : A -> string -> V -> A * bool) (a : A) : A :=
  match order with
  | [] => a
  | (k, v) :: order' =>
      let '(a', go) := f a k v in
      if go then SafeMap_Range order' f a' else a'
  end.
End safemap.

(** ** Controllers and pools *)

(** What the scheduler calls of the [WorkerPoolController] interface; [State] is
    the result its call returns. *)
Record WorkerPoolController := mkController {
  ctl_Name : string;
  ctl_IsPreemptable : bool;
  ctl_RequiresPoolSelector : bool;
  ctl_ContainerRuntime : string;
  ctl_State : gerr + WorkerPoolState;
  ctl_AddWorker : Z -> Z -> Z -> M Worker;
}.

Record WorkerPoolConfig := mkWorkerPoolConfig { wpc_GPUType : string; wpc_Priority : Z }.

Record WorkerPool := mkWorkerPool {
  wp_Name : string;
  wp_Config : WorkerPoolConfig;
  wp_Controller : WorkerPoolController;
}.

Record WorkerPoolManager := mkPoolManager {
  pm_poolMap : gmap string WorkerPool;
  pm_failoverEnabled : bool;
}.

Definition NewWorkerPoolManager (failoverEnabled : bool) : WorkerPoolManager :=
  mkPoolManager NewSafeMap failoverEnabled.

Definition isPoolHealthy (m : WorkerPoolManager) (pool : WorkerPool) : bool :=
  if pm_failoverEnabled m then
    match ctl_State (wp_Controller pool) with
    | inl _ => false
    | inr state => negb (String.eqb (ps_Status state) WorkerPoolStatusDegraded)
    end
  else true.

Definition GetPool (m : WorkerPoolManager) (name : string) : option WorkerPool :=
  SafeMap_Get (pm_poolMap m) name.

Section pool_manager.
Context {SORT : SortSlice}.

(** The sort of [slices.SortFunc] with [cmp.Compare(b.Priority, a.Priority)]. *)
Definition higher_priority (a b : WorkerPool) : bool :=
  wpc_Priority (wp_Config b) <? wpc_Priority (wp_Config a).

(** The closure [GetPoolByFilters] passes to [Range]. *)
Definition filter_pool (m : WorkerPoolManager) (gpuType : string) (pools : list WorkerPool)
    (key : string) (pool : WorkerPool) : list WorkerPool * bool :=
  if negb (String.eqb (wpc_GPUType (wp_Config pool)) gpuType) && negb (String.eqb gpuType GPU_ANY)
  then (pools, true)
  else if String.eqb gpuType GPU_ANY && String.eqb (wpc_GPUType (wp_Config pool)) ""
  then (pools, true)
  else if negb (isPoolHealthy m pool) then (pools, true)
  else ((pools ++ [pool])%list, true).

Definition GetPoolByFilters (m : WorkerPoolManager) (order : list (string * WorkerPool))
    (gpuType : string) : list WorkerPool :=
  sort_slice higher_priority (SafeMap_Range order (filter_pool m gpuType) []).
End pool_manager.

Definition GetPoolByGPU (m : WorkerPoolManager) (order : list (string * WorkerPool))
    (gpuType : string) : option WorkerPool :=
  SafeMap_Range order (λ wp _ pool,
    if negb (String.eqb (wpc_GPUType (wp_Config pool)) gpuType) then (wp, true)
    else if negb (isPoolHealthy m pool) then (wp, true)
    else (Some pool, false)) None.

Definition SetPool (m : WorkerPoolManager) (name : string) (config : WorkerPoolConfig)
    (controller : WorkerPoolController) : WorkerPoolManager :=
  mkPoolManager (SafeMap_Set (pm_poolMap m) name (mkWorkerPool name config controller))
    (pm_failoverEnabled m).

(** ** What the selection returns *)

(** A pool that serves requests for [gpuType]. *)
Definition serves (m : WorkerPoolManager) (gpuType : string) (pool : WorkerPool) : bool :=
  isPoolHealthy m pool &&
  (if String.eqb gpuType GPU_ANY then negb (String.eqb (wpc_GPUType (wp_Config pool)) "")
   else String.eqb (wpc_GPUType (wp_Config pool)) gpuType).

Lemma filter_pool_serves m gpuType pools k pool :
  filter_pool m gpuType pools k pool
  = ((pools ++ (if serves m gpuType pool then [pool] else []))%list, true).
Proof.
  unfold filter_pool, serves.
  destruct (String.eqb (wpc_GPUType (wp_Config pool)) gpuType), (String.eqb gpuType GPU_ANY),
    (String.eqb (wpc_GPUType (wp_Config pool)) ""), (isPoolHealthy m pool);
    simpl; by rewrite ?app_nil_r.
Qed.

Lemma range_filter m order gpuType acc :
  SafeMap_Range order (filter_pool m gpuType) acc
  = (acc ++ List.filter (serves m gpuType) order.*2)%list.
Proof.
  revert acc. induction order as [|[k p] order IH]; intros acc; simpl; [by rewrite app_nil_r|].
  rewrite filter_pool_serves, IH. destruct (serves m gpuType p); csimpl;
    by rewrite <- (assoc_L (++)).
Qed.

Lemma higher_priority_strict_weak : strict_weak higher_priority.
Proof.
  unfold higher_priority. split; intros *; rewrite ?Z.ltb_lt, ?Z.ltb_ge; lia.
Qed.

(** The pools returned, in any visiting order: those that serve the GPU type, the
    highest priority first. *)
Lemma GetPoolByFilters_spec `{SORT : SortSlice, SL : !SortLaws SORT} m order gpuType :
  order ≡ₚ map_to_list (pm_poolMap m) ->
  (forall p, p ∈ GetPoolByFilters m order gpuType <->
     (exists name, pm_poolMap m !! name = Some p) /\ serves m gpuType p = true) /\
  StronglySorted (λ a b, wpc_Priority (wp_Config b) <= wpc_Priority (wp_Config a))
    (GetPoolByFilters m order gpuType).
Proof.
  intros Hord. unfold GetPoolByFilters. rewrite range_filter, app_nil_l. split.
  - intros p. rewrite sort_slice_perm, list_elem_of_In, filter_In, <- list_elem_of_In, Hord.
    apply and_iff_compat_r. rewrite list_elem_of_fmap. split.
    + intros ([k v] & -> & H%elem_of_map_to_list). eauto.
    + intros [k H]. exists (k, p). by rewrite elem_of_map_to_list.
  - eapply StronglySorted_impl; [|apply sort_slice_sorted, higher_priority_strict_weak].
    intros a b H. unfold higher_priority in H. by apply Z.ltb_ge in H.
Qed.
