(* ===== verification/Scheduler.v ===== *)
(** * The scheduler (pkg/scheduler/scheduler.go)

    [Run] accepts a request into the backlog, [StartProcessingRequests] takes one
    request at a time and places it on a worker, adds a worker for it, retries it
    or gives it up, and [Stop] stops a container.

    A method that changes the request it is given (the code passes pointers)
    returns the changed request.  Work the code leaves to a goroutine is returned
    as a value ([spawned], [OAddWorker]) with the program the goroutine runs. *)

From S2P Require Import Prelude GoStd Redis Keys Types Codec Lock Env WorkerRepo ContainerRepo.
From S2P Require Import WorkspaceRepo Backlog PoolManager.

Local Open Scope Z_scope.

(** ** What the scheduler is given *)

(** The queries of the backend repository the scheduler makes (SQL). *)
Class BackendRepository := {
  GetLatestCheckpointByStubId : string -> gerr + option Checkpoint;
  backend_GetConcurrencyLimitByWorkspaceId : string -> gerr + ConcurrencyLimit;
  GetImageCredentialSecret : string -> gerr + string;
  GetSecretByNameDecrypted : Workspace -> string -> gerr + string;
}.

Record ImageServiceConfig := mkImageServiceConfig {
  is_BuildRegistry : string;
  is_BuildRepositoryName : string;
  is_CredentialsType : string;
  is_Credentials : gmap string string;
}.

(** Registry tokens (pkg/registry) and the event bus (pkg/common). *)
Class SchedulerServices := {
  GetRegistryTokenForImage : string -> gmap string string -> gerr + string;
  send_stop_event : StopContainerArgs -> M unit;
}.

(** ** Filters *)

Definition filterControllersByFlags (controllers : list WorkerPoolController)
    (request : ContainerRequest) : list WorkerPoolController :=
  List.filter (λ controller,
    if negb (cr_Preemptable request) && ctl_IsPreemptable controller then false
    else if (negb (String.eqb (cr_PoolSelector request) "")
             && negb (String.eqb (ctl_Name controller) (cr_PoolSelector request)))
            || (String.eqb (cr_PoolSelector request) "" && ctl_RequiresPoolSelector controller)
    then false
    else if cr_DockerEnabled request && negb (String.eqb (ctl_ContainerRuntime controller) "gvisor")
    then false
    else true) controllers.

Definition filterWorkersByPoolSelector (workers : list Worker) (request : ContainerRequest)
  : list Worker :=
  List.filter (λ worker,
    (negb (String.eqb (cr_PoolSelector request) "")
     && String.eqb (w_PoolName worker) (cr_PoolSelector request))
    || (String.eqb (cr_PoolSelector request) "" && negb (w_RequiresPoolSelector worker))) workers.

(** [gpuRequestsMap]: a GPU type to its place in the request. *)
Definition gpu_requests_map (request : ContainerRequest) : gmap string Z :=
  if bool_decide (GPU_ANY ∈ cr_GpuRequest request) then GPUTypesToMap AllGPUTypes
  else foldl (λ m p, <[p.2 := Z.of_nat p.1]> m) ∅ (imap pair (cr_GpuRequest request)).

(** One worker of the loop: [None] when it is skipped. *)
Definition resource_fit (request : ContainerRequest) (worker : Worker) : option Worker :=
  let isGpuWorker := negb (String.eqb (w_Gpu worker) "") in
  let requiresGPU := RequiresGPU request in
  if (w_FreeCpu worker <? cr_Cpu request) || (w_FreeMemory worker <? cr_Memory request) then None
  else if String.eqb (w_Status worker) WorkerStatusDisabled then None
  else if (requiresGPU && negb isGpuWorker) || (negb requiresGPU && isGpuWorker) then None
  else if requiresGPU then
    match gpu_requests_map request !! w_Gpu worker with
    | None => None
    | Some priorityModifier =>
        if w_FreeGpuCount worker <? cr_GpuCount request then None
        else Some (set_w_Priority (wrap_i32 (w_Priority worker - wrap_i32 priorityModifier)) worker)
    end
  else Some worker.

Definition filterWorkersByResources (workers : list Worker) (request : ContainerRequest) : list Worker :=
  omap (resource_fit request) workers.

Definition ContainerRuntimeGvisor : string := "gvisor".

Definition filterWorkersByFlags (workers : list Worker) (request : ContainerRequest) : list Worker :=
  List.filter (λ worker,
    if negb (cr_Preemptable request) && w_Preemptable worker then false
    else if cr_DockerEnabled request && negb (String.eqb (w_Runtime worker) ContainerRuntimeGvisor)
    then false
    else true) workers.

Definition scoreAvailableWorker : Z := 10.

Definition worker_score (worker : Worker) : Z :=
  let score := if String.eqb (w_Status worker) WorkerStatusAvailable
               then wrap_i32 (0 + scoreAvailableWorker) else 0 in
  wrap_i32 (score + w_Priority worker).

(** The worker chosen among those the repository returned. *)
Definition pick_worker `{SortSlice} (workers : list Worker) (request : ContainerRequest) : gerr + Worker :=
  let filteredWorkers := filterWorkersByPoolSelector workers request in
  let filteredWorkers := filterWorkersByResources filteredWorkers request in
  let filteredWorkers := filterWorkersByFlags filteredWorkers request in
  match filteredWorkers with
  | [] => inl ENoSuitableWorkerFound
  | _ =>
      let scoredWorkers := map (λ w, (w, worker_score w)) filteredWorkers in
      match sort_slice (λ a b : Worker * Z, b.2 <? a.2) scoredWorkers with
      | [] => inl (EPanic "index out of range")
      | (worker, _) :: _ => inr worker
      end
  end.

(** ** Retries *)

Definition maxScheduleRetryCount : Z := 3.
Definition maxScheduleRetryDuration : Z := 10 * minute.

(** [time.Duration(math.Pow(2, float64(retryCount)))]: a power of two is exact as
    a float; out of [int64] the conversion gives the least integer on amd64. *)
Definition pow2_duration (retryCount : Z) : Z :=
  if retryCount <? 0 then 0 else if retryCount <? 63 then 2 ^ retryCount else - 2 ^ 63.

Definition calculateBackoffDelay (retryCount : Z) : Z :=
  if retryCount =? 0 then 0
  else
    let baseDelay := 1 * second in
    let maxDelay := 30 * second in
    let delay := wrap_i64 (pow2_duration retryCount * baseDelay) in
    if maxDelay <? delay then maxDelay else delay.

(** What the goroutine of [addRequestToBacklog] is going to do. *)
Inductive spawned :=
| SNone
| SRetry (delay : Z) (request : ContainerRequest)
| SGiveUp (request : ContainerRequest).

(** The outcome of one turn of the processing loop. *)
Inductive outcome :=
| OIdle
| OScheduled (worker : Worker) (request : ContainerRequest)
| ORequeued (push : gerr + unit) (sp : spawned)
| OAddWorker (controllers : list WorkerPoolController) (request : ContainerRequest)
| ODropped (request : ContainerRequest).

Section scheduler.
Context {FMT : GoFmt} {MS : Mapstructure} {JSON : JsonRequests} {SORT : SortSlice}.
Context {BR : BackendRepository} {SS : SchedulerServices}.
Context (config : WorkerRepoConfig) (imageService : ImageServiceConfig).

Definition retry_or_give_up (now : Z) (request : ContainerRequest) : spawned :=
  if (cr_RetryCount request <? maxScheduleRetryCount)
     && (now - cr_Timestamp request <? maxScheduleRetryDuration)
  then SRetry (calculateBackoffDelay (cr_RetryCount request))
         (set_cr_RetryCount (wrap_i64 (cr_RetryCount request + 1)) request)
  else SGiveUp request.

Definition addRequestToBacklog (now : Z) (request : ContainerRequest)
  : prog ((gerr + unit) * spawned) :=
  let request := if RequiresGPU request && (cr_GpuCount request <=? 0)
                 then set_cr_GpuCount 1 request else request in
  if cr_RetryCount request =? 0 then
    let request := set_cr_RetryCount (wrap_i64 (cr_RetryCount request + 1)) request in
    r <~ Push request ;; Ret (r, SNone)
  else Ret (inr tt, retry_or_give_up now request).

(** The body of the goroutine, after its delay. *)
Definition run_spawned (sp : spawned) : prog unit :=
  match sp with
  | SNone => Ret tt
  | SRetry _ request => Push request ;~ Ret tt
  | SGiveUp request =>
      DeleteContainerState (cr_ContainerId request) ;~
      (SetContainerRequestStatus (cr_ContainerId request) ContainerRequestStatusFailed ;~ Ret tt)
  end.

Definition getConcurrencyLimit (request : ContainerRequest) : M (option ConcurrencyLimit) :=
  quota <- GetConcurrencyLimitByWorkspaceId (cr_WorkspaceId request) ;;
  match quota with
  | Some q => ok (Some q)
  | None =>
      match backend_GetConcurrencyLimitByWorkspaceId (cr_WorkspaceId request) with
      | inl ESqlNoRows => ok None
      | inl e => fail e
      | inr q =>
          SetConcurrencyLimitByWorkspaceId (cr_WorkspaceId request) q ;;
          ok (Some q)
      end
  end.

Definition attach_checkpoint (request : ContainerRequest) : ContainerRequest :=
  match cr_Checkpoint request with
  | Some _ => request
  | None =>
      if cr_CheckpointEnabled request then
        match GetLatestCheckpointByStubId (cr_StubId request) with
        | inr (Some checkpoint) => set_cr_Checkpoint (Some checkpoint) request
        | _ => request
        end
      else request
  end.

(** [now] is [time.Now()] in nanoseconds. *)
Definition Run (now : Z) (request : ContainerRequest) : prog ((gerr + unit) * spawned) :=
  let request := set_cr_Timestamp now request in
  r <~ GetContainerState (cr_ContainerId request) ;;
  let already := match r with
    | inr state => String.eqb (cs_Status state) ContainerStatusPending
                   || String.eqb (cs_Status state) ContainerStatusRunning
    | inl _ => false
    end in
  if already then Ret (inl EContainerAlreadyScheduled, SNone)
  else
    let request := attach_checkpoint request in
    q <~ getConcurrencyLimit request ;;
    match q with
    | inl e => Ret (inl e, SNone)
    | inr quota =>
        r <~ SetContainerStateWithConcurrencyLimit (now / second) quota request ;;
        match r with
        | inl e => Ret (inl e, SNone)
        | inr _ => addRequestToBacklog now request
        end
    end.

(** [now] is [time.Now().Unix()]. *)
Definition Stop (now : Z) (stopArgs : StopContainerArgs) : M unit :=
  UpdateContainerStatus now (sa_ContainerId stopArgs) ContainerStatusStopping
    ContainerStateTtlSWhilePending ;;
  send_stop_event stopArgs.

(** [order i] is the order of the [i]-th visit of the pool map. *)
Fixpoint gpu_controllers (m : WorkerPoolManager) (order : nat -> list (string * WorkerPool))
    (i : nat) (gpus : list string) : list WorkerPoolController :=
  match gpus with
  | [] => []
  | gpu :: gpus' =>
      (map wp_Controller (GetPoolByFilters m (order i) gpu) ++
       (if String.eqb gpu GPU_ANY then [] else gpu_controllers m order (S i) gpus'))%list
  end.

Definition getControllers (m : WorkerPoolManager) (order : nat -> list (string * WorkerPool))
    (request : ContainerRequest) : gerr + list WorkerPoolController :=
  let found :=
    if negb (String.eqb (cr_PoolSelector request) "") then
      match GetPool m (cr_PoolSelector request) with
      | None => inl (EMsg "no controller found for request")
      | Some wp => inr [wp_Controller wp]
      end
    else if negb (RequiresGPU request) then
      inr (map wp_Controller (GetPoolByFilters m (order O) ""))
    else inr (gpu_controllers m order O (cr_GpuRequest request)) in
  match found with
  | inl e => inl e
  | inr controllers =>
      match filterControllersByFlags controllers request with
      | [] => inl (EMsg "no controller found for request")
      | controllers => inr controllers
      end
  end.

Definition selectWorker (request : ContainerRequest) : M Worker :=
  workers <- GetAllWorkers ;;
  match pick_worker workers request with
  | inl e => fail e
  | inr w => ok w
  end.

(** The request with the credentials attached, or the error (the request is
    unchanged then). *)
Definition attachImageCredentials (request : ContainerRequest) : gerr + ContainerRequest :=
  if String.eqb (cr_ImageId request) "" then inr request
  else if HasPrefix (cr_ContainerId request) BuildContainerPrefix then inr request
  else
    match GetImageCredentialSecret (cr_ImageId request) with
    | inl e => inl e
    | inr secretName =>
        if String.eqb secretName "" then inr request
        else
          match GetSecretByNameDecrypted (cr_Workspace request) secretName with
          | inl e => inl e
          | inr value => inr (set_cr_ImageCredentials value request)
          end
    end.

Definition attachBuildRegistryCredentials (request : ContainerRequest) : gerr + ContainerRequest :=
  let buildRegistry := is_BuildRegistry imageService in
  if String.eqb buildRegistry "" || String.eqb buildRegistry "localhost"
     || HasPrefix buildRegistry "127.0.0.1"
  then inr request
  else if String.eqb (is_CredentialsType imageService) ""
          || bool_decide (is_Credentials imageService = ∅)
  then inr request
  else
    let dummyImageRef :=
      buildRegistry +:+ "/" +:+ is_BuildRepositoryName imageService +:+ ":dummy" in
    match GetRegistryTokenForImage dummyImageRef (is_Credentials imageService) with
    | inl _ => inr request
    | inr token =>
        if String.eqb token "" then inr request
        else inr (set_cr_BuildRegistryCredentials token request)
    end.

(** The request as the attachment left it; an error is only logged. *)
Definition or_unchanged (attach : ContainerRequest -> gerr + ContainerRequest)
    (request : ContainerRequest) : ContainerRequest :=
  match attach request with inl _ => request | inr request' => request' end.

Definition scheduleRequest (worker : Worker) (request : ContainerRequest)
  : prog ((gerr + unit) * ContainerRequest) :=
  r <~ UpdateAssignedContainerGPU (cr_ContainerId request) (w_Gpu worker) ;;
  match r with
  | inl e => Ret (inl e, request)
  | inr _ =>
      let request := set_cr_Gpu (w_Gpu worker) request in
      let request := or_unchanged attachImageCredentials request in
      let request := or_unchanged attachBuildRegistryCredentials request in
      r <~ ScheduleContainerRequest worker request ;;
      Ret (r, request)
  end.

(** Place the request, or put it back. *)
Definition schedule_or_requeue (now : Z) (worker : Worker) (request : ContainerRequest) : prog outcome :=
  r <~ scheduleRequest worker request ;;
  match r with
  | (inr _, request) => Ret (OScheduled worker request)
  | (inl _, request) =>
      a <~ addRequestToBacklog now request ;; Ret (ORequeued a.1 a.2)
  end.

(** The goroutine that adds a worker for a request that fits none. *)
Fixpoint add_worker_loop (now : Z) (controllers : list WorkerPoolController)
    (request : ContainerRequest) : prog outcome :=
  match controllers with
  | [] => a <~ addRequestToBacklog now request ;; Ret (ORequeued a.1 a.2)
  | c :: controllers' =>
      r <~ ctl_AddWorker c (cr_Cpu request) (cr_Memory request) (cr_GpuCount request) ;;
      match r with
      | inr newWorker => schedule_or_requeue now newWorker request
      | inl _ => add_worker_loop now controllers' request
      end
  end.

(** One turn of [StartProcessingRequests]. *)
Definition process_one (now : Z) (m : WorkerPoolManager) (order : nat -> list (string * WorkerPool))
  : prog outcome :=
  n <~ Len ;;
  if n =? 0 then Ret OIdle
  else
    r <~ Pop ;;
    match r with
    | inl _ => Ret OIdle
    | inr request =>
        w <~ selectWorker request ;;
        match w with
        | inl _ =>
            match getControllers m order request with
            | inl _ => Ret (ODropped request)
            | inr controllers => Ret (OAddWorker controllers request)
            end
        | inr worker => schedule_or_requeue now worker request
        end
    end.
End scheduler.
