(* ===== verification/Samples.v ===== *)
(** * Concrete data for the evaluated runs *)

From S2P Require Import Prelude GoStd Redis Keys Types Codec Lock Env WorkerRepo.

Local Open Scope Z_scope.

Definition ex_worker : Worker :=
  mkWorker "w1" WorkerStatusAvailable 8000 16000 2 8000 16000 2 "A10G" "gpu" "m1" 0 false 0 false
    "v1" [] "runc".

Definition ex_request (id : string) (cpu mem : Z) (gpu : string) (gpuCount : Z) : ContainerRequest :=
  mkContainerRequest id [] [] cpu mem gpu [] gpuCount "img" "stub" "ws" zeroWorkspace
    (mkStubWithRelated zeroStub zeroWorkspace zeroObject None) 0 [] 0 "" false false
    zeroBuildOptions [] 0 "" None "" "" "" false [] false.

Definition ex_config : WorkerRepoConfig := mkWorkerRepoConfig ∅ (10 * minute).

Definition worker_hash (w : Worker) : rval :=
  RVHash (hset_fields (to_slice (H := @Worker_Reflect plain_fmt) w) ∅).

(** A database that holds [ex_worker]. *)
Definition ex_db : rdb :=
  mkRdb {[ SchedulerWorkerState "w1" := worker_hash ex_worker;
           SchedulerWorkerIndex := RVSet {[SchedulerWorkerState "w1"]} ]} ∅.

(** A workspace that runs container [c0] on one GPU. *)
Definition ex_state : ContainerState :=
  mkContainerState "c0" "stub" ContainerStatusRunning 100 "ws" "A10G" 1 1000 2000 110.

Definition ex_container_db : rdb :=
  mkRdb {[ SchedulerContainerState "c0" := RVHash (hset_fields (to_slice ex_state) ∅);
           SchedulerContainerWorkspaceIndex "ws" := RVSet {[SchedulerContainerState "c0"]} ]} ∅.

Definition ex_quota : ConcurrencyLimit := mkConcurrencyLimit 1 "ext" 1 2 4000 0 0.

(** A queue of one request, pushed once, in the database of [ex_worker]. *)
Definition ex_waiting : ContainerRequest :=
  set_cr_RetryCount 1 (ex_request "c1" 1000 2000 "" 0).

Definition ex_cpu_worker : Worker :=
  mkWorker "w2" WorkerStatusAvailable 8000 16000 0 8000 16000 0 "" "default" "m2" 0 false 0 false
    "v1" [] "runc".

Definition ex_cluster : rdb :=
  mkRdb {[ SchedulerWorkerState "w2" := worker_hash ex_cpu_worker;
           SchedulerWorkerIndex := RVSet {[SchedulerWorkerState "w2"]} ]} ∅.
