(* ===== verification/ContainerProps.v ===== *)
(** * Theorems on the container repository *)

From S2P Require Import Prelude GoStd Redis Keys Types Codec Lock Env WorkerRepo ContainerRepo.
From S2P Require Import ContainerSpec Samples.

Local Open Scope Z_scope.
Set Default Proof Using "Type".

Section container_props.
Context {S : RedisServer} {SL : RedisLaws S}.

(** C4. Admission under a concurrency limit.  On a reliable server, for a new
    container whose request keeps the workspace totals within 64 bits,
    [SetContainerStateWithConcurrencyLimit] returns nil exactly when the GPU and
    CPU totals of the workspace with the request stay within the quota (a GPU
    excess is reported first); then the request is counted in the workspace, whose
    totals are within the quota.  Otherwise nothing is counted.  Whether the lock
    of the workspace was obtained makes no difference. *)
Theorem concurrency_limit_respected I now q req X (s : srv) L :
  let ws := cr_WorkspaceId req in
  let gpu := usage gpu_weight (view s) ws + cr_GpuCount req in
  let cpu := usage cpu_weight (view s) ws + cr_Cpu req in
  reliable I -> I s -> in_i64 now -> admissible (view s) req X -> in_i64 gpu -> in_i64 cpu ->
  ends (SetContainerStateWithConcurrencyLimit now (Some q) req) s L (λ r d',
    (gpu <= cl_GPULimit q /\ cpu <= cl_CPUMillicoreLimit q /\ r = inr tt /\
     usage gpu_weight d' ws = gpu /\ usage cpu_weight d' ws = cpu) \/
    (cl_GPULimit q < gpu /\ r = inl (EThrottledByConcurrencyLimit "gpu quota exceeded") \/
     gpu <= cl_GPULimit q /\ cl_CPUMillicoreLimit q < cpu /\
       r = inl (EThrottledByConcurrencyLimit "cpu quota exceeded")) /\
    usage gpu_weight d' ws = usage gpu_weight (view s) ws /\
    usage cpu_weight d' ws = usage cpu_weight (view s) ws).
Proof using Type SL.
  intros ws gpu cpu. subst ws gpu cpu. intros HR HI Hn Had Hg Hc. apply (ends_rwp I); [done..|].
  eapply wp_mono; [|by eapply rwp_SetContainerStateWithConcurrencyLimit].
  intros r d' _ (-> & Eg & Ec & _). unfold admission in *.
  rewrite !wrap_i_id in * by done.
  destruct (Z.ltb_spec (cl_GPULimit q) (usage gpu_weight (view s) (cr_WorkspaceId req) + cr_GpuCount req));
    [|destruct (Z.ltb_spec (cl_CPUMillicoreLimit q)
        (usage cpu_weight (view s) (cr_WorkspaceId req) + cr_Cpu req))];
    rewrite ?decide_False, ?decide_True in Eg, Ec by done;
    [right; split; [by left|lia]|right; split; [by right|lia]|left; repeat split; lia].
Qed.

(** On a reliable server a state written for a new container is read back by
    [GetContainerState] with all its fields (not started yet). *)
Theorem SetContainerState_GetContainerState I id st X Y (s : srv) L :
  reliable I -> I s -> container_state_ok st -> id <> "" ->
  kv (view s) !! SchedulerContainerLock id = None ->
  kv (view s) !! SchedulerContainerState id = None ->
  as_set (kv (view s) !! SchedulerContainerIndex (cs_StubId st)) = Some Y ->
  as_set (kv (view s) !! SchedulerContainerWorkspaceIndex (cs_WorkspaceId st)) = Some X ->
  ends (SetContainerState id st ;; GetContainerState id) s L (λ r _, r = inr (written id st)).
Proof using Type SL.
  intros HR HI Hok Hid Hl Hk HY HX. apply (ends_rwp I); [done..|]. wp_bind.
  eapply wp_mono; [|by eapply rwp_SetContainerState].
  intros r d1 L1 [(-> & [Hw _] & _) Hl1]. cbn beta iota.
  eapply wp_mono; [|by eapply rwp_GetContainerState]. by intros r d2 L2 [[-> _] _].
Qed.

(** [UpdateContainerStatus] on any lawful server: it touches the container's
    state and lock only, rejects an unknown status without doing anything, and
    when it returns nil (with a positive expiry) the stored state is the old one
    with the new status, its start time set exactly when it enters RUNNING. *)
Theorem UpdateContainerStatus_effect now id status e (s : srv) L :
  in_i64 now ->
  ends (UpdateContainerStatus now id status e) s L (status_post now id status e (view s)).
Proof using Type SL. intros Hn. by apply ends_wp, wp_UpdateContainerStatus. Qed.

(** The start time is set once: a second transition to RUNNING keeps the start
    time of the first, whatever else the server did to other keys. *)
Theorem started_at_set_once t1 t2 id e1 e2 (s : srv) L :
  in_i64 t1 -> in_i64 t2 ->
  0 < wrap_i64 (e1 * second) -> 0 < wrap_i64 (e2 * second) ->
  ends (UpdateContainerStatus t1 id ContainerStatusRunning e1 ;;
        UpdateContainerStatus t2 id ContainerStatusRunning e2) s L (λ r d',
    r = inr tt -> forall st, decoded (view s) id = Some st ->
    exists st', decoded d' id = Some st' /\ cs_Status st' = ContainerStatusRunning /\
      cs_StartedAt st' =
        if String.eqb (cs_Status st) ContainerStatusRunning then cs_StartedAt st else t1).
Proof using Type SL.
  intros H1 H2 He1 He2. apply ends_wp. wp_bind.
  eapply wp_mono; [|by apply wp_UpdateContainerStatus].
  intros r d1 L1 [_ Hr1]. destruct r as [|[]]; [done|]. cbn beta iota.
  destruct Hr1 as (_ & s1 & Hs1 & Hd1). specialize (Hd1 He1).
  eapply wp_mono; [|by apply wp_UpdateContainerStatus].
  intros r d2 L2 [_ Hr2] -> st Hst. destruct Hr2 as (_ & s2 & Hs2 & Hd2). specialize (Hd2 He2).
  rewrite Hst in Hs1. injection Hs1 as <-. rewrite Hd1 in Hs2. injection Hs2 as <-.
  eexists. split; [exact Hd2|]. unfold status_updated. simpl.
  destruct (String.eqb (cs_Status st) ContainerStatusRunning); done.
Qed.
End container_props.

Lemma ex_admissible :
  admissible ex_container_db (ex_request "c1" 1000 2000 "A10G" 1) {[SchedulerContainerState "c0"]}.
Proof.
  constructor.
  - split; [vm_compute; reflexivity|]. intros k ->%elem_of_singleton. eauto.
  - by exists ∅.
  - reflexivity.
  - reflexivity.
  - discriminate.
  - repeat split; discriminate.
Qed.

Lemma concurrency_limit_respected_witness :
  ends (S := ref_server)
    (SetContainerStateWithConcurrencyLimit 120 (Some ex_quota) (ex_request "c1" 1000 2000 "A10G" 1))
    (on ex_container_db) ∅ (λ r d',
    (2 <= 2 /\ 2000 <= 4000 /\ r = inr tt /\
     usage gpu_weight d' "ws" = 2 /\ usage cpu_weight d' "ws" = 2000) \/
    (2 < 2 /\ r = inl (EThrottledByConcurrencyLimit "gpu quota exceeded") \/
     2 <= 2 /\ 4000 < 2000 /\ r = inl (EThrottledByConcurrencyLimit "cpu quota exceeded")) /\
    usage gpu_weight d' "ws" = 1 /\ usage cpu_weight d' "ws" = 1000).
Proof.
  pose proof (concurrency_limit_respected (S := ref_server) _ 120 ex_quota
    (ex_request "c1" 1000 2000 "A10G" 1) _ (on ex_container_db) ∅ ref_reliable eq_refl
    ltac:(by split) ex_admissible ltac:(by vm_compute; intuition congruence)
    ltac:(by vm_compute; intuition congruence)) as H.
  assert (usage gpu_weight ex_container_db "ws" = 1) as Eg by (vm_compute; reflexivity).
  assert (usage cpu_weight ex_container_db "ws" = 1000) as Ec by (vm_compute; reflexivity).
  simpl in H. rewrite Eg, Ec in H. exact H.
Defined.

Lemma SetContainerState_GetContainerState_witness :
  ends (S := ref_server) (SetContainerState "c1" ex_state ;; GetContainerState "c1")
    (on ex_container_db) ∅ (λ r _, r = inr (written "c1" ex_state)).
Proof.
  apply (SetContainerState_GetContainerState (S := ref_server) _ "c1" ex_state
    {[SchedulerContainerState "c0"]} ∅ (on ex_container_db) ∅ ref_reliable);
    [reflexivity|repeat split; discriminate|discriminate|reflexivity..].
Defined.

Lemma UpdateContainerStatus_effect_witness :
  let p := UpdateContainerStatus 200 "c0" ContainerStatusStopping 120 in
  ends (S := ref_server) p (on ex_container_db) ∅
    (status_post 200 "c0" ContainerStatusStopping 120 ex_container_db) /\
  (run (S := ref_server) p (on ex_container_db) ∅).1.1 = inr tt.
Proof.
  split; [|vm_compute; reflexivity].
  apply (UpdateContainerStatus_effect (S := ref_server) 200 "c0" ContainerStatusStopping 120
    (on ex_container_db) ∅). by split.
Defined.

Lemma started_at_set_once_witness :
  let p := (UpdateContainerStatus 200 "c1" ContainerStatusRunning 120 ;;
            UpdateContainerStatus 300 "c1" ContainerStatusRunning 120) in
  ends (S := ref_server) p (on ex_container_db) ∅ (λ r d',
    r = inr tt -> forall st, decoded ex_container_db "c1" = Some st ->
    exists st', decoded d' "c1" = Some st' /\ cs_Status st' = ContainerStatusRunning /\
      cs_StartedAt st' =
        if String.eqb (cs_Status st) ContainerStatusRunning then cs_StartedAt st else 200) /\
  (run (S := ref_server) p (on ex_container_db) ∅).1.1 = inr tt.
Proof.
  split; [|vm_compute; reflexivity].
  apply (started_at_set_once (S := ref_server) 200 300 "c1" 120 120 (on ex_container_db) ∅);
    by vm_compute.
Defined.
