(* ===== verification/WorkerSpec.v ===== *)
(** * What the worker repository guarantees

    Specifications of the operations of [WorkerRepo], proved over every reply a
    lawful Redis server may give (errors included) and stated for every server. *)

From S2P Require Import Prelude GoStd Redis Keys Types Codec Lock Env WorkerRepo.

Local Open Scope Z_scope.
Set Default Proof Using "Type".

(** ** Stored workers *)

Section worker_spec.
Context {FMT : GoFmt} {MS : Mapstructure} {JSON : JsonRequests}.
Context {MSL : MapstructureLaws MS}.
Context (config : WorkerRepoConfig).

(** The worker a state key decodes to; [None] when the key is not a hash. *)
Definition stored_at (d : rdb) (key : string) : option Worker :=
  h ← as_hash (kv d !! key); Some (to_struct h (zeroWorker (last_segment key))).

Definition stored (d : rdb) (id : string) : option Worker :=
  stored_at d (SchedulerWorkerState id).

Lemma stored_eq_except ks d d' id :
  eq_except ks d d' -> SchedulerWorkerState id ∉ ks -> stored d' id = stored d id.
Proof. intros H Hk. unfold stored, stored_at. by rewrite (eq_except_kv _ _ _ _ H Hk). Qed.

Lemma stored_ok d id w : stored d id = Some w -> worker_ok w /\ w_ActiveContainers w = [].
Proof. intros (h & _ & [= <-])%bind_Some. apply to_struct_worker_ok. Qed.

Lemma stored_worker_id w : w_ActiveContainers w = [] -> stored_worker w = w.
Proof. destruct w. simpl. by intros ->. Qed.

(** Writing a worker's hash and reading it back. *)
Lemma stored_hset d id w d' r :
  worker_ok w -> w_ActiveContainers w = [] ->
  rsem (CHSet (SchedulerWorkerState id) (to_slice w)) d r d' -> stored d' id = Some w.
Proof.
  intros Hok Hac (h & _ & Hh & ->). unfold stored, stored_at, set_kv. cbn [kv].
  rewrite lookup_insert_eq.
  change (Some (to_struct (hset_fields (to_slice w) h)
    (zeroWorker (last_segment (SchedulerWorkerState id)))) = Some w).
  by rewrite worker_hash_roundtrip, stored_worker_id.
Qed.

Lemma wp_getWorkerFromKey key Q d L :
  (forall w, stored_at d key = Some w -> Q (inr w) d L) ->
  Q (inl (EMsg "failed to get worker")) d L ->
  wp (getWorkerFromKey key) Q d L.
Proof.
  intros H1 H2. unfold getWorkerFromKey. wp_bind. wp_call.
  - destruct H as [Hh ->]. simpl. apply H1. unfold stored_at. by rewrite Hh.
  - assert (d' = d) as -> by (destruct H as [->|(? & _ & ->)]; done). done.
Qed.

(** ** Capacity updates *)

Definition bump_version (w : Worker) : Worker :=
  set_w_ResourceVersion (wrap_i64 (w_ResourceVersion w + 1)) w.

(** The fields that a capacity update leaves alone. *)
Definition same_identity (w w' : Worker) : Prop :=
  w_Id w = w_Id w' /\ w_Status w = w_Status w' /\ w_TotalCpu w = w_TotalCpu w' /\
  w_TotalMemory w = w_TotalMemory w' /\ w_TotalGpuCount w = w_TotalGpuCount w' /\
  w_Gpu w = w_Gpu w' /\ w_PoolName w = w_PoolName w' /\ w_MachineId w = w_MachineId w' /\
  w_RequiresPoolSelector w = w_RequiresPoolSelector w' /\ w_Priority w = w_Priority w' /\
  w_Preemptable w = w_Preemptable w' /\ w_BuildVersion w = w_BuildVersion w' /\
  w_ActiveContainers w = w_ActiveContainers w' /\ w_Runtime w = w_Runtime w'.

(** A capacity update, field by field: the amounts of the request are given back or
    taken, in the arithmetic of the fields; GPUs only when the request names a type. *)
Definition moved (t : CapacityUpdateType) (req : ContainerRequest) (w w' : Worker) : Prop :=
  let gpus := if String.eqb (cr_Gpu req) "" then 0 else cr_GpuCount req in
  same_identity w' w /\ w_ResourceVersion w' = wrap_i64 (w_ResourceVersion w + 1) /\
  match t with
  | AddCapacity =>
      w_FreeCpu w' = wrap_i64 (w_FreeCpu w + cr_Cpu req) /\
      w_FreeMemory w' = wrap_i64 (w_FreeMemory w + cr_Memory req) /\
      w_FreeGpuCount w' = wrap_u32 (w_FreeGpuCount w + gpus)
  | RemoveCapacity =>
      w_FreeCpu w' = wrap_i64 (w_FreeCpu w - cr_Cpu req) /\ 0 <= w_FreeCpu w' /\
      w_FreeMemory w' = wrap_i64 (w_FreeMemory w - cr_Memory req) /\ 0 <= w_FreeMemory w' /\
      w_FreeGpuCount w' = wrap_u32 (w_FreeGpuCount w - gpus)
  | InvalidCapacityUpdate _ => False
  end.

Lemma updated_capacity_ok w req t w' :
  worker_ok w -> updated_capacity w req t = inr w' ->
  worker_ok (bump_version w') /\ w_ActiveContainers w' = w_ActiveContainers w /\
  w_ResourceVersion w' = w_ResourceVersion w.
Proof.
  unfold worker_ok, updated_capacity. intros H E.
  destruct t; repeat case_match; simplify_eq; simpl;
    repeat split; try apply H; try apply wrap_i_range; try apply wrap_u_range; lia.
Qed.

(** The arithmetic of the code is [moved]. *)
Lemma updated_moved w req t upd :
  worker_ok w -> updated_capacity w req t = inr upd -> moved t req w (bump_version upd).
Proof.
  unfold worker_ok, updated_capacity, moved, same_identity. intros (_ & _ & _ & _ & _ & Og & _) E.
  destruct t; [| |done]; destruct (String.eqb (cr_Gpu req) ""); simpl in *; repeat case_match; simplify_eq;
    simpl; rewrite ?Z.add_0_r, ?Z.sub_0_r, ?(wrap_u_id 32 (w_FreeGpuCount w)) by (done || apply Og);
    repeat match goal with H : _ || _ = false |- _ => apply orb_false_iff in H as [? ?] end;
    rewrite ?Z.ltb_ge in *; tauto.
Qed.

(** The effect of [UpdateWorkerCapacity] on the stored worker. *)
Definition capacity_applied (worker : Worker) (req : ContainerRequest) (t : CapacityUpdateType)
    (d d' : rdb) : Prop :=
  exists cur new,
    stored d (w_Id worker) = Some cur /\
    w_ResourceVersion cur = w_ResourceVersion worker /\
    moved t req cur new /\
    stored d' (w_Id worker) = Some new.

Definition capacity_post (worker : Worker) (req : ContainerRequest) (t : CapacityUpdateType)
    (d : rdb) (r : gerr + unit) (d' : rdb) : Prop :=
  eq_except {[SchedulerWorkerState (w_Id worker); SchedulerWorkerLock (w_Id worker)]} d d' /\
  match r with
  | inr _ => capacity_applied worker req t d d'
  | inl e =>
      stored d' (w_Id worker) = stored d (w_Id worker) \/
      (e = EMsg "failed to update worker capacity" /\ capacity_applied worker req t d d')
  end.

Lemma lock_not_state id : SchedulerWorkerState id ∉ ({[SchedulerWorkerLock id]} : gset string).
Proof. key_not_in. Qed.

Lemma capacity_post_ignores_lock worker req t d :
  ignores_lock (SchedulerWorkerLock (w_Id worker)) (λ r d' _, capacity_post worker req t d r d').
Proof.
  intros r d1 d2 L1 L2 Heq [Hf Hr]. split.
  - etransitivity; [exact Hf|]. eapply eq_except_weaken; [|exact Heq]. sets.
  - unfold capacity_applied in *.
    by rewrite (stored_eq_except _ _ _ _ Heq (lock_not_state _)).
Qed.

Lemma capacity_post_trans worker req t d d1 r d2 :
  eq_except {[SchedulerWorkerLock (w_Id worker)]} d d1 ->
  capacity_post worker req t d1 r d2 -> capacity_post worker req t d r d2.
Proof.
  intros Heq [Hf Hr]. split.
  - etransitivity; [|exact Hf]. eapply eq_except_weaken; [|exact Heq]. sets.
  - unfold capacity_applied in *.
    by rewrite (stored_eq_except _ _ _ _ Heq (lock_not_state _)) in Hr.
Qed.

Lemma wp_UpdateWorkerCapacity worker req t d L :
  wp (UpdateWorkerCapacity worker req t) (λ r d' _, capacity_post worker req t d r d') d L.
Proof using Type MSL.
  unfold UpdateWorkerCapacity.
  apply wp_with_lock; [apply capacity_post_ignores_lock| |].
  { intros e _. split; [reflexivity|by left]. }
  intros d1 L1 Heq.
  eapply wp_mono; [intros r d2 L2; by apply (capacity_post_trans _ _ _ _ _ _ _ Heq)|].
  wp_bind. apply wp_getWorkerFromKey; [|split; [reflexivity|by left]].
  intros cur Hcur. destruct (stored_ok d1 (w_Id worker) cur Hcur) as [Hok Hac].
  destruct (CopyStruct cur) as [?|w1] eqn:Hcp; [split; [reflexivity|by left]|].
  apply CopyStruct_same in Hcp as ->.
  destruct (Z.eqb_spec (w_ResourceVersion cur) (w_ResourceVersion worker)) as [Hv|];
    simpl; [|split; [reflexivity|by left]].
  destruct (updated_capacity cur req t) as [e|upd] eqn:Hu; [split; [reflexivity|by left]|].
  destruct (updated_capacity_ok _ _ _ _ Hok Hu) as (Hok' & Hac' & _).
  pose proof (updated_moved _ _ _ _ Hok Hu) as Hm.
  wp_bind. wp_call; simpl; (split; [frame|]).
  - exists cur, (bump_version upd). split_and!; try done. eapply stored_hset; [done| |exact H].
    simpl. congruence.
  - destruct H as [->|[? H]]; [by left|right]. split; [done|].
    exists cur, (bump_version upd). split_and!; try done. eapply stored_hset; [done| |exact H].
    simpl. congruence.
Qed.

Lemma state_not_lock id : SchedulerWorkerLock id ∉ ({[SchedulerWorkerState id]} : gset string).
Proof. key_not_in. Qed.

(** The worker's state key holds exactly [w] (a missing key decodes too). *)
Definition holds (d : rdb) (id : string) (w : Worker) : Prop :=
  stored d id = Some w /\ is_Some (kv d !! SchedulerWorkerState id).

Lemma holds_ignores_lock id w d1 d2 :
  eq_except {[SchedulerWorkerLock id]} d1 d2 -> holds d1 id w -> holds d2 id w.
Proof.
  intros Heq [H1 H2]. split.
  - by rewrite (stored_eq_except _ _ _ _ Heq (lock_not_state _)).
  - by rewrite (eq_except_kv _ _ _ _ Heq (lock_not_state _)).
Qed.

Lemma holds_hset d id w d' r :
  worker_ok w -> w_ActiveContainers w = [] ->
  rsem (CHSet (SchedulerWorkerState id) (to_slice w)) d r d' -> holds d' id w.
Proof.
  intros Hok Hac Hr. split; [by eapply stored_hset|].
  destruct Hr as (h & _ & _ & ->). unfold set_kv. cbn [kv]. rewrite lookup_insert_eq. eauto.
Qed.

Lemma rwp_hset (w : Worker) key (wrapE : gerr -> gerr) Q d L :
  is_Some (as_hash (kv d !! key)) ->
  (forall r d', rsem (CHSet key (to_slice w)) d r d' -> Q (inr tt) d' L) ->
  rwp (rcall wrapE (CHSet key (to_slice w))) Q d L.
Proof.
  intros [h Hh] HQ. wp_call; [destruct r; eauto|]. destruct H as [_ H]. exfalso. eapply (H tt).
  eexists. split; [|done]. intros E. by apply (f_equal length) in E.
Qed.

Lemma rwp_getWorkerFromKey id w Q d L :
  stored d id = Some w -> Q (inr w) d L -> rwp (getWorkerFromKey (SchedulerWorkerState id)) Q d L.
Proof.
  intros Hst HQ. unfold stored, stored_at in Hst.
  apply bind_Some in Hst as (h & Hh & [= <-]).
  unfold getWorkerFromKey. wp_bind. wp_call.
  - destruct H as [Hh' ->]. rewrite Hh in Hh'. by injection Hh' as <-.
  - destruct H as [_ H]. exfalso. by eapply H.
Qed.

(** On a reliable server a capacity update with the current version and enough
    room goes through. *)
Lemma rwp_UpdateWorkerCapacity worker req t d L cur upd :
  kv d !! SchedulerWorkerLock (w_Id worker) = None ->
  stored d (w_Id worker) = Some cur -> CopyStruct cur = inr cur ->
  w_ResourceVersion cur = w_ResourceVersion worker ->
  updated_capacity cur req t = inr upd ->
  rwp (UpdateWorkerCapacity worker req t)
    (λ r d' _, (r = inr tt /\ holds d' (w_Id worker) (bump_version upd)) /\
               kv d' !! SchedulerWorkerLock (w_Id worker) = None) d L.
Proof.
  intros Hl Hst Hcp Hv Hu. unfold UpdateWorkerCapacity.
  apply (rwp_with_lock _ _ _ _ _ {[SchedulerWorkerState (w_Id worker)]}
    (λ r d', r = inr tt /\ holds d' (w_Id worker) (bump_version upd)));
    [done|apply state_not_lock| |].
  { intros r d1 d2 Heq [-> H]. split; [done|]. by eapply holds_ignores_lock. }
  intros d1 L1 Heq.
  assert (stored d1 (w_Id worker) = Some cur) as Hst1
    by (by rewrite (stored_eq_except _ _ _ _ Heq (lock_not_state _))).
  destruct (stored_ok _ _ _ Hst1) as [Hok Hac].
  destruct (updated_capacity_ok _ _ _ _ Hok Hu) as (Hok' & Hac' & _).
  wp_bind. eapply rwp_getWorkerFromKey; [done|]. rewrite Hcp, Hv, Z.eqb_refl. simpl. rewrite Hu.
  wp_bind. apply rwp_hset.
  { apply bind_Some in Hst1 as (h & Hh & _). eauto. }
  intros r d2 Hr. split; [|split; [frame|done]]. split; [done|].
  eapply holds_hset; [exact Hok'| |exact Hr]. simpl. congruence.
Qed.

(** Reading a worker that is there. *)
Lemma rwp_GetWorkerById id w d L :
  kv d !! SchedulerWorkerLock id = None -> holds d id w ->
  rwp (GetWorkerById id)
    (λ r d' _, (r = inr w /\ holds d' id w) /\ kv d' !! SchedulerWorkerLock id = None) d L.
Proof.
  intros Hl Hh. unfold GetWorkerById.
  apply (rwp_with_lock _ _ _ _ _ ∅ (λ r d', r = inr w /\ holds d' id w)); [done|sets| |].
  { intros r d1 d2 Heq [-> H]. split; [done|]. by eapply holds_ignores_lock. }
  intros d1 L1 Heq. assert (holds d1 id w) as Hh1 by (by eapply holds_ignores_lock).
  wp_bind. wp_call.
  - destruct H as [-> ->]. unfold exists_kv. rewrite bool_decide_true by apply Hh1. simpl.
    eapply rwp_getWorkerFromKey; [apply Hh1|]. done.
  - destruct H as [_ H]. exfalso. by eapply H.
Qed.

(** ** The request queue of a worker *)

Definition queue (d : rdb) (id : string) : option (list string) :=
  as_list (kv d !! SchedulerWorkerRequests id).

Lemma queue_eq_except ks d d' id :
  eq_except ks d d' -> SchedulerWorkerRequests id ∉ ks -> queue d' id = queue d id.
Proof. intros H Hk. unfold queue. by rewrite (eq_except_kv _ _ _ _ H Hk). Qed.

Definition enqueued (id : string) (req : ContainerRequest) (d d' : rdb) : Prop :=
  exists json l, marshalRequest req = inr json /\
    queue d id = Some l /\ queue d' id = Some (l ++ [json])%list.

Definition schedule_keys (id : string) : gset string :=
  {[SchedulerWorkerState id; SchedulerWorkerLock id; SchedulerWorkerRequests id]}.

(** What [ScheduleContainerRequest] may do: on success the capacity is taken and
    the request is queued; after an error the request is queued only if the
    capacity was taken. *)
Definition schedule_post (worker : Worker) (req : ContainerRequest)
    (d : rdb) (r : gerr + unit) (d' : rdb) : Prop :=
  eq_except (schedule_keys (w_Id worker)) d d' /\
  match r with
  | inr _ => capacity_applied worker req RemoveCapacity d d' /\ enqueued (w_Id worker) req d d'
  | inl _ =>
      (queue d' (w_Id worker) = queue d (w_Id worker) /\
       (stored d' (w_Id worker) = stored d (w_Id worker) \/
        capacity_applied worker req RemoveCapacity d d')) \/
      (capacity_applied worker req RemoveCapacity d d' /\ enqueued (w_Id worker) req d d')
  end.

Lemma queue_rpush id v d r d' :
  rsem (CRPush (SchedulerWorkerRequests id) v) d r d' ->
  exists l, queue d id = Some l /\ queue d' id = Some (l ++ [v])%list /\ stored d' id = stored d id.
Proof.
  intros Hr. assert (eq_except {[SchedulerWorkerRequests id]} d d') as Hf by frame.
  destruct Hr as (l & Hl & ->). exists l. repeat split; [done| |].
  - unfold queue. simpl. by rewrite lookup_insert_eq.
  - eapply stored_eq_except; [exact Hf|]. key_not_in.
Qed.

Lemma capacity_queue worker req t d r d' :
  capacity_post worker req t d r d' -> queue d' (w_Id worker) = queue d (w_Id worker).
Proof. intros [Hf _]. eapply queue_eq_except; [exact Hf|]. key_not_in. Qed.

Lemma wp_ScheduleContainerRequest worker req d L :
  wp (ScheduleContainerRequest worker req) (λ r d' _, schedule_post worker req d r d') d L.
Proof using Type MSL.
  unfold ScheduleContainerRequest.
  destruct (marshalRequest req) as [e|json] eqn:Hj; [split; [reflexivity|by left; auto]|].
  wp_bind. eapply wp_mono; [|apply wp_UpdateWorkerCapacity]. cbv beta. intros r d1 L1 H1.
  pose proof (capacity_queue _ _ _ _ _ _ H1) as Hq. destruct H1 as [Hf H1].
  assert (eq_except (schedule_keys (w_Id worker)) d d1) as Hf'
    by (eapply eq_except_weaken; [|exact Hf]; unfold schedule_keys; sets).
  destruct r as [e|[]].
  { split; [done|]. left. split; [done|]. by destruct H1 as [->|[_ ?]]; auto. }
  wp_bind. wp_call; simpl.
  - assert (eq_except (schedule_keys (w_Id worker)) d1 d') as Hf2 by (unfold schedule_keys; frame).
    destruct (queue_rpush _ _ _ _ _ H) as (l & Hl & Hl' & Hst).
    split; [by etransitivity|]. split.
    + destruct H1 as (cur & upd & ? & ? & ? & ?). exists cur, upd. by rewrite Hst.
    + exists json, l. by rewrite <- Hq.
  - assert (eq_except (schedule_keys (w_Id worker)) d1 d') as Hf2 by (unfold schedule_keys; frame).
    split; [by etransitivity|]. destruct H as [->|[[] H]]; [by left; auto|right].
    destruct (queue_rpush _ _ _ _ _ H) as (l & Hl & Hl' & Hst). split.
    + destruct H1 as (cur & upd & ? & ? & ? & ?). exists cur, upd. by rewrite Hst.
    + exists json, l. by rewrite <- Hq.
Qed.

Lemma queue_lpop id d o d' :
  rsem (CLPop (SchedulerWorkerRequests id)) d o d' ->
  exists l, queue d id = Some l /\ o = head l /\ queue d' id = Some (tail l).
Proof.
  intros (l & Hl & -> & ->). exists l. repeat split; [done|]. unfold queue, list_or_del.
  case_decide as E; simpl; [rewrite lookup_delete_eq, E|rewrite lookup_insert_eq]; done.
Qed.

(** What [GetNextContainerRequest] may do: it changes the queue only, and takes
    at most its head. *)
Definition next_post (id : string) (d : rdb) (r : gerr + option ContainerRequest) (d' : rdb) : Prop :=
  eq_except {[SchedulerWorkerRequests id]} d d' /\
  match r with
  | inr None => queue d id = Some [] /\ queue d' id = Some []
  | inr (Some req) => exists json l,
      unmarshalRequest json = inr req /\ queue d id = Some (json :: l) /\ queue d' id = Some l
  | inl e => queue d' id = queue d id \/
      exists json l, queue d id = Some (json :: l) /\ queue d' id = Some l /\
        ((exists e', e = ERedis e') \/ unmarshalRequest json = inl e)
  end.

Lemma wp_GetNextContainerRequest id d L :
  wp (GetNextContainerRequest id) (λ r d' _, next_post id d r d') d L.
Proof.
  unfold GetNextContainerRequest. wp_bind. wp_call; [|].
  - destruct H as (l & Hl & -> & ->). fold (queue d id) in Hl.
    destruct (Z.eqb_spec (Z.of_nat (length l)) 0) as [E|E].
    { destruct l; [|simpl in E; lia]. split; [reflexivity|done]. }
    destruct l as [|json l]; [simpl in E; lia|].
    wp_bind. wp_call; simpl.
    + assert (eq_except {[SchedulerWorkerRequests id]} d d') as Hf by frame.
      destruct (queue_lpop _ _ _ _ H) as (l' & Hl1 & -> & Hl2).
      rewrite Hl in Hl1. injection Hl1 as <-. simpl in *.
      destruct (unmarshalRequest json) as [e|req] eqn:Hu; split; try done; [right|]; eauto 8.
    + split; [frame|]. destruct H as [->|[o H]]; [by left|right].
      destruct (queue_lpop _ _ _ _ H) as (l' & Hl1 & -> & Hl2).
      rewrite Hl in Hl1. injection Hl1 as <-. simpl in *. eauto 8.
  - assert (d' = d) as -> by (destruct H as [->|(? & ? & ? & ? & ->)]; done).
    split; [reflexivity|by left].
Qed.

(** ** Registering, reading and removing a worker *)

(** What Redis holds after a worker was added. *)
Definition added (w : Worker) : Worker := stored_worker (set_w_ResourceVersion 0 w).

Lemma reset_version_ok w : worker_ok w -> worker_ok (set_w_ResourceVersion 0 w).
Proof. unfold worker_ok. simpl. intros H. repeat split; try apply H; done. Qed.

Lemma holds_hset_stored d id (w : Worker) d' r :
  worker_ok w -> rsem (CHSet (SchedulerWorkerState id) (to_slice w)) d r d' ->
  holds d' id (stored_worker w).
Proof.
  intros Hok (h & _ & _ & ->). unfold holds, stored, stored_at, set_kv. cbn [kv].
  rewrite lookup_insert_eq. split; [|eauto].
  change (Some (to_struct (hset_fields (to_slice w) h)
    (zeroWorker (last_segment (SchedulerWorkerState id)))) = Some (stored_worker w)).
  by rewrite worker_hash_roundtrip.
Qed.

Lemma holds_eq_except ks d d' id w :
  eq_except ks d d' -> SchedulerWorkerState id ∉ ks -> holds d id w -> holds d' id w.
Proof.
  intros Heq Hk [H1 H2]. split.
  - by rewrite (stored_eq_except _ _ _ _ Heq Hk).
  - by rewrite (eq_except_kv _ _ _ _ Heq Hk).
Qed.

Lemma holds_expire d id e w r d' :
  0 < e -> rsem (CExpire (SchedulerWorkerState id) e) d r d' -> holds d id w -> holds d' id w.
Proof.
  intros He -> [H1 H2]. unfold exists_kv. rewrite bool_decide_true by done.
  destruct (Z.leb_spec e 0); [lia|]. by split.
Qed.

Definition add_keys (id : string) : gset string :=
  {[SchedulerWorkerIndex; SchedulerWorkerState id]}.

(** The worker of [AddWorker] is in the index and in its state key, which has
    the configured time to live. *)
Definition registered (w : Worker) (d : rdb) : Prop :=
  holds d (w_Id w) (added w) /\
  (exists X, as_set (kv d !! SchedulerWorkerIndex) = Some X /\ SchedulerWorkerState (w_Id w) ∈ X) /\
  ttl d !! SchedulerWorkerState (w_Id w) = Some (wc_CleanupPendingWorkerAgeLimit config).

Lemma registered_ignores_lock w d1 d2 :
  eq_except {[SchedulerWorkerLock (w_Id w)]} d1 d2 -> registered w d1 -> registered w d2.
Proof.
  intros Heq (H1 & (X & H2 & H3) & H4). split; [|split].
  - by eapply holds_ignores_lock.
  - exists X. split; [|done]. rewrite (eq_except_kv _ _ _ _ Heq); [done|]. key_not_in.
  - destruct (Heq (SchedulerWorkerState (w_Id w))) as [_ ->]; [key_not_in|done].
Qed.

Lemma registered_steps w d d1 d2 d3 r1 r2 r3 :
  worker_ok w -> 0 < wc_CleanupPendingWorkerAgeLimit config ->
  rsem (CSAdd SchedulerWorkerIndex (SchedulerWorkerState (w_Id w))) d r1 d1 ->
  rsem (CHSet (SchedulerWorkerState (w_Id w)) (to_slice (set_w_ResourceVersion 0 w))) d1 r2 d2 ->
  rsem (CExpire (SchedulerWorkerState (w_Id w)) (wc_CleanupPendingWorkerAgeLimit config)) d2 r3 d3 ->
  registered w d3.
Proof.
  intros Hok Hage H1 H2 H3.
  pose proof (reset_version_ok _ Hok) as Hok'.
  pose proof (holds_hset_stored _ _ _ _ _ Hok' H2) as Hh. split; [by eapply holds_expire|].
  assert (eq_except {[SchedulerWorkerState (w_Id w)]} d1 d2) as Hf2 by frame.
  assert (eq_except {[SchedulerWorkerState (w_Id w)]} d2 d3) as Hf3 by frame.
  destruct H1 as (X & HX & ->). split.
  - exists ({[SchedulerWorkerState (w_Id w)]} ∪ X). split; [|by apply elem_of_union_l, elem_of_singleton_2].
    rewrite (eq_except_kv _ _ _ _ Hf3), (eq_except_kv _ _ _ _ Hf2) by key_not_in.
    unfold set_kv. cbn [kv]. by rewrite lookup_insert_eq.
  - rewrite H3. unfold exists_kv. rewrite bool_decide_true by apply Hh.
    rewrite (proj2 (Z.leb_gt _ _)) by done. simpl. apply lookup_insert_eq.
Qed.

(** On a reliable server a worker is registered. *)
Lemma rwp_AddWorker w d L :
  worker_ok w -> 0 < wc_CleanupPendingWorkerAgeLimit config -> kv d !! SchedulerWorkerLock (w_Id w) = None ->
  is_Some (as_set (kv d !! SchedulerWorkerIndex)) ->
  is_Some (as_hash (kv d !! SchedulerWorkerState (w_Id w))) ->
  rwp (AddWorker config w)
    (λ r d' _, (r = inr (set_w_ResourceVersion 0 w) /\ registered w d') /\
               kv d' !! SchedulerWorkerLock (w_Id w) = None) d L.
Proof.
  intros Hok Hage Hl [X HX] [h Hh]. unfold AddWorker.
  apply (rwp_with_lock _ _ _ _ _ (add_keys (w_Id w))
    (λ r d', r = inr (set_w_ResourceVersion 0 w) /\ registered w d'));
    [done|unfold add_keys; key_not_in| |].
  { intros r d1 d2 Heq [-> H]. split; [done|]. by eapply registered_ignores_lock. }
  intros d1 L1 Heq.
  assert (as_set (kv d1 !! SchedulerWorkerIndex) = Some X) as HX1.
  { rewrite (eq_except_kv _ _ _ _ Heq); [done|]. key_not_in. }
  assert (as_hash (kv d1 !! SchedulerWorkerState (w_Id w)) = Some h) as Hh1.
  { rewrite (eq_except_kv _ _ _ _ Heq); [done|]. key_not_in. }
  wp_bind. wp_call; [|destruct H as [_ H]; exfalso; eapply (H tt); by eexists].
  assert (eq_except (add_keys (w_Id w)) d1 d') as Hf1 by (unfold add_keys; frame).
  assert (eq_except {[SchedulerWorkerIndex]} d1 d') as Hf1' by frame.
  wp_bind. apply rwp_hset.
  { rewrite (eq_except_kv _ _ _ _ Hf1'), Hh1 by key_not_in. eauto. }
  intros r2 d2 H2.
  assert (eq_except (add_keys (w_Id w)) d' d2) as Hf2 by (unfold add_keys; frame).
  wp_bind. wp_call; [|destruct H0 as [_ H0]; exfalso; eapply (H0 tt); done].
  assert (eq_except (add_keys (w_Id w)) d2 d'0) as Hf3 by (unfold add_keys; frame).
  split; [|split; [by repeat (etransitivity; [eassumption|])|done]].
  split; [done|]. by eapply registered_steps.
Qed.

Lemma rwp_AddWorker_GetWorkerById w d L :
  worker_ok w -> 0 < wc_CleanupPendingWorkerAgeLimit config -> kv d !! SchedulerWorkerLock (w_Id w) = None ->
  is_Some (as_set (kv d !! SchedulerWorkerIndex)) ->
  is_Some (as_hash (kv d !! SchedulerWorkerState (w_Id w))) ->
  rwp (AddWorker config w ;; GetWorkerById (w_Id w)) (λ r _ _, r = inr (added w)) d L.
Proof.
  intros Hok Hage Hl HX Hh. wp_bind. eapply wp_mono; [|by apply rwp_AddWorker].
  intros r d1 L1 [[-> (Hr & _)] Hl1]. cbn beta iota.
  eapply wp_mono; [|by apply rwp_GetWorkerById]. by intros r' d2 L2 [[-> _] _].
Qed.

Definition remove_keys (id : string) : gset string :=
  {[SchedulerWorkerIndex; SchedulerWorkerState id; SchedulerWorkerRequests id;
    SchedulerWorkerLock id]}.

(** No trace of a worker is left: state, index entry and queued requests. *)
Definition gone (d : rdb) (id : string) : Prop :=
  kv d !! SchedulerWorkerState id = None /\ kv d !! SchedulerWorkerRequests id = None /\
  forall X, as_set (kv d !! SchedulerWorkerIndex) = Some X -> SchedulerWorkerState id ∉ X.

Definition remove_post (id : string) (d : rdb) (r : gerr + unit) (d' : rdb) : Prop :=
  eq_except (remove_keys id) d d' /\
  match r with
  | inr _ => is_Some (kv d !! SchedulerWorkerState id) /\ gone d' id
  | inl e => e = EWorkerNotFound id -> kv d !! SchedulerWorkerState id = None
  end.

Lemma gone_steps id d d1 d2 d3 r1 r2 r3 :
  rsem (CSRem SchedulerWorkerIndex (SchedulerWorkerState id)) d r1 d1 ->
  rsem (CDel [SchedulerWorkerState id]) d1 r2 d2 ->
  rsem (CDel [SchedulerWorkerRequests id]) d2 r3 d3 -> gone d3 id.
Proof.
  intros (X & HX & ->) -> ->. unfold gone. cbn [foldr del_kv kv].
  rewrite lookup_delete_ne, !lookup_delete_eq by key_ne. repeat split.
  rewrite !lookup_delete_ne by key_ne. unfold set_or_del.
  case_decide as E; simpl; [rewrite lookup_delete_eq|rewrite lookup_insert_eq];
    intros Y [= <-]; [apply not_elem_of_empty|].
  rewrite elem_of_difference, elem_of_singleton. tauto.
Qed.

Lemma remove_post_ignores_lock id d :
  ignores_lock (SchedulerWorkerLock id) (λ r d' _, remove_post id d r d').
Proof.
  intros r d1 d2 L1 L2 Heq [Hf Hr]. split.
  - etransitivity; [exact Hf|]. eapply eq_except_weaken; [|exact Heq]. unfold remove_keys.
    sets.
  - destruct r as [e|[]]; [done|]. destruct Hr as [H1 (H2 & H3 & H4)]. split; [done|].
    unfold gone. rewrite !(eq_except_kv _ _ _ _ Heq) by key_not_in. done.
Qed.

Lemma wp_RemoveWorker id d L : wp (RemoveWorker id) (λ r d' _, remove_post id d r d') d L.
Proof.
  unfold RemoveWorker. apply wp_with_lock; [apply remove_post_ignores_lock| |].
  { intros e He. split; [reflexivity|]. intros ->. destruct He as [?|[? ?]]; done. }
  intros d1 L1 Heq.
  assert (eq_except (remove_keys id) d d1) as Hf0.
  { eapply eq_except_weaken; [|exact Heq]. unfold remove_keys. sets. }
  assert (kv d1 !! SchedulerWorkerState id = kv d !! SchedulerWorkerState id) as Hk
    by (rewrite (eq_except_kv _ _ _ _ Heq) by key_not_in; done).
  wp_bind. wp_call.
  2: { split; [|done]. etransitivity; [exact Hf0|]. unfold remove_keys. frame. }
  destruct H as [-> ->]. unfold exists_kv. rewrite Hk. case_bool_decide as Hex; simpl.
  2: { split; [done|]. intros _. destruct (kv d !! _) eqn:E; [|done]. exfalso. eauto. }
  wp_bind. wp_call.
  2: { split; [|done]. etransitivity; [exact Hf0|]. unfold remove_keys. frame. }
  assert (eq_except (remove_keys id) d d') as Hf1
    by (etransitivity; [exact Hf0|]; unfold remove_keys; frame).
  wp_bind. wp_call.
  2: { split; [|done]. etransitivity; [exact Hf1|]. unfold remove_keys. frame. }
  assert (eq_except (remove_keys id) d d'0) as Hf2
    by (etransitivity; [exact Hf1|]; unfold remove_keys; frame).
  wp_bind. wp_call.
  2: { split; [|done]. etransitivity; [exact Hf2|]. unfold remove_keys. frame. }
  split; [etransitivity; [exact Hf2|]; unfold remove_keys; frame|].
  split; [done|]. by eapply gone_steps.
Qed.

(** ** Taking capacity and giving it back *)

Definition bump_twice (w : Worker) : Worker :=
  set_w_ResourceVersion (wrap_i64 (w_ResourceVersion w + 2)) w.

Lemma worker_ext w w' :
  same_identity w w' -> w_FreeCpu w = w_FreeCpu w' -> w_FreeMemory w = w_FreeMemory w' ->
  w_FreeGpuCount w = w_FreeGpuCount w' -> w_ResourceVersion w = w_ResourceVersion w' -> w = w'.
Proof. unfold same_identity. destruct w, w'. simpl. naive_solver. Qed.

(** A successful removal, field by field. *)
Lemma remove_capacity_inv w req upd :
  updated_capacity w req RemoveCapacity = inr upd ->
  same_identity upd w /\ w_ResourceVersion upd = w_ResourceVersion w /\
  w_FreeCpu upd = wrap_i64 (w_FreeCpu w - cr_Cpu req) /\ 0 <= w_FreeCpu upd /\
  w_FreeMemory upd = wrap_i64 (w_FreeMemory w - cr_Memory req) /\ 0 <= w_FreeMemory upd /\
  w_FreeGpuCount upd = (if String.eqb (cr_Gpu req) "" then w_FreeGpuCount w
                        else wrap_u32 (w_FreeGpuCount w - cr_GpuCount req)).
Proof.
  unfold updated_capacity. destruct (String.eqb (cr_Gpu req) ""); simpl;
    case_match eqn:E; intros [= <-]; unfold same_identity; simpl;
    repeat rewrite orb_false_iff in E; repeat rewrite Z.ltb_ge in E; tauto.
Qed.

Lemma add_capacity_inv w req upd :
  updated_capacity w req AddCapacity = inr upd ->
  same_identity upd w /\ w_ResourceVersion upd = w_ResourceVersion w /\
  w_FreeCpu upd = wrap_i64 (w_FreeCpu w + cr_Cpu req) /\
  w_FreeMemory upd = wrap_i64 (w_FreeMemory w + cr_Memory req) /\
  w_FreeGpuCount upd = (if String.eqb (cr_Gpu req) "" then w_FreeGpuCount w
                        else wrap_u32 (w_FreeGpuCount w + cr_GpuCount req)).
Proof.
  unfold updated_capacity. destruct (String.eqb (cr_Gpu req) ""); simpl;
    intros [= <-]; unfold same_identity; simpl; tauto.
Qed.

Lemma add_after_remove w req upd :
  worker_ok w -> updated_capacity w req RemoveCapacity = inr upd ->
  exists upd', updated_capacity (bump_version upd) req AddCapacity = inr upd' /\
    bump_version upd' = bump_twice w.
Proof.
  intros (H1 & H2 & H3 & H4 & H5 & H6 & H7 & H8) E.
  destruct (remove_capacity_inv _ _ _ E) as (Hi & Hv & Hc & _ & Hm & _ & Hg).
  destruct (updated_capacity (bump_version upd) req AddCapacity) as [|upd'] eqn:E'; [done|].
  destruct (add_capacity_inv _ _ _ E') as (Hi' & Hv' & Hc' & Hm' & Hg'). clear E E'.
  exists upd'. split; [done|].
  apply worker_ext; unfold same_identity, bump_version, bump_twice in *; simpl in *.
  - intuition congruence.
  - rewrite Hc', Hc, wrap_i_add_l, Z.sub_add. by apply wrap_i_id.
  - rewrite Hm', Hm, wrap_i_add_l, Z.sub_add. by apply wrap_i_id.
  - rewrite Hg', Hg. case_match; [done|]. rewrite wrap_u_add_l, Z.sub_add. by apply wrap_u_id.
  - rewrite Hv', Hv, wrap_i_add_l. f_equal. lia.
Qed.

Definition remove_then_add (w : Worker) (req : ContainerRequest) : M Worker :=
  UpdateWorkerCapacity w req RemoveCapacity ;;
  w1 <- GetWorkerById (w_Id w) ;;
  UpdateWorkerCapacity w1 req AddCapacity ;;
  GetWorkerById (w_Id w).

Lemma rwp_remove_then_add w req d L upd :
  (forall x, CopyStruct x = inr x) ->
  kv d !! SchedulerWorkerLock (w_Id w) = None -> holds d (w_Id w) w ->
  updated_capacity w req RemoveCapacity = inr upd ->
  rwp (remove_then_add w req) (λ r d' _, r = inr (bump_twice w) /\ holds d' (w_Id w) (bump_twice w)) d L.
Proof.
  intros Hcp Hl Hh Hu.
  destruct (add_after_remove w req upd) as (upd' & Hu' & Hv'); [by eapply stored_ok, Hh|done|].
  assert (w_Id (bump_version upd) = w_Id w) as Hid by apply (remove_capacity_inv _ _ _ Hu).
  unfold remove_then_add. wp_bind.
  eapply wp_mono; [|eapply rwp_UpdateWorkerCapacity; try done; apply Hh].
  intros r1 d1 L1 [[-> Hh1] Hl1]. wp_bind.
  eapply wp_mono; [|by apply rwp_GetWorkerById]. intros r2 d2 L2 [[-> Hh2] Hl2]. wp_bind.
  rewrite <- Hid in Hh2, Hl2.
  eapply wp_mono; [|eapply rwp_UpdateWorkerCapacity; try done; apply Hh2].
  rewrite Hid, Hv'. intros r3 d3 L3 [[-> Hh3] Hl3].
  eapply wp_mono; [|by apply rwp_GetWorkerById]. by intros r4 d4 L4 [[-> ?] _].
Qed.

Lemma wrap_i_sub_nonneg a b :
  in_i64 a -> 0 <= a -> in_i64 b -> 0 <= b -> wrap_i64 (a - b) = a - b.
Proof. unfold in_i. intros. apply wrap_i_id; unfold in_i; lia. Qed.

(** CPU and memory that fit are enough for a removal. *)
Lemma remove_capacity_fits w req :
  worker_ok w -> in_i64 (cr_Cpu req) -> 0 <= cr_Cpu req <= w_FreeCpu w ->
  in_i64 (cr_Memory req) -> 0 <= cr_Memory req <= w_FreeMemory w ->
  exists upd, updated_capacity w req RemoveCapacity = inr upd.
Proof.
  intros (_ & _ & _ & Oc & Om & Og & _) Hc Hc0 Hm Hm0. unfold updated_capacity.
  assert (wrap_i64 (w_FreeCpu w - cr_Cpu req) <? 0 = false) as E1.
  { apply Z.ltb_ge. rewrite wrap_i_sub_nonneg; [lia|done|lia|done|lia]. }
  assert (wrap_i64 (w_FreeMemory w - cr_Memory req) <? 0 = false) as E2.
  { apply Z.ltb_ge. rewrite wrap_i_sub_nonneg; [lia|done|lia|done|lia]. }
  assert (wrap_u32 (w_FreeGpuCount w - cr_GpuCount req) <? 0 = false) as E3.
  { apply Z.ltb_ge, wrap_u_range. lia. }
  assert (w_FreeGpuCount w <? 0 = false) as E4 by (apply Z.ltb_ge, Og).
  destruct (String.eqb (cr_Gpu req) ""); simpl; rewrite E1, E2, ?E3, ?E4; eauto.
Qed.

(** The worker has the CPU and the memory of the request, or gets them back. *)
Definition room_for (t : CapacityUpdateType) (req : ContainerRequest) (w : Worker) : Prop :=
  match t with
  | AddCapacity => True
  | RemoveCapacity => 0 <= cr_Cpu req <= w_FreeCpu w /\ 0 <= cr_Memory req <= w_FreeMemory w
  | InvalidCapacityUpdate _ => False
  end.

Lemma room_updated t req w :
  worker_ok w -> room_for t req w -> exists upd, updated_capacity w req t = inr upd.
Proof.
  intros Hok Hf. destruct t; simpl in Hf; [by eexists| |done]. destruct Hf as [Hc Hm].
  pose proof Hok as (_ & _ & _ & Oc & Om & _). unfold in_i in *.
  apply remove_capacity_fits; unfold in_i; (done || lia).
Qed.

(** Two requests placed one after the other from the same snapshot of a worker. *)
Definition schedule_twice (worker : Worker) (r1 r2 : ContainerRequest)
  : prog ((gerr + unit) * (gerr + unit)) :=
  x <~ ScheduleContainerRequest worker r1 ;;
  y <~ ScheduleContainerRequest worker r2 ;;
  Ret (x, y).

Lemma wrap_i_succ_ne bits v : 1 < bits -> in_i bits v -> wrap_i bits (v + 1) <> v.
Proof.
  unfold in_i, wrap_i. intros Hb Hv E.
  assert (2 ^ bits = 2 * 2 ^ (bits - 1)) as Ep.
  { rewrite <- Z.pow_succ_r by lia. f_equal. lia. }
  assert (1 < 2 ^ (bits - 1)) as H1 by (apply Z.pow_gt_1; lia).
  destruct (Z.lt_ge_cases (v + 1) (2 ^ (bits - 1))).
  - rewrite Z.mod_small in E; lia.
  - assert (v + 1 + 2 ^ (bits - 1) = 2 ^ bits) as Ev by lia.
    rewrite Ev, Z.mod_same in E; lia.
Qed.

Lemma applied_versions worker req t d d' :
  capacity_applied worker req t d d' ->
  exists w, stored d' (w_Id worker) = Some w /\ w_ResourceVersion w <> w_ResourceVersion worker.
Proof.
  intros (cur & new & Hst & Hv & (_ & Hv' & _) & Hst'). exists new. split; [done|].
  destruct (stored_ok _ _ _ Hst) as [Hok _]. rewrite Hv', <- Hv.
  apply wrap_i_succ_ne; [lia|]. unfold worker_ok in Hok. tauto.
Qed.

Lemma wp_schedule_twice worker r1 r2 d L :
  wp (schedule_twice worker r1 r2) (λ xy _ _, ~ (xy.1 = inr tt /\ xy.2 = inr tt)) d L.
Proof using Type MSL.
  unfold schedule_twice. wp_bind. eapply wp_mono; [|apply wp_ScheduleContainerRequest].
  intros x d1 L1 Hx. wp_bind. eapply wp_mono; [|apply wp_ScheduleContainerRequest].
  intros y d2 L2 Hy [Ex Ey]. simpl in *. subst.
  destruct Hx as [_ [Hx _]], Hy as [_ [Hy _]].
  destruct (applied_versions _ _ _ _ _ Hx) as (w & Hw & Hne).
  destruct Hy as (cur & _ & Hc & Hv & _). congruence.
Qed.

(** Resource usage structs flatten to nothing, so the HSET has no fields. *)
Lemma wp_SetContainerResourceValues id cid u d L :
  wp (SetContainerResourceValues id cid u) (λ r d' _, (exists e, r = inl e) /\ d' = d) d L.
Proof.
  unfold SetContainerResourceValues. wp_bind. wp_call.
  - by destruct H as (h & Hne & _).
  - destruct H as [->|(r & h & Hne & _)]; [eauto|done].
Qed.

(** ** The queue refines a FIFO of requests *)

Inductive qop := QSchedule (worker : Worker) (req : ContainerRequest) | QNext.

Definition queue_op (id : string) (op : qop) : M (option ContainerRequest) :=
  match op with
  | QSchedule worker req => ScheduleContainerRequest worker req ;; ok None
  | QNext => GetNextContainerRequest id
  end.

Fixpoint queue_ops (id : string) (ops : list qop) : prog (list (gerr + option ContainerRequest)) :=
  match ops with
  | [] => Ret []
  | op :: ops' => r <~ queue_op id op ;; rs <~ queue_ops id ops' ;; Ret (r :: rs)
  end.

(** The abstract queue: requests leave in the order they came; an operation that
    reports an error either did nothing or did what it was asked. *)
Inductive fifo_step : list ContainerRequest -> qop -> gerr + option ContainerRequest ->
    list ContainerRequest -> Prop :=
| fifo_schedule rs w r : fifo_step rs (QSchedule w r) (inr None) (rs ++ [r])%list
| fifo_schedule_not rs w r e : fifo_step rs (QSchedule w r) (inl e) rs
| fifo_schedule_lost rs w r e : fifo_step rs (QSchedule w r) (inl e) (rs ++ [r])%list
| fifo_empty : fifo_step [] QNext (inr None) []
| fifo_next r r' rs : same_request r r' -> fifo_step (r :: rs) QNext (inr (Some r')) rs
| fifo_next_not rs e : fifo_step rs QNext (inl e) rs
| fifo_next_lost r rs e : fifo_step (r :: rs) QNext (inl (ERedis e)) rs.

Inductive fifo_trace : list ContainerRequest -> list qop -> list (gerr + option ContainerRequest) ->
    list ContainerRequest -> Prop :=
| fifo_nil rs : fifo_trace rs [] [] rs
| fifo_cons rs op x rs1 ops xs rs2 :
    fifo_step rs op x rs1 -> fifo_trace rs1 ops xs rs2 -> fifo_trace rs (op :: ops) (x :: xs) rs2.

Definition op_ok (id : string) (op : qop) : Prop :=
  match op with QSchedule w r => w_Id w = id /\ request_ascii r = true | QNext => True end.

(** The stored queue holds the JSON of the abstract one. *)
Definition queue_rel (d : rdb) (id : string) (rs : list ContainerRequest) : Prop :=
  exists l, queue d id = Some l /\
    Forall2 (λ r json, marshalRequest r = inr json /\ request_ascii r = true) rs l.

Lemma queue_rel_eq d d' id rs : queue d' id = queue d id -> queue_rel d id rs -> queue_rel d' id rs.
Proof. intros E (l & Hl & HF). exists l. by rewrite E. Qed.

Lemma queue_rel_enqueued d d' id rs r :
  request_ascii r = true -> enqueued id r d d' -> queue_rel d id rs -> queue_rel d' id (rs ++ [r])%list.
Proof.
  intros Ha (json & l & Hj & Hl & Hl') (l' & Hl1 & HF). rewrite Hl in Hl1. injection Hl1 as <-.
  exists (l ++ [json])%list. split; [done|]. apply Forall2_app; [done|]. by repeat constructor.
Qed.

Lemma queue_rel_cons d id json l rs :
  queue d id = Some (json :: l) -> queue_rel d id rs ->
  exists r rs', rs = r :: rs' /\ marshalRequest r = inr json /\ request_ascii r = true /\
    forall d', queue d' id = Some l -> queue_rel d' id rs'.
Proof.
  intros Hq (l' & Hl & HF). rewrite Hq in Hl. injection Hl as <-.
  inversion HF as [|r j rs' l' [Hj Ha] HF']; subst. exists r, rs'. repeat split; try done.
  intros d' Hd'. by exists l.
Qed.

Lemma wp_queue_op `{JL : !JsonLaws JSON} id op rs d L :
  op_ok id op -> queue_rel d id rs ->
  wp (queue_op id op) (λ x d' _, exists rs', fifo_step rs op x rs' /\ queue_rel d' id rs') d L.
Proof using Type MSL.
  intros Hop Hq. destruct op as [w r|]; simpl.
  - destruct Hop as [<- Ha]. wp_bind. eapply wp_mono; [|apply wp_ScheduleContainerRequest].
    intros [e|[]] d1 L1 [_ H]; cbn beta iota.
    + destruct H as [[H _]|[_ H]].
      * exists rs. split; [constructor|by eapply queue_rel_eq].
      * eexists. split; [apply fifo_schedule_lost|by eapply queue_rel_enqueued].
    + destruct H as [_ H]. eexists. split; [constructor|]. by eapply queue_rel_enqueued.
  - eapply wp_mono; [|apply wp_GetNextContainerRequest].
    intros [e|[req|]] d1 L1 [_ H]; cbn beta iota in *.
    + destruct H as [H|(json & l & H & H' & He)].
      { exists rs. split; [constructor|by eapply queue_rel_eq]. }
      destruct (queue_rel_cons _ _ _ _ _ H Hq) as (r & rs' & -> & Hj & Ha & Hrs').
      destruct He as [[e' ->]|He]; [exists rs'; split; [constructor|by apply Hrs']|].
      destruct (json_roundtrip _ _ Ha Hj) as (r' & Hr' & _). congruence.
    + destruct H as (json & l & Hu & H & H').
      destruct (queue_rel_cons _ _ _ _ _ H Hq) as (r & rs' & -> & Hj & Ha & Hrs').
      exists rs'. split; [|by apply Hrs']. constructor.
      destruct (json_roundtrip _ _ Ha Hj) as (r' & Hr' & Hs). congruence.
    + destruct H as [H H']. destruct Hq as (l & Hl & HF). rewrite H in Hl. injection Hl as <-.
      inversion HF; subst. exists []. split; [constructor|]. by exists [].
Qed.

Lemma wp_queue_ops `{JL : !JsonLaws JSON} id ops rs d L :
  Forall (op_ok id) ops -> queue_rel d id rs ->
  wp (queue_ops id ops) (λ xs d' _, exists rs', fifo_trace rs ops xs rs' /\ queue_rel d' id rs') d L.
Proof using Type MSL.
  revert rs d L. induction ops as [|op ops IH]; intros rs d L Hops Hq.
  - exists rs. split; [constructor|done].
  - apply Forall_cons in Hops as [Hop Hops]. simpl. wp_bind.
    eapply wp_mono; [|by apply wp_queue_op]. intros x d1 L1 (rs1 & Hs & Hq1). wp_bind.
    eapply wp_mono; [|by apply IH]. intros xs d2 L2 (rs2 & Ht & Hq2).
    exists rs2. split; [by econstructor|done].
Qed.
End worker_spec.
