(* ===== verification/WorkerProps.v ===== *)
(** * Theorems on the worker repository

    Stated for the program run on any server that meets [RedisLaws]; the
    theorems that promise a result are stated for a reliable one. *)

From S2P Require Import Prelude GoStd Redis Keys Types Codec Lock Env WorkerRepo Samples.
From S2P Require Import WorkerSpec.

Local Open Scope Z_scope.
Set Default Proof Using "Type".

Section worker_props.
Context {FMT : GoFmt} {MS : Mapstructure} {JSON : JsonRequests}.
Context {MSL : MapstructureLaws MS} {JL : JsonLaws JSON}.
Context {S : RedisServer} {SL : RedisLaws S}.

(** C1. [UpdateWorkerCapacity] on any lawful server, faults included.  It touches
    the worker's state and lock keys only.  When it returns nil the stored worker
    had the caller's resource version, and the new one has its version increased by one,
    its free CPU and memory (and GPUs, when the request names a GPU type) decreased or
    increased by the amounts of the request in 64-bit and 32-bit arithmetic, CPU and
    memory not negative after a decrease, and every other field as before.  When it
    returns an error the stored worker is unchanged, except that the write itself
    may have happened if its reply was lost. *)
Theorem UpdateWorkerCapacity_effect worker req t (s : srv) L :
  ends (UpdateWorkerCapacity worker req t) s L (capacity_post worker req t (view s)).
Proof using Type MSL SL. apply ends_wp, wp_UpdateWorkerCapacity. Qed.

(** C39. A capacity update that fits is not refused: on a server that does not fail, with the
    worker's lock free, a worker that can be copied, and the current resource version, a
    request whose non-negative CPU and memory the worker has free is taken, and one that
    is given back always is: the call returns nil and the worker is stored with the
    amounts of the request moved.  (The GPU count is not asked for: the code's test of it
    never fires.) *)
Theorem UpdateWorkerCapacity_succeeds I worker req t cur (s : srv) L :
  reliable I -> I s ->
  kv (view s) !! SchedulerWorkerLock (w_Id worker) = None ->
  stored (view s) (w_Id worker) = Some cur -> CopyStruct cur = inr cur ->
  w_ResourceVersion cur = w_ResourceVersion worker -> room_for t req cur ->
  ends (UpdateWorkerCapacity worker req t) s L
    (λ r d', r = inr tt /\ exists new, stored d' (w_Id worker) = Some new /\ moved t req cur new).
Proof using Type SL.
  intros HR HI Hl Hst Hcp Hv Hf. apply (ends_rwp I); [done..|].
  destruct (stored_ok _ _ _ Hst) as [Hok _]. destruct (room_updated t req cur Hok Hf) as [upd Hu].
  eapply wp_mono; [|by eapply rwp_UpdateWorkerCapacity]. intros r d L' [[-> [Hw _]] _]. split; [done|].
  exists (bump_version upd). split; [done|]. by apply updated_moved.
Qed.

(** C2. No overcommitment of CPU and memory: when a request with non-negative
    64-bit amounts is placed on a worker whose stored free amounts are not
    negative, the worker had that much free, exactly that much is taken (no
    wrap-around), and what is left is not negative. *)
Theorem ScheduleContainerRequest_no_overcommit worker req (s : srv) L :
  in_i64 (cr_Cpu req) -> 0 <= cr_Cpu req -> in_i64 (cr_Memory req) -> 0 <= cr_Memory req ->
  (forall w, stored (view s) (w_Id worker) = Some w -> 0 <= w_FreeCpu w /\ 0 <= w_FreeMemory w) ->
  ends (ScheduleContainerRequest worker req) s L (λ r d',
    r = inr tt -> exists w w',
      stored (view s) (w_Id worker) = Some w /\ stored d' (w_Id worker) = Some w' /\
      w_ResourceVersion w = w_ResourceVersion worker /\
      cr_Cpu req <= w_FreeCpu w /\ w_FreeCpu w' = w_FreeCpu w - cr_Cpu req /\
      cr_Memory req <= w_FreeMemory w /\ w_FreeMemory w' = w_FreeMemory w - cr_Memory req).
Proof using Type MSL SL.
  intros Hc Hc0 Hm Hm0 Hinv. apply ends_wp.
  eapply wp_mono; [|apply wp_ScheduleContainerRequest].
  intros r d' _ [_ H] ->. destruct H as [(w & new & Hst & Hv & (_ & _ & Ec & Gc & Em & Gm & _) & Hst') _].
  destruct (stored_ok _ _ _ Hst) as [Hok _]. destruct (Hinv w Hst) as [H1 H2].
  destruct Hok as (_ & _ & _ & Oc & Om & _).
  rewrite wrap_i_sub_nonneg in Ec, Em by done.
  exists w, new. repeat split; try done; lia.
Qed.

(** The GPU count is not protected: the guard [FreeGpuCount < 0] of an unsigned
    field never fires.  On a reliable server a request that fits the worker's CPU
    and memory is accepted whatever its GPU count, and the free count wraps
    around. *)
Theorem gpu_guard_ineffective I worker cur req (s : srv) L :
  (forall w, CopyStruct w = inr w) -> reliable I -> I s ->
  kv (view s) !! SchedulerWorkerLock (w_Id worker) = None ->
  stored (view s) (w_Id worker) = Some cur -> w_ResourceVersion cur = w_ResourceVersion worker ->
  cr_Gpu req <> "" -> in_i64 (cr_Cpu req) -> 0 <= cr_Cpu req <= w_FreeCpu cur ->
  in_i64 (cr_Memory req) -> 0 <= cr_Memory req <= w_FreeMemory cur ->
  ends (UpdateWorkerCapacity worker req RemoveCapacity) s L (λ r d',
    r = inr tt /\ exists w', stored d' (w_Id worker) = Some w' /\
      w_FreeGpuCount w' = wrap_u32 (w_FreeGpuCount cur - cr_GpuCount req)).
Proof using Type SL.
  intros Hcp HR HI Hl Hst Hv Hg Hc Hc0 Hm Hm0. apply (ends_rwp I); [done..|].
  destruct (stored_ok _ _ _ Hst) as [Hok _].
  destruct (remove_capacity_fits cur req) as [upd Hu]; [done..|].
  eapply wp_mono; [|by eapply rwp_UpdateWorkerCapacity].
  intros r d L' [[-> [Hw _]] _]. split; [done|]. exists (bump_version upd). split; [done|].
  destruct (remove_capacity_inv _ _ _ Hu) as (_ & _ & _ & _ & _ & _ & Eg).
  apply String.eqb_neq in Hg. by rewrite Hg in Eg.
Qed.

(** Optimistic concurrency: of two requests placed from the same snapshot of a
    worker at most one is accepted, whatever the server answers. *)
Theorem same_snapshot_scheduled_once worker r1 r2 (s : srv) L :
  ends (schedule_twice worker r1 r2) s L (λ xy _, ~ (xy.1 = inr tt /\ xy.2 = inr tt)).
Proof using Type MSL SL. apply ends_wp, wp_schedule_twice. Qed.

(** Giving a request's capacity back restores the worker: on a reliable server,
    removing and then adding the same request leaves exactly the worker there was,
    two versions later. *)
Theorem remove_then_add_restores I w req upd (s : srv) L :
  (forall x, CopyStruct x = inr x) -> reliable I -> I s ->
  kv (view s) !! SchedulerWorkerLock (w_Id w) = None -> holds (view s) (w_Id w) w ->
  updated_capacity w req RemoveCapacity = inr upd ->
  ends (remove_then_add w req) s L (λ r d',
    r = inr (bump_twice w) /\ holds d' (w_Id w) (bump_twice w)).
Proof using Type SL.
  intros Hcp HR HI Hl Hh Hu. apply (ends_rwp I); [done..|]. by eapply rwp_remove_then_add.
Qed.

(** C13. The request queue of a worker refines a FIFO: any sequence of
    [ScheduleContainerRequest] and [GetNextContainerRequest] calls on a worker
    returns the queued requests in order, each at most once, with the same
    fields; a call that reports an error did nothing or did what it was asked. *)
Theorem request_queue_refines_fifo id ops rs (s : srv) L :
  Forall (op_ok id) ops -> queue_rel (view s) id rs ->
  ends (queue_ops id ops) s L (λ xs d',
    exists rs', fifo_trace rs ops xs rs' /\ queue_rel d' id rs').
Proof using Type MSL JL SL. intros Hops Hq. apply ends_wp. by apply wp_queue_ops. Qed.

(** A worker added on a reliable server is read back by [GetWorkerById] with
    all its fields (resource version 0, active containers apart). *)
Theorem AddWorker_GetWorkerById I config w (s : srv) L :
  reliable I -> I s -> worker_ok w -> 0 < wc_CleanupPendingWorkerAgeLimit config ->
  kv (view s) !! SchedulerWorkerLock (w_Id w) = None ->
  is_Some (as_set (kv (view s) !! SchedulerWorkerIndex)) ->
  is_Some (as_hash (kv (view s) !! SchedulerWorkerState (w_Id w))) ->
  ends (AddWorker config w ;; GetWorkerById (w_Id w)) s L (λ r _, r = inr (added w)).
Proof using Type SL.
  intros HR HI Hok Hage Hl HX Hh. apply (ends_rwp I); [done..|]. by apply rwp_AddWorker_GetWorkerById.
Qed.

(** [RemoveWorker] touches the worker's own keys and the index only; when it
    returns nil the worker existed and no trace of it is left (state, index entry,
    queued requests); it reports the worker as not found only when it is. *)
Theorem RemoveWorker_effect id (s : srv) L :
  ends (RemoveWorker id) s L (remove_post id (view s)).
Proof using Type SL. apply ends_wp, wp_RemoveWorker. Qed.

(** [SetContainerResourceValues] fails on every server and writes nothing: the
    usage struct has no redis tags, so its HSET has no fields. *)
Theorem SetContainerResourceValues_never_succeeds workerId containerId usage (s : srv) L :
  ends (SetContainerResourceValues workerId containerId usage) s L (λ r d',
    (exists e, r = inl e) /\ d' = view s).
Proof using Type SL. apply ends_wp, wp_SetContainerResourceValues. Qed.
End worker_props.

(** The program on the reference server, started on [ex_db]. *)
Abbreviation ex_run p := (run (S := ref_server) p (on ex_db) ∅).
Abbreviation ex_ends p Q := (ends (S := ref_server) p (on ex_db) ∅ Q).
Abbreviation ex_update := (UpdateWorkerCapacity (FMT := plain_fmt) (MS := copy_struct)).

Lemma UpdateWorkerCapacity_effect_witness :
  let req := ex_request "c1" 1000 2000 "A10G" 1 in
  ex_ends (ex_update ex_worker req RemoveCapacity)
    (capacity_post (FMT := plain_fmt) ex_worker req RemoveCapacity ex_db) /\
  (ex_run (ex_update ex_worker req RemoveCapacity)).1.1 = inr tt.
Proof.
  split; [|vm_compute; reflexivity].
  exact (UpdateWorkerCapacity_effect (MSL := copy_struct_laws) ex_worker _ _ (on ex_db) ∅).
Defined.

Lemma UpdateWorkerCapacity_succeeds_witness :
  let req := ex_request "c1" 1000 2000 "A10G" 1 in
  ex_ends (ex_update ex_worker req RemoveCapacity)
    (λ r d', r = inr tt /\ exists new, stored (FMT := plain_fmt) d' "w1" = Some new /\
       moved RemoveCapacity req ex_worker new).
Proof.
  refine (UpdateWorkerCapacity_succeeds _ ex_worker _ _ ex_worker (on ex_db) ∅
    ref_reliable _ _ _ _ _ _); vm_compute; intuition congruence.
Defined.

Lemma ScheduleContainerRequest_no_overcommit_witness :
  let req := ex_request "c1" 1000 2000 "A10G" 1 in
  let p := ScheduleContainerRequest (FMT := plain_fmt) (MS := copy_struct) (JSON := bits_json)
             ex_worker req in
  ex_ends p (λ r d', r = inr tt -> exists w w',
      stored (FMT := plain_fmt) ex_db "w1" = Some w /\ stored (FMT := plain_fmt) d' "w1" = Some w' /\
      w_ResourceVersion w = 0 /\
      1000 <= w_FreeCpu w /\ w_FreeCpu w' = w_FreeCpu w - 1000 /\
      2000 <= w_FreeMemory w /\ w_FreeMemory w' = w_FreeMemory w - 2000) /\
  (ex_run p).1.1 = inr tt.
Proof.
  split; [|vm_compute; reflexivity].
  apply (ScheduleContainerRequest_no_overcommit (S := ref_server) (MSL := copy_struct_laws) ex_worker
    (ex_request "c1" 1000 2000 "A10G" 1) (on ex_db) ∅); try (vm_compute; intuition congruence).
  intros w. vm_compute. intros [= <-]. split; discriminate.
Defined.

(** [ex_worker] has two free GPUs; a request for three is accepted. *)
Lemma gpu_guard_ineffective_witness :
  ex_ends (ex_update ex_worker (ex_request "c1" 1000 2000 "A10G" 3) RemoveCapacity) (λ r d',
    r = inr tt /\ exists w', stored (FMT := plain_fmt) d' "w1" = Some w' /\
      w_FreeGpuCount w' = 4294967295).
Proof.
  apply (gpu_guard_ineffective (FMT := plain_fmt) (MS := copy_struct) (S := ref_server) _ ex_worker
    ex_worker (ex_request "c1" 1000 2000 "A10G" 3) (on ex_db) ∅ (λ w, eq_refl) ref_reliable);
    vm_compute; intuition congruence.
Defined.

Lemma same_snapshot_scheduled_once_witness :
  let p := schedule_twice (FMT := plain_fmt) (MS := copy_struct) (JSON := bits_json) ex_worker
             (ex_request "c1" 1000 2000 "" 0) (ex_request "c2" 1000 2000 "" 0) in
  ex_ends p (λ xy _, ~ (xy.1 = inr tt /\ xy.2 = inr tt)) /\
  (ex_run p).1.1 = (inr tt, inl (EMsg "invalid worker resource version")).
Proof.
  split; [|vm_compute; reflexivity].
  exact (same_snapshot_scheduled_once (MSL := copy_struct_laws) ex_worker _ _ (on ex_db) ∅).
Defined.

Lemma ex_db_holds : holds (FMT := plain_fmt) ex_db "w1" ex_worker.
Proof. split; [vm_compute; reflexivity|]. apply (bool_decide_unpack _). vm_compute. exact I. Qed.

Lemma remove_then_add_restores_witness :
  ex_ends (remove_then_add (FMT := plain_fmt) (MS := copy_struct) ex_worker
             (ex_request "c1" 1000 2000 "A10G" 1)) (λ r d',
    r = inr (bump_twice ex_worker) /\ holds (FMT := plain_fmt) d' "w1" (bump_twice ex_worker)).
Proof.
  assert (updated_capacity ex_worker (ex_request "c1" 1000 2000 "A10G" 1) RemoveCapacity =
    inr (set_w_FreeGpuCount 1 (set_w_FreeMemory 14000 (set_w_FreeCpu 7000 ex_worker)))) as Hu
    by (vm_compute; reflexivity).
  assert (kv ex_db !! SchedulerWorkerLock "w1" = None) as Hl by (vm_compute; reflexivity).
  exact (remove_then_add_restores (MS := copy_struct) (S := ref_server)
    _ ex_worker _ _ (on ex_db) ∅ (λ w, eq_refl) ref_reliable eq_refl Hl ex_db_holds Hu).
Defined.

Lemma request_queue_refines_fifo_witness :
  let ops := [QSchedule ex_worker (ex_request "c1" 1000 2000 "" 0); QNext; QNext] in
  ex_ends (queue_ops (FMT := plain_fmt) (MS := copy_struct) (JSON := bits_json) "w1" ops) (λ xs d',
    exists rs', fifo_trace [] ops xs rs' /\ queue_rel (JSON := bits_json) d' "w1" rs').
Proof.
  apply (request_queue_refines_fifo (S := ref_server) (MSL := copy_struct_laws) (JL := bits_json_laws) "w1" _ []
    (on ex_db) ∅).
  - repeat constructor.
  - exists []. split; [vm_compute; reflexivity|constructor].
Defined.

Lemma AddWorker_GetWorkerById_witness :
  ends (S := ref_server)
    (AddWorker (FMT := plain_fmt) ex_config ex_worker ;; GetWorkerById (FMT := plain_fmt) "w1")
    (on empty_rdb) ∅ (λ r _, r = inr (added ex_worker)).
Proof.
  apply (AddWorker_GetWorkerById (S := ref_server) _ ex_config ex_worker (on empty_rdb) ∅ ref_reliable);
    [reflexivity|vm_compute; intuition congruence|reflexivity|vm_compute; reflexivity
    |eexists; reflexivity|eexists; reflexivity].
Defined.

Lemma RemoveWorker_effect_witness :
  ex_ends (RemoveWorker "w1") (remove_post "w1" ex_db) /\ (ex_run (RemoveWorker "w1")).1.1 = inr tt.
Proof.
  split; [|vm_compute; reflexivity]. exact (RemoveWorker_effect "w1" (on ex_db) ∅).
Defined.

Lemma SetContainerResourceValues_never_succeeds_witness :
  let p := SetContainerResourceValues "w1" "c1" (mkContainerResourceUsage "c1" 1 2 3 4 "A10G") in
  ex_ends p (λ r d', (exists e, r = inl e) /\ d' = ex_db).
Proof. exact (SetContainerResourceValues_never_succeeds "w1" "c1" _ (on ex_db) ∅). Defined.
