(* ===== verification/SchedulerSpec.v ===== *)
(** * What the scheduler guarantees *)

From Stdlib Require Import Sorting.Sorted.
From S2P Require Import Prelude GoStd Redis Keys Types Codec Lock Env WorkerRepo ContainerRepo.
From S2P Require Import WorkspaceRepo Backlog PoolManager Scheduler WorkerSpec.

Local Open Scope Z_scope.
Set Default Proof Using "Type".

(** ** Choosing a worker *)

(** A worker a request may run on, from the documentation of the filters. *)
Record suitable (request : ContainerRequest) (w : Worker) : Prop := {
  su_pool : if String.eqb (cr_PoolSelector request) "" then w_RequiresPoolSelector w = false
            else w_PoolName w = cr_PoolSelector request;
  su_cpu : cr_Cpu request <= w_FreeCpu w;
  su_memory : cr_Memory request <= w_FreeMemory w;
  su_status : w_Status w <> WorkerStatusDisabled;
  su_gpu : if RequiresGPU request
           then w_Gpu w <> "" /\ is_Some (gpu_requests_map request !! w_Gpu w) /\
                cr_GpuCount request <= w_FreeGpuCount w
           else w_Gpu w = "";
  su_preemptable : w_Preemptable w = true -> cr_Preemptable request = true;
  su_runtime : cr_DockerEnabled request = true -> w_Runtime w = ContainerRuntimeGvisor;
}.

(** The worker as the scheduler scores it: the position of its GPU in the request
    is subtracted from its priority. *)
Definition adjusted (request : ContainerRequest) (w : Worker) : Worker :=
  if RequiresGPU request then
    set_w_Priority (wrap_i32 (w_Priority w - wrap_i32 (default 0 (gpu_requests_map request !! w_Gpu w)))) w
  else w.

Lemma resource_fit_spec request w w' :
  resource_fit request w = Some w' <->
  w' = adjusted request w /\ cr_Cpu request <= w_FreeCpu w /\ cr_Memory request <= w_FreeMemory w /\
  w_Status w <> WorkerStatusDisabled /\
  (if RequiresGPU request
   then w_Gpu w <> "" /\ is_Some (gpu_requests_map request !! w_Gpu w) /\
        cr_GpuCount request <= w_FreeGpuCount w
   else w_Gpu w = "").
Proof.
  unfold resource_fit, adjusted.
  destruct (Z.ltb_spec (w_FreeCpu w) (cr_Cpu request)); simpl; [split; [done|lia]|].
  destruct (Z.ltb_spec (w_FreeMemory w) (cr_Memory request)); simpl; [split; [done|lia]|].
  destruct (String.eqb_spec (w_Status w) WorkerStatusDisabled); [split; naive_solver|].
  destruct (RequiresGPU request); simpl.
  - destruct (String.eqb_spec (w_Gpu w) ""); simpl; [split; naive_solver|].
    destruct (gpu_requests_map request !! w_Gpu w) as [p|] eqn:E; simpl.
    + destruct (Z.ltb_spec (w_FreeGpuCount w) (cr_GpuCount request)); split;
        try done; try lia; naive_solver.
    + split; [done|]. intros (_ & _ & _ & _ & _ & [? ?] & _). done.
  - destruct (String.eqb_spec (w_Gpu w) ""); simpl; split; naive_solver.
Qed.

Lemma adjusted_fields request w :
  w_PoolName (adjusted request w) = w_PoolName w /\ w_Preemptable (adjusted request w) = w_Preemptable w /\
  w_Runtime (adjusted request w) = w_Runtime w /\ w_Id (adjusted request w) = w_Id w /\
  w_Gpu (adjusted request w) = w_Gpu w /\ w_ResourceVersion (adjusted request w) = w_ResourceVersion w.
Proof. unfold adjusted. by destruct (RequiresGPU request). Qed.

(** The workers left by the three filters. *)
Definition candidates (workers : list Worker) (request : ContainerRequest) : list Worker :=
  filterWorkersByFlags (filterWorkersByResources (filterWorkersByPoolSelector workers request) request) request.

Lemma candidates_spec workers request w' :
  w' ∈ candidates workers request <->
  exists w, w ∈ workers /\ suitable request w /\ w' = adjusted request w.
Proof.
  unfold candidates, filterWorkersByFlags, filterWorkersByResources, filterWorkersByPoolSelector.
  rewrite list_elem_of_In, filter_In, <- list_elem_of_In, list_elem_of_omap.
  setoid_rewrite list_elem_of_In at 1. setoid_rewrite filter_In.
  setoid_rewrite <- list_elem_of_In. setoid_rewrite resource_fit_spec. split.
  - intros [(w & [Hin Hp] & -> & Hc & Hm & Hs & Hg) Hf]. exists w. split; [done|]. split; [|done].
    destruct (adjusted_fields request w) as (_ & Ep & Er & _). rewrite Ep, Er in Hf.
    split; try done.
    + destruct (String.eqb (cr_PoolSelector request) ""); simpl in Hp.
      * by destruct (w_RequiresPoolSelector w).
      * rewrite orb_false_r in Hp. by apply String.eqb_eq.
    + intros E. rewrite E in Hf. by destruct (cr_Preemptable request).
    + intros E. rewrite E in Hf. destruct (String.eqb_spec (w_Runtime w) ContainerRuntimeGvisor); [done|].
      simpl in Hf. by destruct (negb (cr_Preemptable request) && w_Preemptable w).
  - intros (w & Hin & [Hp Hc Hm Hs Hg Hpre Hrt] & ->). split; [exists w; split_and!; try done|].
    + destruct (String.eqb_spec (cr_PoolSelector request) "") as [_|Hne]; simpl.
      * by rewrite Hp.
      * rewrite orb_false_r. by apply String.eqb_eq.
    + destruct (adjusted_fields request w) as (_ & -> & -> & _).
      destruct (cr_Preemptable request) eqn:E1, (w_Preemptable w) eqn:E2; simpl;
        try (by specialize (Hpre eq_refl));
        (destruct (cr_DockerEnabled request); [|done]; simpl; by rewrite (Hrt eq_refl)).
Qed.

(** The choice: among the suitable workers one with the highest score. *)
Lemma pick_worker_spec `{SORT : SortSlice, SL : !SortLaws SORT} workers request :
  match pick_worker workers request with
  | inr w' => exists w, w ∈ workers /\ suitable request w /\ w' = adjusted request w /\
      forall v, v ∈ workers -> suitable request v ->
        worker_score (adjusted request v) <= worker_score w'
  | inl e => e = ENoSuitableWorkerFound /\ forall w, w ∈ workers -> ~ suitable request w
  end.
Proof.
  unfold pick_worker. fold (candidates workers request).
  pose proof (candidates_spec workers request) as Hc.
  destruct (candidates workers request) as [|c cs] eqn:E.
  { split; [done|]. intros w Hin Hs. apply (not_elem_of_nil (adjusted request w)), Hc. eauto. }
  set (less := λ a b : Worker * Z, b.2 <? a.2).
  assert (strict_weak less) as Hsw
    by (unfold less; split; intros *; rewrite ?Z.ltb_lt, ?Z.ltb_ge; lia).
  pose proof (sort_slice_perm _ less (map (λ w, (w, worker_score w)) (c :: cs))) as Hp.
  pose proof (sort_slice_sorted _ less (map (λ w, (w, worker_score w)) (c :: cs)) Hsw) as Hsort.
  destruct (sort_slice less _) as [|[w' s'] rest]; [by apply Permutation_nil_l in Hp|].
  assert (forall x, x ∈ (w', s') :: rest <-> exists v, x = (v, worker_score v) /\ v ∈ c :: cs) as Hx.
  { intros x. rewrite Hp, list_elem_of_fmap. naive_solver. }
  destruct (proj1 (Hx (w', s'))) as (v & [= -> ->] & Hv); [by left|].
  apply Hc in Hv as (w & Hin & Hs & ->). exists w. split_and!; try done.
  intros u Hu Hsu. inversion Hsort as [|? ? _ Hall]; subst.
  assert ((adjusted request u, worker_score (adjusted request u)) ∈ (adjusted request w,
    worker_score (adjusted request w)) :: rest) as [[= ->]|Hin']%elem_of_cons; [|done|].
  - apply Hx. eexists. split; [done|]. apply Hc. eauto.
  - rewrite Forall_forall in Hall. specialize (Hall _ Hin'). unfold less in Hall.
    apply Z.ltb_ge in Hall. exact Hall.
Qed.

(** ** Reading the workers *)

(** Only locks of workers differ. *)
Definition worker_locks_only (d d' : rdb) : Prop :=
  exists ks, eq_except ks d d' /\ forall k, k ∈ ks -> exists id, k = SchedulerWorkerLock id.

#[export] Instance worker_locks_only_refl : Reflexive worker_locks_only.
Proof. intros d. exists ∅. split; [reflexivity|]. intros k []%not_elem_of_empty. Qed.

Lemma worker_locks_only_lock id d d' :
  eq_except {[SchedulerWorkerLock id]} d d' -> worker_locks_only d d'.
Proof. intros H. eexists. split; [exact H|]. intros k ->%elem_of_singleton. eauto. Qed.

#[export] Instance worker_locks_only_trans : Transitive worker_locks_only.
Proof.
  intros d1 d2 d3 (k1 & H1 & W1) (k2 & H2 & W2). exists (k1 ∪ k2). split.
  - etransitivity; (eapply eq_except_weaken; [|eassumption]).
    + apply union_subseteq_l.
    + apply union_subseteq_r.
  - intros k [?|?]%elem_of_union; auto.
Qed.

Lemma worker_locks_only_kv d d' key :
  worker_locks_only d d' -> (forall id, key <> SchedulerWorkerLock id) -> kv d' !! key = kv d !! key.
Proof.
  intros (ks & H & W) Hne. apply (eq_except_kv _ _ _ _ H). intros [id E]%W. by apply (Hne id).
Qed.

Section scheduler_spec.
Context {FMT : GoFmt} {MS : Mapstructure} {JSON : JsonRequests} {SORT : SortSlice}.
Context {BR : BackendRepository} {SS : SchedulerServices} (imageService : ImageServiceConfig).

Lemma worker_locks_only_stored d d' id :
  worker_locks_only d d' -> stored d' id = stored d id.
Proof.
  intros H. unfold stored, stored_at. rewrite (worker_locks_only_kv _ _ _ H); [done|].
  intros id'. key_ne.
Qed.

Lemma wp_read_locked id lockId d L :
  wp (with_lock "worker" (SchedulerWorkerLock lockId) 10 0 (getWorkerFromKey (SchedulerWorkerState id)))
    (λ r d' _, worker_locks_only d d' /\ match r with inr w => stored d id = Some w | inl _ => True end) d L.
Proof.
  apply wp_with_lock.
  - intros r d1 d2 L1 L2 Heq [H1 H2]. split; [|done].
    etransitivity; [exact H1|]. by eapply worker_locks_only_lock.
  - intros e _. split; [reflexivity|done].
  - intros d1 L1 Heq. apply worker_locks_only_lock in Heq. apply wp_getWorkerFromKey; [|done].
    intros w Hw. split; [done|]. by rewrite <- (worker_locks_only_stored _ _ _ Heq).
Qed.

(** The index holds worker state keys only. *)
Definition worker_keys (keys : list string) : Prop :=
  forall key, key ∈ keys -> exists id, key = SchedulerWorkerState id.

Lemma wp_getWorkers_locked keys d L :
  worker_keys keys ->
  wp (getWorkers_locked keys) (λ r d' _, worker_locks_only d d' /\
    match r with
    | inr ws => forall w, w ∈ ws -> exists id, SchedulerWorkerState id ∈ keys /\ stored d id = Some w
    | inl _ => True
    end) d L.
Proof.
  revert d L. induction keys as [|key keys IH]; intros d L Hk; simpl.
  { split; [reflexivity|]. intros w []%elem_of_nil. }
  assert (worker_keys keys) as Hk' by (intros k Hin; apply Hk; by right).
  destruct (Hk key) as [id ->]; [by left|].
  destruct (split_on colon _ !! 3%nat) as [lockId|]; [|split; [reflexivity|done]].
  wp_bind. eapply wp_mono; [|apply wp_read_locked]. intros r d1 L1 [H1 Hw].
  assert (forall ws : list Worker, (forall w, w ∈ ws -> exists id', SchedulerWorkerState id' ∈ keys /\ stored d1 id' = Some w) ->
    forall w, w ∈ ws -> exists id', SchedulerWorkerState id' ∈ SchedulerWorkerState id :: keys /\
      stored d id' = Some w) as Hlift.
  { intros ws Hws w Hin. destruct (Hws w Hin) as (id' & ? & Hs). exists id'. split; [by right|].
    by rewrite <- (worker_locks_only_stored _ _ _ H1). }
  destruct r as [e|w].
  - eapply wp_mono; [|by apply IH]. intros [e'|ws] d2 L2 [H2 Hr];
      (split; [by etransitivity|]); [done|by apply Hlift].
  - wp_bind. eapply wp_mono; [|by apply IH].
    intros [e'|ws] d2 L2 [H2 Hr]; (split; [by etransitivity|]); [done|].
    intros v [->|Hin]%elem_of_cons; [|by apply (Hlift ws)]. exists id. split; [by left|done].
Qed.

(** The index of workers, with state keys that carry the worker's own id. *)
Definition worker_index (d : rdb) : Prop :=
  exists X, as_set (kv d !! SchedulerWorkerIndex) = Some X /\
    forall key, key ∈ X -> exists id, key = SchedulerWorkerState id /\
      forall w, stored d id = Some w -> w_Id w = id.

(** The worker [selectWorker] returns is a stored one that suits the request. *)
Definition selected (request : ContainerRequest) (d : rdb) (w' : Worker) : Prop :=
  exists w, stored d (w_Id w) = Some w /\ suitable request w /\ w' = adjusted request w.

Lemma wp_selectWorker `{SL : !SortLaws SORT} request d L :
  worker_index d ->
  wp (selectWorker request) (λ r d' _, worker_locks_only d d' /\
    match r with inr w' => selected request d w' | inl _ => True end) d L.
Proof.
  intros (X & HX & Hwf). unfold selectWorker, GetAllWorkers, getWorkers. wp_bind. wp_bind. wp_call.
  2: { assert (d' = d) as -> by (destruct H as [->|(? & ? & ? & ? & ->)]; done).
       split; [reflexivity|done]. }
  destruct H as (X' & HX' & Hp & ->). rewrite HX in HX'. injection HX' as <-.
  assert (forall key, key ∈ r -> key ∈ X) as Hr
    by (intros key; rewrite Hp; apply elem_of_elements).
  eapply wp_mono; [|apply wp_getWorkers_locked].
  2: { intros key Hin. destruct (Hwf key (Hr _ Hin)) as (id & -> & _). eauto. }
  intros [e|ws] d1 L1 [H1 Hws]; [done|]. cbn beta iota.
  pose proof (pick_worker_spec ws request) as Hpick.
  destruct (pick_worker ws request) as [e|w']; [done|].
  destruct Hpick as (w & Hin & Hs & -> & _). destruct (Hws w Hin) as (id & Hid & Hst).
  destruct (Hwf _ (Hr _ Hid)) as (id' & E & Hids). apply (inj SchedulerWorkerState) in E as <-.
  split; [done|]. exists w. split_and!; try done. by rewrite (Hids w Hst).
Qed.

(** ** Placing a request *)

Definition gpu_keys (id : string) : gset string :=
  {[SchedulerContainerState id; SchedulerContainerLock id]}.

Lemma wp_UpdateAssignedContainerGPU id gpu d L :
  wp (UpdateAssignedContainerGPU id gpu) (λ r d' _, eq_except (gpu_keys id) d d') d L.
Proof.
  unfold UpdateAssignedContainerGPU, gpu_keys. apply wp_with_lock.
  - intros r d1 d2 L1 L2 Heq H. etransitivity; [exact H|].
    eapply eq_except_weaken; [|exact Heq]. sets.
  - intros e _. reflexivity.
  - intros d1 L1 Heq.
    assert (eq_except {[SchedulerContainerState id; SchedulerContainerLock id]} d d1) as Hf
      by (eapply eq_except_weaken; [|exact Heq]; sets).
    wp_bind. wp_call; [|etransitivity; [exact Hf|]; frame].
    assert (eq_except {[SchedulerContainerState id; SchedulerContainerLock id]} d d') as Hf'
      by (etransitivity; [exact Hf|]; frame).
    wp_bind. wp_call; (eapply eq_except_trans; [exact Hf'|]; frame).
Qed.

(** The fields of a request the placement may change: the GPU and the credentials. *)
Definition same_resources (r r' : ContainerRequest) : Prop :=
  cr_ContainerId r = cr_ContainerId r' /\ cr_Cpu r = cr_Cpu r' /\ cr_Memory r = cr_Memory r' /\
  cr_GpuCount r = cr_GpuCount r' /\ cr_GpuRequest r = cr_GpuRequest r' /\
  cr_RetryCount r = cr_RetryCount r' /\ cr_Timestamp r = cr_Timestamp r' /\
  cr_StubId r = cr_StubId r' /\ cr_WorkspaceId r = cr_WorkspaceId r'.

#[export] Instance same_resources_equiv : Equivalence same_resources.
Proof. unfold same_resources. split; intros ?; intuition congruence. Qed.

Lemma attached_same gpu request :
  let request' := or_unchanged (attachBuildRegistryCredentials imageService)
    (or_unchanged attachImageCredentials (set_cr_Gpu gpu request)) in
  same_resources request request' /\ cr_Gpu request' = gpu.
Proof.
  assert (forall r, same_resources r (or_unchanged attachImageCredentials r) /\
    cr_Gpu (or_unchanged attachImageCredentials r) = cr_Gpu r) as H1.
  { intros r. unfold or_unchanged, attachImageCredentials. by repeat case_match; simplify_eq/=. }
  assert (forall r, same_resources r (or_unchanged (attachBuildRegistryCredentials imageService) r) /\
    cr_Gpu (or_unchanged (attachBuildRegistryCredentials imageService) r) = cr_Gpu r) as H2.
  { intros r. unfold or_unchanged, attachBuildRegistryCredentials. by repeat case_match; simplify_eq/=. }
  simpl. destruct (H1 (set_cr_Gpu gpu request)) as [Ha Hb].
  destruct (H2 (or_unchanged attachImageCredentials (set_cr_Gpu gpu request))) as [Hc Hd].
  split; [|by rewrite Hd, Hb]. etransitivity; [|exact Hc]. by etransitivity; [|exact Ha].
Qed.

(** [scheduleRequest]: the container's own keys and the worker's keys change; on
    success the worker's capacity is taken and the request is in its queue. *)
Lemma wp_scheduleRequest `{MSL : !MapstructureLaws MS} worker request d L :
  wp (scheduleRequest imageService worker request) (λ r d' _,
    eq_except (gpu_keys (cr_ContainerId request) ∪ schedule_keys (w_Id worker)) d d' /\
    same_resources request r.2 /\
    (r.1 = inr tt -> cr_Gpu r.2 = w_Gpu worker /\
       capacity_applied worker r.2 RemoveCapacity d d' /\ enqueued (w_Id worker) r.2 d d')) d L.
Proof.
  unfold scheduleRequest. wp_bind. eapply wp_mono; [|apply wp_UpdateAssignedContainerGPU].
  intros r d1 L1 Hf1.
  assert (eq_except (gpu_keys (cr_ContainerId request) ∪ schedule_keys (w_Id worker)) d d1) as Hf1'
    by (eapply eq_except_weaken; [|exact Hf1]; apply union_subseteq_l).
  destruct r as [e|[]]; [split_and!; done|].
  destruct (attached_same (w_Gpu worker) request) as [Hs Hg].
  set (request' := or_unchanged _ _) in *.
  wp_bind. eapply wp_mono; [|apply wp_ScheduleContainerRequest].
  intros r d2 L2 [Hf2 Hr]. split; [|split; [done|]].
  - etransitivity; [exact Hf1'|]. eapply eq_except_weaken; [|exact Hf2]. apply union_subseteq_r.
  - simpl. intros ->. split; [done|]. destruct Hr as [(cur & upd & H1 & H2) (json & l & H3 & H4 & H5)].
    assert (stored d1 (w_Id worker) = stored d (w_Id worker)) as E1
      by (eapply stored_eq_except; [exact Hf1|unfold gpu_keys; key_not_in]).
    assert (queue d1 (w_Id worker) = queue d (w_Id worker)) as E2
      by (eapply queue_eq_except; [exact Hf1|unfold gpu_keys; key_not_in]).
    split; [exists cur, upd; by rewrite <- E1|]. exists json, l. by rewrite <- E2.
Qed.

(** Select a worker and place the request on it. *)
Definition place (request : ContainerRequest) : prog ((gerr + unit) * ContainerRequest) :=
  w <~ selectWorker request ;;
  match w with
  | inl e => Ret (inl e, request)
  | inr worker => scheduleRequest imageService worker request
  end.

(** The amounts of a request are in range. *)
Definition request_ok (r : ContainerRequest) : Prop :=
  in_i64 (cr_Cpu r) /\ 0 <= cr_Cpu r /\ in_i64 (cr_Memory r) /\ 0 <= cr_Memory r /\
  in_u32 (cr_GpuCount r).

(** A worker before and after a request was placed on it. *)
Definition taken (request : ContainerRequest) (w w' : Worker) : Prop :=
  w_FreeCpu w' = w_FreeCpu w - cr_Cpu request /\ 0 <= w_FreeCpu w' /\
  w_FreeMemory w' = w_FreeMemory w - cr_Memory request /\ 0 <= w_FreeMemory w' /\
  w_FreeGpuCount w' = w_FreeGpuCount w - (if RequiresGPU request then cr_GpuCount request else 0) /\
  0 <= w_FreeGpuCount w' /\ w_ResourceVersion w' = wrap_i64 (w_ResourceVersion w + 1).

Lemma taken_suitable request request' w w' :
  request_ok request -> worker_ok w -> suitable request w -> same_resources request request' ->
  cr_Gpu request' = w_Gpu w -> moved RemoveCapacity request' w w' -> taken request w w'.
Proof.
  intros (Hc & Hc0 & Hm & Hm0 & Hg) (_ & _ & _ & Oc & Om & Og & _) Hs Hsame Hgpu Hu.
  destruct Hsame as (_ & Ec & Em & Eg & _).
  destruct Hu as (_ & Hv & Hc' & Pc & Hm' & Pm & Hg').
  rewrite <- Ec in Hc'. rewrite <- Em in Hm'. rewrite <- Eg, Hgpu in Hg'.
  pose proof (su_cpu _ _ Hs). pose proof (su_memory _ _ Hs). pose proof (su_gpu _ _ Hs) as Sg.
  rewrite wrap_i_sub_nonneg in Hc', Hm' by (done || lia).
  unfold taken. split_and!; try done; try lia.
  - rewrite Hg'. destruct (RequiresGPU request).
    + destruct Sg as (Hne & _ & Hle). apply String.eqb_neq in Hne. rewrite Hne.
      apply wrap_u_id. unfold in_u in *. lia.
    + rewrite Sg. simpl. rewrite Z.sub_0_r. by apply wrap_u_id.
  - rewrite Hg'. by apply wrap_u_range.
Qed.

Definition placed (request request' : ContainerRequest) (d d' : rdb) : Prop :=
  same_resources request request' /\
  exists w w', stored d (w_Id w) = Some w /\ suitable request w /\
    stored d' (w_Id w) = Some w' /\ taken request w w' /\ enqueued (w_Id w) request' d d'.

Lemma capacity_placed request request' w0 d d1 d2 :
  request_ok request -> worker_locks_only d d1 -> stored d (w_Id w0) = Some w0 ->
  suitable request w0 -> same_resources request request' -> cr_Gpu request' = w_Gpu w0 ->
  capacity_applied (adjusted request w0) request' RemoveCapacity d1 d2 ->
  enqueued (w_Id w0) request' d1 d2 -> placed request request' d d2.
Proof.
  intros Hok Hl Hst Hs Hsame Hg (cur & upd & Hc & Hv & Hu & Hst') (json & l & Hj & Hq & Hq').
  destruct (adjusted_fields request w0) as (_ & _ & _ & Hid & _ & _). rewrite Hid in Hc, Hst'.
  rewrite (worker_locks_only_stored _ _ _ Hl), Hst in Hc. injection Hc as <-.
  split; [done|]. exists w0, upd. split_and!; try done.
  - eapply taken_suitable; try done. by eapply stored_ok.
  - exists json, l. split_and!; try done. rewrite <- Hq. unfold queue. f_equal. symmetry.
    apply (worker_locks_only_kv _ _ _ Hl). intros id. key_ne.
Qed.

Lemma wp_place `{MSL : !MapstructureLaws MS, SL : !SortLaws SORT} request d L :
  request_ok request -> worker_index d ->
  wp (place request) (λ r d' _, r.1 = inr tt -> placed request r.2 d d') d L.
Proof.
  intros Hok Hi. unfold place. wp_bind. eapply wp_mono; [|by apply wp_selectWorker].
  intros [e|w'] d1 L1 [Hl Hw]; [done|]. destruct Hw as (w0 & Hst & Hs & ->).
  destruct (adjusted_fields request w0) as (_ & _ & _ & Hid & Hg & _).
  eapply wp_mono; [|apply wp_scheduleRequest]. intros [r request'] d2 L2 (_ & Hsame & Hr) E.
  simpl in *. destruct (Hr E) as (Hgpu & Hcap & Hq). rewrite Hid in Hq. rewrite Hg in Hgpu.
  by eapply capacity_placed.
Qed.

(** ** One turn of the processing loop *)

(** What becomes of a request that could not be placed, once it was pushed. *)
Definition requeued (now : Z) (r : ContainerRequest) (push : gerr + unit) (sp : spawned) : Prop :=
  push = inr tt /\
  match sp with
  | SNone => False
  | SRetry delay r' =>
      cr_ContainerId r' = cr_ContainerId r /\ cr_RetryCount r' = cr_RetryCount r + 1 /\
      cr_RetryCount r' <= maxScheduleRetryCount /\
      now - cr_Timestamp r < maxScheduleRetryDuration /\
      delay = calculateBackoffDelay (cr_RetryCount r)
  | SGiveUp r' =>
      cr_ContainerId r' = cr_ContainerId r /\
      (maxScheduleRetryCount <= cr_RetryCount r \/
       maxScheduleRetryDuration <= now - cr_Timestamp r)
  end.

Lemma wp_requeue (now : Z) (r r' : ContainerRequest) (d : rdb) (L : lmap) (Q : outcome -> rdb -> lmap -> Prop) :
  1 <= cr_RetryCount r -> same_resources r r' ->
  (forall push sp, requeued now r push sp -> Q (ORequeued push sp) d L) ->
  wp (a <~ addRequestToBacklog now r' ;; Ret (ORequeued a.1 a.2)) Q d L.
Proof.
  intros Hn (Hid & _ & _ & _ & _ & Hrc & Hts & _) HQ. unfold addRequestToBacklog.
  set (r1 := if RequiresGPU r' && _ then _ else _).
  assert (cr_ContainerId r1 = cr_ContainerId r' /\ cr_RetryCount r1 = cr_RetryCount r' /\
    cr_Timestamp r1 = cr_Timestamp r') as (E1 & E2 & E3) by (unfold r1; by case_match).
  rewrite E2, <- Hrc. rewrite (proj2 (Z.eqb_neq _ _)) by lia.
  apply HQ. split; [done|]. simpl. unfold retry_or_give_up. rewrite E2, E3, <- Hrc, <- Hts.
  destruct (Z.ltb_spec (cr_RetryCount r) maxScheduleRetryCount) as [Hlt|Hge]; simpl.
  - destruct (Z.ltb_spec (now - cr_Timestamp r) maxScheduleRetryDuration); simpl.
    + unfold maxScheduleRetryCount in *. simpl. rewrite wrap_i_id by (unfold in_i; lia).
      split_and!; try congruence; lia.
    + split; [congruence|by right].
  - split; [congruence|by left].
Qed.

(** Nothing but the backlog and locks of workers differs. *)
Definition eq_turn (d d' : rdb) : Prop :=
  exists d1, eq_except {[SchedulerContainerRequests]} d d1 /\ worker_locks_only d1 d'.

(** The effect of a turn on the waiting requests [W] and on the rest of the contents. *)
Definition turn_post (now : Z) (W : pqueue) (d : rdb) (o : outcome) (d' : rdb) : Prop :=
  match o with
  | OIdle => eq_except {[SchedulerContainerRequests]} d d'
  | OScheduled w r' => exists j r r0, first_in W j r /\ same_request r r0 /\
      backlog_rel d' (delete j W) /\ (request_ok r0 -> placed r0 r' d d')
  | ORequeued push sp => exists j r, first_in W j r /\
      backlog_rel d' (delete j W) /\ requeued now r push sp
  | OAddWorker _ r0 => exists j r, first_in W j r /\ same_request r r0 /\
      backlog_rel d' (delete j W) /\ eq_turn d d'
  | ODropped r0 => exists j r, first_in W j r /\ same_request r r0 /\
      backlog_rel d' (delete j W) /\ eq_turn d d'
  end.

Lemma same_request_resources r r' : same_request r r' -> same_resources r r'.
Proof.
  unfold same_request, flat_request, same_resources. intros H. simplify_eq/=.
  repeat match goal with E : (_, _) = (_, _) |- _ => injection E; clear E; intros end.
  split_and!; congruence.
Qed.

Lemma wp_Len d L : wp Len (λ _ d' _, d' = d) d L.
Proof.
  unfold Len. wp_bind. wp_call; [by destruct H as (z & _ & _ & ->)|].
  by destruct H as [->|(? & ? & _ & _ & ->)].
Qed.

Lemma eq_turn_intro d d1 d2 :
  eq_except {[SchedulerContainerRequests]} d d1 -> worker_locks_only d1 d2 -> eq_turn d d2.
Proof. intros. by exists d1. Qed.

Lemma worker_index_popped d d1 :
  eq_except {[SchedulerContainerRequests]} d d1 -> worker_index d -> worker_index d1.
Proof.
  intros Hf (X & HX & Hwf).
  exists X. split; [rewrite (eq_except_kv _ _ _ _ Hf); [done|key_not_in]|].
  intros key Hin. destruct (Hwf key Hin) as (id & -> & Hid). exists id. split; [done|].
  intros w Hw. apply Hid. rewrite (stored_eq_except _ _ _ _ Hf) in Hw; [done|key_not_in].
Qed.

(** Placing from the contents after the pop is placing from those before. *)
Lemma placed_popped r r' d d1 d2 :
  eq_except {[SchedulerContainerRequests]} d d1 -> placed r r' d1 d2 -> placed r r' d d2.
Proof.
  intros Hf [Hs (w & w' & H1 & H2 & H3 & H4 & json & l & Hj & Hq & Hq')]. split; [done|].
  exists w, w'. rewrite (stored_eq_except _ _ _ _ Hf) in H1 by key_not_in. split_and!; try done.
  exists json, l. split_and!; try done. rewrite <- Hq. symmetry.
  eapply queue_eq_except; [exact Hf|]. key_not_in.
Qed.

Lemma wp_schedule_or_requeue `{MSL : !MapstructureLaws MS} now j r r0 w0 W d d1 d2 L :
  1 <= cr_RetryCount r -> first_in W j r -> same_request r r0 ->
  eq_except {[SchedulerContainerRequests]} d d1 -> worker_locks_only d1 d2 ->
  backlog_rel d2 (delete j W) -> stored d1 (w_Id w0) = Some w0 -> suitable r0 w0 ->
  wp (schedule_or_requeue imageService now (adjusted r0 w0) r0)
    (λ o d' _, turn_post now W d o d') d2 L.
Proof.
  intros Hrc Hfi Hsr Hf Hl HW Hst Hs. unfold schedule_or_requeue.
  destruct (adjusted_fields r0 w0) as (_ & _ & _ & Hid & Hg & _).
  wp_bind. eapply wp_mono; [|apply wp_scheduleRequest].
  intros [x r'] d3 L3 (Hf3 & Hsame & Hr). simpl in Hsame, Hr. rewrite Hid in Hf3.
  assert (backlog_rel d3 (delete j W)) as HW3.
  { eapply backlog_rel_eq; [|exact HW]. apply (eq_except_kv _ _ _ _ Hf3).
    unfold gpu_keys, schedule_keys. key_not_in. }
  destruct x as [e|[]].
  - apply (wp_requeue now r); [done| |].
    { etransitivity; [by apply same_request_resources|done]. }
    intros push sp Hreq. by exists j, r.
  - destruct (Hr eq_refl) as (Hgpu & Hcap & Hq). exists j, r, r0.
    split; [exact Hfi|]. split; [exact Hsr|]. split; [exact HW3|]. intros Hok. eapply placed_popped; [exact Hf|]. rewrite Hid in Hq. rewrite Hg in Hgpu.
    by eapply capacity_placed.
Qed.

Lemma wp_process_one `{MSL : !MapstructureLaws MS, SL : !SortLaws SORT, JL : !JsonLaws JSON}
    now m order W d L :
  worker_index d -> backlog_rel d W ->
  (forall j r, W !! j = Some r -> 1 <= cr_RetryCount r) ->
  wp (process_one imageService now m order) (λ o d' _, turn_post now W d o d') d L.
Proof.
  intros Hi HW Hrc. unfold process_one. wp_bind. eapply wp_mono; [|apply wp_Len].
  intros n d0 L0 ->. case_match; [by apply eq_except_refl|].
  wp_bind. eapply wp_mono; [|by apply wp_Pop]. intros x d1 L1 (Hf & W' & Hstep & HW1).
  destruct x as [e|r0]; [done|]. simpl in Hstep. inversion Hstep as [| | |? j r ? Hfi Hsr| | |]; subst.
  pose proof (worker_index_popped _ _ Hf Hi) as Hi1.
  wp_bind. eapply wp_mono; [|by apply wp_selectWorker]. intros y d2 L2 [Hl Hy].
  assert (backlog_rel d2 (delete j W)) as HW2.
  { eapply backlog_rel_eq; [|exact HW1]. apply (worker_locks_only_kv _ _ _ Hl). intros id. key_ne. }
  destruct y as [e|w'].
  - pose proof (eq_turn_intro _ _ _ Hf Hl). case_match; by exists j, r.
  - destruct Hy as (w0 & Hst & Hs & ->).
    eapply (wp_schedule_or_requeue now j r); try done. by eapply Hrc, Hfi.
Qed.
End scheduler_spec.

(** ** Retries *)

(** How often a request that keeps failing is pushed again before it is given up;
    [clock i] is the time of its [i]-th failure. *)
Fixpoint retries (fuel : nat) (clock : nat -> Z) (i : nat) (request : ContainerRequest) : option nat :=
  match fuel with
  | O => None
  | S fuel' =>
      match retry_or_give_up (clock i) request with
      | SRetry _ request' => S <$> retries fuel' clock (S i) request'
      | _ => Some O
      end
  end.

Lemma retries_bound fuel clock i request :
  1 <= cr_RetryCount request ->
  (Z.to_nat (maxScheduleRetryCount - cr_RetryCount request) < fuel)%nat ->
  exists n, retries fuel clock i request = Some n /\
    (n <= Z.to_nat (maxScheduleRetryCount - cr_RetryCount request))%nat.
Proof.
  revert i request. induction fuel as [|fuel IH]; intros i request Hc Hf; [lia|]. simpl.
  unfold retry_or_give_up.
  destruct (Z.ltb_spec (cr_RetryCount request) maxScheduleRetryCount) as [Hlt|Hge]; simpl;
    [|exists O; split; [done|lia]].
  destruct (_ <? maxScheduleRetryDuration); simpl; [|exists O; split; [done|lia]].
  unfold maxScheduleRetryCount in *.
  rewrite wrap_i_id by (unfold in_i; lia).
  destruct (IH (S i) (set_cr_RetryCount (cr_RetryCount request + 1) request)) as (n & Hn & Hle);
    [simpl; lia..|].
  rewrite Hn. exists (S n). split; [done|]. simpl in Hle. lia.
Qed.

Lemma backoff_delay n :
  1 <= n <= 33 -> calculateBackoffDelay n = Z.min (2 ^ n) 30 * second.
Proof.
  intros Hn.
  assert (n ∈ seqZ 1 33) as Hin by (apply elem_of_seqZ; lia). clear Hn. revert n Hin.
  apply Forall_forall. refine (bool_decide_unpack _ _). vm_compute. exact I.
Qed.

(** ** Controllers *)

Definition controller_ok (request : ContainerRequest) (c : WorkerPoolController) : Prop :=
  (ctl_IsPreemptable c = true -> cr_Preemptable request = true) /\
  (if String.eqb (cr_PoolSelector request) "" then ctl_RequiresPoolSelector c = false
   else ctl_Name c = cr_PoolSelector request) /\
  (cr_DockerEnabled request = true -> ctl_ContainerRuntime c = "gvisor").

Lemma filterControllers_spec controllers request c :
  c ∈ filterControllersByFlags controllers request <-> c ∈ controllers /\ controller_ok request c.
Proof.
  unfold filterControllersByFlags, controller_ok.
  rewrite list_elem_of_In, filter_In, <- list_elem_of_In. apply and_iff_compat_l.
  destruct (cr_Preemptable request), (ctl_IsPreemptable c), (String.eqb (cr_PoolSelector request) "") eqn:E,
    (ctl_RequiresPoolSelector c), (String.eqb_spec (ctl_Name c) (cr_PoolSelector request)),
    (cr_DockerEnabled request), (String.eqb_spec (ctl_ContainerRuntime c) "gvisor"); simpl;
    naive_solver.
Qed.

(** The pools a request may be served by. *)
Definition pool_for (m : WorkerPoolManager) (request : ContainerRequest) (p : WorkerPool) : Prop :=
  if String.eqb (cr_PoolSelector request) "" then
    exists name, pm_poolMap m !! name = Some p /\
      exists gpu, serves m gpu p = true /\
        (if RequiresGPU request then gpu ∈ cr_GpuRequest request else gpu = "")
  else pm_poolMap m !! cr_PoolSelector request = Some p.

Lemma gpu_controllers_spec `{SORT : SortSlice, SL : !SortLaws SORT} m order i gpus c :
  (forall i, order i ≡ₚ map_to_list (pm_poolMap m)) ->
  c ∈ gpu_controllers m order i gpus ->
  exists p name gpu, c = wp_Controller p /\ pm_poolMap m !! name = Some p /\
    serves m gpu p = true /\ gpu ∈ gpus.
Proof.
  intros Hord. revert i. induction gpus as [|gpu gpus IH]; intros i; simpl; [by intros []%elem_of_nil|].
  intros [Hin|Hin]%elem_of_app.
  - apply list_elem_of_fmap in Hin as (p & -> & Hp).
    apply GetPoolByFilters_spec in Hp as [[name Hp] Hs]; [|done].
    exists p, name, gpu. split_and!; try done. by left.
  - destruct (String.eqb gpu GPU_ANY); [by apply elem_of_nil in Hin|].
    destruct (IH _ Hin) as (p & name & g & ? & ? & ? & ?). exists p, name, g.
    split_and!; try done. by right.
Qed.

Lemma getControllers_sound `{SORT : SortSlice, SL : !SortLaws SORT} m order request cs :
  (forall i, order i ≡ₚ map_to_list (pm_poolMap m)) ->
  getControllers m order request = inr cs ->
  cs <> [] /\ forall c, c ∈ cs ->
    controller_ok request c /\ exists p, c = wp_Controller p /\ pool_for m request p.
Proof.
  intros Hord. unfold getControllers.
  set (found := if negb _ then _ else _). intros H.
  assert (exists all, found = inr all /\ filterControllersByFlags all request = cs /\ cs <> []) as (all & Hf & Hfl & Hne).
  { destruct found as [e|all]; [done|]. exists all.
    destruct (filterControllersByFlags all request); by simplify_eq. }
  split; [done|]. intros c Hc. rewrite <- Hfl in Hc. apply filterControllers_spec in Hc as [Hin Hok].
  split; [done|]. unfold found in Hf. unfold pool_for.
  destruct (String.eqb (cr_PoolSelector request) ""); simpl in Hf.
  - destruct (RequiresGPU request); simpl in Hf; simplify_eq.
    + destruct (gpu_controllers_spec m order _ _ _ Hord Hin) as (p & name & g & -> & ? & ? & ?). eauto 8.
    + apply list_elem_of_fmap in Hin as (p & -> & Hp).
      apply GetPoolByFilters_spec in Hp as [[name Hp] Hs]; [|done]. eauto 8.
  - unfold GetPool, SafeMap_Get in Hf. destruct (pm_poolMap m !! _) as [p|] eqn:E; simplify_eq.
    apply list_elem_of_singleton in Hin as ->. eauto.
Qed.
