(* ===== verification/SchedulerProps.v ===== *)
(** * Theorems on the scheduler *)

From Stdlib Require Import Sorting.Sorted.
From S2P Require Import Prelude GoStd Redis Keys Types Codec Lock Env WorkerRepo ContainerRepo.
From S2P Require Import WorkspaceRepo Backlog PoolManager Scheduler Samples WorkerSpec.
From S2P Require Import SchedulerSpec.

Local Open Scope Z_scope.
Set Default Proof Using "Type".

Section scheduler_props.
Context {FMT : GoFmt} {MS : Mapstructure} {JSON : JsonRequests} {SORT : SortSlice}.
Context {BR : BackendRepository} {SS : SchedulerServices} (imageService : ImageServiceConfig).
Context {MSL : MapstructureLaws MS} {JL : JsonLaws JSON} {SRT : SortLaws SORT}.
Context {S : RedisServer} {SL : RedisLaws S}.

(** C29. The worker chosen for a request suits it (pool, free CPU, memory and GPUs,
    status, preemptability, runtime) and no suitable worker has a higher score; no
    worker is chosen exactly when none is suitable. *)
Theorem pick_worker_optimal workers request :
  match pick_worker workers request with
  | inr w' => exists w, w ∈ workers /\ suitable request w /\ w' = adjusted request w /\
      forall v, v ∈ workers -> suitable request v ->
        worker_score (adjusted request v) <= worker_score w'
  | inl e => e = ENoSuitableWorkerFound /\ forall w, w ∈ workers -> ~ suitable request w
  end.
Proof using Type SRT. apply pick_worker_spec. Qed.

(** End to end, selecting a worker and placing a request on it never takes
    more CPU, memory or GPUs than the worker has free, on any lawful server: when
    it succeeds a stored worker that suits the request lost exactly the requested
    amounts, none below zero, its version moved on, and the request is at the end
    of its queue. *)
Theorem place_within_capacity request (s : srv) L :
  request_ok request -> worker_index (view s) ->
  ends (place imageService request) s L (λ r d', r.1 = inr tt -> placed request r.2 (view s) d').
Proof using Type MSL SRT SL. intros Hok Hi. apply ends_wp. by apply wp_place. Qed.

(** C5. One turn of the processing loop on any lawful server, with requests in
    the backlog that were pushed at least once.  The request taken is one with the
    least score; it is placed on a suitable worker within its capacity, or handed
    to a retry with a higher count (at most the maximum) or given up, or a worker
    is going to be added for it, or it is dropped: then nothing but the backlog and
    locks of workers changed, so neither its container state nor its request
    status tells of the drop. *)
Theorem process_one_accounts now m order W (s : srv) L :
  worker_index (view s) -> backlog_rel (view s) W ->
  (forall j r, W !! j = Some r -> 1 <= cr_RetryCount r) ->
  ends (process_one imageService now m order) s L (turn_post now W (view s)).
Proof using Type MSL SRT JL SL. intros. apply ends_wp. by apply wp_process_one. Qed.

(** C12. The backlog refines a priority queue: for any sequence of pushes and pops
    each pop returns a waiting request with the least score and removes it, each
    request at most once; a call that reports an error did nothing or did what it
    was asked. *)
Theorem backlog_refines_priority_queue ops Q (s : srv) L :
  Forall bop_ok ops -> backlog_rel (view s) Q ->
  ends (backlog_ops ops) s L (λ xs d', exists Q', pq_trace Q ops xs Q' /\ backlog_rel d' Q').
Proof using Type JL SL. intros. apply ends_wp. by apply wp_backlog_ops. Qed.
End scheduler_props.

(** Retries end: a request that was pushed once and keeps failing is pushed
    again at most twice, whatever the clock shows, and is then given up. *)
Theorem retries_bounded clock request :
  cr_RetryCount request = 1 ->
  exists n, retries 3 clock 0 request = Some n /\ (n <= 2)%nat.
Proof.
  intros H. destruct (retries_bound 3 clock 0 request) as (n & Hn & Hle);
    rewrite ?H; unfold maxScheduleRetryCount in *; [lia|simpl; lia|].
  exists n. split; [done|]. rewrite H in Hle. simpl in Hle. lia.
Qed.

(** The delay before a retry doubles from two seconds and never exceeds thirty
    (up to the retry count where the multiplication would overflow). *)
Theorem backoff_delay_bounded n :
  1 <= n <= 33 -> calculateBackoffDelay n = Z.min (2 ^ n) 30 * second.
Proof. apply backoff_delay. Qed.

(** In whatever order the pools are visited, [GetPoolByFilters] returns exactly
    the healthy pools that serve the GPU type, highest priority first. *)
Theorem GetPoolByFilters_correct `{SORT : SortSlice, SRT : !SortLaws SORT} m order gpuType :
  order ≡ₚ map_to_list (pm_poolMap m) ->
  (forall p, p ∈ GetPoolByFilters m order gpuType <->
     (exists name, pm_poolMap m !! name = Some p) /\ serves m gpuType p = true) /\
  StronglySorted (λ a b, wpc_Priority (wp_Config b) <= wpc_Priority (wp_Config a))
    (GetPoolByFilters m order gpuType).
Proof. apply GetPoolByFilters_spec. Qed.

(** Every controller [getControllers] returns belongs to a pool the request may
    use (the selected pool, or a healthy pool of a requested GPU type) and meets
    the request's preemptability, pool selector and runtime; it never returns an
    empty list. *)
Theorem getControllers_correct `{SORT : SortSlice, SRT : !SortLaws SORT} m order request cs :
  (forall i, order i ≡ₚ map_to_list (pm_poolMap m)) ->
  getControllers m order request = inr cs ->
  cs <> [] /\ forall c, c ∈ cs ->
    controller_ok request c /\ exists p, c = wp_Controller p /\ pool_for m request p.
Proof. apply getControllers_sound. Qed.

(** ** Concrete runs *)

Definition ex_backend : BackendRepository := {|
  GetLatestCheckpointByStubId _ := inr None;
  backend_GetConcurrencyLimitByWorkspaceId _ := inl ESqlNoRows;
  GetImageCredentialSecret _ := inr "";
  GetSecretByNameDecrypted _ _ := inl ESqlNoRows |}.

Definition ex_services : SchedulerServices := {|
  GetRegistryTokenForImage _ _ := inr "";
  send_stop_event _ := ok tt |}.

Definition ex_images : ImageServiceConfig := mkImageServiceConfig "" "" "" ∅.

Definition ex_json : string :=
  match marshalRequest (JsonRequests := bits_json) ex_waiting with inr j => j | inl _ => "" end.

Definition ex_scheduler_db : rdb :=
  set_kv SchedulerContainerRequests (RVZSet {[ ex_json := 0 ]}) ex_cluster.

Lemma ex_worker_index d :
  kv d !! SchedulerWorkerIndex = Some (RVSet {[SchedulerWorkerState "w2"]}) ->
  kv d !! SchedulerWorkerState "w2" = Some (worker_hash ex_cpu_worker) ->
  worker_index (FMT := plain_fmt) d.
Proof.
  intros Hi Hw. exists {[SchedulerWorkerState "w2"]}. split; [by rewrite Hi|].
  intros key ->%elem_of_singleton. exists "w2". split; [done|].
  intros w. unfold stored, stored_at. rewrite Hw. vm_compute. by intros [= <-].
Qed.

Lemma pick_worker_optimal_witness :
  match pick_worker (H := insertion_sort) [ex_worker; ex_cpu_worker] ex_waiting with
  | inr w' => exists w, w ∈ [ex_worker; ex_cpu_worker] /\ suitable ex_waiting w /\
      w' = adjusted ex_waiting w /\
      forall v, v ∈ [ex_worker; ex_cpu_worker] -> suitable ex_waiting v ->
        worker_score (adjusted ex_waiting v) <= worker_score w'
  | inl e => e = ENoSuitableWorkerFound /\
      forall w, w ∈ [ex_worker; ex_cpu_worker] -> ~ suitable ex_waiting w
  end /\ pick_worker (H := insertion_sort) [ex_worker; ex_cpu_worker] ex_waiting = inr ex_cpu_worker.
Proof.
  split; [|vm_compute; reflexivity].
  exact (pick_worker_optimal (SORT := insertion_sort) (SRT := insertion_sort_laws)
    [ex_worker; ex_cpu_worker] ex_waiting).
Defined.

Lemma place_within_capacity_witness :
  let p := place (FMT := plain_fmt) (MS := copy_struct) (JSON := bits_json) (SORT := insertion_sort)
             (BR := ex_backend) (SS := ex_services) ex_images ex_waiting in
  ends (S := ref_server) p (on ex_cluster) ∅
    (λ r d', r.1 = inr tt ->
       placed (FMT := plain_fmt) (JSON := bits_json) ex_waiting r.2 ex_cluster d') /\
  (run (S := ref_server) p (on ex_cluster) ∅).1.1.1 = inr tt.
Proof.
  split; [|vm_compute; reflexivity].
  refine (place_within_capacity (MSL := copy_struct_laws) (SRT := insertion_sort_laws)
    (S := ref_server) ex_images ex_waiting (on ex_cluster) ∅ _ _).
  - repeat split; discriminate.
  - apply ex_worker_index; reflexivity.
Defined.

Lemma ex_backlog_rel : backlog_rel (JSON := bits_json) ex_scheduler_db {[ ex_json := ex_waiting ]}.
Proof.
  split.
  - unfold ex_scheduler_db, set_kv. cbn [kv]. rewrite lookup_insert_eq, map_fmap_singleton. reflexivity.
  - intros j r [<- <-]%lookup_singleton_Some. split; reflexivity.
Qed.

Lemma process_one_accounts_witness :
  let p := process_one (FMT := plain_fmt) (MS := copy_struct) (JSON := bits_json)
             (SORT := insertion_sort) (BR := ex_backend) (SS := ex_services) ex_images 5
             (NewWorkerPoolManager false) (λ _, []) in
  ends (S := ref_server) p (on ex_scheduler_db) ∅
    (turn_post (FMT := plain_fmt) (JSON := bits_json) 5 {[ ex_json := ex_waiting ]} ex_scheduler_db).
Proof.
  refine (process_one_accounts (MSL := copy_struct_laws) (SRT := insertion_sort_laws)
    (JL := bits_json_laws) (S := ref_server) ex_images 5 _ _ _ (on ex_scheduler_db) ∅ _ _ _).
  - apply ex_worker_index; unfold ex_scheduler_db, set_kv; simpl kv;
      (rewrite lookup_insert_ne by key_ne); reflexivity.
  - exact ex_backlog_rel.
  - intros j r [_ <-]%lookup_singleton_Some. discriminate.
Defined.

Lemma backlog_refines_priority_queue_witness :
  let ops := [BPush (ex_request "c2" 1 2 "" 0); BPop; BPop; BPop] in
  ends (S := ref_server) (backlog_ops (JSON := bits_json) ops) (on ex_scheduler_db) ∅
    (λ xs d', exists Q', pq_trace (JSON := bits_json) {[ ex_json := ex_waiting ]} ops xs Q' /\
       backlog_rel (JSON := bits_json) d' Q').
Proof.
  apply (backlog_refines_priority_queue (JL := bits_json_laws) (S := ref_server) _
    {[ ex_json := ex_waiting ]} (on ex_scheduler_db) ∅).
  - repeat constructor.
  - exact ex_backlog_rel.
Defined.

Lemma retries_bounded_witness :
  exists n, retries 3 (λ _, 0) 0 ex_waiting = Some n /\ (n <= 2)%nat.
Proof. exact (retries_bounded (λ _, 0) ex_waiting eq_refl). Defined.

Lemma backoff_delay_bounded_witness : calculateBackoffDelay 2 = Z.min (2 ^ 2) 30 * second.
Proof. apply (backoff_delay_bounded 2). lia. Defined.

Definition ex_controller : WorkerPoolController :=
  mkController "gpu" false false "runc" (inr zeroWorkerPoolState) (λ _ _ _, fail (EMsg "no capacity")).

Definition ex_manager : WorkerPoolManager :=
  SetPool (NewWorkerPoolManager true) "gpu" (mkWorkerPoolConfig "A10G" 1) ex_controller.

Lemma GetPoolByFilters_correct_witness :
  (forall p, p ∈ GetPoolByFilters (SORT := insertion_sort) ex_manager
       (map_to_list (pm_poolMap ex_manager)) "A10G" <->
     (exists name, pm_poolMap ex_manager !! name = Some p) /\ serves ex_manager "A10G" p = true) /\
  StronglySorted (λ a b, wpc_Priority (wp_Config b) <= wpc_Priority (wp_Config a))
    (GetPoolByFilters (SORT := insertion_sort) ex_manager (map_to_list (pm_poolMap ex_manager)) "A10G").
Proof.
  exact (GetPoolByFilters_correct (SORT := insertion_sort) (SRT := insertion_sort_laws) ex_manager _
    "A10G" (Permutation_refl _)).
Defined.

Lemma getControllers_correct_witness :
  let req := set_cr_Gpu "A10G" (mkContainerRequest "c1" [] [] 1 1 "" ["A10G"] 1 "img" "stub" "ws"
    zeroWorkspace (mkStubWithRelated zeroStub zeroWorkspace zeroObject None) 0 [] 0 "" false false
    zeroBuildOptions [] 0 "" None "" "" "" false [] false) in
  [ex_controller] <> [] /\ forall c, c ∈ [ex_controller] ->
    controller_ok req c /\ exists p, c = wp_Controller p /\ pool_for ex_manager req p.
Proof.
  refine (getControllers_correct (SORT := insertion_sort) (SRT := insertion_sort_laws) ex_manager
    (λ _, map_to_list (pm_poolMap ex_manager)) _ _ (λ _, Permutation_refl _) _).
  vm_compute. reflexivity.
Defined.
