(* ===== verification/RingBuffer.v ===== *)
(** * The ring buffer (pkg/abstractions/common/ring_buffer.go)

    A bounded queue over a fixed slice; when it is full the oldest element is
    overwritten.  It refines a bounded double-ended queue.  Go's [int] indices
    stay below the size, so they do not overflow; [%] is [Z.rem]. *)

From S2P Require Import Prelude.

Local Open Scope Z_scope.
Set Default Proof Using "Type".

Section ring_buffer.
Context {T : Type} (zero : T).

Record RingBuffer := mkRingBuffer {
  rb_buffer : list T;
  rb_size : Z;
  rb_head : Z;
  rb_tail : Z;
  rb_count : Z;
}.

Definition NewRingBuffer (size : Z) : RingBuffer :=
  mkRingBuffer (replicate (Z.to_nat size) zero) size 0 0 0.

(** [buffer[i] = v]; the index is in range wherever the code writes. *)
Definition write (b : list T) (i : Z) (v : T) : list T := <[Z.to_nat i := v]> b.

Definition ring_Push (rb : RingBuffer) (request : T) (priority : bool) : RingBuffer :=
  if priority then
    if rb_count rb =? rb_size rb then
      mkRingBuffer (write (rb_buffer rb) (rb_head rb) request) (rb_size rb) (rb_head rb)
        (rb_tail rb) (rb_count rb)
    else
      let head := Z.rem (rb_head rb - 1 + rb_size rb) (rb_size rb) in
      mkRingBuffer (write (rb_buffer rb) head request) (rb_size rb) head (rb_tail rb)
        (rb_count rb + 1)
  else
    let buffer := write (rb_buffer rb) (rb_tail rb) request in
    let tail := Z.rem (rb_tail rb + 1) (rb_size rb) in
    if rb_count rb =? rb_size rb then
      mkRingBuffer buffer (rb_size rb) (Z.rem (rb_head rb + 1) (rb_size rb)) tail (rb_count rb)
    else mkRingBuffer buffer (rb_size rb) (rb_head rb) tail (rb_count rb + 1).

Definition ring_Pop (rb : RingBuffer) : (T * bool) * RingBuffer :=
  if rb_count rb =? 0 then ((zero, false), rb)
  else
    let request := nth (Z.to_nat (rb_head rb)) (rb_buffer rb) zero in
    ((request, true),
     mkRingBuffer (write (rb_buffer rb) (rb_head rb) zero) (rb_size rb)
       (Z.rem (rb_head rb + 1) (rb_size rb)) (rb_tail rb) (rb_count rb - 1)).

Definition ring_Len (rb : RingBuffer) : Z := rb_count rb.

(** ** The invariant and the abstract queue *)

Record ring_wf (rb : RingBuffer) : Prop := {
  wf_size : 0 < rb_size rb;
  wf_length : Z.of_nat (length (rb_buffer rb)) = rb_size rb;
  wf_head : 0 <= rb_head rb < rb_size rb;
  wf_count : 0 <= rb_count rb <= rb_size rb;
  wf_tail : rb_tail rb = (rb_head rb + rb_count rb) `mod` rb_size rb;
}.

(** The element [i] places after the head. *)
Definition slot (rb : RingBuffer) (i : Z) : T :=
  nth (Z.to_nat ((rb_head rb + i) `mod` rb_size rb)) (rb_buffer rb) zero.

Definition contents (rb : RingBuffer) : list T := slot rb <$> seqZ 0 (rb_count rb).

(** The bounded double-ended queue the buffer implements. *)
Definition deque_push (size : Z) (l : list T) (x : T) (priority : bool) : list T :=
  let l' := if Z.of_nat (length l) =? size then tail l else l in
  if priority then x :: l' else (l' ++ [x])%list.

Definition deque_pop (l : list T) : (T * bool) * list T :=
  match l with [] => ((zero, false), []) | x :: l' => ((x, true), l') end.

Lemma length_contents rb : ring_wf rb -> Z.of_nat (length (contents rb)) = rb_count rb.
Proof. intros H. unfold contents. rewrite length_fmap, length_seqZ. pose proof (wf_count _ H). lia. Qed.

Lemma nth_write b j v k :
  0 <= j < Z.of_nat (length b) -> 0 <= k ->
  nth (Z.to_nat k) (write b j v) zero = if k =? j then v else nth (Z.to_nat k) b zero.
Proof.
  intros Hj Hk. unfold write. rewrite !nth_lookup. destruct (Z.eqb_spec k j) as [->|Hne].
  - rewrite list_lookup_insert_eq by lia. done.
  - rewrite list_lookup_insert_ne by lia. done.
Qed.

Lemma length_write b j v : length (write b j v) = length b.
Proof. apply length_insert. Qed.

(** Indices are below twice the size: [mod] is one subtraction. *)
Lemma mod_wrap s a : 0 < s -> 0 <= a < 2 * s -> a `mod` s = if a <? s then a else a - s.
Proof.
  intros Hs Ha. destruct (Z.ltb_spec a s); [apply Z.mod_small; lia|].
  rewrite <- (Z.mod_small (a - s) s) by lia.
  replace a with ((a - s) + 1 * s) at 1 by lia. by rewrite Z.mod_add by lia.
Qed.

Lemma rem_wrap s a : 0 < s -> 0 <= a < 2 * s -> Z.rem a s = if a <? s then a else a - s.
Proof. intros Hs Ha. rewrite Z.rem_mod_nonneg by lia. by apply mod_wrap. Qed.

Lemma fmap_seqZ_ext {A} (f g : Z -> A) n :
  (forall i, 0 <= i < n -> f i = g i) -> f <$> seqZ 0 n = g <$> seqZ 0 n.
Proof. intros H. apply list_fmap_ext. intros i x [-> Hx]%lookup_seqZ. apply H. lia. Qed.

Lemma fmap_seqZ_cons {A} (f : Z -> A) n :
  0 < n -> f <$> seqZ 0 n = f 0 :: ((λ i, f (i + 1)) <$> seqZ 0 (n - 1)).
Proof.
  intros Hn. rewrite seqZ_cons by done. csimpl. f_equal.
  replace (Z.succ 0) with (1 + 0) by lia. rewrite <- fmap_add_seqZ.
  replace (Z.pred n) with (n - 1) by lia. rewrite <- list_fmap_compose.
  apply list_fmap_ext. intros i x _. simpl. f_equal. lia.
Qed.

Lemma fmap_seqZ_snoc {A} (f : Z -> A) n :
  0 <= n -> f <$> seqZ 0 (n + 1) = ((f <$> seqZ 0 n) ++ [f n])%list.
Proof.
  intros Hn. rewrite (seqZ_app 0 n 1), fmap_app by lia. f_equal.
Qed.

Lemma fmap_seqZ_last {A} (f : Z -> A) n :
  0 < n -> f <$> seqZ 0 n = ((f <$> seqZ 0 (n - 1)) ++ [f (n - 1)])%list.
Proof. intros Hn. rewrite <- fmap_seqZ_snoc by lia. do 2 f_equal. lia. Qed.

(** ** Refinement *)

Lemma NewRingBuffer_wf size : 0 < size -> ring_wf (NewRingBuffer size).
Proof.
  intros H. split; simpl; try lia; [rewrite length_replicate; lia|]. by rewrite Z.mod_0_l by lia.
Qed.

Lemma contents_New size : contents (NewRingBuffer size) = [].
Proof. done. Qed.

(** Evaluates the wrapped indices of a goal, by cases. *)
Ltac wraps :=
  repeat match goal with
  | |- context [Z.rem ?a ?s] =>
      rewrite (rem_wrap s a) by lia; destruct (Z.ltb_spec a s); try lia
  | |- context [?a `mod` ?s] =>
      rewrite (mod_wrap s a) by lia; destruct (Z.ltb_spec a s); try lia
  end.

Lemma ring_Push_wf rb x p : ring_wf rb -> ring_wf (ring_Push rb x p).
Proof.
  intros [Hs Hl Hh Hc Ht]. unfold ring_Push. rewrite Ht.
  destruct p, (Z.eqb_spec (rb_count rb) (rb_size rb)); split; simpl; rewrite ?length_write; try lia;
    wraps; lia.
Qed.

(** Compares the slots of two buffers, one of them written once. *)
Ltac slots :=
  unfold slot; simpl; wraps; rewrite ?nth_write by lia;
  repeat match goal with |- context [?a =? ?b] => destruct (Z.eqb_spec a b); try lia end;
  try done; try (f_equal; f_equal; lia).

Lemma ring_Push_contents rb x p :
  ring_wf rb -> contents (ring_Push rb x p) = deque_push (rb_size rb) (contents rb) x p.
Proof.
  intros H. pose proof (length_contents rb H) as Hlen. destruct H as [Hs Hl Hh Hc Ht].
  unfold deque_push. rewrite Hlen. unfold ring_Push. rewrite Ht.
  destruct p, (Z.eqb_spec (rb_count rb) (rb_size rb)) as [E|E].
  - unfold contents. simpl.
    rewrite (fmap_seqZ_cons (slot rb)), (fmap_seqZ_cons (slot (mkRingBuffer _ _ _ _ _))) by lia.
    simpl. f_equal.
    + slots.
    + apply fmap_seqZ_ext. intros i Hi. slots.
  - unfold contents. simpl. rewrite fmap_seqZ_cons, Z.add_simpl_r by lia. f_equal.
    + slots.
    + apply fmap_seqZ_ext. intros i Hi. slots.
  - unfold contents. simpl.
    rewrite (fmap_seqZ_last (slot (mkRingBuffer _ _ _ _ _))), (fmap_seqZ_cons (slot rb)) by lia. simpl. f_equal; [|f_equal].
    + apply fmap_seqZ_ext. intros i Hi. slots.
    + slots.
  - unfold contents. simpl. rewrite fmap_seqZ_snoc by lia. f_equal; [|f_equal].
    + apply fmap_seqZ_ext. intros i Hi. slots.
    + slots.
Qed.

Lemma ring_Pop_wf rb : ring_wf rb -> ring_wf (ring_Pop rb).2.
Proof.
  intros [Hs Hl Hh Hc Ht]. unfold ring_Pop. destruct (Z.eqb_spec (rb_count rb) 0); [done|].
  split; simpl; rewrite ?length_write, ?Ht; try lia; wraps; lia.
Qed.

Lemma ring_Pop_contents rb :
  ring_wf rb ->
  (ring_Pop rb).1 = (deque_pop (contents rb)).1 /\
  contents (ring_Pop rb).2 = (deque_pop (contents rb)).2.
Proof.
  intros [Hs Hl Hh Hc Ht]. unfold ring_Pop. destruct (Z.eqb_spec (rb_count rb) 0) as [E|E].
  - simpl. assert (contents rb = []) as -> by (unfold contents; by rewrite E). done.
  - unfold contents. simpl. rewrite (fmap_seqZ_cons (slot rb)) by lia. simpl. split.
    + do 2 f_equal. slots.
    + apply fmap_seqZ_ext. intros i Hi. slots.
Qed.

(** ** Sequences of operations *)

Inductive ring_op := RPush (x : T) (priority : bool) | RPop.

Fixpoint ring_run (rb : RingBuffer) (ops : list ring_op) : list (T * bool) * RingBuffer :=
  match ops with
  | [] => ([], rb)
  | RPush x p :: ops' => ring_run (ring_Push rb x p) ops'
  | RPop :: ops' =>
      let '(out, rb1) := ring_Pop rb in
      let '(outs, rb2) := ring_run rb1 ops' in (out :: outs, rb2)
  end.

Fixpoint deque_run (size : Z) (l : list T) (ops : list ring_op) : list (T * bool) * list T :=
  match ops with
  | [] => ([], l)
  | RPush x p :: ops' => deque_run size (deque_push size l x p) ops'
  | RPop :: ops' =>
      let '(out, l1) := deque_pop l in
      let '(outs, l2) := deque_run size l1 ops' in (out :: outs, l2)
  end.

Lemma ring_size rb x p : rb_size (ring_Push rb x p) = rb_size rb /\ rb_size (ring_Pop rb).2 = rb_size rb.
Proof. unfold ring_Push, ring_Pop. by repeat case_match. Qed.

Lemma ring_run_refines rb ops :
  ring_wf rb ->
  ring_wf (ring_run rb ops).2 /\ (ring_run rb ops).1 = (deque_run (rb_size rb) (contents rb) ops).1 /\
  contents (ring_run rb ops).2 = (deque_run (rb_size rb) (contents rb) ops).2.
Proof.
  revert rb. induction ops as [|[x p|] ops IH]; intros rb Hwf; simpl; [done|..].
  - destruct (ring_size rb x p) as [Hsz _].
    destruct (IH _ (ring_Push_wf rb x p Hwf)) as (H1 & H2 & H3).
    rewrite Hsz, ring_Push_contents in H2, H3 by done. done.
  - destruct (ring_Pop_contents rb Hwf) as [H1 H2]. destruct (ring_size rb zero true) as [_ Hsz].
    destruct (IH _ (ring_Pop_wf rb Hwf)) as (H3 & H4 & H5). rewrite Hsz, H2 in H4, H5.
    destruct (ring_Pop rb) as [out rb1], (deque_pop (contents rb)) as [out' l1]. simpl in *. subst out'.
    destruct (ring_run rb1 ops) as [outs rb2], (deque_run (rb_size rb) l1 ops) as [outs' l2].
    simpl in *. by subst.
Qed.

(** C33. From a new buffer of positive size, any sequence of pushes (normal or with
    priority) and pops returns what a bounded double-ended queue returns that drops
    its oldest element when full; the buffer holds exactly that queue and its
    indices stay in range. *)
Theorem RingBuffer_refines_deque size ops :
  0 < size ->
  let r := ring_run (NewRingBuffer size) ops in
  ring_wf r.2 /\ r.1 = (deque_run size [] ops).1 /\ contents r.2 = (deque_run size [] ops).2.
Proof.
  intros Hs. destruct (ring_run_refines (NewRingBuffer size) ops) as (H1 & H2 & H3);
    [by apply NewRingBuffer_wf|]. done.
Qed.
End ring_buffer.

Lemma RingBuffer_refines_deque_witness :
  let ops := [RPush 1 false; RPush 2 false; RPush 3 false; RPush 4 true; RPop; RPop] in
  let r := ring_run 0 (NewRingBuffer 0 2) ops in
  ring_wf r.2 /\ r.1 = (deque_run 0 2 [] ops).1 /\ contents 0 r.2 = (deque_run 0 2 [] ops).2.
Proof. apply (RingBuffer_refines_deque 0 2). lia. Defined.
