(* ===== verification/PoolSizing.v ===== *)
(** * Pool capacity and sizing

    The parsers of pkg/scheduler/utils.go, the capacity of a pool
    ([freePoolCapacity], pkg/scheduler/pool.go) and the sizer that keeps a buffer
    of free capacity (pkg/scheduler/pool_sizing.go). *)

From Stdlib Require Import DecimalString.
From S2P Require Import Prelude GoStd Redis Keys Types Codec Lock WorkerRepo WorkspaceRepo.

Local Open Scope Z_scope.
Set Default Proof Using "Type".

(** ** Parsers (the configuration values are strings) *)

Definition invalid (what : string) : gerr := EMsg ("invalid " +:+ what).

(** A non-negative 64-bit decimal. *)
Definition parse_nonneg (what s : string) : gerr + Z :=
  match ParseInt 64 s with
  | None => inl (EMsg "strconv.ParseInt: parsing failed")
  | Some v => if v <? 0 then inl (invalid what) else inr v
  end.

Definition ParseCPU (cpu : string) : gerr + Z := parse_nonneg "cpu value" (TrimSuffix cpu "m").

Definition ParseGpuCount (gpuCount : string) : gerr + Z := parse_nonneg "gpu_count value" gpuCount.

(** [strings.TrimLeftFunc(s, isDigit)] *)
Fixpoint trim_left_digits (s : string) : string :=
  match s with
  | "" => ""
  | String a s' =>
      let n := Ascii.nat_of_ascii a in
      if ((48 <=? n) && (n <=? 57))%nat then trim_left_digits s' else s
  end.

Definition ParseMemory (memory : string) : gerr + Z :=
  let unit := trim_left_digits memory in
  let valueStr := TrimSuffix memory unit in
  match ParseInt 64 valueStr with
  | None => inl (EMsg "strconv.ParseInt: parsing failed")
  | Some value =>
      if String.eqb unit "Ki" then inr (Z.quot (wrap_i64 (value * 1024)) (1024 * 1024))
      else if String.eqb unit "Mi" then inr value
      else if String.eqb unit "Gi" then inr (wrap_i64 (value * 1024))
      else if String.eqb unit "" then inr value
      else inl (invalid "memory unit")
  end.

(** The result is a [uint]. *)
Definition ParseGPU (gpu : string) : gerr + Z :=
  match parse_nonneg "gpu value" gpu with inl e => inl e | inr v => inr (wrap_u64 v) end.

Definition ParseGPUType (gpu : string) : gerr + string :=
  if existsb (String.eqb gpu)
       [GPU_A100_40; GPU_A100_80; GPU_A10G; GPU_L4; GPU_T4; GPU_H100; GPU_A6000; GPU_RTX4090; GPU_L40S]
  then inr gpu else inl (invalid "gpu type").

(** ** Capacity of a pool *)

Record WorkerPoolCapacity := mkCapacity {
  cap_FreeCpu : Z; cap_FreeMemory : Z; cap_FreeGpu : Z;
  cap_PendingCpu : Z; cap_PendingMemory : Z; cap_PendingGpu : Z;
}.

Definition capacity_add (c : WorkerPoolCapacity) (w : Worker) : WorkerPoolCapacity :=
  let usable := negb (String.eqb (w_Gpu w) "") && (0 <? w_FreeCpu w) && (0 <? w_FreeMemory w) in
  if String.eqb (w_Status w) WorkerStatusDisabled then c
  else if String.eqb (w_Status w) WorkerStatusPending then
    mkCapacity (cap_FreeCpu c) (cap_FreeMemory c) (cap_FreeGpu c)
      (wrap_i64 (cap_PendingCpu c + w_FreeCpu w)) (wrap_i64 (cap_PendingMemory c + w_FreeMemory w))
      (if usable then wrap_u64 (cap_PendingGpu c + w_TotalGpuCount w) else cap_PendingGpu c)
  else
    mkCapacity (wrap_i64 (cap_FreeCpu c + w_FreeCpu w)) (wrap_i64 (cap_FreeMemory c + w_FreeMemory w))
      (if usable then wrap_u64 (cap_FreeGpu c + w_FreeGpuCount w) else cap_FreeGpu c)
      (cap_PendingCpu c) (cap_PendingMemory c) (cap_PendingGpu c).

Definition capacity_of (workers : list Worker) : WorkerPoolCapacity :=
  foldl capacity_add (mkCapacity 0 0 0 0 0 0) workers.

Definition freePoolCapacity `{GoFmt} (poolName : string) : M WorkerPoolCapacity :=
  workers <- GetAllWorkersInPool poolName ;;
  ok (capacity_of workers).

(** ** Sizing *)

Definition NewWorkerPoolSizingConfig : WorkerPoolSizingConfig :=
  mkWorkerPoolSizingConfig 0 0 0 1000 (1 * 1024) "" 0.

Definition shouldAddWorker (c : WorkerPoolCapacity) (config : WorkerPoolSizingConfig) : bool :=
  let freeCpu := wrap_i64 (cap_FreeCpu c + cap_PendingCpu c) in
  let freeMemory := wrap_i64 (cap_FreeMemory c + cap_PendingMemory c) in
  let freeGpu := wrap_u64 (cap_FreeGpu c + cap_PendingGpu c) in
  (freeCpu <? sz_MinFreeCpu config) || (freeMemory <? sz_MinFreeMemory config)
  || ((0 <? sz_MinFreeGpu config) && (freeGpu <? sz_MinFreeGpu config)).

(** [if v, err := parse(...); err == nil { set v }] *)
Definition set_if {A} (r : gerr + A) (set : A -> WorkerPoolSizingConfig -> WorkerPoolSizingConfig)
    (c : WorkerPoolSizingConfig) : WorkerPoolSizingConfig :=
  match r with inr v => set v c | inl _ => c end.

Definition parsePoolSizingConfig (config : WorkerPoolJobSpecPoolSizingConfig) : WorkerPoolSizingConfig :=
  let c := NewWorkerPoolSizingConfig in
  let c := set_if (ParseCPU (pz_MinFreeCPU config)) set_sz_MinFreeCpu c in
  let c := set_if (ParseMemory (pz_MinFreeMemory config)) set_sz_MinFreeMemory c in
  let c := set_if (ParseGPU (pz_MinFreeGPU config)) set_sz_MinFreeGpu c in
  let c := set_if (ParseCPU (pz_DefaultWorkerCPU config)) set_sz_DefaultWorkerCpu c in
  let c := set_if (ParseMemory (pz_DefaultWorkerMemory config)) set_sz_DefaultWorkerMemory c in
  let gpuType := ParseGPUType (pz_DefaultWorkerGpuType config) in
  let c := set_if gpuType set_sz_DefaultWorkerGpuType c in
  let c := set_if (ParseGpuCount (pz_DefaultWorkerGpuCount config))
             (λ v, set_sz_DefaultWorkerGpuCount (wrap_u32 v)) c in
  if (sz_DefaultWorkerGpuCount c <=? 0) && negb (String.eqb (match gpuType with inr t => t | inl _ => "" end) "")
  then set_sz_DefaultWorkerGpuCount 1 c else c.

(** A machine of an external pool, as the provider repository lists it. *)
Record ProviderMachine := mkProviderMachine {
  pm_MachineId : string; pm_Status : string; pm_AutoConsolidate : bool }.

(** What the sizer and the health monitor call of a pool's controller and of the
    provider repository (Kubernetes jobs, machines of a provider). *)
Class PoolServices := {
  svc_AddWorker : Z -> Z -> Z -> M (option Worker);
  svc_AddWorkerToMachine : Z -> Z -> string -> Z -> string -> M (option Worker);
  ListAllMachines : string -> bool -> M (list ProviderMachine);
}.

Section sizer.
Context {FMT : GoFmt} {PS : PoolServices}.
Context (poolName mode : string) (sizing : WorkerPoolSizingConfig).

Definition addWorkerIfNeeded (freeCapacity : WorkerPoolCapacity) : M (option Worker) :=
  if negb (shouldAddWorker freeCapacity sizing) then ok None
  else svc_AddWorker (sz_DefaultWorkerCpu sizing) (sz_DefaultWorkerMemory sizing)
         (sz_DefaultWorkerGpuCount sizing).

(** The errors of a machine are logged and the loop goes on. *)
Fixpoint occupy_loop (machines : list ProviderMachine) : M unit :=
  match machines with
  | [] => ok tt
  | m :: machines' =>
      if pm_AutoConsolidate m then occupy_loop machines'
      else
        svc_AddWorkerToMachine (sz_DefaultWorkerCpu sizing) (sz_DefaultWorkerMemory sizing)
          (sz_DefaultWorkerGpuType sizing) (sz_DefaultWorkerGpuCount sizing) (pm_MachineId m) ;~
        occupy_loop machines'
  end.

Definition occupyAvailableMachines : M unit :=
  SetWorkerPoolSizerLock poolName ;;
  (r <~ (machines <- ListAllMachines poolName true ;; occupy_loop machines) ;;
   RemoveWorkerPoolSizerLock poolName ;~ Ret r).

(** One tick of [Start]; the state of the pool is what [controller.State()] reads. *)
Definition sizer_tick : prog unit :=
  s <~ GetWorkerPoolState poolName ;;
  match s with
  | inl _ => Ret tt
  | inr nextState =>
      if String.eqb (ps_Status nextState) WorkerPoolStatusDegraded then Ret tt
      else
        c <~ freePoolCapacity poolName ;;
        match c with
        | inl _ => Ret tt
        | inr freeCapacity =>
            addWorkerIfNeeded freeCapacity ;~
            (if String.eqb mode PoolModeExternal then occupyAvailableMachines ;~ Ret tt
             else Ret tt)
        end
  end.
End sizer.

(** ** The parsers on what they are meant to read *)

Lemma trim_digits_uint u s : trim_left_digits (NilEmpty.string_of_uint u +:+ s) = trim_left_digits s.
Proof. induction u; simpl; done. Qed.

Lemma trim_digits_int n s : 0 <= n -> trim_left_digits (fmt_int n +:+ s) = trim_left_digits s.
Proof.
  intros Hn. unfold fmt_int. destruct n as [|p|p]; [done| |lia].
  change (NilZero.string_of_int (Z.to_int (Z.pos p))) with (NilZero.string_of_uint (Pos.to_uint p)).
  destruct (Pos.to_uint p) eqn:E; [by apply Pos_to_uint_nonnil in E|..]; simpl;
    apply trim_digits_uint.
Qed.

Lemma length_str_app a b : String.length (a +:+ b) = (String.length a + String.length b)%nat.
Proof. induction a as [|c a IH]; simpl; [done|]. by rewrite IH. Qed.

Lemma strip_suffix_app a u : strip_suffix u (a +:+ u) = Some a.
Proof.
  induction a as [|c a IH].
  - destruct u as [|c u]; [done|]. change ("" +:+ String c u) with (String c u).
    change (strip_suffix (String c u) (String c u)) with
      (if String.eqb (String c u) (String c u) then Some "" else
         String c <$> strip_suffix (String c u) u). by rewrite String.eqb_refl.
  - change (strip_suffix u (String c a +:+ u)) with
      (if String.eqb (String c (a +:+ u)) u then Some "" else String c <$> strip_suffix u (a +:+ u)).
    destruct (String.eqb_spec (String c (a +:+ u)) u) as [E|E].
    + apply (f_equal String.length) in E. simpl in E. rewrite length_str_app in E. lia.
    + by rewrite IH.
Qed.

Lemma TrimSuffix_app a u : TrimSuffix (a +:+ u) u = a.
Proof. unfold TrimSuffix. by rewrite strip_suffix_app. Qed.

(** Units of memory in mebibytes. *)
Definition mebibytes (unit : string) (n : Z) : Z :=
  if String.eqb unit "Ki" then n / 1024 else if String.eqb unit "Gi" then n * 1024 else n.

Lemma ParseMemory_units n unit :
  unit ∈ ["Ki"; "Mi"; "Gi"; ""] -> 0 <= n -> n * 1024 < 2 ^ 63 ->
  ParseMemory (fmt_int n +:+ unit) = inr (mebibytes unit n).
Proof.
  intros Hu Hn Hb. unfold ParseMemory.
  assert (trim_left_digits unit = unit) as Et
    by (rewrite !elem_of_cons, elem_of_nil in Hu; naive_solver).
  rewrite trim_digits_int, Et, TrimSuffix_app, ParseInt_fmt_int by (unfold in_i; lia).
  rewrite !elem_of_cons, elem_of_nil in Hu. unfold mebibytes.
  destruct Hu as [->|[->|[->|[->|[]]]]]; simpl; f_equal;
    rewrite ?wrap_i_id by (unfold in_i; lia); try done.
  rewrite Z.quot_div_nonneg by lia.
  replace 1048576 with (1024 * 1024) by lia. rewrite Z.mul_comm. by apply Z.div_mul_cancel_l.
Qed.

Lemma ParseCPU_millicores n : 0 <= n < 2 ^ 63 -> ParseCPU (fmt_int n +:+ "m") = inr n.
Proof.
  intros Hn. unfold ParseCPU, parse_nonneg. rewrite TrimSuffix_app, ParseInt_fmt_int
    by (unfold in_i; lia). by rewrite (proj2 (Z.ltb_ge n 0)) by lia.
Qed.

(** Sizes of memory are read as mebibytes: a count printed in decimal with unit
    Ki, Mi, Gi or none is converted exactly (Ki rounded down), as long as the
    count of Gi does not overflow 64 bits. *)
Theorem ParseMemory_correct n unit :
  unit ∈ ["Ki"; "Mi"; "Gi"; ""] -> 0 <= n -> n * 1024 < 2 ^ 63 ->
  ParseMemory (fmt_int n +:+ unit) = inr (mebibytes unit n).
Proof. apply ParseMemory_units. Qed.

Lemma ParseMemory_correct_witness : ParseMemory (fmt_int 3 +:+ "Gi") = inr (mebibytes "Gi" 3).
Proof. apply (ParseMemory_correct 3 "Gi"); [set_solver|lia|lia]. Defined.

(** ** Sizing configuration *)

Lemma parse_nonneg_ok what s v : parse_nonneg what s = inr v -> 0 <= v.
Proof.
  unfold parse_nonneg. destruct (ParseInt 64 s); [|done].
  destruct (Z.ltb_spec z 0); [done|]. by intros [= <-].
Qed.

(** A setter that leaves the projection [f] alone. *)
Lemma set_if_other {A B} (f : WorkerPoolSizingConfig -> B) r (set : A -> _ -> _) c :
  (forall v c, f (set v c) = f c) -> f (set_if r set c) = f c.
Proof. intros H. by destruct r; simpl. Qed.

Lemma parsed_gpu_type config :
  sz_DefaultWorkerGpuType (parsePoolSizingConfig config)
  = match ParseGPUType (pz_DefaultWorkerGpuType config) with inr t => t | inl _ => "" end.
Proof.
  unfold parsePoolSizingConfig. case_match; simpl; rewrite set_if_other by done;
    destruct (ParseGPUType _); simpl; rewrite ?set_if_other by done; done.
Qed.

Lemma parsed_gpu_count config :
  sz_DefaultWorkerGpuType (parsePoolSizingConfig config) <> "" ->
  1 <= sz_DefaultWorkerGpuCount (parsePoolSizingConfig config).
Proof.
  rewrite parsed_gpu_type. intros Ht. unfold parsePoolSizingConfig.
  apply String.eqb_neq in Ht. rewrite Ht. simpl. rewrite andb_true_r.
  match goal with |- context [if ?b then _ else _] => destruct b eqn:E end; simpl; [lia|].
  apply Z.leb_gt in E. lia.
Qed.

Lemma parsed_cpu config :
  let c := parsePoolSizingConfig config in
  0 <= sz_MinFreeCpu c /\ 0 <= sz_DefaultWorkerCpu c /\ 0 <= sz_MinFreeGpu c.
Proof.
  unfold parsePoolSizingConfig, ParseGPU. simpl.
  match goal with |- context [if ?b then _ else _] => destruct b end; simpl;
    rewrite !(set_if_other sz_MinFreeCpu), !(set_if_other sz_DefaultWorkerCpu),
      !(set_if_other sz_MinFreeGpu) by done;
    (destruct (ParseCPU (pz_MinFreeCPU config)) eqn:E1;
     destruct (ParseCPU (pz_DefaultWorkerCPU config)) eqn:E2;
     destruct (parse_nonneg "gpu value" _) eqn:E3; simpl;
     try apply parse_nonneg_ok in E1; try apply parse_nonneg_ok in E2);
    rewrite ?(set_if_other sz_MinFreeCpu), ?(set_if_other sz_DefaultWorkerCpu),
      ?(set_if_other sz_MinFreeGpu) by done; simpl;
    split_and!; try lia; by apply wrap_u_range.
Qed.

(** A sizing configuration never asks for a worker with a GPU type and no GPU:
    whatever the strings are, the parsed configuration has at least one GPU when
    it has a GPU type, its CPU amounts are not negative, and a type the parser
    does not know is dropped. *)
Theorem parsePoolSizingConfig_valid config :
  let c := parsePoolSizingConfig config in
  (sz_DefaultWorkerGpuType c <> "" -> 1 <= sz_DefaultWorkerGpuCount c) /\
  0 <= sz_MinFreeCpu c /\ 0 <= sz_DefaultWorkerCpu c /\ 0 <= sz_MinFreeGpu c /\
  (sz_DefaultWorkerGpuType c = "" \/ sz_DefaultWorkerGpuType c = pz_DefaultWorkerGpuType config).
Proof.
  intros c. split; [apply parsed_gpu_count|]. destruct (parsed_cpu config) as (H1 & H2 & H3).
  split_and!; try done. unfold c. rewrite parsed_gpu_type. unfold ParseGPUType.
  destruct (existsb _ _); [by right|by left].
Qed.

(** ** The decision to add a worker *)

(** The sums a pool's capacity stands for. *)
Definition amounts (f : Worker -> Z) (workers : list Worker) : Z := foldr (λ w acc, f w + acc) 0 workers.

Definition active_cpu (w : Worker) : Z :=
  if String.eqb (w_Status w) WorkerStatusDisabled then 0 else w_FreeCpu w.
Definition active_memory (w : Worker) : Z :=
  if String.eqb (w_Status w) WorkerStatusDisabled then 0 else w_FreeMemory w.

Lemma capacity_sum c workers :
  wrap_i64 (cap_FreeCpu (foldl capacity_add c workers) + cap_PendingCpu (foldl capacity_add c workers))
  = wrap_i64 (cap_FreeCpu c + cap_PendingCpu c + amounts active_cpu workers) /\
  wrap_i64 (cap_FreeMemory (foldl capacity_add c workers) + cap_PendingMemory (foldl capacity_add c workers))
  = wrap_i64 (cap_FreeMemory c + cap_PendingMemory c + amounts active_memory workers).
Proof.
  revert c. induction workers as [|w ws IH]; intros c; simpl; [by rewrite !Z.add_0_r|].
  destruct (IH (capacity_add c w)) as [H1 H2]. rewrite H1, H2. clear.
  unfold capacity_add, active_cpu at 2, active_memory at 2.
  destruct (String.eqb (w_Status w) WorkerStatusDisabled); [split; f_equal; lia|].
  assert (forall a b x y, wrap_i64 (a + wrap_i64 (b + x) + y) = wrap_i64 (a + b + (x + y))) as E1.
  { intros a b x y. replace (a + wrap_i64 (b + x) + y) with (wrap_i64 (b + x) + (a + y)) by lia.
    rewrite wrap_i_add_l. f_equal. lia. }
  assert (forall a b x y, wrap_i64 (wrap_i64 (a + x) + b + y) = wrap_i64 (a + b + (x + y))) as E2.
  { intros a b x y. replace (wrap_i64 (a + x) + b + y) with (wrap_i64 (a + x) + (b + y)) by lia.
    rewrite wrap_i_add_l. f_equal. lia. }
  destruct (String.eqb (w_Status w) WorkerStatusPending); simpl; by rewrite ?E1, ?E2.
Qed.

(** For CPU and memory the sizer adds a worker exactly when the free amounts of
    the pool's workers that are not disabled, pending ones included, are below the
    configured minimum (a pool without a GPU minimum and totals within 64 bits). *)
Theorem shouldAddWorker_correct workers config :
  let cpu := amounts active_cpu workers in
  let memory := amounts active_memory workers in
  in_i64 cpu -> in_i64 memory -> sz_MinFreeGpu config = 0 ->
  shouldAddWorker (capacity_of workers) config = true <->
  cpu < sz_MinFreeCpu config \/ memory < sz_MinFreeMemory config.
Proof.
  intros cpu memory Hc Hm Hg. unfold shouldAddWorker, capacity_of.
  destruct (capacity_sum (mkCapacity 0 0 0 0 0 0) workers) as [-> ->]. simpl.
  fold cpu memory. rewrite Hg, !wrap_i_id by done. simpl. rewrite orb_false_r, orb_true_iff, !Z.ltb_lt.
  done.
Qed.

Lemma shouldAddWorker_correct_witness :
  shouldAddWorker (capacity_of [zeroWorker "w"]) NewWorkerPoolSizingConfig = true <-> 0 < 0 \/ 0 < 0.
Proof. apply (shouldAddWorker_correct [zeroWorker "w"] NewWorkerPoolSizingConfig); done. Defined.
