(* ===== verification/PoolHealth.v ===== *)
(** * Health of a worker pool (pkg/scheduler/pool_health.go)

    Every ten seconds the monitor measures a pool, decides whether it is degraded,
    cordons its pending workers when it becomes so, and stores the state.
    [now] is [time.Now()] in nanoseconds; the events it pushes are not modelled. *)

From S2P Require Import Prelude GoStd Redis Keys Types Codec Lock WorkerRepo ContainerRepo.
From S2P Require Import WorkspaceRepo Env PoolSizing.

Local Open Scope Z_scope.
Set Default Proof Using "Type".

Definition MachineStatusRegistered : string := "registered".
Definition MachineStatusPending : string := "pending".
Definition MachineStatusReady : string := "ready".

(** [Time.Sub]: the difference saturates at the range of a [Duration]. *)
Definition time_sub (t u : Z) : Z := Z.max (- 2 ^ 63) (Z.min (2 ^ 63 - 1) (t - u)).

Definition count_status {A} (status : A -> string) (s : string) (l : list A) : Z :=
  Z.of_nat (length (List.filter (λ x, String.eqb (status x) s) l)).

(** The latency a container contributes, if any. *)
Definition container_latency (now : Z) (c : ContainerState) : option Z :=
  if (cs_StartedAt c =? 0) && String.eqb (cs_Status c) ContainerStatusRunning then None
  else if String.eqb (cs_Status c) ContainerStatusPending
  then Some (time_sub now (cs_ScheduledAt c * second))
  else Some (time_sub (cs_StartedAt c * second) (cs_ScheduledAt c * second)).

Definition average_latency (latencies : list Z) : Z :=
  match latencies with
  | [] => 0
  | _ => Z.quot (foldl (λ total l, wrap_i64 (total + l)) 0 latencies) (Z.of_nat (length latencies))
  end.

Section pool_health.
Context {FMT : GoFmt} {PS : PoolServices}.
Context (poolName mode : string) (failover : FailoverConfig).

(** The containers of all workers; a worker whose containers cannot be listed
    contributes none. *)
Fixpoint worker_containers (workers : list Worker) : prog (list ContainerState) :=
  match workers with
  | [] => Ret []
  | w :: workers' =>
      r <~ GetActiveContainersByWorkerId (w_Id w) ;;
      cs <~ worker_containers workers' ;;
      Ret (match r with inr l => (l ++ cs)%list | inl _ => cs end)
  end.

Definition pool_machines : M (list ProviderMachine) :=
  if String.eqb mode PoolModeExternal then ListAllMachines poolName false else ok [].

Definition getPoolState (now : Z) : M WorkerPoolState :=
  workers <- GetAllWorkersInPool poolName ;;
  machines <- pool_machines ;;
  containers <~ worker_containers workers ;;
  freeCapacity <- freePoolCapacity poolName ;;
  let latencies := omap (container_latency now) containers in
  ok (mkWorkerPoolState "" (Z.quot (average_latency latencies) 1000000)
        (cap_FreeGpu freeCapacity) (cap_FreeCpu freeCapacity) (cap_FreeMemory freeCapacity)
        (count_status w_Status WorkerStatusPending workers)
        (count_status w_Status WorkerStatusAvailable workers)
        (count_status cs_Status ContainerStatusPending containers)
        (count_status cs_Status ContainerStatusRunning containers)
        (count_status pm_Status MachineStatusRegistered machines)
        (count_status pm_Status MachineStatusPending machines)
        (count_status pm_Status MachineStatusReady machines)).

(** The status of a measured state. *)
Definition pool_status (nextState : WorkerPoolState) : string :=
  let status := WorkerPoolStatusHealthy in
  let status := if fo_MaxPendingWorkers failover <=? ps_PendingWorkers nextState
                then WorkerPoolStatusDegraded else status in
  let status := if fo_MaxSchedulingLatencyMs failover <? ps_SchedulingLatency nextState
                then WorkerPoolStatusDegraded else status in
  if (ps_ReadyMachines nextState <? fo_MinMachinesAvailable failover)
     && String.eqb mode PoolModeExternal
  then WorkerPoolStatusDegraded else status.

(** Returns the state with its status set. *)
Definition updatePoolStatus (nextState : WorkerPoolState) : M WorkerPoolState :=
  let status := pool_status nextState in
  let nextState := set_ps_Status status nextState in
  p <~ GetWorkerPoolState poolName ;;
  match (match p with
         | inr previousState => inr (ps_Status previousState)
         | inl (EWorkerPoolStateNotFound _) => inr WorkerPoolStatusHealthy
         | inl e => inl e
         end) with
  | inl e => fail e
  | inr previousStatus =>
      if fo_Enabled failover && negb (String.eqb previousStatus status)
         && String.eqb status WorkerPoolStatusDegraded
      then CordonAllPendingWorkersInPool poolName ;; ok nextState
      else ok nextState
  end.

(** One tick of [Start]. *)
Definition health_tick (now : Z) : prog unit :=
  l <~ SetWorkerPoolStateLock poolName ;;
  match l with
  | inl _ => Ret tt
  | inr _ =>
      r <~ (poolState <- getPoolState now ;;
            poolState <- updatePoolStatus poolState ;;
            SetWorkerPoolState poolName poolState) ;;
      RemoveWorkerPoolStateLock poolName ;~ Ret tt
  end.

(** ** The decision *)

Definition degraded_when (s : WorkerPoolState) : Prop :=
  fo_MaxPendingWorkers failover <= ps_PendingWorkers s \/
  fo_MaxSchedulingLatencyMs failover < ps_SchedulingLatency s \/
  (ps_ReadyMachines s < fo_MinMachinesAvailable failover /\ mode = PoolModeExternal).

Lemma pool_status_spec s :
  (pool_status s = WorkerPoolStatusDegraded <-> degraded_when s) /\
  (pool_status s = WorkerPoolStatusHealthy <-> ~ degraded_when s).
Proof.
  unfold pool_status, degraded_when.
  destruct (Z.leb_spec (fo_MaxPendingWorkers failover) (ps_PendingWorkers s)),
    (Z.ltb_spec (fo_MaxSchedulingLatencyMs failover) (ps_SchedulingLatency s)),
    (Z.ltb_spec (ps_ReadyMachines s) (fo_MinMachinesAvailable failover)),
    (String.eqb_spec mode PoolModeExternal); simpl; split; split; intros Hx; try done; try lia;
    try (by intuition lia).
Qed.

Lemma wp_GetWorkerPoolState d L :
  wp (GetWorkerPoolState poolName) (λ r d' _, d' = d /\
    match r with
    | inr s => exists h, as_hash (kv d !! WorkerPoolStateKey poolName) = Some h /\ h <> ∅ /\
        s = to_struct h zeroWorkerPoolState
    | inl (EWorkerPoolStateNotFound _) => as_hash (kv d !! WorkerPoolStateKey poolName) = Some ∅
    | inl _ => True
    end) d L.
Proof.
  unfold GetWorkerPoolState. wp_bind. wp_call.
  - destruct H as [Hh ->]. case_decide as E; simpl.
    + split; [done|]. by rewrite Hh, E.
    + split; [done|]. eauto.
  - split; [|done]. by destruct H as [->|(? & _ & ->)].
Qed.

(** The status the pool had: healthy when no state is stored. *)
Definition stored_status (d : rdb) : option string :=
  h ← as_hash (kv d !! WorkerPoolStateKey poolName);
  Some (if decide (h = ∅) then WorkerPoolStatusHealthy else ps_Status (to_struct h zeroWorkerPoolState)).

(** Without a transition to DEGRADED (or without failover) nothing is written. *)
Lemma wp_updatePoolStatus s d L :
  wp (updatePoolStatus s) (λ r d' _,
    (forall s', r = inr s' -> s' = set_ps_Status (pool_status s) s) /\
    (fo_Enabled failover = false \/ ~ degraded_when s \/
     stored_status d = Some WorkerPoolStatusDegraded -> d' = d)) d L.
Proof.
  destruct (pool_status_spec s) as [Hdeg Hheal].
  unfold updatePoolStatus. wp_bind. eapply wp_mono; [|apply wp_GetWorkerPoolState].
  intros p d1 L1 [-> Hp]. cbn beta iota.
  set (prev := match p with inr _ => _ | inl _ => _ end).
  assert (match prev with inr st => stored_status d = Some st | inl _ => True end) as Hprev.
  { unfold prev, stored_status. destruct p as [[]|ps]; try done.
    - rewrite Hp. simpl. by rewrite decide_True.
    - destruct Hp as (h & Hh & Hne & ->). rewrite Hh. simpl. by rewrite decide_False. }
  destruct prev as [e|st]; [by split|].
  destruct (fo_Enabled failover && negb (String.eqb st (pool_status s))
            && String.eqb (pool_status s) WorkerPoolStatusDegraded) eqn:E.
  2: { split; [by intros s' [= <-]|done]. }
  apply andb_prop in E as [[Ef Est]%andb_prop Ed]. apply String.eqb_eq in Ed.
  wp_bind. eapply wp_mono; [|by apply (wp_any (CordonAllPendingWorkersInPool poolName))].
  intros r d2 L2 _. destruct r as [e|[]]; (split; [by intros s' [= <-] || done|]);
    (intros [Hf|[Hn|Hs]]; [congruence|by apply Hdeg in Ed|]);
    rewrite Hs in Hprev; injection Hprev as <-; by rewrite Ed in Est.
Qed.
(** ** Properties *)

Context `{SV : RedisServer, SL : !RedisLaws SV}.

(** [updatePoolStatus], on any lawful server: the state it returns is DEGRADED
    exactly when a failover threshold is crossed and HEALTHY otherwise (never
    another status), and the workers of the pool are touched only when the pool
    turns DEGRADED with failover enabled: if failover is disabled, or no
    threshold is crossed, or the stored state already is DEGRADED, nothing in the
    database changes. *)
Theorem updatePoolStatus_decides state (s : srv) L :
  ends (updatePoolStatus state) s L (λ r d',
    (forall state', r = inr state' ->
       ps_Status state' = WorkerPoolStatusDegraded /\ degraded_when state \/
       ps_Status state' = WorkerPoolStatusHealthy /\ ~ degraded_when state) /\
    (fo_Enabled failover = false \/ ~ degraded_when state \/
     stored_status (view s) = Some WorkerPoolStatusDegraded -> d' = view s)).
Proof using Type SL.
  apply ends_wp. eapply wp_mono; [|apply wp_updatePoolStatus].
  intros r d' L' [Hr Hd]. split; [|done]. intros state' E. rewrite (Hr _ E). simpl.
  destruct (pool_status_spec state) as [[H1 H2] [H3 H4]].
  destruct (decide (pool_status state = WorkerPoolStatusDegraded)) as [Ed|Ed]; [by left; auto|].
  right. split; tauto.
Qed.

(** The ready-machine count does not survive: on a reliable server, after
    [SetWorkerPoolState] of a pool without a stored state, [GetWorkerPoolState]
    succeeds and reports zero ready machines, whatever was written. *)
Theorem ready_machines_not_stored I state (s : srv) L :
  reliable I -> I s -> kv (view s) !! WorkerPoolStateKey poolName = None ->
  ends (SetWorkerPoolState poolName state ;; GetWorkerPoolState poolName) s L (λ r _,
    exists state', r = inr state' /\ ps_ReadyMachines state' = 0).
Proof using Type SL.
  intros HR HI Hn. eapply ends_rwp; [done..|]. wp_bind. unfold SetWorkerPoolState. wp_call.
  2: { exfalso. destruct H as [_ H]. eapply (H tt). exists ∅. rewrite Hn. split; [done|]. eauto. }
  destruct H as (h & _ & Hh & ->). rewrite Hn in Hh. injection Hh as <-.
  assert (as_hash (kv (set_kv (WorkerPoolStateKey poolName)
    (RVHash (hset_fields (pool_state_fields state) ∅)) (view s)) !! WorkerPoolStateKey poolName)
    = Some (hset_fields (pool_state_fields state) ∅)) as E
    by (simpl; by rewrite lookup_insert_eq).
  unfold GetWorkerPoolState. wp_bind. wp_call.
  - destruct H as [Hh ->]. rewrite E in Hh. apply (inj Some) in Hh as <-.
    rewrite decide_False by apply hset_nonempty. eexists. split; [done|]. apply pool_state_ready.
  - exfalso. destruct H as [_ H]. by eapply (H _ _ (conj E eq_refl)).
Qed.
End pool_health.

(** ** Concrete runs *)

Definition ex_failover : FailoverConfig := mkFailoverConfig true 2 10000 1.

(** Two pending workers, three ready machines. *)
Definition ex_pool_state : WorkerPoolState := mkWorkerPoolState "" 0 0 0 0 2 0 0 0 0 0 3.

Lemma updatePoolStatus_decides_witness :
  let d := empty_rdb in
  let p := updatePoolStatus (FMT := plain_fmt) "default" PoolModeExternal ex_failover ex_pool_state in
  ends (S := ref_server) p (on d) ∅ (λ r d',
    (forall state', r = inr state' ->
       ps_Status state' = WorkerPoolStatusDegraded /\ degraded_when PoolModeExternal ex_failover ex_pool_state \/
       ps_Status state' = WorkerPoolStatusHealthy /\ ~ degraded_when PoolModeExternal ex_failover ex_pool_state) /\
    (fo_Enabled ex_failover = false \/ ~ degraded_when PoolModeExternal ex_failover ex_pool_state \/
     stored_status "default" d = Some WorkerPoolStatusDegraded -> d' = d)) /\
  (run (S := ref_server) p (on d) ∅).1.1
    = inr (set_ps_Status WorkerPoolStatusDegraded ex_pool_state).
Proof.
  split; [|vm_compute; reflexivity].
  apply (updatePoolStatus_decides (FMT := plain_fmt) (SV := ref_server) "default" PoolModeExternal
    ex_failover ex_pool_state (on empty_rdb) ∅).
Defined.

Lemma ready_machines_not_stored_witness :
  ends (S := ref_server) (SetWorkerPoolState "default" ex_pool_state ;; GetWorkerPoolState "default")
    (on empty_rdb) ∅ (λ r _, exists state', r = inr state' /\ ps_ReadyMachines state' = 0).
Proof.
  apply (ready_machines_not_stored (SV := ref_server) "default" _ ex_pool_state (on empty_rdb) ∅
    ref_reliable); reflexivity.
Defined.
