(* ===== verification/TaskRepo.v ===== *)
(** * Tasks in flight (pkg/types/task.go, pkg/repository/task_redis.go)

    A task is a message stored under its entry key, listed in a global index and
    in the index of its stub, and claimed by the container that runs it.
    [TaskJson] is encoding/json on a message. *)

From S2P Require Import Prelude GoStd Redis Keys Types Codec Lock Env ContainerRepo.

Local Open Scope Z_scope.

(** ** Messages *)

(** The values an [interface{}] argument holds. *)
Inductive jvalue :=
| JNull
| JBool (b : bool)
| JNum (n : string)
| JStr (s : string)
| JBytes (b : string)
| JArr (l : list jvalue)
| JObj (fs : list (string * jvalue)).

Record TaskPolicy := mkTaskPolicy {
  tp_MaxRetries : Z;
  tp_Timeout : Z;
  tp_Expires : Z;
  tp_TTL : Z;
}.
#[export] Instance TaskPolicy_eq_dec : EqDecision TaskPolicy.
Proof. solve_decision. Defined.

(** [Args] and [Kwargs] are [None] for nil. *)
Record TaskMessage := mkTaskMessage {
  tm_TaskId : string;
  tm_WorkspaceName : string;
  tm_StubId : string;
  tm_Executor : string;
  tm_Args : option (list jvalue);
  tm_Kwargs : option (gmap string jvalue);
  tm_Policy : TaskPolicy;
  tm_Retries : Z;
  tm_Timestamp : Z;
}.

Definition DefaultTaskPolicy : TaskPolicy := mkTaskPolicy 3 3600 zeroTime 0.

(** [uuid] is the fresh id and [now] the clock, in seconds; the executor stays. *)
Definition Reset (uuid : string) (now : Z) (tm : TaskMessage) : TaskMessage :=
  mkTaskMessage uuid "" "" (tm_Executor tm) None None DefaultTaskPolicy 0 now.

Class TaskJson := {
  marshal_task : TaskMessage -> gerr + string;
  (** Into a fresh message; the fields filled before an error stay. *)
  unmarshal_task : string -> option gerr * TaskMessage;
}.

Definition with_args (a : option (list jvalue)) (tm : TaskMessage) : TaskMessage :=
  mkTaskMessage (tm_TaskId tm) (tm_WorkspaceName tm) (tm_StubId tm) (tm_Executor tm) a
    (tm_Kwargs tm) (tm_Policy tm) (tm_Retries tm) (tm_Timestamp tm).

(** The message is updated in place: nil arguments become empty ones. *)
Definition Encode `{TaskJson} (tm : TaskMessage) : (gerr + string) * TaskMessage :=
  let tm := match tm_Args tm with None => with_args (Some []) tm | Some _ => tm end in
  (marshal_task tm, tm).

(** *** Base64 (encoding/base64, StdEncoding)

    Line ends are skipped, the input is a sequence of groups of four characters
    of which the last may be padded, and the trailing bits are not checked. *)

Definition b64_value (c : Ascii.ascii) : option Z :=
  let n := Z.of_nat (Ascii.nat_of_ascii c) in
  if (65 <=? n) && (n <=? 90) then Some (n - 65)
  else if (97 <=? n) && (n <=? 122) then Some (n - 71)
  else if (48 <=? n) && (n <=? 57) then Some (n + 4)
  else if n =? 43 then Some 62
  else if n =? 47 then Some 63
  else None.

Definition byte_of (z : Z) : Ascii.ascii := Ascii.ascii_of_nat (Z.to_nat (z `mod` 256)).

Fixpoint skip_line_ends (s : string) : string :=
  match s with
  | "" => ""
  | String c s' =>
      if Ascii.eqb c "010"%char || Ascii.eqb c "013"%char then skip_line_ends s'
      else String c (skip_line_ends s')
  end.

Fixpoint b64_groups (s : string) : option string :=
  match s with
  | "" => Some ""
  | String a (String b (String c (String d s'))) =>
      va ← b64_value a;
      vb ← b64_value b;
      let x := byte_of (va * 4 + vb `div` 16) in
      if Ascii.eqb c "="%char then
        if Ascii.eqb d "="%char && String.eqb s' "" then Some (String x "") else None
      else
        vc ← b64_value c;
        let y := byte_of (vb * 16 + vc `div` 4) in
        if Ascii.eqb d "="%char then
          if String.eqb s' "" then Some (String x (String y "")) else None
        else
          vd ← b64_value d;
          rest ← b64_groups s';
          Some (String x (String y (String (byte_of (vc * 64 + vd)) rest)))
  | _ => None
  end.

Definition b64_decode (s : string) : option string := b64_groups (skip_line_ends s).

(** A string argument that is valid base64 becomes bytes. *)
Definition decode_arg (a : jvalue) : jvalue :=
  match a with
  | JStr s => match b64_decode s with Some data => JBytes data | None => a end
  | _ => a
  end.

Definition Decode `{TaskJson} (encodedData : string) : option gerr * TaskMessage :=
  let '(e, tm) := unmarshal_task encodedData in
  match e with
  | Some _ => (e, tm)
  | None => (None, with_args (option_map (map decode_arg) (tm_Args tm)) tm)
  end.

(** What the code relies on: a message whose strings are ASCII is read back with
    the same fields, the arguments apart. *)
Definition flat_task (m : TaskMessage) :=
  (tm_TaskId m, tm_WorkspaceName m, tm_StubId m, tm_Executor m, tm_Policy m, tm_Retries m,
   tm_Timestamp m).
Definition same_task (m m' : TaskMessage) : Prop := flat_task m = flat_task m'.

#[export] Instance same_task_equiv : Equivalence same_task.
Proof. split; unfold same_task; congruence. Qed.

Definition task_ascii (m : TaskMessage) : bool :=
  forallb ascii_only [tm_TaskId m; tm_WorkspaceName m; tm_StubId m; tm_Executor m].

Class TaskJsonLaws (TJ : TaskJson) : Prop := {
  task_json_roundtrip : forall m s,
    task_ascii m = true -> marshal_task m = inr s ->
    exists m', unmarshal_task s = (None, m') /\ same_task m m';
}.

Lemma Encode_Decode `{TaskJsonLaws} m s :
  task_ascii m = true -> (Encode m).1 = inr s ->
  (Decode s).1 = None /\ same_task m (Decode s).2.
Proof.
  intros Ha He. unfold Encode in He. simpl in He. unfold Decode.
  destruct (task_json_roundtrip (match tm_Args m with
    | Some _ => m | None => with_args (Some []) m end) s) as (m' & -> & Hm); [by destruct (tm_Args m)|done|].
  split; [done|]. simpl. by destruct (tm_Args m).
Qed.

(** ** The repository *)

Definition ClaimTask (workspaceName stubId taskId containerId : string) : M unit :=
  rcall (EWrap "failed to claim task") (CSet (TaskClaim workspaceName stubId taskId) containerId 0) ;;
  rcall (EWrap "failed to add task to claim index")
    (CSAdd (TaskClaimIndex workspaceName stubId) taskId) ;;
  ok tt.

Definition RemoveTaskClaim (workspaceName stubId taskId : string) : M unit :=
  rcall (EWrap "failed to remove task claim") (CDel [TaskClaim workspaceName stubId taskId]) ;;
  rcall (EWrap "failed to remove task from claim index")
    (CSRem (TaskClaimIndex workspaceName stubId) taskId) ;;
  ok tt.

Definition TasksClaimed (workspaceName stubId : string) : M Z :=
  tasks <- rcall (λ e, e) (CSMembers (TaskClaimIndex workspaceName stubId)) ;;
  ok (Z.of_nat (length tasks)).

Definition IsClaimed (workspaceName stubId taskId : string) : M bool :=
  n <- rcall (EWrap "failed to retrieve claim task") (CExists (TaskClaim workspaceName stubId taskId)) ;;
  ok (0 <? n).

(** The error of a pipelined command. *)
Definition err_of {R} (r : rerr + R) : list gerr :=
  match r with inl e => [ERedis e] | inr _ => [] end.

(** The five commands are sent together; the first error is returned. *)
Definition DeleteTaskState (workspaceName stubId taskId : string) : M unit :=
  r1 <~ cmd (CSRem TaskIndex (TaskEntry workspaceName stubId taskId)) ;;
  r2 <~ cmd (CSRem (TaskClaimIndex workspaceName stubId) taskId) ;;
  r3 <~ cmd (CSRem (TaskIndexByStub workspaceName stubId) taskId) ;;
  r4 <~ cmd (CDel [TaskEntry workspaceName stubId taskId]) ;;
  r5 <~ cmd (CDel [TaskClaim workspaceName stubId taskId]) ;;
  match (err_of r1 ++ err_of r2 ++ err_of r3 ++ err_of r4 ++ err_of r5)%list with
  | [] => ok tt
  | e :: _ => fail e
  end.

Definition SetTaskState (workspaceName stubId taskId msg : string) : M unit :=
  let entryKey := TaskEntry workspaceName stubId taskId in
  rcall (EWrap "failed to add task key to index") (CSAdd TaskIndex entryKey) ;;
  r <~ cmd (CSet entryKey msg 0) ;;
  match r with
  | inl e => DeleteTaskState workspaceName stubId taskId ;~ fail (ERedis e)
  | inr _ =>
      rcall (EWrap "failed to add task key to stub index")
        (CSAdd (TaskIndexByStub workspaceName stubId) taskId) ;;
      ok tt
  end.

Definition TasksInFlight (workspaceName stubId : string) : M Z :=
  tasks <- rcall (λ e, e) (CSMembers (TaskIndexByStub workspaceName stubId)) ;;
  ok (Z.of_nat (length tasks)).

Definition SetTaskRetryLock (workspaceName stubId taskId : string) : M unit :=
  Acquire "task" (TaskRetryLock workspaceName stubId taskId) 300 0.

Definition RemoveTaskRetryLock (workspaceName stubId taskId : string) : M unit :=
  Release "task" (TaskRetryLock workspaceName stubId taskId).

Section messages.
Context {TJ : TaskJson}.

(** The error of [Decode] is ignored. *)
Definition GetTaskState (workspaceName stubId taskId : string) : M TaskMessage :=
  msg <- get_str (TaskEntry workspaceName stubId taskId) ;;
  ok (Decode msg).2.

Fixpoint in_flight_loop (tasks : list string) : prog (list TaskMessage) :=
  match tasks with
  | [] => Ret []
  | taskKey :: tasks' =>
      r <~ cmd (CGet taskKey) ;;
      match r with
      | inr (Some msg) =>
          taskMessages <~ in_flight_loop tasks' ;;
          Ret ((Decode msg).2 :: taskMessages)
      | inr None =>
          match split_on colon taskKey with
          | _ :: workspaceName :: stubId :: taskId :: _ =>
              DeleteTaskState workspaceName stubId taskId ;~ in_flight_loop tasks'
          | _ => in_flight_loop tasks'
          end
      | inl _ => in_flight_loop tasks'
      end
  end.

Definition GetTasksInFlight : M (list TaskMessage) :=
  tasks <- rcall (λ e, e) (CSMembers TaskIndex) ;;
  taskMessages <~ in_flight_loop tasks ;;
  ok taskMessages.
End messages.

(** ** An encoding of the flat part of a message, for concrete runs *)

Definition zero_message : TaskMessage := mkTaskMessage "" "" "" "" None None (mkTaskPolicy 0 0 zeroTime 0) 0 0.

Definition bits_task_json : TaskJson := {|
  marshal_task m :=
    let p := tm_Policy m in
    inr (pos_bits (encode (tm_TaskId m, tm_WorkspaceName m, tm_StubId m, tm_Executor m,
      (tp_MaxRetries p, tp_Timeout p, tp_Expires p, tp_TTL p), tm_Retries m, tm_Timestamp m)));
  unmarshal_task s :=
    match p ← bits_pos s; decode p with
    | Some (id, ws, stub, ex, (mr, to, e, ttl), r, ts) =>
        (None, mkTaskMessage id ws stub ex (Some []) None (mkTaskPolicy mr to e ttl) r ts)
    | None => (Some (EMsg "invalid JSON"), zero_message)
    end |}.

#[export] Instance bits_task_json_laws : TaskJsonLaws bits_task_json.
Proof.
  split. intros [id ws stub ex a k [mr to e ttl] r ts] s _ [= <-]. simpl.
  rewrite bits_pos_bits. simpl. rewrite decode_encode. by eexists.
Qed.
