(* ===== verification/Dispatcher.v ===== *)
(** * The task dispatcher (pkg/task/dispatch.go)

    The dispatcher stores the tasks it sends, hands them to the executor they name
    and, every five seconds, expires the unclaimed ones and retries the claimed
    ones whose heartbeat is missing.  An executor ([TaskOps]) is an implementation
    of [types.TaskInterface]; the message a task points to is passed to its
    methods, since the dispatcher updates it in place. *)

From S2P Require Import Prelude GoStd Redis Keys Types Codec Lock Env ContainerRepo.
From S2P Require Import PoolManager TaskRepo.

Local Open Scope Z_scope.
Set Default Proof Using "Type".

Definition TaskExpired : string := "expired".
Definition TaskExceededRetryLimit : string := "exceeded_retry_limit".
Definition TaskRequestCancelled : string := "request_cancelled".
Definition TaskInvalidRequestPayload : string := "invalid_request_payload".

Record TaskMetadata := mkTaskMetadata {
  md_TaskId : string;
  md_StubId : string;
  md_WorkspaceName : string;
  md_ContainerId : string;
}.

Record TaskOps := mkTaskOps {
  Execute : TaskMessage -> M unit;
  Cancel : TaskMessage -> string -> M unit;
  Retry : TaskMessage -> M unit;
  HeartBeat : TaskMessage -> M bool;
  Metadata : TaskMessage -> TaskMetadata;
}.

(** A task: its executor and the message it points to. *)
Record Task := mkTask { task_ops : TaskOps; Message : TaskMessage }.

Abbreviation TaskFactory := (TaskMessage -> gerr + Task).

(** What [taskMessagePool.New] returns. *)
Definition new_message (uuid : string) : TaskMessage :=
  mkTaskMessage uuid "" "" "" None None (mkTaskPolicy 0 0 zeroTime 0) 0 0.

(** [pooled] is the message [taskMessagePool.Get] gives. *)
Definition getTaskMessage (uuid : string) (now : Z) (pooled : TaskMessage) : TaskMessage :=
  mkTaskMessage uuid "" "" "" (Some []) (Some ∅) (tm_Policy pooled) (tm_Retries pooled) now.

Definition releaseTaskMessage (uuid : string) (now : Z) (v : TaskMessage) : TaskMessage :=
  Reset uuid now v.

Section dispatcher.
Context {TJ : TaskJson}.

Definition Register (executors : gmap string TaskFactory) (executor : string)
    (taskFactory : TaskFactory) : gmap string TaskFactory :=
  SafeMap_Set executors executor taskFactory.

Section executors.
Context (executors : gmap string TaskFactory).

Definition invalid_executor (executor : string) : gerr :=
  EMsg ("invalid task executor: " +:+ executor).

(** The message that is stored and handed to the executor. *)
Definition sent_message (uuid : string) (now : Z) (pooled : TaskMessage) (executor workspaceName stubId : string)
    (args : option (list jvalue)) (kwargs : option (gmap string jvalue)) (policy : TaskPolicy) : TaskMessage :=
  let taskMessage := getTaskMessage uuid now pooled in
  mkTaskMessage (tm_TaskId taskMessage) workspaceName stubId executor args kwargs policy
    (tm_Retries taskMessage) now.

(** The result, and the message put back into the pool, if any. *)
Definition Send (uuid uuid' : string) (now : Z) (pooled : TaskMessage) (executor workspaceName stubId : string)
    (args : option (list jvalue)) (kwargs : option (gmap string jvalue)) (policy : TaskPolicy)
    : prog ((gerr + Task) * option TaskMessage) :=
  let taskMessage := sent_message uuid now pooled executor workspaceName stubId args kwargs policy in
  match SafeMap_Get executors executor with
  | None => Ret (inl (invalid_executor executor), None)
  | Some taskFactory =>
      match taskFactory taskMessage with
      | inl err => Ret (inl err, Some (releaseTaskMessage uuid' now taskMessage))
      | inr task =>
          let '(enc, taskMessage) := Encode taskMessage in
          let released := Some (releaseTaskMessage uuid' now taskMessage) in
          match enc with
          | inl err => Ret (inl err, released)
          | inr msg =>
              let taskId := md_TaskId (Metadata (task_ops task) (Message task)) in
              r <~ SetTaskState workspaceName stubId taskId msg ;;
              Ret (match r with inl err => inl err | inr _ => inr task end, released)
          end
      end
  end.

Definition SendAndExecute (uuid uuid' : string) (now : Z) (pooled : TaskMessage) (executor workspaceName stubId : string)
    (args : option (list jvalue)) (kwargs : option (gmap string jvalue)) (policy : TaskPolicy)
    : prog ((gerr + Task) * option TaskMessage) :=
  sent <~ Send uuid uuid' now pooled executor workspaceName stubId args kwargs policy ;;
  match sent with
  | (inl err, released) => Ret (inl err, released)
  | (inr task, released) =>
      r <~ Execute (task_ops task) (Message task) ;;
      Ret (match r with inl err => inl err | inr _ => inr task end, released)
  end.

Definition Retrieve (workspaceName stubId taskId : string) : M Task :=
  taskMessage <- GetTaskState workspaceName stubId taskId ;;
  match SafeMap_Get executors (tm_Executor taskMessage) with
  | None => fail (invalid_executor (tm_Executor taskMessage))
  | Some taskFactory => Ret (taskFactory taskMessage)
  end.

Definition Complete (workspaceName stubId taskId : string) : M unit :=
  DeleteTaskState workspaceName stubId taskId.

Definition Claim (workspaceName stubId taskId containerId : string) : M unit :=
  ClaimTask workspaceName stubId taskId containerId.

Definition retried (now : Z) (m : TaskMessage) : TaskMessage :=
  mkTaskMessage (tm_TaskId m) (tm_WorkspaceName m) (tm_StubId m) (tm_Executor m) (tm_Args m)
    (tm_Kwargs m) (tm_Policy m) (wrap_u64 (tm_Retries m + 1)) now.

(** Under the retry lock. *)
Definition retry_locked (now : Z) (task : Task) : M unit :=
  let taskMessage := Message task in
  let ws := tm_WorkspaceName taskMessage in
  let stub := tm_StubId taskMessage in
  let id := tm_TaskId taskMessage in
  if tp_MaxRetries (tm_Policy taskMessage) <=? tm_Retries taskMessage then
    Cancel (task_ops task) taskMessage TaskExceededRetryLimit ;;
    Complete ws stub id
  else
    RemoveTaskClaim ws stub id ;;
    let '(enc, taskMessage) := Encode (retried now taskMessage) in
    match enc with
    | inl err => fail err
    | inr msg =>
        SetTaskState ws stub id msg ;;
        Retry (task_ops task) taskMessage
    end.

Definition RetryTask (now : Z) (task : Task) : M unit :=
  let taskMessage := Message task in
  with_lock "task"
    (TaskRetryLock (tm_WorkspaceName taskMessage) (tm_StubId taskMessage) (tm_TaskId taskMessage))
    300 0 (retry_locked now task).

(** One task of one tick of [monitor]; [nowNs] is the clock in nanoseconds. *)
Definition monitor_task (nowNs : Z) (taskMessage : TaskMessage) : prog unit :=
  let ws := tm_WorkspaceName taskMessage in
  let stub := tm_StubId taskMessage in
  let id := tm_TaskId taskMessage in
  match SafeMap_Get executors (tm_Executor taskMessage) with
  | None => Complete ws stub id ;~ Ret tt
  | Some taskFactory =>
      match taskFactory taskMessage with
      | inl _ => Ret tt
      | inr task =>
          claimed <~ IsClaimed ws stub id ;;
          match claimed with
          | inl _ => Ret tt
          | inr false =>
              if tp_Expires (tm_Policy taskMessage) <? nowNs
              then Cancel (task_ops task) (Message task) TaskExpired ;~ Complete ws stub id ;~ Ret tt
              else Ret tt
          | inr true =>
              heartbeat <~ HeartBeat (task_ops task) (Message task) ;;
              match heartbeat with
              | inl _ => Ret tt
              | inr false => RetryTask (nowNs `div` second) task ;~ Ret tt
              | inr true => Ret tt
              end
          end
      end
  end.

Fixpoint monitor_loop (nowNs : Z) (tasks : list TaskMessage) : prog unit :=
  match tasks with
  | [] => Ret tt
  | taskMessage :: tasks' => monitor_task nowNs taskMessage ;~ monitor_loop nowNs tasks'
  end.

Definition monitor_tick (nowNs : Z) : prog unit :=
  tasks <~ GetTasksInFlight ;;
  match tasks with inl _ => Ret tt | inr tasks => monitor_loop nowNs tasks end.
End executors.
End dispatcher.
