(* ===== verification/TaskProps.v ===== *)
(** * What the task repository promises

    The tasks of one stub are two finite maps: the messages in flight and the
    claims.  [task_rel] relates them to the keys of the database, and every
    operation of the repository implements its operation on the maps. *)

From S2P Require Import Prelude GoStd Redis Keys Types Codec Lock Env ContainerRepo TaskRepo.

Local Open Scope Z_scope.
Set Default Proof Using "Type".

(** ** Reliable commands *)

Lemma rwp_rcall_ok {R} w (c : rcmd R) Q d L :
  (exists r d1, rsem c d r d1) -> (forall r d1, rsem c d r d1 -> Q (inr r) d1 L) ->
  rwp (rcall w c) Q d L.
Proof.
  intros (r & d1 & H) HQ. apply wp_rcall; [done|]. intros e d' [_ Hno]. by destruct (Hno r d1).
Qed.

Lemma rwp_cmd_ok {R} (c : rcmd R) Q d L :
  (exists r d1, rsem c d r d1) -> (forall r d1, rsem c d r d1 -> Q (inr r) d1 L) ->
  rwp (cmd c) Q d L.
Proof.
  intros (r & d1 & H) HQ. apply wp_cmd; [done|]. intros e d' [_ Hno]. by destruct (Hno r d1).
Qed.

Ltac rwp_ok := first [apply rwp_rcall_ok | apply rwp_cmd_ok].

(** ** Keys of the tasks of a stub *)

Definition id_ok (id : string) : Prop :=
  no_colon id = true /\ id <> "stub_index" /\ id <> "claim_index".

Section task_keys.
Context (ws stub : string) (Hws : no_colon ws = true) (Hstub : no_colon stub = true).

Lemma split_TaskIndex : split_on colon TaskIndex = ["task"; "index"].
Proof. reflexivity. Qed.
Lemma split_TaskIndexByStub :
  split_on colon (TaskIndexByStub ws stub) = ["task"; ws; stub; "stub_index"].
Proof using Hws Hstub. apply split_key; [set_solver|done|by repeat constructor]. Qed.
Lemma split_TaskClaimIndex :
  split_on colon (TaskClaimIndex ws stub) = ["task"; ws; stub; "claim_index"].
Proof using Hws Hstub. apply split_key; [set_solver|done|by repeat constructor]. Qed.
Lemma split_TaskEntry id :
  no_colon id = true -> split_on colon (TaskEntry ws stub id) = ["task"; ws; stub; id].
Proof using Hws Hstub. intros. apply split_key; [set_solver|done|by repeat constructor]. Qed.
Lemma split_TaskClaim id :
  no_colon id = true -> split_on colon (TaskClaim ws stub id) = ["task"; ws; stub; id; "claim"].
Proof using Hws Hstub. intros. apply split_key; [set_solver|done|by repeat constructor]. Qed.
End task_keys.

Create Rewrite HintDb task_keys.
#[export] Hint Rewrite split_TaskIndex split_TaskIndexByStub split_TaskClaimIndex split_TaskEntry
  split_TaskClaim using (by unfold id_ok in *; intuition) : task_keys.

(** Two different keys of the tasks of a stub. *)
Ltac task_key_ne :=
  let E := fresh in
  intros E; apply (f_equal (split_on colon)) in E; autorewrite with task_keys in E;
  unfold id_ok in *; simplify_eq; intuition congruence.

(** ** Lookups after an effect *)

Lemma as_set_set_or_del k X d : as_set (kv (set_or_del k X d) !! k) = Some X.
Proof.
  unfold set_or_del. case_decide as E; simpl; [rewrite lookup_delete_eq; by subst|].
  by rewrite lookup_insert_eq.
Qed.

Lemma set_or_del_ne k k' X d : k <> k' -> kv (set_or_del k X d) !! k' = kv d !! k'.
Proof.
  intros. unfold set_or_del. case_decide; simpl;
    [by rewrite lookup_delete_ne|by rewrite lookup_insert_ne].
Qed.

Lemma set_kv_ne k k' v d : k <> k' -> kv (set_kv k v d) !! k' = kv d !! k'.
Proof. intros. simpl. by rewrite lookup_insert_ne. Qed.
Lemma set_kv_eq k v d : kv (set_kv k v d) !! k = Some v.
Proof. simpl. by rewrite lookup_insert_eq. Qed.
Lemma del_kv_ne k k' d : k <> k' -> kv (del_kv k d) !! k' = kv d !! k'.
Proof. intros. simpl. by rewrite lookup_delete_ne. Qed.
Lemma del_kv_eq k d : kv (del_kv k d) !! k = None.
Proof. simpl. by rewrite lookup_delete_eq. Qed.

(** The contents after [SET] without expiry. *)
Definition set_str (k v : string) (d : rdb) : rdb := mkRdb (<[k := RVStr v]> (kv d)) (delete k (ttl d)).

Lemma set_str_ne k k' v d : k <> k' -> kv (set_str k v d) !! k' = kv d !! k'.
Proof. intros. simpl. by rewrite lookup_insert_ne. Qed.
Lemma set_str_eq k v d : kv (set_str k v d) !! k = Some (RVStr v).
Proof. simpl. by rewrite lookup_insert_eq. Qed.

Ltac task_lookup :=
  repeat first
    [ rewrite as_set_set_or_del | rewrite set_kv_eq | rewrite set_str_eq | rewrite del_kv_eq
    | rewrite set_or_del_ne by task_key_ne | rewrite set_kv_ne by task_key_ne
    | rewrite set_str_ne by task_key_ne | rewrite del_kv_ne by task_key_ne ].

(** ** The abstract state *)

Record tstate := mkTstate { ts_tasks : gmap string string; ts_claims : gmap string string }.

Section task_rel.
Context {TJ : TaskJson}.
Context (ws stub : string) (Hws : no_colon ws = true) (Hstub : no_colon stub = true).

Record task_rel (d : rdb) (st : tstate) : Prop := {
  tr_stub : as_set (kv d !! TaskIndexByStub ws stub) = Some (dom (ts_tasks st));
  tr_claimed : as_set (kv d !! TaskClaimIndex ws stub) = Some (dom (ts_claims st));
  tr_index : exists X, as_set (kv d !! TaskIndex) = Some X /\
    forall id, id_ok id -> TaskEntry ws stub id ∈ X <-> id ∈ dom (ts_tasks st);
  tr_entry : forall id, id_ok id -> kv d !! TaskEntry ws stub id = RVStr <$> ts_tasks st !! id;
  tr_claim : forall id, id_ok id -> kv d !! TaskClaim ws stub id = RVStr <$> ts_claims st !! id;
}.

Inductive task_op :=
| TSet (id msg : string)
| TDelete (id : string)
| TClaim (id containerId : string)
| TUnclaim (id : string)
| TGet (id : string)
| TInFlight
| TClaimed
| TIsClaimed (id : string).

Inductive task_res :=
| TUnit
| TNum (n : Z)
| TBool (b : bool)
| TMsg (m : TaskMessage)
| TErr (e : gerr).

Definition res_of {A} (f : A -> task_res) (p : M A) : prog task_res :=
  r <~ p ;; Ret (match r with inl e => TErr e | inr a => f a end).

Definition task_exec (op : task_op) : prog task_res :=
  match op with
  | TSet id msg => res_of (λ _, TUnit) (SetTaskState ws stub id msg)
  | TDelete id => res_of (λ _, TUnit) (DeleteTaskState ws stub id)
  | TClaim id c => res_of (λ _, TUnit) (ClaimTask ws stub id c)
  | TUnclaim id => res_of (λ _, TUnit) (RemoveTaskClaim ws stub id)
  | TGet id => res_of TMsg (GetTaskState ws stub id)
  | TInFlight => res_of TNum (TasksInFlight ws stub)
  | TClaimed => res_of TNum (TasksClaimed ws stub)
  | TIsClaimed id => res_of TBool (IsClaimed ws stub id)
  end.

Fixpoint task_execs (ops : list task_op) : prog (list task_res) :=
  match ops with
  | [] => Ret []
  | op :: ops' => r <~ task_exec op ;; rs <~ task_execs ops' ;; Ret (r :: rs)
  end.

(** The specification: plain operations on the maps. *)
Definition tstep (op : task_op) (st : tstate) : task_res * tstate :=
  let (T, C) := st in
  match op with
  | TSet id msg => (TUnit, mkTstate (<[id := msg]> T) C)
  | TDelete id => (TUnit, mkTstate (delete id T) (delete id C))
  | TClaim id c => (TUnit, mkTstate T (<[id := c]> C))
  | TUnclaim id => (TUnit, mkTstate T (delete id C))
  | TGet id => (match T !! id with
                | Some msg => TMsg (Decode msg).2
                | None => TErr ERedisNil
                end, st)
  | TInFlight => (TNum (Z.of_nat (size T)), st)
  | TClaimed => (TNum (Z.of_nat (size C)), st)
  | TIsClaimed id => (TBool (bool_decide (is_Some (C !! id))), st)
  end.

Fixpoint tsteps (ops : list task_op) (st : tstate) : list task_res * tstate :=
  match ops with
  | [] => ([], st)
  | op :: ops' =>
      let '(r, st1) := tstep op st in
      let '(rs, st2) := tsteps ops' st1 in (r :: rs, st2)
  end.

Definition op_id (op : task_op) : option string :=
  match op with
  | TSet id _ | TDelete id | TClaim id _ | TUnclaim id | TGet id | TIsClaimed id => Some id
  | TInFlight | TClaimed => None
  end.

Definition task_op_ok (op : task_op) : Prop := forall id, op_id op = Some id -> id_ok id.

(** ** Each effect on the relation *)

Lemma rel_set d st X id msg :
  id_ok id -> task_rel d st -> as_set (kv d !! TaskIndex) = Some X ->
  task_rel (set_kv (TaskIndexByStub ws stub) (RVSet ({[id]} ∪ dom (ts_tasks st)))
     (set_str (TaskEntry ws stub id) msg
       (set_kv TaskIndex (RVSet ({[TaskEntry ws stub id]} ∪ X)) d)))
    (mkTstate (<[id := msg]> (ts_tasks st)) (ts_claims st)).
Proof using Hws Hstub.
  intros Hid [H1 H2 (X' & HX & Hin) H4 H5] EX. rewrite EX in HX. injection HX as <-.
  constructor; simpl ts_tasks; simpl ts_claims.
  - task_lookup. simpl. by rewrite dom_insert_L.
  - task_lookup. done.
  - task_lookup. eexists. split; [done|]. intros id' Hid'.
    rewrite elem_of_union, elem_of_singleton, dom_insert, elem_of_union, elem_of_singleton.
    rewrite (Hin id') by done. split; (intros [E|E]; [left|by right]); [|by subst].
    destruct (decide (id' = id)) as [|Hne]; [done|]. by exfalso; revert E; task_key_ne.
  - intros id' Hid'. destruct (decide (id = id')) as [<-|Hne]; task_lookup.
    + by rewrite lookup_insert_eq.
    + rewrite lookup_insert_ne by done. by apply H4.
  - intros id' Hid'. task_lookup. by apply H5.
Qed.

Lemma rel_delete d st X id :
  id_ok id -> task_rel d st -> as_set (kv d !! TaskIndex) = Some X ->
  task_rel (del_kv (TaskClaim ws stub id) (del_kv (TaskEntry ws stub id)
     (set_or_del (TaskIndexByStub ws stub) (dom (ts_tasks st) ∖ {[id]})
       (set_or_del (TaskClaimIndex ws stub) (dom (ts_claims st) ∖ {[id]})
         (set_or_del TaskIndex (X ∖ {[TaskEntry ws stub id]}) d)))))
    (mkTstate (delete id (ts_tasks st)) (delete id (ts_claims st))).
Proof using Hws Hstub.
  intros Hid [H1 H2 (X' & HX & Hin) H4 H5] EX. rewrite EX in HX. injection HX as <-.
  constructor; simpl ts_tasks; simpl ts_claims.
  - task_lookup. by rewrite dom_delete_L.
  - task_lookup. by rewrite dom_delete_L.
  - task_lookup. eexists. split; [done|]. intros id' Hid'.
    rewrite elem_of_difference, elem_of_singleton, dom_delete, elem_of_difference, elem_of_singleton.
    rewrite (Hin id') by done. split; intros [E1 E2]; (split; [done|]); [by intros ->|].
    task_key_ne.
  - intros id' Hid'. destruct (decide (id = id')) as [<-|Hne]; task_lookup.
    + by rewrite lookup_delete_eq.
    + rewrite lookup_delete_ne by done. by apply H4.
  - intros id' Hid'. destruct (decide (id = id')) as [<-|Hne]; task_lookup.
    + by rewrite lookup_delete_eq.
    + rewrite lookup_delete_ne by done. by apply H5.
Qed.

Lemma rel_claim d st id c :
  id_ok id -> task_rel d st ->
  task_rel (set_kv (TaskClaimIndex ws stub) (RVSet ({[id]} ∪ dom (ts_claims st)))
     (set_str (TaskClaim ws stub id) c d))
    (mkTstate (ts_tasks st) (<[id := c]> (ts_claims st))).
Proof using Hws Hstub.
  intros Hid [H1 H2 (X & HX & Hin) H4 H5]. constructor; simpl ts_tasks; simpl ts_claims.
  - task_lookup. done.
  - task_lookup. simpl. by rewrite dom_insert_L.
  - task_lookup. eauto.
  - intros id' Hid'. task_lookup. by apply H4.
  - intros id' Hid'. destruct (decide (id = id')) as [<-|Hne]; task_lookup.
    + by rewrite lookup_insert_eq.
    + rewrite lookup_insert_ne by done. by apply H5.
Qed.

Lemma rel_unclaim d st id :
  id_ok id -> task_rel d st ->
  task_rel (set_or_del (TaskClaimIndex ws stub) (dom (ts_claims st) ∖ {[id]})
     (del_kv (TaskClaim ws stub id) d))
    (mkTstate (ts_tasks st) (delete id (ts_claims st))).
Proof using Hws Hstub.
  intros Hid [H1 H2 (X & HX & Hin) H4 H5]. constructor; simpl ts_tasks; simpl ts_claims.
  - task_lookup. done.
  - task_lookup. by rewrite dom_delete_L.
  - task_lookup. eauto.
  - intros id' Hid'. task_lookup. by apply H4.
  - intros id' Hid'. destruct (decide (id = id')) as [<-|Hne]; task_lookup.
    + by rewrite lookup_delete_eq.
    + rewrite lookup_delete_ne by done. by apply H5.
Qed.

(** ** Each operation *)

(** SADD and SREM on a key whose set is known, SET and DEL. *)
Ltac rwp_set_cmd H :=
  rwp_ok; [ exists tt; do 2 eexists; split; [exact H | reflexivity]
          | intros ? ? (? & HX & ->); rewrite H in HX; apply (inj Some) in HX as <- ].
Ltac rwp_upd :=
  rwp_ok; [ by eexists inhabitant, _
          | let d1 := fresh in let Hd1 := fresh in
            intros ? d1 Hd1;
            lazymatch type of Hd1 with
            | rsem (CSet ?k ?v 0) ?d _ _ => change (d1 = set_str k v d) in Hd1
            | rsem (CDel [?k]) ?d _ _ => change (d1 = del_kv k d) in Hd1
            end; subst d1; cbn beta iota ].

Lemma rwp_set d st L id msg :
  id_ok id -> task_rel d st ->
  rwp (SetTaskState ws stub id msg) (λ r d' L', r = inr tt /\ L' = L /\
    task_rel d' (mkTstate (<[id := msg]> (ts_tasks st)) (ts_claims st))) d L.
Proof using Hws Hstub.
  intros Hid Hr. pose proof Hr as [H1 H2 (X & EX & Hin) H4 H5].
  unfold SetTaskState. wp_bind. rwp_set_cmd EX. wp_bind. rwp_upd.
  assert (as_set (kv (set_str (TaskEntry ws stub id) msg
    (set_kv TaskIndex (RVSet ({[TaskEntry ws stub id]} ∪ X)) d)) !! TaskIndexByStub ws stub)
    = Some (dom (ts_tasks st))) as E by (by task_lookup).
  wp_bind. rwp_set_cmd E. split; [done|]. split; [done|]. by apply rel_set.
Qed.

Lemma rwp_delete d st L id :
  id_ok id -> task_rel d st ->
  rwp (DeleteTaskState ws stub id) (λ r d' L', r = inr tt /\ L' = L /\
    task_rel d' (mkTstate (delete id (ts_tasks st)) (delete id (ts_claims st)))) d L.
Proof using Hws Hstub.
  intros Hid Hr. pose proof Hr as [H1 H2 (X & EX & Hin) H4 H5].
  unfold DeleteTaskState. wp_bind. rwp_set_cmd EX.
  wp_bind.
  assert (as_set (kv (set_or_del TaskIndex (X ∖ {[TaskEntry ws stub id]}) d) !! TaskClaimIndex ws stub)
    = Some (dom (ts_claims st))) as E1 by (by task_lookup).
  rwp_set_cmd E1. wp_bind.
  assert (as_set (kv (set_or_del (TaskClaimIndex ws stub) (dom (ts_claims st) ∖ {[id]})
    (set_or_del TaskIndex (X ∖ {[TaskEntry ws stub id]}) d)) !! TaskIndexByStub ws stub)
    = Some (dom (ts_tasks st))) as E2 by (by task_lookup).
  rwp_set_cmd E2. wp_bind. rwp_upd. wp_bind. rwp_upd.
  split; [done|]. split; [done|]. by apply rel_delete.
Qed.

Lemma rwp_claim d st L id c :
  id_ok id -> task_rel d st ->
  rwp (ClaimTask ws stub id c) (λ r d' L', r = inr tt /\ L' = L /\
    task_rel d' (mkTstate (ts_tasks st) (<[id := c]> (ts_claims st)))) d L.
Proof using Hws Hstub.
  intros Hid Hr. pose proof Hr as [H1 H2 _ H4 H5].
  unfold ClaimTask. wp_bind. rwp_upd. wp_bind.
  assert (as_set (kv (set_str (TaskClaim ws stub id) c d) !! TaskClaimIndex ws stub)
    = Some (dom (ts_claims st))) as E by (by task_lookup).
  rwp_set_cmd E. split; [done|]. split; [done|]. by apply rel_claim.
Qed.

Lemma rwp_unclaim d st L id :
  id_ok id -> task_rel d st ->
  rwp (RemoveTaskClaim ws stub id) (λ r d' L', r = inr tt /\ L' = L /\
    task_rel d' (mkTstate (ts_tasks st) (delete id (ts_claims st)))) d L.
Proof using Hws Hstub.
  intros Hid Hr. pose proof Hr as [H1 H2 _ H4 H5].
  unfold RemoveTaskClaim. wp_bind. rwp_upd. wp_bind.
  assert (as_set (kv (del_kv (TaskClaim ws stub id) d) !! TaskClaimIndex ws stub)
    = Some (dom (ts_claims st))) as E by (by task_lookup).
  rwp_set_cmd E. split; [done|]. split; [done|]. by apply rel_unclaim.
Qed.

Lemma rwp_get d st L id :
  id_ok id -> task_rel d st ->
  rwp (GetTaskState ws stub id) (λ r d' L', d' = d /\ L' = L /\
    r = match ts_tasks st !! id with
        | Some msg => inr (Decode msg).2
        | None => inl ERedisNil
        end) d L.
Proof.
  intros Hid [H1 H2 _ H4 H5]. specialize (H4 id Hid).
  unfold GetTaskState, get_str. wp_bind. wp_bind. rwp_ok.
  - exists (ts_tasks st !! id), d. simpl. rewrite H4. by destruct (ts_tasks st !! id).
  - intros r d1 [Hr ->]. rewrite H4 in Hr.
    destruct (ts_tasks st !! id); simpl in Hr; injection Hr as <-; simpl; done.
Qed.

(** The size of an index is the size of the map. *)
Lemma rwp_count d L k (m : gmap string string) :
  as_set (kv d !! k) = Some (dom m) ->
  rwp (tasks <- (rcall (λ e, e) (CSMembers k)) ;; ok (Z.of_nat (length tasks))) (λ r d' L',
    r = inr (Z.of_nat (size m)) /\ d' = d /\ L' = L) d L.
Proof.
  intros H. wp_bind. rwp_ok; [by exists (elements (dom m)), d, (dom m)|].
  intros r d1 (X & HX & Hr & ->). rewrite H in HX. injection HX as <-.
  split; [|done]. by rewrite Hr, <- size_dom.
Qed.

Lemma rwp_is_claimed d st L id :
  id_ok id -> task_rel d st ->
  rwp (IsClaimed ws stub id) (λ r d' L',
    r = inr (bool_decide (is_Some (ts_claims st !! id))) /\ d' = d /\ L' = L) d L.
Proof.
  intros Hid [_ _ _ _ H5]. unfold IsClaimed. wp_bind. rwp_ok; [by eexists _, d|].
  intros r d1 [-> ->]. split; [|done]. unfold exists_kv. rewrite (H5 id Hid).
  by destruct (ts_claims st !! id).
Qed.

Lemma rwp_task_exec op d st L :
  task_op_ok op -> task_rel d st ->
  rwp (task_exec op) (λ r d' L', r = (tstep op st).1 /\ L' = L /\ task_rel d' (tstep op st).2) d L.
Proof using Hws Hstub.
  intros Hop Hr. destruct st as [T C].
  destruct op; unfold task_exec, res_of; simpl; wp_bind;
    try specialize (Hop _ eq_refl).
  - eapply wp_mono; [|by apply rwp_set]. by intros r d' L' (-> & -> & H).
  - eapply wp_mono; [|by apply rwp_delete]. by intros r d' L' (-> & -> & H).
  - eapply wp_mono; [|by apply rwp_claim]. by intros r d' L' (-> & -> & H).
  - eapply wp_mono; [|by apply rwp_unclaim]. by intros r d' L' (-> & -> & H).
  - eapply wp_mono; [|by apply rwp_get]. intros r d' L' (-> & -> & ->). simpl.
    by destruct (T !! id).
  - eapply wp_mono; [|by apply rwp_count, (tr_stub _ _ Hr)]. by intros r d' L' (-> & -> & ->).
  - eapply wp_mono; [|by apply rwp_count, (tr_claimed _ _ Hr)]. by intros r d' L' (-> & -> & ->).
  - eapply wp_mono; [|by apply rwp_is_claimed]. by intros r d' L' (-> & -> & ->).
Qed.

Lemma rwp_task_execs ops d st L :
  Forall task_op_ok ops -> task_rel d st ->
  rwp (task_execs ops) (λ rs d' L', rs = (tsteps ops st).1 /\ L' = L /\
    task_rel d' (tsteps ops st).2) d L.
Proof using Hws Hstub.
  intros Hops. revert d st L. induction Hops as [|op ops Hop Hops IH]; intros d st L Hr; [done|].
  simpl task_execs. simpl tsteps. wp_bind.
  eapply wp_mono; [|by apply rwp_task_exec]. intros r d1 L1 (-> & -> & Hr1).
  destruct (tstep op st) as [r st1]. simpl in *. wp_bind.
  eapply wp_mono; [|by apply (IH d1 st1)]. intros rs d2 L2 (-> & -> & Hr2).
  by destruct (tsteps ops st1).
Qed.

(** ** Footprints *)

(** The keys the operations on one task may change. *)
Definition own_keys (id : string) : gset string :=
  {[TaskIndex]} ∪ {[TaskIndexByStub ws stub]} ∪ {[TaskClaimIndex ws stub]} ∪
  {[TaskEntry ws stub id]} ∪ {[TaskClaim ws stub id]}.

Lemma touches_DeleteTaskState id : touches (own_keys id) (DeleteTaskState ws stub id).
Proof. unfold DeleteTaskState, own_keys. touches. Qed.
Lemma touches_SetTaskState id msg : touches (own_keys id) (SetTaskState ws stub id msg).
Proof. pose proof touches_DeleteTaskState. unfold SetTaskState, own_keys in *. touches. Qed.
Lemma touches_ClaimTask id c : touches (own_keys id) (ClaimTask ws stub id c).
Proof. unfold ClaimTask, own_keys. touches. Qed.
Lemma touches_RemoveTaskClaim id : touches (own_keys id) (RemoveTaskClaim ws stub id).
Proof. unfold RemoveTaskClaim, own_keys. touches. Qed.
Lemma touches_IsClaimed id : touches ∅ (IsClaimed ws stub id).
Proof. unfold IsClaimed. touches. Qed.

(** The relation looks at the keys of the stub's tasks only. *)
Lemma task_rel_frame ks d d' st :
  eq_except ks d d' -> TaskIndex ∉ ks -> TaskIndexByStub ws stub ∉ ks -> TaskClaimIndex ws stub ∉ ks ->
  (forall id, id_ok id -> TaskEntry ws stub id ∉ ks /\ TaskClaim ws stub id ∉ ks) ->
  task_rel d st -> task_rel d' st.
Proof.
  intros He Hi Hs Hc Hk [H1 H2 H3 H4 H5].
  constructor; try (intros id Hid; destruct (Hk id Hid));
    by rewrite (eq_except_kv _ _ _ _ He); auto.
Qed.

(** ** Properties *)

Context `{SV : RedisServer, SL : !RedisLaws SV}.

(** C30. On a reliable server the task repository of a stub implements two finite
    maps, the messages in flight and the claims: any sequence of
    [SetTaskState], [DeleteTaskState], [ClaimTask], [RemoveTaskClaim],
    [GetTaskState], [TasksInFlight], [TasksClaimed] and [IsClaimed] on task ids
    without colons (and other than the two index names) gives the results the maps
    give and leaves a database related to the maps' final state: the counts are
    those of the maps, a deleted task is neither in flight nor claimed, a claim
    outlives an update of the message. *)
Theorem task_repo_refines_maps I ops st (s : srv) L :
  reliable I -> I s -> Forall task_op_ok ops -> task_rel (view s) st ->
  ends (task_execs ops) s L (λ rs d',
    rs = (tsteps ops st).1 /\ task_rel d' (tsteps ops st).2).
Proof using Type Hws Hstub SL.
  intros HR HI Hops Hr. eapply ends_rwp; [done..|].
  eapply wp_mono; [|by apply rwp_task_execs]. naive_solver.
Qed.
End task_rel.

(** ** Concrete runs *)

Lemma empty_task_rel ws stub : task_rel ws stub empty_rdb (mkTstate ∅ ∅).
Proof.
  constructor; simpl; rewrite ?lookup_empty, ?dom_empty_L; try done.
  exists ∅. split; [done|]. intros id _. set_solver.
Qed.

Definition ex_task_ops : list task_op :=
  [TSet "t1" "msg"; TClaim "t1" "c1"; TSet "t2" "msg"; TIsClaimed "t1"; TClaimed; TUnclaim "t1";
   TDelete "t2"; TIsClaimed "t1"; TInFlight].

Lemma ex_task_ops_ok : Forall task_op_ok ex_task_ops.
Proof.
  unfold ex_task_ops.
  repeat (apply Forall_cons_2; [intros id E; simplify_eq/=; by repeat split|]).
  apply Forall_nil_2.
Qed.

Lemma task_repo_refines_maps_witness :
  ends (S := ref_server) (task_execs (TJ := bits_task_json) "ws" "stub" ex_task_ops) (on empty_rdb) ∅
    (λ rs d',
    rs = [TUnit; TUnit; TUnit; TBool true; TNum 1; TUnit; TUnit; TBool false; TNum 1] /\
    task_rel "ws" "stub" d' (mkTstate {["t1" := "msg"]} ∅)).
Proof.
  pose proof (task_repo_refines_maps (TJ := bits_task_json) "ws" "stub" eq_refl eq_refl
    (SV := ref_server) _ ex_task_ops (mkTstate ∅ ∅) (on empty_rdb) ∅ ref_reliable eq_refl
    ex_task_ops_ok (empty_task_rel _ _)) as H.
  assert (tsteps (TJ := bits_task_json) ex_task_ops (mkTstate ∅ ∅)
    = ([TUnit; TUnit; TUnit; TBool true; TNum 1; TUnit; TUnit; TBool false; TNum 1],
       mkTstate {["t1" := "msg"]} ∅)) as E by (vm_compute; reflexivity).
  rewrite E in H. exact H.
Defined.
