(* ===== verification/DispatcherProps.v ===== *)
(** * What the dispatcher promises

    [ExecutorLaws] is the interface between the dispatcher and an executor: its
    methods leave the stored tasks of the stub alone, except that [Cancel] may
    complete the task it cancels.  The theorems hold for every such executor. *)

From S2P Require Import Prelude GoStd Redis Keys Types Codec Lock Env ContainerRepo.
From S2P Require Import PoolManager TaskRepo TaskProps Dispatcher.

Local Open Scope Z_scope.
Set Default Proof Using "Type".

Definition tdelete (id : string) (st : tstate) : tstate :=
  mkTstate (delete id (ts_tasks st)) (delete id (ts_claims st)).

Lemma tdelete_idemp id st : tdelete id (tdelete id st) = tdelete id st.
Proof. unfold tdelete. simpl. by rewrite !delete_delete_eq. Qed.

Section laws.
Context (ws stub id : string).

Definition about (m : TaskMessage) : Prop :=
  tm_WorkspaceName m = ws /\ tm_StubId m = stub /\ tm_TaskId m = id.

(** [F] is the footprint of the executor itself and [beat] what its heartbeat reads. *)
Class ExecutorLaws (ops : TaskOps) (F : gset string) (beat : TaskMessage -> rdb -> gerr + bool) : Prop := {
  ex_lock : TaskRetryLock ws stub id ∉ F;
  ex_metadata : forall m, md_TaskId (Metadata ops m) = tm_TaskId m;
  ex_cancel : forall m reason d st L, about m -> task_rel ws stub d st ->
    rwp (Cancel ops m reason) (λ _ d' L',
      (task_rel ws stub d' st \/ task_rel ws stub d' (tdelete id st)) /\
      eq_except (F ∪ own_keys ws stub id) d d' /\ L' = L) d L;
  ex_retry : forall m d st L, about m -> task_rel ws stub d st ->
    rwp (Retry ops m) (λ _ d' L', task_rel ws stub d' st /\ eq_except F d d' /\ L' = L) d L;
  ex_heartbeat : forall m d L, about m ->
    rwp (HeartBeat ops m) (λ r d' L', r = beat m d /\ d' = d /\ L' = L) d L;
}.
End laws.

Section dispatch.
Context {TJ : TaskJson} {TJL : TaskJsonLaws TJ}.
Context (ws stub id : string).
Context (Hws : no_colon ws = true) (Hstub : no_colon stub = true) (Hid : id_ok id).
Context (ops : TaskOps) (F : gset string) (beat : TaskMessage -> rdb -> gerr + bool).
Context {EL : ExecutorLaws ws stub id ops F beat}.

Abbreviation rel := (task_rel ws stub).
Abbreviation lock := (TaskRetryLock ws stub id).

Lemma split_lock : split_on colon lock = ["task"; ws; stub; id; "retry_lock"].
Proof using Hws Hstub Hid.
  destruct Hid. apply split_key; [sets|done|by repeat constructor].
Qed.

(** The lock is none of the tasks' keys. *)
Ltac lock_ne :=
  let E := fresh in
  intros E; apply (f_equal (split_on colon)) in E; rewrite ?split_lock in E;
  autorewrite with task_keys in E; simplify_eq.

Lemma rel_lock d d' st : eq_except {[lock]} d d' -> rel d st -> rel d' st.
Proof using Hws Hstub Hid.
  intros He. apply (task_rel_frame _ _ _ _ _ _ He);
    [..|intros id' Hid'; split]; rewrite not_elem_of_singleton; lock_ne.
Qed.

Lemma lock_not_own : lock ∉ F ∪ own_keys ws stub id.
Proof using Hws Hstub Hid EL.
  pose proof (@ex_lock ws stub id ops F beat EL) as HF. unfold own_keys.
  rewrite !not_elem_of_union, !not_elem_of_singleton.
  repeat split; first [exact HF|lock_ne].
Qed.

(** ** Retrying a task *)

(** The outcome of [RetryTask] on the tasks [st]. *)
Definition retry_post (now : Z) (m : TaskMessage) (st : tstate) (r : gerr + unit) (d' : rdb) : Prop :=
  if tp_MaxRetries (tm_Policy m) <=? tm_Retries m then
    match r with
    | inr _ => rel d' (tdelete id st)
    | inl _ => rel d' st \/ rel d' (tdelete id st)
    end
  else
    match (Encode (retried now m)).1 with
    | inl e => r = inl e /\ rel d' (mkTstate (ts_tasks st) (delete id (ts_claims st)))
    | inr msg => rel d' (mkTstate (<[id := msg]> (ts_tasks st)) (delete id (ts_claims st)))
    end.

(** Sequencing with footprints: the next part starts from the new contents. *)
Lemma rwp_then {A} (p : prog A) (Q Q' : A -> rdb -> lmap -> Prop) ks d0 d L :
  eq_except ks d0 d ->
  rwp p (λ a d' L', Q a d' L' /\ eq_except ks d d' /\ L' = L) d L ->
  (forall a d' , Q a d' L -> eq_except ks d0 d' -> Q' a d' L) ->
  rwp p Q' d L.
Proof.
  intros H0 Hp H. eapply wp_mono; [|exact Hp]. intros a d' L' (HQ & He & ->).
  apply H; [done|]. by etransitivity.
Qed.

Lemma rwp_retry_locked now m d st L :
  about ws stub id m -> rel d st ->
  rwp (retry_locked now (mkTask ops m))
    (λ r d' L', retry_post now m st r d' /\ eq_except (F ∪ own_keys ws stub id) d d' /\ L' = L) d L.
Proof using Hws Hstub Hid EL.
  intros Hm Hr. pose proof Hm as (Ew & Es & Ei).
  unfold retry_locked, retry_post. simpl Message. simpl task_ops. rewrite Ew, Es, Ei.
  assert (own_keys ws stub id ⊆ F ∪ own_keys ws stub id) as Hsub by apply union_subseteq_r.
  destruct (_ <=? _).
  - wp_bind. eapply (rwp_then _ _ _ _ d); [reflexivity|by eapply (ex_cancel ws stub id)|].
    intros [e|[]] d1 Hd1 He1; [done|]. cbn beta iota.
    eapply (rwp_then _ (λ r d' _, r = inr tt /\ rel d' (tdelete id st)) _ _ d1); [reflexivity| |].
    2: { intros r d2 [-> Hd2] He2. split; [done|]. split; [by etransitivity|done]. }
    assert (forall st1, rel d1 st1 -> tdelete id st1 = tdelete id st ->
      rwp (Complete ws stub id) (λ r d' L', (r = inr tt /\ rel d' (tdelete id st)) /\
        eq_except (F ∪ own_keys ws stub id) d1 d' /\ L' = L) d1 L) as Hc.
    { intros st1 H1 E. eapply wp_mono; [|apply (rwp_touches (own_keys ws stub id));
        [apply touches_DeleteTaskState|by apply (rwp_delete ws stub Hws Hstub d1 st1)]].
      intros r d2 L2 ((-> & -> & H2) & He2 & _). unfold tdelete in *. rewrite E in H2.
      split; [done|]. split; [by eapply eq_except_weaken|done]. }
    destruct Hd1 as [H1|H1]; [by apply (Hc st)|apply (Hc (tdelete id st)); [done|apply tdelete_idemp]].
  - wp_bind. eapply wp_mono; [|apply (rwp_touches (own_keys ws stub id));
      [apply touches_RemoveTaskClaim|by apply (rwp_unclaim ws stub Hws Hstub d st)]].
    intros r d1 L1 ((-> & -> & H1) & He1 & _). cbn beta iota.
    destruct (Encode (retried now m)) as [[e|msg] m'] eqn:E; simpl.
    { split; [done|]. split; [by eapply eq_except_weaken|done]. }
    assert (about ws stub id m') as Hm'.
    { injection E as _ <-. by destruct (tm_Args m). }
    wp_bind. eapply wp_mono; [|apply (rwp_touches (own_keys ws stub id));
      [apply touches_SetTaskState|by apply (rwp_set ws stub Hws Hstub d1 _ L id msg Hid H1)]].
    intros r d2 L2 ((-> & -> & H2) & He2 & _). cbn beta iota.
    eapply wp_mono; [|by eapply (ex_retry ws stub id)].
    intros r d3 L3 (H3 & He3 & ->). split; [done|]. split; [|done].
    eapply eq_except_weaken in He3; [|apply union_subseteq_l].
    etransitivity; [|exact He3]. eapply eq_except_weaken; [exact Hsub|]. by etransitivity.
Qed.

Lemma rwp_RetryTask now m d st L :
  about ws stub id m -> rel d st -> kv d !! lock = None ->
  rwp (RetryTask now (mkTask ops m)) (λ r d' _, retry_post now m st r d' /\ kv d' !! lock = None) d L.
Proof using Hws Hstub Hid EL.
  intros Hm Hr Hl. pose proof Hm as (Ew & Es & Ei). unfold RetryTask. simpl Message.
  rewrite Ew, Es, Ei. apply (rwp_with_lock _ _ _ _ _ (F ∪ own_keys ws stub id)); [done|apply lock_not_own|..].
  - intros r d1 d2 He. unfold retry_post. repeat case_match; try apply rel_lock; try done.
    + intros [H1|H1]; [left|right]; by eapply rel_lock.
    + intros [-> H1]. split; [done|]. by eapply rel_lock.
  - intros d1 L1 He. apply rwp_retry_locked; [done|]. by eapply rel_lock.
Qed.

(** ** The retry budget *)

Context (executor : string) (executors : gmap string TaskFactory).
Context (Hexec : executors !! executor = Some (λ m, inr (mkTask ops m))).

(** One dispatcher finds the heartbeat missing and retries the stored task. *)
Definition retry_round (now : Z) : prog (gerr + unit) :=
  task <- Retrieve executors ws stub id ;; RetryTask now task.

Fixpoint retry_rounds (clock : nat -> Z) (n : nat) : prog unit :=
  match n with
  | O => Ret tt
  | S n' => retry_rounds clock n' ;~ retry_round (clock n') ;~ Ret tt
  end.

(** A stored message of this task, retried [k] times. *)
Definition stored_task (policy : TaskPolicy) (k : Z) (msg : string) : Prop :=
  let m := (Decode msg).2 in
  about ws stub id m /\ tm_Executor m = executor /\ tm_Policy m = policy /\ tm_Retries m = k.

(** After [n] rounds: retried [n] times up to the limit, gone only past it. *)
Definition budget (policy : TaskPolicy) (n : Z) (st : tstate) : Prop :=
  match ts_tasks st !! id with
  | Some msg => stored_task policy (Z.min n (tp_MaxRetries policy)) msg
  | None => tp_MaxRetries policy < n
  end.

Definition ids_ascii : Prop := forallb ascii_only [id; ws; stub; executor] = true.
Definition marshal_total : Prop := forall m, exists s, marshal_task m = inr s.

Lemma stored_retried policy k now m msg :
  ids_ascii -> about ws stub id m -> tm_Executor m = executor -> tm_Policy m = policy ->
  in_u64 (k + 1) -> tm_Retries m = k -> (Encode (retried now m)).1 = inr msg ->
  stored_task policy (k + 1) msg.
Proof using TJL.
  intros Ha (Ew & Es & Ei) Ex Ep Hk Er He.
  destruct (Encode_Decode (retried now m) msg) as [_ Hd]; [|done|].
  { unfold task_ascii, ids_ascii in *. simpl. by rewrite Ew, Es, Ei, Ex. }
  unfold same_task, flat_task in Hd. simpl in Hd. unfold stored_task, about.
  rewrite wrap_u_id in Hd by (rewrite Er; exact Hk). injection Hd as ? ? ? ? ? ? ?.
  repeat split; congruence.
Qed.

Lemma rwp_Retrieve d st L :
  rel d st -> (forall msg, ts_tasks st !! id = Some msg -> tm_Executor (Decode msg).2 = executor) ->
  rwp (Retrieve executors ws stub id) (λ r d' L', d' = d /\ L' = L /\
    r = match ts_tasks st !! id with
        | Some msg => inr (mkTask ops (Decode msg).2)
        | None => inl ERedisNil
        end) d L.
Proof using Hid Hexec.
  intros Hr He. unfold Retrieve. wp_bind. eapply wp_mono; [|by apply rwp_get].
  intros r d1 L1 (-> & -> & ->). destruct (ts_tasks st !! id) as [msg|] eqn:E; [|done].
  cbn beta iota. unfold SafeMap_Get. by rewrite (He msg), Hexec.
Qed.

Lemma rwp_retry_round policy n now d st L :
  ids_ascii -> marshal_total -> 0 <= n -> in_u64 (tp_MaxRetries policy) ->
  rel d st -> kv d !! lock = None -> budget policy n st ->
  rwp (retry_round now) (λ _ d' _, exists st', rel d' st' /\ kv d' !! lock = None /\
    budget policy (n + 1) st') d L.
Proof using Hws Hstub Hid EL Hexec TJL.
  intros Ha Ht Hn HM Hr Hl Hb. unfold retry_round. wp_bind.
  eapply wp_mono; [|apply (rwp_Retrieve d st L Hr)].
  2: { intros msg E. unfold budget in Hb. rewrite E in Hb. by destruct Hb as (_ & ? & _). }
  intros r d1 L1 (-> & -> & ->). unfold budget in Hb.
  destruct (ts_tasks st !! id) as [msg|] eqn:E; cbn beta iota.
  2: { exists st. split; [done|]. split; [done|]. unfold budget. rewrite E. lia. }
  destruct Hb as (Hm & Hx & Hp & Hk). eapply wp_mono; [|by apply rwp_RetryTask].
  intros r d2 L2 [H2 Hl2]. unfold retry_post in H2. rewrite Hp, Hk in H2.
  assert (rel d2 (tdelete id st) -> tp_MaxRetries policy <= n -> exists st', rel d2 st' /\
    kv d2 !! lock = None /\ budget policy (n + 1) st') as Hgone.
  { intros H ?. exists (tdelete id st). split; [done|]. split; [done|].
    unfold budget, tdelete. simpl. rewrite lookup_delete_eq. lia. }
  destruct (Z.leb_spec (tp_MaxRetries policy) (Z.min n (tp_MaxRetries policy))).
  - destruct r as [e|[]]; [destruct H2 as [H2|H2]|]; try (apply Hgone; [done|lia]).
    exists st. split; [done|]. split; [done|]. unfold budget. rewrite E.
    replace (Z.min (n + 1) _) with (Z.min n (tp_MaxRetries policy)) by lia. done.
  - destruct (Ht (Encode (retried now (Decode msg).2)).2) as [s Hs].
    assert ((Encode (retried now (Decode msg).2)).1 = inr s) as Es by exact Hs.
    rewrite Es in H2. eexists. split; [exact H2|]. split; [done|].
    unfold budget. simpl. rewrite lookup_insert_eq.
    replace (Z.min (n + 1) _) with (Z.min n (tp_MaxRetries policy) + 1) by lia.
    eapply stored_retried; [done..| |done|exact Es]. unfold in_u in *. lia.
Qed.

Lemma rwp_retry_rounds policy clock n d st L :
  ids_ascii -> marshal_total -> in_u64 (tp_MaxRetries policy) ->
  rel d st -> kv d !! lock = None -> budget policy 0 st ->
  rwp (retry_rounds clock n) (λ _ d' _, exists st', rel d' st' /\ kv d' !! lock = None /\
    budget policy (Z.of_nat n) st') d L.
Proof using Hws Hstub Hid EL Hexec TJL.
  intros Ha Ht HM Hr Hl Hb. induction n as [|n IH]; [by exists st|].
  simpl retry_rounds. wp_bind. eapply wp_mono; [|exact IH].
  intros _ d1 L1 (st1 & Hr1 & Hl1 & Hb1). wp_bind.
  eapply wp_mono; [|by apply (rwp_retry_round policy (Z.of_nat n) _ d1 st1); [..|lia| | | |]].
  intros _ d2 L2 (st2 & ? & ? & ?). exists st2.
  replace (Z.of_nat (S n)) with (Z.of_nat n + 1) by lia. done.
Qed.

(** ** The monitor *)

(** What one tick decides for one task. *)
Definition monitor_post (nowNs : Z) (m : TaskMessage) (d : rdb) (st : tstate) (d' : rdb) : Prop :=
  match ts_claims st !! id with
  | None => if tp_Expires (tm_Policy m) <? nowNs then rel d' (tdelete id st) else d' = d
  | Some _ =>
      match beat m d with
      | inr false => exists r, retry_post (nowNs `div` second) m st r d'
      | _ => d' = d
      end
  end.

Lemma rwp_monitor_task nowNs m d st L :
  about ws stub id m -> tm_Executor m = executor -> rel d st -> kv d !! lock = None ->
  rwp (monitor_task executors nowNs m) (λ _ d' _, monitor_post nowNs m d st d') d L.
Proof using Hws Hstub Hid EL Hexec.
  intros Hm Hx Hr Hl. pose proof Hm as (Ew & Es & Ei).
  unfold monitor_task, SafeMap_Get, monitor_post. rewrite Hx, Hexec, Ew, Es, Ei. cbn beta iota.
  wp_bind. eapply wp_mono; [|by apply (rwp_is_claimed ws stub d st L id)].
  intros r d1 L1 (-> & -> & ->). destruct (ts_claims st !! id) as [c|].
  - rewrite bool_decide_true by eauto. cbn beta iota. wp_bind.
    eapply wp_mono; [|by eapply (ex_heartbeat ws stub id)]. intros r d1 L1 (-> & -> & ->).
    simpl Message. destruct (beat m d) as [e|[]]; [done..|]. wp_bind.
    eapply wp_mono; [|by apply rwp_RetryTask]. intros r d2 L2 [H2 _]. by exists r.
  - rewrite bool_decide_false by (by intros [? ?]). cbn beta iota.
    destruct (_ <? _); [|done]. wp_bind.
    eapply wp_mono; [|by eapply (ex_cancel ws stub id)].
    intros r d1 L1 (Hc & _ & ->). cbn beta. wp_bind.
    destruct Hc as [Hc|Hc]; (eapply wp_mono; [|by apply (rwp_delete ws stub Hws Hstub d1 _ L id Hid Hc)]);
      intros r2 d2 L2 (_ & _ & H2); [done|].
    change (rel d2 (tdelete id (tdelete id st))) in H2. by rewrite tdelete_idemp in H2.
Qed.

(** ** Sending a task *)

Lemma rwp_Send uuid' now pooled args kwargs policy d st L :
  let m := sent_message id now pooled executor ws stub args kwargs policy in
  forall msg, (Encode m).1 = inr msg -> rel d st ->
  rwp (Send executors id uuid' now pooled executor ws stub args kwargs policy) (λ sent d' L',
    sent = (inr (mkTask ops m), Some (releaseTaskMessage uuid' now (Encode m).2)) /\
    rel d' (mkTstate (<[id := msg]> (ts_tasks st)) (ts_claims st))) d L.
Proof using Hws Hstub Hid EL Hexec.
  intros m msg He Hr. unfold Send, SafeMap_Get. rewrite Hexec. fold m.
  destruct (Encode m) as [enc m'] eqn:E. simpl in He. subst enc. cbn beta iota.
  simpl task_ops. simpl Message. rewrite (ex_metadata ws stub id). change (tm_TaskId m) with id.
  wp_bind. eapply wp_mono; [|by apply (rwp_set ws stub Hws Hstub d st L id msg)].
  by intros r d1 L1 (-> & _ & H1).
Qed.

(** ** Properties *)

Context `{SV : RedisServer, SL : !RedisLaws SV} (I : srv -> Prop) (HR : reliable I).

(** [RetryTask] on a reliable server, for any lawful executor, with the retry lock
    free: at the retry limit the task is cancelled and, when nil is returned,
    neither stored nor claimed any more (if cancelling fails it may stay); below
    the limit its claim is gone and the stored message is the old one with one
    more retry; if the message cannot be encoded only the claim goes.  Every other
    task of the stub is untouched and the lock is free again. *)
Theorem RetryTask_effect now m st (s : srv) L :
  I s -> about ws stub id m -> rel (view s) st -> kv (view s) !! lock = None ->
  ends (RetryTask now (mkTask ops m)) s L (λ r d',
    retry_post now m st r d' /\ kv d' !! lock = None).
Proof using Hws Hstub Hid EL SL HR.
  intros HI Hm Hr Hl. eapply ends_rwp; [done..|]. by apply rwp_RetryTask.
Qed.

(** C32. The retry budget: with a Redis server that does not fail, task messages that can
    always be encoded, ASCII ids without colons, the retry lock free, and an executor that
    keeps to [ExecutorLaws] (its hooks leave the stored tasks, the claims and that lock alone,
    except that cancelling may remove the task; the executors of task queues and endpoints
    do), a stored task with no retries yet is, after
    [n] rounds of retrieving and retrying it, stored with exactly [min n MaxRetries] retries,
    or gone, and gone only after more than [MaxRetries] rounds: under these conditions it is
    not dropped early and not retried too often.  (A SET that fails during a retry drops the
    task: [SetTaskState] then deletes it.) *)
Theorem retry_budget policy clock n st (s : srv) L :
  I s -> ids_ascii -> marshal_total -> in_u64 (tp_MaxRetries policy) ->
  rel (view s) st -> kv (view s) !! lock = None ->
  (exists msg, ts_tasks st !! id = Some msg /\ stored_task policy 0 msg) ->
  ends (retry_rounds clock n) s L (λ _ d', exists st', rel d' st' /\
    match ts_tasks st' !! id with
    | Some msg => stored_task policy (Z.min (Z.of_nat n) (tp_MaxRetries policy)) msg
    | None => tp_MaxRetries policy < Z.of_nat n
    end).
Proof using Hws Hstub Hid EL Hexec TJL SL HR.
  intros HI Ha Ht HM Hr Hl (msg & Hmsg & Hst). eapply ends_rwp; [done..|].
  eapply wp_mono; [|apply (rwp_retry_rounds policy clock n _ st L Ha Ht HM Hr Hl)].
  - intros _ d' _ (st' & H1 & _ & H2). by exists st'.
  - unfold budget. rewrite Hmsg. unfold in_u in HM. by rewrite Z.min_l by lia.
Qed.

(** One tick of the monitor decides as documented, on a reliable server: an
    unclaimed task is removed when it has expired and left alone otherwise; a
    claimed one is retried exactly when its executor reads a missing heartbeat, and
    left alone when the heartbeat is there or cannot be read. *)
Theorem monitor_task_decides nowNs m st (s : srv) L :
  I s -> about ws stub id m -> tm_Executor m = executor ->
  rel (view s) st -> kv (view s) !! lock = None ->
  ends (monitor_task executors nowNs m) s L (λ _ d', monitor_post nowNs m (view s) st d').
Proof using Hws Hstub Hid EL Hexec SL HR.
  intros HI Hm Hx Hr Hl. eapply ends_rwp; [done..|]. by apply rwp_monitor_task.
Qed.

(** A task that is sent can be retrieved: on a reliable server [Send] followed by
    [Retrieve] gives the executor's task with the same ids, executor, policy and
    timestamp and with zero retries, the other tasks of the stub are unchanged,
    and the message that goes back to the pool again carries no retries. *)
Theorem Send_Retrieve uuid' now pooled args kwargs policy st (s : srv) L :
  I s -> ids_ascii -> marshal_total -> tm_Retries pooled = 0 -> rel (view s) st ->
  let m := sent_message id now pooled executor ws stub args kwargs policy in
  ends (sent <~ Send executors id uuid' now pooled executor ws stub args kwargs policy ;;
        got <~ Retrieve executors ws stub id ;; Ret (sent, got)) s L (λ '(sent, got) d',
    exists released msg m', sent = (inr (mkTask ops m), Some released) /\ tm_Retries released = 0 /\
      got = inr (mkTask ops m') /\ same_task m m' /\ tm_Retries m' = 0 /\
      rel d' (mkTstate (<[id := msg]> (ts_tasks st)) (ts_claims st))).
Proof using Hws Hstub Hid EL Hexec TJL SL HR.
  intros HI Ha Ht H0 Hr m. eapply ends_rwp; [done..|].
  destruct (Ht (Encode m).2) as [msg Hmsg]. change ((Encode m).1 = inr msg) in Hmsg.
  destruct (Encode_Decode m msg) as [_ Hs]; [exact Ha|done|].
  assert (tm_Executor (Decode msg).2 = executor) as Hx
    by (unfold same_task, flat_task in Hs; simpl in Hs; congruence).
  assert (tm_Retries (Decode msg).2 = 0) as H0'
    by (unfold same_task, flat_task in Hs; simpl in Hs; congruence).
  wp_bind. eapply wp_mono; [|by apply rwp_Send].
  intros sent d1 L1 [-> H1]. wp_bind. eapply wp_mono; [|apply (rwp_Retrieve _ _ _ H1)]; simpl.
  - intros got d2 L2 (-> & -> & ->). rewrite lookup_insert_eq.
    by eexists _, msg, _.
  - intros msg'. rewrite lookup_insert_eq. by intros [= <-].
Qed.
End dispatch.
