(* ===== verification/TaskQueue.v ===== *)
(** * Executors (pkg/abstractions/taskqueue, pkg/abstractions/endpoint)

    The Redis queue of a task-queue stub (client.go, keys.go) and two
    implementations of the task interface, [TaskQueueTask] and [EndpointTask]
    (task.go).  Task records live in the SQL backend ([TaskBackend], a parameter
    of the model); usage metrics are not modelled. *)

From S2P Require Import Prelude GoStd Redis Keys Types Codec Lock Env ContainerRepo.
From S2P Require Import PoolManager TaskRepo Dispatcher TaskProps DispatcherProps.

Local Open Scope Z_scope.
Set Default Proof Using "Type".

(** ** Keys *)

Definition taskQueueList (workspaceName stubId : string) : string :=
  sprintf "taskqueue:%s:%s" [workspaceName; stubId].
Definition taskQueueTaskHeartbeat (workspaceName stubId taskId : string) : string :=
  sprintf "taskqueue:%s:%s:task:heartbeat:%s" [workspaceName; stubId; taskId].
Definition taskQueueTaskDuration (workspaceName stubId : string) : string :=
  sprintf "taskqueue:%s:%s:task_duration" [workspaceName; stubId].
Definition taskQueueTaskRunningLockIndex (workspaceName stubId containerId : string) : string :=
  sprintf "taskqueue:%s:%s:task_running:%s:index" [workspaceName; stubId; containerId].
Definition taskQueueTaskRunningLock (workspaceName stubId containerId taskId : string) : string :=
  sprintf "taskqueue:%s:%s:task_running:%s:%s" [workspaceName; stubId; containerId; taskId].
Definition taskQueueProcessingLock (workspaceName stubId containerId : string) : string :=
  sprintf "taskqueue:%s:%s:processing_lock:%s" [workspaceName; stubId; containerId].
Definition taskQueueKeepWarmLock (workspaceName stubId containerId : string) : string :=
  sprintf "taskqueue:%s:%s:keep_warm_lock:%s" [workspaceName; stubId; containerId].
Definition taskQueueInstanceLock (workspaceName stubId : string) : string :=
  sprintf "taskqueue:%s:%s:instance_lock" [workspaceName; stubId].

Definition endpointKeepWarmLock (workspaceName stubId containerId : string) : string :=
  sprintf "endpoint:%s:%s:keep_warm_lock:%s" [workspaceName; stubId; containerId].
Definition endpointRequestTokens (workspaceName stubId containerId : string) : string :=
  sprintf "endpoint:%s:%s:request_tokens:%s" [workspaceName; stubId; containerId].
Definition endpointRequestHeartbeat (workspaceName stubId taskId containerId : string) : string :=
  sprintf "endpoint:%s:%s:request_heartbeat:%s:%s" [workspaceName; stubId; taskId; containerId].

Arguments taskQueueList : simpl never.
Arguments taskQueueTaskHeartbeat : simpl never.
Arguments taskQueueTaskDuration : simpl never.
Arguments taskQueueTaskRunningLockIndex : simpl never.
Arguments taskQueueTaskRunningLock : simpl never.
Arguments taskQueueProcessingLock : simpl never.
Arguments taskQueueKeepWarmLock : simpl never.
Arguments taskQueueInstanceLock : simpl never.
Arguments endpointKeepWarmLock : simpl never.
Arguments endpointRequestTokens : simpl never.
Arguments endpointRequestHeartbeat : simpl never.

(** ** The queue *)

Definition defaultTaskRunningExpiration : Z := 60.

Section client.
Context {TJ : TaskJson}.

Definition queue_Push (taskMessage : TaskMessage) : M unit :=
  match (Encode taskMessage).1 with
  | inl err => fail err
  | inr encodedMessage =>
      rcall (λ e, e) (CRPush (taskQueueList (tm_WorkspaceName taskMessage) (tm_StubId taskMessage))
        encodedMessage)
  end.

(** After the processing lock is set; the lock is deleted on the way out. *)
Definition queue_Pop_locked (workspaceName stubId containerId : string) : M (option string) :=
  popped <- rcall (λ e, e) (CLPop (taskQueueList workspaceName stubId)) ;;
  match popped with
  | None => ok None
  | Some task =>
      match Decode task with
      | (Some err, _) => fail err
      | (None, tm) =>
          rcall (λ e, e) (CSAdd (taskQueueTaskRunningLockIndex workspaceName stubId containerId)
            (tm_TaskId tm)) ;;
          rcall (λ e, e) (CSet (taskQueueTaskRunningLock workspaceName stubId containerId (tm_TaskId tm))
            "1" (defaultTaskRunningExpiration * second)) ;;
          rcall (λ e, e) (CSet (taskQueueTaskHeartbeat workspaceName stubId (tm_TaskId tm))
            "1" (60 * second)) ;;
          ok (Some task)
      end
  end.

Definition queue_Pop (workspaceName stubId containerId : string) : M (option string) :=
  queueLength <- rcall (λ e, e) (CLLen (taskQueueList workspaceName stubId)) ;;
  if queueLength =? 0 then ok None
  else
    let lock := taskQueueProcessingLock workspaceName stubId containerId in
    rcall (λ e, e) (CSet lock "1" 0) ;;
    (r <~ queue_Pop_locked workspaceName stubId containerId ;; cmd (CDel [lock]) ;~ Ret r).

Definition QueueLength (workspaceName stubId : string) : M Z :=
  rcall (λ e, e) (CLLen (taskQueueList workspaceName stubId)).

Definition TasksRunning (workspaceName stubId : string) : M Z := TasksClaimed workspaceName stubId.

(** ** Task records *)

Definition TaskStatusPending : string := "PENDING".
Definition TaskStatusRunning : string := "RUNNING".
Definition TaskStatusComplete : string := "COMPLETE".
Definition TaskStatusError : string := "ERROR".
Definition TaskStatusCancelled : string := "CANCELLED".
Definition TaskStatusExpired : string := "EXPIRED".
Definition TaskStatusTimeout : string := "TIMEOUT".
Definition TaskStatusRetry : string := "RETRY".

Definition IsCompleted (ts : string) : bool :=
  bool_decide (ts ∈ [TaskStatusComplete; TaskStatusCancelled; TaskStatusError; TaskStatusTimeout;
                     TaskStatusExpired]).
Definition IsInflight (ts : string) : bool :=
  bool_decide (ts ∈ [TaskStatusPending; TaskStatusRunning; TaskStatusRetry]).

(** The part of a task record the executors look at. *)
Record TaskRow := mkTaskRow { tr_Status : string; tr_ContainerId : string }.
Definition with_status (s : string) (t : TaskRow) : TaskRow := mkTaskRow s (tr_ContainerId t).

Class TaskBackend := {
  GetTask : string -> gerr + TaskRow;
  UpdateTask : string -> TaskRow -> gerr + unit;
  (** [CreateTask] for a message, and [DeleteTask]. *)
  CreateTask : TaskMessage -> gerr + unit;
  DeleteTask : string -> gerr + unit;
  (** The instances behind the executors: [getOrCreateQueueInstance] and, for
      endpoints, the instance and its buffer's [ForwardRequest]. *)
  getOrCreateQueueInstance : string -> gerr + unit;
  getOrCreateEndpointInstance : string -> gerr + unit;
  forward_request : TaskMessage -> M unit;
}.

Context {TB : TaskBackend}.

Definition lift {A} (r : gerr + A) : M A := Ret r.

(** ** TaskQueueTask *)

Definition tq_Execute (m : TaskMessage) : M unit :=
  lift (getOrCreateQueueInstance (tm_StubId m)) ;;
  lift (CreateTask m) ;;
  r <~ queue_Push m ;;
  match r with
  | inl err => lift (DeleteTask (tm_TaskId m)) ;~ fail err
  | inr _ => ok tt
  end.

Definition tq_Retry (m : TaskMessage) : M unit :=
  lift (getOrCreateQueueInstance (tm_StubId m)) ;;
  task <- lift (GetTask (tm_TaskId m)) ;;
  lift (UpdateTask (tm_TaskId m) (with_status TaskStatusRetry task)) ;;
  queue_Push m.

Definition tq_HeartBeat (m : TaskMessage) : M bool :=
  res <- rcall (λ e, e)
    (CExists (taskQueueTaskHeartbeat (tm_WorkspaceName m) (tm_StubId m) (tm_TaskId m))) ;;
  ok (0 <? res).

Definition tq_Cancel (m : TaskMessage) (reason : string) : M unit :=
  task <- lift (GetTask (tm_TaskId m)) ;;
  if IsCompleted (tr_Status task) then ok tt
  else
    let status := if String.eqb reason TaskExpired then TaskStatusExpired
                  else if String.eqb reason TaskExceededRetryLimit then TaskStatusError
                  else TaskStatusError in
    lift (UpdateTask (tm_TaskId m) (with_status status task)) ;;
    ok tt.

Definition plain_metadata (m : TaskMessage) : TaskMetadata :=
  mkTaskMetadata (tm_TaskId m) (tm_StubId m) (tm_WorkspaceName m) "".

Definition TaskQueueTask : TaskOps :=
  mkTaskOps tq_Execute tq_Cancel tq_Retry tq_HeartBeat plain_metadata.

Definition taskQueueTaskFactory : TaskFactory := λ msg, inr (mkTask TaskQueueTask msg).

(** ** EndpointTask *)

Definition ep_Execute (m : TaskMessage) : M unit :=
  lift (getOrCreateEndpointInstance (tm_StubId m)) ;;
  lift (CreateTask m) ;;
  forward_request m.

Definition ep_Retry (m : TaskMessage) : M unit :=
  task <- lift (GetTask (tm_TaskId m)) ;;
  lift (UpdateTask (tm_TaskId m) (with_status TaskStatusError task)) ;;
  ok tt.

Definition ep_status (reason : string) : string :=
  if String.eqb reason TaskExpired then TaskStatusTimeout
  else if String.eqb reason TaskExceededRetryLimit then TaskStatusError
  else if String.eqb reason TaskRequestCancelled then TaskStatusCancelled
  else if String.eqb reason TaskInvalidRequestPayload then TaskStatusError
  else TaskStatusError.

(** [Complete] is deferred once the record has been read. *)
Definition ep_Cancel (m : TaskMessage) (reason : string) : M unit :=
  task <- lift (GetTask (tm_TaskId m)) ;;
  r <~ (if IsCompleted (tr_Status task) then ok tt
        else lift (UpdateTask (tm_TaskId m) (with_status (ep_status reason) task)) ;; ok tt) ;;
  Complete (tm_WorkspaceName m) (tm_StubId m) (tm_TaskId m) ;~ Ret r.

Definition ep_HeartBeat (m : TaskMessage) : M bool :=
  task <- lift (GetTask (tm_TaskId m)) ;;
  res <- rcall (EWrap "failed to retrieve endpoint heartbeat key")
    (CExists (endpointRequestHeartbeat (tm_WorkspaceName m) (tm_StubId m) (tm_TaskId m)
       (tr_ContainerId task))) ;;
  ok (0 <? res).

Definition EndpointTask : TaskOps :=
  mkTaskOps ep_Execute ep_Cancel ep_Retry ep_HeartBeat plain_metadata.

Definition endpointTaskFactory : TaskFactory := λ msg, inr (mkTask EndpointTask msg).
End client.

(** ** The executors meet the dispatcher's interface *)

Lemma touches_queue_Push `{TaskJson} m :
  touches {[taskQueueList (tm_WorkspaceName m) (tm_StubId m)]} (queue_Push m).
Proof. unfold queue_Push. touches. Qed.

Section executor_laws.
Context {TJ : TaskJson} {TB : TaskBackend}.
Context (ws stub id : string).
Context (Hws : no_colon ws = true) (Hstub : no_colon stub = true) (Hid : id_ok id).

Lemma rel_foreign F d d' st :
  (forall k, k ∈ F -> exists s, k = String "t" (String "a" (String "s" (String "k" (String "q" s))))) ->
  eq_except F d d' -> task_rel ws stub d st -> task_rel ws stub d' st.
Proof.
  intros HF He. apply (task_rel_frame _ _ _ _ _ _ He); [..|intros id' _; split];
    intros [s E]%HF; discriminate E.
Qed.

Lemma tq_footprint k : k ∈ ({[taskQueueList ws stub]} : gset string) ->
  exists s, k = String "t" (String "a" (String "s" (String "k" (String "q" s)))).
Proof. intros ->%elem_of_singleton. by eexists. Qed.

(** An operation within the queue's keys. *)
Lemma rwp_foreign {A} (p : prog A) d st L :
  touches {[taskQueueList ws stub]} p -> task_rel ws stub d st ->
  rwp p (λ _ d' L', task_rel ws stub d' st /\ eq_except {[taskQueueList ws stub]} d d' /\ L' = L) d L.
Proof.
  intros Ht Hr. eapply wp_mono; [|apply rwp_wp, Ht]. intros a d' L' [He ->].
  split; [|done]. by eapply (rel_foreign _ _ _ _ tq_footprint).
Qed.

Lemma touches_tq_Retry m :
  tm_WorkspaceName m = ws -> tm_StubId m = stub -> touches {[taskQueueList ws stub]} (tq_Retry m).
Proof.
  intros Ew Es. unfold tq_Retry, lift. pose proof (touches_queue_Push m) as H. rewrite Ew, Es in H.
  repeat (apply touches_mbind; [apply touches_ret|intros]). done.
Qed.

Lemma touches_tq_Cancel m reason : touches {[taskQueueList ws stub]} (tq_Cancel m reason).
Proof. unfold tq_Cancel, lift. touches. Qed.

(** The heartbeat of a task-queue task. *)
Definition tq_beat (m : TaskMessage) (d : rdb) : gerr + bool :=
  inr (exists_kv (taskQueueTaskHeartbeat (tm_WorkspaceName m) (tm_StubId m) (tm_TaskId m)) d).

#[export] Instance TaskQueueTask_laws :
  ExecutorLaws ws stub id TaskQueueTask {[taskQueueList ws stub]} tq_beat.
Proof.
  constructor.
  - intros E%elem_of_singleton. discriminate E.
  - done.
  - intros m reason d st L _ Hr. eapply wp_mono; [|by apply rwp_foreign; [apply touches_tq_Cancel|]].
    intros r d' L' (H1 & H2 & ->). split; [by left|]. split; [|done].
    eapply eq_except_weaken; [|exact H2]. apply union_subseteq_l.
  - intros m d st L (Ew & Es & _) Hr. apply rwp_foreign; [|done]. by apply touches_tq_Retry.
  - intros m d L _. simpl. unfold tq_HeartBeat. wp_bind. rwp_ok; [by eexists _, d|].
    intros r d1 [-> ->]. split; [|done]. unfold tq_beat. by destruct (exists_kv _ d).
Qed.

(** The heartbeat of an endpoint request, which names the container of the record. *)
Definition ep_beat (m : TaskMessage) (d : rdb) : gerr + bool :=
  match GetTask (tm_TaskId m) with
  | inl e => inl e
  | inr task => inr (exists_kv (endpointRequestHeartbeat (tm_WorkspaceName m) (tm_StubId m)
                                  (tm_TaskId m) (tr_ContainerId task)) d)
  end.

Lemma rwp_ep_Cancel m reason d st L :
  about ws stub id m -> task_rel ws stub d st ->
  rwp (ep_Cancel m reason) (λ _ d' L',
    (task_rel ws stub d' st \/ task_rel ws stub d' (tdelete id st)) /\
    eq_except (own_keys ws stub id) d d' /\ L' = L) d L.
Proof using Hws Hstub Hid.
  intros (Ew & Es & Ei) Hr. unfold ep_Cancel, lift. wp_bind. rewrite Ew, Es, Ei.
  destruct (GetTask id) as [e|task]; cbn beta iota; [split; [by left|by split]|].
  cbn beta iota. wp_bind. eapply wp_mono with (Q := λ _ d' L', d' = d /\ L' = L).
  2: { destruct (IsCompleted _); [done|]. wp_bind. by destruct (UpdateTask _ _). }
  intros r d1 L1 [-> ->]. wp_bind.
  eapply wp_mono; [|apply (rwp_touches (own_keys ws stub id));
    [apply touches_DeleteTaskState|by apply (rwp_delete ws stub Hws Hstub d st L)]].
  intros r1 d1 L1 ((_ & _ & H1) & He & ->). split; [by right|by split].
Qed.

#[export] Instance EndpointTask_laws : ExecutorLaws ws stub id EndpointTask ∅ ep_beat.
Proof using Hws Hstub Hid.
  constructor.
  - apply not_elem_of_empty.
  - done.
  - intros m reason d st L Hm Hr. eapply wp_mono; [|by apply rwp_ep_Cancel].
    intros r d' L' (H1 & H2 & ->). split; [done|]. split; [|done]. by rewrite union_empty_l_L.
  - intros m d st L _ Hr. simpl. unfold ep_Retry, lift. wp_bind.
    destruct (GetTask (tm_TaskId m)); cbn beta iota; [by split|]. wp_bind.
    destruct (UpdateTask (tm_TaskId m) _); by split.
  - intros m d L _. simpl. unfold ep_HeartBeat, ep_beat, lift. wp_bind.
    destruct (GetTask (tm_TaskId m)) as [e|task]; cbn beta iota; [done|]. wp_bind.
    rwp_ok; [by eexists _, d|]. intros r d1 [-> ->]. split; [|done]. by destruct (exists_kv _ d).
Qed.
End executor_laws.

(** ** Concrete runs *)

Section runs.
Local Existing Instance bits_task_json.

(** A backend in which every task is running. *)
Definition ex_backend : TaskBackend := {|
  GetTask _ := inr (mkTaskRow TaskStatusRunning "c1");
  UpdateTask _ _ := inr tt;
  CreateTask _ := inr tt;
  DeleteTask _ := inr tt;
  getOrCreateQueueInstance _ := inr tt;
  getOrCreateEndpointInstance _ := inr tt;
  forward_request _ := ok tt |}.
Local Existing Instance ex_backend.

Definition ex_executors : gmap string TaskFactory :=
  Register ∅ "taskqueue" taskQueueTaskFactory.

Definition ex_policy : TaskPolicy := mkTaskPolicy 1 3600 100 0.
Definition ex_message (retries : Z) : TaskMessage :=
  mkTaskMessage "t1" "ws" "stub" "taskqueue" (Some []) None ex_policy retries 5.
Definition ex_encoded (retries : Z) : string :=
  match (Encode (ex_message retries)).1 with inr s => s | inl _ => "" end.

Definition ex_stored : tstate := mkTstate (<["t1" := ex_encoded 0]> ∅) ∅.
Definition ex_tasks : tstate := mkTstate (ts_tasks ex_stored) (<["t1" := "c1"]> ∅).

(** The task, stored by [SetTaskState] and claimed by [ClaimTask]. *)
Definition ex_task_db : rdb :=
  set_kv (TaskClaimIndex "ws" "stub") (RVSet ({["t1"]} ∪ dom (ts_claims ex_stored)))
    (set_str (TaskClaim "ws" "stub" "t1") "c1"
      (set_kv (TaskIndexByStub "ws" "stub") (RVSet ({["t1"]} ∪ dom (∅ : gmap string string)))
        (set_str (TaskEntry "ws" "stub" "t1") (ex_encoded 0)
          (set_kv TaskIndex (RVSet ({[TaskEntry "ws" "stub" "t1"]} ∪ ∅)) empty_rdb)))).

Lemma ex_id_ok : id_ok "t1".
Proof. by repeat split. Qed.

Lemma ex_task_rel : task_rel "ws" "stub" ex_task_db ex_tasks.
Proof.
  exact (rel_claim "ws" "stub" eq_refl eq_refl _ ex_stored "t1" "c1" ex_id_ok
    (rel_set "ws" "stub" eq_refl eq_refl empty_rdb (mkTstate ∅ ∅) ∅ "t1" (ex_encoded 0) ex_id_ok
       (empty_task_rel _ _) eq_refl)).
Qed.

Lemma ex_lock_free : kv ex_task_db !! TaskRetryLock "ws" "stub" "t1" = None.
Proof. vm_compute. reflexivity. Qed.

Lemma ex_about retries : about "ws" "stub" "t1" (ex_message retries).
Proof. by repeat split. Qed.

Lemma ex_marshal_total : marshal_total.
Proof. intros m. by eexists. Qed.

Lemma ex_stored_task : stored_task "ws" "stub" "t1" "taskqueue" ex_policy 0 (ex_encoded 0).
Proof. repeat split; vm_compute; reflexivity. Qed.

Abbreviation ex_laws := (TaskQueueTask_laws "ws" "stub" "t1").

Lemma RetryTask_effect_witness :
  ends (S := ref_server) (RetryTask 7 (mkTask TaskQueueTask (ex_message 0))) (on ex_task_db) ∅ (λ r d',
    retry_post "ws" "stub" "t1" 7 (ex_message 0) ex_tasks r d' /\
    kv d' !! TaskRetryLock "ws" "stub" "t1" = None).
Proof.
  exact (RetryTask_effect "ws" "stub" "t1" eq_refl eq_refl ex_id_ok TaskQueueTask _ _ (EL := ex_laws)
    (SV := ref_server) _ ref_reliable 7 (ex_message 0) ex_tasks (on ex_task_db) ∅ eq_refl (ex_about 0)
    ex_task_rel ex_lock_free).
Defined.

(** Three rounds exceed the budget of one retry: the task is gone. *)
Lemma retry_budget_witness :
  let p := retry_rounds "ws" "stub" "t1" ex_executors (λ n, Z.of_nat n) 3 in
  ends (S := ref_server) p (on ex_task_db) ∅ (λ _ d', exists st', task_rel "ws" "stub" d' st' /\
    match ts_tasks st' !! "t1" with
    | Some msg => stored_task "ws" "stub" "t1" "taskqueue" ex_policy (Z.min 3 1) msg
    | None => 1 < 3
    end).
Proof.
  exact (retry_budget "ws" "stub" "t1" eq_refl eq_refl ex_id_ok TaskQueueTask _ _ (EL := ex_laws)
    "taskqueue" ex_executors eq_refl (SV := ref_server) _ ref_reliable ex_policy (λ n, Z.of_nat n) 3
    ex_tasks (on ex_task_db) ∅ eq_refl eq_refl ex_marshal_total
    ltac:(by split) ex_task_rel ex_lock_free
    (ex_intro _ (ex_encoded 0) (conj (lookup_insert_eq _ _ _) ex_stored_task))).
Defined.

(** The claimed task without a heartbeat key is retried. *)
Lemma monitor_task_decides_witness :
  ends (S := ref_server) (monitor_task ex_executors (7 * second) (ex_message 0)) (on ex_task_db) ∅ (λ _ d',
    exists r, retry_post "ws" "stub" "t1" 7 (ex_message 0) ex_tasks r d').
Proof.
  exact (monitor_task_decides "ws" "stub" "t1" eq_refl eq_refl ex_id_ok TaskQueueTask _ _ (EL := ex_laws)
    "taskqueue" ex_executors eq_refl (SV := ref_server) _ ref_reliable (7 * second) (ex_message 0)
    ex_tasks (on ex_task_db) ∅ eq_refl (ex_about 0) eq_refl ex_task_rel ex_lock_free).
Defined.

Lemma Send_Retrieve_witness :
  let m := sent_message "t1" 5 (new_message "u") "taskqueue" "ws" "stub" None None ex_policy in
  ends (S := ref_server)
    (sent <~ Send ex_executors "t1" "u2" 5 (new_message "u") "taskqueue" "ws" "stub" None None ex_policy ;;
     got <~ Retrieve ex_executors "ws" "stub" "t1" ;; Ret (sent, got)) (on empty_rdb) ∅ (λ '(sent, got) d',
    exists released msg m', sent = (inr (mkTask TaskQueueTask m), Some released) /\
      tm_Retries released = 0 /\ got = inr (mkTask TaskQueueTask m') /\ same_task m m' /\
      tm_Retries m' = 0 /\ task_rel "ws" "stub" d' (mkTstate (<["t1" := msg]> ∅) ∅)).
Proof.
  exact (Send_Retrieve "ws" "stub" "t1" eq_refl eq_refl ex_id_ok TaskQueueTask _ _ (EL := ex_laws)
    "taskqueue" ex_executors eq_refl (SV := ref_server) _ ref_reliable "u2" 5 (new_message "u") None None
    ex_policy (mkTstate ∅ ∅) (on empty_rdb) ∅ eq_refl eq_refl ex_marshal_total eq_refl
    (empty_task_rel _ _)).
Defined.
End runs.
