(* ===== verification/Autoscaler.v ===== *)
(** * Autoscaling (pkg/abstractions)

    An instance of a deployed stub (common/instance.go) is sampled every second
    by its autoscaler (common/autoscaler.go), whose scale function says how many
    containers are wanted (endpoint, taskqueue and pod autoscaler.go); the
    instance starts or stops the difference.  The callbacks that start and stop
    containers are arguments; [now] is [time.Now()] in nanoseconds. *)

From S2P Require Import Prelude GoStd Redis Keys Types Codec Lock ContainerRepo TaskRepo.
From S2P Require Import TaskQueue.

Local Open Scope Z_scope.
Set Default Proof Using "Type".

(** ** Stub types and configuration *)

Definition StubTypeTaskQueue : string := "taskqueue".
Definition StubTypePodDeployment : string := "pod/deployment".
Definition StubTypePodRun : string := "pod/run".

Definition HasSuffix (s x : string) : bool :=
  match strip_suffix x s with Some _ => true | None => false end.

Definition IsServe (t : string) : bool := HasSuffix t "/serve".
Definition IsDeployment (t : string) : bool := HasSuffix t "/deployment".

Record AutoscalerConfig := mkAutoscalerConfig {
  as_MaxContainers : Z;
  as_TasksPerContainer : Z;
  as_MinContainers : Z;
}.

(** The fields of an instance (and of its stub, workspace and configuration)
    that scaling looks at; a nil autoscaler configuration is [None]. *)
Record AutoscaledInstance := mkInstance {
  ai_Name : string;
  ai_WorkspaceName : string;
  ai_StubExternalId : string;
  ai_StubType : string;
  ai_IsActive : bool;
  ai_FailedContainerThreshold : Z;
  ai_Autoscaler : option AutoscalerConfig;
  ai_KeepWarmSeconds : Z;
  ai_MaxReplicas : Z;
  ai_InstanceLockKey : string;
}.

Definition FailedContainerThreshold : Z := 1.
Definition FailedDeploymentContainerThreshold : Z := 3.

Definition failed_threshold (stubType : string) : Z :=
  if IsDeployment stubType then FailedDeploymentContainerThreshold else FailedContainerThreshold.

Record AutoscaledInstanceState := mkInstanceState {
  st_RunningContainers : Z;
  st_PendingContainers : Z;
  st_StoppingContainers : Z;
  st_FailedContainers : list string;
}.

Record AutoscalerResult := mkResult { ar_DesiredContainers : Z; ar_ResultValid : bool }.

Definition invalid_result : AutoscalerResult := mkResult 0 false.

(** [int(f)] of an integral [float64]; out of range it is the smallest integer (amd64). *)
Definition int_of_float (f : Z) : Z := if decide (in_i64 f) then f else - 2 ^ 63.

(** ** The number of containers wanted *)

(** [requests / perContainer], rounded up, at the width of [int64]. *)
Definition containers_for (requests perContainer : Z) : Z :=
  let desired := Z.quot requests perContainer in
  if 0 <? Z.rem requests perContainer then wrap_i64 (desired + 1) else desired.

Definition limited (maxContainers maxReplicas desired : Z) : Z :=
  let limit := Z.min (float64_of_int maxContainers) (float64_of_int maxReplicas) in
  int_of_float (Z.min limit (float64_of_i64 desired)).

Definition endpointDeploymentScaleFunc (i : AutoscaledInstance) (totalRequests : Z) : AutoscalerResult :=
  if totalRequests =? 0 then mkResult 0 true
  else if totalRequests =? -1 then invalid_result
  else
    let tasksPerContainer :=
      match ai_Autoscaler i with
      | Some a => if 0 <? as_TasksPerContainer a then wrap_i64 (as_TasksPerContainer a) else 1
      | None => 1
      end in
    let desired := containers_for totalRequests tasksPerContainer in
    let maxContainers := match ai_Autoscaler i with Some a => as_MaxContainers a | None => 1 end in
    mkResult (limited maxContainers (ai_MaxReplicas i) desired) true.

(** A nil configuration and a zero divisor panic. *)
Definition taskQueueScaleFunc (i : AutoscaledInstance) (queueLength : Z) : gerr + AutoscalerResult :=
  if queueLength =? 0 then inr (mkResult 0 true)
  else if queueLength =? -1 then inr invalid_result
  else
    match ai_Autoscaler i with
    | None => inl (EPanic "nil pointer dereference")
    | Some a =>
        let perContainer := wrap_i64 (as_TasksPerContainer a) in
        if perContainer =? 0 then inl (EPanic "integer divide by zero")
        else
          let desired := containers_for queueLength perContainer in
          inr (mkResult (limited (as_MaxContainers a) (ai_MaxReplicas i) desired) true)
    end.

(** Both serve functions: one container while the serve lock exists. *)
Definition serveScaleFunc (i : AutoscaledInstance) : prog AutoscalerResult :=
  r <~ cmd (CExists (SchedulerServeLock (ai_WorkspaceName i) (ai_StubExternalId i))) ;;
  match r with
  | inl _ => Ret invalid_result
  | inr n => Ret (mkResult (if n =? 0 then 0 else 1) true)
  end.

Definition podScaleFunc (i : AutoscaledInstance) (currentContainers totalConnections : Z)
    : gerr + AutoscalerResult :=
  let desired :=
    if String.eqb (ai_StubType i) StubTypePodRun || String.eqb (ai_StubType i) StubTypeSandbox then
      if currentContainers =? 0 then 0
      else if (0 <? currentContainers) && (0 <? ai_KeepWarmSeconds i) then 0
      else 1
    else 1 in
  if String.eqb (ai_StubType i) StubTypePodDeployment then
    match ai_Autoscaler i with
    | None => inl (EPanic "nil pointer dereference")
    | Some a =>
        inr (mkResult (if totalConnections =? 0 then wrap_i64 (as_MinContainers a)
                       else wrap_i64 (as_MaxContainers a)) true)
    end
  else inr (mkResult desired true).

Section instance.
Context (i : AutoscaledInstance).

(** ** The state of an instance *)

Definition count_by (status : string) (containers : list ContainerState) : Z :=
  Z.of_nat (length (List.filter (λ c, String.eqb (cs_Status c) status) containers)).

Definition State : M AutoscaledInstanceState :=
  containers <- GetActiveContainersByStubId (ai_StubExternalId i) ;;
  failedContainers <- GetFailedContainersByStubId (ai_StubExternalId i) ;;
  ok (mkInstanceState (count_by ContainerStatusRunning containers)
        (count_by ContainerStatusPending containers) (count_by ContainerStatusStopping containers)
        failedContainers).

(** An error of [State] leaves a nil state, which is then dereferenced. *)
Definition current_containers : M Z :=
  s <~ State ;;
  match s with
  | inl _ => fail (EPanic "nil pointer dereference")
  | inr state => ok (st_PendingContainers state + st_RunningContainers state)
  end.

Definition or_minus_one (p : M Z) : prog Z := r <~ p ;; Ret (match r with inl _ => -1 | inr n => n end).

(** [TotalRequests] and [CurrentContainers]. *)
Definition endpointSampleFunc : M (Z * Z) :=
  totalRequests <~ or_minus_one (TasksInFlight (ai_WorkspaceName i) (ai_StubExternalId i)) ;;
  currentContainers <- current_containers ;;
  ok (totalRequests, currentContainers).

(** [QueueLength], [RunningTasks] and [CurrentContainers]; the task duration is
    popped from its list and plays no part in scaling. *)
Definition taskQueueAutoscalerSampleFunc : M (Z * Z * Z) :=
  runningTasks <~ or_minus_one (TasksRunning (ai_WorkspaceName i) (ai_StubExternalId i)) ;;
  cmd (CLPop (taskQueueTaskDuration (ai_WorkspaceName i) (ai_StubExternalId i))) ;~
  queueLength <~ or_minus_one (TasksInFlight (ai_WorkspaceName i) (ai_StubExternalId i)) ;;
  currentContainers <- current_containers ;;
  ok (queueLength, runningTasks, currentContainers).

Definition podTotalConnections (workspaceName stubId : string) : string :=
  sprintf "pod:%s:%s:total_connections" [workspaceName; stubId].

Definition podAutoscalerSampleFunc : M (Z * Z) :=
  state <- State ;;
  n <~ get_int (podTotalConnections (ai_WorkspaceName i) (ai_StubExternalId i)) ;;
  match n with
  | inl ERedisNil => ok (st_PendingContainers state + st_RunningContainers state, 0)
  | inl e => fail e
  | inr totalConnections =>
      ok (st_PendingContainers state + st_RunningContainers state, totalConnections)
  end.

(** The value sent to the instance's channel. *)
Definition ConsumeScaleResult (result : AutoscalerResult) : gerr + Z :=
  match ai_Autoscaler i with
  | None => inl (EPanic "nil pointer dereference")
  | Some a =>
      let minContainers := wrap_i64 (as_MinContainers a) in
      let minContainers := if IsServe (ai_StubType i) then 0 else minContainers in
      let minContainers := if String.eqb (ai_StubType i) StubTypeTaskQueue then 0 else minContainers in
      inr (Z.max (ar_DesiredContainers result) minContainers)
  end.

(** One tick of the autoscaler: the value sent, if any. *)
Definition autoscaler_tick {A} (sampleFunc : M A) (scaleFunc : A -> M AutoscalerResult) : M (option Z) :=
  s <~ sampleFunc ;;
  match s with
  | inl (EPanic m) => fail (EPanic m)
  | inl _ => ok None
  | inr sample =>
      result <- scaleFunc sample ;;
      if ar_ResultValid result then
        match ConsumeScaleResult result with inl e => fail e | inr n => ok (Some n) end
      else ok None
  end.

(** ** Scaling *)

Inductive scale_action :=
| Shutdown
| StartContainers (n : Z)
| StopContainers (n : Z)
| KeepContainers.

Definition decide_action (desiredContainers : Z) (state : AutoscaledInstanceState) : scale_action :=
  let desired :=
    if ai_FailedContainerThreshold i <=? Z.of_nat (length (st_FailedContainers state)) then 0
    else desiredContainers in
  let desired := if negb (ai_IsActive i) then 0 else desired in
  let noContainersRunning := (st_PendingContainers state =? 0) && (st_RunningContainers state =? 0)
                             && (st_StoppingContainers state =? 0) in
  if (desired =? 0) && noContainersRunning then Shutdown
  else
    let containerDelta := wrap_i64 (desired - (st_RunningContainers state + st_PendingContainers state)) in
    if 0 <? containerDelta then StartContainers containerDelta
    else if containerDelta <? 0 then StopContainers (wrap_i64 (- containerDelta))
    else KeepContainers.

Section callbacks.
Context (StartContainersFunc StopContainersFunc : Z -> M unit).

(** What one event did: the action, its result, and the failed containers
    handed to [handleStubEvents], which runs on its own. *)
Record scaled := mkScaled { sc_action : scale_action; sc_result : gerr + unit; sc_failed : list string }.

Definition HandleScalingEvent (desiredContainers : Z) : M scaled :=
  with_lock (ai_Name i) (ai_InstanceLockKey i) 10 0
    (state <- State ;;
     let action := decide_action desiredContainers state in
     let failed := st_FailedContainers state in
     match action with
     | Shutdown => ok (mkScaled Shutdown (inr tt) [])
     | StartContainers n => r <~ StartContainersFunc n ;; ok (mkScaled action r failed)
     | StopContainers n => r <~ StopContainersFunc n ;; ok (mkScaled action r failed)
     | KeepContainers => ok (mkScaled action (inr tt) failed)
     end).

(** ** Unhealthy stubs *)

(** The event that is pushed when the state changes is not modelled. *)
Definition emitUnhealthyEvent (stubId currentState : string) : prog unit :=
  s <~ GetStubState stubId ;;
  match s with
  | inl _ => Ret tt
  | inr state =>
      if String.eqb state currentState then Ret tt
      else SetStubState stubId currentState ;~ Ret tt
  end.

Definition handleStubEvents (failedContainers : list string) : prog unit :=
  let n := Z.of_nat (length failedContainers) in
  if ai_FailedContainerThreshold i <=? n then emitUnhealthyEvent (ai_StubExternalId i) StubStateDegraded
  else if 0 <? n then emitUnhealthyEvent (ai_StubExternalId i) StubStateWarning
  else Ret tt.

(** ** The instance's loop *)

Record monitor_state := mkMonitor { mo_Containers : gset string; mo_ignoreUntil : Z }.

Inductive monitor_event :=
| ContainerEvent (containerId : string) (change : Z)
| ScaleEvent (desiredContainers : Z).

Definition IgnoreScalingEventInterval : Z := 10 * second.

(** One iteration of [Monitor], with the clock before ([now]) and after ([now'])
    the event is handled; an instance that is shut down leaves the loop at the
    next iteration ([None]). *)
Definition monitor_step (now now' : Z) (m : monitor_state) (e : monitor_event) : prog (option monitor_state) :=
  match e with
  | ContainerEvent containerId change =>
      let exists_ := bool_decide (containerId ∈ mo_Containers m) in
      Ret (Some (mkMonitor
        (if negb exists_ && (change =? 1) then {[containerId]} ∪ mo_Containers m
         else if exists_ && (change =? -1) then mo_Containers m ∖ {[containerId]}
         else mo_Containers m) (mo_ignoreUntil m)))
  | ScaleEvent desiredContainers =>
      if now <? mo_ignoreUntil m then Ret (Some m)
      else
        r <~ HandleScalingEvent desiredContainers ;;
        match r with
        | inr (mkScaled Shutdown _ _) => Ret None
        | inl (EThrottledByConcurrencyLimit _)
        | inr (mkScaled _ (inl (EThrottledByConcurrencyLimit _)) _) =>
            Ret (Some (if mo_ignoreUntil m <? now'
                       then mkMonitor (mo_Containers m) (now' + IgnoreScalingEventInterval) else m))
        | _ => Ret (Some m)
        end
  end.
End callbacks.
End instance.
