(* ===== verification/AutoscalerProps.v ===== *)
(** * What autoscaling promises *)

From S2P Require Import Prelude GoStd Redis Keys Types Codec Lock ContainerRepo ContainerSpec.
From S2P Require Import TaskRepo TaskProps Autoscaler Samples.

Local Open Scope Z_scope.
Set Default Proof Using "Type".

(** ** Arithmetic of the scale functions *)

Lemma float64_of_int_small x : 0 <= x < 2 ^ 53 -> float64_of_int x = x.
Proof.
  intros [H0 H]. unfold float64_of_int. destruct (decide (x = 0)) as [->|]; [done|].
  rewrite (proj2 (Z.leb_le _ _)); [done|].
  assert (Z.log2 x < 53) by (apply Z.log2_lt_pow2; lia). lia.
Qed.

(** The least number of containers of [per] requests each that hold [n]. *)
Definition ceil_div (n per : Z) : Z := (n + per - 1) / per.

Lemma containers_for_ceil n per :
  0 <= n < 2 ^ 53 -> 0 < per -> containers_for n per = ceil_div n per.
Proof.
  intros Hn Hp. unfold containers_for, ceil_div.
  rewrite Z.quot_div_nonneg, Z.rem_mod_nonneg by lia.
  pose proof (Z.div_mod n per ltac:(lia)) as E. pose proof (Z.mod_pos_bound n per Hp) as B.
  assert (0 <= n / per <= n) as Q
    by (split; [apply Z.div_pos; lia|apply Z.div_le_upper_bound; nia]).
  destruct (Z.ltb_spec 0 (n mod per)).
  - rewrite wrap_i_id by (unfold in_i; lia).
    apply Z.div_unique with (n mod per - 1); [left; lia|]. lia.
  - apply Z.div_unique with (per - 1); [left; lia|]. lia.
Qed.

Lemma limited_min a b n :
  0 <= a < 2 ^ 53 -> 0 <= b < 2 ^ 53 -> 0 <= n < 2 ^ 53 -> limited a b n = Z.min (Z.min a b) n.
Proof.
  intros Ha Hb Hn. unfold limited, float64_of_i64, int_of_float.
  rewrite (proj2 (Z.ltb_ge n 0)) by lia. rewrite !float64_of_int_small by done.
  rewrite decide_True; [done|]. unfold in_i. lia.
Qed.

Lemma ceil_div_range n per : 0 <= n < 2 ^ 53 -> 0 < per -> 0 <= ceil_div n per < 2 ^ 53.
Proof.
  intros Hn Hp. unfold ceil_div. split; [apply Z.div_pos; lia|].
  destruct (decide (n = 0)) as [->|].
  - rewrite Z.div_small by lia. lia.
  - apply Z.div_lt_upper_bound; nia.
Qed.

(** ** The decision of an instance *)

(** The number of containers the instance aims at. *)
Definition aim (i : AutoscaledInstance) (desired : Z) (failed : list string) : Z :=
  if (ai_FailedContainerThreshold i <=? Z.of_nat (length failed)) || negb (ai_IsActive i)
  then 0 else desired.

Definition action_ok (i : AutoscaledInstance) (desired running pending stopping : Z)
    (failed : list string) (a : scale_action) : Prop :=
  let target := aim i desired failed in
  match a with
  | Shutdown => target = 0 /\ running = 0 /\ pending = 0 /\ stopping = 0
  | StartContainers n => 0 < n /\ running + pending + n = target
  | StopContainers n => 0 < n /\ running + pending - n = target
  | KeepContainers => running + pending = target /\
      (target <> 0 \/ running <> 0 \/ pending <> 0 \/ stopping <> 0)
  end.

Lemma decide_action_ok i desired r p s failed :
  in_i32 desired -> 0 <= r < 2 ^ 31 -> 0 <= p < 2 ^ 31 -> 0 <= s ->
  action_ok i desired r p s failed (decide_action i desired (mkInstanceState r p s failed)).
Proof.
  intros Hd Hr Hp Hs. unfold decide_action, action_ok. simpl.
  assert (forall x, (if negb (ai_IsActive i) then 0 else
    if ai_FailedContainerThreshold i <=? Z.of_nat (length failed) then 0 else x) = aim i x failed) as E.
  { intros x. unfold aim. by destruct (_ <=? _), (ai_IsActive i). }
  rewrite E. assert (in_i32 (aim i desired failed)) as Ha
    by (unfold aim; destruct (_ || _); [by vm_compute|done]).
  revert Ha. clear E Hd. generalize (aim i desired failed). intros t Ht. unfold in_i in Ht. simpl in *.
  destruct (Z.eqb_spec t 0), (Z.eqb_spec p 0), (Z.eqb_spec r 0), (Z.eqb_spec s 0); simpl; try lia;
    rewrite (wrap_i_id 64 (t - (r + p))) by (unfold in_i; lia);
    destruct (Z.ltb_spec 0 (t - (r + p))); try lia;
    destruct (Z.ltb_spec (t - (r + p)) 0); try lia;
    rewrite ?wrap_i_id by (unfold in_i; lia); lia.
Qed.

(** ** The counts *)

#[export] Instance count_by_perm status : Proper ((≡ₚ) ==> (=)) (count_by status).
Proof.
  intros l l' H. unfold count_by. f_equal.
  induction H; simpl; repeat case_match; simpl; lia.
Qed.

Lemma count_by_bound status l : 0 <= count_by status l <= Z.of_nat (length l).
Proof.
  unfold count_by. pose proof (List.filter_length_le (λ c, String.eqb (cs_Status c) status) l). lia.
Qed.

Lemma length_omap_le {A B} (f : A -> option B) l : (length (omap f l) <= length l)%nat.
Proof. induction l as [|x l IH]; csimpl; [done|]. destruct (f x); simpl; lia. Qed.

(** The containers of a stub as stored. *)
Definition stub_states (d : rdb) (X : gset string) : list ContainerState :=
  omap (state_at d) (elements X).

(** A container with a failing exit code. *)
Definition failed_at (d : rdb) (id : string) : Prop :=
  exists v z, kv d !! SchedulerContainerExitCode id = Some (RVStr v) /\ ParseInt 64 v = Some z /\
    IsFailed z = true.

(** A failing container of the stub. *)
Definition failed_of (d : rdb) (X : gset string) (id : string) : Prop :=
  failed_at d id /\ exists key, key ∈ X /\ last_segment key = id.

Lemma rwp_get_int k d L :
  rwp (get_int k) (λ r d' L', d' = d /\ L' = L /\ forall z, r = inr z ->
    exists v, kv d !! k = Some (RVStr v) /\ ParseInt 64 v = Some z) d L.
Proof.
  unfold get_int. wp_bind. wp_call; [|by destruct H as [-> _]].
  destruct H as [Hr ->]. destruct r as [v|]; [|done].
  destruct (ParseInt 64 v) as [z|] eqn:E; [|done]. split; [done|]. split; [done|].
  intros z' [= <-]. exists v. split; [|done].
  destruct (kv d !! k) as [[]|]; simpl in Hr; congruence.
Qed.

Lemma rwp_failed_loop keys d L :
  rwp (failed_loop keys) (λ r d' L', d' = d /\ L' = L /\ forall ids, r = inr ids ->
    Forall (λ id, failed_at d id /\ exists key, key ∈ keys /\ last_segment key = id) ids) d L.
Proof.
  induction keys as [|key keys IH]; simpl; [by split; [|split; [|intros ids [= <-]]]|].
  wp_bind. eapply wp_mono; [|apply rwp_get_int]. intros r d1 L1 (-> & -> & Hr).
  assert (forall ids, Forall (λ id, failed_at d id /\ exists k, k ∈ keys /\ last_segment k = id) ids ->
    Forall (λ id, failed_at d id /\ exists k, k ∈ key :: keys /\ last_segment k = id) ids) as Hw.
  { intros ids Hids. eapply Forall_impl; [exact Hids|]. intros id (? & k & ? & ?). split; [done|]. exists k.
    split; [by right|done]. }
  destruct r as [e|z].
  - destruct e; try done. eapply wp_mono; [|apply IH]. intros r d1 L1 (-> & -> & H).
    split; [done|]. split; [done|]. auto.
  - wp_bind. eapply wp_mono; [|apply IH]. intros r d1 L1 (-> & -> & H).
    destruct r as [e|ids]; [done|]. split; [done|]. split; [done|]. intros ids' [= <-].
    specialize (Hw _ (H ids eq_refl)). destruct (IsFailed z) eqn:Ez; [|done]. constructor; [|done].
    destruct (Hr z eq_refl) as (v & ? & ?). split; [by exists v, z|].
    exists key. split; [by left|done].
Qed.

Lemma rwp_State i X d L :
  as_set (kv d !! SchedulerContainerIndex (ai_StubExternalId i)) = Some X ->
  rwp (State i) (λ r _ _, forall st, r = inr st -> exists failed,
    st = mkInstanceState (count_by ContainerStatusRunning (stub_states d X))
           (count_by ContainerStatusPending (stub_states d X))
           (count_by ContainerStatusStopping (stub_states d X)) failed /\
    Forall (failed_of d X) failed) d L.
Proof.
  intros HX. unfold State. wp_bind. eapply wp_mono; [|by apply rwp_list_index].
  intros r d1 L1 ((l & -> & Hl) & (Hf & _ & Hc) & ->). cbn beta iota. wp_bind.
  unfold GetFailedContainersByStubId. wp_bind. wp_call; [|done].
  destruct H as (X1 & HX1 & Hr & ->). destruct (Hc X HX) as (X' & HX' & Hsub & _).
  rewrite HX' in HX1. injection HX1 as <-.
  eapply wp_mono; [|apply rwp_failed_loop]. intros rf d2 L2 (-> & -> & H).
  destruct rf as [e|failed]; [done|]. cbn beta iota. intros st [= <-]. exists failed.
  unfold stub_states. rewrite Hl. split; [done|].
  eapply Forall_impl; [by apply H|]. intros id ((v & z & Hv & Hz) & key & Hk & Hseg). split.
  - exists v, z. split; [|done]. rewrite <- Hv. symmetry. apply (eq_except_kv _ _ _ _ Hf). key_not_in.
  - exists key. split; [|done]. rewrite Hr in Hk. apply Hsub. by apply elem_of_elements.
Qed.

(** A locked method whose result is judged alone. *)
Lemma rwp_with_lock_result {A} owner key ttlS retries (body : M A) (Q : gerr + A -> Prop) d L :
  (forall e, Q (inl e)) ->
  (forall d1 L1, eq_except {[key]} d d1 -> rwp body (λ r _ _, Q r) d1 L1) ->
  rwp (with_lock owner key ttlS retries body) (λ r _ _, Q r) d L.
Proof.
  intros He Hb. unfold with_lock. wp_bind.
  eapply wp_mono with (Q := λ _ d1 _, eq_except {[key]} d d1).
  - intros [e|[]] d1 L1 Hd; [apply He|]. cbn beta iota. wp_bind.
    eapply wp_mono; [|by apply Hb]. intros r d2 L2 Hr. wp_bind.
    eapply wp_mono; [|apply wp_any]. by intros.
  - unfold Acquire. wp_bind. wp_call.
    + assert (eq_except {[key]} d d') as Hf by frame. by destruct r.
    + destruct H as [-> _]. by change (eq_except {[key]} d d).
Qed.

Section props.
Context `{SV : RedisServer, SL : !RedisLaws SV} (I : srv -> Prop) (HR : reliable I).

(** [HandleScalingEvent] aims right, on a reliable server and for any start and
    stop callbacks: when it acts, the action takes the number of running and
    pending containers stored for the stub exactly to the number wanted (zero when
    the instance is inactive, or has as many failed containers as its threshold,
    each of them really recorded as failed), and the instance is shut down only
    when none is wanted and none is running, pending or stopping. *)
Theorem HandleScalingEvent_aims i start stop desired X (s : srv) L :
  I s -> in_i32 desired ->
  as_set (kv (view s) !! SchedulerContainerIndex (ai_StubExternalId i)) = Some X ->
  ai_InstanceLockKey i ∉ X -> ai_InstanceLockKey i <> SchedulerContainerIndex (ai_StubExternalId i) ->
  (forall id, ai_InstanceLockKey i <> SchedulerContainerExitCode id) ->
  Z.of_nat (size X) < 2 ^ 31 ->
  ends (HandleScalingEvent i start stop desired) s L (λ r _, forall sc, r = inr sc ->
    exists failed, Forall (failed_of (view s) X) failed /\
    action_ok i desired (count_by ContainerStatusRunning (stub_states (view s) X))
      (count_by ContainerStatusPending (stub_states (view s) X))
      (count_by ContainerStatusStopping (stub_states (view s) X)) failed (sc_action sc)).
Proof using SL HR.
  intros HI Hd HX HlX Hli Hle Hsz. eapply ends_rwp; [done..|]. unfold HandleScalingEvent.
  apply rwp_with_lock_result; [done|]. intros d1 L1 Hf. wp_bind.
  assert (forall k, k <> ai_InstanceLockKey i -> kv d1 !! k = kv (view s) !! k) as Hk.
  { intros k Hne. apply (eq_except_kv _ _ _ _ Hf). by rewrite elem_of_singleton. }
  assert (stub_states d1 X = stub_states (view s) X) as Es.
  { unfold stub_states. apply list_omap_ext, Forall_Forall2_diag, Forall_forall.
    intros k Hin%elem_of_elements. apply (state_at_eq_except _ _ _ _ Hf).
    rewrite elem_of_singleton. by intros ->. }
  eapply wp_mono; [|apply (rwp_State i X d1)]; [|by rewrite Hk].
  intros r d2 L2 Hr. destruct r as [e|st]; [done|]. cbn beta iota.
  destruct (Hr st eq_refl) as (failed & -> & Hfailed). rewrite Es in *.
  assert (Forall (failed_of (view s) X) failed) as Hfailed'.
  { eapply Forall_impl; [exact Hfailed|]. intros id [(v & z & Hv & Hz) Hin]. split; [|done].
    exists v, z. by rewrite <- Hk. }
  assert (length (stub_states (view s) X) <= size X)%nat as Hlen.
  { unfold stub_states. apply length_omap_le. }
  pose proof (count_by_bound ContainerStatusRunning (stub_states (view s) X)).
  pose proof (count_by_bound ContainerStatusPending (stub_states (view s) X)).
  pose proof (count_by_bound ContainerStatusStopping (stub_states (view s) X)).
  pose proof (decide_action_ok i desired _ _ _ failed Hd
    ltac:(split; [apply H|lia]) ltac:(split; [apply H0|lia]) (proj1 H1)) as Ha.
  destruct (decide_action _ _ _); try (intros sc [= <-]; by exists failed);
    wp_bind; (eapply wp_mono; [|apply wp_any]); intros r d3 L3 _ sc [= <-]; by exists failed.
Qed.
End props.

(** ** The scale functions *)

(** The settings an endpoint scales with: those of its autoscaler, or one task per
    container and one container. *)
Definition per_container (i : AutoscaledInstance) : Z :=
  match ai_Autoscaler i with
  | Some a => if decide (as_TasksPerContainer a = 0) then 1 else as_TasksPerContainer a
  | None => 1
  end.
Definition max_containers (i : AutoscaledInstance) : Z :=
  match ai_Autoscaler i with Some a => as_MaxContainers a | None => 1 end.

Definition small (n : Z) : Prop := 0 <= n < 2 ^ 53.

Lemma scale_formula a b n per :
  small a -> small b -> small n -> 0 < per ->
  limited a b (containers_for n per) = Z.min (Z.min a b) (ceil_div n per).
Proof.
  intros Ha Hb Hn Hp. rewrite containers_for_ceil by done.
  apply limited_min; [done..|]. by apply ceil_div_range.
Qed.

Lemma scale_zero a b per : small a -> small b -> 0 < per -> 0 = Z.min (Z.min a b) (ceil_div 0 per).
Proof. unfold small, ceil_div. intros. rewrite Z.div_small by lia. lia. Qed.

(** An endpoint deployment is scaled to the number of containers that hold its
    requests, rounded up, within its own maximum and the gateway's (all counts
    below 2^53, where the floating-point minimum is exact); an unknown number of
    requests gives no result. *)
Theorem endpointDeploymentScaleFunc_correct i n :
  0 <= per_container i < 2 ^ 63 -> small (max_containers i) -> small (ai_MaxReplicas i) ->
  (small n -> endpointDeploymentScaleFunc i n =
     mkResult (Z.min (Z.min (max_containers i) (ai_MaxReplicas i)) (ceil_div n (per_container i))) true) /\
  ar_ResultValid (endpointDeploymentScaleFunc i (-1)) = false.
Proof.
  intros Hp Hm Hr. split; [|done]. intros Hn. unfold endpointDeploymentScaleFunc.
  assert (0 < per_container i /\
    match ai_Autoscaler i with
    | Some a => if 0 <? as_TasksPerContainer a then wrap_i64 (as_TasksPerContainer a) else 1
    | None => 1 end = per_container i) as [Hp0 E].
  { unfold per_container in *. destruct (ai_Autoscaler i) as [a|]; [|lia].
    case_decide as E0; [by rewrite E0|]. rewrite (proj2 (Z.ltb_lt _ _)) by lia.
    rewrite wrap_i_id by (unfold in_i; lia). lia. }
  destruct (Z.eqb_spec n 0) as [->|]; [f_equal; by apply scale_zero|].
  rewrite (proj2 (Z.eqb_neq n (-1))) by (unfold small in Hn; lia).
  rewrite E. fold (max_containers i). by rewrite scale_formula.
Qed.

(** A task queue is scaled the same way to its tasks in flight, but without a
    default for the tasks per container: with tasks in flight and
    [TasksPerContainer] zero the scale function panics (division by zero). *)
Theorem taskQueueScaleFunc_correct i a n :
  ai_Autoscaler i = Some a -> 0 <= as_TasksPerContainer a < 2 ^ 63 ->
  small (as_MaxContainers a) -> small (ai_MaxReplicas i) -> small n ->
  (0 < as_TasksPerContainer a -> taskQueueScaleFunc i n = inr (mkResult
     (Z.min (Z.min (as_MaxContainers a) (ai_MaxReplicas i)) (ceil_div n (as_TasksPerContainer a))) true)) /\
  (as_TasksPerContainer a = 0 -> 0 < n ->
     taskQueueScaleFunc i n = inl (EPanic "integer divide by zero")).
Proof.
  intros Ea Hp Hm Hr Hn. unfold taskQueueScaleFunc. rewrite Ea.
  rewrite wrap_i_id by (unfold in_i; lia). split.
  - intros Hp0. destruct (Z.eqb_spec n 0) as [->|]; [do 2 f_equal; by apply scale_zero|].
    rewrite (proj2 (Z.eqb_neq n (-1))) by (unfold small in Hn; lia).
    rewrite (proj2 (Z.eqb_neq (as_TasksPerContainer a) 0)) by lia. by rewrite scale_formula.
  - intros -> H. rewrite (proj2 (Z.eqb_neq n 0)), (proj2 (Z.eqb_neq n (-1))) by lia. done.
Qed.

(** ** Concrete runs *)

Definition ex_instance : AutoscaledInstance :=
  mkInstance "inst" "ws" "stub" "endpoint/deployment" true 3 (Some (mkAutoscalerConfig 10 4 0)) 60 8
    "endpoint:ws:stub:instance_lock".

Definition ex_stub_db : rdb :=
  mkRdb {[ SchedulerContainerState "c0" := RVHash (hset_fields (to_slice ex_state) ∅);
           SchedulerContainerIndex "stub" := RVSet {[SchedulerContainerState "c0"]} ]} ∅.

Lemma HandleScalingEvent_aims_witness :
  let p := HandleScalingEvent ex_instance (λ _, ok tt) (λ _, ok tt) 3 in
  let states := stub_states ex_stub_db {[SchedulerContainerState "c0"]} in
  ends (S := ref_server) p (on ex_stub_db) ∅ (λ r _, forall sc, r = inr sc ->
    exists failed, Forall (failed_of ex_stub_db {[SchedulerContainerState "c0"]}) failed /\
    action_ok ex_instance 3 (count_by ContainerStatusRunning states)
      (count_by ContainerStatusPending states) (count_by ContainerStatusStopping states) failed
      (sc_action sc)) /\
  (run (S := ref_server) p (on ex_stub_db) ∅).1.1 = inr (mkScaled (StartContainers 2) (inr tt) []).
Proof.
  split; [|vm_compute; reflexivity].
  apply (HandleScalingEvent_aims (SV := ref_server) _ ref_reliable ex_instance (λ _, ok tt) (λ _, ok tt) 3
    {[SchedulerContainerState "c0"]} (on ex_stub_db) ∅).
  - reflexivity.
  - by split.
  - vm_compute. reflexivity.
  - rewrite elem_of_singleton. discriminate.
  - discriminate.
  - discriminate.
  - reflexivity.
Defined.

Lemma endpointDeploymentScaleFunc_correct_witness :
  endpointDeploymentScaleFunc ex_instance 17 = mkResult 5 true.
Proof.
  apply (endpointDeploymentScaleFunc_correct ex_instance 17); by split.
Defined.

Lemma taskQueueScaleFunc_correct_witness :
  taskQueueScaleFunc ex_instance 100 = inr (mkResult 8 true).
Proof.
  apply (taskQueueScaleFunc_correct ex_instance (mkAutoscalerConfig 10 4 0) 100); by split.
Defined.
