(* ===== verification/Instances.v ===== *)
(** * Stopping containers (instance.go of taskqueue, endpoint and pod)

    Which containers of an instance may be stopped, and the loop that stops some
    of them at random.  [Scheduler.Stop] is an argument. *)

From S2P Require Import Prelude GoStd Redis Keys Types Codec Lock ContainerRepo ContainerSpec.
From S2P Require Import TaskRepo TaskProps TaskQueue Autoscaler AutoscalerProps.

Local Open Scope Z_scope.
Set Default Proof Using "Type".

Definition podKeepWarmLock (workspaceName stubId containerId : string) : string :=
  sprintf "pod:%s:%s:keep_warm_lock:%s" [workspaceName; stubId; containerId].
Definition podContainerConnections (workspaceName stubId containerId : string) : string :=
  sprintf "pod:%s:%s:container_connections:%s" [workspaceName; stubId; containerId].
Arguments podKeepWarmLock : simpl never.
Arguments podContainerConnections : simpl never.

Section instance.
Context (i : AutoscaledInstance).
Let ws := ai_WorkspaceName i.
Let stub := ai_StubExternalId i.

(** [Get(key).Int()] is positive; [None] when it cannot be read, absent is zero. *)
Definition positive_key (key : string) : prog (option bool) :=
  r <~ get_int key ;;
  Ret (match r with
       | inr v => Some (0 <? v)
       | inl ERedisNil => Some false
       | inl _ => None
       end).

(** Some task of the container still holds its running lock; locks that have gone
    are dropped from the index, locks that cannot be read are passed over. *)
Fixpoint tasks_running (containerId : string) (containerTasks : list string) : prog bool :=
  match containerTasks with
  | [] => Ret false
  | taskId :: tasks =>
      r <~ cmd (CGet (taskQueueTaskRunningLock ws stub containerId taskId)) ;;
      match r with
      | inl _ => tasks_running containerId tasks
      | inr None =>
          cmd (CSRem (taskQueueTaskRunningLockIndex ws stub containerId) taskId) ;~
          tasks_running containerId tasks
      | inr (Some _) => Ret true
      end
  end.

Definition not_up (container : ContainerState) : bool :=
  String.eqb (cs_Status container) ContainerStatusStopping
  || String.eqb (cs_Status container) ContainerStatusPending.

(** The keep-warm lock lets a task-queue container go. *)
Definition tq_not_warm (containerId : string) : prog bool :=
  if IsServe (ai_StubType i) then Ret true
  else
    w <~ positive_key (taskQueueKeepWarmLock ws stub containerId) ;;
    Ret (match w with Some keepWarm => negb keepWarm | None => false end).

Definition tq_idle (containerId : string) : prog bool :=
  p <~ cmd (CGet (taskQueueProcessingLock ws stub containerId)) ;;
  match p with
  | inr None =>
      t <~ cmd (CSMembers (taskQueueTaskRunningLockIndex ws stub containerId)) ;;
      match t with
      | inl _ => Ret false
      | inr containerTasks =>
          tasksRunning <~ tasks_running containerId containerTasks ;;
          Ret (negb tasksRunning)
      end
  | _ => Ret false
  end.

(** One container of [stoppableContainers] of a task queue. *)
Definition tq_stoppable (container : ContainerState) : prog bool :=
  if not_up container then Ret false
  else if negb (ai_IsActive i) then Ret true
  else
    notWarm <~ tq_not_warm (cs_ContainerId container) ;;
    if notWarm then tq_idle (cs_ContainerId container) else Ret false.

Definition ep_stoppable (container : ContainerState) : prog bool :=
  if not_up container then Ret false
  else if negb (ai_IsActive i) then Ret true
  else if IsDeployment (ai_StubType i) then
    w <~ positive_key (endpointKeepWarmLock ws stub (cs_ContainerId container)) ;;
    Ret (match w with Some keepWarm => negb keepWarm | None => false end)
  else Ret true.

Definition pod_stoppable (container : ContainerState) : prog bool :=
  if not_up container then Ret false
  else if negb (ai_IsActive i) then Ret true
  else
    w <~ positive_key (podKeepWarmLock ws stub (cs_ContainerId container)) ;;
    match w with
    | Some false =>
        c <~ positive_key (podContainerConnections ws stub (cs_ContainerId container)) ;;
        Ret (match c with Some connections => negb connections | None => false end)
    | _ => Ret false
    end.

Fixpoint stoppable_loop (stoppable : ContainerState -> prog bool) (containers : list ContainerState)
    : prog (list string) :=
  match containers with
  | [] => Ret []
  | container :: containers' =>
      b <~ stoppable container ;;
      keys <~ stoppable_loop stoppable containers' ;;
      Ret (if b : bool then cs_ContainerId container :: keys else keys)
  end.

Definition stoppableContainers (stoppable : ContainerState -> prog bool) : M (list string) :=
  containers <- GetActiveContainersByStubId stub ;;
  keys <~ stoppable_loop stoppable containers ;;
  ok keys.

(** [rnd c] is the c-th random number; the containers stopped are returned with
    the result. *)
Fixpoint stop_loop (Stop : string -> M unit) (rnd : nat -> nat) (c n : nat) (containerIds : list string)
    : prog (list string * (gerr + unit)) :=
  match n with
  | O => Ret ([], inr tt)
  | S n' =>
      let idx := (rnd c `mod` length containerIds)%nat in
      match containerIds !! idx with
      | None => Ret ([], inr tt)
      | Some containerId =>
          r <~ Stop containerId ;;
          match r with
          | inl err => Ret ([containerId], inl err)
          | inr _ =>
              rest <~ stop_loop Stop rnd (S c) n'
                        (take idx containerIds ++ drop (S idx) containerIds)%list ;;
              Ret (containerId :: rest.1, rest.2)
          end
      end
  end.

Definition stopContainers (stoppable : ContainerState -> prog bool) (Stop : string -> M unit)
    (rnd : nat -> nat) (containersToStop : Z) : M (list string * (gerr + unit)) :=
  containerIds <- stoppableContainers stoppable ;;
  stopped <~ stop_loop Stop rnd 0 (Z.to_nat containersToStop) containerIds ;;
  ok stopped.
End instance.

(** ** Containers that must not be stopped *)

Section safety.
Context (i : AutoscaledInstance).
Let ws := ai_WorkspaceName i.
Let stub := ai_StubExternalId i.

Definition holds_string (d : rdb) (k : string) : Prop := exists v, kv d !! k = Some (RVStr v).

(** A task of the container's index holds its running lock. *)
Definition busy (d : rdb) (c : string) : Prop :=
  exists X t, as_set (kv d !! taskQueueTaskRunningLockIndex ws stub c) = Some X /\ t ∈ X /\
    holds_string d (taskQueueTaskRunningLock ws stub c t).

Definition warm (d : rdb) (c : string) : Prop :=
  exists v z, kv d !! taskQueueKeepWarmLock ws stub c = Some (RVStr v) /\
    ParseInt 64 v = Some z /\ 0 < z.

(** What the housekeeping of the index may change: strings stay, busy containers stay busy. *)
Definition drops (d d' : rdb) : Prop :=
  (forall k v, kv d !! k = Some (RVStr v) -> kv d' !! k = Some (RVStr v)) /\
  (forall c, busy d c -> busy d' c).

#[export] Instance drops_refl : Reflexive drops.
Proof. by intros d. Qed.
#[export] Instance drops_trans : Transitive drops.
Proof. intros d1 d2 d3 [H1 H2] [H3 H4]. split; auto. Qed.

Lemma running_index_inj c c' :
  taskQueueTaskRunningLockIndex ws stub c = taskQueueTaskRunningLockIndex ws stub c' -> c = c'.
Proof.
  intros E. unfold taskQueueTaskRunningLockIndex in E. simpl in E.
  repeat injection E as E. apply str_app_inj_l in E.
  repeat injection E as E. apply str_app_inj_l in E.
  repeat injection E as E. by apply str_app_inj_r in E.
Qed.

Lemma drops_srem c t d r d' :
  kv d !! taskQueueTaskRunningLock ws stub c t = None ->
  rsem (CSRem (taskQueueTaskRunningLockIndex ws stub c) t) d r d' -> drops d d'.
Proof.
  intros Hlock (X & HX & ->).
  assert (forall k v, kv d !! k = Some (RVStr v) ->
    kv (set_or_del (taskQueueTaskRunningLockIndex ws stub c) (X ∖ {[t]}) d) !! k = Some (RVStr v)) as Hs.
  { intros k v Hk. rewrite set_or_del_ne; [done|]. intros <-. by rewrite Hk in HX. }
  split; [exact Hs|]. intros c0 (X0 & t0 & HX0 & Hin & v & Hv).
  destruct (decide (c0 = c)) as [->|Hne].
  - rewrite HX in HX0. injection HX0 as <-. exists (X ∖ {[t]}), t0.
    split; [apply as_set_set_or_del|]. split; [|exists v; by apply Hs].
    apply elem_of_difference. split; [done|]. rewrite elem_of_singleton. intros ->. congruence.
  - exists X0, t0. split; [|split; [done|exists v; by apply Hs]].
    rewrite set_or_del_ne; [done|]. intros E%running_index_inj. done.
Qed.

Lemma rwp_tasks_running c tasks d L :
  rwp (tasks_running i c tasks) (λ r d' _, drops d d' /\
    (r = false -> forall t, t ∈ tasks -> ~ holds_string d (taskQueueTaskRunningLock ws stub c t))) d L.
Proof.
  revert d. induction tasks as [|t tasks IH]; intros d; simpl.
  { split; [reflexivity|]. intros _ t H. by apply not_elem_of_nil in H. }
  wp_bind. wp_call.
  - destruct H as [Hr ->]. destruct r as [v|]; [by split|].
    assert (kv d !! taskQueueTaskRunningLock ws stub c t = None) as Hn
      by (destruct (kv d !! taskQueueTaskRunningLock _ _ c t) as [[]|]; done).
    cbn beta iota. wp_bind. wp_call.
    + eapply wp_mono; [|apply IH]. intros b d2 L2 [H1 H2].
      assert (drops d d') as Hd by (by eapply drops_srem).
      split; [by etransitivity|]. intros -> t' [->|Hin]%elem_of_cons [v Hv]; [congruence|].
      eapply (H2 eq_refl t' Hin). exists v. by apply Hd.
    + destruct H as [-> _]. eapply wp_mono; [|apply IH]. intros b d2 L2 [H1 H2]. split; [done|].
      intros -> t' [->|Hin]%elem_of_cons; [intros [v Hv]; congruence|by apply H2].
  - destruct H as [-> Hno]. cbn beta iota. eapply wp_mono; [|apply IH].
    intros b d2 L2 [H1 H2]. split; [done|]. intros -> t' [->|Hin]%elem_of_cons; [|by apply H2].
    intros [v Hv]. apply (Hno (Some v) d). change (as_str (kv d !! taskQueueTaskRunningLock ws stub c t) = Some (Some v) /\ d = d). by rewrite Hv.
Qed.

Lemma rwp_tq_idle c d L :
  rwp (tq_idle i c) (λ r d' _, drops d d' /\
    (r = true -> ~ busy d c /\ ~ holds_string d (taskQueueProcessingLock ws stub c))) d L.
Proof.
  unfold tq_idle. wp_bind. wp_call; [|destruct H as [-> _]; by split].
  destruct H as [Hr ->]. destruct r as [v|]; [by split|].
  assert (~ holds_string d (taskQueueProcessingLock ws stub c)) as Hp.
  { intros [v Hv]. fold ws stub in Hr. by rewrite Hv in Hr. }
  wp_bind. wp_call; [|destruct H as [-> _]; by split].
  destruct H as (X & HX & Hperm & ->). cbn beta iota. wp_bind.
  eapply wp_mono; [|apply rwp_tasks_running]. intros b d1 L1 [H1 H2]. split; [done|].
  destruct b; [done|]. intros _. split; [|done]. intros (X0 & t & HX0 & Hin & Hv).
  fold ws stub in HX. rewrite HX in HX0. injection HX0 as <-.
  apply (H2 eq_refl t); [|done]. rewrite Hperm. by apply elem_of_elements.
Qed.

Lemma rwp_positive_key k d L :
  rwp (positive_key k) (λ r d' L', d' = d /\ L' = L /\ forall z v, kv d !! k = Some (RVStr v) ->
    ParseInt 64 v = Some z -> 0 < z -> r = Some true) d L.
Proof.
  unfold positive_key, get_int. wp_bind. wp_bind. wp_call.
  - destruct H as [Hr ->]. destruct r as [v|]; simpl.
    + assert (kv d !! k = Some (RVStr v)) as Hk
        by (destruct (kv d !! k) as [[]|]; simpl in Hr; congruence).
      destruct (ParseInt 64 v) as [z|] eqn:Ez; (split; [done|]; split; [done|]);
        intros z' v' Hv Hz Hpos; rewrite Hk in Hv; injection Hv as <-; [|congruence].
      rewrite Ez in Hz. injection Hz as <-. f_equal. by apply Z.ltb_lt.
    + split; [done|]. split; [done|]. intros z v Hv. by rewrite Hv in Hr.
  - destruct H as [-> Hno]. split; [done|]. split; [done|]. intros z v Hv.
    exfalso. apply (Hno (Some v) d). change (as_str (kv d !! k) = Some (Some v) /\ d = d). by rewrite Hv.
Qed.

(** A container of the stub that may go. *)
Definition may_stop (d : rdb) (c : ContainerState) : Prop :=
  not_up c = false /\
  (ai_IsActive i = true -> ~ busy d (cs_ContainerId c) /\
     ~ holds_string d (taskQueueProcessingLock ws stub (cs_ContainerId c)) /\
     (IsServe (ai_StubType i) = false -> ~ warm d (cs_ContainerId c))).

Lemma may_stop_drops d d' c : drops d d' -> may_stop d' c -> may_stop d c.
Proof.
  intros [H1 H2] [Hu Ha]. split; [done|]. intros Hact. destruct (Ha Hact) as (Hb & Hp & Hw).
  split; [auto|]. split; [|intros Hs (v & z & Hv & Hz); apply (Hw Hs); exists v, z; auto].
  intros [v Hv]. apply Hp. exists v. auto.
Qed.

Lemma rwp_tq_stoppable c d L :
  rwp (tq_stoppable i c) (λ r d' _, drops d d' /\ (r = true -> may_stop d c)) d L.
Proof.
  unfold tq_stoppable, may_stop. destruct (not_up c) eqn:Hu; [by split|].
  destruct (ai_IsActive i) eqn:Ha; [|by split]. simpl. wp_bind.
  eapply wp_mono with (Q := λ b d' _, d' = d /\ (b = true -> IsServe (ai_StubType i) = false ->
    ~ warm d (cs_ContainerId c))).
  - intros b d1 L1 [-> Hw]. destruct b; [|by split].
    eapply wp_mono; [|apply rwp_tq_idle]. intros r d2 L2 [H1 H2]. split; [done|].
    intros Hr. split; [done|]. intros _. destruct (H2 Hr). auto.
  - unfold tq_not_warm. destruct (IsServe _); [by split|]. wp_bind.
    eapply wp_mono; [|apply rwp_positive_key]. intros r d1 L1 (-> & _ & H).
    split; [done|]. intros Hb _ (v & z & Hv & Hz & Hpos). by rewrite (H z v Hv Hz Hpos) in Hb.
Qed.

Lemma rwp_stoppable_loop cs d L :
  rwp (stoppable_loop (tq_stoppable i) cs) (λ keys d' _, drops d d' /\
    Forall (λ id, exists c, c ∈ cs /\ cs_ContainerId c = id /\ may_stop d c) keys) d L.
Proof.
  revert d L. induction cs as [|c cs IH]; intros d L; [by split|]. simpl. wp_bind.
  eapply wp_mono; [|apply rwp_tq_stoppable]. intros b d1 L1 [H1 Hb]. wp_bind.
  eapply wp_mono; [|apply IH]. intros keys d2 L2 [H2 Hk]. split; [by etransitivity|].
  assert (Forall (λ id, exists c0, c0 ∈ c :: cs /\ cs_ContainerId c0 = id /\ may_stop d c0) keys) as Hk'.
  { eapply Forall_impl; [exact Hk|]. intros id (c0 & ? & ? & ?). exists c0.
    split; [by right|]. split; [done|]. by eapply may_stop_drops. }
  destruct b; [|done]. constructor; [|done]. exists c. split; [by left|auto].
Qed.

Lemma drops_index X d d' :
  as_set (kv d !! SchedulerContainerIndex stub) = Some X ->
  eq_except {[SchedulerContainerIndex stub]} d d' -> drops d d'.
Proof.
  intros HX He. split.
  - intros k v Hk. rewrite <- Hk. apply (eq_except_kv _ _ _ _ He). rewrite elem_of_singleton.
    intros ->. by rewrite Hk in HX.
  - intros c (X0 & t & HX0 & Hin & v & Hv). exists X0, t. unfold holds_string.
    rewrite !(eq_except_kv _ _ _ _ He) by key_not_in. eauto.
Qed.

(** ** Properties *)

Context `{SV : RedisServer, SL : !RedisLaws SV}.

(** A task-queue container that is doing something is never offered for stopping:
    on a reliable server [stoppableContainers] returns ids of stored containers of
    the stub that are neither pending nor stopping and, while the instance is
    active, have no task of their index holding its running lock, no processing
    lock and (unless the stub is a serve) no positive keep-warm lock. *)
Theorem stoppableContainers_safe I X (s : srv) L :
  reliable I -> I s -> as_set (kv (view s) !! SchedulerContainerIndex stub) = Some X ->
  ends (stoppableContainers i (tq_stoppable i)) s L (λ r _, exists ids, r = inr ids /\
    Forall (λ id, exists c, c ∈ stub_states (view s) X /\ cs_ContainerId c = id /\
                    may_stop (view s) c) ids).
Proof using Type SL.
  intros HR HI HX. eapply ends_rwp; [done..|]. unfold stoppableContainers. wp_bind.
  eapply wp_mono; [|by apply rwp_list_index]. intros r d1 L1 ((l & -> & Hl) & (He & _ & _) & ->).
  cbn beta iota. wp_bind. eapply wp_mono; [|apply rwp_stoppable_loop].
  intros keys d2 L2 [_ Hk]. eexists. split; [done|]. eapply Forall_impl; [exact Hk|].
  intros id (c & Hin & Hid & Hs). exists c. unfold stub_states. rewrite <- Hl. split; [done|].
  split; [done|]. eapply may_stop_drops; [|exact Hs]. by eapply drops_index.
Qed.
End safety.

(** ** The loop that stops containers *)

Lemma take_drop_perm {A} (l : list A) n x :
  l !! n = Some x -> l ≡ₚ x :: (take n l ++ drop (S n) l)%list.
Proof. intros H. rewrite <- (take_drop_middle l n x H) at 1. by rewrite Permutation_middle. Qed.

Lemma wp_stop_loop Stop rnd c n ids d L :
  wp (stop_loop Stop rnd c n ids) (λ '(stopped, r) _ _, exists rest,
    (stopped ++ rest)%list ≡ₚ ids /\ (length stopped <= n)%nat /\
    (r = inr tt -> length stopped = Nat.min n (length ids))) d L.
Proof.
  revert c ids d L. induction n as [|n IH]; intros c ids d L; simpl.
  { exists ids. by split. }
  destruct (ids !! (rnd c `mod` length ids)%nat) as [x|] eqn:Ex.
  - pose proof (take_drop_perm _ _ _ Ex) as Hp.
    set (ids' := (take _ ids ++ drop _ ids)%list) in *. wp_bind.
    eapply wp_mono; [|apply wp_any]. intros [e|[]] d1 L1 _; cbn beta iota.
    { exists ids'. split; [by rewrite Hp|]. split; [simpl; lia|done]. }
    wp_bind. eapply wp_mono; [|apply IH]. intros [stopped r] d2 L2 (rest & H1 & H2 & H3).
    exists rest. simpl. split; [by rewrite Hp, H1|]. split; [lia|]. intros Hr.
    rewrite (H3 Hr), Hp. simpl. lia.
  - exists ids. split; [done|]. split; [simpl; lia|]. intros _. simpl.
    destruct ids as [|y ids]; [done|]. apply lookup_ge_None in Ex. simpl in Ex.
    pose proof (Nat.mod_upper_bound (rnd c) (S (length ids)) ltac:(lia)). lia.
Qed.

Section stopping.
Context `{SV : RedisServer, SL : !RedisLaws SV}.

(** [stopContainers] asks for no container twice and stops as many as it should:
    on any server, for any random numbers and any [Scheduler.Stop], the containers
    asked to stop are, with multiplicity, among the stoppable ones, at most
    [containersToStop] of them, and exactly that many (or all of them) when no
    error is returned. *)
Theorem stop_loop_bounded Stop rnd n ids (s : srv) L :
  ends (stop_loop Stop rnd 0 n ids) s L (λ '(stopped, r) _, exists rest,
    (stopped ++ rest)%list ≡ₚ ids /\ (length stopped <= n)%nat /\
    (r = inr tt -> length stopped = Nat.min n (length ids))).
Proof using Type SL.
  apply ends_wp. eapply wp_mono; [|apply wp_stop_loop]. by intros [stopped r] d' L'.
Qed.
End stopping.

(** ** Concrete runs *)

Definition ex_queue_instance : AutoscaledInstance :=
  mkInstance "inst" "ws" "stub" "taskqueue/deployment" true 3 (Some (mkAutoscalerConfig 10 4 0)) 60 8
    (taskQueueInstanceLock "ws" "stub").

Lemma stoppableContainers_safe_witness :
  let X := {[SchedulerContainerState "c0"]} in
  let p := stoppableContainers ex_queue_instance (tq_stoppable ex_queue_instance) in
  ends (S := ref_server) p (on ex_stub_db) ∅ (λ r _, exists ids, r = inr ids /\
    Forall (λ id, exists c, c ∈ stub_states ex_stub_db X /\ cs_ContainerId c = id /\
                    may_stop ex_queue_instance ex_stub_db c) ids) /\
  (run (S := ref_server) p (on ex_stub_db) ∅).1.1 = inr ["c0"].
Proof.
  split; [|vm_compute; reflexivity].
  apply (stoppableContainers_safe ex_queue_instance (SV := ref_server) _
    {[SchedulerContainerState "c0"]} (on ex_stub_db) ∅ ref_reliable eq_refl).
  vm_compute. reflexivity.
Defined.

Lemma stop_loop_bounded_witness :
  let p := stop_loop (λ _, ok tt) (λ _, 7%nat) 0 2 ["a"; "b"; "c"] in
  ends (S := ref_server) p (on empty_rdb) ∅ (λ '(stopped, r) _, exists rest,
    (stopped ++ rest)%list ≡ₚ ["a"; "b"; "c"] /\ (length stopped <= 2)%nat /\
    (r = inr tt -> length stopped = 2%nat)) /\
  (run (S := ref_server) p (on empty_rdb) ∅).1.1 = (["b"; "c"], inr tt).
Proof.
  split; [|vm_compute; reflexivity].
  apply (stop_loop_bounded (SV := ref_server) (λ _, ok tt) (λ _, 7%nat) 2 ["a"; "b"; "c"] (on empty_rdb) ∅).
Defined.
