(* ===== verification/RequestBuffer.v ===== *)
(** * The endpoint request buffer (pkg/abstractions/endpoint/buffer.go)

    Requests to an endpoint wait in a ring buffer until a container can take
    them.  How many requests a container serves at once is bounded by a bucket of
    tokens in Redis, shared by all gateways: a request takes a token
    ([acquireRequestToken]) and gives it back when it is served
    ([releaseRequestToken]); [discoverContainers] creates the bucket and orders
    the containers by the requests in flight.

    The HTTP exchange with the container is not modelled: [ready] is the health
    check ([checkAddressIsReady]) and a served request is the body of a client in
    the sense of [Interleave].  The gateway's task policy ([configureTaskPolicy] of
    pkg/gateway/services/stub.go), which bounds the timeout the bucket expires
    with, is included. *)

From S2P Require Import Prelude GoStd Redis Keys Types Codec Lock Interleave Env ContainerRepo.
From S2P Require Import ContainerSpec RingBuffer TaskRepo Dispatcher TaskProps DispatcherProps.
From S2P Require Import TaskQueue Autoscaler AutoscalerProps Instances.

Local Open Scope Z_scope.
Set Default Proof Using "Type".

(** ** The task policy of a stub *)

Definition Kind (t : string) : string := hd "" (split_on "/" t).

Record pb_TaskPolicy := mkPbTaskPolicy {
  pb_Timeout : Z;
  pb_MaxRetries : Z;
  pb_Ttl : Z;
}.

Definition MaxTaskTTL : Z := 24 * 60 * 60.
Definition MaxTaskRetries : Z := 5.
Definition DefaultEndpointRequestTimeoutS : Z := 600.
Definition DefaultEndpointRequestTTL : Z := 600.
Definition DefaultFunctionTaskTTL : Z := 3600 * 12.
Definition DefaultTaskQueueTaskTTL : Z := 3600 * 2.

(** The 32-bit fields are exact as [float64]; [Expires] is the zero time. *)
Definition configureTaskPolicy (policy : pb_TaskPolicy) (stubType : string) : TaskPolicy :=
  let maxRetries := Z.min (pb_MaxRetries policy) MaxTaskRetries in
  let ttl := Z.min (pb_Ttl policy) MaxTaskTTL in
  let kind := Kind stubType in
  if String.eqb kind "asgi" || String.eqb kind "endpoint" then
    let timeout := int_of_float (Z.min (float64_of_i64 (pb_Timeout policy))
                                   DefaultEndpointRequestTimeoutS) in
    let timeout := if timeout <=? 0 then DefaultEndpointRequestTimeoutS else timeout in
    mkTaskPolicy 0 timeout 0 (if ttl =? 0 then DefaultEndpointRequestTTL else ttl)
  else if String.eqb kind "schedule" || String.eqb kind "function" then
    mkTaskPolicy maxRetries (pb_Timeout policy) 0 (if ttl =? 0 then DefaultFunctionTaskTTL else ttl)
  else if String.eqb kind "taskqueue" then
    mkTaskPolicy maxRetries (pb_Timeout policy) 0 (if ttl =? 0 then DefaultTaskQueueTaskTTL else ttl)
  else mkTaskPolicy maxRetries (pb_Timeout policy) 0 ttl.

(** ** The buffer *)

Record container := mkContainer {
  ct_id : string;
  ct_address : string;
  ct_inFlightRequests : Z;
}.

(** [rq_ended] is [Context().Err() != nil]. *)
Record request := mkRequest {
  rq_msg : TaskMessage;
  rq_ended : bool;
  rq_processed : bool;
}.

(** The fields the methods read, of the buffer and of its stub configuration. *)
Record RequestBuffer := mkRequestBuffer {
  eb_workspaceName : string;
  eb_stubId : string;
  eb_maxTokens : Z;
  eb_Timeout : Z;
  eb_KeepWarmSeconds : Z;
}.

(** The part of [NewRequestBuffer] that sets [maxTokens]. *)
Definition max_tokens (Workers ConcurrentRequests : Z) (isASGI : bool) : Z :=
  let maxTokens := wrap_i64 Workers in
  if (1 <? ConcurrentRequests) && isASGI then Z.max (wrap_i64 ConcurrentRequests) maxTokens
  else maxTokens.

Definition endpointRequestHeartbeatKeepAlive : Z := 30 * second.

Section methods.
Context (rb : RequestBuffer).
Local Abbreviation ws := (eb_workspaceName rb).
Local Abbreviation stub := (eb_stubId rb).

(** [Get(key).Int()] where [redis.Nil] is told apart. *)
Definition requestTokens (containerId : string) : M Z :=
  let tokenKey := endpointRequestTokens ws stub containerId in
  r <~ get_int tokenKey ;;
  match r with
  | inr val => ok val
  | inl ERedisNil =>
      created <- rcall (λ e, e) (CSetNX tokenKey (fmt_int (eb_maxTokens rb)) 0) ;;
      if created : bool then ok (eb_maxTokens rb) else get_int tokenKey
  | inl e => fail e
  end.

Definition token_expiry : Z := wrap_i64 (eb_Timeout rb * second).

Definition acquireRequestToken (containerId : string) : M unit :=
  let tokenKey := endpointRequestTokens ws stub containerId in
  tokenCount <- rcall (λ e, e) (CDecr tokenKey) ;;
  if tokenCount <? 0 then
    cmd (CIncr tokenKey) ;~ fail (EMsg "too many in-flight requests")
  else rcall (λ e, e) (CExpire tokenKey token_expiry).

Definition releaseRequestToken (containerId taskId : string) : M unit :=
  let tokenKey := endpointRequestTokens ws stub containerId in
  rcall (λ e, e) (CIncr tokenKey) ;;
  rcall (λ e, e) (CExpire tokenKey token_expiry) ;;
  rcall (λ e, e) (CDel [endpointRequestHeartbeat ws stub taskId containerId]) ;;
  ok tt.

(** The keep-warm lock is set before the deferred release. *)
Definition afterRequest (taskId containerId : string) : M unit :=
  (if eb_KeepWarmSeconds rb =? 0 then Ret tt
   else SetEx (endpointKeepWarmLock ws stub containerId) "1"
          (wrap_i64 (eb_KeepWarmSeconds rb * second)) ;~ Ret tt) ;~
  releaseRequestToken containerId taskId.

(** One beat of [heartBeat]. *)
Definition heart_beat (taskId containerId : string) : prog unit :=
  cmd (CSet (endpointRequestHeartbeat ws stub taskId containerId) "1"
         endpointRequestHeartbeatKeepAlive) ;~ Ret tt.

(** One event of [handleHeartbeatEvents]. *)
Definition handle_heartbeat_event (operation key : string) : prog unit :=
  if String.eqb operation "expired" then
    let parts := split_on colon key in
    match rev parts with
    | containerId :: taskId :: _ => releaseRequestToken containerId taskId ;~ Ret tt
    | _ => Ret tt
    end
  else Ret tt.

(** [handleHeartbeatEvents] over the events that reach a gateway. *)
Fixpoint handleHeartbeatEvents (events : list (string * string)) : prog unit :=
  match events with
  | [] => Ret tt
  | (operation, key) :: events' =>
      handle_heartbeat_event operation key ;~ handleHeartbeatEvents events'
  end.

(** [handleRequest]: the container that takes the request, or [None] when the
    request goes back to the front of the buffer. *)
Definition handleRequest (availableContainers : list container) : prog (option container) :=
  match availableContainers with
  | [] => Ret None
  | c :: _ =>
      r <~ acquireRequestToken (ct_id c) ;;
      Ret (match r with inl _ => None | inr _ => Some c end)
  end.

Context {SS : SortSlice} (ready : string -> bool).

(** One container of [discoverContainers]. *)
Definition discover_one (cs : ContainerState) : prog (option container) :=
  if negb (String.eqb (cs_Status cs) ContainerStatusRunning) then Ret None
  else
    a <~ GetContainerAddress (cs_ContainerId cs) ;;
    match a with
    | inl _ => Ret None
    | inr containerAddress =>
        t <~ requestTokens (cs_ContainerId cs) ;;
        Ret (match t with
             | inl _ => None
             | inr availableTokens =>
                 if ready containerAddress
                 then Some (mkContainer (cs_ContainerId cs) containerAddress
                              (wrap_i64 (eb_maxTokens rb - availableTokens)))
                 else None
             end)
    end.

Fixpoint discover_all (containerStates : list ContainerState) : prog (list container) :=
  match containerStates with
  | [] => Ret []
  | cs :: rest =>
      c <~ discover_one cs ;;
      availableContainers <~ discover_all rest ;;
      Ret (option_list c ++ availableContainers)%list
  end.

Definition by_in_flight (a b : container) : bool :=
  ct_inFlightRequests a <? ct_inFlightRequests b.

(** One round of [discoverContainers]: [None] keeps the containers known. *)
Definition discoverContainers : prog (option (list container)) :=
  s <~ GetActiveContainersByStubId stub ;;
  match s with
  | inl _ => Ret None
  | inr containerStates =>
      availableContainers <~ discover_all containerStates ;;
      Ret (Some (sort_slice by_in_flight availableContainers))
  end.

Context {TJ : TaskJson} {TB : TaskBackend}.

Definition cancelInFlightTask (m : TaskMessage) (reason : string) : M unit := ep_Cancel m reason.

(** One round of [processRequests]: the buffer after it, and the request handed
    to [handleRequest]. *)
Definition process_request (zero : request) (availableContainers : list container)
    (buffer : @RingBuffer.RingBuffer request) : prog (@RingBuffer.RingBuffer request * option request) :=
  match availableContainers with
  | [] => Ret (buffer, None)
  | _ =>
      let '((req, found), buffer') := ring_Pop zero buffer in
      if negb found then Ret (buffer', None)
      else if rq_ended req
      then cancelInFlightTask (rq_msg req) TaskRequestCancelled ;~ Ret (buffer', None)
      else Ret (buffer', Some req)
  end.

(** [processRequests] and the [handleRequest] it starts, run to the end of the
    hand-over: the request is with a container or back in the buffer. *)
Definition dispatch_request (zero : request) (availableContainers : list container)
    (buffer : @RingBuffer.RingBuffer request)
    : prog (@RingBuffer.RingBuffer request * option (request * container)) :=
  p <~ process_request zero availableContainers buffer ;;
  match p with
  | (buffer', None) => Ret (buffer', None)
  | (buffer', Some req) =>
      h <~ handleRequest availableContainers ;;
      match h with
      | None => Ret (ring_Push buffer' req true, None)
      | Some c => Ret (buffer', Some (mkRequest (rq_msg req) (rq_ended req) true, c))
      end
  end.
End methods.

(** ** Protocols about one key *)

Section key_protocol.
Context {G : Type} (move : G -> rdb -> G -> rdb -> Prop) (key : string).
Hypothesis move_keep : forall g d d', kv d' !! key = kv d !! key -> move g d g d'.

(** A command on another key, or one that leaves the key as it is. *)
Lemma follows_keeps {R} (c : rcmd R) g (post : rerr + R -> G -> Prop) :
  (forall d r d', rsem c d r d' -> kv d' !! key = kv d !! key) ->
  (forall r, post r g) -> follows move (cmd c) g post.
Proof using move_keep.
  intros Hc Hp. apply follows_cmd. intros d. split.
  - intros r d' H. exists g. split; [|done]. eapply move_keep, Hc, H.
  - intros e d' [->|[r H]]; exists g; (split; [|done]); apply move_keep; [done|by eapply Hc].
Qed.

Lemma follows_SetEx k v e g (post : gerr + unit -> G -> Prop) :
  k <> key -> (forall r, post r g) -> follows move (SetEx k v e) g post.
Proof using move_keep.
  intros Hk Hp. unfold SetEx. destruct (e <=? 0); [apply Hp|].
  apply follows_rcall, follows_keeps; [|done]. intros d r d' ->. simpl. by apply lookup_insert_ne.
Qed.

Lemma expire_keeps k e d r d' : 0 < e -> rsem (CExpire k e) d r d' -> kv d' = kv d.
Proof.
  intros He ->. destruct (Z.leb_spec e 0); [lia|]. by destruct (exists_kv k d).
Qed.

Lemma follows_expire e g (post : gerr + unit -> G -> Prop) :
  0 < e -> (forall r, post r g) -> follows move (rcall (λ e, e) (CExpire key e)) g post.
Proof using move_keep.
  intros He Hp. apply follows_rcall, follows_keeps; [|done].
  intros d r d' H. by rewrite (expire_keeps _ _ _ _ _ He H).
Qed.

(** A failed EXPIRE may be a move of its own. *)
Lemma follows_expire_or e g g' (post : gerr + unit -> G -> Prop) :
  0 < e -> (forall d d', kv d' !! key = kv d !! key -> move g d g' d') ->
  post (inr tt) g -> (forall e, post (inl e) g') ->
  follows move (rcall (λ e, e) (CExpire key e)) g post.
Proof using move_keep.
  intros He Hdrop H1 H2. apply follows_rcall, follows_cmd. intros d. split.
  - intros [] d' H. exists g. split; [|done]. apply move_keep.
    by rewrite (expire_keeps _ _ _ _ _ He H).
  - intros e' d' H. exists g'. split; [|done]. apply Hdrop.
    destruct H as [->|[r H]]; [done|]. by rewrite (expire_keeps _ _ _ _ _ He H).
Qed.

Lemma follows_get_int g (post : gerr + Z -> G -> Prop) :
  (forall r, post r g) -> follows move (get_int key) g post.
Proof using move_keep.
  intros Hp. unfold get_int. apply follows_mbind, follows_rcall, follows_keeps.
  - by intros d r d' [_ ->].
  - intros [e|[v|]]; simpl; try apply Hp. destruct (ParseInt 64 v); apply Hp.
Qed.
End key_protocol.

(** ** The bucket protocol

    A thread is idle, holds a token, has taken the count below zero and is about to
    put it back, or is to put back tokens it never took ([BOwing n]: [n + 1] of them). *)

Inductive bucket_ghost := BIdle | BHolding | BBorrowed | BOwing (n : nat).
#[export] Instance bucket_ghost_eq_dec : EqDecision bucket_ghost.
Proof. solve_decision. Defined.

Definition weight (g : bucket_ghost) : Z :=
  match g with BIdle => 0 | BHolding | BBorrowed => 1 | BOwing n => Z.of_nat (S n) end.

Definition owing (n : nat) : bucket_ghost := match n with O => BIdle | S n => BOwing n end.

Lemma weight_owing n : weight (owing n) = Z.of_nat n.
Proof. by destruct n. Qed.
Lemma weight_nonneg g : 0 <= weight g.
Proof. destruct g; simpl; lia. Qed.

Section bucket.
Context (key : string) (maxTokens bound : Z).

Definition bucket (d : rdb) : option Z := as_int (kv d !! key).

(** The count and the tokens out never grow together, except when the bucket is
    created; a token is only held when the count did not go below zero. *)
Definition bucket_move (g : bucket_ghost) (d : rdb) (g' : bucket_ghost) (d' : rdb) : Prop :=
  forall z, bucket d = Some z ->
  exists z', bucket d' = Some z' /\
    (is_Some (kv d !! key) -> is_Some (kv d' !! key)) /\
    (z' + weight g' <= z + weight g \/ (kv d !! key = None /\ z' = maxTokens /\ g' = g)) /\
    (g' = BHolding -> g = BHolding \/ 0 <= z') /\
    (kv d' !! key = None -> weight g' <= weight g).

Definition out (gs : list bucket_ghost) : Z := foldr (λ g n, weight g + n) 0 gs.
Definition serving (gs : list bucket_ghost) : nat := length (filter (λ g, g = BHolding) gs).

Definition bucket_inv (gs : list bucket_ghost) (d : rdb) : Prop :=
  exists z, bucket d = Some z /\ z + out gs <= bound /\
    Z.of_nat (serving gs) <= bound /\ (kv d !! key = None -> maxTokens + out gs <= bound).

Lemma out_insert gs i g g' :
  gs !! i = Some g -> out (<[i := g']> gs) + weight g = out gs + weight g'.
Proof.
  revert i. induction gs as [|h gs IH]; intros [|i] Hi; simplify_eq/=; [lia|].
  specialize (IH i Hi). lia.
Qed.

Lemma serving_insert gs i g g' :
  gs !! i = Some g ->
  Z.of_nat (serving (<[i := g']> gs)) + (if decide (g = BHolding) then 1 else 0) =
  Z.of_nat (serving gs) + (if decide (g' = BHolding) then 1 else 0).
Proof.
  unfold serving. revert i. induction gs as [|h gs IH]; intros [|i] Hi; simplify_eq/=.
  - rewrite !filter_cons. repeat case_decide; simpl; lia.
  - specialize (IH i Hi). rewrite !filter_cons.
    destruct (decide (h = BHolding)); simpl; lia.
Qed.

Lemma serving_out gs : Z.of_nat (serving gs) <= out gs.
Proof.
  unfold serving. induction gs as [|g gs IH]; simpl; [lia|]. rewrite filter_cons.
  destruct g; simpl; lia.
Qed.

Lemma out_idle n : out (replicate n BIdle) = 0.
Proof. induction n; simpl; lia. Qed.

Lemma bucket_inv_move gs i g g' d d' :
  gs !! i = Some g -> bucket_move g d g' d' -> bucket_inv gs d -> bucket_inv (<[i := g']> gs) d'.
Proof.
  intros Hi Hm (z & Hz & Hsum & Hsrv & Habs).
  destruct (Hm z Hz) as (z' & Hz' & Hex & Hle & Hhold & Hnone).
  pose proof (out_insert gs i g g' Hi) as Ho. pose proof (serving_insert gs i g g' Hi) as Hs.
  pose proof (serving_out (<[i := g']> gs)).
  assert (z' + out (<[i := g']> gs) <= bound) as Hsum'.
  { destruct Hle as [Hle|(Hn & -> & ->)]; [lia|]. specialize (Habs Hn). lia. }
  exists z'. split; [done|]. split; [done|]. split.
  - destruct (decide (g' = BHolding)) as [E|E]; [|case_decide; lia].
    destruct (Hhold E) as [->|Hpos]; [|lia]. rewrite decide_True in Hs by done. lia.
  - intros Hn. assert (kv d !! key = None) as Hn0.
    { destruct (kv d !! key) eqn:E; [|done]. destruct Hex as [? Hx]; [eauto|congruence]. }
    specialize (Habs Hn0). specialize (Hnone Hn). lia.
Qed.

Lemma bucket_move_keep g d d' : kv d' !! key = kv d !! key -> bucket_move g d g d'.
Proof.
  intros E z Hz. exists z. unfold bucket in *. rewrite E. repeat split; auto; [left|]; lia.
Qed.

Lemma bucket_move_drop g n d d' :
  kv d' !! key = kv d !! key -> Z.of_nat n <= weight g -> bucket_move g d (owing n) d'.
Proof.
  intros E Hn z Hz. exists z. unfold bucket in *. rewrite E. rewrite weight_owing.
  repeat split; auto; [left; lia|by destruct n].
Qed.

Lemma bucket_move_lose g d d' : kv d' !! key = kv d !! key -> bucket_move g d BIdle d'.
Proof. intros E. apply (bucket_move_drop g 0); [done|apply weight_nonneg]. Qed.

Lemma incr_bucket n d r d' :
  incr_by n key d = Some (r, d') ->
  exists z, bucket d = Some z /\ r = z + n /\ bucket d' = Some r /\ is_Some (kv d' !! key).
Proof.
  intros (z & Hz & -> & Hr & ->)%incr_by_Some. exists z. unfold bucket. simpl.
  rewrite lookup_insert_eq. repeat split; eauto using as_int_fmt.
Qed.

Lemma bucket_move_decr d r d' :
  incr_by (-1) key d = Some (r, d') ->
  bucket_move BIdle d (if r <? 0 then BBorrowed else BHolding) d' /\ bucket_move BIdle d BIdle d'.
Proof.
  intros (z & Hz & -> & Hz' & [v Hv])%incr_bucket.
  split; intros z0 Hz0; rewrite Hz in Hz0; simplify_eq; exists (z0 + -1);
    repeat split; eauto; try congruence.
  - left. destruct (_ <? 0); simpl; lia.
  - destruct (Z.ltb_spec (z0 + -1) 0); [done|]. auto.
  - left. lia.
Qed.

Lemma bucket_move_incr g n d r d' :
  Z.of_nat n + 1 <= weight g -> incr_by 1 key d = Some (r, d') -> bucket_move g d (owing n) d'.
Proof.
  intros Hg (z & Hz & -> & Hz' & [v Hv])%incr_bucket z0 Hz0. rewrite Hz in Hz0. simplify_eq.
  exists (z0 + 1). rewrite weight_owing. repeat split; eauto; try congruence; [left; lia|by destruct n].
Qed.

(** A command that puts a token back, whether its reply arrives or not. *)
Lemma follows_give g n (post : rerr + Z -> bucket_ghost -> Prop) :
  Z.of_nat n + 1 <= weight g -> (forall r, post r (owing n)) -> follows bucket_move (cmd (CIncr key)) g post.
Proof.
  intros Hg Hp. apply follows_cmd. intros d.
  split; intros r d'; [intros H|intros [->|[r' H]]]; exists (owing n); (split; [|done]);
    try (by eapply bucket_move_incr). apply bucket_move_drop; [done|lia].
Qed.
Lemma follows_put_back g (post : rerr + Z -> bucket_ghost -> Prop) :
  g <> BIdle -> (forall r, post r BIdle) -> follows bucket_move (cmd (CIncr key)) g post.
Proof. intros Hg Hp. apply (follows_give g 0); [|done]. destruct g; simpl; (done || lia). Qed.

Lemma follows_take :
  follows bucket_move (cmd (CDecr key)) BIdle
    (λ r g, g = match r with inl _ => BIdle | inr z => if z <? 0 then BBorrowed else BHolding end).
Proof.
  apply follows_cmd. intros d. split.
  - intros r d' H. eexists. split; [|done]. by apply bucket_move_decr.
  - intros e d' [->|[r H]]; exists BIdle; (split; [|done]); [by apply bucket_move_keep|].
    by eapply bucket_move_decr.
Qed.
End bucket.

(** ** Clients of the bucket *)

Lemma endpoint_timeout policy stubType :
  Kind stubType = "asgi" \/ Kind stubType = "endpoint" ->
  0 < tp_Timeout (configureTaskPolicy policy stubType) <= DefaultEndpointRequestTimeoutS.
Proof.
  intros Hk. unfold configureTaskPolicy.
  replace (String.eqb (Kind stubType) "asgi" || String.eqb (Kind stubType) "endpoint") with true
    by (destruct Hk as [-> | ->]; reflexivity).
  simpl. unfold DefaultEndpointRequestTimeoutS, int_of_float.
  destruct (Z.leb_spec (if decide (in_i64 (Z.min (float64_of_i64 (pb_Timeout policy)) 600))
    then Z.min (float64_of_i64 (pb_Timeout policy)) 600 else - 2 ^ 63) 0); [lia|].
  case_decide; lia.
Qed.

Lemma tokens_ne_warm ws stub c c' :
  endpointRequestTokens ws stub c <> endpointKeepWarmLock ws stub c'.
Proof.
  intros E. unfold endpointRequestTokens, endpointKeepWarmLock in E. simpl in E.
  repeat injection E as E. apply str_app_inj_l in E. injection E as E.
  by apply str_app_inj_l in E.
Qed.

Lemma tokens_ne_heartbeat ws stub c t c' :
  endpointRequestTokens ws stub c <> endpointRequestHeartbeat ws stub t c'.
Proof.
  intros E. unfold endpointRequestTokens, endpointRequestHeartbeat in E. simpl in E.
  repeat injection E as E. apply str_app_inj_l in E. injection E as E.
  by apply str_app_inj_l in E.
Qed.

Lemma tokens_inj ws stub c c' : endpointRequestTokens ws stub c = endpointRequestTokens ws stub c' -> c = c'.
Proof.
  intros E. unfold endpointRequestTokens in E. simpl in E. repeat injection E as E.
  apply str_app_inj_l in E. injection E as E. apply str_app_inj_l in E. repeat injection E as E.
  by rewrite ?str_app_nil_r in E.
Qed.

Section clients.
Context (rb : RequestBuffer) (containerId : string).
Local Abbreviation tokenKey := (endpointRequestTokens (eb_workspaceName rb) (eb_stubId rb) containerId).
Local Abbreviation move := (bucket_move tokenKey (eb_maxTokens rb)).

Definition token_client (taskId : string) (body : M unit) : client :=
  mkClient (acquireRequestToken rb containerId) body (afterRequest rb taskId containerId).

(** Requests served by the container, rounds of [discoverContainers] over it, and
    anything that leaves the bucket alone. *)
Definition token_thread (t : thread) : Prop :=
  match t with
  | Session c _ => exists taskId body, c = token_client taskId body /\ avoids tokenKey body
  | Loop body _ => body = (requestTokens rb containerId ;~ Ret tt) \/ avoids tokenKey body
  end.

Hypothesis expiry_pos : 0 < token_expiry rb.
Hypothesis max_range : 0 <= eb_maxTokens rb < 2 ^ 63.

(** When EXPIRE fails the request is refused and its token is lost. *)
Lemma follows_acquire :
  follows move (acquireRequestToken rb containerId) BIdle (entered BIdle BHolding).
Proof using expiry_pos.
  unfold acquireRequestToken. apply follows_mbind, follows_rcall.
  eapply follows_mono; [|apply follows_take]. intros [e|z] g ->; [done|]. destruct (z <? 0).
  - eapply follows_pbind with (mid := ends_idle BIdle); [by apply follows_put_back|].
    by intros r g ->.
  - by apply (follows_expire_or _ _ (bucket_move_keep _ _) _ _ BIdle _ expiry_pos
      (bucket_move_lose _ _ _)).
Qed.

Lemma follows_release_owing g n taskId :
  Z.of_nat n + 1 <= weight g ->
  follows move (releaseRequestToken rb containerId taskId) g (λ _ g', g' = owing n).
Proof using expiry_pos.
  intros Hg. unfold releaseRequestToken. apply follows_mbind, follows_rcall, (follows_give _ _ g n); [done|].
  intros [e|r]; [done|]. apply follows_mbind, (follows_expire _ _ (bucket_move_keep _ _) _ _ _ expiry_pos).
  intros [e|[]]; [done|]. apply follows_mbind, follows_rcall, (follows_keeps _ _ (bucket_move_keep _ _)).
  - intros d r' d' ->. apply del_kv_ne. intros E.
    by apply (tokens_ne_heartbeat _ _ _ _ _ (eq_sym E)).
  - by intros [e|r'].
Qed.
Lemma follows_release taskId :
  follows move (releaseRequestToken rb containerId taskId) BHolding (ends_idle BIdle).
Proof using expiry_pos. by apply (follows_release_owing BHolding 0). Qed.

(** The release of a token of another container. *)
Lemma avoids_release c taskId : c <> containerId -> avoids tokenKey (releaseRequestToken rb c taskId).
Proof using Type.
  intros Hne. assert (tokenKey <> endpointRequestTokens (eb_workspaceName rb) (eb_stubId rb) c) as Hk
    by (intros E; by apply tokens_inj in E).
  unfold releaseRequestToken.
  apply avoids_mbind; [apply avoids_rcall; cbn [cmd_keys]; by rewrite list_elem_of_singleton|intros _].
  apply avoids_mbind; [apply avoids_rcall; cbn [cmd_keys]; by rewrite list_elem_of_singleton|intros _].
  apply avoids_mbind; [apply avoids_rcall; cbn [cmd_keys]; rewrite list_elem_of_singleton;
    apply tokens_ne_heartbeat|by intros _].
Qed.

(** An event says that a heartbeat of a request to the container has expired. *)
Definition expires (event : string * string) : bool :=
  String.eqb event.1 "expired" &&
  match rev (split_on colon event.2) with c :: _ :: _ => String.eqb c containerId | _ => false end.

Definition expirations (events : list (string * string)) : nat := length (List.filter expires events).

Lemma follows_event event n :
  follows move (handle_heartbeat_event rb event.1 event.2) (owing (Nat.b2n (expires event) + n))
    (λ _ g', g' = owing n).
Proof using expiry_pos.
  unfold handle_heartbeat_event, expires. destruct (String.eqb event.1 "expired"); [|done]. cbv zeta.
  destruct (rev (split_on colon event.2)) as [|c [|taskId rest]]; [done..|]. simpl andb.
  destruct (String.eqb_spec c containerId) as [->|Hne].
  - eapply follows_pbind; [apply (follows_release_owing _ n); rewrite weight_owing; simpl; lia|].
    by intros r g ->.
  - eapply follows_pbind with (mid := λ _ g', g' = owing n); [|by intros r g ->].
    eapply avoids_follows; [apply bucket_move_keep|by apply avoids_release|done].
Qed.

Lemma follows_events events :
  follows move (handleHeartbeatEvents rb events) (owing (expirations events)) (ends_idle BIdle).
Proof using expiry_pos.
  induction events as [|[op key] events IH]; [done|]. cbn [handleHeartbeatEvents].
  eapply follows_pbind with (mid := λ _ g', g' = owing (expirations events)); [|by intros r g ->].
  unfold expirations. cbn [List.filter].
  pose proof (follows_event (op, key) (expirations events)) as H.
  by destruct (expires (op, key)).
Qed.

Lemma follows_afterRequest taskId :
  follows move (afterRequest rb taskId containerId) BHolding (ends_idle BIdle).
Proof using expiry_pos.
  unfold afterRequest. eapply follows_pbind with (mid := λ _ g, g = BHolding).
  - destruct (_ =? 0); [done|]. eapply follows_pbind with (mid := λ _ g, g = BHolding).
    + apply (follows_SetEx _ _ (bucket_move_keep _ _)); [|done].
      intros E. by apply (tokens_ne_warm _ _ _ _ (eq_sym E)).
    + by intros r g ->.
  - intros r g ->. apply follows_release.
Qed.

(** SETNX creates the bucket, or leaves it as it is. *)
Lemma bucket_move_create d r d' :
  rsem (CSetNX tokenKey (fmt_int (eb_maxTokens rb)) 0) d r d' -> move BIdle d BIdle d'.
Proof using max_range.
  intros H. cbn [rsem] in H. destruct (exists_kv tokenKey d) eqn:E.
  - destruct H as [_ ->]. by apply bucket_move_keep.
  - destruct H as [_ ->]. unfold exists_kv in E. apply bool_decide_eq_false in E.
    assert (kv d !! tokenKey = None) as Hn by (by apply eq_None_not_Some).
    intros z _. exists (eb_maxTokens rb). unfold bucket. simpl. rewrite lookup_insert_eq.
    repeat split; eauto; try done. apply as_int_fmt. unfold in_i. lia.
Qed.

Lemma follows_requestTokens :
  follows move (requestTokens rb containerId ;~ Ret tt) BIdle (ends_idle BIdle).
Proof using max_range.
  eapply follows_pbind with (mid := ends_idle BIdle); [|by intros r g ->].
  unfold requestTokens. eapply follows_pbind with (mid := ends_idle BIdle).
  { by apply (follows_get_int _ _ (bucket_move_keep _ _)). }
  intros [e|z] g ->; [|done]. destruct e; try done. apply follows_mbind, follows_rcall, follows_cmd.
  intros d. split.
  - intros created d' H. exists BIdle. split; [by eapply bucket_move_create|].
    destruct created; [done|]. by apply (follows_get_int _ _ (bucket_move_keep _ _)).
  - intros e d' [->|[r H]]; exists BIdle; (split; [|done]); [by apply bucket_move_keep|].
    by eapply bucket_move_create.
Qed.

Lemma token_thread_good t : token_thread t -> good_thread move BIdle BHolding t.
Proof using expiry_pos max_range.
  destruct t as [c ph|body cur]; simpl.
  - intros (taskId & body & -> & Hb). split; [apply follows_acquire|].
    split; [|apply follows_afterRequest]. eapply avoids_follows; [|exact Hb|done].
    intros g d d' H. split; [done|by apply bucket_move_keep].
  - intros [->|Hb]; [apply follows_requestTokens|].
    eapply avoids_follows; [|exact Hb|done]. apply bucket_move_keep.
Qed.
End clients.

(** The event loop of a gateway that hears these events. *)
Definition listener (rb : RequestBuffer) (events : list (string * string)) : thread :=
  Loop (Ret tt) (handleHeartbeatEvents rb events).

Lemma listeners_stand rb containerId gateways :
  0 < token_expiry rb -> 0 <= eb_maxTokens rb < 2 ^ 63 ->
  Forall2 (stands (bucket_move (endpointRequestTokens (eb_workspaceName rb) (eb_stubId rb) containerId)
             (eb_maxTokens rb)) BIdle BHolding)
    (listener rb <$> gateways) ((λ events, owing (expirations containerId events)) <$> gateways).
Proof.
  intros He Hmax. induction gateways as [|events gateways IH]; constructor; [|done].
  split; [done|]. by apply follows_events.
Qed.

Lemma out_app gs gs' : out (gs ++ gs') = out gs + out gs'.
Proof. induction gs; simpl; lia. Qed.

Lemma out_owing containerId gateways :
  out ((λ events, owing (expirations containerId events)) <$> gateways) =
  Z.of_nat (sum_list_with (expirations containerId) gateways).
Proof.
  induction gateways as [|events gateways IH]; [done|]. rewrite fmap_cons.
  change (weight (owing (expirations containerId events)) +
    out ((λ events, owing (expirations containerId events)) <$> gateways) =
    Z.of_nat (expirations containerId events + sum_list_with (expirations containerId) gateways)).
  rewrite weight_owing, IH. lia.
Qed.

(** C9. The tokens bound the requests in service: for an endpoint whose timeout comes from
    [configureTaskPolicy], however the commands of the gateways that forward requests to a
    container, discover it, listen for expired heartbeats or leave its bucket alone
    interleave, fail or lose their replies, the container serves at most [maxTokens]
    requests at a time, and one more for each expired heartbeat of its requests that a
    gateway was told of (each gateway that hears of an expiry puts a token back, which the
    request itself also does when it ends); the expiry of the bucket itself apart. *)
Theorem request_tokens_bounded rb containerId policy stubType z ts gateways d L s' :
  Kind stubType = "asgi" \/ Kind stubType = "endpoint" ->
  eb_Timeout rb = tp_Timeout (configureTaskPolicy policy stubType) ->
  0 <= eb_maxTokens rb < 2 ^ 63 ->
  bucket (endpointRequestTokens (eb_workspaceName rb) (eb_stubId rb) containerId) d = Some z ->
  z <= eb_maxTokens rb ->
  Forall (λ t, fresh t /\ token_thread rb containerId t) ts ->
  reaches (mkSys (ts ++ (listener rb <$> gateways)) d L) s' ->
  Z.of_nat (users s') <=
    eb_maxTokens rb + Z.of_nat (sum_list_with (expirations containerId) gateways).
Proof.
  intros Hk Ht Hmax Hz Hle Hs Hr.
  assert (0 < token_expiry rb) as He.
  { unfold token_expiry. pose proof (endpoint_timeout policy stubType Hk) as Hb.
    rewrite Ht. unfold DefaultEndpointRequestTimeoutS in Hb. unfold second.
    rewrite wrap_i_id; [lia|done|]. unfold in_i. lia. }
  set (key := endpointRequestTokens (eb_workspaceName rb) (eb_stubId rb) containerId) in *.
  set (bound := eb_maxTokens rb + Z.of_nat (sum_list_with (expirations containerId) gateways)).
  set (owed := (λ events, owing (expirations containerId events)) <$> gateways).
  assert (out (replicate (length ts) BIdle ++ owed) =
    Z.of_nat (sum_list_with (expirations containerId) gateways)) as Ho
    by (rewrite out_app, out_idle; apply out_owing).
  destruct (protocol_from (bucket_move key (eb_maxTokens rb)) BIdle BHolding
    (bucket_inv key (eb_maxTokens rb) bound) (mkSys (ts ++ (listener rb <$> gateways)) d L) s'
    (replicate (length ts) BIdle ++ owed)) as (gs & Hst & (z' & _ & _ & Hsrv & _)).
  - intros gs i g g' d0 d' Hi Hm HI. by eapply bucket_inv_move.
  - apply Forall2_app; [|by apply listeners_stand]. apply Forall2_replicate_r; [done|].
    eapply Forall_impl; [exact Hs|]. intros t [? ?]. apply stands_fresh; [done|]. by apply token_thread_good.
  - pose proof (serving_out (replicate (length ts) BIdle ++ owed)).
    exists z. split; [exact Hz|]. rewrite Ho in *. subst bound. repeat split; simpl; lia.
  - done.
  - pose proof (users_busy _ _ _ _ _ Hst). unfold users. unfold serving in Hsrv. lia.
Qed.

(** Two gateways forward three requests to a container with two tokens, and one of them
    hears that a heartbeat of another container has expired. *)
Definition ex_buffer : RequestBuffer := mkRequestBuffer "ws" "stub" 2 180 0.
Definition ex_threads : list thread :=
  let work := rcall (λ e, e) (CSet "result" "1" 0) in
  let discover := (requestTokens ex_buffer "c1" ;~ Ret tt) in
  [Loop discover discover;
   Session (token_client ex_buffer "c1" "t1" work) Outside;
   Session (token_client ex_buffer "c1" "t2" work) Outside;
   Session (token_client ex_buffer "c1" "t3" work) Outside].
Definition ex_expired (taskId containerId : string) : string * string :=
  ("expired", endpointRequestHeartbeat "ws" "stub" taskId containerId).
Definition ex_requests (events : list (string * string)) : system :=
  mkSys (ex_threads ++ (listener ex_buffer <$> [events])) empty_rdb ∅.

Lemma ex_threads_ok : Forall (λ t, fresh t /\ token_thread ex_buffer "c1" t) ex_threads.
Proof.
  assert (endpointRequestTokens "ws" "stub" "c1" ∉ ["result"]) as Hn
    by (rewrite list_elem_of_singleton; by vm_compute).
  repeat apply Forall_cons_2; try apply Forall_nil_2; (split; [done|]); [by left|..];
    eexists _, _; (split; [done|]); by apply avoids_rcall.
Qed.

Lemma request_tokens_bounded_witness :
  let s events order := schedule order (ex_requests events) in
  let quiet := s [ex_expired "t9" "c2"] [0; 0; 0; 4; 4; 4; 4; 1; 2; 3; 1; 2; 3; 3; 1; 1; 2; 2; 3; 3]%nat in
  let lapsed := s [ex_expired "t1" "c1"] [0; 0; 0; 1; 2; 1; 2; 1; 1; 2; 2; 4; 4; 4; 4; 3; 3; 3; 3]%nat in
  Z.of_nat (users quiet) <= 2 + 0 /\ users quiet = 2%nat /\
  Z.of_nat (users lapsed) <= 2 + 1 /\ users lapsed = 3%nat.
Proof.
  assert (forall events order, Z.of_nat (users (schedule order (ex_requests events))) <=
    2 + Z.of_nat (expirations "c1" events)) as H.
  { intros events order. rewrite <- (Nat.add_0_r (expirations "c1" events)).
    apply (request_tokens_bounded ex_buffer "c1" (mkPbTaskPolicy 180 0 0) "endpoint/deployment" 0 ex_threads
      [events] empty_rdb ∅); [by right|vm_compute; reflexivity|by vm_compute|reflexivity|by vm_compute
      |apply ex_threads_ok|apply schedule_reaches]. }
  intros s quiet lapsed. split; [apply (H [ex_expired "t9" "c2"])|]. split; [vm_compute; reflexivity|].
  split; [apply (H [ex_expired "t1" "c1"])|vm_compute; reflexivity].
Defined.

(** ** One request at a time *)

Section sequential.
Context (rb : RequestBuffer) (containerId : string).
Local Abbreviation tokenKey := (endpointRequestTokens (eb_workspaceName rb) (eb_stubId rb) containerId).

(** The bucket holds [n] tokens, with the time to live [t]. *)
Definition holds_tokens (d : rdb) (n : Z) (t : option Z) : Prop :=
  kv d !! tokenKey = Some (RVStr (fmt_int n)) /\ ttl d !! tokenKey = t.

Lemma rwp_incr (n : Z) (k : string) (z : Z) (Q : gerr + Z -> rdb -> lmap -> Prop) (c : rcmd Z) (d : rdb) (L : lmap) :
  (forall d0 r d1, rsem c d0 r d1 <-> incr_by n k d0 = Some (r, d1)) ->
  as_int (kv d !! k) = Some z -> in_i 64 (z + n) ->
  Q (inr (z + n)) (set_kv k (RVStr (fmt_int (z + n))) d) L ->
  rwp (rcall (λ e, e) c) Q d L.
Proof.
  intros Hc Hz Hr HQ. apply rwp_rcall_ok.
  - eexists _, _. apply Hc, incr_by_Some. eauto.
  - intros r d1 (z' & Hz' & -> & _ & ->)%Hc%incr_by_Some. by rewrite Hz in Hz'; simplify_eq.
Qed.

Lemma rwp_incr_cmd (n : Z) (k : string) (z : Z) (Q : rerr + Z -> rdb -> lmap -> Prop) (c : rcmd Z) (d : rdb) (L : lmap) :
  (forall d0 r d1, rsem c d0 r d1 <-> incr_by n k d0 = Some (r, d1)) ->
  as_int (kv d !! k) = Some z -> in_i 64 (z + n) ->
  Q (inr (z + n)) (set_kv k (RVStr (fmt_int (z + n))) d) L ->
  rwp (cmd c) Q d L.
Proof.
  intros Hc Hz Hr HQ. apply rwp_cmd_ok.
  - eexists _, _. apply Hc, incr_by_Some. eauto.
  - intros r d1 (z' & Hz' & -> & _ & ->)%Hc%incr_by_Some. by rewrite Hz in Hz'; simplify_eq.
Qed.

(** EXPIRE on a key that is there sets its time to live. *)
Lemma rwp_expire (k : string) (e : Z) (Q : gerr + unit -> rdb -> lmap -> Prop) (d : rdb) (L : lmap) :
  0 < e -> is_Some (kv d !! k) -> Q (inr tt) (mkRdb (kv d) (<[k := e]> (ttl d))) L ->
  rwp (rcall (λ e, e) (CExpire k e)) Q d L.
Proof.
  intros He Hk HQ. apply rwp_rcall_ok; [by exists tt; eexists|].
  intros [] d1 ->. unfold exists_kv. rewrite bool_decide_true by done.
  by destruct (Z.leb_spec e 0); [lia|].
Qed.

(** What [acquireRequestToken] does to a bucket that reads [n]; an absent one reads 0. *)
Lemma rwp_acquire (n : Z) (d : rdb) (L : lmap) :
  0 < token_expiry rb -> as_int (kv d !! tokenKey) = Some n -> in_i 63 n ->
  rwp (acquireRequestToken rb containerId) (λ r d' _,
    if 0 <? n then r = inr tt /\ holds_tokens d' (n - 1) (Some (token_expiry rb))
    else r = inl (EMsg "too many in-flight requests") /\ holds_tokens d' n (ttl d !! tokenKey)) d L.
Proof.
  intros He Hn Hr. unfold in_i in Hr. unfold acquireRequestToken. wp_bind.
  apply (rwp_incr (-1) tokenKey n); [done|done|unfold in_i; lia|].
  destruct (Z.ltb_spec (n + -1) 0), (Z.ltb_spec 0 n); try lia.
  - wp_bind. apply (rwp_incr_cmd 1 tokenKey (n + -1)); [done| |unfold in_i; lia|].
    + simpl. rewrite lookup_insert_eq. apply as_int_fmt. unfold in_i. lia.
    + split; [done|]. replace (n + -1 + 1) with n by lia.
      split; simpl; [by rewrite lookup_insert_eq|done].
  - apply rwp_expire; [done| |].
    + simpl. rewrite lookup_insert_eq. eauto.
    + split; [done|]. split; simpl; rewrite lookup_insert_eq; [by f_equal|done].
Qed.

Lemma rwp_release (n : Z) (taskId : string) (d : rdb) (L : lmap) :
  0 < token_expiry rb -> as_int (kv d !! tokenKey) = Some n -> in_i 63 n ->
  rwp (releaseRequestToken rb containerId taskId) (λ r d' _,
    r = inr tt /\ holds_tokens d' (n + 1) (Some (token_expiry rb)) /\
    kv d' !! endpointRequestHeartbeat (eb_workspaceName rb) (eb_stubId rb) taskId containerId = None) d L.
Proof.
  intros He Hn Hr. unfold in_i in Hr. unfold releaseRequestToken. wp_bind.
  apply (rwp_incr 1 tokenKey n); [done|done|unfold in_i; lia|]. wp_bind.
  apply rwp_expire; [done|simpl; rewrite lookup_insert_eq; eauto|]. wp_bind.
  apply rwp_rcall_ok; [by eexists 0, _|]. intros r d1 ->.
  pose proof (tokens_ne_heartbeat (eb_workspaceName rb) (eb_stubId rb) containerId taskId containerId).
  split; [done|]. split; [|simpl; by rewrite lookup_delete_eq].
  split; simpl; rewrite lookup_delete_ne by done; by rewrite lookup_insert_eq.
Qed.

Lemma rwp_requestTokens (n : Z) (t : option Z) (d : rdb) (L : lmap) :
  holds_tokens d n t -> in_i 64 n ->
  rwp (requestTokens rb containerId) (λ r d' _, r = inr n /\ d' = d) d L.
Proof.
  intros [Hk _] Hn. unfold requestTokens, get_int. wp_bind. wp_bind.
  apply rwp_rcall_ok; [exists (Some (fmt_int n)); eexists; split; [by rewrite Hk|done]|].
  intros o d1 [Ho ->]. rewrite Hk in Ho. simpl in Ho. simplify_eq.
  rewrite ParseInt_fmt_int by done. done.
Qed.
End sequential.

(** Once the bucket is gone (its time to live passed while no request came), a request
    that arrives before the next discovery finds no token and leaves a bucket of zero
    tokens that never expires: the discovery reports no capacity, and every request
    is refused, for as long as the container lives. *)
Theorem lost_bucket_starves `{SV : RedisServer, SL : !RedisLaws SV} I rb containerId (s : srv) L :
  reliable I -> I s -> 0 < token_expiry rb ->
  kv (view s) !! endpointRequestTokens (eb_workspaceName rb) (eb_stubId rb) containerId = None ->
  ttl (view s) !! endpointRequestTokens (eb_workspaceName rb) (eb_stubId rb) containerId = None ->
  ends (a <~ acquireRequestToken rb containerId ;; n <~ requestTokens rb containerId ;;
        b <~ acquireRequestToken rb containerId ;; Ret (a, n, b)) s L
    (λ '(a, n, b) d,
      a = inl (EMsg "too many in-flight requests") /\ n = inr 0 /\ b = a /\
      holds_tokens rb containerId d 0 None).
Proof using Type.
  intros HR HI He Hk Ht. eapply ends_rwp; [done..|]. apply wp_pbind.
  eapply wp_mono; [|apply (rwp_acquire rb containerId 0)]; [|done|by rewrite Hk|done].
  intros a d1 L1 [-> H1]. rewrite Ht in H1. apply wp_pbind.
  eapply wp_mono; [|by apply (rwp_requestTokens rb containerId 0 None)].
  intros n d2 L2 [-> ->]. apply wp_pbind. pose proof H1 as [Hk1 Ht1].
  eapply wp_mono; [|apply (rwp_acquire rb containerId 0)]; [|done|by rewrite Hk1|done].
  intros b d3 L3 [-> H3]. rewrite Ht1 in H3. done.
Qed.

Lemma lost_bucket_starves_witness :
  ends (S := ref_server)
    (a <~ acquireRequestToken ex_buffer "c1" ;; n <~ requestTokens ex_buffer "c1" ;;
     b <~ acquireRequestToken ex_buffer "c1" ;; Ret (a, n, b)) (on empty_rdb) ∅
    (λ '(a, n, b) d,
      a = inl (EMsg "too many in-flight requests") /\ n = inr 0 /\ b = a /\
      holds_tokens ex_buffer "c1" d 0 None).
Proof.
  exact (lost_bucket_starves (SV := ref_server) _ ex_buffer "c1" (on empty_rdb) ∅ ref_reliable
    eq_refl eq_refl eq_refl eq_refl).
Defined.

(** ** Discovery *)

Section discovery.
Context {SS : SortSlice} {SSL : SortLaws SS} (rb : RequestBuffer) (ready : string -> bool).
Local Abbreviation ws := (eb_workspaceName rb).
Local Abbreviation stub := (eb_stubId rb).

(** Discovery only adds keys. *)
Definition grows (d d' : rdb) : Prop := forall k v, kv d !! k = Some v -> kv d' !! k = Some v.

(** A discovered container answers at its address, and its requests in flight are
    the tokens its bucket lacks. *)
Definition discovered (d : rdb) (c : container) : Prop :=
  ready (ct_address c) = true /\
  kv d !! SchedulerContainerAddress (ct_id c) = Some (RVStr (ct_address c)) /\
  exists v n, kv d !! endpointRequestTokens ws stub (ct_id c) = Some (RVStr v) /\
    ParseInt 64 v = Some n /\ ct_inFlightRequests c = wrap_i64 (eb_maxTokens rb - n).

#[local] Instance grows_preorder : PreOrder grows.
Proof. split; [by intros d k v|]. intros d1 d2 d3 H1 H2 k v Hk. by apply H2, H1. Qed.

Lemma discovered_grows d d' c : grows d d' -> discovered d c -> discovered d' c.
Proof.
  intros Hg (Hr & Ha & v & n & Hv & Hn). split; [done|]. split; [by apply Hg|].
  exists v, n. split; [by apply Hg|done].
Qed.

Lemma as_str_Some v s : as_str v = Some (Some s) -> v = Some (RVStr s).
Proof. destruct v as [[]|]; simpl; congruence. Qed.

Lemma wp_get_int_str (k : string) (d : rdb) (L : lmap) :
  wp (get_int k) (λ r d' _, d' = d /\ forall z, r = inr z ->
    exists v, kv d !! k = Some (RVStr v) /\ ParseInt 64 v = Some z) d L.
Proof.
  unfold get_int. wp_bind. wp_call; [|by destruct H as [->|(o & _ & ->)]].
  destruct H as [Hr ->]. destruct r as [v|]; [|done].
  destruct (ParseInt 64 v) as [z|] eqn:E; [|done]. split; [done|].
  intros z' [= <-]. exists v. split; [by apply as_str_Some|done].
Qed.

Lemma setnx_grows (k v : string) (e : Z) (d : rdb) b d' :
  rsem (CSetNX k v e) d b d' -> grows d d' /\ (b = true -> kv d' !! k = Some (RVStr v)).
Proof.
  cbn [rsem]. destruct (exists_kv k d) eqn:E; intros [-> ->]; [by split|].
  apply bool_decide_eq_false in E. split; [|intros _; simpl; by rewrite lookup_insert_eq].
  intros k' v' Hk. simpl. rewrite lookup_insert_ne; [done|]. intros <-. eauto.
Qed.

Lemma wp_requestTokens (containerId : string) (d : rdb) (L : lmap) :
  in_i 64 (eb_maxTokens rb) ->
  wp (requestTokens rb containerId) (λ r d' _, grows d d' /\ forall z, r = inr z ->
    exists v, kv d' !! endpointRequestTokens ws stub containerId = Some (RVStr v) /\
      ParseInt 64 v = Some z) d L.
Proof.
  intros Hmax. unfold requestTokens. wp_bind. eapply wp_mono; [|apply wp_get_int_str].
  intros r d1 L1 [-> Hr]. destruct r as [e|z]; [|by split; [reflexivity|]].
  destruct e; try (by split; [reflexivity|]). wp_bind. wp_call.
  - apply setnx_grows in H as [Hg Hb]. destruct r.
    + split; [done|]. intros z [= <-]. eexists. split; [by apply Hb|]. by apply ParseInt_fmt_int.
    + eapply wp_mono; [|apply wp_get_int_str]. intros r d2 L2 [-> Hr2]. by split.
  - split; [|done]. destruct H as [->|[b H]]; [reflexivity|]. by eapply setnx_grows.
Qed.

Lemma wp_discover_one (cs : ContainerState) (d : rdb) (L : lmap) :
  in_i 64 (eb_maxTokens rb) ->
  wp (discover_one rb ready cs) (λ r d' _, grows d d' /\ forall c, r = Some c ->
    ct_id c = cs_ContainerId cs /\ cs_Status cs = ContainerStatusRunning /\ discovered d' c) d L.
Proof.
  intros Hmax. unfold discover_one.
  destruct (String.eqb_spec (cs_Status cs) ContainerStatusRunning) as [Hst|]; simpl;
    [|by split; [reflexivity|]].
  unfold GetContainerAddress, get_str. wp_bind. wp_bind. wp_call.
  2: { split; [|done]. destruct H as [->|(o & _ & ->)]; reflexivity. }
  destruct H as [Ha ->]. destruct r as [address|]; [|by split; [reflexivity|]].
  apply as_str_Some in Ha. wp_bind. eapply wp_mono; [|by apply wp_requestTokens].
  intros [e|n] d1 L1 [Hg Ht]; [by split|]. split; [done|]. intros c Hc.
  destruct (ready address) eqn:Hready; simplify_eq. repeat split; try done; [by apply Hg|].
  destruct (Ht n eq_refl) as (v & Hv & Hn). by exists v, n.
Qed.

Lemma wp_discover_all (states : list ContainerState) (d : rdb) (L : lmap) :
  in_i 64 (eb_maxTokens rb) ->
  wp (discover_all rb ready states) (λ cs d' _, grows d d' /\ Forall (discovered d') cs) d L.
Proof.
  intros Hmax. revert d L. induction states as [|st states IH]; intros d L; simpl.
  - split; [reflexivity|constructor].
  - wp_bind. eapply wp_mono; [|by apply wp_discover_one]. intros r d1 L1 [Hg1 Hr].
    wp_bind. eapply wp_mono; [|apply IH]. intros cs d2 L2 [Hg2 Hcs].
    split; [by etransitivity|]. apply Forall_app. split; [|done].
    destruct r as [c|]; [|constructor]. apply Forall_singleton.
    eapply discovered_grows; [done|]. by apply Hr.
Qed.

Lemma by_in_flight_weak : strict_weak by_in_flight.
Proof.
  unfold by_in_flight. split; intros *; rewrite ?Z.ltb_lt, ?Z.ltb_ge; lia.
Qed.

(** Least-connections balancing: whatever commands fail, a round of [discoverContainers]
    yields containers that answer at their recorded address, each with the requests
    in flight its bucket shows, ordered so that the container [handleRequest] takes
    is the one with the fewest. *)
Theorem discoverContainers_least_loaded `{SV : RedisServer, SL : !RedisLaws SV} (s : srv) L :
  in_i 64 (eb_maxTokens rb) ->
  ends (discoverContainers rb ready) s L (λ r d, forall cs, r = Some cs ->
    Forall (discovered d) cs /\
    forall c cs', cs = c :: cs' ->
      Forall (λ c', ct_inFlightRequests c <= ct_inFlightRequests c') cs').
Proof using Type SSL.
  intros Hmax. apply ends_wp. unfold discoverContainers. apply wp_pbind.
  eapply wp_mono; [|apply wp_any]. intros [e|states] d1 L1 _; [done|].
  apply wp_pbind. eapply wp_mono; [|by apply wp_discover_all]. intros l d2 L2 [_ Hl] cs [= <-].
  pose proof (sort_slice_perm _ by_in_flight l) as Hp.
  pose proof (sort_slice_sorted _ by_in_flight l by_in_flight_weak) as Hs.
  split; [by rewrite Hp|]. intros c cs' E. rewrite E in Hs. inversion Hs as [|? ? _ Hall]; subst.
  eapply Forall_impl; [exact Hall|]. intros c'. unfold by_in_flight. rewrite Z.ltb_ge. lia.
Qed.
End discovery.

(** A running container whose bucket lacks one token. *)
Definition ex_discovery_db : rdb :=
  let cs := mkContainerState "c1" "stub" ContainerStatusRunning 0 "ws" "" 0 0 0 0 in
  mkRdb {[ SchedulerContainerIndex "stub" := RVSet {[SchedulerContainerState "c1"]};
           SchedulerContainerState "c1" := RVHash (hset_fields (to_slice cs) ∅);
           SchedulerContainerAddress "c1" := RVStr "10.0.0.1";
           endpointRequestTokens "ws" "stub" "c1" := RVStr "1" ]} ∅.

Lemma discoverContainers_least_loaded_witness :
  ends (S := ref_server) (discoverContainers (SS := insertion_sort) ex_buffer (λ _, true))
    (on ex_discovery_db) ∅ (λ r d, forall cs, r = Some cs ->
      Forall (discovered ex_buffer (λ _, true) d) cs /\
      forall c cs', cs = c :: cs' ->
        Forall (λ c', ct_inFlightRequests c <= ct_inFlightRequests c') cs') /\
  (run (S := ref_server) (discoverContainers (SS := insertion_sort) ex_buffer (λ _, true))
    (on ex_discovery_db) ∅).1.1 = Some [mkContainer "c1" "10.0.0.1" 1].
Proof.
  split; [|vm_compute; reflexivity].
  assert (in_i 64 (eb_maxTokens ex_buffer)) as Hmax by (by vm_compute).
  exact (discoverContainers_least_loaded (SS := insertion_sort) (SSL := insertion_sort_laws)
    ex_buffer (λ _, true) (SV := ref_server) (on ex_discovery_db) ∅ Hmax).
Defined.

(** ** Dispatch *)

Section dispatch.
Context {TJ : TaskJson} {TB : TaskBackend} (rb : RequestBuffer) (zero : request).

(** Taking a request off the buffer and putting it back leaves the buffer as it was. *)
Lemma pop_push_back (b : @RingBuffer.RingBuffer request) req b' :
  ring_wf b -> ring_Pop zero b = ((req, true), b') ->
  contents zero b = req :: contents zero b' /\
  contents zero (ring_Push b' req true) = contents zero b.
Proof.
  intros Hwf E. destruct (ring_Pop_contents zero b Hwf) as [H1 H2].
  pose proof (ring_Pop_wf zero b Hwf) as Hwf'. destruct (ring_size zero b zero true) as [_ Hsize].
  rewrite E in H1, H2, Hwf', Hsize. cbn [fst snd] in *.
  assert (contents zero b = req :: contents zero b') as Hc.
  { revert H1 H2. destruct (contents zero b) as [|x l]; simpl; intros; by simplify_eq. }
  split; [done|]. rewrite ring_Push_contents by done. unfold deque_push.
  destruct (Z.eqb_spec (Z.of_nat (length (contents zero b'))) (rb_size b')) as [El|]; [|done].
  pose proof (length_contents zero b Hwf) as Hlen. rewrite Hc in Hlen. simpl in Hlen.
  pose proof (wf_count _ Hwf). lia.
Qed.

(** No request is lost or served out of order on its way to a container: whatever
    commands fail, a round of [processRequests] and [handleRequest] hands the oldest
    request to the first container, or leaves the buffer as it was, or drops the
    oldest request because its client has gone (after cancelling its task). *)
Theorem dispatch_request_conserves `{SV : RedisServer, SL : !RedisLaws SV} containers buffer (s : srv) L :
  ring_wf buffer ->
  ends (dispatch_request rb zero containers buffer) s L (λ '(buffer', handed) _,
    match handed with
    | Some (req, c) =>
        exists old, contents zero buffer = old :: contents zero buffer' /\ head containers = Some c /\
          rq_ended old = false /\ req = mkRequest (rq_msg old) false true
    | None =>
        contents zero buffer' = contents zero buffer \/
        exists old, contents zero buffer = old :: contents zero buffer' /\ rq_ended old = true
    end).
Proof using Type.
  intros Hwf. apply ends_wp. unfold dispatch_request, process_request. apply wp_pbind.
  destruct containers as [|c containers]; [by left|].
  destruct (ring_Pop zero buffer) as [[req []] buffer'] eqn:E; simpl.
  - destruct (pop_push_back _ _ _ Hwf E) as [Hpop Hback].
    destruct (rq_ended req) eqn:Hend.
    + apply wp_pbind. eapply wp_mono; [|apply wp_any]. intros r d1 L1 _. right. eauto.
    + apply wp_pbind. simpl. apply wp_pbind. eapply wp_mono; [|apply wp_any].
      intros [e|u] d1 L1 _; [by left|]. exists req. by rewrite Hend.
  - left. destruct (ring_Pop_contents zero buffer Hwf) as [H1 H2]. rewrite E in *. simpl in *.
    revert H1 H2. by destruct (contents zero buffer).
Qed.
End dispatch.

Definition ex_waiting_requests : @RingBuffer.RingBuffer request :=
  ring_Push (NewRingBuffer (mkRequest (ex_message 0) true true) 4)
    (mkRequest (ex_message 0) false false) false.

Lemma dispatch_request_conserves_witness :
  let zero := mkRequest (ex_message 0) true true in
  let p := dispatch_request (TB := ex_backend) ex_buffer zero [mkContainer "c1" "10.0.0.1" 1]
             ex_waiting_requests in
  ends (S := ref_server) p (on ex_discovery_db) ∅ (λ '(buffer', handed) _,
    match handed with
    | Some (req, c) =>
        exists old, contents zero ex_waiting_requests = old :: contents zero buffer' /\
          Some (mkContainer "c1" "10.0.0.1" 1) = Some c /\
          rq_ended old = false /\ req = mkRequest (rq_msg old) false true
    | None =>
        contents zero buffer' = contents zero ex_waiting_requests \/
        exists old, contents zero ex_waiting_requests = old :: contents zero buffer' /\
          rq_ended old = true
    end) /\
  is_Some (run (S := ref_server) p (on ex_discovery_db) ∅).1.1.2.
Proof.
  intros zero p. split; [|eexists; vm_compute; reflexivity].
  assert (ring_wf ex_waiting_requests) as Hwf by (apply ring_Push_wf, NewRingBuffer_wf; lia).
  exact (dispatch_request_conserves (TB := ex_backend) ex_buffer zero (SV := ref_server)
    [mkContainer "c1" "10.0.0.1" 1] ex_waiting_requests (on ex_discovery_db) ∅ Hwf).
Defined.
