(* ===== verification/PodProxy.v ===== *)
(** * The pod proxy (pkg/abstractions/pod/proxy.go)

    Connections to a pod wait in a ring buffer and are proxied to one of its
    containers.  Two counters in Redis, shared by all gateways, say how many
    connections a stub and each container have; they order the containers, and
    keep a container with connections from being stopped ([Instances.pod_stoppable]).
    The proxied exchange itself is not modelled: it is the body of a client in the
    sense of [Interleave], and [dial] says whether an address can be connected to. *)

From S2P Require Import Prelude GoStd Redis Keys Types Codec Lock Interleave Env ContainerRepo.
From S2P Require Import TaskProps TaskQueue Autoscaler AutoscalerProps Instances RequestBuffer.

Local Open Scope Z_scope.
Set Default Proof Using "Type".

Definition podContainerConnectionTimeout : Z := 600 * second.

Record pod_container := mkPodContainer {
  pc_id : string;
  pc_addressMap : gmap Z string;
  pc_connections : Z;
}.

Record PodProxyBuffer := mkPodProxyBuffer {
  pp_workspaceName : string;
  pp_stubId : string;
  pp_KeepWarmSeconds : Z;
}.

(** What becomes of a connection taken off the buffer. *)
Inductive connection_outcome :=
| PutBack
| Refused (status : Z) (msg : string)
| Proxied (containerId targetHost path : string).

Section methods.
Context (pb : PodProxyBuffer).
Local Abbreviation ws := (pp_workspaceName pb).
Local Abbreviation stub := (pp_stubId pb).

Definition containerConnections (containerId : string) : M Z :=
  let tokenKey := podContainerConnections ws stub containerId in
  r <~ get_int tokenKey ;;
  match r with
  | inr val => ok val
  | inl ERedisNil =>
      created <- rcall (λ e, e) (CSetNX tokenKey "0" 0) ;;
      if created : bool then ok 0 else get_int tokenKey
  | inl e => fail e
  end.

Definition incrementTotalConnections : M Z :=
  let key := podTotalConnections ws stub in
  val <- rcall (λ e, e) (CIncr key) ;;
  rcall (λ e, e) (CExpire key podContainerConnectionTimeout) ;;
  ok val.

Definition decrementTotalConnections : M unit :=
  let key := podTotalConnections ws stub in
  rcall (λ e, e) (CDecr key) ;;
  rcall (λ e, e) (CExpire key podContainerConnectionTimeout).

Definition incrementContainerConnections (containerId : string) : M unit :=
  let key := podContainerConnections ws stub containerId in
  rcall (λ e, e) (CIncr key) ;;
  rcall (λ e, e) (CExpire key podContainerConnectionTimeout).

Definition decrementContainerConnections (containerId : string) : M unit :=
  let key := podContainerConnections ws stub containerId in
  connections <- rcall (λ e, e) (CDecr key) ;;
  (if connections <? 0 then cmd (CIncr key) ;~ Ret tt else Ret tt) ;~
  rcall (λ e, e) (CExpire key podContainerConnectionTimeout) ;;
  SetEx (podKeepWarmLock ws stub containerId) "1" (wrap_i64 (pp_KeepWarmSeconds pb * second)) ;~
  ok tt.

(** [handleConnection] up to the proxied exchange: the first container, the port
    of the route as an [int32], the path with a leading slash. *)
Definition handleConnection (availableContainers : list pod_container) (portStr subPath : string)
    : prog connection_outcome :=
  match availableContainers with
  | [] => Ret PutBack
  | container :: _ =>
      match ParseInt 64 portStr with
      | None => Ret (Refused 400 "Invalid port")
      | Some port =>
          match pc_addressMap container !! wrap_i32 port with
          | None => Ret (Refused 503 "Port not available")
          | Some targetHost =>
              let path := if negb (String.eqb subPath "") && negb (HasPrefix subPath "/")
                          then "/" +:+ subPath else subPath in
              r <~ incrementContainerConnections (pc_id container) ;;
              Ret (match r with
                   | inl _ => PutBack
                   | inr _ => Proxied (pc_id container) targetHost path
                   end)
          end
      end
  end.

Context {SS : SortSlice} {JA : JsonAddressMap} (dial : string -> bool).

(** One container of [discoverContainers]: it is available when one of its
    addresses can be dialled (a nil map has none). *)
Definition pod_discover_one (cs : ContainerState) : prog (option pod_container) :=
  if negb (String.eqb (cs_Status cs) ContainerStatusRunning) then Ret None
  else
    a <~ GetContainerAddressMap (cs_ContainerId cs) ;;
    match a with
    | inl _ => Ret None
    | inr addressMap =>
        c <~ containerConnections (cs_ContainerId cs) ;;
        Ret (match c with
             | inl _ => None
             | inr connections =>
                 let addresses := default ∅ addressMap in
                 if existsb dial (map_to_list addresses).*2
                 then Some (mkPodContainer (cs_ContainerId cs) addresses connections)
                 else None
             end)
    end.

Fixpoint pod_discover_all (containerStates : list ContainerState) : prog (list pod_container) :=
  match containerStates with
  | [] => Ret []
  | cs :: rest =>
      c <~ pod_discover_one cs ;;
      availableContainers <~ pod_discover_all rest ;;
      Ret (option_list c ++ availableContainers)%list
  end.

Definition pod_discoverContainers : prog (option (list pod_container)) :=
  s <~ GetActiveContainersByStubId stub ;;
  match s with
  | inl _ => Ret None
  | inr containerStates =>
      availableContainers <~ pod_discover_all containerStates ;;
      Ret (Some (sort_slice (λ a b, pc_connections a <? pc_connections b) availableContainers))
  end.
End methods.

(** ** The counter of a container *)

Section counter.
Context (pb : PodProxyBuffer) (containerId : string).
Local Abbreviation key := (podContainerConnections (pp_workspaceName pb) (pp_stubId pb) containerId).

Definition held (g : bool) : Z := if g then 1 else 0.

(** The counter never loses a connection that is open. *)
Definition count_move (g : bool) (d : rdb) (g' : bool) (d' : rdb) : Prop :=
  forall z, bucket key d = Some z -> exists z', bucket key d' = Some z' /\ z - held g <= z' - held g'.

Definition count_inv (gs : list bool) (d : rdb) : Prop :=
  exists z, bucket key d = Some z /\ Z.of_nat (holders gs) <= z.

Lemma count_inv_move gs i g g' d d' :
  gs !! i = Some g -> count_move g d g' d' -> count_inv gs d -> count_inv (<[i := g']> gs) d'.
Proof.
  intros Hi Hm (z & Hz & Hle). destruct (Hm z Hz) as (z' & Hz' & Hmove).
  pose proof (holders_insert gs i g g' Hi). exists z'. split; [done|].
  destruct g, g'; simpl in *; lia.
Qed.

Lemma count_move_keep g d d' : kv d' !! key = kv d !! key -> count_move g d g d'.
Proof. intros E z Hz. exists z. unfold bucket in *. rewrite E. split; [done|lia]. Qed.

Lemma count_move_by n g g' d r d' :
  incr_by n key d = Some (r, d') -> held g' <= held g + n -> count_move g d g' d'.
Proof.
  intros (z & Hz & -> & Hz' & _)%incr_bucket Hh z0 Hz0. rewrite Hz in Hz0. simplify_eq.
  exists (z0 + n). split; [done|lia].
Qed.

Lemma count_move_drop d d' : kv d' !! key = kv d !! key -> count_move true d false d'.
Proof. intros E z Hz. exists z. unfold bucket in *. rewrite E. split; [done|simpl; lia]. Qed.

Lemma follows_increment :
  follows count_move (incrementContainerConnections pb containerId) false (entered false true).
Proof.
  unfold incrementContainerConnections. apply follows_mbind, follows_rcall.
  apply follows_cmd. intros d. split.
  - intros n d' H. exists true. split; [by eapply (count_move_by 1)|].
    by apply (follows_expire_or _ _ count_move_keep podContainerConnectionTimeout _ false _ eq_refl count_move_drop).
  - intros e d' [->|[r H]]; exists false; (split; [|done]); [by apply count_move_keep|].
    by eapply (count_move_by 1).
Qed.

Lemma warm_ne_connections :
  podKeepWarmLock (pp_workspaceName pb) (pp_stubId pb) containerId <> key.
Proof.
  intros E. unfold podKeepWarmLock, podContainerConnections in E. simpl in E.
  repeat injection E as E. apply str_app_inj_l in E. injection E as E.
  by apply str_app_inj_l in E.
Qed.

Lemma follows_decrement :
  follows count_move (decrementContainerConnections pb containerId) true (ends_idle false).
Proof.
  unfold decrementContainerConnections. apply follows_mbind, follows_rcall, follows_cmd.
  intros d. split.
  - intros n d' H. exists false. split; [by eapply (count_move_by (-1))|].
    eapply follows_pbind with (mid := ends_idle false).
    { destruct (n <? 0); [|done]. eapply follows_pbind with (mid := ends_idle false); [|by intros ? ? ->].
      apply follows_cmd. intros d1.
      split; [intros r d2 H2|intros r d2 [->|[r' H2]]]; exists false; (split; [|done]);
        first [by apply count_move_keep|by eapply (count_move_by 1)]. }
    intros _ g ->. apply follows_mbind, (follows_expire _ _ count_move_keep); [done|]. intros [e|u]; [done|].
    eapply follows_pbind with (mid := ends_idle false); [|by intros r g ->].
    apply (follows_SetEx _ _ count_move_keep); [apply warm_ne_connections|done].
  - intros e d' [->|[r H]]; exists false; (split; [|done]); [by apply count_move_drop|].
    by eapply (count_move_by (-1)).
Qed.

Lemma follows_containerConnections :
  follows count_move (containerConnections pb containerId ;~ Ret tt) false (ends_idle false).
Proof.
  assert (forall d r d', rsem (CSetNX key "0" 0) d r d' -> count_move false d false d') as Hset.
  { intros d r d' H. cbn [rsem] in H. destruct (exists_kv key d) eqn:E; destruct H as [_ ->].
    - by apply count_move_keep.
    - apply bool_decide_eq_false in E. apply eq_None_not_Some in E.
      intros z Hz. unfold bucket in *. rewrite E in Hz. simpl in *. simplify_eq.
      exists 0. rewrite lookup_insert_eq. split; [done|lia]. }
  eapply follows_pbind with (mid := ends_idle false); [|by intros r g ->].
  unfold containerConnections. eapply follows_pbind with (mid := ends_idle false); [by apply (follows_get_int _ _ count_move_keep)|].
  intros [e|z] g ->; [|done]. destruct e; try done. apply follows_mbind, follows_rcall, follows_cmd.
  intros d. split.
  - intros created d' H. exists false. split; [by eapply Hset|]. destruct created; [done|].
    by apply (follows_get_int _ _ count_move_keep).
  - intros e d' [->|[r H]]; exists false; (split; [|done]); [by apply count_move_keep|by eapply Hset].
Qed.

Definition connection_client (body : M unit) : client :=
  mkClient (incrementContainerConnections pb containerId) body
    (decrementContainerConnections pb containerId).

(** Connections proxied to the container, rounds of [discoverContainers] over it,
    and anything that leaves its counter alone. *)
Definition connection_thread (t : thread) : Prop :=
  match t with
  | Session c _ => exists body, c = connection_client body /\ avoids key body
  | Loop body _ => body = (containerConnections pb containerId ;~ Ret tt) \/ avoids key body
  end.

Lemma connection_thread_good t : connection_thread t -> good_thread count_move false true t.
Proof.
  destruct t as [c ph|body cur]; simpl.
  - intros (body & -> & Hb). split; [apply follows_increment|].
    split; [|apply follows_decrement]. eapply avoids_follows; [|exact Hb|done].
    intros g d d' H. split; [done|by apply count_move_keep].
  - intros [->|Hb]; [apply follows_containerConnections|].
    eapply avoids_follows; [|exact Hb|done]. apply count_move_keep.
Qed.

Lemma as_int_str v (z : Z) : as_int v = Some z -> 0 < z -> v = Some (RVStr (fmt_int z)) /\ in_i 64 z.
Proof.
  destruct v as [[s| | | |]|]; simpl; intros H Hz; simplify_eq; [|lia].
  destruct (ParseInt 64 s) as [z0|] eqn:E; [|done].
  destruct (String.eqb_spec s (fmt_int z0)) as [->|]; [|done]. simplify_eq.
  split; [done|]. eapply ParseInt_range, E.
Qed.
End counter.

(** ** Containers with open connections *)

(** A pod container is never stopped under an open connection: however the
    commands of the gateways that proxy to it interleave, fail or lose their
    replies, as long as one connection is open, a scaler of an active stub that
    looks at the container does not find it stoppable (the counter's expiry
    apart). *)
Theorem open_connection_not_stoppable `{SV : RedisServer, SL : !RedisLaws SV} I pb inst cs z s s' (s0 : srv) L :
  reliable I -> I s0 ->
  pp_workspaceName pb = ai_WorkspaceName inst -> pp_stubId pb = ai_StubExternalId inst ->
  ai_IsActive inst = true ->
  bucket (podContainerConnections (pp_workspaceName pb) (pp_stubId pb) (cs_ContainerId cs)) (db s) = Some z ->
  0 <= z ->
  Forall (λ t, fresh t /\ connection_thread pb (cs_ContainerId cs) t) (threads s) ->
  reaches s s' -> (0 < users s')%nat -> view s0 = db s' ->
  ends (pod_stoppable inst cs) s0 L (λ r _, r = false).
Proof using Type.
  intros HR HI Hws Hstub Hact Hz Hpos Hs Hr Hu Hv.
  destruct (protocol_sound (count_move pb (cs_ContainerId cs)) false true
    (count_inv pb (cs_ContainerId cs)) s s') as (gs & Hst & (z' & Hz' & Hle)).
  - intros gs i g g' d d' Hi Hm HI'. by eapply count_inv_move.
  - eapply Forall_impl; [exact Hs|]. intros t [? ?]. split; [done|]. by apply connection_thread_good.
  - exists z. rewrite holders_idle. split; [done|lia].
  - done.
  - pose proof (users_busy _ _ _ _ _ Hst) as Hb. unfold users in Hu. unfold holders in Hle.
    destruct (as_int_str _ z' Hz') as [Hk Hrange]; [lia|].
    eapply ends_rwp; [done..|]. rewrite Hv. unfold pod_stoppable.
    destruct (not_up cs); [done|]. rewrite Hact. simpl. apply wp_pbind.
    eapply wp_mono; [|apply rwp_positive_key]. intros w d1 L1 (-> & _ & _).
    destruct w as [[]|]; try done. apply wp_pbind.
    eapply wp_mono; [|apply rwp_positive_key]. intros c d2 L2 (-> & _ & Hc).
    rewrite <- Hws, <- Hstub in Hc.
    rewrite (Hc z' _ Hk); [done| |lia]. by apply ParseInt_fmt_int.
Qed.

Definition ex_proxy : PodProxyBuffer := mkPodProxyBuffer "ws" "stub" 60.
Definition ex_pod_instance : AutoscaledInstance :=
  mkInstance "pod" "ws" "stub" "pod/deployment" true 3 None 60 1 "lock".
Definition ex_connections : system :=
  let talk := rcall (λ e, e) (CSet "result" "1" 0) in
  let discover := (containerConnections ex_proxy "c0" ;~ Ret tt) in
  mkSys [Loop discover discover; Session (connection_client ex_proxy "c0" talk) Outside;
         Session (connection_client ex_proxy "c0" talk) Outside] empty_rdb ∅.
Definition ex_pod_state : ContainerState :=
  mkContainerState "c0" "stub" ContainerStatusRunning 100 "ws" "" 0 1000 2000 110.

Lemma open_connection_not_stoppable_witness :
  let s := schedule [1; 1; 0; 0; 1; 2; 2; 1; 2; 2; 1; 1; 1; 1]%nat ex_connections in
  ends (S := ref_server) (pod_stoppable ex_pod_instance ex_pod_state) (on (db s)) ∅ (λ r _, r = false).
Proof.
  intros s.
  assert (reaches ex_connections s) as Hr by apply schedule_reaches.
  assert (0 < users s)%nat as Hu by (vm_compute; lia).
  refine (open_connection_not_stoppable (SV := ref_server) _ ex_proxy ex_pod_instance ex_pod_state 0
    ex_connections s (on (db s)) ∅ ref_reliable eq_refl eq_refl eq_refl eq_refl eq_refl _ _ Hr Hu eq_refl);
    [lia|].
  assert (podContainerConnections "ws" "stub" "c0" ∉ ["result"]) as Hn
    by (rewrite list_elem_of_singleton; by vm_compute).
  repeat apply Forall_cons_2; try apply Forall_nil_2; (split; [done|]); [by left|..];
    eexists; (split; [done|]); by apply avoids_rcall.
Defined.
