(* ===== verification/QueueService.v ===== *)
(** * The task-queue service (pkg/abstractions/taskqueue/taskqueue.go)

    [put] stores a task and pushes its message on the stub's queue; a container
    takes the next task that is still wanted ([TaskQueuePop]), keeps it alive while
    it runs ([TaskQueueMonitor]) and reports its end ([TaskQueueComplete]).  The
    service composes the queue client ([TaskQueue]), the dispatcher ([Dispatcher])
    and the task repository ([TaskRepo]).

    Task records are in the SQL backend, a parameter: [GetTaskWithRelated] and the
    classes of [TaskQueue].  Usage costs and the upload of a task's result, whose
    errors are only logged, are not modelled. *)

From S2P Require Import Prelude GoStd Redis Keys Types Codec Lock Env ContainerRepo PoolManager.
From S2P Require Import TaskRepo Dispatcher TaskProps DispatcherProps TaskQueue Autoscaler Instances RequestBuffer.

Local Open Scope Z_scope.
Set Default Proof Using "Type".

(** The fields of a task record with its stub that the service reads. *)
Record TaskWithRelated := mkTaskWithRelated {
  tw_ExternalId : string;
  tw_Status : string;
  tw_StubExternalId : string;
}.

(** The fields of a queue instance that [put] reads. *)
Record queue_instance := mkQueueInstance {
  qi_WorkspaceName : string;
  qi_MaxPendingTasks : Z;
  qi_TaskPolicy : TaskPolicy;
}.

Class QueueBackend := {
  (** [inr None]: no such task, which is not an error. *)
  GetTaskWithRelated : string -> gerr + option TaskWithRelated;
  queueInstance : string -> gerr + queue_instance;
}.

Record pop_response := mkPopResponse { pop_Ok : bool; pop_TaskMsg : string }.
Record complete_response := mkCompleteResponse { comp_Ok : bool; comp_Message : string }.
Record monitor_response := mkMonitorResponse {
  mon_Cancelled : bool;
  mon_Complete : bool;
  mon_TimedOut : bool;
}.

(** What the loop of [TaskQueuePop] finds. *)
Inductive popped :=
| NoTask
| NilTask
| NextTask (task : TaskWithRelated) (msg : string).

Definition nil_task : gerr := EPanic "nil pointer dereference".
Definition pop_refused : pop_response := mkPopResponse false "".
Definition complete_refused : complete_response := mkCompleteResponse false "".

Definition ExecutorTaskQueue : string := "taskqueue".

Definition exceeded_task_limit (n : Z) : gerr :=
  EMsg ("exceeded max pending tasks: " +:+ fmt_int n).

Section service.
Context {TJ : TaskJson} {TB : TaskBackend} {QB : QueueBackend}.
Context (executors : gmap string TaskFactory).

(** [uuid] is the id of the new message, [nowNs] the clock. *)
Definition put (uuid uuid' : string) (nowNs : Z) (pooled : TaskMessage) (stubId : string)
    (args : option (list jvalue)) (kwargs : option (gmap string jvalue)) : M string :=
  match queueInstance stubId with
  | inl err => fail err
  | inr inst =>
      tasksInFlight <- TasksInFlight (qi_WorkspaceName inst) stubId ;;
      if wrap_i64 (qi_MaxPendingTasks inst) <=? tasksInFlight
      then fail (exceeded_task_limit (qi_MaxPendingTasks inst))
      else
        let p := qi_TaskPolicy inst in
        let ttl := if tp_TTL p =? 0 then DefaultTaskQueueTaskTTL else tp_TTL p in
        let policy := mkTaskPolicy (tp_MaxRetries p) (tp_Timeout p) (nowNs + ttl * second) ttl in
        sent <~ SendAndExecute executors uuid uuid' (nowNs `div` second) pooled ExecutorTaskQueue
                  (qi_WorkspaceName inst) stubId args kwargs policy ;;
        match sent.1 with
        | inl err => fail err
        | inr task => ok (md_TaskId (Metadata (task_ops task) (Message task)))
        end
  end.

(** The loop of [TaskQueuePop]: the next task that is not completed.  Each round
    takes a message off the queue, [fuel] bounds the rounds and [None] is its end.  The
    record of a task that does not exist is nil, and its status is read all the same. *)
Fixpoint pop_valid (fuel : nat) (workspaceName stubId containerId : string)
    : prog (option popped) :=
  match fuel with
  | O => Ret None
  | S fuel' =>
      r <~ queue_Pop workspaceName stubId containerId ;;
      match r with
      | inl _ => Ret (Some NoTask)
      | inr None => Ret (Some NoTask)
      | inr (Some msg) =>
          match Decode msg with
          | (Some _, _) => pop_valid fuel' workspaceName stubId containerId
          | (None, tm) =>
              match GetTaskWithRelated (tm_TaskId tm) with
              | inl _ => pop_valid fuel' workspaceName stubId containerId
              | inr None => Ret (Some NilTask)
              | inr (Some t) =>
                  if IsCompleted (tw_Status t) then
                    cmd (CDel [taskQueueTaskRunningLock workspaceName stubId containerId
                                 (tw_ExternalId t)]) ;~
                    cmd (CSRem (taskQueueTaskRunningLockIndex workspaceName stubId containerId)
                           (tw_ExternalId t)) ;~
                    pop_valid fuel' workspaceName stubId containerId
                  else Ret (Some (NextTask t msg))
              end
          end
      end
  end.

Definition TaskQueuePop (fuel : nat) (workspaceName stubId containerId : string)
    : prog (option (gerr + pop_response)) :=
  match getOrCreateQueueInstance stubId with
  | inl _ => Ret (Some (inr pop_refused))
  | inr _ =>
      found <~ pop_valid fuel workspaceName stubId containerId ;;
      match found with
      | None => Ret None
      | Some NilTask => Ret (Some (inl nil_task))
      | Some NoTask => Ret (Some (inr pop_refused))
      | Some (NextTask task msg) =>
          let id := tw_ExternalId task in
          r <~ (Claim workspaceName (tw_StubExternalId task) id containerId ;;
                rcall (λ e, e)
                  (CSAdd (taskQueueTaskRunningLockIndex workspaceName stubId containerId) id) ;;
                rcall (λ e, e)
                  (CSet (taskQueueTaskRunningLock workspaceName stubId containerId id) "1"
                     (defaultTaskRunningExpiration * second)) ;;
                lift (UpdateTask id (mkTaskRow TaskStatusRunning containerId))) ;;
          Ret (Some (inr (match r with
                          | inl _ => pop_refused
                          | inr _ => mkPopResponse true msg
                          end)))
      end
  end.

Definition retryTask (now : Z) (workspaceName stubId taskId : string) : prog complete_response :=
  r <~ Retrieve executors workspaceName stubId taskId ;;
  match r with
  | inl _ => Ret complete_refused
  | inr task =>
      let m := Message task in
      let msg := if tp_MaxRetries (tm_Policy m) <=? tm_Retries m
                 then "Exceeded retry limit of " +:+ fmt_int (tp_MaxRetries (tm_Policy m)) +:+
                      " for task <" +:+ tm_TaskId m +:+ ">"
                 else "" in
      e <~ RetryTask now task ;;
      Ret (match e with inl _ => complete_refused | inr _ => mkCompleteResponse true msg end)
  end.

(** [keepWarm] is the number of seconds when it is positive, truncated as the
    conversion to a duration does, and [taskDuration] the printed duration. *)
Definition TaskQueueComplete (now : Z) (workspaceName stubId containerId taskId taskStatus : string)
    (keepWarm : option Z) (taskDuration : string) : prog complete_response :=
  match GetTask taskId, getOrCreateQueueInstance stubId with
  | inr task, inr _ =>
      r <~ (match keepWarm with
            | Some seconds => SetEx (taskQueueKeepWarmLock workspaceName stubId containerId) "1"
                                (wrap_i64 (seconds * second))
            | None => ok tt
            end ;;
            rcall (λ e, e) (CSRem (taskQueueTaskRunningLockIndex workspaceName stubId containerId) taskId) ;;
            rcall (λ e, e) (CDel [taskQueueTaskRunningLock workspaceName stubId containerId taskId]) ;;
            rcall (λ e, e) (CRPush (taskQueueTaskDuration workspaceName stubId) taskDuration)) ;;
      match r with
      | inl _ => Ret complete_refused
      | inr _ =>
          if String.eqb taskStatus TaskStatusRetry then retryTask now workspaceName stubId taskId
          else
            c <~ Complete workspaceName stubId taskId ;;
            match c with
            | inl _ => Ret complete_refused
            | inr _ =>
                Ret (mkCompleteResponse
                       (match UpdateTask taskId (with_status taskStatus task) with
                        | inl _ => false | inr _ => true end) "")
            end
      end
  | _, _ => Ret complete_refused
  end.

(** *** TaskQueueMonitor *)

Inductive monitor_timeout := NoTimeout | TimedOutAlready | TimesOutIn (seconds : Z).

(** The timeout of a task that started at [startedAt] (both clocks in seconds). *)
Definition monitor_deadline (timeout startedAt now : Z) : monitor_timeout :=
  let leftover := wrap_i64 (wrap_i64 (startedAt + timeout) - now) in
  if timeout <=? 0 then NoTimeout
  else if leftover <=? 0 then TimedOutAlready
  else TimesOutIn leftover.

(** One pass of the monitor's default branch: the responses sent, or the error
    that ends the stream; [status] is the status read when the stream began. *)
Definition monitor_pass (workspaceName stubId containerId taskId status : string)
    : M (list monitor_response * bool) :=
  if String.eqb status TaskStatusCancelled then ok ([mkMonitorResponse true false false], true)
  else
    rcall (λ e, e) (CSet (taskQueueTaskHeartbeat workspaceName stubId taskId) "1" (60 * second)) ;;
    rcall (λ e, e) (CSet (taskQueueTaskRunningLock workspaceName stubId containerId taskId) "1"
                      (5 * second)) ;;
    claimed <- IsClaimed workspaceName stubId taskId ;;
    ok ((if claimed : bool then [] else [mkMonitorResponse false true false]) ++
        [mkMonitorResponse false false false], false)%list.

(** The task was cancelled or timed out while the stream was open. *)
Definition monitor_end (workspaceName stubId taskId : string) (timedOut : bool)
    : M (list monitor_response) :=
  Complete workspaceName stubId taskId ;;
  ok [mkMonitorResponse (negb timedOut) false timedOut].

(** The client went away. *)
Definition monitor_closed (workspaceName stubId containerId taskId : string) : M unit :=
  task <- lift (GetTask taskId) ;;
  (if IsCompleted (tr_Status task)
   then cmd (CDel [taskQueueTaskRunningLock workspaceName stubId containerId taskId]) ;~ Ret tt
   else Ret tt) ;~
  ok tt.

Definition TaskQueueLength (workspaceName stubId : string) : prog (option Z) :=
  r <~ QueueLength workspaceName stubId ;;
  Ret (match r with inl _ => None | inr length => Some length end).
End service.
