(* ===== verification/QueueProps.v ===== *)
(** * The life of a task in a task queue

    The queue of a stub is a list of messages and its tasks are the two maps of
    [TaskProps]; [queue_rel] relates both to the database.  The theorems compose
    the queue client, the task repository, the dispatcher and the service. *)

From S2P Require Import Prelude GoStd Redis Keys Types Codec Lock Env ContainerRepo PoolManager.
From S2P Require Import TaskRepo Dispatcher TaskProps DispatcherProps TaskQueue Autoscaler Instances.
From S2P Require Import RequestBuffer QueueService.

Local Open Scope Z_scope.
Set Default Proof Using "Type".

(** ** Keys of a queue *)

(** Two keys of one queue that differ after the stub. *)
Ltac queue_key_ne :=
  let E := fresh in
  intros E; unfold taskQueueList, taskQueueTaskHeartbeat, taskQueueTaskDuration,
    taskQueueTaskRunningLockIndex, taskQueueTaskRunningLock, taskQueueProcessingLock,
    taskQueueKeepWarmLock in E; simpl in E;
  repeat injection E as E; apply str_app_inj_l in E; repeat injection E as E;
  apply str_app_inj_l in E; discriminate E.

Section queue.
Context {TJ : TaskJson} (ws stub : string).
Context (Hws : no_colon ws = true) (Hstub : no_colon stub = true).

Local Abbreviation qlist := (taskQueueList ws stub).
Local Abbreviation qindex := (taskQueueTaskRunningLockIndex ws stub).
Local Abbreviation qlock := (taskQueueTaskRunningLock ws stub).
Local Abbreviation qduration := (taskQueueTaskDuration ws stub).

(** The ids of tasks: a running lock is then no index. *)
Definition tid_ok (id : string) : Prop := id_ok id /\ id <> "index".

Lemma lock_ne_index c c' id : tid_ok id -> qlock c id <> qindex c'.
Proof.
  intros [[Hid _] Hne] E.
  assert (qlock c id = ("taskqueue:" +:+ ws +:+ ":" +:+ stub +:+ ":task_running:" +:+ c) +:+
    String colon id) as E1.
  { unfold taskQueueTaskRunningLock. simpl. rewrite str_app_nil_r.
    by repeat (f_equal; rewrite ?str_app_assoc). }
  assert (qindex c' = ("taskqueue:" +:+ ws +:+ ":" +:+ stub +:+ ":task_running:" +:+ c') +:+
    String colon "index") as E2.
  { unfold taskQueueTaskRunningLockIndex. simpl. by repeat (f_equal; rewrite ?str_app_assoc). }
  rewrite E1, E2 in E. apply (f_equal last_segment) in E.
  rewrite !last_segment_app in E by done. done.
Qed.

(** ** The relation *)

Record queue_rel (d : rdb) (st : tstate) (q : list string) : Prop := {
  qr_tasks : task_rel ws stub d st;
  qr_list : as_list (kv d !! qlist) = Some q;
  qr_index : forall c, is_Some (as_set (kv d !! qindex c));
  qr_duration : is_Some (as_list (kv d !! qduration));
}.

(** A key of the queue that the relation does not look at. *)
Definition side (k : string) : Prop :=
  (exists s, k = String "t" (String "a" (String "s" (String "k" (String "q" s))))) /\
  k <> qlist /\ k <> qduration /\ forall c, k <> qindex c.

Lemma side_processing c : side (taskQueueProcessingLock ws stub c).
Proof. split; [by eexists|]. repeat split; intros; queue_key_ne. Qed.
Lemma side_heartbeat id : side (taskQueueTaskHeartbeat ws stub id).
Proof. split; [by eexists|]. repeat split; intros; queue_key_ne. Qed.
Lemma side_keep_warm c : side (taskQueueKeepWarmLock ws stub c).
Proof. split; [by eexists|]. repeat split; intros; queue_key_ne. Qed.
Lemma side_lock c id : tid_ok id -> side (qlock c id).
Proof.
  intros Hid. split; [by eexists|]. split; [queue_key_ne|]. split; [queue_key_ne|].
  intros c'. by apply lock_ne_index.
Qed.

Lemma queue_key_foreign k :
  side k \/ k = qlist \/ k = qduration \/ (exists c, k = qindex c) ->
  exists s, k = String "t" (String "a" (String "s" (String "k" (String "q" s)))).
Proof. intros [[H _]|[->|[->|[c ->]]]]; [exact H|by eexists..]. Qed.

(** Changes at one key of the queue keep the tasks. *)
Lemma rel_queue_key k d d' st :
  side k \/ k = qlist \/ k = qduration \/ (exists c, k = qindex c) ->
  eq_except {[k]} d d' -> task_rel ws stub d st -> task_rel ws stub d' st.
Proof.
  intros Hk. apply rel_foreign. intros k' ->%elem_of_singleton. by apply queue_key_foreign.
Qed.

Lemma queue_rel_side k d d' st q :
  side k -> eq_except {[k]} d d' -> queue_rel d st q -> queue_rel d' st q.
Proof.
  intros Hk He [H1 H2 H3 H4]. pose proof Hk as (_ & Hl & Hd & Hi).
  assert (forall k', k <> k' -> kv d' !! k' = kv d !! k') as Hkv.
  { intros k' Hne. apply (eq_except_kv _ _ _ _ He). rewrite elem_of_singleton. congruence. }
  constructor.
  - eapply rel_queue_key; [left; exact Hk|exact He|exact H1].
  - by rewrite Hkv.
  - intros c. by rewrite Hkv.
  - by rewrite Hkv.
Qed.

Lemma queue_rel_index c d d' st q :
  eq_except {[qindex c]} d d' -> is_Some (as_set (kv d' !! qindex c)) ->
  queue_rel d st q -> queue_rel d' st q.
Proof.
  intros He Hs [H1 H2 H3 H4].
  assert (forall k', qindex c <> k' -> kv d' !! k' = kv d !! k') as Hkv.
  { intros k' Hne. apply (eq_except_kv _ _ _ _ He). rewrite elem_of_singleton. congruence. }
  constructor.
  - eapply rel_queue_key; [|exact He|exact H1]. eauto.
  - rewrite Hkv by queue_key_ne. done.
  - intros c'. destruct (decide (qindex c = qindex c')) as [<-|Hne]; [done|]. by rewrite Hkv.
  - rewrite Hkv by queue_key_ne. done.
Qed.

Lemma queue_rel_list q' d d' st q :
  eq_except {[qlist]} d d' -> as_list (kv d' !! qlist) = Some q' ->
  queue_rel d st q -> queue_rel d' st q'.
Proof.
  intros He Hl [H1 H2 H3 H4].
  assert (forall k', qlist <> k' -> kv d' !! k' = kv d !! k') as Hkv.
  { intros k' Hne. apply (eq_except_kv _ _ _ _ He). rewrite elem_of_singleton. congruence. }
  constructor; [eapply rel_queue_key; [|exact He|exact H1]; eauto|done|intros c|];
    rewrite Hkv by queue_key_ne; done.
Qed.

Lemma queue_rel_duration d d' st q :
  eq_except {[qduration]} d d' -> is_Some (as_list (kv d' !! qduration)) ->
  queue_rel d st q -> queue_rel d' st q.
Proof.
  intros He Hl [H1 H2 H3 H4].
  assert (forall k', qduration <> k' -> kv d' !! k' = kv d !! k') as Hkv.
  { intros k' Hne. apply (eq_except_kv _ _ _ _ He). rewrite elem_of_singleton. congruence. }
  constructor; [eapply rel_queue_key; [|exact He|exact H1]; eauto|..|done]; intros;
    rewrite Hkv by queue_key_ne; done.
Qed.

(** The task repository leaves the queue's keys alone. *)
Lemma own_keys_queue id k :
  side k \/ k = qlist \/ k = qduration \/ (exists c, k = qindex c) -> k ∉ own_keys ws stub id.
Proof.
  intros [s ->]%queue_key_foreign. unfold own_keys.
  rewrite !not_elem_of_union, !not_elem_of_singleton. repeat split; discriminate.
Qed.

Lemma queue_rel_tasks id d d' st st' q :
  eq_except (own_keys ws stub id) d d' -> task_rel ws stub d' st' ->
  queue_rel d st q -> queue_rel d' st' q.
Proof.
  intros He Ht [H1 H2 H3 H4].
  constructor; [done|..]; intros; (rewrite (eq_except_kv _ _ _ _ He); [done|]);
    apply own_keys_queue; eauto 6.
Qed.

(** ** Steps *)

Lemma rwp_side_set k v e d st q L :
  side k -> queue_rel d st q ->
  rwp (rcall (λ e, e) (CSet k v e)) (λ r d' L', r = inr tt /\ L' = L /\ queue_rel d' st q /\
    kv d' !! k = Some (RVStr v) /\ eq_except {[k]} d d') d L.
Proof.
  intros Hk Hq. rwp_ok; [by eexists tt, _|]. intros [] d' Hd.
  assert (eq_except {[k]} d d') as He by frame.
  split; [done|]. split; [done|]. split; [by eapply queue_rel_side|]. split; [|done].
  change (d' = mkRdb (<[k := RVStr v]> (kv d)) (if e =? 0 then delete k (ttl d) else <[k := e]> (ttl d))) in Hd.
  rewrite Hd. apply lookup_insert_eq.
Qed.

(** A call is its command with the error wrapped. *)
Lemma rwp_call_cmd {R} (w : gerr -> gerr) (c : rcmd R) (Q : R -> rdb -> lmap -> Prop) (d : rdb) (L : lmap) :
  rwp (cmd c) (λ r d' L', exists a, r = inr a /\ Q a d' L') d L ->
  rwp (rcall w c) (λ r d' L', exists a, r = inr a /\ Q a d' L') d L.
Proof.
  intros H. unfold rcall. apply wp_pbind. eapply wp_mono; [|exact H].
  intros r d' L' (a & -> & HQ). by exists a.
Qed.

Lemma rwp_side_del k d st q L :
  side k -> queue_rel d st q ->
  rwp (cmd (CDel [k])) (λ r d' L', exists n, r = inr n /\ L' = L /\ queue_rel d' st q /\
    kv d' !! k = None /\ eq_except {[k]} d d') d L.
Proof.
  intros Hk Hq. rwp_ok; [by eexists 0, _|]. intros r d' Hd.
  assert (eq_except {[k]} d d') as He by frame. exists r.
  split; [done|]. split; [done|]. split; [by eapply queue_rel_side|]. split; [|done].
  change (d' = del_kv k d) in Hd. subst d'. apply del_kv_eq.
Qed.

Lemma rwp_index_add c id d st q L :
  queue_rel d st q ->
  rwp (rcall (λ e, e) (CSAdd (qindex c) id)) (λ r d' L', r = inr tt /\ L' = L /\ queue_rel d' st q /\
    (exists X, as_set (kv d' !! qindex c) = Some X /\ id ∈ X) /\ eq_except {[qindex c]} d d') d L.
Proof.
  intros Hq. destruct (qr_index _ _ _ Hq c) as [X HX].
  rwp_ok; [exists tt; eexists; exists X; by split|]. intros [] d' (X' & HX' & ->).
  assert (eq_except {[qindex c]} d (set_kv (qindex c) (RVSet ({[id]} ∪ X')) d)) as He
    by (apply eq_except_set_kv; sets).
  split; [done|]. split; [done|]. rewrite set_kv_eq.
  split; [eapply queue_rel_index; [done|by rewrite set_kv_eq|done]|].
  split; [|done]. eexists. split; [done|]. sets.
Qed.

Lemma rwp_index_rem c id d st q L :
  queue_rel d st q ->
  rwp (cmd (CSRem (qindex c) id)) (λ r d' L', exists u, r = inr u /\ L' = L /\ queue_rel d' st q /\
    (exists X, as_set (kv d' !! qindex c) = Some X /\ id ∉ X) /\ eq_except {[qindex c]} d d') d L.
Proof.
  intros Hq. destruct (qr_index _ _ _ Hq c) as [X HX].
  rwp_ok; [exists tt; eexists; exists X; by split|]. intros [] d' (X' & HX' & ->).
  assert (eq_except {[qindex c]} d (set_or_del (qindex c) (X' ∖ {[id]}) d)) as He
    by (apply eq_except_set_or_del; sets).
  exists tt. split; [done|]. split; [done|]. rewrite as_set_set_or_del.
  split; [eapply queue_rel_index; [done|by rewrite as_set_set_or_del|done]|].
  split; [|done]. eexists. split; [done|]. sets.
Qed.

(** A message of the queue that decodes names a task. *)
Definition msg_ok (msg : string) : Prop :=
  forall tm, Decode msg = (None, tm) -> tid_ok (tm_TaskId tm).

Lemma rwp_list_pop msg q d st L :
  queue_rel d st (msg :: q) ->
  rwp (rcall (λ e, e) (CLPop qlist)) (λ r d' L', r = inr (Some msg) /\ L' = L /\ queue_rel d' st q) d L.
Proof.
  intros Hq. pose proof (qr_list _ _ _ Hq) as Hl.
  rwp_ok; [do 3 eexists; split; [exact Hl|by split]|].
  intros r d' (l & Hl' & -> & ->). rewrite Hl in Hl'. apply (inj Some) in Hl' as <-.
  split; [done|]. split; [done|]. eapply queue_rel_list; [|..|done].
  - apply eq_except_list_or_del. sets.
  - unfold list_or_del. simpl. case_decide as E; simpl.
    + rewrite lookup_delete_eq. by subst q.
    + by rewrite lookup_insert_eq.
Qed.

(** [Pop] takes the first message off the queue. *)
Lemma rwp_queue_Pop c q d st L :
  Forall msg_ok q -> queue_rel d st q ->
  rwp (queue_Pop ws stub c) (λ r d' L', L' = L /\ queue_rel d' st (tail q) /\
    r = match q with
        | [] => inr None
        | msg :: _ => match Decode msg with (Some err, _) => inl err | (None, _) => inr (Some msg) end
        end) d L.
Proof.
  intros Hok Hq. unfold queue_Pop. wp_bind.
  rwp_ok; [do 3 eexists; split; [exact (qr_list _ _ _ Hq)|by split]|].
  intros n d0 (l & Hl & -> & ->). rewrite (qr_list _ _ _ Hq) in Hl. apply (inj Some) in Hl as <-.
  destruct q as [|msg q]; [done|]. apply Forall_cons in Hok as [Hmsg _].
  cbn [length]. destruct (Z.eqb_spec (Z.of_nat (S (length q))) 0); [lia|]. cbn beta iota.
  wp_bind. eapply wp_mono; [|by apply (rwp_side_set _ _ _ d st (msg :: q)); [apply side_processing|]].
  intros r d1 L1 (-> & -> & Hq1 & _). cbn beta iota. wp_bind.
  eapply wp_mono with (Q := λ r d' L', L' = L /\ queue_rel d' st q /\
    r = match Decode msg with (Some err, _) => inl err | (None, _) => inr (Some msg) end).
  { intros r d2 L2 (-> & Hq2 & ->). wp_bind.
    eapply wp_mono; [|by apply (rwp_side_del _ d2 st q); [apply side_processing|]].
    intros u d3 L3 (n3 & _ & -> & Hq3 & _). by split. }
  unfold queue_Pop_locked. wp_bind. eapply wp_mono; [|by apply (rwp_list_pop msg q)].
  intros r d2 L2 (-> & -> & Hq2). cbn beta iota.
  destruct (Decode msg) as [[err|] tm] eqn:Ed; [done|]. specialize (Hmsg tm Ed).
  wp_bind. eapply wp_mono; [|by apply (rwp_index_add c _ d2 st q)].
  intros r d3 L3 (-> & -> & Hq3 & _). cbn beta iota.
  wp_bind. eapply wp_mono; [|by apply (rwp_side_set _ _ _ d3 st q); [apply side_lock|]].
  intros r d4 L4 (-> & -> & Hq4 & _). cbn beta iota.
  wp_bind. eapply wp_mono; [|by apply (rwp_side_set _ _ _ d4 st q); [apply side_heartbeat|]].
  intros r d5 L5 (-> & -> & Hq5 & _). by split.
Qed.

Context {TB : TaskBackend} {QB : QueueBackend}.

(** The first message of a queue whose task is still wanted, and what is left
    behind it; the search also ends at a message that cannot be decoded and at one
    whose task has no record. *)
Fixpoint first_live (q : list string) : popped * list string :=
  match q with
  | [] => (NoTask, [])
  | msg :: q' =>
      match Decode msg with
      | (Some _, _) => (NoTask, q')
      | (None, tm) =>
          match GetTaskWithRelated (tm_TaskId tm) with
          | inl _ => first_live q'
          | inr None => (NilTask, q')
          | inr (Some t) => if IsCompleted (tw_Status t) then first_live q' else (NextTask t msg, q')
          end
      end
  end.

(** The backend finds a task under its id, with the stub it belongs to. *)
Definition records_of_stub : Prop :=
  forall id t, GetTaskWithRelated id = inr (Some t) -> tw_ExternalId t = id /\ tw_StubExternalId t = stub.

Lemma rwp_pop_valid fuel c q d st L :
  records_of_stub -> Forall msg_ok q -> (length q < fuel)%nat -> queue_rel d st q ->
  rwp (pop_valid fuel ws stub c) (λ r d' L', L' = L /\ r = Some (first_live q).1 /\
    queue_rel d' st (first_live q).2) d L.
Proof.
  intros Hrec Hok Hf Hq. revert q d L Hok Hf Hq.
  induction fuel as [|fuel IH]; intros q d L Hok Hf Hq; [lia|]. simpl pop_valid.
  wp_bind. eapply wp_mono; [|by apply (rwp_queue_Pop c q d st)].
  intros r d1 L1 (-> & Hq1 & ->). destruct q as [|msg q]; [done|]. simpl in Hq1, Hf.
  apply Forall_cons in Hok as [Hmsg Hok]. cbn [first_live].
  destruct (Decode msg) as [[err|] tm] eqn:Ed; [done|]. rewrite Ed.
  destruct (GetTaskWithRelated (tm_TaskId tm)) as [e|[t|]] eqn:Et; [apply IH; [done|lia|done]| |done].
  destruct (IsCompleted (tw_Status t)); [|done].
  destruct (Hrec _ _ Et) as [-> _]. wp_bind.
  eapply wp_mono; [|by apply (rwp_side_del _ d1 st q); [apply side_lock, Hmsg|]].
  intros u d2 L2 (n & _ & -> & Hq2 & _). wp_bind.
  eapply wp_mono; [|by apply (rwp_index_rem c _ d2 st q)].
  intros u' d3 L3 (v & _ & -> & Hq3 & _). apply IH; [done|lia|done].
Qed.

(** The id of a live task is the id its message carries. *)
Lemma first_live_id q t msg q' :
  records_of_stub -> Forall msg_ok q -> first_live q = (NextTask t msg, q') ->
  tid_ok (tw_ExternalId t) /\ tw_StubExternalId t = stub.
Proof.
  intros Hrec. induction q as [|m q IH]; simpl; [done|]. intros [Hm Hok]%Forall_cons H.
  destruct (Decode m) as [[e|] tm] eqn:Ed; [done|].
  destruct (GetTaskWithRelated (tm_TaskId tm)) as [e|[t'|]] eqn:Et; [by apply IH| |done].
  destruct (IsCompleted (tw_Status t')); [by apply IH|]. simplify_eq.
  destruct (Hrec _ _ Et) as [-> ->]. split; [|done]. by apply Hm.
Qed.

(** What [TaskQueuePop] answers and leaves for a container [c]. *)
Definition pop_post (c : string) (st : tstate) (q : list string) (r : option (gerr + pop_response))
    (d' : rdb) : Prop :=
  match first_live q with
  | (NoTask, q') => r = Some (inr pop_refused) /\ queue_rel d' st q'
  | (NilTask, q') => r = Some (inl nil_task) /\ queue_rel d' st q'
  | (NextTask t msg, q') =>
      let id := tw_ExternalId t in
      r = Some (inr (match UpdateTask id (mkTaskRow TaskStatusRunning c) with
                     | inl _ => pop_refused | inr _ => mkPopResponse true msg end)) /\
      queue_rel d' (mkTstate (ts_tasks st) (<[id := c]> (ts_claims st))) q' /\
      (exists X, as_set (kv d' !! qindex c) = Some X /\ id ∈ X) /\
      kv d' !! qlock c id = Some (RVStr "1")
  end.

Lemma rwp_TaskQueuePop fuel c q d st L u :
  getOrCreateQueueInstance stub = inr u -> records_of_stub ->
  Forall msg_ok q -> (length q < fuel)%nat -> queue_rel d st q ->
  rwp (TaskQueuePop fuel ws stub c) (λ r d' _, pop_post c st q r d') d L.
Proof using Hws Hstub.
  intros Hinst Hrec Hok Hf Hq. unfold TaskQueuePop, pop_post. rewrite Hinst. wp_bind.
  eapply wp_mono; [|by apply (rwp_pop_valid fuel c q d st)]. intros r d1 L1 (-> & -> & Hq1).
  destruct (first_live q) as [[| |t msg] q'] eqn:Efl; cbn [fst snd] in *; [done..|].
  destruct (first_live_id q t msg q' Hrec Hok Efl) as [Hid Hst]. pose proof Hid as [Hidk _].
  cbn beta iota zeta. rewrite Hst. wp_bind. wp_bind.
  eapply wp_mono; [|apply (rwp_touches (own_keys ws stub (tw_ExternalId t)));
    [apply touches_ClaimTask|by apply (rwp_claim ws stub Hws Hstub d1 st L (tw_ExternalId t) c Hidk), Hq1]].
  intros r d2 L2 ((-> & -> & H2) & He2 & _). cbn beta iota.
  set (st2 := mkTstate (ts_tasks st) (<[tw_ExternalId t := c]> (ts_claims st))) in *.
  pose proof (queue_rel_tasks _ _ _ _ _ _ He2 H2 Hq1) as Hq2.
  wp_bind. eapply wp_mono; [|by apply (rwp_index_add c _ d2 st2 q')].
  intros r d3 L3 (-> & -> & Hq3 & (X & HX & Hin) & _). cbn beta iota.
  wp_bind. eapply wp_mono; [|by apply (rwp_side_set _ _ _ d3 st2 q'); [apply side_lock|]].
  intros r d4 L4 (-> & -> & Hq4 & Hlock & He4). cbn beta iota.
  assert (queue_rel d4 st2 q' /\
    (exists X, as_set (kv d4 !! qindex c) = Some X /\ tw_ExternalId t ∈ X) /\
    kv d4 !! qlock c (tw_ExternalId t) = Some (RVStr "1")) as Hend.
  { split; [done|]. split; [|done]. exists X. split; [|done].
    rewrite (eq_except_kv _ _ _ _ He4); [done|]. rewrite elem_of_singleton.
    intros E. by apply (lock_ne_index c c (tw_ExternalId t)). }
  unfold lift. by destruct (UpdateTask (tw_ExternalId t) _).
Qed.

(** ** Putting a task *)

Context (executors : gmap string TaskFactory).
Hypothesis Hexec : executors !! ExecutorTaskQueue = Some taskQueueTaskFactory.

(** The policy [put] sends a task with, and the message. *)
Definition put_policy (inst : queue_instance) (nowNs : Z) : TaskPolicy :=
  let p := qi_TaskPolicy inst in
  let ttl := if tp_TTL p =? 0 then DefaultTaskQueueTaskTTL else tp_TTL p in
  mkTaskPolicy (tp_MaxRetries p) (tp_Timeout p) (nowNs + ttl * second) ttl.

Definition put_message (uuid : string) (nowNs : Z) (pooled : TaskMessage) (inst : queue_instance)
    (args : option (list jvalue)) (kwargs : option (gmap string jvalue)) : TaskMessage :=
  sent_message uuid (nowNs `div` second) pooled ExecutorTaskQueue ws stub args kwargs
    (put_policy inst nowNs).

Lemma rwp_list_push msg q d st L :
  queue_rel d st q ->
  rwp (rcall (λ e, e) (CRPush qlist msg)) (λ r d' L', exists u, r = inr u /\ L' = L /\
    queue_rel d' st (q ++ [msg])%list) d L.
Proof.
  intros Hq. pose proof (qr_list _ _ _ Hq) as Hl.
  rwp_ok; [exists tt; do 2 eexists; split; [exact Hl|done]|].
  intros r d' (l & Hl' & ->). rewrite Hl in Hl'. apply (inj Some) in Hl' as <-.
  exists r. split; [done|]. split; [done|]. eapply queue_rel_list; [|..|done].
  - apply eq_except_set_kv. sets.
  - by rewrite set_kv_eq.
Qed.

Lemma rwp_put uuid uuid' nowNs pooled inst args kwargs q d st L msg u v :
  queueInstance stub = inr inst -> qi_WorkspaceName inst = ws -> id_ok uuid ->
  getOrCreateQueueInstance stub = inr u ->
  let m := put_message uuid nowNs pooled inst args kwargs in
  CreateTask m = inr v -> (Encode m).1 = inr msg -> queue_rel d st q ->
  rwp (put executors uuid uuid' nowNs pooled stub args kwargs) (λ r d' _,
    if wrap_i64 (qi_MaxPendingTasks inst) <=? Z.of_nat (size (ts_tasks st))
    then r = inl (exceeded_task_limit (qi_MaxPendingTasks inst)) /\ d' = d
    else r = inr uuid /\
         queue_rel d' (mkTstate (<[uuid := msg]> (ts_tasks st)) (ts_claims st)) (q ++ [msg])%list) d L.
Proof using Hws Hstub Hexec.
  intros Hinst Ews Hid Hqi m Hcreate Henc Hq. unfold put. rewrite Hinst, Ews. wp_bind.
  eapply wp_mono; [|by apply rwp_count, (tr_stub ws stub d st), Hq]. intros r d1 L1 (-> & -> & ->).
  cbn beta iota. destruct (_ <=? _); [done|]. cbn zeta. fold (put_policy inst nowNs). wp_bind.
  unfold SendAndExecute, Send, SafeMap_Get. rewrite Hexec.
  fold (put_message uuid nowNs pooled inst args kwargs). fold m. cbn beta iota.
  destruct (Encode m) as [enc m'] eqn:Em. simpl in Henc. subst enc. cbn beta iota. wp_bind. wp_bind.
  cbn [task_ops Message]. change (md_TaskId (Metadata TaskQueueTask m)) with uuid.
  eapply wp_mono; [|apply (rwp_touches (own_keys ws stub uuid));
    [apply touches_SetTaskState|by apply (rwp_set ws stub Hws Hstub d st L uuid msg Hid), Hq]].
  intros r d2 L2 ((-> & -> & H2) & He2 & _).
  pose proof (queue_rel_tasks _ _ _ _ _ _ He2 H2 Hq) as Hq2. cbn beta iota.
  cbn beta iota. wp_bind. change (Execute (task_ops (mkTask TaskQueueTask m)) (Message (mkTask TaskQueueTask m)))
    with (tq_Execute m). unfold tq_Execute, lift. change (tm_StubId m) with stub.
  rewrite Hqi. wp_bind. rewrite Hcreate. wp_bind. wp_bind. unfold queue_Push. rewrite Em. simpl fst.
  change (tm_WorkspaceName m) with ws. change (tm_StubId m) with stub.
  eapply wp_mono; [|exact (rwp_list_push msg q d2 _ L Hq2)].
  intros r d3 L3 (w & -> & -> & Hq3). done.
Qed.

(** ** Completing a task *)

Lemma rwp_duration_push v q d st L :
  queue_rel d st q ->
  rwp (rcall (λ e, e) (CRPush qduration v)) (λ r d' L', exists u, r = inr u /\ L' = L /\
    queue_rel d' st q /\ eq_except {[qduration]} d d') d L.
Proof.
  intros Hq. destruct (qr_duration _ _ _ Hq) as [l Hl].
  rwp_ok; [exists tt; do 2 eexists; split; [exact Hl|done]|].
  intros r d' (l' & _ & ->). exists r. split; [done|]. split; [done|].
  assert (eq_except {[qduration]} d (set_kv qduration (RVList (l' ++ [v])) d)) as He
    by (apply eq_except_set_kv; sets).
  split; [|done]. eapply queue_rel_duration; [done|by rewrite set_kv_eq|done].
Qed.

(** The task is gone from the queue's books and the container is free of it. *)
Definition completed (c id : string) (d' : rdb) : Prop :=
  (exists X, as_set (kv d' !! qindex c) = Some X /\ id ∉ X) /\ kv d' !! qlock c id = None.

Lemma completed_frame ks c id d d' :
  eq_except ks d d' -> qindex c ∉ ks -> qlock c id ∉ ks -> completed c id d -> completed c id d'.
Proof.
  intros He Hi Hl [(X & HX & Hin) Hlock]. split; [exists X; split; [|done]|];
    by rewrite (eq_except_kv _ _ _ _ He).
Qed.

(** The time to keep warm of a request: none, or seconds that are positive and whose
    nanoseconds fit 64 bits. *)
Definition keep_warm_ok (keepWarm : option Z) : Prop :=
  match keepWarm with Some seconds => 0 < seconds <= 9223372036 | None => True end.

Lemma rwp_keep_warm c keepWarm d st q L :
  keep_warm_ok keepWarm -> queue_rel d st q ->
  rwp (match keepWarm with
       | Some seconds => SetEx (taskQueueKeepWarmLock ws stub c) "1" (wrap_i64 (seconds * second))
       | None => ok tt
       end) (λ r d' L', r = inr tt /\ L' = L /\ queue_rel d' st q) d L.
Proof.
  intros Hk Hq. destruct keepWarm as [seconds|]; [|done]. simpl in Hk. unfold SetEx, second.
  rewrite wrap_i_id by (done || unfold in_i; lia).
  destruct (Z.leb_spec (seconds * 10 ^ 9) 0); [lia|].
  eapply wp_mono; [|by apply rwp_side_set; [apply side_keep_warm|]].
  intros r d' L' (-> & -> & Hq' & _). done.
Qed.

Lemma rwp_TaskQueueComplete now c id status keepWarm duration row q d st L u v :
  GetTask id = inr row -> getOrCreateQueueInstance stub = inr u ->
  UpdateTask id (with_status status row) = inr v -> status <> TaskStatusRetry ->
  keep_warm_ok keepWarm -> tid_ok id -> queue_rel d st q ->
  rwp (TaskQueueComplete executors now ws stub c id status keepWarm duration) (λ r d' _,
    r = mkCompleteResponse true "" /\ queue_rel d' (tdelete id st) q /\ completed c id d') d L.
Proof using Hws Hstub.
  intros Hget Hqi Hupd Hst Hkeep Hid Hq. pose proof Hid as [Hidk _].
  unfold TaskQueueComplete. rewrite Hget, Hqi, Hupd. wp_bind.
  eapply wp_mono with (Q := λ r d' L', L' = L /\ (exists a, r = inr a) /\ queue_rel d' st q /\
    completed c id d').
  - intros r d1 L1 (-> & [a ->] & Hq1 & Hc1). cbn beta iota.
    destruct (String.eqb_spec status TaskStatusRetry); [done|]. wp_bind.
    eapply wp_mono; [|apply (rwp_touches (own_keys ws stub id));
      [apply touches_DeleteTaskState|by apply (rwp_delete ws stub Hws Hstub d1 st L id Hidk), Hq1]].
    intros r d2 L2 ((-> & -> & H2) & He2 & _). cbn beta iota. split; [done|].
    split; [by eapply queue_rel_tasks|].
    eapply completed_frame; [exact He2|apply own_keys_queue; eauto|apply own_keys_queue; eauto using side_lock|done].
  - clear Hget Hqi Hupd. wp_bind. eapply wp_mono; [|by apply (rwp_keep_warm c keepWarm d st q)].
    clear Hq. clear d. intros r d L0 (-> & -> & Hq). cbn beta iota. wp_bind.
    eapply wp_mono; [|apply rwp_call_cmd; exact (rwp_index_rem c id d st q L Hq)].
    intros r d1 L1 (a & -> & -> & Hq1 & (X & HX & Hin) & _). cbn beta iota. wp_bind.
    eapply wp_mono; [|apply rwp_call_cmd;
      exact (rwp_side_del (qlock c id) d1 st q L (side_lock c id Hid) Hq1)].
    intros r d2 L2 (n & -> & -> & Hq2 & Hl2 & He2). cbn beta iota.
    eapply wp_mono; [|exact (rwp_duration_push duration q d2 st L Hq2)].
    intros r d3 L3 (w & -> & -> & Hq3 & He3). split; [done|]. split; [eauto|]. split; [done|].
    eapply completed_frame; [exact He3|rewrite elem_of_singleton; queue_key_ne..|].
    split; [exists X; split; [|done]|done].
    rewrite (eq_except_kv _ _ _ _ He2); [done|]. rewrite elem_of_singleton.
    intros E. by apply (lock_ne_index c c id Hid).
Qed.

(** ** Properties *)

Context {TJL : TaskJsonLaws TJ}.
Context `{SV : RedisServer, SL : !RedisLaws SV} (I : srv -> Prop) (HR : reliable I).

Lemma pop_post_busy c st q r d' inst :
  ai_WorkspaceName inst = ws -> ai_StubExternalId inst = stub ->
  pop_post c st q (Some (inr r)) d' -> pop_Ok r = true -> busy inst d' c.
Proof.
  intros Ew Es. unfold pop_post, busy. rewrite Ew, Es.
  destruct (first_live q) as [[| |t msg] q'].
  - by intros [[= ->] _].
  - by intros [? _].
  - intros (_ & _ & (X & HX & Hin) & Hl) _. exists X, (tw_ExternalId t). repeat split; try done.
    by exists "1".
Qed.

(** C11. [TaskQueuePop] gives a container the first task of the queue that is still wanted:
    on a Redis server that does not fail, with rounds enough for the queue, and for
    messages that name tasks of the stub by ids without colons, it takes off and skips
    the messages of tasks that are completed or whose record cannot be read, returns the
    first other message, claims its task for the container, whose running lock is set and
    indexed (so that it counts as busy), and leaves the messages behind it.  The search
    ends without a task, the messages up to there taken off, at the end of the queue and
    at a message that cannot be decoded (the call is refused), and at a message whose task
    has no record (the call panics).  When the record of the task that was found cannot be
    updated the call is refused although the task is claimed. *)
Theorem TaskQueuePop_first_live fuel c q st u (s : srv) L :
  I s -> getOrCreateQueueInstance stub = inr u -> records_of_stub ->
  Forall msg_ok q -> (length q < fuel)%nat -> queue_rel (view s) st q ->
  ends (TaskQueuePop fuel ws stub c) s L (λ r d', pop_post c st q r d' /\
    forall resp inst, r = Some (inr resp) -> pop_Ok resp = true ->
      ai_WorkspaceName inst = ws -> ai_StubExternalId inst = stub -> busy inst d' c).
Proof using Hws Hstub SL HR.
  intros HI Hqi Hrec Hok Hf Hq. eapply ends_rwp; [done..|].
  eapply wp_mono; [|by eapply rwp_TaskQueuePop]. intros r d' L' H. split; [done|].
  intros resp inst -> Hresp Ew Es. by eapply pop_post_busy.
Qed.

(** The limit on pending tasks: on a reliable server [put] is refused, and changes
    nothing, exactly when the stub has [MaxPendingTasks] tasks in flight;
    otherwise it returns the id of a new task, which is stored, and whose message
    is at the end of the queue. *)
Theorem put_limit uuid uuid' nowNs pooled inst args kwargs q st msg u v (s : srv) L :
  I s -> queueInstance stub = inr inst -> qi_WorkspaceName inst = ws -> id_ok uuid ->
  getOrCreateQueueInstance stub = inr u ->
  CreateTask (put_message uuid nowNs pooled inst args kwargs) = inr v ->
  (Encode (put_message uuid nowNs pooled inst args kwargs)).1 = inr msg ->
  queue_rel (view s) st q ->
  ends (put executors uuid uuid' nowNs pooled stub args kwargs) s L (λ r d',
    if wrap_i64 (qi_MaxPendingTasks inst) <=? Z.of_nat (size (ts_tasks st))
    then r = inl (exceeded_task_limit (qi_MaxPendingTasks inst)) /\ d' = view s
    else r = inr uuid /\
         queue_rel d' (mkTstate (<[uuid := msg]> (ts_tasks st)) (ts_claims st)) (q ++ [msg])%list).
Proof using Hws Hstub Hexec SL HR.
  intros. eapply ends_rwp; [done..|]. by eapply rwp_put.
Qed.

(** C10. The life of a task: on a Redis server that does not fail and a database that has
    and updates the record of the task, a task that is put on an empty queue below the limit
    is given, with its message, to the next container that pops, and once that container
    completes it (with any status but a request for a retry, and with no or with a positive
    time to keep warm) the queue, the stored tasks and the claims are as they were and the
    container no longer holds the task.  Nobody else uses the queue in between, and the ids
    are ASCII without colons. *)
Theorem task_lifecycle uuid uuid' nowNs now pooled inst args kwargs c status keepWarm duration st t row u v w x (s : srv) L :
  I s -> queueInstance stub = inr inst -> qi_WorkspaceName inst = ws -> tid_ok uuid ->
  getOrCreateQueueInstance stub = inr u -> records_of_stub ->
  forallb ascii_only [uuid; ws; stub] = true -> marshal_total ->
  CreateTask (put_message uuid nowNs pooled inst args kwargs) = inr v ->
  GetTaskWithRelated uuid = inr (Some t) -> IsCompleted (tw_Status t) = false ->
  UpdateTask uuid (mkTaskRow TaskStatusRunning c) = inr w ->
  GetTask uuid = inr row -> UpdateTask uuid (with_status status row) = inr x ->
  status <> TaskStatusRetry -> keep_warm_ok keepWarm ->
  Z.of_nat (size (ts_tasks st)) < wrap_i64 (qi_MaxPendingTasks inst) ->
  ts_tasks st !! uuid = None -> ts_claims st !! uuid = None -> queue_rel (view s) st [] ->
  ends (a <~ put executors uuid uuid' nowNs pooled stub args kwargs ;;
        b <~ TaskQueuePop 2 ws stub c ;;
        e <~ TaskQueueComplete executors now ws stub c uuid status keepWarm duration ;;
        Ret (a, b, e)) s L
    (λ '(a, b, e) d', exists msg,
      a = inr uuid /\ b = Some (inr (mkPopResponse true msg)) /\
      same_task (put_message uuid nowNs pooled inst args kwargs) (Decode msg).2 /\
      e = mkCompleteResponse true "" /\ queue_rel d' st [] /\ completed c uuid d').
Proof using Hws Hstub Hexec TJL SL HR.
  intros HI Hinst Ews Hid Hqi Hrec Hasc Ht Hcreate Hrel Hlive Hrun Hget Hupd Hst Hkeep Hlim Hf1 Hf2 Hq.
  set (m := put_message uuid nowNs pooled inst args kwargs) in *.
  destruct (Ht (Encode m).2) as [msg Hmsg]. change ((Encode m).1 = inr msg) in Hmsg.
  destruct (Encode_Decode m msg) as [Hd Hsame]; [|done|].
  { unfold task_ascii. simpl in *. by rewrite !andb_true_r in *. }
  assert (tm_TaskId (Decode msg).2 = uuid) as Hmid
    by (unfold same_task, flat_task in Hsame; simpl in Hsame; congruence).
  eapply ends_rwp; [done..|]. apply wp_pbind. pose proof Hid as [Hidk _].
  eapply wp_mono; [|by eapply (rwp_put uuid uuid' nowNs pooled inst args kwargs [])].
  intros a d1 L1 Ha. destruct (Z.leb_spec (wrap_i64 (qi_MaxPendingTasks inst))
    (Z.of_nat (size (ts_tasks st)))); [lia|]. destruct Ha as [-> Hq1]. cbn [app] in Hq1.
  assert (first_live [msg] = (NextTask t msg, [])) as Hfl.
  { simpl. destruct (Decode msg) as [e tm]. simpl in Hd, Hmid. subst e.
    by rewrite Hmid, Hrel, Hlive. }
  assert (Forall msg_ok [msg]) as Hok.
  { apply Forall_singleton. intros tm E. rewrite E in Hmid. simpl in Hmid. by rewrite Hmid. }
  apply wp_pbind. eapply wp_mono; [|by eapply (rwp_TaskQueuePop 2 c [msg]); [..|simpl; lia|]].
  intros b d2 L2 Hb. unfold pop_post in Hb. rewrite Hfl in Hb.
  destruct (Hrec _ _ Hrel) as [Et _]. rewrite Et, Hrun in Hb. destruct Hb as (-> & Hq2 & _).
  apply wp_pbind. eapply wp_mono; [|by eapply (rwp_TaskQueueComplete now c uuid status keepWarm duration)].
  intros e d3 L3 (-> & Hq3 & Hc). exists msg. do 4 (split; [done|]). split; [|done].
  unfold tdelete in Hq3. cbn [ts_tasks ts_claims] in Hq3.
  rewrite !delete_insert_id in Hq3 by done. by destruct st.
Qed.
End queue.

(** ** Concrete runs *)

Section runs.
Local Existing Instance bits_task_json.
Local Existing Instance ex_backend.

(** A backend in which task [t0] is complete and every other one pending. *)
Definition ex_queue_backend : QueueBackend := {|
  GetTaskWithRelated id := inr (Some (mkTaskWithRelated id
    (if String.eqb id "t0" then TaskStatusComplete else TaskStatusPending) "stub"));
  queueInstance _ := inr (mkQueueInstance "ws" 2 ex_policy) |}.
Local Existing Instance ex_queue_backend.

Definition ex_queued (id : string) : string :=
  match (Encode (mkTaskMessage id "ws" "stub" ExecutorTaskQueue (Some []) None ex_policy 0 5)).1 with
  | inr s => s | inl _ => "" end.

Definition ex_queue_db : rdb :=
  set_kv (taskQueueList "ws" "stub") (RVList [ex_queued "t0"; ex_queued "t1"; ex_queued "t2"]) empty_rdb.

Lemma empty_queue_rel : queue_rel "ws" "stub" empty_rdb (mkTstate ∅ ∅) [].
Proof. constructor; [apply empty_task_rel|done|by eexists|by eexists]. Qed.

Lemma ex_queue_rel :
  queue_rel "ws" "stub" ex_queue_db (mkTstate ∅ ∅) [ex_queued "t0"; ex_queued "t1"; ex_queued "t2"].
Proof.
  eapply queue_rel_list; [|..|apply empty_queue_rel].
  - apply eq_except_set_kv. set_solver.
  - reflexivity.
Qed.

Lemma ex_msg_ok id : tid_ok id -> (Decode (ex_queued id)).2.(tm_TaskId) = id -> msg_ok (ex_queued id).
Proof. intros Hid E tm Ed. rewrite Ed in E. simpl in E. by rewrite E. Qed.

Lemma TaskQueuePop_first_live_witness :
  ends (S := ref_server) (TaskQueuePop 4 "ws" "stub" "c1") (on ex_queue_db) ∅ (λ r d',
    pop_post "ws" "stub" "c1" (mkTstate ∅ ∅) [ex_queued "t0"; ex_queued "t1"; ex_queued "t2"] r d' /\
    forall resp inst, r = Some (inr resp) -> pop_Ok resp = true ->
      ai_WorkspaceName inst = "ws" -> ai_StubExternalId inst = "stub" -> busy inst d' "c1") /\
  (run (S := ref_server) (TaskQueuePop 4 "ws" "stub" "c1") (on ex_queue_db) ∅).1.1 =
    Some (inr (mkPopResponse true (ex_queued "t1"))).
Proof.
  split; [|vm_compute; reflexivity].
  assert (records_of_stub "stub") as Hrec by (intros id t [= <-]; by split).
  assert (Forall msg_ok [ex_queued "t0"; ex_queued "t1"; ex_queued "t2"]) as Hok.
  { repeat apply Forall_cons_2; try apply Forall_nil_2; apply ex_msg_ok;
      first [by vm_compute | by repeat split]. }
  assert (3 < 4)%nat as Hf by lia.
  exact (TaskQueuePop_first_live "ws" "stub" eq_refl eq_refl (SV := ref_server) _ ref_reliable
    4 "c1" _ _ tt (on ex_queue_db) ∅ eq_refl eq_refl Hrec Hok Hf ex_queue_rel).
Defined.

Definition ex_put_message : TaskMessage :=
  put_message "ws" "stub" "t1" (5 * second) (new_message "u") (mkQueueInstance "ws" 2 ex_policy) None None.
Definition ex_put_encoded : string := match (Encode ex_put_message).1 with inr s => s | inl _ => "" end.

Lemma put_limit_witness :
  ends (S := ref_server) (put ex_executors "t1" "u2" (5 * second) (new_message "u") "stub" None None)
    (on empty_rdb) ∅ (λ r d', r = inr "t1" /\
      queue_rel "ws" "stub" d' (mkTstate (<["t1" := ex_put_encoded]> ∅) ∅) [ex_put_encoded]).
Proof.
  exact (put_limit "ws" "stub" eq_refl eq_refl ex_executors eq_refl (SV := ref_server) _ ref_reliable
    "t1" "u2" (5 * second) (new_message "u") (mkQueueInstance "ws" 2 ex_policy) None None []
    (mkTstate ∅ ∅) ex_put_encoded tt tt (on empty_rdb) ∅ eq_refl eq_refl eq_refl ex_id_ok eq_refl eq_refl
    eq_refl empty_queue_rel).
Defined.

Lemma task_lifecycle_witness :
  ends (S := ref_server)
    (a <~ put ex_executors "t1" "u2" (5 * second) (new_message "u") "stub" None None ;;
     b <~ TaskQueuePop 2 "ws" "stub" "c1" ;;
     e <~ TaskQueueComplete ex_executors 9 "ws" "stub" "c1" "t1" TaskStatusComplete (Some 10) "1.5" ;;
     Ret (a, b, e)) (on empty_rdb) ∅
    (λ '(a, b, e) d', exists msg,
      a = inr "t1" /\ b = Some (inr (mkPopResponse true msg)) /\ same_task ex_put_message (Decode msg).2 /\
      e = mkCompleteResponse true "" /\ queue_rel "ws" "stub" d' (mkTstate ∅ ∅) [] /\
      completed "ws" "stub" "c1" "t1" d').
Proof.
  assert (records_of_stub "stub") as Hrec by (intros id t [= <-]; by split).
  assert (TaskStatusComplete <> TaskStatusRetry) as Hst by discriminate.
  assert (10 <= 9223372036) as Hten by discriminate.
  assert (tid_ok "t1") as Hid by (by repeat split).
  exact (task_lifecycle "ws" "stub" eq_refl eq_refl ex_executors eq_refl (SV := ref_server) _ ref_reliable
    "t1" "u2" (5 * second) 9 (new_message "u") (mkQueueInstance "ws" 2 ex_policy) None None "c1"
    TaskStatusComplete (Some 10) "1.5" (mkTstate ∅ ∅) (mkTaskWithRelated "t1" TaskStatusPending "stub")
    (mkTaskRow TaskStatusRunning "c1") tt tt tt tt (on empty_rdb) ∅ eq_refl eq_refl eq_refl Hid eq_refl Hrec
    eq_refl ex_marshal_total eq_refl eq_refl eq_refl eq_refl eq_refl eq_refl Hst (conj eq_refl Hten) eq_refl eq_refl eq_refl
    empty_queue_rel).
Defined.
End runs.
