(* ===== verification/GpuManager.v ===== *)
(** * GPU devices and resource limits of a worker

    [ContainerNvidiaManager] (pkg/worker/nvidia.go) hands the GPUs of a machine to
    containers; its mutex makes an assignment atomic, and the devices it may hand
    out are what nvidia-smi and the driver report ([AvailableGPUDevices] of
    pkg/worker/gpu_info.go; the command's output, the files of the driver and the
    environment are arguments).  [StandardResources] (container_resources.go)
    computes the CPU and memory limits of a container at the widths of the code. *)

From S2P Require Import Prelude GoStd Redis Types PoolManager Samples Autoscaler.

Local Open Scope Z_scope.
Set Default Proof Using "Type".

(** ** The devices of the machine *)

Definition hex_digit (c : Ascii.ascii) : option Z :=
  let n := Z.of_nat (Ascii.nat_of_ascii c) in
  if (48 <=? n) && (n <=? 57) then Some (n - 48)
  else if (97 <=? n) && (n <=? 102) then Some (n - 87)
  else if (65 <=? n) && (n <=? 70) then Some (n - 55)
  else None.

Fixpoint hex_value (acc : Z) (s : string) : option Z :=
  match s with
  | "" => Some acc
  | String c s' => match hex_digit c with Some v => hex_value (16 * acc + v) s' | None => None end
  end.

(** [ParseUint(s, 16, 16)] and [%04x]. *)
Definition hexToPaddedString (hexStr : string) : gerr + string :=
  let hexStr := TrimPrefix hexStr "0x" in
  match hexStr, hex_value 0 hexStr with
  | String _ _, Some v =>
      if v <? 2 ^ 16 then
        inr (String (hex_char (v / 4096)) (String (hex_char (v / 256 `mod` 16))
              (String (hex_char (v / 16 `mod` 16)) (String (hex_char (v `mod` 16)) ""))))
      else inl (EMsg "strconv.ParseUint: value out of range")
  | _, _ => inl (EMsg "strconv.ParseUint: invalid syntax")
  end.

Section devices.
(** The environment, the output of nvidia-smi and whether the driver knows a bus
    id ([None] for an error of [os.Stat]). *)
Context (visibleDevices : string) (queryDevices : gerr + string) (checkGPUExists : string -> option bool).

(** One line of the output: the device it adds, if any. *)
Definition device_of_line (line : string) : gerr + option Z :=
  match split_on "," line with
  | [p0; p1; p2; p3] =>
      match hexToPaddedString (TrimSpace p0) with
      | inl err => inl err
      | inr domain =>
          let uuid := TrimSpace p3 in
          if negb (Contains visibleDevices uuid) && negb (String.eqb visibleDevices "all") then inr None
          else
            match split_on colon p1 with
            | [_; b1; b2] =>
                let systemBusId := ToLower (Join [domain; b1; b2] ":") in
                match checkGPUExists systemBusId with
                | Some true =>
                    match ParseInt 64 (TrimSpace (TrimSpace p2)) with
                    | Some index => inr (Some index)
                    | None => inl (EMsg "strconv.Atoi: invalid syntax")
                    end
                | _ => inr None
                end
            | _ => inl (EMsg ("unexpected bus id format from nvidia-smi: " +:+ line))
            end
      end
  | _ => inl (EMsg ("unexpected output from nvidia-smi: " +:+ line))
  end.

Fixpoint devices_of_lines (lines : list string) : gerr + list Z :=
  match lines with
  | [] => inr []
  | line :: lines' =>
      if String.eqb line "" then devices_of_lines lines'
      else
        match device_of_line line with
        | inl err => inl err
        | inr o =>
            match devices_of_lines lines' with
            | inl err => inl err
            | inr result => inr (option_list o ++ result)%list
            end
        end
  end.

Definition AvailableGPUDevices : gerr + list Z :=
  match queryDevices with
  | inl err => inl err
  | inr devices => devices_of_lines (split_on "010" devices)
  end.
End devices.

(** ** The manager *)

Record NvidiaManager := mkNvidiaManager {
  nm_gpuAllocationMap : gmap string (list Z);
  nm_gpuCount : Z;
}.

Definition NewContainerNvidiaManager (gpuCount : Z) : NvidiaManager :=
  mkNvidiaManager NewSafeMap gpuCount.

Definition UnassignGPUDevices (c : NvidiaManager) (containerId : string) : NvidiaManager :=
  mkNvidiaManager (SafeMap_Delete (nm_gpuAllocationMap c) containerId) (nm_gpuCount c).

Definition GetContainerGPUDevices (c : NvidiaManager) (containerId : string) : list Z :=
  default [] (SafeMap_Get (nm_gpuAllocationMap c) containerId).

(** The keys of [currentAllocations]. *)
Definition currentAllocations (c : NvidiaManager) : gset Z :=
  SafeMap_Range (map_to_list (nm_gpuAllocationMap c))
    (λ allocated _ value, (allocated ∪ list_to_set value, true)) ∅.

Definition not_enough_gpus (requested allocable available : Z) : gerr :=
  EMsg ("not enough GPUs available, requested: " +:+ fmt_int requested +:+ ", allocable: " +:+
        fmt_int allocable +:+ " out of " +:+ fmt_int available).

(** [available] is what [AvailableGPUDevices] answers. *)
Definition chooseDevices (available : gerr + list Z) (c : NvidiaManager) (containerId : string)
    (requestedGpuCount : Z) : (gerr + list Z) * NvidiaManager :=
  let current := currentAllocations c in
  match available with
  | inl err => (inl err, c)
  | inr availableDevices =>
      let allocableDevices :=
        if (size current <? length availableDevices)%nat
        then filter (λ gpuId, gpuId ∉ current) availableDevices else [] in
      if Z.of_nat (length allocableDevices) <? requestedGpuCount
      then (inl (not_enough_gpus requestedGpuCount (nm_gpuCount c - Z.of_nat (length allocableDevices))
                   (Z.of_nat (length availableDevices))), c)
      else
        let devicesToAllocate := take (Z.to_nat requestedGpuCount) allocableDevices in
        (inr devicesToAllocate,
         mkNvidiaManager (SafeMap_Set (nm_gpuAllocationMap c) containerId devicesToAllocate) (nm_gpuCount c))
  end.

Definition AssignGPUDevices (available : gerr + list Z) (c : NvidiaManager) (containerId : string)
    (gpuCount : Z) : (gerr + list Z) * NvidiaManager :=
  chooseDevices available c containerId gpuCount.

(** ** The invariant *)

(** No device is with two containers, and none twice with one. *)
Definition gpu_wf (c : NvidiaManager) : Prop :=
  (forall id devices, nm_gpuAllocationMap c !! id = Some devices -> NoDup devices) /\
  (forall id id' devices devices', nm_gpuAllocationMap c !! id = Some devices ->
     nm_gpuAllocationMap c !! id' = Some devices' -> id <> id' -> devices ## devices').

Inductive gpu_op :=
| GAssign (available : gerr + list Z) (containerId : string) (gpuCount : Z)
| GUnassign (containerId : string).

Definition gpu_step (c : NvidiaManager) (op : gpu_op) : NvidiaManager :=
  match op with
  | GAssign available id n => (AssignGPUDevices available c id n).2
  | GUnassign id => UnassignGPUDevices c id
  end.

(** nvidia-smi lists no index twice. *)
Definition gpu_op_ok (op : gpu_op) : Prop :=
  match op with GAssign (inr available) _ _ => NoDup available | _ => True end.

Lemma range_union (l : list (string * list Z)) (X : gset Z) g :
  g ∈ SafeMap_Range l (λ allocated _ value, (allocated ∪ list_to_set value, true)) X <->
  g ∈ X \/ exists id devices, (id, devices) ∈ l /\ g ∈ devices.
Proof.
  revert X. induction l as [|[id devices] l IH]; intros X; simpl.
  - split; [by left|]. intros [?|(? & ? & H & _)]; [done|by apply elem_of_nil in H].
  - rewrite IH, elem_of_union, elem_of_list_to_set. split.
    + intros [[?|?]|(id' & ds & ? & ?)]; [by left|right; exists id, devices; by rewrite elem_of_cons; auto|].
      right. exists id', ds. rewrite elem_of_cons. auto.
    + intros [?|(id' & ds & [[= -> ->]|?]%elem_of_cons & ?)]; [by left; left|by left; right|].
      right. eauto.
Qed.

Lemma elem_of_current c g :
  g ∈ currentAllocations c <->
  exists id devices, nm_gpuAllocationMap c !! id = Some devices /\ g ∈ devices.
Proof.
  unfold currentAllocations. rewrite range_union. split.
  - intros [H|(id & ds & H%elem_of_map_to_list & ?)]; [by apply elem_of_empty in H|eauto].
  - intros (id & ds & H & ?). right. exists id, ds. by rewrite elem_of_map_to_list.
Qed.

(** The devices chosen are available, distinct, as many as asked for and nobody's. *)
Lemma chooseDevices_success available c id n devices c' :
  0 <= n -> NoDup available ->
  chooseDevices (inr available) c id n = (inr devices, c') ->
  Z.of_nat (length devices) = n /\ NoDup devices /\ devices ⊆ available /\
  (forall g, g ∈ devices -> g ∉ currentAllocations c) /\
  c' = mkNvidiaManager (<[id := devices]> (nm_gpuAllocationMap c)) (nm_gpuCount c).
Proof.
  intros Hn Hnd. unfold chooseDevices.
  set (allocable := if (size (currentAllocations c) <? length available)%nat
    then filter (λ gpuId, gpuId ∉ currentAllocations c) available else []).
  destruct (Z.ltb_spec (Z.of_nat (length allocable)) n); intros E; simplify_eq.
  assert (NoDup allocable /\ forall g, g ∈ allocable -> g ∈ available /\ g ∉ currentAllocations c) as [H1 H2].
  { unfold allocable. destruct (_ <? _)%nat; [|split; [constructor|by intros g ?%elem_of_nil]].
    split; [by apply NoDup_filter|]. intros g [? ?]%list_elem_of_filter. done. }
  split; [rewrite length_take; lia|].
  split; [by eapply sublist_NoDup; [|apply sublist_take]|].
  assert (forall g, g ∈ take (Z.to_nat n) allocable -> g ∈ allocable) as Hin.
  { intros g Hg. eapply elem_of_sublist; [exact Hg|apply sublist_take]. }
  split; [intros g Hg; by apply H2, Hin|]. split; [intros g Hg; by apply H2, Hin|]. done.
Qed.

Lemma chooseDevices_failure available c id n err c' :
  chooseDevices available c id n = (inl err, c') -> c' = c.
Proof.
  unfold chooseDevices. destruct available as [e|l]; intros E; [by simplify_eq|].
  destruct (_ <? n); by simplify_eq.
Qed.

Lemma gpu_step_wf c op : gpu_wf c -> gpu_op_ok op -> gpu_wf (gpu_step c op).
Proof.
  intros [Hnd Hdis] Hop. destruct op as [available id n|id]; simpl in *.
  - unfold AssignGPUDevices. destruct (chooseDevices available c id n) as [[e|devices] c'] eqn:E.
    { by rewrite (chooseDevices_failure _ _ _ _ _ _ E). }
    destruct available as [e|available]; [done|].
    assert (NoDup devices /\ (forall g, g ∈ devices -> g ∉ currentAllocations c) /\
      c' = mkNvidiaManager (<[id := devices]> (nm_gpuAllocationMap c)) (nm_gpuCount c)) as (H1 & H2 & ->).
    { destruct (decide (0 <= n)) as [Hn|Hn].
      - destruct (chooseDevices_success available c id n devices c' Hn Hop E) as (_ & ? & _ & ? & ?). done.
      - unfold chooseDevices in E.
        replace (Z.to_nat n) with 0%nat in E by lia. simpl in E. case_match; simplify_eq.
        split; [constructor|]. split; [by intros g ?%elem_of_nil|done]. }
    assert (forall id' devices', nm_gpuAllocationMap c !! id' = Some devices' -> devices ## devices') as Hfree.
    { intros id' devices' Hid' g Hg Hg'. apply (H2 g Hg), elem_of_current. eauto. }
    split; simpl.
    + intros id' ds [[-> <-]|[_ Hds]]%lookup_insert_Some; [done|by eapply Hnd].
    + intros i1 i2 d1 d2 [[<- <-]|[N1 H1']]%lookup_insert_Some [[<- <-]|[N2 H2']]%lookup_insert_Some Hne;
        [done|by eapply Hfree|intros g Hg Hg'; by eapply (Hfree _ _ H1' g)|by eapply (Hdis i1 i2)].
  - unfold UnassignGPUDevices, SafeMap_Delete. split; simpl.
    + intros id' ds [_ H]%lookup_delete_Some. by eapply Hnd.
    + intros i1 i2 d1 d2 [_ H1]%lookup_delete_Some [_ H2]%lookup_delete_Some Hne. by eapply (Hdis i1 i2).
Qed.

(** C24. A GPU is never shared: whatever sequence of assignments and releases a worker
    performs, and whatever the machine reports in between (no index twice), the
    devices of different containers are disjoint and no container has a device twice. *)
Theorem gpu_devices_exclusive gpuCount ops :
  Forall gpu_op_ok ops -> gpu_wf (foldl gpu_step (NewContainerNvidiaManager gpuCount) ops).
Proof.
  intros Hops. assert (gpu_wf (NewContainerNvidiaManager gpuCount)) as Hwf.
  { unfold NewContainerNvidiaManager, NewSafeMap.
    split; [intros id ds H|intros id id' ds ds' H]; simpl in H; by rewrite lookup_empty in H. }
  revert Hwf. generalize (NewContainerNvidiaManager gpuCount).
  induction Hops as [|op ops Hop _ IH]; intros c Hwf; [done|]. simpl. apply IH. by apply gpu_step_wf.
Qed.

Lemma gpu_devices_exclusive_witness :
  let ops := [GAssign (inr [0; 1; 2; 3]) "a" 2; GAssign (inr [0; 1; 2; 3]) "b" 1; GUnassign "a";
              GAssign (inr [0; 1; 2; 3]) "c" 3] in
  let c := foldl gpu_step (NewContainerNvidiaManager 4) ops in
  gpu_wf c /\ GetContainerGPUDevices c "b" = [2] /\ GetContainerGPUDevices c "c" = [0; 1; 3].
Proof.
  intros ops c. split; [|split; vm_compute; reflexivity].
  assert (NoDup [0; 1; 2; 3]) as Hnd by (apply (bool_decide_unpack (NoDup _)); by vm_compute).
  apply (gpu_devices_exclusive 4 ops).
  repeat apply Forall_cons_2; try apply Forall_nil_2; first [exact Hnd|done].
Defined.

(** The free devices of the machine. *)
Definition free_devices (c : NvidiaManager) (available : list Z) : list Z :=
  filter (λ g, g ∉ currentAllocations c) available.

(** [AssignGPUDevices] succeeds exactly when enough devices are free, as long as the
    machine still has the devices it handed out: it then gives the container as many
    distinct free devices as it asked for and leaves the others' alone; otherwise it
    changes nothing. *)
Theorem AssignGPUDevices_correct available c id n :
  0 <= n -> NoDup available -> (forall g, g ∈ currentAllocations c -> g ∈ available) ->
  match AssignGPUDevices (inr available) c id n with
  | (inr devices, c') =>
      n <= Z.of_nat (length (free_devices c available)) /\ Z.of_nat (length devices) = n /\
      NoDup devices /\ (forall g, g ∈ devices -> g ∈ free_devices c available) /\
      GetContainerGPUDevices c' id = devices /\
      forall id', id' <> id -> GetContainerGPUDevices c' id' = GetContainerGPUDevices c id'
  | (inl _, c') => Z.of_nat (length (free_devices c available)) < n /\ c' = c
  end.
Proof.
  intros Hn Hnd Hsub. unfold AssignGPUDevices.
  assert ((if (size (currentAllocations c) <? length available)%nat
    then free_devices c available else []) = free_devices c available) as Hguard.
  { destruct (Nat.ltb_spec (size (currentAllocations c)) (length available)) as [|Hge]; [done|].
    assert (currentAllocations c = list_to_set available) as Hall.
    { apply set_subseteq_size_eq; [intros x Hx; by apply elem_of_list_to_set, Hsub|].
      rewrite size_list_to_set by done. lia. }
    destruct (free_devices c available) as [|g l] eqn:Ef; [done|].
    assert (g ∈ free_devices c available) as [Hno Hin]%list_elem_of_filter
      by (rewrite Ef; by left).
    destruct Hno. rewrite Hall. by apply elem_of_list_to_set. }
  destruct (chooseDevices (inr available) c id n) as [[e|devices] c'] eqn:E.
  - pose proof (chooseDevices_failure _ _ _ _ _ _ E) as ->. split; [|done].
    unfold chooseDevices in E. fold (free_devices c available) in E. rewrite Hguard in E.
    destruct (Z.ltb_spec (Z.of_nat (length (free_devices c available))) n); [done|simplify_eq].
  - destruct (chooseDevices_success _ _ _ _ _ _ Hn Hnd E) as (Hlen & Hnd' & Hin & Hfree & ->).
    assert (forall g, g ∈ devices -> g ∈ free_devices c available) as Hdev.
    { intros g Hg. apply list_elem_of_filter. auto. }
    split; [|split; [done|split; [done|split; [done|]]]].
    + rewrite <- Hlen. apply Nat2Z.inj_le. apply submseteq_length, NoDup_submseteq; [done|exact Hdev].
    + unfold GetContainerGPUDevices, SafeMap_Get. simpl. rewrite lookup_insert_eq. split; [done|].
      intros id' Hne. by rewrite lookup_insert_ne.
Qed.

(** A worker whose container [a] has devices 0 and 1 of four. *)
Definition ex_gpus : NvidiaManager := mkNvidiaManager {[ "a" := [0; 1] ]} 4.

Lemma AssignGPUDevices_correct_witness :
  match AssignGPUDevices (inr [0; 1; 2; 3]) ex_gpus "b" 1 with
  | (inr devices, c') =>
      1 <= Z.of_nat (length (free_devices ex_gpus [0; 1; 2; 3])) /\ Z.of_nat (length devices) = 1 /\
      NoDup devices /\ (forall g, g ∈ devices -> g ∈ free_devices ex_gpus [0; 1; 2; 3]) /\
      GetContainerGPUDevices c' "b" = devices /\
      forall id', id' <> "b" -> GetContainerGPUDevices c' id' = GetContainerGPUDevices ex_gpus id'
  | (inl _, c') => Z.of_nat (length (free_devices ex_gpus [0; 1; 2; 3])) < 1 /\ c' = ex_gpus
  end /\ (AssignGPUDevices (inr [0; 1; 2; 3]) ex_gpus "b" 1).1 = inr [2].
Proof.
  split; [|vm_compute; reflexivity].
  apply (AssignGPUDevices_correct [0; 1; 2; 3] ex_gpus "b" 1); [lia|..].
  - apply (bool_decide_unpack (NoDup _)). by vm_compute.
  - assert (currentAllocations ex_gpus = {[0; 1]}) as -> by (by vm_compute). set_solver.
Defined.

(** ** Resource limits *)

Record StandardResources := mkStandardResources {
  sr_standardCPUShare : Z;
  sr_standardCPUPeriod : Z;
}.

(** The memory overhead factor, 1.25, is five quarters. *)
Definition NewStandardResources : StandardResources := mkStandardResources 1024 100000.

Record LinuxCPU := mkLinuxCPU { cpu_Shares : Z; cpu_Quota : Z; cpu_Period : Z }.
Record LinuxMemory := mkLinuxMemory { mem_Reservation : Z; mem_Limit : Z; mem_Swap : Z }.

Section resources.
Context (r : StandardResources).

Definition calculateCPUShares (millicores : Z) : Z :=
  wrap_u64 (wrap_u64 millicores * sr_standardCPUShare r) / 1000.

Definition calculateCPUQuota (millicores : Z) : Z :=
  wrap_i64 (wrap_u64 (wrap_u64 millicores * sr_standardCPUPeriod r) / 1000).

Definition GetCPU (request : ContainerRequest) : LinuxCPU :=
  mkLinuxCPU (calculateCPUShares (cr_Cpu request)) (calculateCPUQuota (cr_Cpu request))
    (sr_standardCPUPeriod r).
End resources.

(** [float64(softLimit) * 1.25]: the soft limit is a multiple of 2^20, so its
    [float64] is a multiple of four and the exact product an integer, which is
    rounded to a [float64]. *)
Definition GetMemory (request : ContainerRequest) : LinuxMemory :=
  let softLimit := wrap_i64 (wrap_i64 (cr_Memory request * 1024) * 1024) in
  let hardLimit := int_of_float (float64_of_i64 (float64_of_i64 softLimit * 5 / 4)) in
  mkLinuxMemory softLimit hardLimit hardLimit.

Lemma float64_exact x : 0 <= x < 2 ^ 53 -> float64_of_i64 x = x.
Proof.
  intros Hx. unfold float64_of_i64, float64_of_int.
  destruct (Z.ltb_spec x 0); [lia|]. destruct (Z.leb_spec (Z.log2 x - 52) 0) as [|H']; [done|].
  assert (Z.log2 x < 53); [|lia].
  destruct (decide (x = 0)) as [->|]; [by vm_compute|]. apply Z.log2_lt_pow2; lia.
Qed.

(** The limits of a container at machine width: for requests up to a million cores
    and 4 PiB of memory nothing overflows or is rounded; the quota is the request's share of
    the period to the microsecond, the CPU weight is proportional to it (rounded down),
    the reservation is the request in bytes and the hard limit, which leaves no swap,
    exceeds it by exactly a quarter. *)
Theorem resource_limits_exact request :
  0 <= cr_Cpu request <= 10 ^ 9 -> 0 <= cr_Memory request <= 2 ^ 32 ->
  let cpu := GetCPU NewStandardResources request in
  let mem := GetMemory request in
  cpu_Quota cpu * 1000 = cr_Cpu request * cpu_Period cpu /\
  cpu_Shares cpu = cr_Cpu request * 1024 / 1000 /\
  mem_Reservation mem = cr_Memory request * 2 ^ 20 /\
  4 * mem_Limit mem = 5 * mem_Reservation mem /\ mem_Swap mem = mem_Limit mem.
Proof.
  intros Hc Hm. unfold GetCPU, calculateCPUQuota, calculateCPUShares. simpl.
  rewrite !(wrap_u_id 64 (cr_Cpu request)) by (unfold in_u; lia).
  rewrite !wrap_u_id by (unfold in_u; lia).
  replace (cr_Cpu request * 100000) with (cr_Cpu request * 100 * 1000) by lia.
  rewrite Z.div_mul by lia. rewrite wrap_i_id by (unfold in_i; lia).
  split; [lia|]. split; [done|].
  rewrite (wrap_i_id 64 (cr_Memory request * 1024)) by (unfold in_i; lia).
  rewrite (wrap_i_id 64 (cr_Memory request * 1024 * 1024)) by (unfold in_i; lia).
  rewrite (float64_exact (cr_Memory request * 1024 * 1024)) by lia.
  replace (cr_Memory request * 1024 * 1024 * 5) with (cr_Memory request * 1310720 * 4) by lia.
  rewrite Z.div_mul by lia. rewrite float64_exact by lia.
  unfold int_of_float. rewrite decide_True by (unfold in_i; lia). lia.
Qed.

Lemma resource_limits_exact_witness :
  let request := ex_request "c1" 1500 2048 "" 0 in
  let cpu := GetCPU NewStandardResources request in
  let mem := GetMemory request in
  (cpu_Quota cpu * 1000 = 1500 * cpu_Period cpu /\ cpu_Shares cpu = 1500 * 1024 / 1000 /\
   mem_Reservation mem = 2048 * 2 ^ 20 /\ 4 * mem_Limit mem = 5 * mem_Reservation mem /\
   mem_Swap mem = mem_Limit mem) /\ cpu_Quota cpu = 150000.
Proof.
  split; [|vm_compute; reflexivity].
  apply (resource_limits_exact (ex_request "c1" 1500 2048 "" 0)); simpl; lia.
Defined.
