(* ===== verification/Network.v ===== *)
(** * The network of a worker (pkg/worker/network.go, network_util.go)

    A worker gives each container an address of the subnet 192.168.1.0/24 (and the
    IPv6 address with the same last octet), records it in Redis, and restricts and
    exposes the container with iptables rules.  The methods use three systems: Redis
    (programs of [Redis.prog], reached over gRPC), the kernel's links, addresses and
    namespaces ([Kernel]: a state and a reply per call), and iptables ([IPTables]).
    Kernel and iptables are parameters.  The manager's mutex makes a method atomic
    within the process; closing a namespace handle and logging are left out. *)

From S2P Require Import Prelude GoStd Redis Keys Types Lock Env WorkerRepo ContainerRepo GpuManager.

Local Open Scope Z_scope.
Set Default Proof Using "Type".

Definition containerBridgeLinkName : string := "b9_br0".
Definition containerVethHostPrefix : string := "b9_veth_h_".
Definition containerVethContainerPrefix : string := "b9_veth_c_".
Definition containerSubnet : string := "192.168.1.0/24".
Definition containerGatewayAddress : string := "192.168.1.1".
Definition containerBridgeAddress : string := "192.168.1.1".
Definition containerSubnetIPv6 : string := "fd00:abcd::/64".
Definition containerGatewayAddressIPv6 : string := "fd00:abcd::1".
Definition containerBridgeAddressIPv6 : string := "fd00:abcd::1".

(** ** Addresses *)

(** The four bytes of an IPv4 address. *)
Record IPv4 := mkIPv4 { ip0 : Z; ip1 : Z; ip2 : Z; ip3 : Z }.

(** [IP.String] of an IPv4 address. *)
Definition ip_String (ip : IPv4) : string :=
  fmt_int (ip0 ip) +:+ "." +:+ fmt_int (ip1 ip) +:+ "." +:+
  fmt_int (ip2 ip) +:+ "." +:+ fmt_int (ip3 ip).

Record IPNet := mkIPNet { net_IP : IPv4; net_Mask : IPv4 }.

Definition ip_Mask (ip m : IPv4) : IPv4 :=
  mkIPv4 (Z.land (ip0 ip) (ip0 m)) (Z.land (ip1 ip) (ip1 m))
         (Z.land (ip2 ip) (ip2 m)) (Z.land (ip3 ip) (ip3 m)).

Definition net_Contains (n : IPNet) (ip : IPv4) : bool :=
  let a := ip_Mask ip (net_Mask n) in let b := ip_Mask (net_IP n) (net_Mask n) in
  (ip0 a =? ip0 b) && (ip1 a =? ip1 b) && (ip2 a =? ip2 b) && (ip3 a =? ip3 b).

(** [net.ParseCIDR(containerSubnet)] *)
Definition ipNet : IPNet := mkIPNet (mkIPv4 192 168 1 0) (mkIPv4 255 255 255 0).

Definition byte (z : Z) : Z := z `mod` 256.

Definition nextIP (ip : IPv4) (inc : Z) : IPv4 :=
  let v := wrap_u64 (wrap_u64 (Z.shiftl (ip0 ip) 24 + Z.shiftl (ip1 ip) 16 +
                               Z.shiftl (ip2 ip) 8 + ip3 ip) + inc) in
  let v3 := byte (Z.land v 255) in
  let v2 := byte (Z.land (Z.shiftr v 8) 255) in
  let v1 := byte (Z.land (Z.shiftr v 16) 255) in
  let v0 := byte (Z.land (Z.shiftr v 24) 255) in
  mkIPv4 v0 v1 v2 v3.

(** The loop that looks for a free address, for [fuel] rounds: [None] is a loop
    that has not ended by then. *)
Fixpoint find_ip (fuel : nat) (allocatedSet : gset string) (ip : IPv4) : option (option IPv4) :=
  match fuel with
  | O => None
  | S fuel' =>
      if net_Contains ipNet ip then
        let ipStr := ip_String ip in
        if String.eqb ipStr containerBridgeAddress || String.eqb ipStr (ip_String (net_IP ipNet))
        then find_ip fuel' allocatedSet (nextIP ip 1)
        else if bool_decide (ipStr ∈ allocatedSet)
        then find_ip fuel' allocatedSet (nextIP ip 1)
        else Some (Some ip)
      else Some None
  end.

(** 256 addresses, and the round that leaves the subnet. *)
Definition choose_ip (allocatedSet : gset string) : option IPv4 :=
  default None (find_ip 257 allocatedSet (ip_Mask (net_IP ipNet) (net_Mask ipNet))).

(** The candidates of [assignIpInRange], in order; [shuffle] is the permutation that
    [rand.Shuffle] applies. *)
Definition range_candidates (allocatedSet : gset string) (rangeStart rangeEnd : Z) : list IPv4 :=
  let baseIP := net_IP ipNet in
  omap (λ i, let ip := mkIPv4 (ip0 baseIP) (ip1 baseIP) (ip2 baseIP) (byte i) in
             let ipStr := ip_String ip in
             if negb (net_Contains ipNet ip) then None
             else if String.eqb ipStr containerBridgeAddress ||
                     String.eqb ipStr (ip_String (net_IP ipNet)) then None
             else if bool_decide (ipStr ∈ allocatedSet) then None
             else Some ip)
    (seqZ rangeStart (rangeEnd - rangeStart)).

Definition assignIpInRange (shuffle : list IPv4 -> list IPv4) (allocatedSet : gset string)
    (rangeStart rangeEnd : Z) : gerr + IPv4 :=
  let candidates := range_candidates allocatedSet rangeStart rangeEnd in
  match candidates with
  | [] => inl (EMsg "unable to assign IP address in range")
  | _ => match shuffle candidates with
         | ip :: _ => inr ip
         | [] => inl (EPanic "index out of range")
         end
  end.

(** [%x] of a byte. *)
Definition fmt_hex_byte (z : Z) : string :=
  if z <? 16 then String (hex_char z) ""
  else String (hex_char (z / 16)) (String (hex_char (z `mod` 16)) "").

(** The prefix of [containerSubnetIPv6] and the last octet. *)
Definition ipv6_of_octet (octet : Z) : string := "fd00:abcd::" +:+ fmt_hex_byte octet.

(** [net.ParseIP] of a dotted IPv4 address and its last octet. *)
Definition ParseIPv4 (s : string) : option IPv4 :=
  match ParseUint 8 <$> split_on "." s with
  | [Some a; Some b; Some c; Some d] => Some (mkIPv4 a b c d)
  | _ => None
  end.

(** [containerId[len(containerId)-5:]], which panics on a shorter id. *)
Definition truncated_id (containerId : string) : gerr + string :=
  let n := String.length containerId in
  if (n <? 5)%nat then inl (EPanic "slice bounds out of range")
  else inr (String.substring (n - 5) 5 containerId).

(** ** The kernel and iptables *)

Inductive oscall :=
| NsGet | NsSetHost | NsSet (name : string) | NsNewNamed (name : string) | NsDeleteNamed (name : string)
| LinkAddVeth (host peer : string) | LinkAddBridge (name : string)
| LinkByName (name : string) | LinkSetUp (name : string) | LinkSetMaster (name master : string)
| LinkSetNoMaster (name : string) | LinkSetNs (name ns : string) | LinkDel (name : string)
| AddrAdd (link addr : string) (ones : Z) | RouteAdd (link gw : string)
| WriteFile (path data : string) | FlushNeigh (dev : string).

Inductive errno := EEXIST | Errno (msg : string).

Class Kernel := {
  os : Type;
  syscall : oscall -> os -> option errno * os;
}.

(** The methods of [iptables.IPTables] that the code uses; [None] is a nil error. *)
Class IPTables := {
  fw : Type;
  List : string -> string -> fw -> gerr + list string;
  InsertUnique : string -> string -> Z -> list string -> fw -> option gerr * fw;
  AppendUnique : string -> string -> list string -> fw -> option gerr * fw;
  Delete : string -> string -> list string -> fw -> option gerr * fw;
}.

(** ** Rules *)

(** [strings.Fields] and the removal of double quotes. *)
Fixpoint Fields_from (cur s : string) : list string :=
  match s with
  | "" => match cur with "" => [] | _ => [cur] end
  | String c s' =>
      if is_space c
      then match cur with "" => Fields_from "" s' | _ => cur :: Fields_from "" s' end
      else Fields_from (cur +:+ String c "") s'
  end.
Definition Fields (s : string) : list string := Fields_from "" s.

Definition quote : Ascii.ascii := Ascii.ascii_of_nat 34.
Fixpoint remove_char (c : Ascii.ascii) (s : string) : string :=
  match s with
  | "" => ""
  | String a s' => if Ascii.eqb a c then remove_char c s' else String a (remove_char c s')
  end.

(** [parts[2:]] of a listed rule, without quotes; a rule of one field panics. *)
Definition rule_spec (rule : string) : gerr + list string :=
  let parts := remove_char quote <$> Fields rule in
  if (length parts <? 2)%nat then inl (EPanic "slice bounds out of range") else inr (drop 2 parts).

Section firewall.
Context `{IPT : IPTables}.

(** Deletes, in one chain, the listed rules that [p] selects. *)
Fixpoint delete_rules (table chain : string) (p : string -> bool) (rules : list string) (f : fw)
    : option gerr * fw :=
  match rules with
  | [] => (None, f)
  | rule :: rules' =>
      if p rule then
        match rule_spec rule with
        | inl e => (Some e, f)
        | inr parts =>
            match Delete table chain parts f with
            | (Some e, f') => (Some e, f')
            | (None, f') => delete_rules table chain p rules' f'
            end
        end
      else delete_rules table chain p rules' f
  end.

(** The same for a list of chains; a chain that cannot be listed is skipped. *)
Fixpoint delete_in_chains (chains : list (string * string)) (p : string -> bool) (f : fw)
    : option gerr * fw :=
  match chains with
  | [] => (None, f)
  | (table, chain) :: rest =>
      match List table chain f with
      | inl _ => delete_in_chains rest p f
      | inr rules =>
          match delete_rules table chain p rules f with
          | (Some e, f') => (Some e, f')
          | (None, f') => delete_in_chains rest p f'
          end
      end
  end.

Definition teardown_chains : list (string * string) :=
  [("nat", "PREROUTING"); ("nat", "FORWARD"); ("filter", "PREROUTING"); ("filter", "FORWARD")].

Definition removeIPTablesRules (ip : string) (f : fw) : option gerr * fw :=
  delete_in_chains teardown_chains (λ rule, Contains rule ip) f.

Definition removeNetworkRestrictionRules (ip : string) (f : fw) : option gerr * fw :=
  delete_in_chains [("filter", "PREROUTING"); ("filter", "FORWARD")]
    (λ rule, Contains rule ip && (Contains rule "DROP" || Contains rule "ACCEPT")) f.
End firewall.

(** ** The manager

    [NM A]: a method that returns [(A, error)], over Redis and the state of the
    machine: kernel, iptables, ip6tables ([None] when it is not supported), the
    [ContainerIp] of the container instances and the namespaces of the spec. *)

Record net `{Kernel, IPTables} := mkNet {
  n_os : os;
  n_ipt : fw;
  n_ipt6 : option fw;
  n_instances : gmap string string;
  n_namespaces : list string;
}.

Record ContainerNetworkManager := mkManager {
  m_networkPrefix : string;
  m_defaultLink : string;
}.

Record containerNetworkInfo := mkNetworkInfo {
  ni_ContainerIp : string;
  ni_ContainerIpv6 : string;
  ni_VethHost : string;
  ni_Comment : string;
}.

(** The gateway's service answers [Ok: false] with the error's text, and the worker
    makes an error of that text. *)
Definition handleGRPCResponse {A} (r : gerr + A) : gerr + A :=
  match r with inl e => inl (EMsg (Error e)) | inr a => inr a end.

(** [(&types.ErrContainerStateNotFound{}).From(err)] *)
Definition ContainerStateNotFound_From (e : gerr) : bool :=
  HasPrefix (Error e) "container state not found: ".

Section manager.
Context `{K : Kernel, IPT : IPTables}.
Context (ParseCIDR : string -> option (string * bool)).
Context (m : ContainerNetworkManager).

Definition NM (A : Type) : Type := net -> prog ((gerr + A) * net).

Definition nret {A} (a : A) : NM A := λ n, Ret (inr a, n).
Definition nfail {A} (e : gerr) : NM A := λ n, Ret (inl e, n).
Definition nbind {A B} (p : NM A) (f : A -> NM B) : NM B :=
  λ n, r <~ p n ;; match r with (inl e, n') => Ret (inl e, n') | (inr a, n') => f a n' end.
(** Runs [p] and looks at its error. *)
Definition ntry {A B} (p : NM A) (f : gerr + A -> NM B) : NM B :=
  λ n, r <~ p n ;; f r.1 r.2.
(** A call of the worker repository. *)
Definition repo {A} (p : M A) : NM A := λ n, r <~ p ;; Ret (handleGRPCResponse r, n).
Definition lift {A} (r : gerr + A) : NM A := λ n, Ret (r, n).

Local Notation "'let!' x ← p ; q" := (nbind p (λ x, q))
  (at level 10, x name, p at level 99, q at level 200).
Local Notation "'run!' p ; q" := (nbind p (λ _, q))
  (at level 10, p at level 99, q at level 200).

Definition errno_err (e : errno) : gerr :=
  EMsg (match e with EEXIST => "file exists" | Errno msg => msg end).

(** A kernel call whose error ends the method; [sys_any] ignores the error,
    [sys_exist_ok] ignores EEXIST. *)
Definition sys (c : oscall) : NM unit := λ n,
  let '(r, o) := syscall c (n_os n) in
  let n' := mkNet _ _ o (n_ipt n) (n_ipt6 n) (n_instances n) (n_namespaces n) in
  Ret (match r with Some e => inl (errno_err e) | None => inr tt end, n').
Definition sys_any (c : oscall) : NM unit := λ n,
  let '(_, o) := syscall c (n_os n) in
  Ret (inr tt, mkNet _ _ o (n_ipt n) (n_ipt6 n) (n_instances n) (n_namespaces n)).
Definition sys_exist_ok (c : oscall) : NM unit := λ n,
  let '(r, o) := syscall c (n_os n) in
  let n' := mkNet _ _ o (n_ipt n) (n_ipt6 n) (n_instances n) (n_namespaces n) in
  Ret (match r with Some EEXIST | None => inr tt | Some e => inl (errno_err e) end, n').

Definition of_option (o : option gerr) : gerr + unit :=
  match o with Some e => inl e | None => inr tt end.

Definition ipt (op : fw -> option gerr * fw) : NM unit := λ n,
  let '(r, f) := op (n_ipt n) in
  Ret (of_option r, mkNet _ _ (n_os n) f (n_ipt6 n) (n_instances n) (n_namespaces n)).

(** [if m.ipt6 != nil { ... }] *)
Definition ipt6 (op : fw -> option gerr * fw) : NM unit := λ n,
  match n_ipt6 n with
  | None => Ret (inr tt, n)
  | Some f6 =>
      let '(r, f) := op f6 in
      Ret (of_option r, mkNet _ _ (n_os n) (n_ipt n) (Some f) (n_instances n) (n_namespaces n))
  end.
Definition has_ipt6 : NM bool := λ n, Ret (inr (bool_decide (is_Some (n_ipt6 n))), n).
Definition when6 (p : NM unit) : NM unit := let! b ← has_ipt6; if b : bool then p else nret tt.

(** Takes the network lock, runs [body] and gives the lock back by its token. *)
Definition network_locked {A} (prefix : string) (ttl retries : Z) (body : NM A) : NM A :=
  let! token ← repo (SetNetworkLock prefix ttl retries);
  λ n, r <~ body n ;; RemoveNetworkLock prefix token ;~ Ret r.

Definition getContainerNetworkInfo (containerId : string) (ipv6Enabled : bool)
    : NM containerNetworkInfo :=
  let! containerIp ← repo (GetContainerIp (m_networkPrefix m) containerId);
  let! truncatedContainerId ← lift (truncated_id containerId);
  let vethHost := containerVethHostPrefix +:+ truncatedContainerId in
  let comment := vethHost +:+ ":" +:+ containerId in
  if ipv6Enabled then
    match ParseIPv4 containerIp with
    | None => nfail (EMsg ("invalid IPv4 address: " +:+ containerIp))
    | Some ip => nret (mkNetworkInfo containerIp (ipv6_of_octet (ip3 ip)) vethHost comment)
    end
  else nret (mkNetworkInfo containerIp "" vethHost comment).

Definition set_instance_ip (containerId ip : string) : NM unit := λ n,
  Ret (inr tt,
       match n_instances n !! containerId with
       | Some _ => mkNet _ _ (n_os n) (n_ipt n) (n_ipt6 n)
                     (<[containerId := ip]> (n_instances n)) (n_namespaces n)
       | None => n
       end).

(** [configureContainerNetwork] from the lock on. *)
Definition configure_locked (containerId containerVeth : string) : NM unit :=
  run! sys (LinkByName "lo");
  run! sys (LinkSetUp "lo");
  run! sys (WriteFile "/proc/sys/net/ipv6/conf/all/disable_ipv6" ("0" +:+ String (Ascii.ascii_of_nat 10) ""));
  run! sys (WriteFile "/proc/sys/net/ipv6/ip_nonlocal_bind" ("1" +:+ String (Ascii.ascii_of_nat 10) ""));
  run! sys_exist_ok (AddrAdd "lo" "::1" 128);
  run! sys_exist_ok (AddrAdd "lo" "127.0.0.1" 8);
  run! sys (LinkSetUp containerVeth);
  let! allocatedIpAddresses ← repo (GetContainerIps (m_networkPrefix m));
  let allocatedSet : gset string := list_to_set allocatedIpAddresses in
  match choose_ip allocatedSet with
  | None => nfail (EMsg "unable to assign IP address to container")
  | Some ip =>
      run! sys (AddrAdd containerVeth (ip_String ip) 24);
      run! sys (RouteAdd containerVeth containerGatewayAddress);
      run! when6 (run! sys (AddrAdd containerVeth (ipv6_of_octet (ip3 ip)) 64);
                 sys (RouteAdd containerVeth containerGatewayAddressIPv6));
      run! repo (SetContainerIp (m_networkPrefix m) containerId (ip_String ip));
      set_instance_ip containerId (ip_String ip)
  end.

Definition configureContainerNetwork (containerId containerVeth : string) : NM unit :=
  network_locked (m_networkPrefix m) 10 10 (configure_locked containerId containerVeth).

Definition drop_rule (ip comment : string) : list string :=
  ["-s"; ip; "-o"; m_defaultLink m; "-m"; "conntrack"; "!"; "--ctstate"; "ESTABLISHED,RELATED";
   "-j"; "DROP"; "-m"; "comment"; "--comment"; comment].
Definition accept_rule (ip cidr comment : string) : list string :=
  ["-s"; ip; "-d"; cidr; "-o"; m_defaultLink m; "-j"; "ACCEPT"; "-m"; "comment"; "--comment"; comment].

Definition setupBlockNetwork (containerId : string) : NM unit :=
  let! b ← has_ipt6;
  let! info ← getContainerNetworkInfo containerId b;
  run! ipt (InsertUnique "filter" "FORWARD" 1 (drop_rule (ni_ContainerIp info) (ni_Comment info)));
  ipt6 (InsertUnique "filter" "FORWARD" 1 (drop_rule (ni_ContainerIpv6 info) (ni_Comment info))).

(** [ValidateCIDR] of pkg/common/validation.go; [net.ParseCIDR] gives the normal form
    of the network and whether it is an IPv6 one. *)
Definition ValidateCIDR (entry : string) : gerr + (string * bool) :=
  match ParseCIDR entry with
  | None => inl (EMsg "not a valid CIDR notation (e.g., 8.8.8.8/32 or 10.0.0.0/8)")
  | Some r => inr r
  end.

Definition wrap_err (msg : string) (o : option gerr) : option gerr := EWrap msg <$> o.
Definition wrapped (msg : string) (op : fw -> option gerr * fw) (f : fw) : option gerr * fw :=
  let '(r, f') := op f in (wrap_err msg r, f').

Fixpoint allow_entries (info : containerNetworkInfo) (allowList : list string) : NM unit :=
  match allowList with
  | [] => nret tt
  | entry :: rest =>
      match ValidateCIDR entry with
      | inl e => nfail (EWrap ("invalid allowlist entry " +:+ entry) e)
      | inr (normalizedCIDR, true) =>
          run! ipt6 (wrapped ("failed to add IPv6 allowlist rule for " +:+ normalizedCIDR)
                     (InsertUnique "filter" "FORWARD" 1
                        (accept_rule (ni_ContainerIpv6 info) normalizedCIDR (ni_Comment info))));
          allow_entries info rest
      | inr (normalizedCIDR, false) =>
          run! ipt (wrapped ("failed to add IPv4 allowlist rule for " +:+ normalizedCIDR)
                    (InsertUnique "filter" "FORWARD" 1
                       (accept_rule (ni_ContainerIp info) normalizedCIDR (ni_Comment info))));
          allow_entries info rest
      end
  end.

Definition setupAllowList (containerId : string) (allowList : list string) : NM unit :=
  run! setupBlockNetwork containerId;
  let! b ← has_ipt6;
  let! info ← getContainerNetworkInfo containerId b;
  allow_entries info allowList.

Definition restrict (containerId : string) (request : ContainerRequest) : NM unit :=
  match cr_AllowList request with
  | [] => if cr_BlockNetwork request then setupBlockNetwork containerId else nret tt
  | allowList => setupAllowList containerId allowList
  end.

Definition setupBridge (bridgeName : string) : NM unit :=
  network_locked (m_networkPrefix m) 10 10 (
    ntry (sys (LinkByName bridgeName)) (λ r,
      match r with
      | inr _ => nret tt
      | inl _ =>
          run! sys_exist_ok (LinkAddBridge bridgeName);
          run! sys (LinkByName bridgeName);
          run! sys (LinkSetUp bridgeName);
          run! sys (AddrAdd bridgeName containerBridgeAddress 24);
          run! when6 (sys (AddrAdd bridgeName containerBridgeAddressIPv6 64));
          run! ipt (AppendUnique "nat" "POSTROUTING"
                     ["-s"; containerSubnet; "-o"; m_defaultLink m; "-j"; "MASQUERADE"]);
          run! ipt6 (AppendUnique "nat" "POSTROUTING"
                     ["-s"; containerSubnetIPv6; "-o"; m_defaultLink m; "-j"; "MASQUERADE"]);
          run! ipt (InsertUnique "filter" "FORWARD" 1
                     ["-i"; bridgeName; "-o"; m_defaultLink m; "-j"; "ACCEPT"]);
          ipt (InsertUnique "filter" "FORWARD" 1
                 ["-i"; m_defaultLink m; "-o"; bridgeName; "-j"; "ACCEPT"])
      end)).

Definition add_namespace (path : string) : NM unit := λ n,
  Ret (inr tt, mkNet _ _ (n_os n) (n_ipt n) (n_ipt6 n) (n_instances n) (n_namespaces n ++ [path])).

Definition Setup (containerId : string) (request : ContainerRequest) : NM unit :=
  let! truncatedContainerId ← lift (truncated_id containerId);
  let vethHost := containerVethHostPrefix +:+ truncatedContainerId in
  let vethContainer := containerVethContainerPrefix +:+ truncatedContainerId in
  run! sys NsGet;
  run! sys (LinkAddVeth vethHost vethContainer);
  run! sys (LinkByName vethHost);
  run! setupBridge containerBridgeLinkName;
  run! sys (LinkSetMaster vethHost containerBridgeLinkName);
  run! sys (LinkSetUp vethHost);
  run! sys (NsNewNamed containerId);
  run! sys NsSetHost;
  run! sys (LinkByName vethContainer);
  run! sys (LinkSetNs vethContainer containerId);
  run! add_namespace ("/var/run/netns/" +:+ containerId);
  run! sys (NsSet containerId);
  ntry (configureContainerNetwork containerId vethContainer) (λ err,
    ntry (sys NsSetHost) (λ nsErr,
      match nsErr with
      | inl e => nfail (EWrap "failed to switch back to host namespace" e)
      | inr _ =>
          match err with
          | inl e => nfail e
          | inr _ => restrict containerId request
          end
      end)).

(** [TearDown] from the lock on. *)
Definition teardown_locked (containerId : string) : NM unit :=
  let! b ← has_ipt6;
  let! info ← getContainerNetworkInfo containerId b;
  ntry (sys (LinkByName (ni_VethHost info))) (λ found,
    run! (match found with
         | inr _ => run! sys (LinkSetNoMaster (ni_VethHost info)); sys (LinkDel (ni_VethHost info))
         | inl _ => nret tt
         end);
    run! ipt (removeIPTablesRules (ni_ContainerIp info));
    run! (if String.eqb (ni_ContainerIpv6 info) "" then nret tt
         else ipt6 (removeIPTablesRules (ni_ContainerIpv6 info)));
    run! sys_any (NsDeleteNamed containerId);
    run! repo (RemoveContainerIp (m_networkPrefix m) containerId);
    sys_any (FlushNeigh containerBridgeLinkName)).

Definition TearDown (containerId : string) : NM unit :=
  network_locked (m_networkPrefix m) 10 10 (teardown_locked containerId).

Definition ExposePort (containerId : string) (hostPort containerPort : Z) : NM unit :=
  let! b ← has_ipt6;
  let! info ← getContainerNetworkInfo containerId b;
  let if6 op := if String.eqb (ni_ContainerIpv6 info) "" then nret tt else ipt6 op in
  run! ipt (InsertUnique "nat" "PREROUTING" 1
        ["-p"; "tcp"; "--dport"; fmt_int hostPort; "-j"; "DNAT"; "--to-destination";
         ni_ContainerIp info +:+ ":" +:+ fmt_int containerPort;
         "-m"; "comment"; "--comment"; ni_Comment info]);
  run! if6 (InsertUnique "nat" "PREROUTING" 1
        ["-p"; "tcp"; "--dport"; fmt_int hostPort; "-j"; "DNAT"; "--to-destination";
         "[" +:+ ni_ContainerIpv6 info +:+ "]:" +:+ fmt_int containerPort;
         "-m"; "comment"; "--comment"; ni_Comment info]);
  run! ipt (AppendUnique "filter" "FORWARD"
        ["-p"; "tcp"; "-d"; ni_ContainerIp info; "--dport"; fmt_int containerPort; "-j"; "ACCEPT";
         "-m"; "comment"; "--comment"; ni_Comment info]);
  if6 (AppendUnique "filter" "FORWARD"
        ["-p"; "tcp"; "-d"; ni_ContainerIpv6 info; "--dport"; fmt_int containerPort; "-j"; "ACCEPT";
         "-m"; "comment"; "--comment"; ni_Comment info]).

Definition UpdateNetworkPermissions (containerId : string) (request : ContainerRequest) : NM unit :=
  let! b ← has_ipt6;
  let! info ← getContainerNetworkInfo containerId b;
  run! ipt (removeNetworkRestrictionRules (ni_ContainerIp info));
  run! (if String.eqb (ni_ContainerIpv6 info) "" then nret tt
       else ipt6 (removeNetworkRestrictionRules (ni_ContainerIpv6 info)));
  restrict containerId request.

(** The characters of [cutset] at the end of [s]. *)
Fixpoint TrimRight (s : string) (cut : Ascii.ascii -> bool) : string :=
  match s with
  | "" => ""
  | String c s' =>
      match TrimRight s' cut with
      | "" => if cut c then "" else String c ""
      | t => String c t
      end
  end.

(** The container named by the comment of a rule. *)
Definition rule_container (rule : string) : gerr + option string :=
  if Contains rule containerVethHostPrefix then
    match split_on colon rule with
    | _ :: part1 :: _ =>
        match Fields part1 with
        | [] => inl (EPanic "index out of range")
        | id :: _ =>
            inr (Some (TrimRight id (λ c, Ascii.eqb c "\" || Ascii.eqb c quote)))
        end
    | _ => inr None
    end
  else inr None.

Fixpoint rule_containers (rules : list string) (ids : gset string) : gerr + gset string :=
  match rules with
  | [] => inr ids
  | rule :: rest =>
      match rule_container rule with
      | inl e => inl e
      | inr None => rule_containers rest ids
      | inr (Some id) => rule_containers rest ({[id]} ∪ ids)
      end
  end.

Definition listContainerIdsFromIptables : NM (gset string) := λ n, Ret (
  match List "nat" "PREROUTING" (n_ipt n) with
  | inl e => inl e
  | inr rules =>
      match rule_containers rules ∅ with
      | inl e => inl e
      | inr ids =>
          match n_ipt6 n with
          | None => inr ids
          | Some f6 =>
              match List "nat" "PREROUTING" f6 with
              | inl e => inl e
              | inr rules6 => rule_containers rules6 ids
              end
          end
      end
  end, n).

(** The body of the cleanup loop for one container, and one tick of it over the
    containers in some order. *)
Definition cleanup_container (containerId : string) : NM unit :=
  ntry (network_locked (m_networkPrefix m +:+ "-" +:+ containerId) 10 0 (
          ntry (repo (GetContainerState containerId)) (λ r,
            match r with
            | inl err => if ContainerStateNotFound_From err then TearDown containerId else nret tt
            | inr _ => nret tt
            end)))
    (λ _, nret tt).

Fixpoint cleanup_containers (ids : list string) : NM unit :=
  match ids with
  | [] => nret tt
  | containerId :: rest => run! cleanup_container containerId; cleanup_containers rest
  end.

Definition cleanupOrphanedNamespaces : NM unit :=
  ntry listContainerIdsFromIptables (λ r,
    match r with
    | inl _ => nret tt
    | inr ids => cleanup_containers (elements ids)
    end).
End manager.
