(* ===== verification/NetworkProps.v ===== *)
(** * What the network manager guarantees

    Addresses: the loop that chooses an address finds the lowest free one; whatever
    the order in which containers are set up and torn down, no two of them have the
    same address and each address is one of the subnet's, outside the network's and
    the bridge's.  Firewall: what the removal of rules removes, and the order of the
    rules that restrict a container. *)

From S2P Require Import Prelude GoStd Redis Keys Types Lock Env WorkerRepo ContainerRepo Samples Network.

Local Open Scope Z_scope.
Set Default Proof Using "Type".

(** ** The choice of an address *)

(** The address of the subnet with a last octet. *)
Definition addr (o : Z) : IPv4 := mkIPv4 192 168 1 o.

(** The lowest free octet, the network's (0) and the bridge's (1) left out. *)
Definition first_free (A : gset string) : option Z :=
  head (filter (λ o, ip_String (addr o) ∉ A) (seqZ 2 254)).

Lemma subnet_checked :
  forallb (λ o,
    net_Contains ipNet (addr o) &&
    Bool.eqb (String.eqb (ip_String (addr o)) containerBridgeAddress ||
              String.eqb (ip_String (addr o)) (ip_String (net_IP ipNet))) (o <? 2))
    (seqZ 0 256) &&
  forallb (λ o, let ip := nextIP (addr o) 1 in
    (ip0 ip =? 192) && (ip1 ip =? 168) && (ip2 ip =? 1) && (ip3 ip =? o + 1)) (seqZ 0 255) = true.
Proof. vm_compute. reflexivity. Qed.

Lemma addr_in_subnet o : 0 <= o < 256 ->
  net_Contains ipNet (addr o) = true /\
  String.eqb (ip_String (addr o)) containerBridgeAddress ||
    String.eqb (ip_String (addr o)) (ip_String (net_IP ipNet)) = (o <? 2).
Proof.
  intros Ho. pose proof subnet_checked as [H _]%andb_prop. rewrite forallb_forall in H.
  specialize (H o). rewrite <- list_elem_of_In, elem_of_seqZ in H.
  specialize (H ltac:(lia)). apply andb_prop in H as [H1 H2%Bool.eqb_prop]. auto.
Qed.

Lemma nextIP_addr o : 0 <= o < 255 -> nextIP (addr o) 1 = addr (o + 1).
Proof.
  intros Ho. pose proof subnet_checked as [_ H]%andb_prop. rewrite forallb_forall in H.
  specialize (H o). rewrite <- list_elem_of_In, elem_of_seqZ in H.
  specialize (H ltac:(lia)). cbv beta zeta in H.
  destruct (nextIP (addr o) 1) as [a b c e]. cbn [ip0 ip1 ip2 ip3] in H.
  unfold addr. f_equal; lia.
Qed.

Lemma find_ip_S k A ip :
  find_ip (S k) A ip =
  if net_Contains ipNet ip then
    if String.eqb (ip_String ip) containerBridgeAddress ||
       String.eqb (ip_String ip) (ip_String (net_IP ipNet))
    then find_ip k A (nextIP ip 1)
    else if bool_decide (ip_String ip ∈ A) then find_ip k A (nextIP ip 1) else Some (Some ip)
  else Some None.
Proof. reflexivity. Qed.

Lemma find_ip_addr A k o : (Z.of_nat k = 256 - o) -> 0 <= o <= 256 ->
  find_ip (S k) A (if o =? 256 then nextIP (addr 255) 1 else addr o) =
  Some (addr <$> head (filter (λ o, ip_String (addr o) ∉ A) (seqZ (o `max` 2) (256 - o `max` 2)))).
Proof.
  revert o. induction k as [|k IH]; intros o Hk Ho.
  - replace o with 256 by lia. done.
  - destruct (Z.eqb_spec o 256) as [|_]; [lia|].
    rewrite find_ip_S. destruct (addr_in_subnet o ltac:(lia)) as [-> ->].
    assert (find_ip (S k) A (nextIP (addr o) 1) =
      Some (addr <$> head (filter (λ o, ip_String (addr o) ∉ A)
                            (seqZ ((o + 1) `max` 2) (256 - (o + 1) `max` 2))))) as Hnext.
    { rewrite <- IH by lia. destruct (Z.eqb_spec (o + 1) 256).
      - by replace o with 255 by lia.
      - by rewrite nextIP_addr by lia. }
    destruct (Z.ltb_spec o 2).
    + rewrite Hnext. by replace ((o + 1) `max` 2) with (o `max` 2) by lia.
    + replace (o `max` 2) with o in * by lia. replace ((o + 1) `max` 2) with (o + 1) in * by lia.
      rewrite seqZ_cons by lia. rewrite filter_cons.
      replace (Z.succ o) with (o + 1) by lia. replace (Z.pred (256 - o)) with (256 - (o + 1)) by lia.
      case_bool_decide; case_decide; try done.
Qed.

(** The loop of [configureContainerNetwork] ends within its 257 rounds. *)
Lemma find_ip_ends A :
  find_ip 257 A (ip_Mask (net_IP ipNet) (net_Mask ipNet)) = Some (addr <$> first_free A).
Proof. exact (find_ip_addr A 256 0 eq_refl ltac:(lia)). Qed.

Lemma choose_ip_first A : choose_ip A = addr <$> first_free A.
Proof. unfold choose_ip. by rewrite find_ip_ends. Qed.

Lemma head_filter_Some (P : Z -> Prop) `{!forall x, Decision (P x)} (n : nat) a x :
  head (filter P (seqZ a (Z.of_nat n))) = Some x <->
  a <= x < a + Z.of_nat n /\ P x /\ (forall y, a <= y < x -> ~ P y).
Proof.
  revert a. induction n as [|n IH]; intros a.
  { simpl. split; [done|]. lia. }
  rewrite seqZ_cons by lia. replace (Z.pred (Z.of_nat (S n))) with (Z.of_nat n) by lia.
  rewrite filter_cons. case_decide as Hp; simpl.
  - split; [intros [= ->]; split; [lia|]; split; [done|lia]|].
    intros (Hx & Hpx & Hy). f_equal. destruct (decide (a = x)); [done|].
    exfalso. apply (Hy a); [lia|done].
  - rewrite IH. split; intros (Hx & Hpx & Hy); (split; [|split; [done|]]).
    + lia.
    + intros y Hya. destruct (decide (y = a)) as [->|]; [done|]. apply Hy. lia.
    + destruct (decide (a = x)) as [->|]; [done|]. lia.
    + intros y Hya. apply Hy. lia.
Qed.

Lemma first_free_Some A o :
  first_free A = Some o <->
  2 <= o <= 255 /\ (ip_String (addr o) ∉ A) /\
  (forall o', 2 <= o' < o -> ip_String (addr o') ∈ A).
Proof.
  unfold first_free. rewrite (head_filter_Some _ 254).
  split; intros (Ho & Hf & Hlow); (split; [lia|]; split; [done|]); intros o' Ho'.
  - destruct (decide (ip_String (addr o') ∈ A)); [done|]. exfalso. by apply (Hlow o').
  - intros Hn. apply Hn, Hlow, Ho'.
Qed.

Lemma first_free_None A :
  first_free A = None <-> forall o, 2 <= o <= 255 -> ip_String (addr o) ∈ A.
Proof.
  unfold first_free. rewrite head_None. split.
  - intros H o Ho. destruct (decide (ip_String (addr o) ∈ A)) as [|Hn]; [done|].
    exfalso. assert (o ∈ filter (λ o, ip_String (addr o) ∉ A) (seqZ 2 254)) as Hin.
    { apply list_elem_of_filter. split; [done|]. apply elem_of_seqZ. lia. }
    rewrite H in Hin. by apply elem_of_nil in Hin.
  - intros H. apply elem_of_nil_inv. intros o [Hn Ho%elem_of_seqZ]%list_elem_of_filter.
    apply Hn, H. lia.
Qed.

(** ** The addresses in Redis *)

Definition ip_prefix : string := "192.168.1.".

Lemma ip_String_addr o : ip_String (addr o) = ip_prefix +:+ fmt_int o.
Proof. reflexivity. Qed.

Lemma addr_inj o1 o2 : ip_String (addr o1) = ip_String (addr o2) -> o1 = o2.
Proof. rewrite !ip_String_addr. intros H%(inj (String.append ip_prefix)). by apply fmt_int_inj. Qed.

(** The addresses [A] of the containers and the index [X] of the addresses in use,
    as Redis holds them. *)
Definition net_rel (np : string) (d : rdb) (A : gmap string string) (X : gset string) : Prop :=
  (forall c, kv d !! WorkerNetworkContainerIp np c = RVStr <$> A !! c) /\
  as_set (kv d !! WorkerNetworkIpIndex np) = Some X.

(** Container addresses are in the subnet, distinct and indexed. *)
Definition net_ok (A : gmap string string) (X : gset string) : Prop :=
  (forall c ip, A !! c = Some ip -> ip ∈ X /\ exists o, 2 <= o <= 255 /\ ip = ip_String (addr o)) /\
  (forall c1 c2 ip, A !! c1 = Some ip -> A !! c2 = Some ip -> c1 = c2).

Definition net_inv (np : string) (d : rdb) : Prop :=
  exists A X, net_rel np d A X /\ net_ok A X.

Section keys.
Context (np : string).

Lemma container_ip_ne_index c : WorkerNetworkContainerIp np c <> WorkerNetworkIpIndex np.
Proof.
  unfold WorkerNetworkContainerIp, WorkerNetworkIpIndex, workerNetworkContainerIp, workerNetworkIpIndex.
  simpl. intros H. by simplify_eq.
Qed.
Lemma container_ip_ne_lock c : WorkerNetworkContainerIp np c <> WorkerNetworkLock np.
Proof.
  unfold WorkerNetworkContainerIp, WorkerNetworkLock, workerNetworkContainerIp, workerNetworkLock.
  simpl. intros H. by simplify_eq.
Qed.
Lemma index_ne_lock : WorkerNetworkIpIndex np <> WorkerNetworkLock np.
Proof.
  unfold WorkerNetworkIpIndex, WorkerNetworkLock, workerNetworkIpIndex, workerNetworkLock.
  simpl. intros H. by simplify_eq.
Qed.
Lemma container_ip_inj c1 c2 : WorkerNetworkContainerIp np c1 = WorkerNetworkContainerIp np c2 -> c1 = c2.
Proof.
  unfold WorkerNetworkContainerIp, workerNetworkContainerIp. simpl. intros H. simplify_eq.
  by rewrite !str_app_nil_r in *.
Qed.

(** The relation looks at the container keys and at the index only. *)
Lemma net_rel_ext d d' A X :
  (forall c, kv d' !! WorkerNetworkContainerIp np c = kv d !! WorkerNetworkContainerIp np c) ->
  kv d' !! WorkerNetworkIpIndex np = kv d !! WorkerNetworkIpIndex np ->
  net_rel np d A X -> net_rel np d' A X.
Proof. intros H1 H2 [HA HX]. split; [intros c; by rewrite H1|by rewrite H2]. Qed.
End keys.

Lemma ip_not_key np c ip : (exists o, ip = ip_String (addr o)) ->
  ip <> WorkerNetworkContainerIp np c /\ ip <> WorkerNetworkIpIndex np.
Proof. intros [o ->]. rewrite ip_String_addr. split; key_ne. Qed.

Lemma net_ok_insert A X c o :
  net_ok A X -> 2 <= o <= 255 -> ip_String (addr o) ∉ X ->
  net_ok (<[c := ip_String (addr o)]> A) ({[ip_String (addr o)]} ∪ X).
Proof.
  intros [Hr Hi] Ho Hf. split.
  - intros c' ip Hip. destruct (decide (c = c')) as [<-|].
    + rewrite lookup_insert_eq in Hip. injection Hip as <-. split; [sets|eauto].
    + rewrite lookup_insert_ne in Hip by done. destruct (Hr _ _ Hip) as [? ?]. split; [|done]. set_solver.
  - assert (forall c' ip, A !! c' = Some ip -> ip <> ip_String (addr o)) as Hne.
    { intros c' ip Hip ->. by destruct (Hr _ _ Hip). }
    intros c1 c2 ip H1 H2. rewrite lookup_insert in H1, H2. repeat case_decide; simplify_eq;
      first [done | by eapply Hi | exfalso; by eapply Hne].
Qed.

Lemma net_ok_delete A X c ip :
  net_ok A X -> A !! c = Some ip -> net_ok (delete c A) (X ∖ {[ip]}).
Proof.
  intros [Hr Hi] Hc. split.
  - intros c' ip' [Hne Hip]%lookup_delete_Some. destruct (Hr _ _ Hip) as [? ?]. split; [|done].
    assert (ip' <> ip) by (intros ->; apply Hne; eauto). set_solver.
  - intros c1 c2 ip' [_ H1]%lookup_delete_Some [_ H2]%lookup_delete_Some. eauto.
Qed.

Lemma rwp_SetContainerIp (np c ip : string) (d : rdb) (L : lmap) A X :
  net_rel np d A X ->
  rwp (SetContainerIp np c ip)
    (λ r d' _, r = inr tt /\ net_rel np d' (<[c := ip]> A) ({[ip]} ∪ X)) d L.
Proof.
  intros [HA HX]. unfold SetContainerIp. wp_bind. wp_call; [|by destruct H as [_ Hno]; exfalso; eapply (Hno tt); reflexivity].
  simpl in H. subst. wp_bind. wp_call.
  - destruct H as (X' & HX' & ->). simpl in HX'.
    rewrite lookup_insert_ne in HX' by apply container_ip_ne_index. simplify_eq.
    split; [done|]. split.
    + intros c'. simpl. rewrite lookup_insert_ne by (apply not_eq_sym, container_ip_ne_index).
      destruct (decide (c = c')) as [<-|].
      * by rewrite !lookup_insert_eq.
      * rewrite !lookup_insert_ne; [done..|]. by intros ?%container_ip_inj.
    + simpl. by rewrite lookup_insert_eq.
  - destruct H as [_ Hno]. exfalso. eapply (Hno tt). eexists. split; [|done].
    simpl. rewrite lookup_insert_ne by apply container_ip_ne_index. exact HX.
Qed.

Lemma rwp_RemoveContainerIp (np c : string) (d : rdb) (L : lmap) A X :
  net_rel np d A X -> (forall c' ip, A !! c' = Some ip -> exists o, ip = ip_String (addr o)) ->
  rwp (RemoveContainerIp np c)
    (λ r d' _, match A !! c with
               | Some ip => r = inr tt /\ net_rel np d' (delete c A) (X ∖ {[ip]}) /\
                   eq_except {[WorkerNetworkContainerIp np c; ip; WorkerNetworkIpIndex np]} d d'
               | None => r = inl ERedisNil /\ d' = d
               end) d L.
Proof.
  intros [HA HX] Hr. unfold RemoveContainerIp. wp_bind. wp_call.
  2: { destruct H as [_ Hno]. exfalso. eapply (Hno (A !! c) d). split; [|done]. rewrite HA. by destruct (A !! c). }
  destruct H as [H ->]. rewrite HA in H.
  destruct (A !! c) as [ip|] eqn:Ec; simpl in H; injection H as <-; [|by split].
  destruct (ip_not_key np c ip (Hr _ _ Ec)) as [_ Hni].
  wp_bind. wp_call; [|by destruct H as [_ Hno]; exfalso; eapply (Hno 0); reflexivity].
  simpl in H. subst.
  assert (forall c', kv (del_kv (WorkerNetworkContainerIp np c) (del_kv ip d)) !! WorkerNetworkContainerIp np c'
            = RVStr <$> delete c A !! c') as HA'.
  { intros c'. simpl. destruct (decide (c = c')) as [<-|].
    - by rewrite !lookup_delete_eq.
    - rewrite !lookup_delete_ne; [apply HA|done|by apply (ip_not_key np c' ip (Hr _ _ Ec))
        |by intros ?%container_ip_inj]. }
  assert (as_set (kv (del_kv (WorkerNetworkContainerIp np c) (del_kv ip d)) !! WorkerNetworkIpIndex np)
            = Some X) as HX'.
  { simpl. rewrite !lookup_delete_ne; [done|done|apply container_ip_ne_index]. }
  assert (eq_except {[WorkerNetworkContainerIp np c; ip; WorkerNetworkIpIndex np]} d
            (del_kv (WorkerNetworkContainerIp np c) (del_kv ip d))) as Hfr.
  { etransitivity; apply eq_except_del_kv; sets. }
  wp_bind. wp_call.
  - assert (eq_except {[WorkerNetworkContainerIp np c; ip; WorkerNetworkIpIndex np]} d d') as Hfr'
      by (etransitivity; [exact Hfr|frame]).
    destruct H as (X' & HX'' & ->). rewrite HX' in HX''. simplify_eq. split; [done|].
    split; [|exact Hfr']. clear Hfr'. unfold set_or_del. case_decide as HE.
    + split; [|simpl; rewrite lookup_delete_eq; by rewrite HE].
      intros c'. rewrite <- HA'. simpl. apply lookup_delete_ne, not_eq_sym, container_ip_ne_index.
    + split; [|simpl; by rewrite lookup_insert_eq].
      intros c'. rewrite <- HA'. simpl. apply lookup_insert_ne, not_eq_sym, container_ip_ne_index.
  - destruct H as [_ Hno]. exfalso. eapply (Hno tt). eexists. by split.
Qed.

(** ** Every method keeps the addresses distinct *)

(** A key that is neither a container's address nor the index. *)
Definition foreign (np k : string) : Prop :=
  (forall c, WorkerNetworkContainerIp np c <> k) /\ WorkerNetworkIpIndex np <> k.

Lemma net_inv_foreign np k d d' : foreign np k -> eq_except {[k]} d d' -> net_inv np d -> net_inv np d'.
Proof.
  intros [Hc Hi] He (A & X & Hrel & Hok). exists A, X. split; [|done].
  eapply net_rel_ext; [..|exact Hrel]; intros; apply (eq_except_kv _ _ _ _ He); rewrite elem_of_singleton; auto.
Qed.

(** The keys the network manager writes: those of its containers, and, when it removes
    an address, the key that is spelled like the address. *)
Definition net_key (np k : string) : Prop :=
  (exists c, k = WorkerNetworkContainerIp np c) \/ k = WorkerNetworkIpIndex np \/
  (exists p, k = WorkerNetworkLock p) \/ (exists c, k = SchedulerContainerLock c) \/
  (exists o, k = ip_String (addr o)).

Definition net_frame (np : string) (d d' : rdb) : Prop :=
  forall k, ~ net_key np k -> kv d' !! k = kv d !! k.

Lemma net_frame_refl np d : net_frame np d d.
Proof. by intros k _. Qed.
Lemma net_frame_trans np d1 d2 d3 : net_frame np d1 d2 -> net_frame np d2 d3 -> net_frame np d1 d3.
Proof. intros H1 H2 k Hk. by rewrite H2, H1. Qed.
Lemma net_frame_except np ks d d' :
  (forall k, k ∈ ks -> net_key np k) -> eq_except ks d d' -> net_frame np d d'.
Proof. intros Hks He k Hk. apply (eq_except_kv _ _ _ _ He). intros Hin. by apply Hk, Hks. Qed.
Lemma net_frame_lock np p d d' : eq_except {[WorkerNetworkLock p]} d d' -> net_frame np d d'.
Proof.
  apply net_frame_except. intros k ->%elem_of_singleton. right. right. left. eauto.
Qed.

(** [confined k p]: whatever the replies, [p] changes at most key [k]. *)
Definition confined {A} (k : string) (p : M A) : Prop :=
  forall d L, wp p (λ _ d' _, eq_except {[k]} d d') d L.

Lemma confined_SetNetworkLock prefix t r : confined (WorkerNetworkLock prefix) (SetNetworkLock prefix t r).
Proof.
  intros d L. unfold SetNetworkLock, Acquire. wp_bind. wp_bind. apply wp_cmd.
  - intros [tok|] d' Hd; assert (eq_except {[WorkerNetworkLock prefix]} d d') by frame; [|done].
    apply wp_Loc. cbn. unfold Token. apply wp_Loc. cbn. by rewrite lookup_insert_eq.
  - intros e d' Hd. assert (eq_except {[WorkerNetworkLock prefix]} d d') by frame. done.
Qed.

Lemma confined_RemoveNetworkLock prefix tok : confined (WorkerNetworkLock prefix) (RemoveNetworkLock prefix tok).
Proof.
  intros d L. assert (touches {[WorkerNetworkLock prefix]} (RemoveNetworkLock prefix tok)) as H
    by (unfold RemoveNetworkLock, ReleaseWithToken; touches).
  eapply wp_mono; [|apply H]. by intros ? ? ? [? _].
Qed.

Lemma confined_GetContainerState c :
  confined (SchedulerContainerLock c) (GetContainerState c).
Proof.
  intros d L. unfold GetContainerState. apply wp_with_lock.
  - intros a d1 d2 L1 L2 He H. by etransitivity.
  - intros. reflexivity.
  - intros d' L' He. wp_bind. wp_call; [|etransitivity; [exact He|frame]].
    destruct H as [_ ->]. by case_decide.
Qed.

Lemma touches_SetContainerIp np c ip :
  touches {[WorkerNetworkContainerIp np c; WorkerNetworkIpIndex np]} (SetContainerIp np c ip).
Proof. unfold SetContainerIp. touches. Qed.

Create HintDb keeps.

Section manager_props.
Context `{K : Kernel, IPT : IPTables}.
Context (ParseCIDR : string -> option (string * bool)).
Context (m : ContainerNetworkManager).
Local Abbreviation np := (m_networkPrefix m).

Definition keeps {A} (p : NM A) : Prop :=
  forall n d L, net_inv np d -> rwp (p n) (λ _ d' _, net_inv np d' /\ net_frame np d d') d L.

(** [quiet p]: [p] does not use Redis. *)
Definition quiet {A} (p : NM A) : Prop := forall n, exists r, p n = Ret r.

Lemma quiet_keeps {A} (p : NM A) : quiet p -> keeps p.
Proof. intros H n d L Hd. destruct (H n) as [r ->]. split; [exact Hd|apply net_frame_refl]. Qed.

Lemma quiet_sys c : quiet (sys c).
Proof. intros n. unfold sys. destruct (syscall c _). eauto. Qed.
Lemma quiet_sys_any c : quiet (sys_any c).
Proof. intros n. unfold sys_any. destruct (syscall c _). eauto. Qed.
Lemma quiet_sys_exist_ok c : quiet (sys_exist_ok c).
Proof. intros n. unfold sys_exist_ok. destruct (syscall c _). eauto. Qed.
Lemma quiet_ipt op : quiet (ipt op).
Proof. intros n. unfold ipt. destruct (op _). eauto. Qed.
Lemma quiet_ipt6 op : quiet (ipt6 op).
Proof. intros n. unfold ipt6. destruct (n_ipt6 n); [destruct (op _)|]; eauto. Qed.
Lemma quiet_has_ipt6 : quiet has_ipt6.
Proof. intros n. unfold has_ipt6. eauto. Qed.
Lemma quiet_lift {A} (r : gerr + A) : quiet (lift r).
Proof. intros n. unfold lift. eauto. Qed.
Lemma quiet_nret {A} (a : A) : quiet (nret a).
Proof. intros n. unfold nret. eauto. Qed.
Lemma quiet_nfail {A} e : quiet (@nfail _ _ A e).
Proof. intros n. unfold nfail. eauto. Qed.
Lemma quiet_set_instance_ip c ip : quiet (set_instance_ip c ip).
Proof. intros n. unfold set_instance_ip. eauto. Qed.
Lemma quiet_add_namespace path : quiet (add_namespace path).
Proof. intros n. unfold add_namespace. eauto. Qed.

Lemma quiet_nbind {A B} (p : NM A) (f : A -> NM B) : quiet p -> (forall a, quiet (f a)) -> quiet (nbind p f).
Proof.
  intros Hp Hf n. unfold nbind. destruct (Hp n) as [[[e|a] n'] ->]; cbn; [eauto|apply Hf].
Qed.
Lemma quiet_when6 p : quiet p -> quiet (when6 p).
Proof.
  intros Hp. apply quiet_nbind; [apply quiet_has_ipt6|]. intros []; [done|apply quiet_nret].
Qed.

Lemma wp_nbind {err : forall R, rcmd R -> rdb -> rdb -> Prop} {A B} (p : NM A) (f : A -> NM B) n Q d L :
  wpg err (p n) (λ r d' L', match r with
                            | (inl e, n') => Q (inl e, n') d' L'
                            | (inr a, n') => wpg err (f a n') Q d' L'
                            end) d L ->
  wpg err (nbind p f n) Q d L.
Proof.
  intros H. unfold nbind. apply wp_pbind. eapply wp_mono; [|exact H]. by intros [[e|a] n'] d' L'.
Qed.

Lemma wp_quiet {err : forall R, rcmd R -> rdb -> rdb -> Prop} {A B} (p : NM A) (f : A -> NM B) n Q d L :
  quiet p -> (forall e n', Q (inl e, n') d L) -> (forall a n', wpg err (f a n') Q d L) ->
  wpg err (nbind p f n) Q d L.
Proof.
  intros Hq He Hf. apply wp_nbind. destruct (Hq n) as [[[e|a] n'] ->]; [apply He|apply Hf].
Qed.

Lemma wp_repo {err : forall R, rcmd R -> rdb -> rdb -> Prop} {A} (p : M A) n Q d L :
  wpg err p (λ r d' L', Q (handleGRPCResponse r, n) d' L') d L -> wpg err (repo p n) Q d L.
Proof. intros H. unfold repo. by apply wp_pbind. Qed.

Lemma keeps_nbind {A B} (p : NM A) (f : A -> NM B) : keeps p -> (forall a, keeps (f a)) -> keeps (nbind p f).
Proof.
  intros Hp Hf n d L Hd. apply wp_nbind. eapply wp_mono; [|by apply Hp].
  intros [[e|a] n'] d' L' [H Hfr]; [done|]. eapply wp_mono; [|by apply Hf].
  intros r d2 L2 [H2 Hfr2]. split; [done|exact (net_frame_trans _ _ _ _ Hfr Hfr2)].
Qed.

Lemma keeps_ntry {A B} (p : NM A) (f : gerr + A -> NM B) : keeps p -> (forall a, keeps (f a)) -> keeps (ntry p f).
Proof.
  intros Hp Hf n d L Hd. unfold ntry. apply wp_pbind. eapply wp_mono; [|by apply Hp].
  intros r d' L' [H Hfr]. eapply wp_mono; [|by apply Hf].
  intros r2 d2 L2 [H2 Hfr2]. split; [done|exact (net_frame_trans _ _ _ _ Hfr Hfr2)].
Qed.

Lemma keeps_confined {A} k (p : M A) :
  foreign np k -> net_key np k -> confined k p -> keeps (repo p).
Proof.
  intros Hk Hn Hp n d L Hd. apply wp_repo, rwp_wp. eapply wp_mono; [|apply Hp].
  intros r d' L' He. split; [exact (net_inv_foreign _ _ _ _ Hk He Hd)|].
  eapply net_frame_except; [|exact He]. by intros ? ->%elem_of_singleton.
Qed.

Lemma keeps_network_locked {A} prefix t r (body : NM A) :
  foreign np (WorkerNetworkLock prefix) -> keeps body -> keeps (network_locked prefix t r body).
Proof.
  intros Hk Hb. apply keeps_nbind.
  { eapply keeps_confined; [exact Hk| |apply confined_SetNetworkLock]. right. right. left. eauto. }
  intros tok n d L Hd. apply wp_pbind. eapply wp_mono; [|by apply Hb].
  intros x d' L' [H Hfr]. apply wp_pbind, rwp_wp. eapply wp_mono; [|apply confined_RemoveNetworkLock].
  intros y d2 L2 He. split; [exact (net_inv_foreign _ _ _ _ Hk He H)|].
  exact (net_frame_trans _ _ _ _ Hfr (net_frame_lock _ _ _ _ He)).
Qed.

Lemma foreign_lock : foreign np (WorkerNetworkLock np).
Proof. split; [apply container_ip_ne_lock|apply index_ne_lock]. Qed.

Lemma rwp_configure_locked c veth n d L A X :
  net_rel np d A X ->
  rwp (configure_locked m c veth n) (λ r d' _,
    match r.1 with
    | inl _ => d' = d
    | inr _ => (exists o, first_free X = Some o /\
        net_rel np d' (<[c := ip_String (addr o)]> A) ({[ip_String (addr o)]} ∪ X)) /\
        net_frame np d d'
    end) d L.
Proof.
  intros Hrel. unfold configure_locked.
  do 7 (apply wp_quiet; [auto using quiet_sys, quiet_sys_exist_ok|done|]; intros _ ?).
  apply wp_nbind, wp_repo. unfold GetContainerIps. wp_call; [|by destruct H as [-> _]].
  destruct H as (X' & HX' & Hl & ->). destruct Hrel as [HA HX]. rewrite HX in HX'. simplify_eq.
  cbn [handleGRPCResponse]. rewrite choose_ip_first.
  assert (list_to_set r = X') as -> by (rewrite Hl; apply list_to_set_elements_L).
  destruct (first_free X') as [o|] eqn:Eo; [|done]. cbn [fmap option_fmap option_map].
  do 3 (apply wp_quiet; [auto using quiet_sys, quiet_when6, quiet_nbind|done|]; intros _ ?).
  apply wp_nbind, wp_repo.
  eapply wp_mono; [|eapply rwp_touches; [apply touches_SetContainerIp|by apply rwp_SetContainerIp]].
  intros x d' L' [[-> Hd'] [He _]]. cbn [handleGRPCResponse].
  unfold set_instance_ip. change ((exists o0, Some o = Some o0 /\
    net_rel np d' (<[c := ip_String (addr o0)]> A) ({[ip_String (addr o0)]} ∪ X')) /\ net_frame np d d').
  split; [by exists o|]. eapply net_frame_except; [|exact He]. unfold net_key.
  intros k [->%elem_of_singleton| ->%elem_of_singleton]%elem_of_union;
    [left; by exists c|right; by left].
Qed.

Lemma keeps_configure c veth : keeps (configureContainerNetwork m c veth).
Proof.
  apply keeps_network_locked; [apply foreign_lock|]. intros n d L (A & X & Hrel & Hok).
  eapply wp_mono; [|by apply rwp_configure_locked].
  intros [[e|u] n'] d' L' H; cbn in H.
  - subst. split; [by exists A, X|apply net_frame_refl].
  - destruct H as [(o & Ho & Hrel') Hfr]. split; [|exact Hfr].
    apply first_free_Some in Ho as (Ho & Hf & _).
    eexists _, _. split; [exact Hrel'|]. by apply net_ok_insert.
Qed.

Lemma keeps_GetContainerIp prefix c : keeps (repo (GetContainerIp prefix c)).
Proof.
  intros n d L Hd. pose proof (net_frame_refl np d).
  apply wp_repo. unfold GetContainerIp. wp_bind. wp_call.
  - destruct H0 as [_ ->]. by destruct r.
  - by destruct H0 as [-> _].
Qed.

Lemma keeps_RemoveContainerIp c : keeps (repo (RemoveContainerIp np c)).
Proof.
  intros n d L (A & X & Hrel & Hok). apply wp_repo.
  eapply wp_mono; [|apply (rwp_RemoveContainerIp np c d L A X Hrel)].
  - intros r d' L' H. cbn in H. destruct (A !! c) as [ip|] eqn:Ec; destruct H as [_ H].
    + destruct H as [H He]. split; [eexists _, _; split; [exact H|by apply net_ok_delete]|].
      destruct Hok as [Hr _]. destruct (Hr _ _ Ec) as (_ & o & _ & ->).
      eapply net_frame_except; [|exact He]. unfold net_key.
      intros k [[->%elem_of_singleton| ->%elem_of_singleton]%elem_of_union| ->%elem_of_singleton]%elem_of_union;
        [left; by exists c|do 4 right; by exists o|right; by left].
    + subst. split; [by exists A, X|apply net_frame_refl].
  - intros c' ip H. destruct Hok as [Hr _]. destruct (Hr _ _ H) as (_ & o & _ & ->). eauto.
Qed.

(** Goes through a method call by call. *)
Ltac quiet := solve [ simple apply quiet_sys | simple apply quiet_sys_any
  | simple apply quiet_sys_exist_ok | simple apply quiet_ipt | simple apply quiet_ipt6
  | simple apply quiet_has_ipt6 | simple apply quiet_lift | simple apply quiet_nret
  | simple apply quiet_nfail | simple apply quiet_add_namespace ].
Ltac keeps :=
  repeat lazymatch goal with
  | |- forall _, _ => intro
  | |- keeps (nbind _ _) => apply keeps_nbind
  | |- keeps (ntry _ _) => apply keeps_ntry
  | |- keeps (network_locked np _ _ _) => apply keeps_network_locked; [apply foreign_lock|]
  | |- keeps (repo (GetContainerIp _ _)) => apply keeps_GetContainerIp
  | |- keeps (repo (RemoveContainerIp _ _)) => apply keeps_RemoveContainerIp
  | |- keeps (if _ then _ else _) => case_match
  | |- keeps (match _ with _ => _ end) => case_match
  | |- keeps _ => first [ simple apply quiet_keeps; quiet | solve [auto with keeps nocore] ]
  end.

Lemma keeps_info c b : keeps (getContainerNetworkInfo m c b).
Proof. unfold getContainerNetworkInfo. keeps. Qed.
#[local] Hint Resolve keeps_info keeps_configure : keeps.

Lemma keeps_setupBlockNetwork c : keeps (setupBlockNetwork m c).
Proof. unfold setupBlockNetwork. keeps. Qed.

Lemma keeps_allow_entries info l : keeps (allow_entries ParseCIDR m info l).
Proof. induction l as [|e l IH]; simpl; keeps; done. Qed.
#[local] Hint Resolve keeps_setupBlockNetwork keeps_allow_entries : keeps.

Lemma keeps_restrict c request : keeps (restrict ParseCIDR m c request).
Proof. unfold restrict, setupAllowList. keeps. Qed.
#[local] Hint Resolve keeps_restrict : keeps.

Lemma keeps_setupBridge b : keeps (setupBridge m b).
Proof. unfold setupBridge, when6. keeps. Qed.
#[local] Hint Resolve keeps_setupBridge : keeps.

Lemma keeps_Setup c request : keeps (Setup ParseCIDR m c request).
Proof. unfold Setup. keeps. Qed.

Lemma keeps_TearDown c : keeps (TearDown m c).
Proof. unfold TearDown, teardown_locked. keeps. Qed.
#[local] Hint Resolve keeps_Setup keeps_TearDown : keeps.

Lemma keeps_ExposePort c h p : keeps (ExposePort m c h p).
Proof. unfold ExposePort. keeps. Qed.

Lemma keeps_UpdateNetworkPermissions c request : keeps (UpdateNetworkPermissions ParseCIDR m c request).
Proof. unfold UpdateNetworkPermissions. keeps. Qed.

Lemma foreign_cleanup_lock c : foreign np (WorkerNetworkLock (np +:+ "-" +:+ c)).
Proof.
  split; [intros c'|];
    unfold WorkerNetworkContainerIp, WorkerNetworkIpIndex, WorkerNetworkLock,
      workerNetworkContainerIp, workerNetworkIpIndex, workerNetworkLock; simpl;
    rewrite !str_app_assoc; intros H; by simplify_eq.
Qed.

Lemma keeps_cleanup_container c : keeps (cleanup_container m c).
Proof.
  unfold cleanup_container. apply keeps_ntry; [|keeps].
  apply keeps_network_locked; [apply foreign_cleanup_lock|].
  apply keeps_ntry; [|keeps].
  eapply keeps_confined; [| |apply confined_GetContainerState]; [split; [intros c'|]; key_ne|].
  right. right. right. left. eauto.
Qed.
#[local] Hint Resolve keeps_cleanup_container keeps_ExposePort keeps_UpdateNetworkPermissions : keeps.

Lemma keeps_cleanup : keeps (cleanupOrphanedNamespaces m).
Proof.
  unfold cleanupOrphanedNamespaces. apply keeps_ntry.
  - apply quiet_keeps. intros n. unfold listContainerIdsFromIptables. eauto.
  - intros [e|ids]; [keeps|]. induction (elements ids) as [|c l IH]; simpl; keeps; done.
Qed.
#[local] Hint Resolve keeps_cleanup : keeps.

(** ** Histories *)

Inductive net_op :=
| OpSetup (containerId : string) (request : ContainerRequest)
| OpTearDown (containerId : string)
| OpExposePort (containerId : string) (hostPort containerPort : Z)
| OpUpdateNetworkPermissions (containerId : string) (request : ContainerRequest)
| OpCleanup.

Definition net_step (o : net_op) : NM unit :=
  match o with
  | OpSetup c request => Setup ParseCIDR m c request
  | OpTearDown c => TearDown m c
  | OpExposePort c h p => ExposePort m c h p
  | OpUpdateNetworkPermissions c request => UpdateNetworkPermissions ParseCIDR m c request
  | OpCleanup => cleanupOrphanedNamespaces m
  end.

(** Runs the methods one after the other; errors are reported to the callers. *)
Fixpoint net_run (ops : list net_op) (n : net) : prog (list (gerr + unit) * net) :=
  match ops with
  | [] => Ret ([], n)
  | o :: ops' =>
      r <~ net_step o n ;; rs <~ net_run ops' r.2 ;; Ret (r.1 :: rs.1, rs.2)
  end.

Lemma net_run_inv ops n d L :
  net_inv np d -> rwp (net_run ops n) (λ _ d' _, net_inv np d') d L.
Proof.
  assert (forall o, keeps (net_step o)) as Hstep by (intros []; simpl; auto with keeps).
  revert n d L. induction ops as [|o ops IH]; intros n d L Hd; [done|]. simpl.
  apply wp_pbind. eapply wp_mono; [|by apply Hstep].
  intros r d' L' [H _]. apply wp_pbind. eapply wp_mono; [|by apply IH]. by intros ? ? ? ?.
Qed.
End manager_props.

(** ** The network lock on a reliable server *)

Lemma net_rel_foreign np k d d' A X :
  foreign np k -> eq_except {[k]} d d' -> net_rel np d A X -> net_rel np d' A X.
Proof.
  intros [Hc Hi] He. apply net_rel_ext; intros; apply (eq_except_kv _ _ _ _ He);
    rewrite elem_of_singleton; auto.
Qed.

(** A free lock is obtained; the body runs, and the release changes the lock only. *)
Lemma rwp_network_locked `{K : Kernel, IPT : IPTables} {A : Type} (prefix : string) (t r : Z) (body : NM A)
    (n : net) (Q : (gerr + A) * net -> rdb -> Prop) (d : rdb) (L : lmap) :
  kv d !! WorkerNetworkLock prefix = None ->
  (forall x d1 d2, eq_except {[WorkerNetworkLock prefix]} d1 d2 -> Q x d1 -> Q x d2) ->
  (forall d1 L1, eq_except {[WorkerNetworkLock prefix]} d d1 -> rwp (body n) (λ x d2 _, Q x d2) d1 L1) ->
  rwp (network_locked prefix t r body n) (λ x d2 _, Q x d2) d L.
Proof.
  intros Hfree HQ Hbody. unfold network_locked. apply wp_nbind, wp_repo.
  unfold SetNetworkLock, Acquire. wp_bind. wp_bind. apply wp_cmd.
  - intros [tok|] d1 Hd.
    + assert (eq_except {[WorkerNetworkLock prefix]} d d1) as He by frame.
      apply wp_Loc. cbn [fst snd]. change (rwp (Token "worker" (WorkerNetworkLock prefix)) 
        (λ (r0 : gerr + string) (d' : rdb) (L' : lmap),
          match (handleGRPCResponse r0, n) with
          | (inl e, n') => Q (inl e, n') d'
          | (inr a, n') => rwp (r1 <~ body n' ;; RemoveNetworkLock prefix a ;~ Ret r1) (λ x d2 _, Q x d2) d' L'
          end) d1 (<[("worker", WorkerNetworkLock prefix) := tok]> L)).
      unfold Token. apply wp_Loc. cbn. rewrite lookup_insert_eq. cbn.
      apply wp_pbind. eapply wp_mono; [|by apply Hbody].
      intros x d2 L2 Hx. apply wp_pbind, rwp_wp. eapply wp_mono; [|apply confined_RemoveNetworkLock].
      intros y d3 L3 He3. exact (HQ _ _ _ He3 Hx).
    + exfalso. destruct Hd as [Hd _]. unfold exists_kv in Hd. rewrite Hfree in Hd.
      by apply bool_decide_eq_true in Hd as [? ?].
  - intros e d1 [_ Hno]. exfalso. by eapply (Hno (Some "")).
Qed.

(** ** A kernel whose calls succeed *)

Section calm.
Context `{K : Kernel, IPT : IPTables}.
Hypothesis calm : forall c o, (syscall c o).1 = None.

Definition set_os (o : os) (n : net) : net :=
  mkNet _ _ o (n_ipt n) (n_ipt6 n) (n_instances n) (n_namespaces n).

Definition works (p : NM unit) : Prop := forall n, exists o, p n = Ret (inr tt, set_os o n).

Lemma works_sys c : works (sys c).
Proof using calm.
  intros n. unfold sys. pose proof (calm c (n_os n)) as H.
  destruct (syscall c (n_os n)) as [r o]. simpl in H. subst. by exists o.
Qed.
Lemma works_sys_exist_ok c : works (sys_exist_ok c).
Proof using calm.
  intros n. unfold sys_exist_ok. pose proof (calm c (n_os n)) as H.
  destruct (syscall c (n_os n)) as [r o]. simpl in H. subst. by exists o.
Qed.
Lemma works_nbind (p q : NM unit) : works p -> works q -> works (nbind p (λ _, q)).
Proof.
  intros Hp Hq n. unfold nbind. destruct (Hp n) as [o ->].
  destruct (Hq (set_os o n)) as [o' E]. exists o'. exact E.
Qed.
Lemma works_when6 (p : NM unit) : works p -> works (when6 p).
Proof.
  intros Hp n. unfold when6, nbind, has_ipt6.
  change (exists o, (if bool_decide (is_Some (n_ipt6 n)) then p else nret tt) n = Ret (inr tt, set_os o n)).
  case_bool_decide; [apply Hp|]. exists (n_os n). by destruct n.
Qed.

Lemma rwp_works (p : NM unit) {A} (f : unit -> NM A) n Q d L :
  works p -> (forall o, rwp (f tt (set_os o n)) Q d L) -> rwp (nbind p f n) Q d L.
Proof. intros Hp Hf. apply wp_nbind. destruct (Hp n) as [o ->]. apply Hf. Qed.

Context (m : ContainerNetworkManager).
Local Abbreviation np := (m_networkPrefix m).

Lemma rwp_configure_calm c veth n d L A X :
  net_rel np d A X ->
  rwp (configure_locked m c veth n) (λ r d' _,
    match first_free X with
    | Some o =>
        let ip := ip_String (addr o) in
        r.1 = inr tt /\ net_rel np d' (<[c := ip]> A) ({[ip]} ∪ X) /\
        n_instances r.2 = alter (λ _, ip) c (n_instances n)
    | None => r.1 = inl (EMsg "unable to assign IP address to container") /\ net_rel np d' A X
    end) d L.
Proof using calm.
  intros Hrel. unfold configure_locked.
  do 7 (apply rwp_works; [auto using works_sys, works_sys_exist_ok|intros ?]).
  apply wp_nbind, wp_repo. unfold GetContainerIps. wp_call.
  2: { destruct H as [_ Hno]. exfalso. eapply (Hno (elements X)). exists X. split; [apply Hrel|done]. }
  destruct H as (X' & HX' & Hl & ->). pose proof Hrel as [HA HX]. rewrite HX in HX'. simplify_eq.
  cbn [handleGRPCResponse]. rewrite choose_ip_first.
  assert (list_to_set r = X') as -> by (rewrite Hl; apply list_to_set_elements_L).
  destruct (first_free X') as [fo|] eqn:Eo; [|done]. cbn [fmap option_fmap option_map].
  do 3 (apply rwp_works; [auto using works_sys, works_when6, works_nbind|intros ?]).
  apply wp_nbind, wp_repo. eapply wp_mono; [|by apply rwp_SetContainerIp].
  intros x d' L' [-> Hd']. cbn [handleGRPCResponse]. unfold set_instance_ip.
  split; [done|]. split; [done|]. cbn.
  destruct (n_instances n !! c) as [v|] eqn:Ec; cbn.
  - apply map_eq. intros c'. rewrite lookup_alter, lookup_insert. case_decide; [|done]. subst. by rewrite Ec.
  - apply map_eq. intros c'. rewrite lookup_alter. case_decide; [|done]. subst. by rewrite Ec.
Qed.
End calm.

(** ** iptables as documented

    [rules f (t, c)]: the lines of [iptables -t t -S c] after the chain's policy.  A
    chain that cannot be listed does not exist.  A rule is deleted by its
    specification (the first one that has it); [InsertUnique] at position 1 puts the
    rule first unless it is there. *)
Class IPTablesLaws `{IPT : IPTables} := {
  rules : fw -> string * string -> list string;
  policy : string -> string -> fw -> string;
  render : string -> list string -> string;
  List_ok : forall t c f l, List t c f = inr l -> l = policy t c f :: rules f (t, c);
  List_err : forall t c f e, List t c f = inl e -> rules f (t, c) = [];
  Delete_ok : forall t c spec f f', Delete t c spec f = (None, f') ->
    (exists l1 r l2, rules f (t, c) = (l1 ++ r :: l2)%list /\ rule_spec r = inr spec /\
                     rules f' (t, c) = (l1 ++ l2)%list) /\
    (forall k, k <> (t, c) -> rules f' k = rules f k);
  InsertUnique_ok : forall t c spec f f', InsertUnique t c 1 spec f = (None, f') ->
    rules f' (t, c) = (if decide (render c spec ∈ rules f (t, c)) then rules f (t, c)
                       else render c spec :: rules f (t, c)) /\
    (forall k, k <> (t, c) -> rules f' k = rules f k);
}.

(** A firewall that meets them: the lines of each chain. *)
Abbreviation ref_fw := (gmap (string * string) (list string)).

Definition ref_render (chain : string) (spec : list string) : string :=
  "-A " +:+ chain +:+ " " +:+ GoStd.Join spec " ".

Fixpoint ref_delete (spec : list string) (l : list string) : option (list string) :=
  match l with
  | [] => None
  | r :: l' =>
      if decide (rule_spec r = inr spec) then Some l' else cons r <$> ref_delete spec l'
  end.

Definition chain_lines (f : ref_fw) (t c : string) : list string := default [] (f !! (t, c)).

#[export] Instance ref_iptables : IPTables := {|
  fw := ref_fw;
  List t c f := inr (("-P " +:+ c +:+ " ACCEPT") :: chain_lines f t c);
  InsertUnique t c _ spec f :=
    (None, if decide (ref_render c spec ∈ chain_lines f t c) then f
           else <[(t, c) := ref_render c spec :: chain_lines f t c]> f);
  AppendUnique t c spec f :=
    (None, if decide (ref_render c spec ∈ chain_lines f t c) then f
           else <[(t, c) := (chain_lines f t c ++ [ref_render c spec])%list]> f);
  Delete t c spec f :=
    match ref_delete spec (chain_lines f t c) with
    | Some l' => (None, <[(t, c) := l']> f)
    | None => (Some (EMsg "iptables: Bad rule"), f)
    end;
|}.

Lemma ref_delete_Some spec l l' : ref_delete spec l = Some l' ->
  exists l1 r l2, l = (l1 ++ r :: l2)%list /\ rule_spec r = inr spec /\ l' = (l1 ++ l2)%list.
Proof.
  revert l'. induction l as [|r l IH]; intros l' H; simpl in H; [done|]. case_decide.
  - simplify_eq. by exists [], r, l'.
  - apply fmap_Some in H as (l0 & Hl & ->). destruct (IH _ Hl) as (l1 & r' & l2 & -> & Hr & ->).
    by exists (r :: l1), r', l2.
Qed.

#[export, refine] Instance ref_iptables_laws : IPTablesLaws := {|
  rules f k := default [] (f !! k);
  policy _ c _ := "-P " +:+ c +:+ " ACCEPT";
  render := ref_render;
|}.
Proof.
  - intros t c f l H. simpl in *. by simplify_eq.
  - intros t c f e H. done.
  - intros t c spec f f' H. simpl in *.
    destruct (ref_delete spec (chain_lines f t c)) as [l'|] eqn:E; simplify_eq. simpl.
    apply ref_delete_Some in E as (l1 & r & l2 & El & Hr & ->). split.
    + exists l1, r, l2. by rewrite lookup_insert_eq.
    + intros k Hk. by rewrite lookup_insert_ne.
  - intros t c spec f f' H. simpl in *. injection H as <-. fold (chain_lines f t c).
    case_decide; [done|]. rewrite lookup_insert_eq. split; [done|].
    intros k Hk. by rewrite lookup_insert_ne.
Defined.

(** A machine whose kernel calls succeed. *)
#[export] Instance calm_kernel : Kernel := {| os := unit; syscall _ o := (None, o) |}.

Definition ex_manager : ContainerNetworkManager := mkManager "net0" "eth0".
Definition ex_net : net :=
  mkNet _ _ tt (<[("filter", "FORWARD") := []]> (<[("nat", "PREROUTING") := []]> ∅)) None ∅ [].

(** ** Addresses *)

(** C23. With a Redis server that does not fail, and from a state in which the addresses of
    the containers differ and are indexed (an empty one, for instance): whatever sequence of
    container set-ups, tear-downs, port exposures, permission updates and cleanups runs, one
    after the other, and whatever the kernel and iptables answer, no two containers have the
    same address in Redis, and every address is one of 192.168.1.2 to 192.168.1.255: never
    the network's or the bridge's.  (Without the first condition it fails: [SetContainerIp]
    stores an address before it indexes it.) *)
Theorem container_ips_distinct `{S : RedisServer, SL : !RedisLaws S} `{K : Kernel, IPT : IPTables}
    (I : srv -> Prop) (ParseCIDR : string -> option (string * bool)) (m : ContainerNetworkManager)
    (ops : list net_op) (n : net) (s : srv) (L : lmap) :
  reliable I -> I s -> net_inv (m_networkPrefix m) (view s) ->
  ends (net_run ParseCIDR m ops n) s L (λ _ d,
    let stored c ip := kv d !! WorkerNetworkContainerIp (m_networkPrefix m) c = Some (RVStr ip) in
    (forall c ip, stored c ip -> exists o, 2 <= o <= 255 /\ ip = ip_String (addr o)) /\
    (forall c1 c2 ip, stored c1 ip -> stored c2 ip -> c1 = c2)).
Proof.
  intros HR HI Hs. apply (ends_rwp I); [done..|].
  eapply wp_mono; [|by apply net_run_inv].
  intros r d _ (A & X & [HA _] & [Hr Hi]).
  assert (forall c ip, kv d !! WorkerNetworkContainerIp (m_networkPrefix m) c = Some (RVStr ip) ->
            A !! c = Some ip) as Hst.
  { intros c ip H. rewrite HA in H. by destruct (A !! c); simplify_eq/=. }
  split; [intros c ip H%Hst; by apply (Hr c)|]. intros c1 c2 ip H1%Hst H2%Hst. eauto.
Qed.

Lemma net_inv_empty np : net_inv np empty_rdb.
Proof. exists ∅, ∅. split; [split|split]; intros; by simplify_map_eq. Qed.

Lemma container_ips_distinct_witness :
  let req := ex_request "sandbox-1" 1000 1000 "" 0 in
  let p := net_run (λ _, None) ex_manager
             [OpSetup "sandbox-1" req; OpSetup "sandbox-2" req; OpTearDown "sandbox-1";
              OpSetup "sandbox-3" req] ex_net in
  (run p (on empty_rdb) ∅).1.1.1 = [inr tt; inr tt; inr tt; inr tt] /\
  ends p (on empty_rdb) ∅ (λ _ d,
    let stored c ip := kv d !! WorkerNetworkContainerIp "net0" c = Some (RVStr ip) in
    (forall c ip, stored c ip -> exists o, 2 <= o <= 255 /\ ip = ip_String (addr o)) /\
    (forall c1 c2 ip, stored c1 ip -> stored c2 ip -> c1 = c2)).
Proof.
  intros req p. split; [vm_compute; reflexivity|].
  exact (container_ips_distinct (λ s, ref_faults s = []) (λ _, None) ex_manager
    [OpSetup "sandbox-1" req; OpSetup "sandbox-2" req; OpTearDown "sandbox-1"; OpSetup "sandbox-3" req]
    ex_net (on empty_rdb) ∅ ref_reliable eq_refl (net_inv_empty "net0")).
Defined.

(** Setting up a container's network, with the network lock free and a kernel whose
    calls succeed, gives the container the lowest address of the subnet that no
    container has, in Redis, in the index and in the container's instance; it fails
    only when all 254 addresses are in use, and then changes no address. *)
Theorem configureContainerNetwork_correct `{S : RedisServer, SL : !RedisLaws S}
    `{K : Kernel, IPT : IPTables} (I : srv -> Prop) (m : ContainerNetworkManager)
    (c veth : string) (n : net) (s : srv) (L : lmap) (A : gmap string string) (X : gset string) :
  let np := m_networkPrefix m in
  reliable I -> I s -> (forall c o, (syscall c o).1 = None) ->
  net_rel np (view s) A X -> kv (view s) !! WorkerNetworkLock np = None ->
  ends (configureContainerNetwork m c veth n) s L (λ r d,
    (exists o, let ip := ip_String (addr o) in
       2 <= o <= 255 /\ (ip ∉ X) /\ (forall o', 2 <= o' < o -> ip_String (addr o') ∈ X) /\
       r.1 = inr tt /\ net_rel np d (<[c := ip]> A) ({[ip]} ∪ X) /\
       n_instances r.2 = alter (λ _, ip) c (n_instances n)) \/
    ((forall o, 2 <= o <= 255 -> ip_String (addr o) ∈ X) /\
     r.1 = inl (EMsg "unable to assign IP address to container") /\ net_rel np d A X)).
Proof.
  intros np HR HI calm Hrel Hfree. apply (ends_rwp I); [done..|].
  apply rwp_network_locked; [done|..].
  - intros x d1 d2 He [(o & Ho & Hf & Hl & Hx & Hd & Hn)|(Hall & Hx & Hd)]; [left|right].
    + exists o. repeat (split; [done|]). split; [|done]. by eapply net_rel_foreign; [apply foreign_lock|..].
    + repeat (split; [done|]). by eapply net_rel_foreign; [apply foreign_lock|..].
  - intros d1 L1 He. eapply wp_mono; [|apply (rwp_configure_calm calm)].
    2: by eapply net_rel_foreign; [apply foreign_lock|..].
    intros x d2 L2 H. cbn in H. destruct (first_free X) as [o|] eqn:Eo; [left|right].
    + apply first_free_Some in Eo as (Ho & Hf & Hl). destruct H as (Hx & Hd & Hn).
      exists o. by repeat (split; [done|]).
    + split; [|tauto]. by apply first_free_None.
Qed.

Lemma configureContainerNetwork_correct_witness :
  let r := run (configureContainerNetwork ex_manager "sandbox-1" "v" ex_net) (on empty_rdb) ∅ in
  kv (view r.1.2) !! WorkerNetworkContainerIp "net0" "sandbox-1" = Some (RVStr "192.168.1.2") /\
  ends (configureContainerNetwork ex_manager "sandbox-1" "v" ex_net) (on empty_rdb) ∅ (λ r d,
    (exists o, let ip := ip_String (addr o) in
       2 <= o <= 255 /\ (ip ∉ (∅ : gset string)) /\
       (forall o', 2 <= o' < o -> ip_String (addr o') ∈ (∅ : gset string)) /\
       r.1 = inr tt /\ net_rel "net0" d (<["sandbox-1" := ip]> ∅) ({[ip]} ∪ ∅) /\
       n_instances r.2 = alter (λ _, ip) "sandbox-1" (n_instances ex_net)) \/
    ((forall o, 2 <= o <= 255 -> ip_String (addr o) ∈ (∅ : gset string)) /\
     r.1 = inl (EMsg "unable to assign IP address to container") /\ net_rel "net0" d ∅ ∅)).
Proof.
  intros r. split; [vm_compute; reflexivity|].
  refine (configureContainerNetwork_correct (λ s, ref_faults s = []) ex_manager "sandbox-1" "v" ex_net
    (on empty_rdb) ∅ ∅ ∅ ref_reliable eq_refl (λ _ _, eq_refl) _ eq_refl).
  split; [intros c; by simplify_map_eq|done].
Defined.
