(* ===== verification/Firewall.v ===== *)
(** * The firewall rules of a worker's containers

    What the removal of rules removes, and in which order the rules of an allow list
    stand, for every iptables that behaves as documented ([IPTablesLaws]). *)

From S2P Require Import Prelude GoStd Redis Keys Types Lock Env WorkerRepo Samples Network NetworkProps.

Local Open Scope Z_scope.
Set Default Proof Using "Type".

(** ** Removal *)

Lemma Contains_app r a b : Contains r (a +:+ b) = true -> Contains r a = true.
Proof.
  assert (forall s, HasPrefix s (a +:+ b) = true -> HasPrefix s a = true) as Hp.
  { intros s [x ->]%HasPrefix_spec. apply HasPrefix_spec. exists (b +:+ x). apply str_app_assoc. }
  induction r as [|ch r IH]; simpl; intros [H|H]%orb_prop; try done;
    apply orb_true_intro; eauto.
Qed.

(** The position of an element is determined by an injective mark. *)
Lemma NoDup_fmap_split {A B} (g : A -> B) (l1 l2 k1 k2 : list A) x y :
  NoDup (g <$> (l1 ++ x :: l2)%list) -> (l1 ++ x :: l2 = k1 ++ y :: k2)%list -> g x = g y ->
  l1 = k1 /\ l2 = k2.
Proof.
  revert k1. induction l1 as [|a l1 IH]; intros [|b k1] Hnd E Hg; simpl in *; simplify_eq; try done.
  - exfalso. apply NoDup_cons in Hnd as [Hn _]. apply Hn. rewrite Hg, fmap_app. set_solver.
  - exfalso. apply NoDup_cons in Hnd as [Hn _]. apply Hn. rewrite <- Hg, fmap_app. set_solver.
  - apply NoDup_cons in Hnd as [_ Hnd]. destruct (IH k1 Hnd) as [-> ->]; auto.
Qed.

Section removal.
Context `{IPT : IPTables, IL : !IPTablesLaws}.

(** No two rules of a chain have the same specification. *)
Definition unique_rules (f : fw) : Prop := forall k, NoDup (rule_spec <$> rules f k).

Lemma delete_rules_effect t c p (rest kept : list string) (f f' : fw) :
  NoDup (rule_spec <$> rules f (t, c)) ->
  rules f (t, c) = (kept ++ rest)%list -> delete_rules t c p rest f = (None, f') ->
  rules f' (t, c) = (kept ++ filter (λ r, p r = false) rest)%list /\
  forall k, k <> (t, c) -> rules f' k = rules f k.
Proof.
  revert kept f. induction rest as [|r rest IH]; intros kept f Hnd Hr H; simpl in H.
  { simplify_eq. by rewrite Hr. }
  rewrite filter_cons. destruct (p r) eqn:Ep.
  - rewrite decide_False by congruence.
    destruct (rule_spec r) as [|spec] eqn:Es; [done|].
    destruct (Delete t c spec f) as [[e|] f1] eqn:Ed; [done|].
    apply Delete_ok in Ed as [(l1 & r' & l2 & Hl & Hr' & Hd) Hk].
    rewrite Hl in Hnd, Hr.
    destruct (NoDup_fmap_split rule_spec l1 l2 kept rest r' r) as [-> ->]; [done|done|congruence|].
    destruct (IH kept f1) as [H1 H2]; [|done|done|].
    { rewrite Hd. rewrite fmap_app, fmap_cons in Hnd. rewrite fmap_app.
      apply NoDup_app in Hnd as (Ha & Hb & Hc). apply NoDup_cons in Hc as [_ Hc].
      apply NoDup_app. repeat split; [done| |done]. intros x Hx Hy. apply (Hb x Hx). set_solver. }
    split; [done|]. intros k Hkk. by rewrite H2, Hk.
  - rewrite decide_True by done.
    destruct (IH (kept ++ [r])%list f) as [H1 H2]; [done| |done|].
    { rewrite Hr. by rewrite <- app_assoc. }
    split; [|done]. rewrite H1. by rewrite <- app_assoc.
Qed.

Lemma unique_filter (f f' : fw) (p : string -> bool) (k0 : string * string) :
  unique_rules f -> rules f' k0 = filter (λ r, p r = false) (rules f k0) ->
  (forall k, k <> k0 -> rules f' k = rules f k) -> unique_rules f'.
Proof.
  intros Hu H0 H k. destruct (decide (k = k0)) as [->|]; [|rewrite H by done; apply Hu].
  rewrite H0. eapply sublist_NoDup; [apply (Hu k0)|]. apply fmap_sublist, sublist_filter.
Qed.

Lemma delete_in_chains_effect chains p (f f' : fw) :
  NoDup chains -> unique_rules f -> (forall t c f, (t, c) ∈ chains -> p (policy t c f) = false) ->
  delete_in_chains chains p f = (None, f') ->
  forall k, rules f' k = if decide (k ∈ chains) then filter (λ r, p r = false) (rules f k) else rules f k.
Proof.
  intros Hnd Hu Hpol. revert f Hu Hpol.
  induction Hnd as [|[t c] chains Hnin Hnd IH]; intros f Hu Hpol H k; simpl in H.
  { simplify_eq. by rewrite decide_False by set_solver. }
  assert (forall t0 c0 f, (t0, c0) ∈ chains -> p (policy t0 c0 f) = false) as Hpol' by set_solver.
  destruct (List t c f) as [e|l] eqn:El.
  - rewrite (IH f Hu Hpol' H). apply List_err in El.
    destruct (decide (k = (t, c))) as [->|].
    + rewrite decide_False by done. rewrite decide_True by set_solver. by rewrite El.
    + repeat case_decide; try done; set_solver.
  - destruct (delete_rules t c p l f) as [[e|] f1] eqn:Ed; [done|].
    apply List_ok in El as ->. simpl in Ed. rewrite Hpol in Ed by set_solver.
    apply (delete_rules_effect t c p _ []) in Ed as [H1 H2]; [|apply Hu|done]. simpl in H1.
    rewrite (IH f1); [|by eapply unique_filter|done|done].
    destruct (decide (k = (t, c))) as [->|].
    + rewrite decide_False by done. rewrite decide_True by set_solver. done.
    + rewrite H2 by done. repeat case_decide; try done; set_solver.
Qed.

Lemma removeIPTablesRules_rules ip (f f' : fw) :
  unique_rules f -> (forall t c f, (t, c) ∈ teardown_chains -> Contains (policy t c f) ip = false) ->
  removeIPTablesRules ip f = (None, f') ->
  forall k, rules f' k = if decide (k ∈ teardown_chains)
                         then filter (λ r, Contains r ip = false) (rules f k) else rules f k.
Proof.
  intros Hu Hp H. apply (delete_in_chains_effect teardown_chains (λ r, Contains r ip)); [|done..].
  apply (bool_decide_unpack _). vm_compute. exact I.
Qed.
End removal.

(** ** Tear-down *)

Section teardown.
Context `{K : Kernel, IPT : IPTables, IL : !IPTablesLaws}.
Context (m : ContainerNetworkManager).
Local Abbreviation np := (m_networkPrefix m).

(** Reads the address of a container; nothing changes. *)
Lemma wp_info c b n d L Q ip :
  kv d !! WorkerNetworkContainerIp np c = Some (RVStr ip) ->
  (forall e, Q (inl e, n) d L) ->
  (forall info, ni_ContainerIp info = ip -> Q (inr info, n) d L) ->
  wp (getContainerNetworkInfo m c b n) Q d L.
Proof.
  intros Hip He Hi. unfold getContainerNetworkInfo. apply wp_nbind, wp_repo.
  unfold GetContainerIp. wp_bind. wp_call; [|destruct H as [->|[? [_ ->]]]; apply He].
  destruct H as [H ->]. rewrite Hip in H. injection H as <-. cbn [handleGRPCResponse].
  apply wp_nbind. unfold lift. destruct (truncated_id c) as [e|tr]; [apply He|].
  destruct b; [|by apply Hi]. destruct (ParseIPv4 ip); [by apply Hi|apply He].
Qed.

(** [same_fw p]: [p] leaves the IPv4 firewall alone. *)
Definition same_fw {A} (p : NM A) : Prop :=
  forall n d L, wp (p n) (λ r _ _, n_ipt r.2 = n_ipt n) d L.

Lemma same_fw_nbind {A B} (p : NM A) (f : A -> NM B) :
  same_fw p -> (forall a, same_fw (f a)) -> same_fw (nbind p f).
Proof.
  intros Hp Hf n d L. apply wp_nbind. eapply wp_mono; [|apply Hp].
  intros [[e|a] n'] d' L' H; [done|]. eapply wp_mono; [|apply Hf].
  intros r d2 L2 H2. cbn in *. congruence.
Qed.
Lemma same_fw_ntry {A B} (p : NM A) (f : gerr + A -> NM B) :
  same_fw p -> (forall a, same_fw (f a)) -> same_fw (ntry p f).
Proof.
  intros Hp Hf n d L. unfold ntry. apply wp_pbind. eapply wp_mono; [|apply Hp].
  intros [a n'] d' L' H. eapply wp_mono; [|apply Hf]. intros r d2 L2 H2. cbn in *. congruence.
Qed.
Lemma same_fw_repo {A} (p : M A) : same_fw (repo p).
Proof. intros n d L. apply wp_repo. eapply wp_mono; [|apply wp_any]. done. Qed.
Lemma same_fw_sys c : same_fw (sys c).
Proof. intros n d L. unfold sys. by destruct (syscall c _). Qed.
Lemma same_fw_sys_any c : same_fw (sys_any c).
Proof. intros n d L. unfold sys_any. by destruct (syscall c _). Qed.
Lemma same_fw_ipt6 op : same_fw (ipt6 op).
Proof. intros n d L. unfold ipt6. destruct (n_ipt6 n); [|done]. by destruct (op _). Qed.
Lemma same_fw_nret {A} (a : A) : same_fw (nret a).
Proof. by intros n d L. Qed.
Lemma same_fw_has_ipt6 : same_fw has_ipt6.
Proof. by intros n d L. Qed.

Lemma wp_ipt {B} op (f : unit -> NM B) n Q d L :
  (forall e f', op (n_ipt n) = (Some e, f') -> forall n', Q (inl e, n') d L) ->
  (forall f', op (n_ipt n) = (None, f') -> forall n', n_ipt n' = f' -> wp (f tt n') Q d L) ->
  wp (nbind (ipt op) f n) Q d L.
Proof.
  intros He Hf. apply wp_nbind. unfold ipt. destruct (op (n_ipt n)) as [[e|] f'] eqn:E.
  - by eapply He.
  - by eapply Hf.
Qed.

Lemma wp_has_ipt6 {err : forall R, rcmd R -> rdb -> rdb -> Prop} {B} (f : bool -> NM B) n Q d L :
  wpg err (f (bool_decide (is_Some (n_ipt6 n))) n) Q d L -> wpg err (nbind has_ipt6 f n) Q d L.
Proof. exact id. Qed.

(** A first part that leaves the IPv4 firewall alone. *)
Lemma wp_same_fw {A B} (p : NM A) (f : A -> NM B) (n : net)
    (Q : (gerr + B) * net -> rdb -> lmap -> Prop) (d : rdb) (L : lmap) :
  same_fw p -> (forall e n' d' L', Q (inl e, n') d' L') ->
  (forall a n' d' L', n_ipt n' = n_ipt n -> wp (f a n') Q d' L') -> wp (nbind p f n) Q d L.
Proof.
  intros Hp He Hf. apply wp_nbind. eapply wp_mono; [|apply Hp].
  intros [[e|a] n'] d' L' H; [apply He|by apply Hf].
Qed.

(** What a tear-down that succeeds leaves of the IPv4 rules. *)
Definition torn_down (ip : string) (f f' : fw) : Prop :=
  forall k, rules f' k = if decide (k ∈ teardown_chains)
                         then filter (λ r, Contains r ip = false) (rules f k) else rules f k.

Ltac same_fw :=
  repeat lazymatch goal with
  | |- forall _, _ => intro
  | |- same_fw (nbind _ _) => apply same_fw_nbind
  | |- same_fw (ntry _ _) => apply same_fw_ntry
  | |- same_fw (repo _) => apply same_fw_repo
  | |- same_fw (sys _) => apply same_fw_sys
  | |- same_fw (sys_any _) => apply same_fw_sys_any
  | |- same_fw (ipt6 _) => apply same_fw_ipt6
  | |- same_fw (nret _) => apply same_fw_nret
  | |- same_fw _ => case_match
  end.

Lemma wp_teardown_locked c ip n d L :
  unique_rules (n_ipt n) -> (forall t c f, (t, c) ∈ teardown_chains -> Contains (policy t c f) ip = false) ->
  kv d !! WorkerNetworkContainerIp np c = Some (RVStr ip) ->
  wp (teardown_locked m c n) (λ r _ _, r.1 = inr tt -> torn_down ip (n_ipt n) (n_ipt r.2)) d L.
Proof.
  intros Hu Hpol Hip. unfold teardown_locked. apply wp_has_ipt6, wp_nbind.
  apply (wp_info _ _ _ _ _ _ ip); [done|done|]. intros info Hi.
  unfold ntry. apply wp_pbind. eapply wp_mono; [|apply same_fw_sys].
  intros [found n1] d1 L1 H1. cbn [fst snd] in *.
  apply wp_same_fw; [same_fw|done|]. intros [] n2 d2 L2 H2.
  apply wp_ipt; [done|]. intros f' Hf' n3 H3.
  assert (removeIPTablesRules ip (n_ipt n) = (None, f')) as Hrem by (by rewrite <- H1, <- H2, <- Hi).
  cbn beta. match goal with |- wp (?q n3) _ _ _ => assert (same_fw q) as Hs by same_fw end.
  eapply wp_mono; [|apply Hs]. intros r d4 L4 H4 _. cbn in H4. rewrite H4, H3.
  intros k. by apply removeIPTablesRules_rules.
Qed.
End teardown.

(** A tear-down that succeeds removes from the four chains exactly the rules whose
    text contains the container's address, and leaves every other chain alone.  The
    match is on text, so the rules of a container whose address merely starts with
    that address go too: tearing down 192.168.1.2 removes the rules, blocking rules
    included, of 192.168.1.20 to 29 and 200 to 255. *)
Theorem TearDown_rules `{S : RedisServer, SL : !RedisLaws S} `{K : Kernel, IPT : IPTables, IL : !IPTablesLaws}
    (m : ContainerNetworkManager) (c ip : string) (n : net) (s : srv) (L : lmap) :
  unique_rules (n_ipt n) -> (forall t c f, (t, c) ∈ teardown_chains -> Contains (policy t c f) ip = false) ->
  kv (view s) !! WorkerNetworkContainerIp (m_networkPrefix m) c = Some (RVStr ip) ->
  ends (TearDown m c n) s L (λ r _, r.1 = inr tt ->
    (forall k r0, r0 ∈ rules (n_ipt r.2) k <->
       r0 ∈ rules (n_ipt n) k /\ (k ∈ teardown_chains -> Contains r0 ip = false)) /\
    (forall k r0 x, k ∈ teardown_chains -> Contains r0 (ip +:+ x) = true ->
       r0 ∉ rules (n_ipt r.2) k)).
Proof.
  intros Hu Hpol Hip. apply ends_wp. unfold TearDown, network_locked. apply wp_nbind, wp_repo.
  eapply wp_mono; [|apply confined_SetNetworkLock]. intros [e|tok] d1 L1 He; [done|].
  apply wp_pbind. eapply wp_mono; [|apply (wp_teardown_locked m c ip); [done|done|]].
  2: { rewrite (eq_except_kv _ _ _ _ He); [done|]. apply not_elem_of_singleton, container_ip_ne_lock. }
  intros r d2 L2 Hr. apply wp_pbind. eapply wp_mono; [|apply wp_any]. intros _ d3 L3 _ Hok.
  specialize (Hr Hok). split.
  - intros k r0. rewrite Hr. case_decide; [|tauto]. rewrite list_elem_of_filter. tauto.
  - intros k r0 x Hk Hx. rewrite Hr, decide_True, list_elem_of_filter by done.
    intros [H _]. apply Contains_app in Hx. congruence.
Qed.

(** Two containers, at 192.168.1.2 and 192.168.1.20, both blocked. *)
Definition ex_blocked : list string :=
  ["-A FORWARD -s 192.168.1.2/32 -o eth0 -j DROP"; "-A FORWARD -s 192.168.1.20/32 -o eth0 -j DROP"].
Definition ex_blocked_net : net :=
  mkNet _ _ tt (<[("filter", "FORWARD") := ex_blocked]> ∅) None ∅ [].
Definition ex_blocked_db : rdb :=
  mkRdb {[ WorkerNetworkContainerIp "net0" "sandbox-1" := RVStr "192.168.1.2";
           WorkerNetworkIpIndex "net0" := RVSet {["192.168.1.2"]} ]} ∅.

Lemma ex_blocked_unique : unique_rules (n_ipt ex_blocked_net).
Proof.
  intros k. change (rules (n_ipt ex_blocked_net) k)
    with (default [] ((<[("filter", "FORWARD") := ex_blocked]> ∅ : gmap (string * string) (list string)) !! k)).
  destruct (decide (k = ("filter", "FORWARD"))) as [->|].
  - rewrite lookup_insert_eq. apply (bool_decide_unpack _). vm_compute. exact I.
  - rewrite lookup_insert_ne, lookup_empty by done. constructor.
Qed.

Lemma TearDown_rules_witness :
  let r := run (TearDown ex_manager "sandbox-1" ex_blocked_net) (on ex_blocked_db) ∅ in
  (r.1.1.1 = inr tt /\ rules (n_ipt r.1.1.2) ("filter", "FORWARD") = []) /\
  ends (TearDown ex_manager "sandbox-1" ex_blocked_net) (on ex_blocked_db) ∅ (λ r _, r.1 = inr tt ->
    (forall k r0, r0 ∈ rules (n_ipt r.2) k <->
       r0 ∈ rules (n_ipt ex_blocked_net) k /\ (k ∈ teardown_chains -> Contains r0 "192.168.1.2" = false)) /\
    (forall k r0 x, k ∈ teardown_chains -> Contains r0 ("192.168.1.2" +:+ x) = true ->
       r0 ∉ rules (n_ipt r.2) k)).
Proof.
  intros r. split; [vm_compute; split; reflexivity|].
  refine (TearDown_rules ex_manager "sandbox-1" "192.168.1.2" ex_blocked_net (on ex_blocked_db) ∅
    ex_blocked_unique _ eq_refl).
  intros t c f H. unfold teardown_chains in H.
  repeat (apply elem_of_cons in H as [[= -> ->]|H]; [vm_compute; reflexivity|]).
  by apply elem_of_nil in H.
Defined.

(** ** Allow lists *)

Abbreviation forward := ("filter", "FORWARD").

Section allow_list.
Context `{K : Kernel, IPT : IPTables, IL : !IPTablesLaws}.
Context (ParseCIDR : string -> option (string * bool)) (m : ContainerNetworkManager).
Context (c tr ip : string) (v : IPv4).
Local Abbreviation np := (m_networkPrefix m).
Hypothesis Htr : truncated_id c = inr tr.
Hypothesis Hv : ParseIPv4 ip = Some v.
(** Rules can be inserted. *)
Hypothesis Hins : forall spec f, (InsertUnique "filter" "FORWARD" 1 spec f).1 = None.

Definition the_comment : string := containerVethHostPrefix +:+ tr +:+ ":" +:+ c.
Definition drop_line : string := render "FORWARD" (drop_rule m ip the_comment).
Definition accept_line (cidr : string) : string := render "FORWARD" (accept_rule m ip cidr the_comment).

Definition the_info (b : bool) : containerNetworkInfo :=
  mkNetworkInfo ip (if b then ipv6_of_octet (ip3 v) else "") (containerVethHostPrefix +:+ tr) the_comment.

Lemma rwp_info b n d L Q :
  kv d !! WorkerNetworkContainerIp np c = Some (RVStr ip) -> Q (inr (the_info b), n) d L ->
  rwp (getContainerNetworkInfo m c b n) Q d L.
Proof using Htr Hv.
  intros Hip HQ. unfold getContainerNetworkInfo. apply wp_nbind, wp_repo.
  unfold GetContainerIp. wp_bind. wp_call.
  2: { destruct H as [_ Hno]. exfalso. eapply (Hno (Some ip) d). split; [by rewrite Hip|done]. }
  destruct H as [H ->]. rewrite Hip in H. injection H as <-. cbn [handleGRPCResponse].
  apply wp_nbind. unfold lift. rewrite Htr. destruct b; [rewrite Hv|]; exact HQ.
Qed.

(** [op] inserts the rule [spec]. *)
Definition inserts (spec : list string) (op : fw -> option gerr * fw) : Prop :=
  forall f, op f = (None, (InsertUnique "filter" "FORWARD" 1 spec f).2).

Lemma inserts_plain spec : inserts spec (InsertUnique "filter" "FORWARD" 1 spec).
Proof using Hins.
  intros f. pose proof (Hins spec f) as H. destruct (InsertUnique _ _ _ _ f). simpl in *. by subst.
Qed.
Lemma inserts_wrapped msg spec : inserts spec (wrapped msg (InsertUnique "filter" "FORWARD" 1 spec)).
Proof using Hins. intros f. unfold wrapped. by rewrite (inserts_plain spec f). Qed.

(** Inserting a rule that is not there puts it first; the rest of [n] stays. *)
Lemma ipt_insert spec op n :
  inserts spec op ->
  exists n', ipt op n = Ret (inr tt, n') /\ n_ipt6 n' = n_ipt6 n /\
    rules (n_ipt n') forward =
      (if decide (render "FORWARD" spec ∈ rules (n_ipt n) forward) then rules (n_ipt n) forward
       else render "FORWARD" spec :: rules (n_ipt n) forward).
Proof using IL Hins.
  intros Hop. unfold ipt. rewrite Hop. eexists. split; [reflexivity|]. split; [done|].
  exact (proj1 (InsertUnique_ok _ _ _ _ _ (inserts_plain spec (n_ipt n)))).
Qed.

Lemma ipt6_insert spec op n :
  inserts spec op ->
  exists n', ipt6 op n = Ret (inr tt, n') /\ (is_Some (n_ipt6 n') <-> is_Some (n_ipt6 n)) /\
             n_ipt n' = n_ipt n.
Proof.
  intros Hop. unfold ipt6. destruct (n_ipt6 n) as [f6|] eqn:E6; [|by exists n; rewrite E6].
  rewrite Hop. eexists. split; [reflexivity|]. split; [|done]. split; eauto.
Qed.

Lemma allow_entries_effect entries b n F acc0 :
  (forall cidr, accept_line cidr ∉ F) -> rules (n_ipt n) forward = (acc0 ++ F)%list ->
  exists r n', allow_entries ParseCIDR m (the_info b) entries n = Ret (r, n') /\
    (r = inr tt <-> forall e, e ∈ entries -> is_Some (ParseCIDR e)) /\
    exists acc, rules (n_ipt n') forward = (acc ++ acc0 ++ F)%list /\
      (forall line, line ∈ acc ->
         exists e cidr, e ∈ entries /\ ParseCIDR e = Some (cidr, false) /\ line = accept_line cidr) /\
      (r = inr tt -> forall e cidr, e ∈ entries -> ParseCIDR e = Some (cidr, false) ->
         accept_line cidr ∈ (acc ++ acc0)%list).
Proof using IL Hins Htr Hv.
  intros HF. revert n acc0. induction entries as [|e entries IH]; intros n acc0 Hn.
  { exists (inr tt), n. split; [done|]. split; [set_solver|]. exists []. set_solver. }
  cbn [allow_entries]. unfold ValidateCIDR.
  cbn [the_info ni_Comment ni_ContainerIp ni_ContainerIpv6] in *. destruct (ParseCIDR e) as [[cidr [|]]|] eqn:Ee.
  - destruct (ipt6_insert _ _ n (inserts_wrapped ("failed to add IPv6 allowlist rule for " +:+ cidr)
      (accept_rule m (if b then ipv6_of_octet (ip3 v) else "") cidr the_comment))) as (n1 & E1 & _ & H1).
    destruct (IH n1 acc0) as (r & n' & E' & Hr & acc & Ha & Hb & Hc); [by rewrite H1|].
    exists r, n'. split; [unfold nbind; rewrite E1; exact E'|]. split.
    { rewrite Hr. set_solver. }
    exists acc. split; [done|]. split; [|set_solver].
    intros line Hl. destruct (Hb line Hl) as (e' & cidr' & ? & ? & ?). exists e', cidr'. set_solver.
  - destruct (ipt_insert _ _ n (inserts_wrapped ("failed to add IPv4 allowlist rule for " +:+ cidr)
      (accept_rule m ip cidr the_comment))) as (n1 & E1 & _ & H1).
    fold (accept_line cidr) in H1.
    destruct (IH n1 (if decide (accept_line cidr ∈ acc0) then acc0 else accept_line cidr :: acc0))
      as (r & n' & E' & Hr & acc & Ha & Hb & Hc).
    { rewrite H1, Hn. pose proof (HF cidr). repeat case_decide; try done; set_solver. }
    exists r, n'. split; [unfold nbind; rewrite E1; exact E'|]. split.
    { rewrite Hr. set_solver. }
    assert (forall line, line ∈ acc -> exists e0 cidr0, e0 ∈ e :: entries /\
              ParseCIDR e0 = Some (cidr0, false) /\ line = accept_line cidr0) as Hb'.
    { intros line Hl. destruct (Hb line Hl) as (e' & cidr' & ? & ? & ?). exists e', cidr'. set_solver. }
    exists (acc ++ if decide (accept_line cidr ∈ acc0) then [] else [accept_line cidr])%list. split.
    { rewrite Ha. case_decide; by rewrite <- ?app_assoc, ?app_nil_r. }
    split.
    + intros line [Hl|Hl]%elem_of_app; [auto|]. case_decide; [by apply elem_of_nil in Hl|].
      apply list_elem_of_singleton in Hl as ->. exists e, cidr. set_solver.
    + intros -> e0 cidr0 [->|H0]%elem_of_cons Hp.
      * rewrite Ee in Hp. injection Hp as <-. case_decide; set_solver.
      * specialize (Hc eq_refl e0 cidr0 H0 Hp). case_decide; set_solver.
  - eexists _, n. split; [reflexivity|]. split.
    { split; [done|]. intros Hall. destruct (Hall e) as [? ?]; [set_solver|congruence]. }
    exists []. split; [done|]. split; [set_solver|done].
Qed.

Lemma rwp_setupAllowList entries n d L F :
  kv d !! WorkerNetworkContainerIp np c = Some (RVStr ip) ->
  rules (n_ipt n) forward = F -> drop_line ∉ F ->
  (forall cidr, accept_line cidr ∉ drop_line :: F) ->
  rwp (setupAllowList ParseCIDR m c entries n) (λ r _ _,
    (r.1 = inr tt <-> forall e, e ∈ entries -> is_Some (ParseCIDR e)) /\
    exists acc, rules (n_ipt r.2) forward = (acc ++ drop_line :: F)%list /\
      (forall line, line ∈ acc ->
         exists e cidr, e ∈ entries /\ ParseCIDR e = Some (cidr, false) /\ line = accept_line cidr) /\
      (r.1 = inr tt -> forall e cidr, e ∈ entries -> ParseCIDR e = Some (cidr, false) ->
         accept_line cidr ∈ acc)) d L.
Proof using IL Hins Htr Hv.
  intros Hip HF Hd Ha. unfold setupAllowList. apply wp_nbind. unfold setupBlockNetwork.
  apply wp_has_ipt6, wp_nbind, rwp_info; [done|].
  destruct (ipt_insert _ _ n (inserts_plain (drop_rule m ip the_comment))) as (n1 & E1 & H6 & H1).
  fold drop_line in H1. rewrite HF, decide_False in H1 by done.
  set (b := bool_decide (is_Some (n_ipt6 n))).
  destruct (ipt6_insert _ _ n1 (inserts_plain
    (drop_rule m (if b then ipv6_of_octet (ip3 v) else "") the_comment))) as (n2 & E2 & H62 & H2).
  apply wp_nbind. cbn [the_info ni_ContainerIp ni_ContainerIpv6 ni_Comment]. rewrite E1.
  apply wp_Ret. cbn beta iota. rewrite E2. apply wp_Ret. cbn beta iota.
  apply wp_has_ipt6, wp_nbind, rwp_info; [done|].
  destruct (allow_entries_effect entries (bool_decide (is_Some (n_ipt6 n2))) n2 (drop_line :: F) [])
    as (r & n' & E & Hr & acc & H3 & H4 & H5); [done|by rewrite H2|].
  rewrite E. apply wp_Ret. split; [exact Hr|]. exists acc. rewrite app_nil_r in H5. auto.
Qed.
End allow_list.

(** C38. An allow list denies by default.  For a container with an IPv4 address in Redis and
    none of whose drop and accept rules are in the FORWARD chain yet, with a Redis server
    that does not fail and an iptables that inserts every rule it is asked to: after
    [setupAllowList] the rule that drops the container's traffic stands in the FORWARD chain
    before every rule that was there, and only accept rules of valid IPv4 entries of the list
    stand before it.  When every entry is valid the call succeeds and each IPv4 entry has its
    accept rule; an invalid entry is an error, and the drop rule is in place all the same.
    (A drop rule that is already in the chain stays where it is.) *)
Theorem allow_list_default_deny `{S : RedisServer, SL : !RedisLaws S}
    `{K : Kernel, IPT : IPTables, IL : !IPTablesLaws} (I : srv -> Prop)
    (ParseCIDR : string -> option (string * bool)) (m : ContainerNetworkManager)
    (c tr ip : string) (v : IPv4) (entries : list string) (n : net) (s : srv) (L : lmap) :
  reliable I -> I s ->
  truncated_id c = inr tr -> ParseIPv4 ip = Some v ->
  (forall spec f, (InsertUnique "filter" "FORWARD" 1 spec f).1 = None) ->
  kv (view s) !! WorkerNetworkContainerIp (m_networkPrefix m) c = Some (RVStr ip) ->
  let drop := drop_line m c tr ip in
  let accept := accept_line m c tr ip in
  let F := rules (n_ipt n) forward in
  drop ∉ F -> (forall cidr, accept cidr ∉ drop :: F) ->
  ends (setupAllowList ParseCIDR m c entries n) s L (λ r _,
    (r.1 = inr tt <-> forall e, e ∈ entries -> is_Some (ParseCIDR e)) /\
    exists acc, rules (n_ipt r.2) forward = (acc ++ drop :: F)%list /\
      (forall line, line ∈ acc ->
         exists e cidr, e ∈ entries /\ ParseCIDR e = Some (cidr, false) /\ line = accept cidr) /\
      (r.1 = inr tt -> forall e cidr, e ∈ entries -> ParseCIDR e = Some (cidr, false) ->
         accept cidr ∈ acc)).
Proof.
  intros HR HI Htr Hv Hins Hip drop accept F Hd Ha. apply (ends_rwp I); [done..|].
  by apply (rwp_setupAllowList ParseCIDR m c tr ip v).
Qed.

Lemma allow_list_default_deny_witness :
  let cidrs e := if String.eqb e "8.8.8.8/32" then Some ("8.8.8.8/32", false) else None in
  let p := setupAllowList cidrs ex_manager "sandbox-1" ["8.8.8.8/32"; "x"] ex_net in
  (run p (on ex_blocked_db) ∅).1.1.1 =
    inl (EWrap "invalid allowlist entry x"
           (EMsg "not a valid CIDR notation (e.g., 8.8.8.8/32 or 10.0.0.0/8)")) /\
  let drop := drop_line ex_manager "sandbox-1" "box-1" "192.168.1.2" in
  let accept := accept_line ex_manager "sandbox-1" "box-1" "192.168.1.2" in
  ends p (on ex_blocked_db) ∅ (λ r _,
    (r.1 = inr tt <-> forall e, e ∈ ["8.8.8.8/32"; "x"] -> is_Some (cidrs e)) /\
    exists acc, rules (n_ipt r.2) forward = (acc ++ drop :: rules (n_ipt ex_net) forward)%list /\
      (forall line, line ∈ acc ->
         exists e cidr, e ∈ ["8.8.8.8/32"; "x"] /\ cidrs e = Some (cidr, false) /\ line = accept cidr) /\
      (r.1 = inr tt -> forall e cidr, e ∈ ["8.8.8.8/32"; "x"] -> cidrs e = Some (cidr, false) ->
         accept cidr ∈ acc)).
Proof.
  intros cidrs p. split; [vm_compute; reflexivity|].
  refine (allow_list_default_deny (λ s, ref_faults s = []) cidrs ex_manager "sandbox-1" "box-1" "192.168.1.2"
    (mkIPv4 192 168 1 2) ["8.8.8.8/32"; "x"] ex_net (on ex_blocked_db) ∅ ref_reliable eq_refl eq_refl eq_refl
    (λ _ _, eq_refl) eq_refl _ _).
  - apply (bool_decide_unpack _). vm_compute. exact I.
  - intros cidr. rewrite list_elem_of_singleton. intros E. vm_compute in E. discriminate E.
Defined.
