(* ===== verification/PoolCleaner.v ===== *)
(** * The pool cleaner (pkg/scheduler/pool_cleaner.go)

    [WorkerResourceCleaner] deletes the Kubernetes jobs of a pool whose worker has no
    state in Redis, or whose pod has been pending for too long.  Kubernetes is a
    parameter ([KubeClient]: a cluster and the replies of its API); the two goroutines
    of [deleteWorkerResources] touch different systems and are run one after the other;
    the events that are pushed are returned. *)

From S2P Require Import Prelude GoStd Redis Keys Types Codec Lock Env WorkerRepo Samples.

Local Open Scope Z_scope.
Set Default Proof Using "Type".

Definition Beta9WorkerLabelKey : string := "run.beam.cloud/role".
Definition Beta9WorkerLabelValue : string := "worker".
Definition Beta9MachineLabelIDKey : string := "run.beam.cloud/machine-id".
Definition Beta9WorkerLabelIDKey : string := "run.beam.cloud/worker-id".
Definition Beta9WorkerLabelPoolNameKey : string := "run.beam.cloud/worker-pool-name".
Definition DeletedWorkerReasonPodWithoutState : string := "pod_without_state".
Definition DeletedWorkerReasonPodExceededPendingAgeLimit : string := "pod_exceeded_pending_age_limit".

Definition PodPending : string := "Pending".
Definition PodSucceeded : string := "Succeeded".
Definition PodFailed : string := "Failed".

Record job := mkJob { job_Name : string }.
Record pod := mkPod {
  pod_Labels : gmap string string; pod_Phase : string; pod_CreationTimestamp : Z }.

(** Jobs and pods are listed by namespace and label selector. *)
Class KubeClient := {
  cluster : Type;
  ListJobs : string -> string -> cluster -> gerr + list job;
  ListPods : string -> string -> cluster -> gerr + list pod;
  DeleteJob : string -> string -> cluster -> option gerr * cluster;
}.

(** [PushWorkerDeletedEvent]: worker, machine, pool and reason. *)
Record deleted_event := mkDeletedEvent {
  de_WorkerId : string; de_MachineId : string; de_PoolName : string; de_Reason : string }.

Section cleaner.
Context {FMT : GoFmt} {KC : KubeClient}.
Context (poolName namespace : string) (config : WorkerRepoConfig) (now : Z).

(** The cluster and the events so far. *)
Definition kstate : Type := cluster * list deleted_event.

Definition deleteWorkerResources (workerId : string) (j : job) (k : cluster)
    : prog ((gerr + unit) * cluster) :=
  r <~ RemoveWorker workerId ;;
  let e1 := match r with
            | inl (EWorkerNotFound _) | inr _ => None
            | inl e => Some e
            end in
  let '(e2, k') := DeleteJob namespace (job_Name j) k in
  Ret (match e1, e2 with
       | Some e, _ | None, Some e => inl e
       | None, None => inr tt
       end, k').

Definition delete_with_event (workerId reason : string) (p : pod) (j : job) (k : kstate) : prog kstate :=
  r <~ deleteWorkerResources workerId j k.1 ;;
  match r with
  | (inl _, k') => Ret (k', k.2)
  | (inr _, k') =>
      let machineId := default "" (pod_Labels p !! Beta9MachineLabelIDKey) in
      Ret (k', k.2 ++ [mkDeletedEvent workerId machineId poolName reason])%list
  end.

Definition deleteStaleJob (p : pod) (j : job) (k : kstate) : prog kstate :=
  match pod_Labels p !! Beta9WorkerLabelIDKey with
  | None => Ret k
  | Some workerId =>
      if String.eqb (pod_Phase p) PodSucceeded || String.eqb (pod_Phase p) PodFailed then Ret k
      else
        r <~ GetWorkerById workerId ;;
        match r with
        | inl (EWorkerNotFound _) => delete_with_event workerId DeletedWorkerReasonPodWithoutState p j k
        | inl _ | inr _ => Ret k
        end
  end.

Definition deletePendingJob (p : pod) (j : job) (k : kstate) : prog kstate :=
  match pod_Labels p !! Beta9WorkerLabelIDKey with
  | None => Ret k
  | Some workerId =>
      if negb (String.eqb (pod_Phase p) PodPending) then Ret k
      else if now - pod_CreationTimestamp p <? wc_CleanupPendingWorkerAgeLimit config then Ret k
      else delete_with_event workerId DeletedWorkerReasonPodExceededPendingAgeLimit p j k
  end.

Fixpoint clean_pods (j : job) (pods : list pod) (k : kstate) : prog kstate :=
  match pods with
  | [] => Ret k
  | p :: pods' =>
      k1 <~ deleteStaleJob p j k ;;
      k2 <~ deletePendingJob p j k1 ;;
      clean_pods j pods' k2
  end.

Fixpoint clean_jobs (jobs : list job) (k : kstate) : prog kstate :=
  match jobs with
  | [] => Ret k
  | j :: jobs' =>
      match ListPods namespace ("job-name=" +:+ job_Name j) k.1 with
      | inl _ => clean_jobs jobs' k
      | inr pods => k' <~ clean_pods j pods k ;; clean_jobs jobs' k'
      end
  end.

Definition job_selector : string :=
  Beta9WorkerLabelKey +:+ "=" +:+ Beta9WorkerLabelValue +:+ "," +:+
  Beta9WorkerLabelPoolNameKey +:+ "=" +:+ poolName.

Definition Clean (k : cluster) : prog kstate :=
  match ListJobs namespace job_selector k with
  | inl _ => Ret (k, [])
  | inr jobs => clean_jobs jobs (k, [])
  end.

(** ** Live workers are spared *)

(** The keys of worker locks, the only ones a cleaner that deletes nothing writes. *)
Definition same_but_locks (d d' : rdb) : Prop :=
  forall k, (forall id, k <> SchedulerWorkerLock id) -> kv d' !! k = kv d !! k.

#[local] Instance same_but_locks_refl : Reflexive same_but_locks.
Proof. by intros d k. Qed.
#[local] Instance same_but_locks_trans : Transitive same_but_locks.
Proof. intros d1 d2 d3 H1 H2 k Hk. by rewrite H2, H1. Qed.

(** A pod that the cleaner must leave alone: its worker has state, and it has not been
    pending for longer than the limit. *)
Definition live_pod (d : rdb) (p : pod) : Prop :=
  forall workerId, pod_Labels p !! Beta9WorkerLabelIDKey = Some workerId ->
    is_Some (kv d !! SchedulerWorkerState workerId) /\
    (pod_Phase p = PodPending -> now - pod_CreationTimestamp p < wc_CleanupPendingWorkerAgeLimit config).

Lemma live_pod_same d d' p : same_but_locks d d' -> live_pod d p -> live_pod d' p.
Proof. intros H Hp id Hid. rewrite H by (intros; key_ne). by apply Hp. Qed.

Lemma wp_GetWorkerById_found id d L :
  is_Some (kv d !! SchedulerWorkerState id) ->
  wp (GetWorkerById id) (λ r d' _, same_but_locks d d' /\ forall e, r <> inl (EWorkerNotFound e)) d L.
Proof.
  intros Hs. unfold GetWorkerById. apply wp_with_lock.
  - intros a d1 d2 L1 L2 He [H1 H2]. split; [|done]. intros k Hk. rewrite <- H1 by done.
    apply (eq_except_kv _ _ _ _ He). rewrite elem_of_singleton. apply Hk.
  - intros e [->|[e' ->]]; by split.
  - intros d1 L1 He.
    assert (same_but_locks d d1) as H1.
    { intros k Hk. apply (eq_except_kv _ _ _ _ He). rewrite elem_of_singleton. apply Hk. }
    wp_bind. wp_call.
    + destruct H as [-> ->]. unfold exists_kv.
      rewrite bool_decide_true by (rewrite H1 by (intros; key_ne); done). simpl.
      unfold getWorkerFromKey. wp_bind. wp_call.
      * destruct H as [_ ->]. by split.
      * assert (d' = d1) as -> by (destruct H as [->|(? & _ & ->)]; done). by split.
    + assert (d' = d1) as -> by (destruct H as [->|(? & _ & ->)]; done). by split.
Qed.

Lemma wp_clean_pods j pods k d L :
  Forall (live_pod d) pods ->
  wp (clean_pods j pods k) (λ k' d' _, k' = k /\ same_but_locks d d') d L.
Proof.
  revert d L. induction pods as [|p pods IH]; intros d L Hl; [done|].
  apply Forall_cons in Hl as [Hp Hl]. cbn [clean_pods]. apply wp_pbind.
  eapply wp_mono with (Q := λ k' d' _, k' = k /\ same_but_locks d d').
  - intros k1 d1 L1 [-> H1]. apply wp_pbind. unfold deletePendingJob.
    assert (wp (clean_pods j pods k) (λ k' d' _, k' = k /\ same_but_locks d d') d1 L1) as Hrest.
    { eapply wp_mono; [|apply IH; eapply Forall_impl; [exact Hl|intros; by eapply live_pod_same]].
      intros k2 d2 L2 [-> H2]. split; [done|]. by etransitivity. }
    destruct (pod_Labels p !! Beta9WorkerLabelIDKey) as [id|] eqn:E; [|exact Hrest].
    destruct (String.eqb_spec (pod_Phase p) PodPending) as [Hph|]; [|exact Hrest]. cbn [negb].
    destruct (Hp id E) as [_ Hage]. rewrite (proj2 (Z.ltb_lt _ _)) by auto. exact Hrest.
  - unfold deleteStaleJob. destruct (pod_Labels p !! Beta9WorkerLabelIDKey) as [id|] eqn:E; [|done].
    case_match; [done|]. apply wp_pbind.
    eapply wp_mono; [|apply wp_GetWorkerById_found, (Hp id E)].
    intros r d1 L1 [H1 Hr]. destruct r as [[]|]; try done. by destruct (Hr workerId).
Qed.

Lemma wp_clean_jobs jobs k d L :
  (forall j pods, j ∈ jobs -> ListPods namespace ("job-name=" +:+ job_Name j) k.1 = inr pods ->
     Forall (live_pod d) pods) ->
  wp (clean_jobs jobs k) (λ k' d' _, k' = k /\ same_but_locks d d') d L.
Proof.
  revert d L. induction jobs as [|j jobs IH]; intros d L Hl; [done|]. cbn [clean_jobs].
  destruct (ListPods namespace ("job-name=" +:+ job_Name j) k.1) as [e|pods] eqn:E.
  { apply IH. intros. eapply Hl; [|done]. set_solver. }
  apply wp_pbind. eapply wp_mono; [|apply wp_clean_pods; eapply Hl; [|exact E]; set_solver].
  intros k1 d1 L1 [-> H1]. eapply wp_mono; [|apply IH].
  - intros k2 d2 L2 [-> H2]. split; [done|]. by etransitivity.
  - intros j' pods' Hj' E'. eapply Forall_impl; [eapply Hl; [|exact E']; set_solver|].
    intros. by eapply live_pod_same.
Qed.

(** C35. The cleaner never deletes a live worker: when every labelled pod of the pool's jobs
    belongs to a worker with state in Redis and has not been pending beyond the age
    limit, a pass of the cleaner deletes no job, pushes no event and changes nothing in
    Redis but worker locks, whatever commands fail or are answered late. *)
Theorem Clean_spares_live_workers `{S : RedisServer, SL : !RedisLaws S} (k : cluster) (s : srv) (L : lmap) :
  (forall jobs j pods, ListJobs namespace job_selector k = inr jobs -> j ∈ jobs ->
     ListPods namespace ("job-name=" +:+ job_Name j) k = inr pods -> Forall (live_pod (view s)) pods) ->
  ends (Clean k) s L (λ r d, r = (k, []) /\ same_but_locks (view s) d).
Proof.
  intros Hl. apply ends_wp. unfold Clean. destruct (ListJobs namespace job_selector k) as [e|jobs] eqn:E.
  - done.
  - apply wp_clean_jobs. intros j pods Hj Hp. by eapply Hl.
Qed.
End cleaner.

(** A cluster of jobs with their pods, by the selectors the cleaner uses. *)
Definition ex_kube : KubeClient := {|
  cluster := list (job * list pod);
  ListJobs _ _ k := inr k.*1;
  ListPods _ sel k :=
    inr (concat (snd <$> filter (λ jp, "job-name=" +:+ job_Name jp.1 = sel) k));
  DeleteJob _ name k := (None, filter (λ jp, job_Name jp.1 <> name) k);
|}.

Definition ex_jobs : @cluster ex_kube :=
  [(mkJob "worker-w2", [mkPod {[Beta9WorkerLabelIDKey := "w2"]} PodPending 100])].

(** Spared while its worker has state; deleted, with an event, when it has none. *)
Lemma Clean_spares_live_workers_witness :
  let _ := plain_fmt in let _ := ex_kube in
  (run (Clean "default" "ns" ex_config 200 ex_jobs) (on empty_rdb) ∅).1.1 =
    ([], [mkDeletedEvent "w2" "" "default" DeletedWorkerReasonPodWithoutState]) /\
  ends (Clean "default" "ns" ex_config 200 ex_jobs) (on ex_cluster) ∅
    (λ r d, r = (ex_jobs, []) /\ same_but_locks (view (on ex_cluster)) d).
Proof.
  split; [vm_compute; reflexivity|].
  refine (@Clean_spares_live_workers plain_fmt ex_kube "default" "ns" ex_config 200 ref_server ref_server_laws
    ex_jobs (on ex_cluster) ∅ _).
  intros jobs j pods H1 H2 H3. cbn in H1. injection H1 as <-.
  apply list_elem_of_singleton in H2 as ->. vm_compute in H3. injection H3 as <-.
  apply Forall_singleton. intros id Hid. vm_compute in Hid. injection Hid as <-.
  split; [vm_compute; eauto|]. intros _. vm_compute. reflexivity.
Defined.
