(* ===== verification/ProviderRepo.v ===== *)
(** * Machines of compute providers (pkg/repository/provider_redis.go)

    The machines of external pools register here: one hash per machine, an index per
    pool, metrics and a lock per machine.  Pools come as a list, in the order in which
    Go's map iteration happens to visit them. *)

From S2P Require Import Prelude GoStd Redis Keys Types Codec Lock Env WorkerRepo PoolSizing PoolHealth.

Local Open Scope Z_scope.
Set Default Proof Using "Type".

Definition MachinePendingExpirationS : Z := 3600.
Definition MachineKeepaliveExpirationS : Z := 300.

Record ProviderMachineState := mkMachineState {
  ms_MachineId : string; ms_PoolName : string; ms_Status : string; ms_HostName : string;
  ms_Token : string; ms_Cpu : Z; ms_Memory : Z; ms_Gpu : string; ms_GpuCount : Z;
  ms_RegistrationToken : string; ms_PrivateIP : string; ms_Created : string;
  ms_LastWorkerSeen : string; ms_LastKeepalive : string; ms_AutoConsolidate : bool;
  ms_AgentVersion : string;
}.

Definition zeroMachineState : ProviderMachineState :=
  mkMachineState "" "" "" "" "" 0 0 "" 0 "" "" "" "" "" false "".

(** The percentages are [float64] values, by their text. *)
Record ProviderMachineMetrics := mkMachineMetrics {
  mm_TotalCpuAvailable : Z; mm_TotalMemoryAvailable : Z; mm_TotalDiskSpaceBytes : Z;
  mm_CpuUtilizationPct : string; mm_MemoryUtilizationPct : string; mm_TotalDiskFreeBytes : Z;
  mm_WorkerCount : Z; mm_ContainerCount : Z; mm_FreeGpuCount : Z; mm_CacheUsagePct : string;
  mm_CacheCapacity : Z; mm_CacheMemoryUsage : Z; mm_CacheCpuUsage : string;
}.

Definition zeroMachineMetrics : ProviderMachineMetrics :=
  mkMachineMetrics 0 0 0 "0" "0" 0 0 0 0 "0" 0 0 "0".

(** [types.ProviderMachine]: the metrics may be nil. *)
Record machine := mkMachine {
  mc_State : ProviderMachineState;
  mc_Metrics : option ProviderMachineMetrics;
}.

#[export] Instance MachineState_Reflect : Reflect ProviderMachineState := {
  fields s :=
    [ ("machine_id", GString (ms_MachineId s)); ("pool_name", GString (ms_PoolName s));
      ("status", GString (ms_Status s)); ("hostname", GString (ms_HostName s));
      ("token", GString (ms_Token s)); ("cpu", GInt 64 (ms_Cpu s));
      ("memory", GInt 64 (ms_Memory s)); ("gpu", GString (ms_Gpu s));
      ("gpu_count", GUint 32 (ms_GpuCount s));
      ("registration_token", GString (ms_RegistrationToken s));
      ("private_ip", GString (ms_PrivateIP s)); ("created", GString (ms_Created s));
      ("last_worker_seen", GString (ms_LastWorkerSeen s));
      ("last_keepalive", GString (ms_LastKeepalive s));
      ("auto_consolidate", GBool (ms_AutoConsolidate s));
      ("agent_version", GString (ms_AgentVersion s)) ];
  with_fields s fs :=
    match fs with
    | [ (_, GString id); (_, GString pool); (_, GString status); (_, GString host);
        (_, GString token); (_, GInt _ cpu); (_, GInt _ mem); (_, GString gpu); (_, GUint _ gpus);
        (_, GString reg); (_, GString ip); (_, GString created); (_, GString seen);
        (_, GString keep); (_, GBool auto); (_, GString agent) ] =>
        mkMachineState id pool status host token cpu mem gpu gpus reg ip created seen keep auto agent
    | _ => s
    end }.

#[export] Instance MachineMetrics_Reflect : Reflect ProviderMachineMetrics := {
  fields s :=
    [ ("total_cpu_available", GInt 64 (mm_TotalCpuAvailable s));
      ("total_memory_available", GInt 64 (mm_TotalMemoryAvailable s));
      ("total_disk_space_bytes", GInt 64 (mm_TotalDiskSpaceBytes s));
      ("cpu_utilization_pct", GFloat (mm_CpuUtilizationPct s));
      ("memory_utilization_pct", GFloat (mm_MemoryUtilizationPct s));
      ("total_disk_free_bytes", GInt 64 (mm_TotalDiskFreeBytes s));
      ("worker_count", GInt 64 (mm_WorkerCount s));
      ("container_count", GInt 64 (mm_ContainerCount s));
      ("free_gpu_count", GInt 64 (mm_FreeGpuCount s));
      ("cache_usage_pct", GFloat (mm_CacheUsagePct s));
      ("cache_capacity", GInt 64 (mm_CacheCapacity s));
      ("cache_memory_usage", GInt 64 (mm_CacheMemoryUsage s));
      ("cache_cpu_usage", GFloat (mm_CacheCpuUsage s)) ];
  with_fields s fs :=
    match fs with
    | [ (_, GInt _ a); (_, GInt _ b); (_, GInt _ c); (_, GFloat d); (_, GFloat e); (_, GInt _ f);
        (_, GInt _ g); (_, GInt _ h); (_, GInt _ i); (_, GFloat j); (_, GInt _ k); (_, GInt _ l);
        (_, GFloat m) ] =>
        mkMachineMetrics a b c d e f g h i j k l m
    | _ => s
    end }.

(** ** Reading *)

Definition getMachineMetrics (providerName poolName machineId : string) : M ProviderMachineMetrics :=
  let key := Keys.ProviderMachineMetrics providerName poolName machineId in
  n <- rcall (EWrap ("error checking machine metrics existence for key " +:+ key)) (CExists key) ;;
  if n =? 0 then fail (EMsg "machine metrics not found")
  else
    res <- rcall (λ _, EMsg ("failed to get machine metrics <" +:+ key +:+ ">")) (CHGetAll key) ;;
    ok (to_struct res zeroMachineMetrics).

Definition getMachineStateFromKey (key : string) : M ProviderMachineState :=
  n <- rcall (EWrap ("error checking machine state existence for key " +:+ key)) (CExists key) ;;
  if n =? 0 then fail (EMsg "machine not found")
  else
    res <- rcall (λ _, EMsg ("failed to get machine state <" +:+ key +:+ ">")) (CHGetAll key) ;;
    ok (to_struct res zeroMachineState).

(** The machine with the metrics that could be read. *)
Definition with_metrics (providerName poolName machineId : string) (state : ProviderMachineState)
    : prog machine :=
  r <~ getMachineMetrics providerName poolName machineId ;;
  Ret (mkMachine state (match r with inr metrics => Some metrics | inl _ => None end)).

Definition GetMachine (providerName poolName machineId : string) : M machine :=
  let stateKey := Keys.ProviderMachineState providerName poolName machineId in
  res <- rcall (EWrap ("failed to get machine state for " +:+ machineId)) (CHGetAll stateKey) ;;
  if decide (res = ∅)
  then fail (EMsg ("machine state for " +:+ machineId +:+ " is invalid or empty"))
  else
    m <~ with_metrics providerName poolName machineId (to_struct res zeroMachineState) ;; ok m.

(** ** Writing *)

Definition RemoveMachine (providerName poolName machineId : string) : M unit :=
  let stateKey := Keys.ProviderMachineState providerName poolName machineId in
  let machineIndexKey := ProviderMachineIndex providerName poolName in
  rcall (EWrap ("failed to remove machine state key from index <" +:+ machineIndexKey +:+ ">"))
    (CSRem machineIndexKey stateKey) ;;
  rcall (λ e, e) (CDel [stateKey]) ;;
  ok tt.

(** A machine whose lock is taken is skipped; one that cannot be read is removed. *)
Fixpoint list_machines (providerName poolName : string) (useLock : bool) (keys : list string)
    : prog (list machine) :=
  match keys with
  | [] => Ret []
  | key :: keys' =>
      let machineId := last_segment key in
      let lockKey := ProviderMachineLock providerName poolName machineId in
      let release := if useLock then Release "provider" lockKey ;~ Ret tt else Ret tt in
      locked <~ (if useLock then Acquire "provider" lockKey 10 0 else ok tt) ;;
      match locked with
      | inl _ => list_machines providerName poolName useLock keys'
      | inr _ =>
          r <~ getMachineStateFromKey key ;;
          match r with
          | inl _ =>
              RemoveMachine providerName poolName machineId ;~
              (release ;~ list_machines providerName poolName useLock keys')
          | inr machineState =>
              m <~ with_metrics providerName poolName machineId machineState ;;
              (release ;~
               (ms <~ list_machines providerName poolName useLock keys' ;; Ret (m :: ms)))
          end
      end
  end.

Definition ListAllMachines (providerName poolName : string) (useLock : bool) : M (list machine) :=
  keys <- rcall (λ _, EMsg "failed to retrieve machine state keys")
            (CSMembers (ProviderMachineIndex providerName poolName)) ;;
  ms <~ list_machines providerName poolName useLock keys ;; ok ms.

(** [ticks]: the ticks of the one-second ticker before the five minutes are over. *)
Fixpoint WaitForMachineRegistration (ticks : nat) (providerName poolName machineId : string)
    : M ProviderMachineState :=
  match ticks with
  | O => fail (EMsg ("timeout waiting for machine registration for " +:+ machineId))
  | S ticks' =>
      let stateKey := Keys.ProviderMachineState providerName poolName machineId in
      rcall (EWrap ("error checking machine state existence for " +:+ machineId)) (CExists stateKey) ;;
      res <- rcall (EWrap ("failed to get machine state for " +:+ machineId)) (CHGetAll stateKey) ;;
      if decide (res = ∅)
      then fail (EMsg ("machine state for " +:+ machineId +:+ " is invalid or empty"))
      else
        let state := to_struct res zeroMachineState in
        if negb (String.eqb (ms_Status state) MachineStatusReady)
        then WaitForMachineRegistration ticks' providerName poolName machineId
        else ok state
  end.

Section writes.
(** Unix time in seconds. *)
Context (now : Z).

Definition AddMachine (providerName poolName machineId : string) (machineInfo : ProviderMachineState)
    : M unit :=
  let stateKey := Keys.ProviderMachineState providerName poolName machineId in
  let machineInfo := mkMachineState machineId (ms_PoolName machineInfo) MachineStatusPending
    (ms_HostName machineInfo) (ms_Token machineInfo) (ms_Cpu machineInfo) (ms_Memory machineInfo)
    (ms_Gpu machineInfo) (ms_GpuCount machineInfo) (ms_RegistrationToken machineInfo)
    (ms_PrivateIP machineInfo) (fmt_int now) (ms_LastWorkerSeen machineInfo)
    (ms_LastKeepalive machineInfo) (ms_AutoConsolidate machineInfo) (ms_AgentVersion machineInfo) in
  rcall (EWrap ("failed to set machine state <" +:+ stateKey +:+ ">"))
    (CHSet stateKey (to_slice machineInfo)) ;;
  rcall (EWrap ("failed to set machine state ttl <" +:+ stateKey +:+ ">"))
    (CExpire stateKey (MachinePendingExpirationS * second)) ;;
  let machineIndexKey := ProviderMachineIndex providerName poolName in
  rcall (EWrap ("failed to add machine state key to index <" +:+ machineIndexKey +:+ ">"))
    (CSAdd machineIndexKey stateKey) ;;
  ok tt.

Definition SetMachineKeepAlive (providerName poolName machineId agentVersion : string)
    (metrics : ProviderMachineMetrics) : M unit :=
  let stateKey := Keys.ProviderMachineState providerName poolName machineId in
  let metricsKey := Keys.ProviderMachineMetrics providerName poolName machineId in
  r <~ getMachineStateFromKey stateKey ;;
  match r with
  | inl e => fail (EWrap ("failed to get machine state <" +:+ stateKey +:+ ">") e)
  | inr s =>
      let machineState := mkMachineState (ms_MachineId s) (ms_PoolName s) MachineStatusReady
        (ms_HostName s) (ms_Token s) (ms_Cpu s) (ms_Memory s) (ms_Gpu s) (ms_GpuCount s)
        (ms_RegistrationToken s) (ms_PrivateIP s) (ms_Created s) (ms_LastWorkerSeen s)
        (fmt_int now) (ms_AutoConsolidate s) agentVersion in
      rcall (EWrap ("failed to set machine state <" +:+ stateKey +:+ ">"))
        (CHSet stateKey (to_slice machineState)) ;;
      rcall (EWrap ("failed to set machine metrics <" +:+ metricsKey +:+ ">"))
        (CHSet metricsKey (to_slice metrics)) ;;
      rcall (EWrap ("failed to set machine state ttl <" +:+ stateKey +:+ ">"))
        (CExpire stateKey (MachineKeepaliveExpirationS * second)) ;;
      rcall (EWrap ("failed to set machine metrics ttl <" +:+ metricsKey +:+ ">"))
        (CExpire metricsKey (MachineKeepaliveExpirationS * second)) ;;
      ok tt
  end.

Definition SetLastWorkerSeen (providerName poolName machineId : string) : M unit :=
  let stateKey := Keys.ProviderMachineState providerName poolName machineId in
  r <~ getMachineStateFromKey stateKey ;;
  match r with
  | inl e => fail (EWrap ("failed to get machine state <" +:+ stateKey +:+ ">") e)
  | inr s =>
      let machineInfo := mkMachineState (ms_MachineId s) (ms_PoolName s) (ms_Status s)
        (ms_HostName s) (ms_Token s) (ms_Cpu s) (ms_Memory s) (ms_Gpu s) (ms_GpuCount s)
        (ms_RegistrationToken s) (ms_PrivateIP s) (ms_Created s) (fmt_int now)
        (ms_LastKeepalive s) (ms_AutoConsolidate s) (ms_AgentVersion s) in
      rcall (EWrap ("failed to set machine state <" +:+ stateKey +:+ ">"))
        (CHSet stateKey (to_slice machineInfo)) ;;
      ok tt
  end.

(** A machine that cannot be read starts from the pool's configuration. *)
Definition RegisterMachine (providerName poolName machineId : string)
    (newMachineInfo : ProviderMachineState) (poolGPUType : string) : M unit :=
  let stateKey := Keys.ProviderMachineState providerName poolName machineId in
  let machineIndexKey := ProviderMachineIndex providerName poolName in
  r <~ getMachineStateFromKey stateKey ;;
  s <- match r with
       | inr s => ok s
       | inl _ =>
           rcall (EWrap ("failed to add machine state key to index <" +:+ machineIndexKey +:+ ">"))
             (CSAdd machineIndexKey stateKey) ;;
           ok (mkMachineState machineId poolName "" "" "" 0 0 poolGPUType 0 "" "" (fmt_int now) ""
                 (fmt_int now) false "")
       end ;;
  let machineInfo := mkMachineState (ms_MachineId s) (ms_PoolName s) MachineStatusRegistered
    (ms_HostName newMachineInfo) (ms_Token newMachineInfo) (ms_Cpu newMachineInfo)
    (ms_Memory newMachineInfo) (ms_Gpu s) (ms_GpuCount newMachineInfo) (ms_RegistrationToken s)
    (ms_PrivateIP newMachineInfo) (ms_Created s) (ms_LastWorkerSeen s) (ms_LastKeepalive s)
    (ms_AutoConsolidate s) (ms_AgentVersion s) in
  rcall (EWrap ("failed to set machine state <" +:+ stateKey +:+ ">"))
    (CHSet stateKey (to_slice machineInfo)) ;;
  rcall (EWrap ("failed to set machine state ttl <" +:+ stateKey +:+ ">"))
    (CExpire stateKey (MachineKeepaliveExpirationS * second)) ;;
  ok tt.
End writes.

Definition SetMachineLock (providerName poolName machineId : string) : M unit :=
  Acquire "provider" (ProviderMachineLock providerName poolName machineId) 300 0.

Definition RemoveMachineLock (providerName poolName machineId : string) : M unit :=
  Release "provider" (ProviderMachineLock providerName poolName machineId).

(** ** GPUs of the pools: name, provider and GPU type of each pool *)

Record provider_pool := mkProviderPool {
  pp_name : string; pp_Provider : option string; pp_GPUType : string }.

Definition note_availability (m : gmap string bool) (mc : machine) : gmap string bool :=
  match mc_Metrics mc with
  | Some metrics => <[ms_Gpu (mc_State mc) := 0 <? mm_FreeGpuCount metrics]> m
  | None => m
  end.

Fixpoint gpu_availability (pools : list provider_pool) (acc : gmap string bool)
    : M (gmap string bool) :=
  match pools with
  | [] => ok acc
  | pool :: pools' =>
      match pp_Provider pool with
      | None => gpu_availability pools' acc
      | Some provider =>
          match acc !! pp_GPUType pool with
          | Some true => gpu_availability pools' acc
          | _ =>
              let acc := <[pp_GPUType pool := false]> acc in
              machines <- ListAllMachines provider (pp_name pool) false ;;
              gpu_availability pools' (foldl note_availability acc machines)
          end
      end
  end.

Definition GetGPUAvailability (pools : list provider_pool) : M (gmap string bool) :=
  gpu_availability pools ∅.

Definition count_free (m : gmap string Z) (mc : machine) : gmap string Z :=
  match mc_Metrics mc with
  | Some metrics =>
      let g := ms_Gpu (mc_State mc) in
      <[g := wrap_i64 (default 0 (m !! g) + mm_FreeGpuCount metrics)]> m
  | None => m
  end.

Fixpoint gpu_counts (pools : list provider_pool) (acc : gmap string Z) : M (gmap string Z) :=
  match pools with
  | [] => ok acc
  | pool :: pools' =>
      match pp_Provider pool with
      | None => gpu_counts pools' acc
      | Some provider =>
          machines <- ListAllMachines provider (pp_name pool) false ;;
          gpu_counts pools' (foldl count_free acc machines)
      end
  end.

Definition GetGPUCounts (pools : list provider_pool) : M (gmap string Z) :=
  gpu_counts pools zero_gpu_counts.
