(* ===== verification/ProviderProps.v ===== *)
(** * What the provider repository guarantees

    The life of a machine from its creation to its first keep-alive, and what a
    listing does to a machine it cannot read. *)

From S2P Require Import Prelude GoStd Redis Keys Types Codec Lock Env WorkerRepo PoolSizing PoolHealth ProviderRepo.

Local Open Scope Z_scope.
Set Default Proof Using "Type".

(** ** Structs and keys *)

Definition machine_state_ok (s : ProviderMachineState) : Prop :=
  in_i64 (ms_Cpu s) /\ in_i64 (ms_Memory s) /\ in_u32 (ms_GpuCount s).

Definition metrics_ok (s : ProviderMachineMetrics) : Prop := Forall (λ f, gval_ok f.2) (fields s).

Lemma machine_state_hash_roundtrip (s out : ProviderMachineState) h :
  machine_state_ok s -> to_struct (hset_fields (to_slice s) h) out = s.
Proof.
  intros (H1 & H2 & H3). unfold to_struct, to_slice.
  rewrite ToStruct_hset_ToSlice; [by destruct s| | |].
  - repeat constructor.
  - repeat first [exact (Forall_nil_2 _) | apply Forall_cons_2; [done|]].
  - nodup_tags.
Qed.

Lemma metrics_hash_roundtrip (s out : ProviderMachineMetrics) h :
  metrics_ok s -> to_struct (hset_fields (to_slice s) h) out = s.
Proof.
  intros H. unfold to_struct, to_slice.
  rewrite ToStruct_hset_ToSlice; [by destruct s| |exact H|].
  - repeat constructor.
  - nodup_tags.
Qed.

Section machine.
Context (provider pool id : string).
Local Abbreviation stateKey := (Keys.ProviderMachineState provider pool id).
Local Abbreviation metricsKey := (Keys.ProviderMachineMetrics provider pool id).
Local Abbreviation indexKey := (ProviderMachineIndex provider pool).

Ltac provider_keys :=
  unfold Keys.ProviderMachineState, Keys.ProviderMachineMetrics, ProviderMachineIndex,
    providerMachineState, providerMachineMetrics, providerMachineIndex; simpl.

Lemma state_ne_index : id <> "machine_index" -> stateKey <> indexKey.
Proof. intros Hid. provider_keys. intros H. simplify_eq. by rewrite str_app_nil_r in *. Qed.

Lemma state_ne_metrics : stateKey <> metricsKey.
Proof. provider_keys. intros H. by simplify_eq. Qed.

Lemma metrics_ne_index : metricsKey <> indexKey.
Proof.
  provider_keys. intros H. simplify_eq. 
  assert (no_colon (id +:+ ":metrics") = false) as Hc.
  { rewrite no_char_app. simpl. apply andb_false_r. }
  rewrite H in Hc. done.
Qed.

(** The machine's hash holds [s]. *)
Definition has_state (d : rdb) (s : ProviderMachineState) : Prop :=
  machine_state_ok s /\ exists h, kv d !! stateKey = Some (RVHash (hset_fields (to_slice s) h)).

Lemma has_state_ext d d' s : kv d' !! stateKey = kv d !! stateKey -> has_state d s -> has_state d' s.
Proof. intros H [Hok [h Hh]]. split; [done|]. exists h. by rewrite H. Qed.

Lemma hash_nonempty (s : ProviderMachineState) h : hset_fields (to_slice s) h <> ∅.
Proof.
  intros E. assert (hset_fields (to_slice s) h !! "agent_version" = Some (ms_AgentVersion s)) as H.
  { apply hset_fields_in; [nodup_tags|]. apply (ToSlice_in _ _ (GString (ms_AgentVersion s))); [|done].
    by apply (list_elem_of_lookup_2 _ 15). }
  rewrite E in H. done.
Qed.

Lemma rwp_rcall_exists k (d : rdb) (L : lmap) (Q : gerr + Z -> rdb -> lmap -> Prop) w :
  Q (inr (if exists_kv k d then 1 else 0)) d L -> rwp (rcall w (CExists k)) Q d L.
Proof.
  intros HQ. wp_call; [by destruct H as [-> ->]|].
  destruct H as [_ Hno]. exfalso. by eapply (Hno _ d).
Qed.

Lemma rwp_rcall_hgetall k (d : rdb) (L : lmap) (Q : gerr + gmap string string -> rdb -> lmap -> Prop) w h :
  as_hash (kv d !! k) = Some h -> Q (inr h) d L -> rwp (rcall w (CHGetAll k)) Q d L.
Proof.
  intros Hh HQ. wp_call.
  - destruct H as [H ->]. rewrite Hh in H. by injection H as <-.
  - destruct H as [_ Hno]. exfalso. by eapply (Hno h d).
Qed.

Lemma rwp_rcall_hset k fs (d : rdb) (L : lmap) (Q : gerr + unit -> rdb -> lmap -> Prop) w h :
  as_hash (kv d !! k) = Some h -> fs <> [] ->
  Q (inr tt) (set_kv k (RVHash (hset_fields fs h)) d) L -> rwp (rcall w (CHSet k fs)) Q d L.
Proof.
  intros Hh Hfs HQ. wp_call.
  - destruct H as (h' & _ & H & ->). rewrite Hh in H. injection H as <-. by destruct r.
  - destruct H as [_ Hno]. exfalso. eapply (Hno tt). by exists h.
Qed.

Lemma rwp_rcall_expire k e (d : rdb) (L : lmap) (Q : gerr + unit -> rdb -> lmap -> Prop) w :
  0 < e -> (forall d', kv d' = kv d -> Q (inr tt) d' L) -> rwp (rcall w (CExpire k e)) Q d L.
Proof.
  intros He HQ. wp_call.
  - simpl in H. subst. destruct r. apply HQ. case_match; [|done].
    by rewrite (proj2 (Z.leb_gt _ _)).
  - destruct H as [_ Hno]. exfalso. by eapply (Hno tt).
Qed.

Lemma rwp_rcall_sadd k m (d : rdb) (L : lmap) (Q : gerr + unit -> rdb -> lmap -> Prop) w X :
  as_set (kv d !! k) = Some X -> Q (inr tt) (set_kv k (RVSet ({[m]} ∪ X)) d) L ->
  rwp (rcall w (CSAdd k m)) Q d L.
Proof.
  intros HX HQ. wp_call.
  - destruct H as (X' & H & ->). rewrite HX in H. injection H as <-. by destruct r.
  - destruct H as [_ Hno]. exfalso. eapply (Hno tt). by exists X.
Qed.

(** Reading a machine that is there. *)
Lemma rwp_getMachineStateFromKey (d : rdb) (L : lmap) Q s :
  has_state d s -> Q (inr s) d L -> rwp (getMachineStateFromKey stateKey) Q d L.
Proof.
  intros [Hok [h Hh]] HQ. unfold getMachineStateFromKey. wp_bind. apply rwp_rcall_exists.
  unfold exists_kv. rewrite Hh, bool_decide_true by eauto. simpl. wp_bind.
  eapply rwp_rcall_hgetall; [by rewrite Hh|]. cbn. rewrite machine_state_hash_roundtrip by done. exact HQ.
Qed.

(** Writing the machine's hash. *)
Lemma rwp_hset_state (d : rdb) (L : lmap) (Q : gerr + unit -> rdb -> lmap -> Prop) w s h :
  as_hash (kv d !! stateKey) = Some h -> machine_state_ok s ->
  (forall d', has_state d' s -> eq_except {[stateKey]} d d' -> Q (inr tt) d' L) ->
  rwp (rcall w (CHSet stateKey (to_slice s))) Q d L.
Proof.
  intros Hh Hok HQ. eapply rwp_rcall_hset; [exact Hh|done|]. apply HQ.
  - split; [done|]. exists h. simpl. apply lookup_insert_eq.
  - apply eq_except_set_kv. by apply elem_of_singleton.
Qed.

Lemma has_state_hash d s : has_state d s -> exists h, as_hash (kv d !! stateKey) = Some h.
Proof. intros [_ [h Hh]]. rewrite Hh. eauto. Qed.
End machine.

(** ** The life of a machine *)

Section life.
Context (provider pool id : string) (Hid : id <> "machine_index").
Local Abbreviation stateKey := (Keys.ProviderMachineState provider pool id).
Local Abbreviation metricsKey := (Keys.ProviderMachineMetrics provider pool id).
Local Abbreviation indexKey := (ProviderMachineIndex provider pool).
Local Abbreviation holds := (has_state provider pool id).

(** The keys of the machine hold what their commands expect. *)
Definition machine_keys (d : rdb) (X : gset string) : Prop :=
  (exists h, as_hash (kv d !! stateKey) = Some h) /\ (exists h, as_hash (kv d !! metricsKey) = Some h) /\
  as_set (kv d !! indexKey) = Some X.

Lemma machine_keys_ext d d' X s :
  eq_except {[stateKey]} d d' -> holds d' s -> machine_keys d X -> machine_keys d' X.
Proof using Hid.
  intros He Hs (_ & Hm & HX). split; [by eapply has_state_hash|].
  pose proof (state_ne_metrics provider pool id). pose proof (state_ne_index provider pool id Hid).
  rewrite !(eq_except_kv _ _ _ _ He) by (rewrite elem_of_singleton; auto). done.
Qed.

(** A write of the state, and a write that keeps the contents. *)
Lemma machine_keys_same d d' X : kv d' = kv d -> machine_keys d X -> machine_keys d' X.
Proof. intros H. unfold machine_keys. by rewrite H. Qed.

Definition pending_machine (now : Z) (info : ProviderMachineState) : ProviderMachineState :=
  mkMachineState id (ms_PoolName info) MachineStatusPending (ms_HostName info) (ms_Token info)
    (ms_Cpu info) (ms_Memory info) (ms_Gpu info) (ms_GpuCount info) (ms_RegistrationToken info)
    (ms_PrivateIP info) (fmt_int now) (ms_LastWorkerSeen info) (ms_LastKeepalive info)
    (ms_AutoConsolidate info) (ms_AgentVersion info).

Lemma rwp_AddMachine now info d L X :
  machine_keys d X -> machine_state_ok info ->
  rwp (AddMachine now provider pool id info) (λ r d' _,
    r = inr tt /\ holds d' (pending_machine now info) /\ machine_keys d' ({[stateKey]} ∪ X)) d L.
Proof using Hid.
  intros Hk Hok. pose proof Hk as ([h Hh] & _). unfold AddMachine. wp_bind.
  eapply rwp_hset_state; [exact Hh|exact Hok|]. intros d1 Hs1 He1.
  eapply machine_keys_ext in Hk; [|done..]. wp_bind.
  apply rwp_rcall_expire; [done|]. intros d2 E2. apply (machine_keys_same _ d2) in Hk; [|done].
  wp_bind. eapply rwp_rcall_sadd; [apply Hk|]. cbn.
  pose proof (state_ne_index provider pool id Hid). pose proof (metrics_ne_index provider pool id).
  assert (forall k v, k <> indexKey -> kv (set_kv indexKey v d2) !! k = kv d2 !! k) as Hne
    by (intros; simpl; by apply lookup_insert_ne).
  split; [done|]. split.
  - eapply has_state_ext; [|exact Hs1]. rewrite Hne by done. by rewrite E2.
  - destruct Hk as (? & ? & ?). split; [by rewrite Hne|]. split; [by rewrite Hne|].
    simpl. by rewrite lookup_insert_eq.
Qed.

Definition registered_machine (s new : ProviderMachineState) : ProviderMachineState :=
  mkMachineState (ms_MachineId s) (ms_PoolName s) MachineStatusRegistered (ms_HostName new)
    (ms_Token new) (ms_Cpu new) (ms_Memory new) (ms_Gpu s) (ms_GpuCount new)
    (ms_RegistrationToken s) (ms_PrivateIP new) (ms_Created s) (ms_LastWorkerSeen s)
    (ms_LastKeepalive s) (ms_AutoConsolidate s) (ms_AgentVersion s).

Lemma rwp_RegisterMachine now new gpu d L X s :
  holds d s -> machine_keys d X -> machine_state_ok new ->
  rwp (RegisterMachine now provider pool id new gpu) (λ r d' _,
    r = inr tt /\ holds d' (registered_machine s new) /\ machine_keys d' X) d L.
Proof using Hid.
  intros Hs Hk Hok. pose proof Hk as ([h Hh] & _). unfold RegisterMachine.
  apply wp_pbind. eapply rwp_getMachineStateFromKey; [exact Hs|]. wp_bind. cbn.
  wp_bind. eapply rwp_hset_state; [exact Hh|exact Hok|]. intros d1 Hs1 He1.
  eapply machine_keys_ext in Hk; [|done..]. wp_bind.
  apply rwp_rcall_expire; [done|]. intros d2 E2. split; [done|].
  split; [eapply has_state_ext; [by rewrite E2|exact Hs1]|by eapply machine_keys_same].
Qed.

Definition ready_machine (now : Z) (agent : string) (s : ProviderMachineState) : ProviderMachineState :=
  mkMachineState (ms_MachineId s) (ms_PoolName s) MachineStatusReady (ms_HostName s) (ms_Token s)
    (ms_Cpu s) (ms_Memory s) (ms_Gpu s) (ms_GpuCount s) (ms_RegistrationToken s)
    (ms_PrivateIP s) (ms_Created s) (ms_LastWorkerSeen s) (fmt_int now) (ms_AutoConsolidate s) agent.

Definition holds_metrics (d : rdb) (m : ProviderMachineMetrics) : Prop :=
  exists h, kv d !! metricsKey = Some (RVHash (hset_fields (to_slice m) h)).

Lemma rwp_SetMachineKeepAlive now agent metrics d L X s :
  holds d s -> machine_keys d X -> metrics_ok metrics ->
  rwp (SetMachineKeepAlive now provider pool id agent metrics) (λ r d' _,
    r = inr tt /\ holds d' (ready_machine now agent s) /\ holds_metrics d' metrics /\
    as_set (kv d' !! indexKey) = Some X) d L.
Proof using Hid.
  intros Hs Hk Hok. pose proof Hk as ([h Hh] & _). unfold SetMachineKeepAlive.
  apply wp_pbind. eapply rwp_getMachineStateFromKey; [exact Hs|]. wp_bind.
  eapply rwp_hset_state; [exact Hh|exact (proj1 Hs)|]. intros d1 Hs1 He1.
  eapply machine_keys_ext in Hk; [|done..]. pose proof Hk as (_ & [hm Hm] & HX). wp_bind.
  eapply rwp_rcall_hset; [exact Hm|done|]. wp_bind.
  apply rwp_rcall_expire; [done|]. intros d2 E2. wp_bind. apply rwp_rcall_expire; [done|]. intros d3 E3.
  pose proof (state_ne_metrics provider pool id). pose proof (metrics_ne_index provider pool id).
  split; [done|]. unfold holds_metrics. rewrite E3, E2. simpl. split.
  { eapply has_state_ext; [|exact Hs1]. rewrite E3, E2. simpl. by apply lookup_insert_ne. }
  split; [exists hm; by rewrite lookup_insert_eq|]. by rewrite lookup_insert_ne.
Qed.

Lemma rwp_GetMachine d L (Q : gerr + machine -> rdb -> lmap -> Prop) s m :
  holds d s -> holds_metrics d m -> metrics_ok m ->
  Q (inr (mkMachine s (Some m))) d L -> rwp (GetMachine provider pool id) Q d L.
Proof.
  intros [Hs [h Hh]] [hm Hm] Hok HQ. unfold GetMachine. wp_bind.
  eapply rwp_rcall_hgetall; [by rewrite Hh|]. rewrite decide_False by apply hash_nonempty.
  rewrite machine_state_hash_roundtrip by done. unfold with_metrics. apply wp_pbind, wp_pbind.
  unfold getMachineMetrics. wp_bind. apply rwp_rcall_exists.
  unfold exists_kv. rewrite Hm, bool_decide_true by eauto. simpl. wp_bind.
  eapply rwp_rcall_hgetall; [by rewrite Hm|]. cbn. rewrite metrics_hash_roundtrip by done. exact HQ.
Qed.
End life.

(** A machine that is created, registers itself and sends a keep-alive is read back as
    ready, with the GPU type and registration token of its creation, the host, token,
    address and capacity of its registration, the agent version, time and metrics of
    its keep-alive; its state key is in the pool's index. *)
Theorem machine_lifecycle `{S : RedisServer, SL : !RedisLaws S} (I : srv -> Prop)
    (provider pool id agent gpu : string) (now1 now2 now3 : Z) (info new : ProviderMachineState)
    (metrics : ProviderMachineMetrics) (s : srv) (L : lmap) (X : gset string) :
  reliable I -> I s -> id <> "machine_index" ->
  machine_keys provider pool id (view s) X ->
  machine_state_ok info -> machine_state_ok new -> metrics_ok metrics ->
  ends (AddMachine now1 provider pool id info ;; RegisterMachine now2 provider pool id new gpu ;;
        SetMachineKeepAlive now3 provider pool id agent metrics ;; GetMachine provider pool id) s L
    (λ r d,
      r = inr (mkMachine
        (mkMachineState id (ms_PoolName info) MachineStatusReady (ms_HostName new) (ms_Token new)
          (ms_Cpu new) (ms_Memory new) (ms_Gpu info) (ms_GpuCount new) (ms_RegistrationToken info)
          (ms_PrivateIP new) (fmt_int now1) (ms_LastWorkerSeen info) (fmt_int now3)
          (ms_AutoConsolidate info) agent) (Some metrics)) /\
      as_set (kv d !! ProviderMachineIndex provider pool) =
        Some ({[Keys.ProviderMachineState provider pool id]} ∪ X)).
Proof.
  intros HR HI Hid Hk Hi Hn Hm. apply (ends_rwp I); [done..|].
  wp_bind. eapply wp_mono; [|by apply rwp_AddMachine]. intros r1 d1 L1 (-> & Hs1 & Hk1).
  wp_bind. eapply wp_mono; [|by eapply rwp_RegisterMachine]. intros r2 d2 L2 (-> & Hs2 & Hk2).
  wp_bind. eapply wp_mono; [|by eapply rwp_SetMachineKeepAlive]. intros r3 d3 L3 (-> & Hs3 & Hm3 & HX3).
  by eapply rwp_GetMachine.
Qed.

Definition ex_machine : ProviderMachineState :=
  mkMachineState "" "gpu" "" "" "" 0 0 "A10G" 0 "reg" "" "" "" "" true "".
Definition ex_registration : ProviderMachineState :=
  mkMachineState "" "" "" "host-1" "tok" 32000 64000 "" 4 "" "10.0.0.7" "" "" "" false "".
Definition ex_metrics : ProviderMachineMetrics :=
  mkMachineMetrics 32000 64000 100 "12.5" "1e-05" 50 1 2 3 "0" 0 0 "0".

Lemma machine_lifecycle_witness :
  ends (AddMachine 1 "ec2" "gpu" "m1" ex_machine ;; RegisterMachine 2 "ec2" "gpu" "m1" ex_registration "A10G" ;;
        SetMachineKeepAlive 3 "ec2" "gpu" "m1" "v1" ex_metrics ;; GetMachine "ec2" "gpu" "m1")
    (on empty_rdb) ∅
    (λ r d,
      r = inr (mkMachine
        (mkMachineState "m1" "gpu" "ready" "host-1" "tok" 32000 64000 "A10G" 4 "reg" "10.0.0.7" "1" "" "3"
           true "v1") (Some ex_metrics)) /\
      as_set (kv d !! ProviderMachineIndex "ec2" "gpu") =
        Some ({[Keys.ProviderMachineState "ec2" "gpu" "m1"]} ∪ ∅)).
Proof.
  refine (machine_lifecycle (λ s, ref_faults s = []) "ec2" "gpu" "m1" "v1" "A10G" 1 2 3 ex_machine
    ex_registration ex_metrics (on empty_rdb) ∅ ∅ ref_reliable eq_refl _ _ _ _ _).
  - done.
  - repeat split; eexists; reflexivity.
  - repeat split; done.
  - repeat split; done.
  - repeat constructor; done.
Defined.

(** ** Listing *)

Lemma last_segment_machine provider pool id :
  no_colon id = true -> last_segment (Keys.ProviderMachineState provider pool id) = id.
Proof.
  intros H. unfold Keys.ProviderMachineState, providerMachineState. simpl. rewrite str_app_nil_r.
  transitivity (last_segment (("provider:machine:" +:+ provider +:+ ":" +:+ pool) +:+ String colon id));
    [|by apply last_segment_app].
  f_equal. by rewrite !str_app_assoc.
Qed.

Lemma rwp_RemoveMachine provider pool id d L X :
  id <> "machine_index" -> as_set (kv d !! ProviderMachineIndex provider pool) = Some X ->
  rwp (RemoveMachine provider pool id) (λ r d' _,
    r = inr tt /\ kv d' !! Keys.ProviderMachineState provider pool id = None /\
    as_set (kv d' !! ProviderMachineIndex provider pool) =
      Some (X ∖ {[Keys.ProviderMachineState provider pool id]})) d L.
Proof.
  intros Hid HX. unfold RemoveMachine. set (k := Keys.ProviderMachineState provider pool id). wp_bind. wp_call.
  2: { destruct H as [_ Hno]. exfalso. eapply (Hno tt). by exists X. }
  destruct H as (X' & H & ->). rewrite HX in H. injection H as <-. wp_bind. wp_call.
  2: { destruct H as [_ Hno]. exfalso. by eapply (Hno 0). }
  simpl in H. subst. split; [done|]. split; [simpl; apply lookup_delete_eq|].
  simpl. rewrite lookup_delete_ne by by apply state_ne_index.
  unfold set_or_del. case_decide as E; simpl.
  - rewrite lookup_delete_eq. by rewrite E.
  - by rewrite lookup_insert_eq.
Qed.

Lemma run_mbind_rcall `{S : RedisServer} {R A} w (c : rcmd R) (f : R -> M A) s L :
  run (mbind (rcall w c) f) s L =
  let '(r, s') := exec c s in
  match r with inl e => (inl (w (ERedis e)), s', L) | inr a => run (f a) s' L end.
Proof.
  unfold mbind, rcall. rewrite !run_pbind. unfold cmd. cbn [run].
  by destruct (exec c s) as [[e|a] s'].
Qed.

(** One failed command is enough for a listing to forget a machine: when the check that
    its state exists fails (a timeout, say), [ListAllMachines] leaves the machine out,
    deletes its state and takes it off the pool's index, although the state is there. *)
Theorem listing_drops_unreadable_machine `{S : RedisServer, SL : !RedisLaws S} (I : srv -> Prop)
    (provider pool id : string) (s s1 s2 : srv) (e : rerr) (L : lmap) (X : gset string) :
  let key := Keys.ProviderMachineState provider pool id in
  let index := ProviderMachineIndex provider pool in
  no_colon id = true -> id <> "machine_index" ->
  exec (CSMembers index) s = (inr [key], s1) -> exec (CExists key) s1 = (inl e, s2) ->
  reliable I -> I s2 -> as_set (kv (view s2) !! index) = Some X ->
  ends (ListAllMachines provider pool false) s L (λ r d,
    r = inr [] /\ kv d !! key = None /\ as_set (kv d !! index) = Some (X ∖ {[key]})).
Proof.
  intros key index Hc Hid E1 E2 HR HI HX.
  assert (ends (RemoveMachine provider pool id ;~ Ret (inr [] : gerr + list machine)) s2 L (λ r d,
    r = inr [] /\ kv d !! key = None /\ as_set (kv d !! index) = Some (X ∖ {[key]}))) as H.
  { apply (ends_rwp I); [done..|]. apply wp_pbind. eapply wp_mono; [|by apply rwp_RemoveMachine].
    intros r d L' (_ & H1 & H2). done. }
  unfold ends in *. unfold ListAllMachines. fold index. rewrite run_mbind_rcall, E1.
  rewrite run_pbind. cbn [list_machines]. unfold key in *. rewrite last_segment_machine by done.
  rewrite run_pbind. cbn [run ok]. rewrite run_pbind. unfold getMachineStateFromKey.
  rewrite run_mbind_rcall, E2. cbn [run fail]. rewrite run_pbind. rewrite run_pbind in H.
  destruct (run (RemoveMachine provider pool id) s2 L) as [[r s3] L3]. cbn [run] in *.
  rewrite run_pbind. cbn [run]. exact H.
Qed.

(** A pool with one ready machine; the second command of the listing times out. *)
Definition ex_machine_db : rdb :=
  mkRdb {[ Keys.ProviderMachineState "ec2" "gpu" "m1" := RVHash (hset_fields (to_slice ex_registration) ∅);
           ProviderMachineIndex "ec2" "gpu" := RVSet {[Keys.ProviderMachineState "ec2" "gpu" "m1"]} ]} ∅.

Lemma listing_drops_unreadable_machine_witness :
  let s := mkRef ex_machine_db 0 [NoFault; FailBefore] in
  is_Some (kv (view s) !! Keys.ProviderMachineState "ec2" "gpu" "m1") /\
  ends (ListAllMachines "ec2" "gpu" false) s ∅ (λ r d,
    r = inr [] /\ kv d !! Keys.ProviderMachineState "ec2" "gpu" "m1" = None /\
    as_set (kv d !! ProviderMachineIndex "ec2" "gpu") =
      Some ({[Keys.ProviderMachineState "ec2" "gpu" "m1"]} ∖ {[Keys.ProviderMachineState "ec2" "gpu" "m1"]})).
Proof.
  split; [vm_compute; eauto|].
  refine (listing_drops_unreadable_machine (λ s, ref_faults s = []) "ec2" "gpu" "m1"
    (mkRef ex_machine_db 0 [NoFault; FailBefore]) (mkRef ex_machine_db 1 [FailBefore])
    (mkRef ex_machine_db 1 []) (RErr "connection") ∅ {[Keys.ProviderMachineState "ec2" "gpu" "m1"]}
    eq_refl _ _ eq_refl ref_reliable eq_refl eq_refl).
  - done.
  - vm_compute. reflexivity.
Defined.
