(* ===== verification/Primitives.v ===== *)
(** * Distributed queues, maps and signals

    The data structures that user code shares between containers:
    pkg/abstractions/queue/simplequeue_redis.go, pkg/abstractions/map/map_redis.go and
    pkg/abstractions/experimental/signal/signal_redis.go.  A method of a gRPC service
    returns its response and an [error]; the workspace is that of the caller's token. *)

From S2P Require Import Prelude GoStd Redis Keys Types Lock Env ContainerRepo.

Local Open Scope Z_scope.
Set Default Proof Using "Type".

(** ** Scans (pkg/common/redis.go)

    The client of the gateway is one of a cluster or of a single node; [reported] are the
    keys that an iteration over the server's keys has reported when it fails. *)
Class RedisMode := {
  cluster : bool;
  reported : string -> list string;
}.

(** Each key is reported once. *)
Fixpoint dedup_keys (seen : gset string) (l : list string) : list string :=
  match l with
  | [] => []
  | k :: l' => if bool_decide (k ∈ seen) then dedup_keys seen l' else k :: dedup_keys ({[k]} ∪ seen) l'
  end.

(** The error of a single node is dropped.  That of a cluster is sent on a channel that
    nobody reads before the channel of the keys is closed, which happens afterwards: the
    call is blocked for ever, which [None] shows. *)
Definition Scan `{RM : RedisMode} (pattern : string) : prog (option (gerr + list string)) :=
  r <~ cmd (CScan pattern) ;;
  Ret (match r with
       | inr l => Some (inr (dedup_keys ∅ l))
       | inl _ => if cluster then None else Some (inr (dedup_keys ∅ (reported pattern)))
       end).

(** What a caller makes of the keys. *)
Definition scanned {A} (f : list string -> A) (r : option (gerr + list string)) : option (gerr + A) :=
  match r with
  | None => None
  | Some (inl err) => Some (inl err)
  | Some (inr keys) => Some (inr (f keys))
  end.

(** ** Simple queues *)

Module SimpleQueue.

Definition queueName : string := "simplequeue:%s:%s".
Definition SimpleQueueName (workspaceName name : string) : string := sprintf queueName [workspaceName; name].

Section service.
Context (workspaceName : string).

(** The [Ok] of the response. *)
Definition SimpleQueuePut (name value : string) : prog bool :=
  r <~ cmd (CRPush (SimpleQueueName workspaceName name) value) ;;
  Ret (match r with inl _ => false | inr _ => true end).

(** [Ok] and [Value]. *)
Definition SimpleQueuePop (name : string) : prog (bool * string) :=
  r <~ cmd (CLPop (SimpleQueueName workspaceName name)) ;;
  Ret (match r with
       | inr None => (true, "")
       | inl _ => (false, "")
       | inr (Some value) => (true, value)
       end).

Definition SimpleQueuePeek (name : string) : prog (bool * string) :=
  r <~ cmd (CLRange (SimpleQueueName workspaceName name) 0 0) ;;
  Ret (match r with
       | inl _ => (false, "")
       | inr res => (true, match res with v :: _ => v | [] => "" end)
       end).

(** [Ok] and [Empty]. *)
Definition SimpleQueueEmpty (name : string) : prog (bool * bool) :=
  r <~ cmd (CLLen (SimpleQueueName workspaceName name)) ;;
  Ret (match r with
       | inl _ => (false, false)
       | inr length => if 0 <? length then (true, false) else (true, true)
       end).

(** [Ok] and [Size]. *)
Definition SimpleQueueSize (name : string) : prog (bool * Z) :=
  r <~ cmd (CLLen (SimpleQueueName workspaceName name)) ;;
  Ret (match r with inl _ => (false, 0) | inr length => (true, wrap_u64 length) end).
End service.
End SimpleQueue.

(** ** Maps *)

Module DMap.

Definition maxMapValueSize : Z := 1024 * 1024 + 13.
Definition maxMapValueTtls : Z := 7 * 24 * 3600 * second.
Definition mapEntry : string := "map:%s:%s:%s".
Definition MapEntry (workspaceName name key : string) : string := sprintf mapEntry [workspaceName; name; key].

Section service.
Context (workspaceName : string).

(** [time.Duration(in.Ttl)*time.Second] *)
Definition ttl_duration (ttl : Z) : Z := wrap_i64 (ttl * second).

(** [Ok] and [ErrMsg]; go-redis sets no expiry for a duration that is not positive. *)
Definition MapSet (name key value : string) (ttl : Z) : prog (bool * string) :=
  if maxMapValueSize <? Z.of_nat (String.length value)
  then Ret (false, "Value cannot be larger than 1 MiB")
  else if maxMapValueTtls <? ttl_duration ttl
  then Ret (false, "TTL cannot be longer than 1 week")
  else
    r <~ cmd (CSet (MapEntry workspaceName name key) value (Z.max 0 (ttl_duration ttl))) ;;
    Ret (match r with inl _ => (false, "") | inr _ => (true, "") end).

(** [Ok] and [Value]. *)
Definition MapGet (name key : string) : prog (bool * option string) :=
  r <~ cmd (CGet (MapEntry workspaceName name key)) ;;
  Ret (match r with
       | inr (Some value) => (true, Some value)
       | inr None | inl _ => (false, None)
       end).

Definition MapDelete (name key : string) : M unit :=
  rcall (λ e, e) (CDel [MapEntry workspaceName name key]) ;; ok tt.

Definition MapCount `{RM : RedisMode} (name : string) : prog (option (gerr + Z)) :=
  r <~ Scan (MapEntry workspaceName name "*") ;;
  Ret (scanned (λ keys, wrap_u32 (Z.of_nat (length keys))) r).

Definition MapKeys `{RM : RedisMode} (name : string) : prog (option (gerr + list string)) :=
  r <~ Scan (MapEntry workspaceName name "*") ;;
  Ret (scanned (λ keys, last_segment <$> keys) r).
End service.
End DMap.

(** ** Signals *)

Module Signal.

Definition signalDefaultSetTtlS : Z := 600.
Definition signalName : string := "signal:%s:%s".
Definition SignalName (workspaceName name : string) : string := sprintf signalName [workspaceName; name].

Section service.
Context (workspaceName : string).

Definition SignalSet (name : string) (ttl : Z) : prog bool :=
  let ttl := if ttl <=? 0 then signalDefaultSetTtlS else ttl in
  r <~ cmd (CSet (SignalName workspaceName name) "1" (Z.max 0 (wrap_i64 (ttl * second)))) ;;
  Ret (match r with inl _ => false | inr _ => true end).

Definition SignalClear (name : string) : prog bool :=
  r <~ cmd (CDel [SignalName workspaceName name]) ;;
  Ret (match r with inl _ => false | inr _ => true end).

(** One round of the monitor: the [Set] that is sent, or nothing when the value
    cannot be read. *)
Definition SignalMonitor (name : string) : prog (option bool) :=
  r <~ get_int (SignalName workspaceName name) ;;
  Ret (match r with
       | inr val => Some (val =? 1)
       | inl ERedisNil => Some false
       | inl _ => None
       end).
End service.
End Signal.
