(* ===== verification/PrimitivesProps.v ===== *)
(** * What queues and maps promise to user code

    A simple queue is a first-in first-out list and a distributed map is a finite map,
    on a reliable server and while no entry expires; the limit on the time to live of a
    map entry, and the requests that get around it. *)

From S2P Require Import Prelude GoStd Redis Keys Types Codec Lock Env ContainerRepo Primitives.

Local Open Scope Z_scope.
Set Default Proof Using "Type".

(** ** Scans *)

Lemma elem_of_dedup_keys seen l k : k ∈ dedup_keys seen l <-> k ∈ l /\ (k ∉ seen).
Proof.
  revert seen. induction l as [|x l IH]; intros seen; simpl; [set_solver|].
  case_bool_decide; [rewrite IH|rewrite elem_of_cons, IH]; destruct (decide (k = x)) as [->|]; set_solver.
Qed.

Lemma NoDup_dedup_keys seen l : NoDup (dedup_keys seen l).
Proof.
  revert seen. induction l as [|x l IH]; intros seen; simpl; [constructor|].
  case_bool_decide; [apply IH|]. constructor; [|apply IH]. rewrite elem_of_dedup_keys. set_solver.
Qed.

Lemma strip_suffix_star q : strip_suffix "*" (q +:+ "*") = Some q.
Proof.
  induction q as [|a q IH]; [done|].
  change (strip_suffix "*" (String a q +:+ "*"))
    with (if String.eqb (String a (q +:+ "*")) "*" then Some ""
          else String a <$> strip_suffix "*" (q +:+ "*")).
  destruct (String.eqb_spec (String a (q +:+ "*")) "*") as [E|_].
  - exfalso. injection E as _ E. by destruct q.
  - by rewrite IH.
Qed.

(** No character of [s] is special in a pattern. *)
Definition plain (s : string) : bool :=
  no_char "*" s && no_char "?" s && no_char "[" s && no_char "\" s.

Lemma glob_prefix_plain q : plain q = true -> glob_prefix (q +:+ "*") = Some q.
Proof. intros H. unfold glob_prefix. rewrite strip_suffix_star. unfold plain in H. by rewrite H. Qed.

Lemma plain_app a b : plain (a +:+ b) = plain a && plain b.
Proof. unfold plain. rewrite !no_char_app. repeat destruct (no_char _ _); done. Qed.

(** A scan for [q*] lists the keys that start with [q], each once. *)
Lemma rwp_Scan `{RM : RedisMode} q d L (Q : option (gerr + list string) -> rdb -> lmap -> Prop) :
  plain q = true ->
  (forall l, NoDup l -> (forall k, k ∈ l <-> is_Some (kv d !! k) /\ HasPrefix k q = true) ->
     Q (Some (inr l)) d L) ->
  rwp (Scan (q +:+ "*")) Q d L.
Proof.
  intros Hq HQ. unfold Scan. wp_bind. wp_call.
  - destruct H as [-> H]. apply HQ; [apply NoDup_dedup_keys|].
    intros k. rewrite elem_of_dedup_keys, (H q (glob_prefix_plain q Hq) k). set_solver.
  - destruct H as [_ Hno]. exfalso.
    eapply (Hno (filter (λ k, HasPrefix k q = true) (map_to_list (kv d)).*1) d). split; [done|].
    intros q' Hq' k. rewrite (glob_prefix_plain q Hq) in Hq'. injection Hq' as <-.
    rewrite list_elem_of_filter, list_elem_of_fmap. split.
    + intros (Hp & [k' v] & -> & Hk%elem_of_map_to_list). simpl in *. by eauto.
    + intros [[v Hv] Hp]. split; [done|]. exists (k, v). split; [done|]. by apply elem_of_map_to_list.
Qed.

(** ** The map service refines a finite map *)

Section dmap.
Import DMap.
Context `{RM : RedisMode} (ws name : string).
Hypothesis Hplain : plain ws = true /\ plain name = true.

Local Abbreviation entry := (MapEntry ws name).

Definition map_prefix : string := "map:" +:+ ws +:+ ":" +:+ name +:+ ":".

Lemma entry_prefix key : entry key = map_prefix +:+ key.
Proof.
  unfold MapEntry, mapEntry, map_prefix. simpl. rewrite str_app_nil_r.
  by rewrite !str_app_assoc.
Qed.

Lemma entry_inj k1 k2 : entry k1 = entry k2 -> k1 = k2.
Proof. rewrite !entry_prefix. apply (inj (String.append map_prefix)). Qed.

Lemma map_prefix_plain : plain map_prefix = true.
Proof using Hplain. unfold map_prefix. rewrite !plain_app. by destruct Hplain as [-> ->]. Qed.

Lemma last_segment_entry key : no_colon key = true -> last_segment (entry key) = key.
Proof.
  intros H. rewrite entry_prefix. unfold map_prefix.
  transitivity (last_segment (("map:" +:+ ws +:+ ":" +:+ name) +:+ String colon key));
    [|by apply last_segment_app].
  f_equal. by rewrite !str_app_assoc.
Qed.

Definition map_rel (d : rdb) (A : gmap string string) : Prop :=
  forall key, kv d !! entry key = RVStr <$> A !! key.

Inductive map_op :=
| OpSet (key value : string) (ttl : Z)
| OpGet (key : string)
| OpDelete (key : string)
| OpCount
| OpKeys.

Inductive map_resp :=
| RSet (okv : bool) (msg : string)
| RGet (okv : bool) (value : option string)
| RDelete (e : gerr + unit)
| RCount (n : option (gerr + Z))
| RKeys (keys : option (gerr + list string)).

Definition map_step (o : map_op) : prog map_resp :=
  match o with
  | OpSet key value ttl => r <~ MapSet ws name key value ttl ;; Ret (RSet r.1 r.2)
  | OpGet key => r <~ MapGet ws name key ;; Ret (RGet r.1 r.2)
  | OpDelete key => r <~ MapDelete ws name key ;; Ret (RDelete r)
  | OpCount => r <~ MapCount ws name ;; Ret (RCount r)
  | OpKeys => r <~ MapKeys ws name ;; Ret (RKeys r)
  end.

Fixpoint map_run (ops : list map_op) : prog (list map_resp) :=
  match ops with
  | [] => Ret []
  | o :: ops' => r <~ map_step o ;; rs <~ map_run ops' ;; Ret (r :: rs)
  end.

(** The finite map: what an operation answers and leaves. *)
Definition too_large (value : string) : Prop := maxMapValueSize < Z.of_nat (String.length value).
(** Seconds: one week. *)
Definition too_long (ttl : Z) : Prop := 604800 < ttl.

Inductive amap_step : gmap string string -> map_op -> map_resp -> gmap string string -> Prop :=
| a_set A key value ttl : ~ too_large value -> ~ too_long ttl ->
    amap_step A (OpSet key value ttl) (RSet true "") (<[key := value]> A)
| a_large A key value ttl : too_large value ->
    amap_step A (OpSet key value ttl) (RSet false "Value cannot be larger than 1 MiB") A
| a_long A key value ttl : ~ too_large value -> too_long ttl ->
    amap_step A (OpSet key value ttl) (RSet false "TTL cannot be longer than 1 week") A
| a_get A key value : A !! key = Some value -> amap_step A (OpGet key) (RGet true (Some value)) A
| a_miss A key : A !! key = None -> amap_step A (OpGet key) (RGet false None) A
| a_delete A key : amap_step A (OpDelete key) (RDelete (inr tt)) (delete key A)
| a_count A : amap_step A OpCount (RCount (Some (inr (wrap_u32 (Z.of_nat (size A)))))) A
| a_keys A l : l ≡ₚ (map_to_list A).*1 -> amap_step A OpKeys (RKeys (Some (inr l))) A.

Inductive amap_run : gmap string string -> list map_op -> list map_resp -> gmap string string -> Prop :=
| a_done A : amap_run A [] [] A
| a_then A o r A1 ops rs A2 :
    amap_step A o r A1 -> amap_run A1 ops rs A2 -> amap_run A (o :: ops) (r :: rs) A2.

(** The nanoseconds of a time to live fit 64 bits. *)
Definition op_ok (o : map_op) : Prop :=
  match o with
  | OpSet key _ ttl => no_colon key = true /\ - 9223372036 <= ttl <= 9223372036
  | _ => True
  end.
Definition colon_free (A : gmap string string) : Prop := forall key v, A !! key = Some v -> no_colon key = true.

(** The keys a scan finds are those of the map. *)
Lemma scan_keys d A l :
  map_rel d A -> NoDup l ->
  (forall k, k ∈ l <-> is_Some (kv d !! k) /\ HasPrefix k map_prefix = true) ->
  l ≡ₚ (entry <$> (map_to_list A).*1).
Proof using Hplain.
  intros Hr Hnd Hl. apply NoDup_Permutation; [done| |].
  - apply (NoDup_fmap_2_strong entry); [intros; by apply entry_inj|apply NoDup_fst_map_to_list].
  - intros k. rewrite Hl, list_elem_of_fmap. split.
    + intros [[v Hv] [key ->]%HasPrefix_spec]. rewrite <- entry_prefix in *. exists key. split; [done|].
      rewrite Hr in Hv. apply fmap_Some in Hv as (x & Hx & _).
      apply list_elem_of_fmap. exists (key, x). split; [done|]. by apply elem_of_map_to_list.
    + intros (key & -> & Hk). apply list_elem_of_fmap in Hk as ([key' x] & -> & Hx%elem_of_map_to_list).
      split; [rewrite Hr; simpl; rewrite Hx; eauto|].
      apply HasPrefix_spec. exists key'. apply entry_prefix.
Qed.

Lemma fmap_last_segment A : colon_free A -> last_segment <$> (entry <$> (map_to_list A).*1) = (map_to_list A).*1.
Proof.
  intros Hc. rewrite <- list_fmap_compose. transitivity (id <$> (map_to_list A).*1); [|apply list_fmap_id].
  apply list_fmap_ext. intros i key Hi. apply list_elem_of_lookup_2 in Hi.
  apply list_elem_of_fmap in Hi as ([key' x] & -> & Hx%elem_of_map_to_list).
  apply last_segment_entry. by eapply Hc.
Qed.

Lemma rwp_MapSet key value ttl d L A :
  map_rel d A -> colon_free A -> op_ok (OpSet key value ttl) ->
  rwp (map_step (OpSet key value ttl)) (λ r d' _,
    exists A', amap_step A (OpSet key value ttl) r A' /\ map_rel d' A' /\ colon_free A') d L.
Proof.
  intros Hr Hc [Hk Ht]. simpl. apply wp_pbind. unfold MapSet, ttl_duration, maxMapValueTtls, second.
  rewrite wrap_i_id by (done || unfold in_i; lia).
  destruct (Z.ltb_spec maxMapValueSize (Z.of_nat (String.length value))).
  { exists A. split; [by apply a_large|done]. }
  destruct (Z.ltb_spec (7 * 24 * 3600 * 10 ^ 9) (ttl * 10 ^ 9)).
  { exists A. split; [apply a_long; unfold too_large, too_long; lia|done]. }
  wp_bind. wp_call; [|by destruct H1 as [_ Hno]; exfalso; eapply (Hno tt); reflexivity].
  simpl in H1. subst. exists (<[key := value]> A).
  split; [apply a_set; unfold too_large, too_long; lia|]. split.
  - intros k. simpl. destruct (decide (key = k)) as [<-|].
    + by rewrite !lookup_insert_eq.
    + rewrite !lookup_insert_ne; [apply Hr|done|]. by intros ?%entry_inj.
  - intros k v. rewrite lookup_insert_Some. intros [[<- _]|[_ ?]]; [done|eauto].
Qed.

Lemma rwp_MapGet key d L A :
  map_rel d A -> colon_free A ->
  rwp (map_step (OpGet key)) (λ r d' _,
    exists A', amap_step A (OpGet key) r A' /\ map_rel d' A' /\ colon_free A') d L.
Proof.
  intros Hr Hc. simpl. apply wp_pbind. unfold MapGet. wp_bind. wp_call.
  - destruct H as [H ->]. rewrite Hr in H. exists A. split; [|done].
    destruct (A !! key) as [v|] eqn:E; simpl in H; injection H as <-; by constructor.
  - destruct H as [_ Hno]. exfalso. eapply (Hno (A !! key) d). split; [|done]. rewrite Hr.
    by destruct (A !! key).
Qed.

Lemma rwp_MapDelete key d L A :
  map_rel d A -> colon_free A ->
  rwp (map_step (OpDelete key)) (λ r d' _,
    exists A', amap_step A (OpDelete key) r A' /\ map_rel d' A' /\ colon_free A') d L.
Proof.
  intros Hr Hc. simpl. apply wp_pbind. unfold MapDelete. wp_bind.
  wp_call; [|by destruct H as [_ Hno]; exfalso; eapply (Hno 0); reflexivity].
  simpl in H. subst. exists (delete key A). split; [constructor|]. split.
  - intros k. simpl. destruct (decide (key = k)) as [<-|].
    + by rewrite !lookup_delete_eq.
    + rewrite !lookup_delete_ne; [apply Hr|done|]. by intros ?%entry_inj.
  - intros k v [_ ?]%lookup_delete_Some. eauto.
Qed.

Lemma map_step_refines o d L A :
  map_rel d A -> colon_free A -> op_ok o ->
  rwp (map_step o) (λ r d' _, exists A', amap_step A o r A' /\ map_rel d' A' /\ colon_free A') d L.
Proof using Hplain.
  intros Hr Hc Ho. destruct o; [by apply rwp_MapSet|by apply rwp_MapGet|by apply rwp_MapDelete|..];
    cbn [map_step]; apply wp_pbind; [unfold MapCount|unfold MapKeys];
    rewrite entry_prefix; wp_bind; (apply rwp_Scan; [apply map_prefix_plain|]);
    intros l Hnd Hl; pose proof (scan_keys d A l Hr Hnd Hl) as Hp; (exists A; split; [|done]); cbn [scanned].
  - rewrite Hp, !length_fmap, length_map_to_list. constructor.
  - constructor. rewrite Hp. by rewrite fmap_last_segment.
Qed.

Lemma map_run_refines ops d L A :
  map_rel d A -> colon_free A -> Forall op_ok ops ->
  rwp (map_run ops) (λ rs d' _, exists A', amap_run A ops rs A' /\ map_rel d' A') d L.
Proof using Hplain.
  intros Hr Hc Ho. revert d L A Hr Hc. induction Ho as [|o ops Ho _ IH]; intros d L A Hr Hc.
  { exists A. split; [constructor|done]. }
  cbn [map_run]. apply wp_pbind. eapply wp_mono; [|by apply map_step_refines].
  intros r d1 L1 (A1 & Hs & Hr1 & Hc1). apply wp_pbind. eapply wp_mono; [|by apply IH].
  intros rs d2 L2 (A2 & Hrun & Hr2). exists A2. split; [by econstructor|done].
Qed.
End dmap.

(** C34. The map service refines a finite map: on a Redis server that does not fail and while
    no entry expires, for a workspace and a map whose names have no glob characters, keys
    without colons and times to live whose nanoseconds fit 64 bits, every sequence of set,
    get, delete, count and keys requests is answered as a finite map would (values of
    more than the size limit and times to live of more than 604800 seconds, one week, are
    refused and change nothing).  Times to live outside that range wrap around and may be
    accepted. *)
Theorem map_service_refines_map `{S : RedisServer, SL : !RedisLaws S, RM : RedisMode} (I : srv -> Prop)
    (ws name : string) (ops : list map_op) (s : srv) (L : lmap) (A : gmap string string) :
  reliable I -> I s -> plain ws = true -> plain name = true ->
  map_rel ws name (view s) A -> colon_free A -> Forall op_ok ops ->
  ends (map_run ws name ops) s L (λ rs d, exists A', amap_run A ops rs A' /\ map_rel ws name d A').
Proof.
  intros HR HI Hw Hn Hr Hc Ho. apply (ends_rwp I); [done..|]. by apply map_run_refines.
Qed.

(** A client of a single node. *)
#[local] Instance ex_single_node : RedisMode := {| cluster := false; reported _ := [] |}.

Lemma map_service_refines_map_witness :
  let ops := [OpSet "k" "v" 60; OpSet "j" "w" 60; OpDelete "j"; OpGet "k"; OpGet "j"; OpCount; OpKeys] in
  (run (map_run "ws" "m" ops) (on empty_rdb) ∅).1.1 =
    [RSet true ""; RSet true ""; RDelete (inr tt); RGet true (Some "v"); RGet false None;
     RCount (Some (inr 1)); RKeys (Some (inr ["k"]))] /\
  ends (map_run "ws" "m" ops) (on empty_rdb) ∅
    (λ rs d, exists A', amap_run ∅ ops rs A' /\ map_rel "ws" "m" d A').
Proof.
  intros ops. split; [vm_compute; reflexivity|].
  refine (map_service_refines_map (λ s, ref_faults s = []) "ws" "m" ops (on empty_rdb) ∅ ∅
    ref_reliable eq_refl eq_refl eq_refl _ _ _).
  - intros key. done.
  - intros key v H. done.
  - repeat constructor; discriminate.
Defined.

(** ** The time to live of a map entry *)

(** The limit of one week holds for the times to live whose nanoseconds fit 64 bits: up
    to a week the entry is stored with its time to live, above it the request is
    refused.  A time to live of zero, a negative one, or one whose nanoseconds wrap
    around to a value that is not positive, is accepted, and the entry never expires. *)
Theorem MapSet_ttl_limit `{S : RedisServer, SL : !RedisLaws S} (I : srv -> Prop)
    (ws name key value : string) (ttl : Z) (s : srv) (L : lmap) :
  reliable I -> I s -> Z.of_nat (String.length value) <= DMap.maxMapValueSize ->
  let entry := DMap.MapEntry ws name key in
  ends (DMap.MapSet ws name key value ttl) s L (λ r d,
    (0 < ttl <= 604800 -> r = (true, "") /\ kv d !! entry = Some (RVStr value) /\
       Redis.ttl d !! entry = Some (ttl * second)) /\
    (604800 < ttl <= 9223372036 -> r = (false, "TTL cannot be longer than 1 week") /\ d = view s) /\
    (wrap_i64 (ttl * second) <= 0 -> r = (true, "") /\ kv d !! entry = Some (RVStr value) /\
       Redis.ttl d !! entry = None)).
Proof.
  intros HR HI Hv entry. apply (ends_rwp I); [done..|]. unfold DMap.MapSet, DMap.ttl_duration. fold entry.
  rewrite (proj2 (Z.ltb_ge _ _)) by lia.
  assert (0 < ttl <= 9223372036 -> wrap_i64 (ttl * second) = ttl * second) as Hw.
  { intros H. apply wrap_i_id; [done|]. unfold in_i, second in *. lia. }
  destruct (Z.ltb_spec DMap.maxMapValueTtls (wrap_i64 (ttl * second))) as [Hl|Hl];
    unfold DMap.maxMapValueTtls in Hl.
  - split; [|split]; [intros H|done|intros H]; exfalso; unfold second in *; [|lia].
    rewrite Hw in Hl by lia. lia.
  - wp_bind. wp_call; [|by destruct H as [_ Hno]; exfalso; eapply (Hno tt); reflexivity].
    simpl in H. subst d'. split; [|split]; intros H.
    + rewrite Hw by lia. split; [done|]. split; [simpl; apply lookup_insert_eq|].
      unfold second in *. rewrite Z.max_r by lia. rewrite (proj2 (Z.eqb_neq _ _)) by lia.
      simpl. apply lookup_insert_eq.
    + exfalso. rewrite Hw in Hl by lia. unfold second in *. lia.
    + split; [done|]. split; [simpl; apply lookup_insert_eq|].
      rewrite Z.max_l by lia. simpl. apply lookup_delete_eq.
Qed.

(** 2^55 seconds are 0 nanoseconds modulo 2^64. *)
Lemma MapSet_ttl_limit_witness :
  wrap_i64 (2 ^ 55 * second) <= 0 /\
  ends (DMap.MapSet "ws" "m" "k" "v" (2 ^ 55)) (on empty_rdb) ∅ (λ r d,
    (0 < 2 ^ 55 <= 604800 -> r = (true, "") /\ kv d !! DMap.MapEntry "ws" "m" "k" = Some (RVStr "v") /\
       Redis.ttl d !! DMap.MapEntry "ws" "m" "k" = Some (2 ^ 55 * second)) /\
    (604800 < 2 ^ 55 <= 9223372036 ->
       r = (false, "TTL cannot be longer than 1 week") /\ d = view (on empty_rdb)) /\
    (wrap_i64 (2 ^ 55 * second) <= 0 -> r = (true, "") /\
       kv d !! DMap.MapEntry "ws" "m" "k" = Some (RVStr "v") /\
       Redis.ttl d !! DMap.MapEntry "ws" "m" "k" = None)).
Proof.
  split; [vm_compute; discriminate|].
  refine (MapSet_ttl_limit (λ s, ref_faults s = []) "ws" "m" "k" "v" (2 ^ 55) (on empty_rdb) ∅
    ref_reliable eq_refl _).
  vm_compute. discriminate.
Defined.

(** ** The simple queue is a list *)

Section queue.
Import SimpleQueue.
Context (ws name : string).

Inductive queue_op := QPut (value : string) | QPop | QPeek | QEmpty | QSize.

(** [Ok] with the value, the flag or the size of the response. *)
Inductive queue_resp :=
| RPut (okv : bool)
| RValue (r : bool * string)
| REmpty (r : bool * bool)
| RSize (r : bool * Z).

Definition queue_step (o : queue_op) : prog queue_resp :=
  match o with
  | QPut v => r <~ SimpleQueuePut ws name v ;; Ret (RPut r)
  | QPop => r <~ SimpleQueuePop ws name ;; Ret (RValue r)
  | QPeek => r <~ SimpleQueuePeek ws name ;; Ret (RValue r)
  | QEmpty => r <~ SimpleQueueEmpty ws name ;; Ret (REmpty r)
  | QSize => r <~ SimpleQueueSize ws name ;; Ret (RSize r)
  end.

(** The list: what an operation answers and leaves. *)
Definition list_step (o : queue_op) (l : list string) : queue_resp * list string :=
  match o with
  | QPut v => (RPut true, l ++ [v])%list
  | QPop => (RValue (true, default "" (head l)), tail l)
  | QPeek => (RValue (true, default "" (head l)), l)
  | QEmpty => (REmpty (true, bool_decide (l = [])), l)
  | QSize => (RSize (true, wrap_u64 (Z.of_nat (length l))), l)
  end.

Fixpoint queue_run (ops : list queue_op) : prog (list queue_resp) :=
  match ops with
  | [] => Ret []
  | o :: ops' => r <~ queue_step o ;; rs <~ queue_run ops' ;; Ret (r :: rs)
  end.

Fixpoint list_run (ops : list queue_op) (l : list string) : list queue_resp * list string :=
  match ops with
  | [] => ([], l)
  | o :: ops' =>
      let '(r, l1) := list_step o l in
      let '(rs, l2) := list_run ops' l1 in (r :: rs, l2)
  end.

Definition queue_holds (d : rdb) (l : list string) : Prop :=
  as_list (kv d !! SimpleQueueName ws name) = Some l.

Lemma queue_holds_list_or_del d l : queue_holds (list_or_del (SimpleQueueName ws name) l d) l.
Proof.
  unfold queue_holds, list_or_del. case_decide; simpl;
    [rewrite lookup_delete_eq; by subst|by rewrite lookup_insert_eq].
Qed.

Lemma queue_step_list o d L l :
  queue_holds d l ->
  rwp (queue_step o) (λ r d' _, r = (list_step o l).1 /\ queue_holds d' (list_step o l).2) d L.
Proof.
  intros Hl. unfold queue_holds in Hl.
  destruct o; cbn [queue_step list_step fst snd]; apply wp_pbind;
    [unfold SimpleQueuePut|unfold SimpleQueuePop|unfold SimpleQueuePeek|unfold SimpleQueueEmpty
    |unfold SimpleQueueSize]; wp_bind; wp_call;
    try (destruct H as [_ Hno]; exfalso; first [eapply (Hno tt) | eapply Hno]; eexists; by repeat split);
    destruct H as (l' & Hl' & H); rewrite Hl in Hl'; injection Hl' as <-.
  - subst. split; [done|]. unfold queue_holds. simpl. by rewrite lookup_insert_eq.
  - destruct H as [-> ->]. split; [by destruct l|]. apply queue_holds_list_or_del.
  - destruct H as [-> ->]. split; [by destruct l|done].
  - destruct H as [-> ->]. split; [|done]. by destruct l.
  - destruct H as [-> ->]. done.
Qed.

(** Any sequence of requests answers as the list does: first in, first out. *)
Theorem queue_run_list ops d L l :
  queue_holds d l ->
  rwp (queue_run ops) (λ rs d' _, rs = (list_run ops l).1 /\ queue_holds d' (list_run ops l).2) d L.
Proof.
  revert d L l. induction ops as [|o ops IH]; intros d L l Hl; [done|]. cbn [queue_run list_run].
  apply wp_pbind. eapply wp_mono; [|by apply queue_step_list]. intros r d1 L1 [-> H1].
  destruct (list_step o l) as [r l1]. cbn [fst snd] in *. apply wp_pbind. eapply wp_mono; [|by apply IH].
  intros rs d2 L2 [-> H2]. by destruct (list_run ops l1).
Qed.
End queue.
