(* ===== verification/ProtoConv.v ===== *)
(** * Protobuf conversions (ToProto and New...FromProto of pkg/types)

    The gateway sends container requests to workers as protobuf messages, and workers
    send completed requests back.  A message is a record [pb_...]; [Timestamp] is the
    number of nanoseconds since the epoch, [None] for a nil message.  A conversion
    that dereferences a nil pointer panics ([EPanic]). *)

From S2P Require Import Prelude GoStd Redis Types.

Local Open Scope Z_scope.

(** ** Messages (proto/types.pb.go) *)

Record pb_MountPointConfig := mkPbMountPointConfig {
  pb_mp_BucketName : string; pb_mp_AccessKey : string; pb_mp_SecretKey : string;
  pb_mp_EndpointUrl : string; pb_mp_Region : string; pb_mp_ReadOnly : bool;
  pb_mp_ForcePathStyle : bool;
}.

Record pb_Mount := mkPbMount {
  pb_mt_LocalPath : string; pb_mt_MountPath : string; pb_mt_LinkPath : string;
  pb_mt_ReadOnly : bool; pb_mt_MountType : string;
  pb_mt_MountPointConfig : option pb_MountPointConfig;
}.

Record pb_ConcurrencyLimit := mkPbConcurrencyLimit {
  pb_cl_Id : Z; pb_cl_ExternalId : string; pb_cl_WorkspaceId : Z; pb_cl_GpuLimit : Z;
  pb_cl_CpuMillicoreLimit : Z;
}.

Record pb_WorkspaceStorage := mkPbWorkspaceStorage {
  pb_ws_Id : Z; pb_ws_ExternalId : string; pb_ws_BucketName : string; pb_ws_AccessKey : string;
  pb_ws_SecretKey : string; pb_ws_EndpointUrl : string; pb_ws_Region : string;
  pb_ws_CreatedAt : option Z; pb_ws_UpdatedAt : option Z;
}.

Record pb_Workspace := mkPbWorkspace {
  pb_wk_Id : Z; pb_wk_ExternalId : string; pb_wk_Name : string; pb_wk_SigningKey : string;
  pb_wk_VolumeCacheEnabled : bool; pb_wk_MultiGpuEnabled : bool;
  pb_wk_ConcurrencyLimit : option pb_ConcurrencyLimit;
  pb_wk_Storage : option pb_WorkspaceStorage;
}.

Record pb_Object := mkPbObject {
  pb_ob_Id : Z; pb_ob_ExternalId : string; pb_ob_Hash : string; pb_ob_Size : Z;
  pb_ob_WorkspaceId : Z;
}.

Record pb_Stub := mkPbStub {
  pb_st_Id : Z; pb_st_ExternalId : string; pb_st_Name : string; pb_st_Type : string;
  pb_st_Config : string; pb_st_ConfigVersion : Z; pb_st_WorkspaceId : Z;
  pb_st_CreatedAt : option Z; pb_st_UpdatedAt : option Z;
}.

Record pb_StubWithRelated := mkPbStubWithRelated {
  pb_sr_Stub : pb_Stub; pb_sr_Workspace : pb_Workspace; pb_sr_Object : pb_Object;
}.

Record pb_Checkpoint := mkPbCheckpoint {
  pb_ck_CheckpointId : string; pb_ck_ExternalId : string; pb_ck_SourceContainerId : string;
  pb_ck_ContainerIp : string; pb_ck_Status : string; pb_ck_RemoteKey : string;
  pb_ck_StubType : string; pb_ck_ExposedPorts : list Z; pb_ck_CreatedAt : option Z;
  pb_ck_LastRestoredAt : option Z;
}.

Record pb_BuildOptions := mkPbBuildOptions {
  pb_bo_SourceImage : string; pb_bo_Dockerfile : string; pb_bo_BuildCtxObject : string;
  pb_bo_SourceImageCreds : string; pb_bo_BuildSecrets : list string;
}.

Record pb_ContainerRequest := mkPbContainerRequest {
  pb_cr_ContainerId : string; pb_cr_EntryPoint : list string; pb_cr_Env : list string;
  pb_cr_Cpu : Z; pb_cr_Memory : Z; pb_cr_Gpu : string; pb_cr_GpuRequest : list string;
  pb_cr_GpuCount : Z; pb_cr_ImageId : string; pb_cr_StubId : string; pb_cr_WorkspaceId : string;
  pb_cr_Workspace : pb_Workspace; pb_cr_Stub : pb_StubWithRelated; pb_cr_Timestamp : option Z;
  pb_cr_Mounts : list pb_Mount; pb_cr_RetryCount : Z; pb_cr_PoolSelector : string;
  pb_cr_Preemptable : bool; pb_cr_CheckpointEnabled : bool;
  pb_cr_BuildOptions : option pb_BuildOptions; pb_cr_Ports : list Z; pb_cr_AppId : string;
  pb_cr_Checkpoint : option pb_Checkpoint; pb_cr_ImageCredentials : string;
  pb_cr_BuildRegistryCredentials : string; pb_cr_BlockNetwork : bool;
  pb_cr_AllowList : list string; pb_cr_DockerEnabled : bool;
}.

(** ** Conversions *)

(** [in.GetTimestamp().AsTime()]: a nil timestamp is the epoch. *)
Definition AsTime (t : option Z) : Z := default 0 t.

(** [*p] *)
Definition deref {A} (p : option A) : gerr + A :=
  match p with
  | Some a => inr a
  | None => inl (EPanic "invalid memory address or nil pointer dereference")
  end.
Definition ebind {A B} (r : gerr + A) (f : A -> gerr + B) : gerr + B :=
  match r with inl e => inl e | inr a => f a end.
Local Notation "'let!' x ← p ; q" := (ebind p (λ x, q))
  (at level 10, x name, p at level 99, q at level 200).

Definition MountPointConfig_ToProto (m : MountPointConfig) : pb_MountPointConfig :=
  mkPbMountPointConfig (mp_BucketName m) (mp_AccessKey m) (mp_SecretKey m) (mp_EndpointURL m)
    (mp_Region m) (mp_ReadOnly m) (mp_ForcePathStyle m).
Definition NewMountPointConfigFromProto (i : pb_MountPointConfig) : MountPointConfig :=
  mkMountPointConfig (pb_mp_BucketName i) (pb_mp_AccessKey i) (pb_mp_SecretKey i)
    (pb_mp_EndpointUrl i) (pb_mp_Region i) (pb_mp_ReadOnly i) (pb_mp_ForcePathStyle i).

Definition Mount_ToProto (m : Mount) : pb_Mount :=
  mkPbMount (mt_LocalPath m) (mt_MountPath m) (mt_LinkPath m) (mt_ReadOnly m) (mt_MountType m)
    (MountPointConfig_ToProto <$> mt_MountPointConfig m).
Definition NewMountFromProto (i : pb_Mount) : Mount :=
  mkMount (pb_mt_LocalPath i) (pb_mt_MountPath i) (pb_mt_LinkPath i) (pb_mt_ReadOnly i)
    (pb_mt_MountType i) (NewMountPointConfigFromProto <$> pb_mt_MountPointConfig i).

Definition ConcurrencyLimit_ToProto (c : ConcurrencyLimit) : pb_ConcurrencyLimit :=
  mkPbConcurrencyLimit (wrap_u32 (cl_Id c)) (cl_ExternalId c) (wrap_u32 (cl_WorkspaceId c))
    (cl_GPULimit c) (cl_CPUMillicoreLimit c).
Definition NewConcurrencyLimitFromProto (i : pb_ConcurrencyLimit) : ConcurrencyLimit :=
  mkConcurrencyLimit (pb_cl_Id i) (pb_cl_ExternalId i) (pb_cl_WorkspaceId i) (pb_cl_GpuLimit i)
    (pb_cl_CpuMillicoreLimit i) zeroTime zeroTime.

Definition WorkspaceStorage_ToProto (w : WorkspaceStorage) : gerr + pb_WorkspaceStorage :=
  let! id ← deref (ws_Id w);
  let! externalId ← deref (ws_ExternalId w);
  let! bucketName ← deref (ws_BucketName w);
  let! accessKey ← deref (ws_AccessKey w);
  let! secretKey ← deref (ws_SecretKey w);
  let! region ← deref (ws_Region w);
  let! endpointUrl ← deref (ws_EndpointUrl w);
  let! createdAt ← deref (ws_CreatedAt w);
  let! updatedAt ← deref (ws_UpdatedAt w);
  inr (mkPbWorkspaceStorage (wrap_u32 id) externalId bucketName accessKey secretKey endpointUrl
         region (Some createdAt) (Some updatedAt)).
Definition NewWorkspaceStorageFromProto (i : pb_WorkspaceStorage) : WorkspaceStorage :=
  mkWorkspaceStorage (Some (pb_ws_Id i)) (Some (pb_ws_ExternalId i)) (Some (pb_ws_BucketName i))
    (Some (pb_ws_AccessKey i)) (Some (pb_ws_SecretKey i)) (Some (pb_ws_EndpointUrl i))
    (Some (pb_ws_Region i)) (Some (AsTime (pb_ws_CreatedAt i))) (Some (AsTime (pb_ws_UpdatedAt i))).

(** [&pb.ConcurrencyLimit{}] and [&pb.WorkspaceStorage{}] *)
Definition pb_zero_limit : pb_ConcurrencyLimit := mkPbConcurrencyLimit 0 "" 0 0 0.
Definition pb_zero_storage : pb_WorkspaceStorage :=
  mkPbWorkspaceStorage 0 "" "" "" "" "" "" None None.

Definition Workspace_ToProto (w : Workspace) : gerr + pb_Workspace :=
  let concurrencyLimit :=
    match wk_ConcurrencyLimit w with Some c => ConcurrencyLimit_ToProto c | None => pb_zero_limit end in
  let! storage ←
    (if WorkspaceStorageAvailable w
     then (let! s ← deref (wk_Storage w); WorkspaceStorage_ToProto s) else inr pb_zero_storage);
  inr (mkPbWorkspace (wrap_u32 (wk_Id w)) (wk_ExternalId w) (wk_Name w)
         (getStringOrDefault (wk_SigningKey w)) (wk_VolumeCacheEnabled w) (wk_MultiGpuEnabled w)
         (Some concurrencyLimit) (Some storage)).
Definition NewWorkspaceFromProto (i : pb_Workspace) : Workspace :=
  let concurrencyLimit :=
    match pb_wk_ConcurrencyLimit i with
    | Some c => NewConcurrencyLimitFromProto c | None => zeroConcurrencyLimit end in
  let storage :=
    match pb_wk_Storage i with
    | Some s => NewWorkspaceStorageFromProto s
    | None => mkWorkspaceStorage None None None None None None None None None end in
  mkWorkspace (pb_wk_Id i) (pb_wk_ExternalId i) (pb_wk_Name i) zeroTime zeroTime
    (getPointerOrNil (pb_wk_SigningKey i)) (pb_wk_VolumeCacheEnabled i) (pb_wk_MultiGpuEnabled i)
    None (Some concurrencyLimit) None (Some storage).

Definition Object_ToProto (o : Object) : pb_Object :=
  mkPbObject (wrap_u32 (ob_Id o)) (ob_ExternalId o) (ob_Hash o) (ob_Size o) (wrap_u32 (ob_WorkspaceId o)).
Definition NewObjectFromProto (i : pb_Object) : Object :=
  mkObject (pb_ob_Id i) (pb_ob_ExternalId i) (pb_ob_Hash i) (pb_ob_Size i) (pb_ob_WorkspaceId i) zeroTime.

Definition Stub_ToProto (s : Stub) : pb_Stub :=
  mkPbStub (wrap_u32 (st_Id s)) (st_ExternalId s) (st_Name s) (st_Type s) (st_Config s)
    (wrap_u32 (st_ConfigVersion s)) (wrap_u32 (st_WorkspaceId s)) (Some (st_CreatedAt s))
    (Some (st_UpdatedAt s)).
Definition NewStubFromProto (i : pb_Stub) : Stub :=
  mkStub (pb_st_Id i) (pb_st_ExternalId i) (pb_st_Name i) (pb_st_Type i) (pb_st_Config i)
    (pb_st_ConfigVersion i) 0 (pb_st_WorkspaceId i) (AsTime (pb_st_CreatedAt i))
    (AsTime (pb_st_UpdatedAt i)) false 0.

Definition StubWithRelated_ToProto (s : StubWithRelated) : gerr + pb_StubWithRelated :=
  let! workspace ← Workspace_ToProto (sr_Workspace s);
  inr (mkPbStubWithRelated (Stub_ToProto (sr_Stub s)) workspace (Object_ToProto (sr_Object s))).
Definition NewStubWithRelatedFromProto (i : pb_StubWithRelated) : StubWithRelated :=
  mkStubWithRelated (NewStubFromProto (pb_sr_Stub i)) (NewWorkspaceFromProto (pb_sr_Workspace i))
    (NewObjectFromProto (pb_sr_Object i)) None.

Definition Checkpoint_ToProto (c : Checkpoint) : pb_Checkpoint :=
  mkPbCheckpoint (ck_CheckpointId c) (ck_ExternalId c) (ck_SourceContainerId c) (ck_ContainerIp c)
    (ck_Status c) (ck_RemoteKey c) (ck_StubType c) (ck_ExposedPorts c) (Some (ck_CreatedAt c))
    (Some (ck_LastRestoredAt c)).
Definition NewCheckpointFromProto (i : pb_Checkpoint) : Checkpoint :=
  mkCheckpoint 0 (pb_ck_CheckpointId i) (pb_ck_ExternalId i) (pb_ck_SourceContainerId i)
    (pb_ck_ContainerIp i) (pb_ck_Status i) (pb_ck_RemoteKey i) 0 0 (pb_ck_StubType i) 0
    (pb_ck_ExposedPorts i) (AsTime (pb_ck_CreatedAt i)) (AsTime (pb_ck_LastRestoredAt i)) None.

Definition build_options_ToProto (c : ContainerRequest) : option pb_BuildOptions :=
  let bo := cr_BuildOptions c in
  if IsBuildRequest c
  then Some (mkPbBuildOptions (getStringOrDefault (bo_SourceImage bo))
               (getStringOrDefault (bo_Dockerfile bo)) (getStringOrDefault (bo_BuildCtxObject bo))
               (bo_SourceImageCreds bo) (bo_BuildSecrets bo))
  else None.

Definition ContainerRequest_ToProto (c : ContainerRequest) : gerr + pb_ContainerRequest :=
  let! workspace ← Workspace_ToProto (cr_Workspace c);
  let! stub ← StubWithRelated_ToProto (cr_Stub c);
  inr (mkPbContainerRequest (cr_ContainerId c) (cr_EntryPoint c) (cr_Env c) (cr_Cpu c) (cr_Memory c)
         (cr_Gpu c) (cr_GpuRequest c) (cr_GpuCount c) (cr_ImageId c) (cr_StubId c) (cr_WorkspaceId c)
         workspace stub (Some (cr_Timestamp c)) (Mount_ToProto <$> cr_Mounts c) (cr_RetryCount c)
         (cr_PoolSelector c) (cr_Preemptable c) (cr_CheckpointEnabled c) (build_options_ToProto c)
         (cr_Ports c) (cr_AppId c) (Checkpoint_ToProto <$> cr_Checkpoint c) (cr_ImageCredentials c)
         (cr_BuildRegistryCredentials c) (cr_BlockNetwork c) (cr_AllowList c) (cr_DockerEnabled c)).

Definition NewContainerRequestFromProto (i : pb_ContainerRequest) : ContainerRequest :=
  let bo :=
    match pb_cr_BuildOptions i with
    | Some b => mkBuildOptions (getPointerOrNil (pb_bo_SourceImage b))
                  (getPointerOrNil (pb_bo_Dockerfile b)) (getPointerOrNil (pb_bo_BuildCtxObject b))
                  (pb_bo_SourceImageCreds b) (pb_bo_BuildSecrets b)
    | None => zeroBuildOptions
    end in
  mkContainerRequest (pb_cr_ContainerId i) (pb_cr_EntryPoint i) (pb_cr_Env i) (pb_cr_Cpu i)
    (pb_cr_Memory i) (pb_cr_Gpu i) (pb_cr_GpuRequest i) (pb_cr_GpuCount i) (pb_cr_ImageId i)
    (pb_cr_StubId i) (pb_cr_WorkspaceId i) (NewWorkspaceFromProto (pb_cr_Workspace i))
    (NewStubWithRelatedFromProto (pb_cr_Stub i)) (AsTime (pb_cr_Timestamp i))
    (NewMountFromProto <$> pb_cr_Mounts i) 0 (pb_cr_PoolSelector i) (pb_cr_Preemptable i)
    (pb_cr_CheckpointEnabled i) bo (pb_cr_Ports i) 0 (pb_cr_AppId i)
    (NewCheckpointFromProto <$> pb_cr_Checkpoint i) "" (pb_cr_ImageCredentials i)
    (pb_cr_BuildRegistryCredentials i) (pb_cr_BlockNetwork i) (pb_cr_AllowList i)
    (pb_cr_DockerEnabled i).

(** What the other side of the connection gets. *)
Definition over_the_wire (c : ContainerRequest) : gerr + ContainerRequest :=
  let! p ← ContainerRequest_ToProto c; inr (NewContainerRequestFromProto p).

(** ** What survives *)

(** A storage that is in use has all its fields, as the database requires, and an id
    of 32 bits. *)
Definition storage_complete (w : Workspace) : bool :=
  if WorkspaceStorageAvailable w then
    match wk_Storage w with
    | Some (mkWorkspaceStorage (Some id) (Some _) (Some _) (Some _) (Some _) (Some _) (Some _)
              (Some _) (Some _)) => id <? 2 ^ 32
    | _ => false
    end
  else true.

(** No pointer to an empty string. *)
Definition not_empty_ptr (s : option string) : bool := negb (bool_decide (s = Some "")).

Record sendable (c : ContainerRequest) : Prop := {
  snd_workspace : storage_complete (cr_Workspace c) = true;
  snd_stub : storage_complete (sr_Workspace (cr_Stub c)) = true;
  snd_source : not_empty_ptr (bo_SourceImage (cr_BuildOptions c)) = true;
  snd_dockerfile : not_empty_ptr (bo_Dockerfile (cr_BuildOptions c)) = true;
}.
#[export] Instance sendable_dec c : Decision (sendable c).
Proof.
  refine (cast_if_and4
    (decide (storage_complete (cr_Workspace c) = true))
    (decide (storage_complete (sr_Workspace (cr_Stub c)) = true))
    (decide (not_empty_ptr (bo_SourceImage (cr_BuildOptions c)) = true))
    (decide (not_empty_ptr (bo_Dockerfile (cr_BuildOptions c)) = true)));
    try by split. all: intros []; done.
Defined.

(** What a container's capacity, devices and limits are computed from. *)
Definition same_resources (c c' : ContainerRequest) : Prop :=
  cr_ContainerId c' = cr_ContainerId c /\ cr_Cpu c' = cr_Cpu c /\ cr_Memory c' = cr_Memory c /\
  cr_Gpu c' = cr_Gpu c /\ cr_GpuCount c' = cr_GpuCount c /\ cr_GpuRequest c' = cr_GpuRequest c.

(** What the worker runs the container from. *)
Definition same_container (c c' : ContainerRequest) : Prop :=
  cr_EntryPoint c' = cr_EntryPoint c /\ cr_Env c' = cr_Env c /\ cr_ImageId c' = cr_ImageId c /\
  cr_StubId c' = cr_StubId c /\ cr_WorkspaceId c' = cr_WorkspaceId c /\ cr_Mounts c' = cr_Mounts c /\
  cr_Ports c' = cr_Ports c /\ cr_Timestamp c' = cr_Timestamp c /\
  cr_CheckpointEnabled c' = cr_CheckpointEnabled c /\
  (ck_ExposedPorts <$> cr_Checkpoint c') = (ck_ExposedPorts <$> cr_Checkpoint c) /\
  cr_BlockNetwork c' = cr_BlockNetwork c /\ cr_AllowList c' = cr_AllowList c /\
  cr_DockerEnabled c' = cr_DockerEnabled c /\
  cr_ImageCredentials c' = cr_ImageCredentials c /\
  st_Type (sr_Stub (cr_Stub c')) = st_Type (sr_Stub (cr_Stub c)) /\
  wk_Name (cr_Workspace c') = wk_Name (cr_Workspace c).

Lemma mount_roundtrip m : NewMountFromProto (Mount_ToProto m) = m.
Proof. by destruct m as [? ? ? ? ? [[]|]]. Qed.

Lemma mounts_roundtrip (l : list Mount) : NewMountFromProto <$> (Mount_ToProto <$> l) = l.
Proof. induction l as [|m l IH]; [done|]. cbn [fmap list_fmap]. by rewrite mount_roundtrip, IH. Qed.

Lemma workspace_sent w :
  storage_complete w = true -> exists p,
    Workspace_ToProto w = inr p /\
    WorkspaceStorageAvailable (NewWorkspaceFromProto p) = WorkspaceStorageAvailable w /\
    wk_Name (NewWorkspaceFromProto p) = wk_Name w /\
    wk_VolumeCacheEnabled (NewWorkspaceFromProto p) = wk_VolumeCacheEnabled w.
Proof.
  unfold storage_complete, Workspace_ToProto. intros H.
  destruct (WorkspaceStorageAvailable w) eqn:E; [|eexists; by repeat split].
  unfold WorkspaceStorageAvailable in E. destruct (wk_Storage w) as [[]|] eqn:Es; [|done].
  repeat (match goal with o : option _ |- _ => destruct o; try done end).
  simpl in E, H |- *. apply Z.ltb_lt in E, H. eexists. repeat split. simpl.
  unfold WorkspaceStorageAvailable. simpl. rewrite wrap_u_id by (unfold in_u; lia).
  by apply Z.ltb_lt.
Qed.

Lemma getPointerOrNil_default s : not_empty_ptr s = true -> getPointerOrNil (getStringOrDefault s) = s.
Proof. destruct s as [[|a s]|]; done. Qed.

Lemma over_the_wire_spec c :
  sendable c -> exists c', over_the_wire c = inr c' /\ same_resources c c' /\ same_container c c' /\
    IsBuildRequest c' = IsBuildRequest c /\ StorageAvailable c' = StorageAvailable c /\
    wk_VolumeCacheEnabled (cr_Workspace c') = wk_VolumeCacheEnabled (cr_Workspace c).
Proof.
  intros [H1 H2 H3 H4]. destruct (workspace_sent _ H1) as (p & Hp & Ha & Hn & Hv).
  destruct (workspace_sent _ H2) as (q & Hq & _).
  unfold over_the_wire, ContainerRequest_ToProto, StubWithRelated_ToProto.
  rewrite Hp, Hq. simpl. eexists. split; [done|].
  unfold same_resources, same_container, StorageAvailable. simpl. rewrite mounts_roundtrip.
  repeat split; try done.
  - by destruct (cr_Checkpoint c).
  - unfold IsBuildRequest at 1. unfold build_options_ToProto. simpl.
    destruct (IsBuildRequest c) eqn:E; [|done]. simpl.
    by rewrite !getPointerOrNil_default by done.
Qed.

(** A container request reaches a worker as it was scheduled: the identity and the
    resources of the container, everything the worker runs it from, whether it is a
    build, whether it needs a GPU, whether its workspace has a storage and whether its
    volumes may be cached.  (The retry count, the cost and the path of the
    configuration are not sent.) *)
Theorem request_survives_wire (c : ContainerRequest) :
  sendable c -> exists c', over_the_wire c = inr c' /\ same_resources c c' /\ same_container c c' /\
    IsBuildRequest c' = IsBuildRequest c /\ RequiresGPU c' = RequiresGPU c /\
    StorageAvailable c' = StorageAvailable c /\ VolumeCacheCompatible c' = VolumeCacheCompatible c /\
    cr_RetryCount c' = 0.
Proof.
  intros Hs. destruct (over_the_wire_spec c Hs) as (c' & E & Hr & Hc & Hb & Ha & Hv).
  exists c'. split_and!; try done.
  - unfold same_resources in Hr. unfold RequiresGPU. destruct Hr as (_ & _ & _ & -> & _ & ->). done.
  - unfold same_container in Hc. unfold VolumeCacheCompatible. rewrite Hb, Ha, Hv.
    by destruct Hc as (_ & _ & _ & _ & _ & _ & _ & _ & -> & _).
  - unfold over_the_wire, ContainerRequest_ToProto in E.
    destruct (Workspace_ToProto _); [done|]. simpl in E.
    destruct (StubWithRelated_ToProto _); [done|]. simpl in E. by injection E as <-.
Qed.
