(* ===== verification/WorkerDaemon.v ===== *)
(** * The worker daemon (pkg/worker/worker.go, lifecycle.go)

    A worker takes container requests from its queue, runs the containers, reports
    their states and exit codes, and gives their capacity back when they end.  The
    daemon composes the repositories (reached over gRPC through
    pkg/gateway/services/repository), the network manager ([Network]) and the GPU
    manager ([GpuManager]).

    A handler runs alone between two others ([containerLock] is explicit, since some
    handlers keep it); a goroutine that a handler starts is recorded in
    [d_goroutines] and run later.  What images, file systems and the container runtime
    answer is an argument of the handler ([run_env], [spawn_env], ...).  The channels of
    completed requests and stop events hold 1000 entries; a sender that would wait for
    a place is only delayed, and the capacity is left out. *)

From S2P Require Import Prelude GoStd Redis Keys Types Codec Lock Env WorkerRepo ContainerRepo PoolManager GpuManager Network ProtoConv RequestBuffer.

Local Open Scope Z_scope.

(** ** State *)

Definition containerInnerPort : Z := 8001.
Definition WorkerShellPort : Z := 2222.
Definition WorkerSandboxProcessManagerPort : Z := 7111.
Definition defaultWorkerSpindownTimeS : Z := 300.

Definition StopContainerReasonTtl : string := "TTL".
Definition StopContainerReasonUser : string := "USER".
Definition StopContainerReasonScheduler : string := "SCHEDULER".
Definition StopContainerReasonAdmin : string := "ADMIN".
Definition StopContainerReasonUnknown : string := "UNKNOWN".

Record Capabilities := mkCapabilities {
  cap_CheckpointRestore : bool;
  cap_GPU : bool;
  cap_CDI : bool;
}.

(** What the handlers read of [Worker] and its configuration. *)
Record daemon_config := mkDaemonConfig {
  dc_workerId : string;
  dc_podAddr : string;
  dc_serverPort : Z;
  dc_clipVersion : Z;
  dc_runtimeName : string;
  dc_capabilities : Capabilities;
}.

(** The fields of an instance that the handlers use; [ContainerIp] is in [n_instances]
    of the network state. *)
Record ContainerInstance := mkContainerInstance {
  ci_StubId : string;
  ci_Request : ContainerRequest;
  ci_ExitCode : Z;
  ci_StopReason : string;
}.

Record stopContainerEvent := mkStopContainerEvent {
  se_ContainerId : string;
  se_Kill : bool;
}.

(** Goroutines that wait to run: a container to spawn with its host ports, a container
    that runs, a build that is done, the removal of an ended container, the periodic
    status update of a container, its first status update, and the kill of a container
    that did not stop. *)
Inductive goroutine :=
| GSpawn (request : ContainerRequest) (bindPorts : list Z)
| GRunning (request : ContainerRequest)
| GFinalize (request : ContainerRequest)
| GClear (containerId : string)
| GStatus (request : ContainerRequest)
| GConfirm (containerId : string)
| GKill (containerId : string).

Record daemon `{Kernel, IPTables} := mkDaemon {
  d_net : net;
  d_instances : gmap string ContainerInstance;
  d_gpus : NvidiaManager;
  d_locked : bool;
  d_completed : list ContainerRequest;
  d_stop : list stopContainerEvent;
  d_cancelled : bool;
  d_managing : bool;
  d_signals : list (string * bool);
  d_goroutines : list goroutine;
}.

(** An error of [RunContainer]: [types.ExitCodeError] or another one. *)
Inductive run_err :=
| EExitCode (code : Z)
| EOther (e : gerr).

(** What the machine answers while a request is set up: the mount of the workspace
    storage, the pull of the image, the build of a base image, whether the request was
    cancelled by then, the second pull, free ports, the specification, and whether the
    request was cancelled before the container is spawned. *)
Record run_env := mkRunEnv {
  re_Mount : gerr + unit;
  re_PullLazy : run_err + unit;
  re_build_cancelled : bool;
  re_buildOrPull : run_err + unit;
  re_PullAgain : run_err + unit;
  re_port : nat -> gerr + Z;
  re_spec : gerr + unit;
  re_cancelled : bool;
}.

(** What the machine answers while a container is spawned: the overlay, the GPUs it
    has, the injection of devices, the sandbox client, and the preparation and the
    writing of the configuration. *)
Record spawn_env := mkSpawnEnv {
  sp_overlay : gerr + unit;
  sp_gpus : gerr + list Z;
  sp_inject : gerr + unit;
  sp_sandbox : gerr + unit;
  sp_config : gerr + unit;
}.

(** How a request was handled: the container is known already, its storage cannot be
    mounted, it was cancelled while its image was built, it could not be run, or it is
    going to be spawned. *)
Inductive handled := HDuplicate | HMountFailed | HAbandoned | HFailed | HSpawned.

Section daemon.
Context {K : Kernel} {IPT : IPTables} {FMT : GoFmt} {MS : Mapstructure} {JSON : JsonRequests}
        {JA : JsonAddressMap}.
Context (ParseCIDR : string -> option (string * bool)).
Context (m : ContainerNetworkManager) (w : daemon_config).

(** A handler; [None] when it never gets further: it waits for a mutex that nobody
    releases, or the process has crashed. *)
Definition DM (A : Type) : Type := daemon -> prog (option A * daemon).

Definition dret {A} (a : A) : DM A := λ s, Ret (Some a, s).
Definition dstuck {A} : DM A := λ s, Ret (None, s).
Definition dbind {A B} (p : DM A) (f : A -> DM B) : DM B :=
  λ s, r <~ p s ;; match r with (None, s') => Ret (None, s') | (Some a, s') => f a s' end.
Definition dget : DM daemon := λ s, Ret (Some s, s).

Local Notation "'let!' x ← p ; q" := (dbind p (λ x, q))
  (at level 10, x name, p at level 99, q at level 200).
Local Notation "'run!' p ; q" := (dbind p (λ _, q))
  (at level 10, p at level 99, q at level 200).

(** A call of a repository service, and of the network manager. *)
Definition drepo {A} (p : M A) : DM (gerr + A) :=
  λ s, r <~ p ;; Ret (Some (handleGRPCResponse r), s).
Definition set_net (n : net) (s : daemon) : daemon :=
  mkDaemon _ _ n (d_instances s) (d_gpus s) (d_locked s) (d_completed s) (d_stop s)
    (d_cancelled s) (d_managing s) (d_signals s) (d_goroutines s).
Definition dnet {A} (p : NM A) : DM (gerr + A) :=
  λ s, r <~ p (d_net s) ;; Ret (Some r.1, set_net r.2 s).

(** ** Fields *)

Definition set_instances (i : gmap string ContainerInstance) (ips : gmap string string) (s : daemon)
    : daemon :=
  let n := d_net s in
  mkDaemon _ _ (mkNet _ _ (n_os n) (n_ipt n) (n_ipt6 n) ips (n_namespaces n)) i (d_gpus s)
    (d_locked s) (d_completed s) (d_stop s) (d_cancelled s) (d_managing s) (d_signals s)
    (d_goroutines s).
Definition set_gpus (g : NvidiaManager) (s : daemon) : daemon :=
  mkDaemon _ _ (d_net s) (d_instances s) g (d_locked s) (d_completed s) (d_stop s)
    (d_cancelled s) (d_managing s) (d_signals s) (d_goroutines s).
Definition set_locked (b : bool) (s : daemon) : daemon :=
  mkDaemon _ _ (d_net s) (d_instances s) (d_gpus s) b (d_completed s) (d_stop s)
    (d_cancelled s) (d_managing s) (d_signals s) (d_goroutines s).
Definition set_completed (l : list ContainerRequest) (s : daemon) : daemon :=
  mkDaemon _ _ (d_net s) (d_instances s) (d_gpus s) (d_locked s) l (d_stop s)
    (d_cancelled s) (d_managing s) (d_signals s) (d_goroutines s).
Definition set_stop (l : list stopContainerEvent) (s : daemon) : daemon :=
  mkDaemon _ _ (d_net s) (d_instances s) (d_gpus s) (d_locked s) (d_completed s) l
    (d_cancelled s) (d_managing s) (d_signals s) (d_goroutines s).
Definition set_cancelled (b managing : bool) (s : daemon) : daemon :=
  mkDaemon _ _ (d_net s) (d_instances s) (d_gpus s) (d_locked s) (d_completed s) (d_stop s)
    b managing (d_signals s) (d_goroutines s).
Definition set_signals (l : list (string * bool)) (s : daemon) : daemon :=
  mkDaemon _ _ (d_net s) (d_instances s) (d_gpus s) (d_locked s) (d_completed s) (d_stop s)
    (d_cancelled s) (d_managing s) l (d_goroutines s).
Definition set_goroutines (l : list goroutine) (s : daemon) : daemon :=
  mkDaemon _ _ (d_net s) (d_instances s) (d_gpus s) (d_locked s) (d_completed s) (d_stop s)
    (d_cancelled s) (d_managing s) (d_signals s) l.

Definition dmod (f : daemon -> daemon) : DM unit := λ s, Ret (Some tt, f s).

(** [s.containerLock] *)
Definition Lock : DM unit :=
  λ s, if d_locked s then Ret (None, s) else Ret (Some tt, set_locked true s).
Definition Unlock : DM unit := dmod (set_locked false).

(** [go ...] and the two channels *)
Definition go (g : goroutine) : DM unit := dmod (λ s, set_goroutines (d_goroutines s ++ [g]) s).
Definition send_completed (r : ContainerRequest) : DM unit :=
  dmod (λ s, set_completed (d_completed s ++ [r]) s).
Definition send_stop (e : stopContainerEvent) : DM unit :=
  dmod (λ s, set_stop (d_stop s ++ [e]) s).

(** [containerInstances.Set] keeps the address an instance has; a new one has none. *)
Definition set_instance (id : string) (i : ContainerInstance) : DM unit :=
  dmod (λ s, set_instances (SafeMap_Set (d_instances s) id i)
               (<[id := default "" (n_instances (d_net s) !! id)]> (n_instances (d_net s))) s).
Definition delete_instance (id : string) : DM unit :=
  dmod (λ s, set_instances (SafeMap_Delete (d_instances s) id) (delete id (n_instances (d_net s))) s).
Definition get_instance (id : string) : DM (option ContainerInstance) :=
  λ s, Ret (Some (SafeMap_Get (d_instances s) id), s).

(** ** Stopping containers (lifecycle.go) *)

(** The runtime's [Kill]; its error is only logged. *)
Definition stopContainer (containerId : string) (kill : bool) : DM unit :=
  let! instance ← get_instance containerId;
  match instance with
  | None => dret tt
  | Some _ => dmod (λ s, set_signals (d_signals s ++ [(containerId, kill)]) s)
  end.

(** [args] is what [ToStopContainerArgs] makes of the event. *)
Definition handleStopContainerEvent (args : gerr + StopContainerArgs) : DM bool :=
  run! Lock;
  match args with
  | inl _ => run! Unlock; dret false
  | inr stopArgs =>
      let! instance ← get_instance (sa_ContainerId stopArgs);
      run! (match instance with
            | None => dret tt
            | Some i =>
                run! set_instance (sa_ContainerId stopArgs)
                  (mkContainerInstance (ci_StubId i) (ci_Request i) (ci_ExitCode i) (sa_Reason stopArgs));
                send_stop (mkStopContainerEvent (sa_ContainerId stopArgs) (sa_Force stopArgs))
            end);
      run! Unlock; dret true
  end.

(** One event of [processStopContainerEvents]. *)
Definition process_stop_event : DM unit :=
  let! s ← dget;
  match d_stop s with
  | [] => dret tt
  | event :: rest =>
      run! dmod (set_stop rest);
      if d_cancelled s then dret tt else stopContainer (se_ContainerId event) (se_Kill event)
  end.

(** ** The end of a container (lifecycle.go) *)

Definition clearContainer (containerId : string) (request : ContainerRequest) (exitCode : Z) : DM unit :=
  run! Lock;
  run! (if String.eqb (cr_Gpu request) "" then dret tt
        else dmod (λ s, set_gpus (UnassignGPUDevices (d_gpus s) containerId) s));
  let! _torn ← dnet (TearDown m (cr_ContainerId request));
  run! send_completed request;
  run! Unlock;
  let! instance ← get_instance containerId;
  run! (match instance with
        | None => dret tt
        | Some i => set_instance containerId
                      (mkContainerInstance (ci_StubId i) (ci_Request i) exitCode (ci_StopReason i))
        end);
  go (GClear containerId).

Definition deleteContainer (containerId : string) : DM unit :=
  run! delete_instance containerId;
  let! _err ← drepo (DeleteContainerState containerId);
  dret tt.

(** The goroutine of [clearContainer] after the grace period; [running] is what the
    runtime says of the container. *)
Definition clear_later (running : bool) (containerId : string) : DM unit :=
  let! instance ← get_instance containerId;
  run! (match instance with
        | Some _ => if running then stopContainer containerId true else dret tt
        | None => dret tt
        end);
  deleteContainer containerId.

Definition final_exit_code (exitCode : Z) : Z :=
  if exitCode <? 0 then 1
  else if exitCode =? ContainerExitCodeSigterm then 0 else exitCode.

Definition finalizeContainer (containerId : string) (request : ContainerRequest) (exitCode : Z) : DM unit :=
  let exitCode := final_exit_code exitCode in
  let! _err ← drepo (SetContainerExitCode containerId (wrap_i32 exitCode));
  clearContainer containerId request exitCode.

(** ** Running a container (lifecycle.go) *)

Definition set_cr_Ports (ports : list Z) (r : ContainerRequest) : ContainerRequest :=
  mkContainerRequest (cr_ContainerId r) (cr_EntryPoint r) (cr_Env r) (cr_Cpu r) (cr_Memory r)
    (cr_Gpu r) (cr_GpuRequest r) (cr_GpuCount r) (cr_ImageId r) (cr_StubId r) (cr_WorkspaceId r)
    (cr_Workspace r) (cr_Stub r) (cr_Timestamp r) (cr_Mounts r) (cr_RetryCount r)
    (cr_PoolSelector r) (cr_Preemptable r) (cr_CheckpointEnabled r) (cr_BuildOptions r) ports
    (cr_CostPerMs r) (cr_AppId r) (cr_Checkpoint r) (cr_ConfigPath r) (cr_ImageCredentials r)
    (cr_BuildRegistryCredentials r) (cr_BlockNetwork r) (cr_AllowList r) (cr_DockerEnabled r).
Definition disable_checkpoint (r : ContainerRequest) : ContainerRequest :=
  mkContainerRequest (cr_ContainerId r) (cr_EntryPoint r) (cr_Env r) (cr_Cpu r) (cr_Memory r)
    (cr_Gpu r) (cr_GpuRequest r) (cr_GpuCount r) (cr_ImageId r) (cr_StubId r) (cr_WorkspaceId r)
    (cr_Workspace r) (cr_Stub r) (cr_Timestamp r) (cr_Mounts r) (cr_RetryCount r)
    (cr_PoolSelector r) (cr_Preemptable r) false (cr_BuildOptions r) (cr_Ports r)
    (cr_CostPerMs r) (cr_AppId r) None (cr_ConfigPath r) (cr_ImageCredentials r)
    (cr_BuildRegistryCredentials r) (cr_BlockNetwork r) (cr_AllowList r) (cr_DockerEnabled r).

Definition stub_kind (r : ContainerRequest) : string := Kind (st_Type (sr_Stub (cr_Stub r))).

(** The container ports of a request: its own or the default one, the shell, the
    process manager of a sandbox; those of the checkpoint if there is one. *)
Definition ports_to_expose (r : ContainerRequest) : list Z :=
  let ports := match cr_Ports r with [] => [containerInnerPort] | ports => ports end in
  let ports := (ports ++ [WorkerShellPort])%list in
  let ports := if String.eqb (stub_kind r) StubTypeSandbox
               then (ports ++ [WorkerSandboxProcessManagerPort])%list else ports in
  match cr_Checkpoint r with Some c => ck_ExposedPorts c | None => ports end.

(** [n] calls of [getRandomFreePort]. *)
Fixpoint bind_ports (port : nat -> gerr + Z) (i n : nat) : gerr + list Z :=
  match n with
  | O => inr []
  | S n' =>
      match port i with
      | inl e => inl e
      | inr p =>
          match bind_ports port (S i) n' with
          | inl e => inl e
          | inr ps => inr (p :: ps)
          end
      end
  end.

Definition host_addr (port : Z) : string := dc_podAddr w +:+ ":" +:+ fmt_int port.

(** [addressMap]: the host address of each container port (the last one wins). *)
Definition address_map (ports bindPorts : list Z) : gmap Z string :=
  foldl (λ am p, <[wrap_i32 p.1 := host_addr p.2]> am) ∅ (zip ports bindPorts).

(** From the pulled image on. *)
Definition start_container (env : run_env) (request : ContainerRequest)
    : DM ((run_err + unit) * ContainerRequest) :=
  let containerId := cr_ContainerId request in
  if IsBuildRequest request && (dc_clipVersion w =? ClipVersion2) then
    let! _err ← drepo (SetContainerExitCode containerId 0);
    run! go (GFinalize request);
    dret (inr tt, request)
  else
    let ports := ports_to_expose request in
    let request := set_cr_Ports ports request in
    match bind_ports (re_port env) 0 (length ports) with
    | inl e => dret (inl (EOther e), request)
    | inr bindPorts =>
        if String.eqb (cr_ImageId request) ""
        then dret (inl (EOther (EMsg "empty image id in request")), request)
        else
          match bindPorts with
          | [] => dstuck
          | bindPort :: _ =>
              match re_spec env with
              | inl e => dret (inl (EOther e), request)
              | inr _ =>
                  let! r ← drepo (SetContainerAddress containerId (host_addr bindPort));
                  match r with
                  | inl e => dret (inl (EOther e), request)
                  | inr _ =>
                      let! r ← drepo (SetContainerAddressMap containerId (address_map ports bindPorts));
                      match r with
                      | inl e => dret (inl (EOther e), request)
                      | inr _ =>
                          if re_cancelled env
                          then dret (inl (EOther (EMsg "context canceled")), request)
                          else run! go (GSpawn request bindPorts); dret (inr tt, request)
                      end
                  end
              end
          end
    end.

(** The result with the request as it was changed; [None] when a cancelled build ends
    without an error and without a container. *)
Definition RunContainer (env : run_env) (request : ContainerRequest)
    : DM (option (run_err + unit) * ContainerRequest) :=
  let containerId := cr_ContainerId request in
  let request :=
    if cr_CheckpointEnabled request && negb (cap_CheckpointRestore (dc_capabilities w))
    then disable_checkpoint request else request in
  let err (e : run_err) : DM (option (run_err + unit) * ContainerRequest) :=
    dret (Some (inl e), request) in
  if RequiresGPU request && negb (cap_GPU (dc_capabilities w))
  then err (EOther (EMsg ("runtime " +:+ dc_runtimeName w +:+ " does not support GPU workloads")))
  else
    run! set_instance containerId (mkContainerInstance (cr_StubId request) request 0 "");
    let! r ← drepo (SetWorkerAddress containerId (host_addr (dc_serverPort w)));
    match r with
    | inl e => err (EOther e)
    | inr _ =>
        let start := (let! r ← start_container env request; dret (Some r.1, r.2)) in
        match re_PullLazy env with
        | inr _ => start
        | inl e =>
            if negb (IsBuildRequest request) then err e
            else if re_build_cancelled env then dret (None, request)
            else
              match re_buildOrPull env with
              | inl e => err e
              | inr _ => match re_PullAgain env with inl e => err e | inr _ => start end
              end
        end
    end.

Definition run_err_code (e : run_err) : Z := match e with EExitCode c => c | EOther _ => 1 end.

(** The whole of [handleContainerRequest]: in the first two cases the mutex stays
    locked. *)
Definition handleContainerRequest (env : run_env) (request : ContainerRequest) : DM handled :=
  let containerId := cr_ContainerId request in
  run! Lock;
  let! instance ← get_instance containerId;
  match instance with
  | Some _ => dret HDuplicate
  | None =>
      match (if StorageAvailable request then re_Mount env else inr tt) with
      | inl _ => dret HMountFailed
      | inr _ =>
          let! r ← RunContainer env request;
          match r with
          | (None, _) => run! Unlock; dret HAbandoned
          | (Some (inr _), _) => run! Unlock; dret HSpawned
          | (Some (inl e), request) =>
              run! Unlock;
              let exitCode := run_err_code e in
              let! _err ← drepo (SetContainerExitCode containerId (wrap_i32 exitCode));
              run! clearContainer containerId request exitCode;
              dret HFailed
          end
      end
  end.

(** ** Spawning (lifecycle.go) *)

(** The loop that exposes the host ports. *)
Fixpoint expose_ports (containerId : string) (ports bindPorts : list Z) : DM (gerr + unit) :=
  match bindPorts, ports with
  | [], _ => dret (inr tt)
  | bindPort :: bindPorts', port :: ports' =>
      let! r ← dnet (ExposePort m containerId bindPort port);
      match r with
      | inl e => dret (inl e)
      | inr _ => expose_ports containerId ports' bindPorts'
      end
  | _ :: _, [] => dstuck
  end.

Definition assign_gpus (env : spawn_env) (request : ContainerRequest) : DM (gerr + unit) :=
  if RequiresGPU request && cap_GPU (dc_capabilities w) then
    let! s ← dget;
    let '(r, gpus) := AssignGPUDevices (sp_gpus env) (d_gpus s) (cr_ContainerId request)
                        (cr_GpuCount request) in
    run! dmod (set_gpus gpus);
    dret (match r with
          | inl e => inl e
          | inr _ => if cap_CDI (dc_capabilities w) then sp_inject env else inr tt
          end)
  else dret (inr tt).

(** The client of a sandbox's process manager. *)
Definition setup_sandbox (env : spawn_env) (request : ContainerRequest) : DM (gerr + unit) :=
  if String.eqb (stub_kind request) StubTypeSandbox then
    let! instance ← get_instance (cr_ContainerId request);
    match instance with
    | None => dret (inl (EMsg "instance not found"))
    | Some i =>
        match sp_sandbox env with
        | inl e => dret (inl e)
        | inr _ => run! set_instance (cr_ContainerId request) i; dret (inr tt)
        end
    end
  else dret (inr tt).

(** [spawn] up to the start of the container's process. *)
Definition spawn_setup (env : spawn_env) (request : ContainerRequest) (bindPorts : list Z)
    : DM (gerr + unit) :=
  let containerId := cr_ContainerId request in
  let! _err ← drepo (AddContainerToWorker (dc_workerId w) containerId);
  let! instance ← get_instance containerId;
  match instance with
  | None => dret (inl (EMsg "instance not found"))
  | Some i =>
      run! set_instance containerId
        (mkContainerInstance (ci_StubId i) (ci_Request i) (-1) (ci_StopReason i));
      run! go (GStatus request);
      run! go (GConfirm containerId);
      match sp_overlay env with
      | inl e => dret (inl e)
      | inr _ =>
          let! r ← dnet (Setup ParseCIDR m containerId request);
          match r with
          | inl e => dret (inl e)
          | inr _ =>
              let! r ← assign_gpus env request;
              match r with
              | inl e => dret (inl e)
              | inr _ =>
                  let! r ← expose_ports containerId (cr_Ports request) bindPorts;
                  match r with
                  | inl e => dret (inl e)
                  | inr _ =>
                      let! r ← setup_sandbox env request;
                      match r with
                      | inl e => dret (inl e)
                      | inr _ => dret (sp_config env)
                      end
                  end
              end
          end
      end
  end.

(** The calls deferred by [spawn].  [RemoveContainerFromWorker] comes last, with the
    context that [cancel] has just cancelled, so the call is not made. *)
Definition spawn_deferred (request : ContainerRequest) (exitCode : Z) : DM unit :=
  finalizeContainer (cr_ContainerId request) request exitCode.

Definition spawn (env : spawn_env) (request : ContainerRequest) (bindPorts : list Z) : DM unit :=
  let! r ← spawn_setup env request bindPorts;
  match r with
  | inl _ => spawn_deferred request (-1)
  | inr _ => go (GRunning request)
  end.

(** The exit code of a container that ended with [exitCode]. *)
Definition exit_code_for (stopReason : string) (isOOMKilled : bool) (exitCode : Z) : Z :=
  if String.eqb stopReason StopContainerReasonScheduler then ContainerExitCodeScheduler
  else if String.eqb stopReason StopContainerReasonTtl then ContainerExitCodeTtl
  else if String.eqb stopReason StopContainerReasonUser then ContainerExitCodeUser
  else if String.eqb stopReason StopContainerReasonAdmin then ContainerExitCodeAdmin
  else if isOOMKilled then ContainerExitCodeOomKill
  else if (exitCode =? ContainerExitCodeOomKill) || (exitCode =? -1) then 0
  else exitCode.

(** [spawn] from the end of the container's process on. *)
Definition spawn_exit (isOOMKilled : bool) (exitCode : Z) (request : ContainerRequest) : DM unit :=
  let! instance ← get_instance (cr_ContainerId request);
  let stopReason := match instance with
                    | Some i => ci_StopReason i | None => StopContainerReasonUnknown end in
  spawn_deferred request (exit_code_for stopReason isOOMKilled exitCode).

(** The goroutine of [spawn] that reports the container as running. *)
Definition confirm_running (now : Z) (containerId : string) : DM unit :=
  run! Lock;
  let! instance ← get_instance containerId;
  run! (match instance with
        | None => dret tt
        | Some _ =>
            let update := (let! _err ← drepo (UpdateContainerStatus now containerId
                                               ContainerStatusRunning ContainerStateTtlS); dret tt) in
            let! r ← drepo (GetContainerState containerId);
            match r with
            | inl e => if ContainerStateNotFound_From e then dret tt else update
            | inr state =>
                if String.eqb (cs_Status state) ContainerStatusStopping
                then stopContainer containerId true else update
            end
        end);
  Unlock.

(** One tick of [updateContainerStatus]; whether the loop goes on. *)
Definition status_tick (now : Z) (request : ContainerRequest) : DM bool :=
  let containerId := cr_ContainerId request in
  let! s ← dget;
  if d_cancelled s then dret false
  else
    run! Lock;
    let! instance ← get_instance containerId;
    run! Unlock;
    match instance with
    | None => dret false
    | Some _ =>
        let! r ← drepo (GetContainerState containerId);
        match r with
        | inl e =>
            if ContainerStateNotFound_From e
            then run! send_stop (mkStopContainerEvent containerId true); dret false
            else dret true
        | inr state =>
            let status := cs_Status state in
            let newStatus := if String.eqb status ContainerStatusPending
                             then ContainerStatusRunning else status in
            let! _err ← drepo (UpdateContainerStatus now containerId newStatus ContainerStateTtlS);
            run! (if String.eqb status ContainerStatusStopping then go (GKill containerId) else dret tt);
            dret true
        end
    end.

(** The kill after the grace period. *)
Definition kill_later (containerId : string) : DM unit :=
  let! instance ← get_instance containerId;
  match instance with
  | None => dret tt
  | Some _ => send_stop (mkStopContainerEvent containerId true)
  end.

(** ** The services of the gateway and the loops (worker.go) *)

(** [types.CapacityUpdateType(req.CapacityChange)] *)
Definition capacity_update (n : Z) : CapacityUpdateType :=
  if n =? 0 then AddCapacity else if n =? 1 then RemoveCapacity else InvalidCapacityUpdate n.

(** [WorkerRepositoryService.UpdateWorkerCapacity] *)
Definition svc_UpdateWorkerCapacity (workerId : string) (request : pb_ContainerRequest)
    (capacityChange : Z) : M unit :=
  worker <- GetWorkerById workerId ;;
  UpdateWorkerCapacity worker (NewContainerRequestFromProto request) (capacity_update capacityChange).

(** One round of [WorkerRepositoryService.GetNextContainerRequest] and what [Run]
    receives; a request that cannot be converted crashes the service. *)
Definition svc_GetNextContainerRequest (workerId : string) : M (option ContainerRequest) :=
  r <- GetNextContainerRequest workerId ;;
  match r with
  | None => ok None
  | Some request =>
      match over_the_wire request with inl e => fail e | inr request => ok (Some request) end
  end.

Definition processCompletedRequest (request : ContainerRequest) : DM (gerr + unit) :=
  match ContainerRequest_ToProto request with
  | inl _ => dstuck
  | inr p => drepo (svc_UpdateWorkerCapacity (dc_workerId w) p 0)
  end.

(** [(&types.ErrWorkerNotFound{}).From(err)] *)
Definition WorkerNotFound_From (e : gerr) : bool := HasPrefix (Error e) "worker not found: ".

(** One request of [manageWorkerCapacity]. *)
Definition manage_capacity : DM unit :=
  let! s ← dget;
  if negb (d_managing s) then dret tt
  else
    match d_completed s with
    | [] => dret tt
    | request :: rest =>
        run! dmod (set_completed rest);
        let! r ← processCompletedRequest request;
        match r with
        | inr _ => dret tt
        | inl e =>
            if WorkerNotFound_From e then dmod (set_cancelled true false)
            else send_completed request
        end
    end.

(** One message of the stream of [Run]: the request that was received, if any, and how
    it was handled. *)
Definition receive (env : run_env) (s : daemon) : prog (option (ContainerRequest * option handled) * daemon) :=
  r <~ svc_GetNextContainerRequest (dc_workerId w) ;;
  match r with
  | inl _ | inr None => Ret (None, s)
  | inr (Some request) =>
      h <~ handleContainerRequest env request s ;; Ret (Some (request, h.1), h.2)
  end.

(** [elapsed] nanoseconds since the last request. *)
Definition shouldShutDown (elapsed : Z) : DM bool :=
  let! s ← dget;
  if d_cancelled s then dret true
  else if (defaultWorkerSpindownTimeS * second <? elapsed) && (SafeMap_Len (d_instances s) =? 0)
  then run! dmod (λ s, set_cancelled true (d_managing s) s); dret true
  else dret false.

(** The registration of [startup] and [shutdown]. *)
Definition startup : DM (gerr + unit) := drepo (ToggleWorkerAvailable (dc_workerId w)).
Definition shutdown : DM (gerr + unit) := drepo (RemoveWorker (dc_workerId w)).

(** [checkForStoppedBuilds]: whether the build is cancelled at once. *)
Definition checkForStoppedBuilds (containerId : string) : DM bool :=
  let! r ← drepo (GetContainerState containerId);
  dret (match r with
        | inl _ => false
        | inr state => String.eqb (cs_Status state) ContainerStatusStopping
        end).

(** A goroutine with what its environment answers: the spawn, the end of the process
    ([isOOMKilled] and the exit code of the runtime), what the runtime says of the
    container, and the time. *)
Record go_env := mkGoEnv {
  ge_spawn : spawn_env;
  ge_oom : bool;
  ge_exit : Z;
  ge_running : bool;
  ge_now : Z;
}.

Definition run_goroutine (env : go_env) (g : goroutine) : DM unit :=
  match g with
  | GSpawn request bindPorts => spawn (ge_spawn env) request bindPorts
  | GRunning request => spawn_exit (ge_oom env) (ge_exit env) request
  | GFinalize request => finalizeContainer (cr_ContainerId request) request 0
  | GClear containerId => clear_later (ge_running env) containerId
  | GStatus request =>
      let! continue ← status_tick (ge_now env) request;
      if continue : bool then go (GStatus request) else dret tt
  | GConfirm containerId => confirm_running (ge_now env) containerId
  | GKill containerId => kill_later containerId
  end.
End daemon.
