(* ===== verification/CapacityLedger.v ===== *)
(** * The capacity of a worker, from the scheduler to the end of a container

    The scheduler takes capacity from a worker's record and queues a request; the
    worker receives it, runs the container and gives the capacity back.  The ledger of
    a worker lists every request whose capacity is taken: those in its queue, those of
    its goroutines and those that wait to be given back.  Whatever the handlers do and
    in whatever order, the free capacity of the record and the ledger add up. *)

From S2P Require Import Prelude GoStd Redis Keys Types Codec Lock Interleave Env WorkerRepo ContainerRepo PoolManager WorkerSpec GpuManager Network NetworkProps ProtoConv RequestBuffer WorkerDaemon Samples.

Local Open Scope Z_scope.

(** ** The ledger *)

(** The GPUs that [UpdateWorkerCapacity] counts for a request. *)
Definition gpu_cost (r : ContainerRequest) : Z :=
  if String.eqb (cr_Gpu r) "" then 0 else cr_GpuCount r.

Definition cost (r : ContainerRequest) : Z * Z * Z := (cr_Cpu r, cr_Memory r, gpu_cost r).

Definition sum_of (f : ContainerRequest -> Z) (l : list ContainerRequest) : Z :=
  foldr (λ r acc, f r + acc) 0 l.

Lemma sum_of_app f l1 l2 : sum_of f (l1 ++ l2) = sum_of f l1 + sum_of f l2.
Proof. induction l1 as [|r l IH]; simpl; [done|]. fold (sum_of f l) in *. unfold sum_of in *. lia. Qed.

Lemma sum_of_perm f l1 l2 : l1 ≡ₚ l2 -> sum_of f l1 = sum_of f l2.
Proof. induction 1; simpl in *; unfold sum_of in *; lia. Qed.

(** The requests of the goroutines that will give capacity back. *)
Definition go_requests (l : list goroutine) : list ContainerRequest :=
  flat_map (λ g, match g with
                 | GSpawn r _ | GRunning r | GFinalize r => [r]
                 | GClear _ | GStatus _ | GConfirm _ | GKill _ => []
                 end) l.

(** The requests a daemon has to give back. *)
Definition owed `{K : Kernel, IPT : IPTables} (s : daemon) : list ContainerRequest :=
  (go_requests (d_goroutines s) ++ d_completed s)%list.

(** A request with sizes that Go's types and the queue allow. *)
Record fair (r : ContainerRequest) : Prop := {
  fair_cpu : 0 <= cr_Cpu r;
  fair_memory : 0 <= cr_Memory r;
  fair_cpu_width : in_i64 (cr_Cpu r);
  fair_memory_width : in_i64 (cr_Memory r);
}.

Lemma sum_of_nonneg l : Forall fair l -> 0 <= sum_of cr_Cpu l /\ 0 <= sum_of cr_Memory l.
Proof. induction 1 as [|r l [? ? _ _] _ IH]; unfold sum_of in *; simpl; lia. Qed.

Section ledger.
Context {FMT : GoFmt} {JSON : JsonRequests}.

(** The request as it is decoded can be sent to the worker. *)
Definition arrives (r : ContainerRequest) : Prop :=
  forall json r', marshalRequest r = inr json -> unmarshalRequest json = inr r' -> sendable r'.

(** The worker [id] started with [cpu], [memory] and [gpus] free; what is free now and
    the costs of the queue and of [rest] add up to it.  GPUs are counted modulo 2^32, as
    the record does. *)
Definition balanced (id : string) (cpu memory gpus : Z) (d : rdb) (rest : list ContainerRequest) : Prop :=
  exists worker rs, (holds d id worker /\ w_Id worker = id) /\ kv d !! SchedulerWorkerLock id = None /\
    queue_rel d id rs /\ Forall arrives rs /\ Forall fair (rs ++ rest) /\
    0 <= w_FreeCpu worker /\ w_FreeCpu worker + sum_of cr_Cpu (rs ++ rest) = cpu /\
    0 <= w_FreeMemory worker /\ w_FreeMemory worker + sum_of cr_Memory (rs ++ rest) = memory /\
    wrap_u32 (w_FreeGpuCount worker + sum_of gpu_cost (rs ++ rest)) = wrap_u32 gpus.

Lemma balanced_perm id cpu memory gpus d l1 l2 :
  l1 ≡ₚ l2 -> balanced id cpu memory gpus d l1 -> balanced id cpu memory gpus d l2.
Proof.
  intros Hp (w & rs & H1 & H2 & H3 & H3' & H4 & H). exists w, rs.
  assert (rs ++ l1 ≡ₚ rs ++ l2) as Hp' by (by apply Permutation_app_head).
  do 4 (split; [done|]). split; [by rewrite <- Hp'|].
  by rewrite <- !(sum_of_perm _ _ _ Hp').
Qed.

Lemma balanced_cost id cpu memory gpus d r r' rest :
  cost r' = cost r -> balanced id cpu memory gpus d (r :: rest) -> balanced id cpu memory gpus d (r' :: rest).
Proof.
  intros [= E1 E2 E3] (w & rs & H1 & H2 & H3 & H3' & H4 & H). exists w, rs. do 4 (split; [done|]).
  assert (forall f, f r' = f r -> sum_of f (rs ++ r' :: rest) = sum_of f (rs ++ r :: rest)) as Hs.
  { intros f Ef. rewrite !sum_of_app. unfold sum_of at 2 4. simpl. by rewrite Ef. }
  rewrite !Hs by done. split; [|done].
  apply Forall_app in H4 as [F1 [[] F3]%Forall_cons]. apply Forall_app. split; [done|].
  constructor; [|done]. by split; rewrite ?E1, ?E2.
Qed.

(** The ledger looks at three keys only. *)
Definition ledger_key (id k : string) : Prop :=
  k = SchedulerWorkerState id \/ k = SchedulerWorkerLock id \/ k = SchedulerWorkerRequests id.
Definition same_ledger (id : string) (d d' : rdb) : Prop :=
  forall k, ledger_key id k -> kv d' !! k = kv d !! k.

Lemma same_ledger_refl id d : same_ledger id d d.
Proof. by intros k _. Qed.
Lemma same_ledger_trans id d1 d2 d3 : same_ledger id d1 d2 -> same_ledger id d2 d3 -> same_ledger id d1 d3.
Proof. intros H1 H2 k Hk. by rewrite H2, H1. Qed.

Lemma balanced_same id cpu memory gpus d d' rest :
  same_ledger id d d' -> balanced id cpu memory gpus d rest -> balanced id cpu memory gpus d' rest.
Proof.
  intros Hs (w & rs & [[H1 H1'] Hid] & H2 & H3 & H). exists w, rs.
  pose proof (Hs _ (or_introl eq_refl)) as E1.
  pose proof (Hs _ (or_intror (or_introl eq_refl))) as E2.
  pose proof (Hs _ (or_intror (or_intror eq_refl))) as E3.
  repeat split; try apply H; [| |done|by rewrite E2|].
  - unfold stored, stored_at in *. by rewrite E1.
  - by rewrite E1.
  - eapply queue_rel_eq; [|exact H3]. unfold queue. by rewrite E3.
Qed.

(** ** Taking and giving capacity *)

Context {MS : Mapstructure} `{MSL : !MapstructureLaws MS} `{JL : !JsonLaws JSON}.

(** On a reliable server a capacity update is done, or refused without a trace and
    without the error that makes the worker leave. *)
Lemma rwp_capacity worker req t d L cur :
  kv d !! SchedulerWorkerLock (w_Id worker) = None -> holds d (w_Id worker) cur ->
  rwp (UpdateWorkerCapacity worker req t) (λ r d' _,
    match r with
    | inr _ => exists upd, updated_capacity cur req t = inr upd /\
        holds d' (w_Id worker) (bump_version upd)
    | inl e => holds d' (w_Id worker) cur /\ WorkerNotFound_From e = false
    end /\ kv d' !! SchedulerWorkerLock (w_Id worker) = None) d L.
Proof using Type MSL.
  intros Hl Hh. unfold UpdateWorkerCapacity.
  apply (rwp_with_lock _ _ _ _ _ {[SchedulerWorkerState (w_Id worker)]} (λ r d',
    match r with
    | inr _ => exists upd, updated_capacity cur req t = inr upd /\
        holds d' (w_Id worker) (bump_version upd)
    | inl e => holds d' (w_Id worker) cur /\ WorkerNotFound_From e = false
    end)); [done|apply state_not_lock| |].
  { intros [e|[]] d1 d2 Heq H; [destruct H; split; [by eapply holds_ignores_lock|done]|].
    destruct H as (upd & E & H). exists upd. split; [done|]. by eapply holds_ignores_lock. }
  intros d1 L1 Heq. assert (holds d1 (w_Id worker) cur) as Hh1 by (by eapply holds_ignores_lock).
  destruct (stored_ok _ _ _ (proj1 Hh1)) as [Hok Hac].
  assert (forall e, WorkerNotFound_From e = false ->
    (holds d1 (w_Id worker) cur /\ WorkerNotFound_From e = false) /\
    eq_except {[SchedulerWorkerState (w_Id worker)]} d1 d1 /\ L1 = L1) as Hno by done.
  wp_bind. eapply rwp_getWorkerFromKey; [apply Hh1|].
  destruct (CopyStruct cur) as [e|w1] eqn:Hcp; [by apply Hno|].
  apply CopyStruct_same in Hcp as ->.
  destruct (negb _); [by apply Hno|].
  destruct (updated_capacity cur req t) as [e|upd] eqn:Hu.
  { apply Hno. unfold updated_capacity in Hu. destruct t; repeat case_match; by simplify_eq. }
  destruct (updated_capacity_ok _ _ _ _ Hok Hu) as (Hok' & Hac' & _).
  wp_bind. apply rwp_hset.
  { destruct Hh1 as [Hst _]. apply bind_Some in Hst as (h & Hh' & _). eauto. }
  intros r d2 Hr. split; [|split; [frame|done]]. exists upd. split; [done|].
  eapply holds_hset; [exact Hok'| |exact Hr]. simpl. congruence.
Qed.

Lemma wrap_u32_add a b : wrap_u32 (wrap_u32 a + b) = wrap_u32 (a + b).
Proof. apply wrap_u_add_l. Qed.

(** The scheduler queues a request: its cost moves from the record to the queue. *)
Lemma rwp_schedule_balanced worker req id cpu memory gpus d L rest :
  w_Id worker = id -> request_ascii req = true -> fair req -> arrives req ->
  cpu < 2 ^ 63 -> memory < 2 ^ 63 -> balanced id cpu memory gpus d rest ->
  rwp (ScheduleContainerRequest worker req) (λ _ d' _, balanced id cpu memory gpus d' rest) d L.
Proof using Type MSL.
  intros <- Ha Hfair Harr Hcpu Hmem (cur & rs & [Hh Hid] & Hl & Hq & Har & Hf & H).
  unfold ScheduleContainerRequest.
  destruct (marshalRequest req) as [e|json] eqn:Hj; [by exists cur, rs|].
  wp_bind. eapply wp_mono; [|apply wp_and; [by apply rwp_capacity|apply rwp_wp, wp_UpdateWorkerCapacity]].
  intros [e|[]] d1 L1 [[H1 Hl1] H2%capacity_queue].
  { destruct H1. exists cur, rs. do 2 (split; [done|]). split; [by eapply queue_rel_eq|done]. }
  destruct H1 as (upd & Hu & Hh1). apply (queue_rel_eq d d1) in Hq; [|done].
  destruct Hq as (l & Hl' & HF). wp_bind. wp_call.
  2: { destruct H0 as [_ Hno]. exfalso. eapply (Hno tt). exists l. by split. }
  destruct (queue_rpush _ _ _ _ _ H0) as (l1 & E1 & E2 & Est). rewrite Hl' in E1. simplify_eq.
  assert (eq_except {[SchedulerWorkerRequests (w_Id worker)]} d1 d') as Hfr by frame.
  assert (kv d' !! SchedulerWorkerState (w_Id worker) = kv d1 !! SchedulerWorkerState (w_Id worker))
    as Ek by (apply (eq_except_kv _ _ _ _ Hfr); key_not_in).
  destruct (remove_capacity_inv _ _ _ Hu) as (Eid & _ & Ec & Hc & Em & Hm & Eg).
  destruct Hfair as [Fc Fm Wc Wm]. destruct H as (H1 & H3 & H4 & H5 & H6).
  apply Forall_app in Hf as [Hf1 Hf2].
  assert (Forall fair (rs ++ rest)) as [S1 S2]%sum_of_nonneg by (by apply Forall_app).
  unfold in_i in Wc, Wm. exists (bump_version upd), (rs ++ [req])%list.
  assert (forall f, sum_of f ((rs ++ [req]) ++ rest) = sum_of f (rs ++ rest) + f req) as Hs.
  { intros f. rewrite !sum_of_app. unfold sum_of at 2. simpl. lia. }
  rewrite !Hs. cbn [w_FreeCpu w_FreeMemory w_FreeGpuCount bump_version set_w_ResourceVersion].
  split_and!.
  - split; [rewrite Est|rewrite Ek]; apply Hh1.
  - rewrite <- Hid. apply Eid.
  - rewrite (eq_except_kv _ _ _ _ Hfr) by key_not_in. done.
  - exists (l1 ++ [json])%list. split; [done|]. apply Forall2_app; [done|]. by repeat constructor.
  - apply Forall_app. split; [done|]. by constructor.
  - rewrite !Forall_app. split; [split; [done|]|done]. constructor; [by split|constructor].
  - done.
  - rewrite Ec. rewrite wrap_i_id by (unfold in_i; lia). lia.
  - done.
  - rewrite Em. rewrite wrap_i_id by (unfold in_i; lia). lia.
  - rewrite <- H6, Eg. unfold gpu_cost at 2. case_match; [f_equal; lia|].
    rewrite wrap_u32_add. f_equal. lia.
Qed.

(** The worker takes the next request: its cost moves from the queue to the worker. *)
Lemma rwp_next_balanced id cpu memory gpus d L rest :
  balanced id cpu memory gpus d rest ->
  rwp (svc_GetNextContainerRequest id) (λ r d' _,
    match r with
    | inr (Some req) => balanced id cpu memory gpus d' (req :: rest)
    | inr None | inl _ => balanced id cpu memory gpus d' rest
    end) d L.
Proof using Type JL.
  intros (cur & rs & [Hh Hid] & Hl & Hq & Har & Hf & H).
  assert (balanced id cpu memory gpus d rest) as Hb by (by exists cur, rs). subst id.
  pose proof Hq as (l & El & HF). unfold svc_GetNextContainerRequest, GetNextContainerRequest.
  wp_bind. wp_bind. wp_call; [|by destruct H0 as [-> _]].
  destruct H0 as (l' & El' & -> & ->). unfold queue in El. rewrite El in El'. simplify_eq.
  destruct (Z.eqb_spec (Z.of_nat (length l')) 0); [done|].
  wp_bind. wp_call; [|by destruct H0 as [-> _]].
  assert (eq_except {[SchedulerWorkerRequests (w_Id cur)]} d d') as Hfr by frame.
  destruct (queue_lpop _ _ _ _ H0) as (l1 & E1 & -> & E2). unfold queue in E1. rewrite El in E1. simplify_eq.
  destruct l1 as [|json l1]; [done|]. cbn [head tail] in *.
  destruct (queue_rel_cons d (w_Id cur) json l1 rs El Hq) as (r0 & rs' & -> & Hj & Ha & Hq').
  destruct (json_roundtrip _ _ Ha Hj) as (r1 & Hu & Hsame). rewrite Hu.
  apply Forall_cons in Har as [Har0 Har]. pose proof (Har0 _ _ Hj Hu) as Hsend.
  destruct (over_the_wire_spec r1 Hsend) as (r2 & Hw & Hres & _).
  apply wp_Ret. cbn beta iota. rewrite Hw.
  assert (cr_Cpu r2 = cr_Cpu r0 /\ cr_Memory r2 = cr_Memory r0 /\ gpu_cost r2 = gpu_cost r0) as (C1 & C2 & C3).
  { destruct Hres as (_ & E3 & E4 & E5 & E6 & _). injection Hsame as. unfold gpu_cost.
    rewrite E5, E6. repeat split; [congruence..|].
    replace (cr_Gpu r1) with (cr_Gpu r0) by congruence.
    by replace (cr_GpuCount r1) with (cr_GpuCount r0) by congruence. }
  exists cur, rs'. split; [|split; [|split; [by apply Hq'|split; [done|]]]].
  - destruct Hh as [Hst Hs]. split; [|done]. split.
    + erewrite stored_eq_except; [exact Hst|exact Hfr|key_not_in].
    + rewrite (eq_except_kv _ _ _ _ Hfr) by key_not_in. done.
  - rewrite (eq_except_kv _ _ _ _ Hfr) by key_not_in. done.
  - apply Forall_app in Hf as [[Hf0 Hf1]%Forall_cons Hf2].
    assert (forall f, f r2 = f r0 -> sum_of f (rs' ++ r2 :: rest) = sum_of f ((r0 :: rs') ++ rest)) as Hs.
    { intros f Ef. cbn [app]. rewrite (sum_of_perm f _ (r2 :: rs' ++ rest)).
      - unfold sum_of. simpl. lia.
      - symmetry. apply Permutation_middle. }
    rewrite !Hs by done. split; [|done]. apply Forall_app. split; [done|]. constructor; [|done].
    destruct Hf0. by split; rewrite ?C1, ?C2.
Qed.

Lemma to_proto_resources r p :
  ContainerRequest_ToProto r = inr p -> same_resources r (NewContainerRequestFromProto p).
Proof.
  unfold ContainerRequest_ToProto. destruct (Workspace_ToProto _); [done|]. simpl.
  destruct (StubWithRelated_ToProto _); [done|]. simpl. intros [= <-].
  unfold same_resources. by simpl.
Qed.

Lemma touches_GetWorkerById id d L :
  rwp (GetWorkerById id) (λ _ d' _, eq_except {[SchedulerWorkerLock id]} d d') d L.
Proof.
  apply rwp_wp. unfold GetWorkerById, getWorkerFromKey. apply wp_with_lock.
  - intros a d1 d2 L1 L2 He H. by etransitivity.
  - intros. reflexivity.
  - intros d' L' He. wp_bind. wp_call; [|etransitivity; [exact He|frame]].
    destruct H as [_ ->]. case_match; [done|]. wp_bind. wp_call; [|etransitivity; [exact He|frame]].
    apply wp_Ret. by destruct H0 as [_ ->].
Qed.

(** The worker gives a request back: its cost moves to the record, or the call fails
    and nothing has changed. *)
Lemma rwp_return_balanced id cpu memory gpus req p d L rest :
  ContainerRequest_ToProto req = inr p ->
  cpu < 2 ^ 63 -> memory < 2 ^ 63 -> balanced id cpu memory gpus d (req :: rest) ->
  rwp (svc_UpdateWorkerCapacity id p 0) (λ r d' _,
    match r with
    | inr _ => balanced id cpu memory gpus d' rest
    | inl e => balanced id cpu memory gpus d' (req :: rest) /\ WorkerNotFound_From e = false
    end) d L.
Proof using Type MSL.
  intros Hp Hcpu Hmem (cur & rs & [Hh Hid] & Hl & Hq & Har & Hf & H).
  unfold svc_UpdateWorkerCapacity. wp_bind.
  eapply wp_mono; [|apply wp_and; [by apply rwp_GetWorkerById|apply (touches_GetWorkerById id)]].
  intros r d1 L1 [[[-> Hh1] Hl1] Hfr1].
  apply (queue_rel_eq d d1) in Hq; [|eapply queue_eq_except; [exact Hfr1|key_not_in]].
  subst id.
  eapply wp_mono; [|apply wp_and; [by apply rwp_capacity|apply rwp_wp, wp_UpdateWorkerCapacity]].
  intros [e|[]] d2 L2 [[H1 Hl2] H2%capacity_queue];
    apply (queue_rel_eq d1 d2) in Hq; [|done| |done].
  { destruct H1. split; [|done]. exists cur, rs. by repeat (split; [done|]). }
  destruct H1 as (upd & Hu & Hh2).
  destruct (add_capacity_inv _ _ _ Hu) as (Eid & _ & Ec & Em & Eg).
  destruct (to_proto_resources _ _ Hp) as (_ & R1 & R2 & R3 & R4 & _). rewrite R1, R2, R3, R4 in *.
  destruct H as (H1 & H3 & H4 & H5 & H6).
  assert (Forall fair (req :: rs ++ rest)) as Hf' by (rewrite Permutation_middle; done).
  apply Forall_cons in Hf' as [[Fc Fm Wc Wm] Hf'].
  assert (forall f, sum_of f (rs ++ req :: rest) = f req + sum_of f (rs ++ rest)) as Hs.
  { intros f. rewrite (sum_of_perm f _ (req :: rs ++ rest)); [done|]. symmetry. apply Permutation_middle. }
  rewrite Hs in H3, H5, H6.
  destruct (sum_of_nonneg _ Hf') as [S1 S2].
  exists (bump_version upd), rs.
  cbn [w_FreeCpu w_FreeMemory w_FreeGpuCount bump_version set_w_ResourceVersion].
  rewrite Ec, Em. rewrite !wrap_i_id by (unfold in_i; lia).
  split_and!; try done; try lia.
  - apply Eid.
  - rewrite <- H6, Eg. unfold gpu_cost at 2. case_match; [f_equal; lia|].
    rewrite wrap_u32_add. f_equal. lia.
Qed.
End ledger.
