(* ===== verification/DaemonProps.v ===== *)
(** * What the worker daemon does to its ledger

    Each handler of [WorkerDaemon] is described by what it adds to the requests the
    daemon owes ([ledger]); the rules compose such descriptions.  Sequences of handlers,
    scheduling calls and steps of other clients then keep the capacity conserved. *)

From S2P Require Import Prelude GoStd Redis Keys Types Codec Lock Interleave Env WorkerRepo ContainerRepo PoolManager WorkerSpec GpuManager Network NetworkProps ProtoConv RequestBuffer WorkerDaemon CapacityLedger Samples.

Local Open Scope Z_scope.
Set Default Proof Using "Type".

(** ** Keys a program leaves alone *)

Create HintDb spares.

(** The keys of the ledger and of the container addresses. *)
Definition guarded (id np k : string) : Prop :=
  ledger_key id k \/ (exists c, k = WorkerNetworkContainerIp np c) \/ k = WorkerNetworkIpIndex np.
Definition spares {A} (id np : string) (p : prog A) : Prop := forall k, guarded id np k -> avoids k p.

Ltac avoid_key := cbn [cmd_keys]; rewrite ?not_elem_of_cons; repeat split; first [key_ne | apply not_elem_of_nil].
Ltac avoid :=
  repeat first
    [ progress intros | exact I
    | apply avoids_with_lock; [key_ne|]
    | apply avoids_rcall; solve [avoid_key] | apply avoids_cmd; solve [avoid_key]
    | apply avoids_mbind | apply avoids_pbind
    | case_match ].
Ltac spare :=
  intros ? [[->|[->| ->]]|[[? ->]| ->]]; avoid.

Section spares.
Context (id np : string).
Context {FMT : GoFmt} {JA : JsonAddressMap}.

Lemma spares_exit_code c n : spares id np (SetContainerExitCode c n).
Proof. unfold SetContainerExitCode. spare. Qed.
Lemma spares_address c a : spares id np (SetContainerAddress c a).
Proof. unfold SetContainerAddress. spare. Qed.
Lemma spares_address_map c m : spares id np (SetContainerAddressMap c m).
Proof. unfold SetContainerAddressMap. spare. Qed.
Lemma spares_worker_address c a : spares id np (SetWorkerAddress c a).
Proof. unfold SetWorkerAddress. spare. Qed.
Lemma spares_add_container w c : spares id np (AddContainerToWorker w c).
Proof. unfold AddContainerToWorker. spare. Qed.
Lemma spares_state c : spares id np (GetContainerState c).
Proof. unfold GetContainerState. spare. Qed.
Lemma spares_status now c st ttl : spares id np (UpdateContainerStatus now c st ttl).
Proof. unfold UpdateContainerStatus. spare. Qed.
Lemma spares_delete c : spares id np (DeleteContainerState c).
Proof. unfold DeleteContainerState. spare. Qed.
End spares.
#[export] Hint Resolve spares_exit_code spares_address spares_address_map spares_worker_address
  spares_add_container spares_state spares_status spares_delete : spares.

Lemma ledger_not_net id np k : ledger_key id k -> ~ net_key np k.
Proof.
  intros [->|[->| ->]] [[c E]|[E|[[p E]|[[c E]|[o E]]]]]; revert E; try key_ne;
    rewrite ip_String_addr; key_ne.
Qed.

(** ** What a handler adds to the ledger *)

Section ledger.
Context {K : Kernel} {IPT : IPTables} {FMT : GoFmt} {MS : Mapstructure} {JSON : JsonRequests}
        {JA : JsonAddressMap}.
Context (ParseCIDR : string -> option (string * bool)).
Context (m : ContainerNetworkManager) (w : daemon_config).
Local Abbreviation np := (m_networkPrefix m).
Local Abbreviation id := (dc_workerId w).

(** [ledger p G]: the handler leaves the record and the queue of the worker alone; with
    result [r] it adds requests [l] with [G r l] to those the daemon owes. *)
Definition ledger {A} (p : DM A) (G : option A -> list ContainerRequest -> Prop) : Prop :=
  forall s d L, net_inv np d -> rwp (p s) (λ r d' _,
    (net_inv np d' /\ same_ledger id d d') /\ exists l, owed r.2 ≡ₚ (owed s ++ l)%list /\ G r.1 l) d L.

(** The common cases: nothing is added; nothing is added and the handler gets to its
    end; [request] is added if the handler gets to its end. *)
Definition neutral {A} (p : DM A) : Prop := ledger p (λ _ l, l = []).
Definition calm {A} (p : DM A) : Prop := ledger p (λ r l, is_Some r /\ l = []).
Definition gives {A} (request : ContainerRequest) (p : DM A) : Prop :=
  ledger p (λ r l, l = match r with Some _ => [request] | None => [] end).

Lemma ledger_mono {A} (p : DM A) (G1 G2 : option A -> list ContainerRequest -> Prop) :
  ledger p G1 -> (forall r l, G1 r l -> G2 r l) -> ledger p G2.
Proof.
  intros Hp HG s d L Hd. eapply wp_mono; [|by apply Hp].
  intros r d' L' [H (l & Hl & H1)]. split; [done|]. eauto.
Qed.

Lemma ledger_bind {A B} (p : DM A) (f : A -> DM B) G1 (G2 : A -> option B -> list ContainerRequest -> Prop)
    (G : option B -> list ContainerRequest -> Prop) :
  ledger p G1 -> (forall a, ledger (f a) (G2 a)) ->
  (forall l, G1 None l -> G None l) ->
  (forall a r l1 l2, G1 (Some a) l1 -> G2 a r l2 -> G r (l1 ++ l2)%list) ->
  ledger (dbind p f) G.
Proof.
  intros Hp Hf HN HS s d L Hd. unfold dbind. apply wp_pbind. eapply wp_mono; [|by apply Hp].
  intros [[a|] s1] d1 L1 [[Hd1 Hs1] (l1 & Hl1 & H1)]; cbn [fst snd] in *.
  - eapply wp_mono; [|by apply Hf]. intros [r s2] d2 L2 [[Hd2 Hs2] (l2 & Hl2 & H2)].
    split; [split; [done|by eapply same_ledger_trans]|]. exists (l1 ++ l2)%list.
    split; [|by eapply HS]. rewrite Hl2, Hl1. by rewrite (assoc_L (++)).
  - apply wp_Ret. split; [done|]. exists l1. auto.
Qed.

Lemma ledger_ret {A} (a : A) (G : option A -> list ContainerRequest -> Prop) :
  G (Some a) [] -> ledger (dret a) G.
Proof.
  intros HG s d L Hd. apply wp_Ret. split; [split; [done|apply same_ledger_refl]|].
  exists []. by rewrite app_nil_r.
Qed.
Lemma ledger_stuck {A} (G : option A -> list ContainerRequest -> Prop) : G None [] -> ledger dstuck G.
Proof.
  intros HG s d L Hd. apply wp_Ret. split; [split; [done|apply same_ledger_refl]|].
  exists []. by rewrite app_nil_r.
Qed.

(** A change of the state adds what it adds to [owed]. *)
Lemma ledger_dmod f l (G : option unit -> list ContainerRequest -> Prop) :
  (forall s, owed (f s) ≡ₚ (owed s ++ l)%list) -> G (Some tt) l -> ledger (dmod f) G.
Proof.
  intros Hf HG s d L Hd. apply wp_Ret. split; [split; [done|apply same_ledger_refl]|].
  exists l. split; [apply Hf|exact HG].
Qed.

Lemma calm_neutral {A} (p : DM A) : calm p -> neutral p.
Proof. intros Hp. eapply ledger_mono; [exact Hp|]. by intros r l [_ H]. Qed.

Lemma calm_ret {A} (a : A) : calm (dret a).
Proof. by apply ledger_ret. Qed.
Lemma neutral_stuck {A} : neutral (@dstuck _ _ A).
Proof. by apply ledger_stuck. Qed.
Lemma calm_bind {A B} (p : DM A) (f : A -> DM B) : calm p -> (forall a, calm (f a)) -> calm (dbind p f).
Proof.
  intros Hp Hf. eapply (ledger_bind _ _ _ (λ _, λ r l, is_Some r /\ l = [])); [exact Hp|exact Hf|by intros l [[? ?] _]|].
  intros a r l1 l2 [_ ->] [? ->]. done.
Qed.
Lemma neutral_bind {A B} (p : DM A) (f : A -> DM B) :
  neutral p -> (forall a, neutral (f a)) -> neutral (dbind p f).
Proof. intros Hp Hf. eapply (ledger_bind _ _ _ (λ _, λ _ l, l = [])); [exact Hp|exact Hf|done|]. by intros a r l1 l2 -> ->. Qed.
Lemma gives_bind {A B} request (p : DM A) (f : A -> DM B) :
  neutral p -> (forall a, gives request (f a)) -> gives request (dbind p f).
Proof. intros Hp Hf. eapply (ledger_bind _ _ _ (λ _, λ r l, l = match r with Some _ => [request] | None => [] end)); [exact Hp|exact Hf|done|]. by intros a r l1 l2 -> ->. Qed.
Lemma gives_bind_calm {A B} request (p : DM A) (f : A -> DM B) :
  gives request p -> (forall a, calm (f a)) -> gives request (dbind p f).
Proof.
  intros Hp Hf. eapply (ledger_bind _ _ _ (λ _, λ r l, is_Some r /\ l = [])); [exact Hp|exact Hf|done|]. by intros a [r|] l1 l2 -> [[? ?] ->].
Qed.

(** ** The primitives *)

Lemma calm_dmod f : (forall s, owed (f s) = owed s) -> calm (dmod f).
Proof. intros Hf. apply (ledger_dmod _ []); [|done]. intros s. by rewrite Hf, app_nil_r. Qed.

Lemma neutral_Lock : neutral Lock.
Proof.
  intros s d L Hd. unfold Lock. destruct (d_locked s); apply wp_Ret;
    (split; [split; [done|apply same_ledger_refl]|]); exists []; by rewrite app_nil_r.
Qed.
Lemma calm_Unlock : calm Unlock.
Proof. by apply calm_dmod. Qed.
Lemma calm_get_instance c : calm (get_instance c).
Proof.
  intros s d L Hd. apply wp_Ret. split; [split; [done|apply same_ledger_refl]|].
  exists []. by rewrite app_nil_r.
Qed.
Lemma calm_set_instance c i : calm (set_instance c i).
Proof. by apply calm_dmod. Qed.
Lemma calm_delete_instance c : calm (delete_instance c).
Proof. by apply calm_dmod. Qed.
Lemma calm_send_stop e : calm (send_stop e).
Proof. by apply calm_dmod. Qed.

Lemma gives_send_completed r : gives r (send_completed r).
Proof. apply (ledger_dmod _ [r]); [|done]. intros s. unfold owed. simpl. by rewrite (assoc_L (++)). Qed.

Lemma go_requests_snoc l g : go_requests (l ++ [g]) = (go_requests l ++ go_requests [g])%list.
Proof. apply flat_map_app. Qed.

Lemma ledger_go g : ledger (go g) (λ r l, is_Some r /\ l = go_requests [g]).
Proof.
  apply (ledger_dmod _ (go_requests [g])); [|done]. intros s. unfold owed. cbn [d_goroutines d_completed set_goroutines].
  rewrite go_requests_snoc, <- !(assoc_L (++)). apply Permutation_app_head, Permutation_app_comm.
Qed.
Lemma calm_go g : go_requests [g] = [] -> calm (go g).
Proof. intros Hg. eapply ledger_mono; [apply ledger_go|]. by intros r l [? ->]. Qed.
Lemma gives_go g r : go_requests [g] = [r] -> gives r (go g).
Proof. intros Hg. eapply ledger_mono; [apply ledger_go|]. by intros x l [[? ->] ->]. Qed.

Lemma calm_drepo {A} (p : M A) : spares id np p -> calm (drepo p).
Proof.
  intros Hp s d L Hd. unfold drepo. apply wp_pbind. eapply wp_mono; [|apply (rwp_avoids _ _ _ _ Hp)].
  intros r d' L' H. apply wp_Ret. split; [split|].
  - destruct Hd as (A0 & X & Hrel & Hok). exists A0, X. split; [|done].
    eapply net_rel_ext; [..|exact Hrel]; intros; apply H; unfold guarded; eauto.
  - intros k Hk. apply H. by left.
  - exists []. by rewrite app_nil_r.
Qed.

Lemma calm_dnet {A} (p : NM A) : keeps m p -> calm (dnet p).
Proof.
  intros Hp s d L Hd. unfold dnet. apply wp_pbind. eapply wp_mono; [|by apply Hp].
  intros r d' L' [Hd' Hfr]. apply wp_Ret. split; [split; [done|]|].
  - intros k Hk. by apply Hfr, (ledger_not_net id).
  - exists []. by rewrite app_nil_r.
Qed.

Lemma calm_dget : calm dget.
Proof.
  intros s d L Hd. apply wp_Ret. split; [split; [done|apply same_ledger_refl]|].
  exists []. by rewrite app_nil_r.
Qed.

(** ** The handlers *)

Ltac calm_step :=
  first
    [ progress intros | apply calm_ret | apply calm_bind | apply calm_get_instance
    | apply calm_set_instance | apply calm_delete_instance | apply calm_send_stop
    | apply calm_Unlock | apply calm_dget
    | apply calm_drepo; solve [eauto with spares]
    | apply calm_dnet; first [apply keeps_Setup | apply keeps_TearDown | apply keeps_ExposePort]
    | apply calm_dmod; reflexivity
    | apply calm_go; reflexivity
    | case_match ].
Ltac neutral_step :=
  first
    [ progress intros | apply neutral_bind | apply neutral_Lock | apply neutral_stuck
    | apply calm_neutral; solve [repeat calm_step] | case_match ].

Lemma calm_stopContainer c kill : calm (stopContainer c kill).
Proof. unfold stopContainer. repeat calm_step. Qed.

Lemma neutral_handleStopContainerEvent args : neutral (handleStopContainerEvent args).
Proof. unfold handleStopContainerEvent. repeat neutral_step. Qed.

Lemma calm_process_stop_event : calm process_stop_event.
Proof. unfold process_stop_event. repeat first [apply calm_stopContainer | calm_step]. Qed.

Lemma gives_clearContainer c request exitCode : gives request (clearContainer m c request exitCode).
Proof.
  unfold clearContainer. apply gives_bind; [apply neutral_Lock|intros _].
  apply gives_bind; [repeat neutral_step|intros _]. apply gives_bind; [repeat neutral_step|intros _].
  apply gives_bind_calm; [apply gives_send_completed|]. repeat calm_step.
Qed.

Lemma gives_finalizeContainer c request exitCode : gives request (finalizeContainer m c request exitCode).
Proof.
  unfold finalizeContainer. apply gives_bind; [repeat neutral_step|]. intros _. apply gives_clearContainer.
Qed.

Lemma calm_clear_later running c : calm (clear_later running c).
Proof. unfold clear_later, deleteContainer. repeat first [apply calm_stopContainer | calm_step]. Qed.

(** A request of the same cost is owed when the container is started; nothing is when
    it is not. *)
Definition starts (request : ContainerRequest)
    (r : option ((run_err + unit) * ContainerRequest)) (l : list ContainerRequest) : Prop :=
  match r with
  | Some (inr _, _) => exists r', l = [r'] /\ cost r' = cost request
  | Some (inl _, r') => l = [] /\ cost r' = cost request
  | None => l = []
  end.

Lemma ledger_neutral_bind {A B} (p : DM A) (f : A -> DM B) G :
  neutral p -> (forall a, ledger (f a) G) -> G None [] -> ledger (dbind p f) G.
Proof.
  intros Hp Hf HN. eapply (ledger_bind _ _ _ (λ _, G)); [exact Hp|exact Hf|by intros l ->|].
  by intros a r l1 l2 ->.
Qed.

Lemma ledger_go_then {A} g (a : A) (G : option A -> list ContainerRequest -> Prop) :
  G (Some a) (go_requests [g]) -> ledger (dbind (go g) (λ _, dret a)) G.
Proof.
  intros HG. eapply (ledger_bind _ _ _ (λ _ r l, r = Some a /\ l = [])); [apply ledger_go| | |].
  - intros _. by apply ledger_ret.
  - by intros l [[? ?] _].
  - intros _ r l1 l2 [_ ->] [-> ->]. by rewrite app_nil_r.
Qed.

Lemma ledger_calm_then {A B} (p : DM A) (b : B) :
  calm p -> ledger (dbind p (λ _, dret b)) (λ r l, r = Some b /\ l = []).
Proof.
  intros Hp. eapply (ledger_bind _ _ _ (λ _ r l, r = Some b /\ l = [])); [exact Hp| | |].
  - intros _. by apply ledger_ret.
  - by intros l [[? ?] _].
  - by intros _ r l1 l2 [_ ->] [-> ->].
Qed.

Lemma ledger_start_container env request :
  ledger (start_container w env request) (starts request).
Proof.
  unfold start_container. destruct (IsBuildRequest request && _).
  { apply ledger_neutral_bind; [repeat neutral_step| |done]. intros _.
    apply ledger_go_then. by exists request. }
  destruct (bind_ports _ _ _) as [e|bs]; [by apply ledger_ret|].
  destruct (String.eqb _ _); [by apply ledger_ret|].
  destruct bs as [|b bs]; [by apply ledger_stuck|].
  destruct (re_spec env) as [e|[]]; [by apply ledger_ret|].
  apply ledger_neutral_bind; [repeat neutral_step| |done].
  intros [e|[]]; [by apply ledger_ret|].
  apply ledger_neutral_bind; [repeat neutral_step| |done].
  intros [e|[]]; [by apply ledger_ret|].
  destruct (re_cancelled env); [by apply ledger_ret|].
  apply ledger_go_then. by eexists.
Qed.

Definition runs (request : ContainerRequest)
    (r : option (option (run_err + unit) * ContainerRequest)) (l : list ContainerRequest) : Prop :=
  match r with
  | Some (Some x, r') => starts request (Some (x, r')) l
  | Some (None, _) | None => l = []
  end.

Lemma starts_cost r1 r2 x l : cost r1 = cost r2 -> starts r1 x l -> starts r2 x l.
Proof. intros E. destruct x as [[[e|[]] r]|]; simpl; rewrite ?E; done. Qed.

Lemma ledger_RunContainer env request : ledger (RunContainer w env request) (runs request).
Proof.
  unfold RunContainer. set (request' := if _ && _ then disable_checkpoint request else request).
  assert (cost request' = cost request) as Ec by (unfold request'; by case_match).
  clearbody request'. cbv zeta.
  assert (forall e : run_err, ledger (dret (Some (inl e), request')) (runs request)) as Herr
    by (intros e; by apply ledger_ret).
  destruct (RequiresGPU request' && _); [done|].
  apply ledger_neutral_bind; [repeat neutral_step|intros _|done].
  apply ledger_neutral_bind; [repeat neutral_step|intros [e|[]]; [done|]|done].
  assert (ledger (dbind (start_container w env request') (λ r, dret (Some r.1, r.2))) (runs request)) as Hstart.
  { eapply (ledger_bind _ _ _ (λ a r l, r = Some (Some a.1, a.2) /\ l = [])); [apply ledger_start_container| | |].
    - intros a. by apply ledger_ret.
    - by intros l ->.
    - intros a r l1 l2 H1 [-> ->]. rewrite app_nil_r. apply (starts_cost _ _ _ _ Ec). by destruct a. }
  destruct (re_PullLazy env) as [e|[]]; [|done]. destruct (negb _); [done|].
  destruct (re_build_cancelled env); [by apply ledger_ret|].
  destruct (re_buildOrPull env) as [e'|[]]; [done|]. by destruct (re_PullAgain env) as [e'|[]].
Qed.

(** What is owed after a request was handled. *)
Definition handles (request : ContainerRequest) (r : option handled) (l : list ContainerRequest) : Prop :=
  match r with
  | Some HFailed | Some HSpawned => exists r', l = [r'] /\ cost r' = cost request
  | Some HDuplicate | Some HMountFailed | Some HAbandoned | None => l = []
  end.

Lemma ledger_handleContainerRequest env request :
  ledger (handleContainerRequest m w env request) (handles request).
Proof.
  unfold handleContainerRequest.
  apply ledger_neutral_bind; [apply neutral_Lock|intros _|done].
  apply ledger_neutral_bind; [repeat neutral_step|intros [i|]|done]; [by apply ledger_ret|].
  destruct (if StorageAvailable request then _ else _); [by apply ledger_ret|].
  eapply (ledger_bind _ _ _ (λ a r l, match a with
    | (None, _) => r = Some HAbandoned /\ l = []
    | (Some (inr _), _) => r = Some HSpawned /\ l = []
    | (Some (inl _), r') => (r = None /\ l = []) \/ (r = Some HFailed /\ l = [r'])
    end)); [apply ledger_RunContainer| | |].
  - intros [[[e|[]]|] r'].
    + apply ledger_neutral_bind; [repeat neutral_step|intros _|by left].
      apply ledger_neutral_bind; [repeat neutral_step|intros _|by left].
      eapply (ledger_bind _ _ _ (λ _ r l, r = Some HFailed /\ l = [])); [apply gives_clearContainer| | |].
      * intros []. by apply ledger_ret.
      * intros l ->. by left.
      * intros [] r l1 l2 -> [-> ->]. by right.
    + apply ledger_calm_then, calm_Unlock.
    + apply ledger_calm_then, calm_Unlock.
  - by intros l ->.
  - intros [[[e|[]]|] r'] r l1 l2; simpl.
    + intros [-> Hc] [[-> ->]|[-> ->]]; [done|]. by exists r'.
    + intros (r1 & -> & Hc) [-> ->]. by exists r1.
    + by intros -> [-> ->].
Qed.

(** ** Goroutines *)

Lemma neutral_expose_ports c ports bindPorts : neutral (expose_ports m c ports bindPorts).
Proof. revert ports. induction bindPorts as [|b bs IH]; intros [|p ps]; simpl; repeat first [apply IH | neutral_step]. Qed.

Lemma calm_assign_gpus env request : calm (assign_gpus w env request).
Proof.
  unfold assign_gpus. case_match; [|apply calm_ret]. apply calm_bind; [apply calm_dget|]. intros s.
  destruct (AssignGPUDevices _ _ _ _). repeat calm_step.
Qed.

Lemma neutral_spawn_setup env request bindPorts : neutral (spawn_setup ParseCIDR m w env request bindPorts).
Proof.
  unfold spawn_setup, setup_sandbox.
  repeat first [apply neutral_expose_ports | apply calm_neutral, calm_assign_gpus | neutral_step].
Qed.

Lemma gives_spawn env request bindPorts : gives request (spawn ParseCIDR m w env request bindPorts).
Proof.
  apply gives_bind; [apply neutral_spawn_setup|]. intros [e|[]]; [apply gives_finalizeContainer|by apply gives_go].
Qed.

Lemma gives_spawn_exit oom code request : gives request (spawn_exit m oom code request).
Proof. apply gives_bind; [repeat neutral_step|]. intros i. apply gives_finalizeContainer. Qed.

Lemma neutral_confirm_running now c : neutral (confirm_running now c).
Proof.
  unfold confirm_running. repeat first [apply calm_neutral, calm_stopContainer | neutral_step].
Qed.

Lemma neutral_status_tick now request : neutral (status_tick now request).
Proof. unfold status_tick. repeat neutral_step. Qed.

Lemma calm_kill_later c : calm (kill_later c).
Proof. unfold kill_later. repeat calm_step. Qed.

Lemma neutral_shouldShutDown elapsed : neutral (shouldShutDown elapsed).
Proof. unfold shouldShutDown. repeat neutral_step. Qed.

(** A goroutine hands on the requests it has, unless it never gets to its end. *)
Lemma ledger_run_goroutine env g :
  ledger (run_goroutine ParseCIDR m w env g)
    (λ r l, l = match r with Some _ => go_requests [g] | None => [] end).
Proof.
  assert (forall p : DM unit, neutral p -> go_requests [g] = [] ->
    ledger p (λ r l, l = match r with Some _ => go_requests [g] | None => [] end)) as Hn.
  { intros p Hp Hg. eapply ledger_mono; [exact Hp|]. intros [?|] l ->; by rewrite ?Hg. }
  destruct g; cbn [run_goroutine].
  - apply gives_spawn.
  - apply gives_spawn_exit.
  - apply gives_finalizeContainer.
  - apply Hn; [apply calm_neutral, calm_clear_later|done].
  - apply Hn; [|done]. apply neutral_bind; [apply neutral_status_tick|]. repeat neutral_step.
  - apply Hn; [apply neutral_confirm_running|done].
  - apply Hn; [apply calm_neutral, calm_kill_later|done].
Qed.
End ledger.

(** ** Sequences of handlers *)

(** What happens to a worker and its daemon: the scheduler places a request on the
    worker, the daemon receives a message, runs one of its goroutines, is told to stop
    a container, takes a stop event, gives a completed request back or looks whether it
    should shut down; or another client runs a program of its own. *)
Inductive daemon_op :=
| OSchedule (worker : Worker) (request : ContainerRequest)
| OReceive (env : run_env)
| OGo (i : nat) (env : go_env)
| OStopEvent (args : gerr + StopContainerArgs)
| OStopNext
| OCapacity
| OShutDown (elapsed : Z)
| OOther (p : M unit).

Section runs.
Context {K : Kernel} {IPT : IPTables} {FMT : GoFmt} {MS : Mapstructure} {JSON : JsonRequests}
        {JA : JsonAddressMap}.
Context (ParseCIDR : string -> option (string * bool)).
Context (m : ContainerNetworkManager) (w : daemon_config).

(** One of them, with the requests that nobody will give back: those of a handler that
    waits forever, those the daemon does not start without an error, and those that
    cannot be sent. *)
Definition daemon_step (o : daemon_op) (s : daemon) : prog (daemon * list ContainerRequest) :=
  match o with
  | OSchedule worker request => ScheduleContainerRequest worker request ;~ Ret (s, [])
  | OReceive env =>
      r <~ receive m w env s ;;
      Ret (r.2, match r.1 with
                | None | Some (_, Some HFailed) | Some (_, Some HSpawned) => []
                | Some (request, _) => [request]
                end)
  | OGo i env =>
      match d_goroutines s !! i with
      | None => Ret (s, [])
      | Some g =>
          r <~ run_goroutine ParseCIDR m w env g (set_goroutines (delete i (d_goroutines s)) s) ;;
          Ret (r.2, match r.1 with Some _ => [] | None => go_requests [g] end)
      end
  | OStopEvent args => r <~ handleStopContainerEvent args s ;; Ret (r.2, [])
  | OStopNext => r <~ process_stop_event s ;; Ret (r.2, [])
  | OCapacity =>
      r <~ manage_capacity w s ;;
      Ret (r.2, match r.1 with Some _ => [] | None => take 1 (d_completed s) end)
  | OShutDown elapsed => r <~ shouldShutDown elapsed s ;; Ret (r.2, [])
  | OOther p => r <~ drepo p s ;; Ret (r.2, [])
  end.

Fixpoint daemon_run (ops : list daemon_op) (s : daemon) (leaked : list ContainerRequest)
    : prog (daemon * list ContainerRequest) :=
  match ops with
  | [] => Ret (s, leaked)
  | o :: ops' =>
      r <~ daemon_step o s ;; daemon_run ops' r.1 (leaked ++ r.2)%list
  end.

(** The scheduler places requests of sizes Go's types allow, with any snapshot of this
    worker's record; other clients leave the worker's keys and the addresses alone. *)
Definition op_ok (o : daemon_op) : Prop :=
  match o with
  | OSchedule worker request =>
      w_Id worker = dc_workerId w /\ request_ascii request = true /\ fair request /\ arrives request
  | OOther p => spares (dc_workerId w) (m_networkPrefix m) p
  | _ => True
  end.

Context `{MSL : !MapstructureLaws MS} `{JL : !JsonLaws JSON}.
Context (cpu memory gpus : Z) (Hcpu : cpu < 2 ^ 63) (Hmem : memory < 2 ^ 63).
Local Abbreviation np := (m_networkPrefix m).
Local Abbreviation id := (dc_workerId w).
Local Abbreviation balance := (balanced (dc_workerId w) cpu memory gpus).

(** The capacity that is free and the capacity that is taken add up. *)
Definition conserved (s : daemon) (leaked : list ContainerRequest) (d : rdb) : Prop :=
  net_inv np d /\ balance d (owed s ++ leaked)%list.

Lemma rwp_net {A} (p : prog A) d L :
  (forall k, (exists c, k = WorkerNetworkContainerIp np c) \/ k = WorkerNetworkIpIndex np -> avoids k p) ->
  net_inv np d -> rwp p (λ _ d' _, net_inv np d') d L.
Proof.
  intros Hp (A0 & X & Hrel & Hok). eapply wp_mono; [|exact (rwp_avoids _ _ _ _ Hp)].
  intros a d' L' H. cbv beta in H. exists A0, X. split; [|done].
  eapply net_rel_ext; [..|exact Hrel]; intros; apply H; eauto.
Qed.

(** A handler whose additions and losses make up for [taken]. *)
Lemma rwp_conserved {A} (p : DM A) G s s0 taken leaked d L (lost : option A -> list ContainerRequest) :
  ledger m w p G -> (forall r l, G r l -> (l ++ lost r)%list ≡ₚ taken) ->
  owed s ≡ₚ (owed s0 ++ taken)%list -> conserved s leaked d ->
  rwp (p s0) (λ r d' _, conserved r.2 (leaked ++ lost r.1) d') d L.
Proof.
  intros Hp HG Hs [Hd Hb]. eapply wp_mono; [|by apply Hp].
  intros [r s'] d' L' [[Hd' Hsame] (l & Hl & H)]. split; [done|].
  eapply balanced_same; [exact Hsame|]. eapply balanced_perm; [|exact Hb]. cbn [fst snd] in *.
  rewrite Hs, Hl, <- (HG _ _ H), <- !(assoc_L (++)).
  do 2 apply Permutation_app_head. apply Permutation_app_comm.
Qed.

Lemma go_requests_delete l i g :
  l !! i = Some g -> go_requests l ≡ₚ (go_requests (delete i l) ++ go_requests [g])%list.
Proof.
  revert i. induction l as [|x l IH]; intros [|i] H; simplify_eq/=.
  - unfold go_requests. simpl. rewrite app_nil_r. apply Permutation_app_comm.
  - rewrite (IH i H). unfold go_requests. simpl. by rewrite (assoc_L (++)).
Qed.

Lemma conserved_go i env s leaked d L :
  conserved s leaked d ->
  rwp (daemon_step (OGo i env) s) (λ r d' _, conserved r.1 (leaked ++ r.2)%list d') d L.
Proof.
  intros HC. cbn [daemon_step]. destruct (d_goroutines s !! i) as [g|] eqn:Hg.
  2: { apply wp_Ret. cbn. by rewrite app_nil_r. }
  apply wp_pbind.
  eapply wp_mono; [|eapply (rwp_conserved _ _ s _ (go_requests [g]) leaked _ _
    (λ r, match r with Some _ => [] | None => go_requests [g] end));
    [apply ledger_run_goroutine| | |exact HC]].
  - intros r d' L' H. by apply wp_Ret.
  - intros [?|] l ->; [by rewrite app_nil_r|done].
  - unfold owed. cbn [d_goroutines d_completed set_goroutines].
    rewrite (go_requests_delete _ _ _ Hg), <- !(assoc_L (++)).
    apply Permutation_app_head, Permutation_app_comm.
Qed.

Lemma conserved_neutral {A} (p : DM A) s leaked d L :
  neutral m w p -> conserved s leaked d ->
  rwp (r <~ p s ;; Ret (r.2, [])) (λ r d' _, conserved r.1 (leaked ++ r.2)%list d') d L.
Proof.
  intros Hp HC. apply wp_pbind.
  eapply wp_mono; [|apply (rwp_conserved _ _ s s [] leaked _ _ (λ _, []) Hp); [| |exact HC]].
  - intros r d' L' H. by apply wp_Ret.
  - by intros r l ->.
  - by rewrite app_nil_r.
Qed.

Lemma conserved_receive env s leaked d L :
  conserved s leaked d ->
  rwp (daemon_step (OReceive env) s) (λ r d' _, conserved r.1 (leaked ++ r.2)%list d') d L.
Proof using Type JL.
  intros [Hd Hb]. cbn [daemon_step]. unfold receive. apply wp_pbind, wp_pbind.
  eapply wp_mono; [|apply wp_and; [apply (rwp_next_balanced _ _ _ _ _ _ _ Hb)|apply rwp_net; [|exact Hd]]].
  2: { unfold svc_GetNextContainerRequest, GetNextContainerRequest. intros k [[c ->]| ->]; avoid. }
  intros [e|[request|]] d1 L1 [Hb1 Hd1]; try (apply wp_Ret, wp_Ret; split; [exact Hd1|]; cbn [fst snd]; rewrite app_nil_r; exact Hb1).
  apply wp_pbind. eapply wp_mono; [|by apply (ledger_handleContainerRequest m w env request)].
  intros [h s'] d2 L2 [[Hd2 Hsame] (l & Hl & H)]. apply wp_Ret, wp_Ret. cbn [fst snd] in *.
  split; [done|]. eapply balanced_same; [exact Hsame|].
  assert (l = [] -> balance d1 (owed s' ++ leaked ++ [request])%list) as Hnone.
  { intros ->. eapply balanced_perm; [|exact Hb1]. rewrite Hl, app_nil_r, (assoc_L (++)).
    apply Permutation_cons_append. }
  assert ((exists r', l = [r'] /\ cost r' = cost request) -> balance d1 (owed s' ++ leaked ++ [])%list) as Hsome.
  { intros (r' & -> & Hc). eapply balanced_perm; [|eapply (balanced_cost _ _ _ _ _ _ _ _ Hc Hb1)].
    rewrite Hl, app_nil_r, <- (assoc_L (++)). apply Permutation_middle. }
  destruct h as [[]|]; auto.
Qed.

Lemma conserved_capacity s leaked d L :
  conserved s leaked d ->
  rwp (daemon_step OCapacity s) (λ r d' _, conserved r.1 (leaked ++ r.2)%list d') d L.
Proof using Type MSL Hcpu Hmem.
  intros [Hd Hb]. cbn [daemon_step]. unfold manage_capacity. apply wp_pbind.
  assert (conserved s (leaked ++ []) d) as Hsame by (split; [done|by rewrite app_nil_r]).
  unfold dbind at 1, dget. apply wp_pbind, wp_Ret. destruct (d_managing s); simpl negb; cbv iota; [|by apply wp_Ret, wp_Ret].
  destruct (d_completed s) as [|request rest] eqn:Ec; [by apply wp_Ret, wp_Ret|].
  assert (forall l, (owed s ++ l)%list ≡ₚ request :: owed (set_completed rest s) ++ l) as Hp.
  { intros l. unfold owed. rewrite Ec. cbn [d_goroutines d_completed set_completed].
    rewrite <- !(assoc_L (++)). symmetry. apply Permutation_middle. }
  apply (balanced_perm _ _ _ _ _ _ _ (Hp _)) in Hb.
  unfold dbind at 1, dmod at 1. apply wp_pbind, wp_Ret. unfold dbind at 1, processCompletedRequest.
  apply wp_pbind. destruct (ContainerRequest_ToProto request) as [e|pb] eqn:Hpb.
  { apply wp_Ret, wp_Ret, wp_Ret. split; [done|]. cbn [fst snd]. simpl take.
    eapply balanced_perm; [|exact Hb]. rewrite (assoc_L (++)). apply Permutation_cons_append. }
  unfold drepo. apply wp_pbind.
  eapply wp_mono; [|apply wp_and; [by apply (rwp_return_balanced _ _ _ _ _ _ _ _ _ Hpb Hcpu Hmem Hb)
    |apply rwp_net; [|exact Hd]]].
  2: { unfold svc_UpdateWorkerCapacity, GetWorkerById, getWorkerFromKey, UpdateWorkerCapacity.
       intros k [[c ->]| ->]; avoid. }
  intros [e|[]] d1 L1 [Hb1 Hd1]; apply wp_Ret; cbn [handleGRPCResponse].
  - destruct Hb1 as [Hb1 Hno]. change (WorkerNotFound_From (EMsg (Error e))) with (WorkerNotFound_From e). rewrite Hno.
    apply wp_Ret, wp_Ret. split; [done|]. cbn [fst snd]. rewrite app_nil_r.
    eapply balanced_perm; [|exact Hb1]. unfold owed. cbn [d_goroutines d_completed set_completed].
    rewrite <- !(assoc_L (++)). etransitivity; [apply Permutation_middle|].
    apply Permutation_app_head, Permutation_middle.
  - apply wp_Ret, wp_Ret. split; [done|]. cbn [fst snd]. by rewrite app_nil_r.
Qed.

Lemma conserved_schedule worker request s leaked d L :
  op_ok (OSchedule worker request) -> conserved s leaked d ->
  rwp (daemon_step (OSchedule worker request) s) (λ r d' _, conserved r.1 (leaked ++ r.2)%list d') d L.
Proof using Type MSL Hcpu Hmem.
  intros (Hid & Ha & Hf & Harr) [Hd Hb]. cbn [daemon_step]. apply wp_pbind.
  eapply wp_mono; [|apply wp_and; [by eapply (rwp_schedule_balanced _ _ _ _ _ _ _ _ _ Hid Ha Hf Harr Hcpu Hmem Hb)
    |apply rwp_net; [|exact Hd]]].
  - intros r d' L' [Hb' Hd']. apply wp_Ret. cbn [fst snd]. rewrite app_nil_r. by split.
  - unfold ScheduleContainerRequest, UpdateWorkerCapacity, getWorkerFromKey. intros k [[c ->]| ->]; avoid.
Qed.

Lemma conserved_step o s leaked d L :
  op_ok o -> conserved s leaked d ->
  rwp (daemon_step o s) (λ r d' _, conserved r.1 (leaked ++ r.2)%list d') d L.
Proof using Type MSL JL Hcpu Hmem.
  intros Ho HC. destruct o as [wk rq|env|i env|args| | |el|p].
  - by apply conserved_schedule.
  - by apply conserved_receive.
  - by apply conserved_go.
  - apply conserved_neutral; [apply neutral_handleStopContainerEvent|done].
  - apply conserved_neutral; [apply calm_neutral, calm_process_stop_event|done].
  - by apply conserved_capacity.
  - apply conserved_neutral; [apply neutral_shouldShutDown|done].
  - apply conserved_neutral; [apply calm_neutral, calm_drepo, Ho|done].
Qed.

Lemma conserved_run ops s leaked d L :
  Forall op_ok ops -> conserved s leaked d ->
  rwp (daemon_run ops s leaked) (λ r d' _, conserved r.1 r.2 d') d L.
Proof using Type MSL JL Hcpu Hmem.
  intros Hok. revert s leaked d L. induction Hok as [|o ops Ho _ IH]; intros s leaked d L HC; [done|].
  cbn [daemon_run]. apply wp_pbind. eapply wp_mono; [|by apply conserved_step].
  intros r d' L' H. by apply IH.
Qed.
End runs.

(** ** A mutex that is never released *)

Section locked.
Context {K : Kernel} {IPT : IPTables} {FMT : GoFmt} {MS : Mapstructure} {JSON : JsonRequests}
        {JA : JsonAddressMap}.
Context (ParseCIDR : string -> option (string * bool)).
Context (m : ContainerNetworkManager) (w : daemon_config).

(** [lasting p]: a handler that starts while the mutex is held does not release it. *)
Definition lasting {A} (p : DM A) : Prop :=
  forall s d L, d_locked s = true -> wp (p s) (λ r _ _, d_locked r.2 = true) d L.

Lemma lasting_bind {A B} (p : DM A) (f : A -> DM B) :
  lasting p -> (forall a, lasting (f a)) -> lasting (dbind p f).
Proof.
  intros Hp Hf s d L Hs. unfold dbind. apply wp_pbind. eapply wp_mono; [|by apply Hp].
  intros [[a|] s1] d1 L1 H1; [by apply Hf|by apply wp_Ret].
Qed.

Lemma locked_bind {B} (f : unit -> DM B) s : d_locked s = true -> dbind Lock f s = Ret (None, s).
Proof. intros Hs. unfold dbind, Lock. by rewrite Hs. Qed.
Lemma unlocked_bind {B} (f : unit -> DM B) s :
  d_locked s = false -> dbind Lock f s = f tt (set_locked true s).
Proof. intros Hs. unfold dbind, Lock. by rewrite Hs. Qed.
Lemma get_instance_bind {B} c (f : option ContainerInstance -> DM B) s :
  dbind (get_instance c) f s = f (d_instances s !! c) s.
Proof. reflexivity. Qed.
Lemma lasting_Lock {B} (f : unit -> DM B) : lasting (dbind Lock f).
Proof. intros s d L Hs. rewrite locked_bind by done. by apply wp_Ret. Qed.

Lemma lasting_ret {A} (a : A) : lasting (dret a).
Proof. intros s d L Hs. by apply wp_Ret. Qed.
Lemma lasting_stuck {A} : lasting (@dstuck _ _ A).
Proof. intros s d L Hs. by apply wp_Ret. Qed.
Lemma lasting_dget : lasting dget.
Proof. intros s d L Hs. by apply wp_Ret. Qed.
Lemma lasting_get_instance c : lasting (get_instance c).
Proof. intros s d L Hs. by apply wp_Ret. Qed.
Lemma lasting_dmod f : (forall s, d_locked (f s) = d_locked s) -> lasting (dmod f).
Proof. intros Hf s d L Hs. apply wp_Ret. cbn [snd]. by rewrite Hf. Qed.
Lemma lasting_drepo {A} (p : M A) : lasting (drepo p).
Proof.
  intros s d L Hs. apply wp_pbind. eapply wp_mono; [|apply wp_any]. intros r d' L' _. by apply wp_Ret.
Qed.
Lemma lasting_dnet {A} (p : NM A) : lasting (dnet p).
Proof.
  intros s d L Hs. apply wp_pbind. eapply wp_mono; [|apply wp_any]. intros r d' L' _. by apply wp_Ret.
Qed.

Ltac last :=
  repeat first
    [ progress intros | apply lasting_Lock | apply lasting_ret | apply lasting_stuck | apply lasting_dget
    | apply lasting_get_instance | apply lasting_drepo | apply lasting_dnet | apply lasting_bind
    | apply lasting_dmod; reflexivity | case_match ].

Lemma lasting_finalize c r n : lasting (finalizeContainer m c r n).
Proof. unfold finalizeContainer, clearContainer. last. Qed.

Lemma lasting_expose_ports c ports bindPorts : lasting (expose_ports m c ports bindPorts).
Proof. revert ports. induction bindPorts as [|b bs IH]; intros [|p ps]; simpl; repeat first [apply IH | progress last]. Qed.

Lemma lasting_goroutine env g : lasting (run_goroutine ParseCIDR m w env g).
Proof.
  destruct g; cbn [run_goroutine].
  - unfold spawn, spawn_setup, assign_gpus, setup_sandbox, spawn_deferred.
    repeat first [apply lasting_expose_ports | apply lasting_finalize | progress last].
  - unfold spawn_exit, spawn_deferred. apply lasting_bind; [last|]. intros. apply lasting_finalize.
  - apply lasting_finalize.
  - unfold clear_later, deleteContainer, stopContainer, delete_instance. last.
  - unfold status_tick, go. last.
  - unfold confirm_running. last.
  - unfold kill_later, send_stop. last.
Qed.

Lemma lasting_run {A} (p : DM A) (f : option A * daemon -> daemon * list ContainerRequest) s d L :
  lasting p -> (forall r, (f r).1 = r.2) -> d_locked s = true ->
  wp (r <~ p s ;; Ret (f r)) (λ r _ _, d_locked r.1 = true) d L.
Proof.
  intros Hp Hf Hs. apply wp_pbind. eapply wp_mono; [|by apply Hp].
  intros r d' L' H. apply wp_Ret. by rewrite Hf.
Qed.

Lemma lasting_step o s d L : d_locked s = true ->
  wp (daemon_step ParseCIDR m w o s) (λ r _ _, d_locked r.1 = true) d L.
Proof.
  intros Hs. destruct o as [wk rq|env|i env|args| | |el|p]; cbn [daemon_step].
  - apply wp_pbind. eapply wp_mono; [|apply wp_any]. intros r d' L' _. by apply wp_Ret.
  - unfold receive. apply wp_pbind, wp_pbind. eapply wp_mono; [|apply wp_any].
    intros [e|[request|]] d' L' _; [by do 2 apply wp_Ret| |by do 2 apply wp_Ret].
    apply wp_pbind. unfold handleContainerRequest. rewrite locked_bind by done. by do 3 apply wp_Ret.
  - case_match; [|by apply wp_Ret].
    by apply (lasting_run _ (λ r, (r.2, match r.1 with Some _ => [] | None => _ end))); [apply lasting_goroutine|..].
  - apply (lasting_run _ (λ r, (r.2, []))); [apply lasting_Lock|done..].
  - apply (lasting_run _ (λ r, (r.2, []))); [|done..]. unfold process_stop_event, stopContainer. last.
  - apply (lasting_run _ (λ r, (r.2, match r.1 with Some _ => [] | None => _ end))); [|done..].
    unfold manage_capacity, processCompletedRequest, send_completed. last.
  - apply (lasting_run _ (λ r, (r.2, []))); [|done..]. unfold shouldShutDown. last.
  - apply (lasting_run _ (λ r, (r.2, []))); [|done..]. last.
Qed.

Lemma lasting_steps ops s l d L : d_locked s = true ->
  wp (daemon_run ParseCIDR m w ops s l) (λ r _ _, d_locked r.1 = true) d L.
Proof.
  revert s l d L. induction ops as [|o ops IH]; intros s l d L Hs; [done|].
  cbn [daemon_run]. apply wp_pbind. eapply wp_mono; [|by apply lasting_step].
  intros r d' L' H. by apply IH.
Qed.
End locked.

(** ** The theorems *)

Section theorems.
Context {K : Kernel} {IPT : IPTables} {FMT : GoFmt} {MS : Mapstructure} {JSON : JsonRequests}
        {JA : JsonAddressMap}.
Context {MSL : MapstructureLaws MS} {JL : JsonLaws JSON}.
Context {S : RedisServer} {SL : RedisLaws S}.
Context (ParseCIDR : string -> option (string * bool)).
Context (m : ContainerNetworkManager) (w : daemon_config).

(** C3. Capacity is conserved.  Take any sequence of placements by the scheduler, of
    messages, goroutines, stop events and completed requests of the worker's daemon
    and of steps of other clients, on a reliable server and whatever the machine
    answers.  The free CPU and memory in the worker's record stay non-negative and,
    with those of the queued requests, of the requests the daemon still owes and of
    the leaked ones, add up to the initial capacity (GPUs modulo 2^32); once the queue
    is empty and nothing is owed or leaked, the whole capacity is free again. *)
Theorem capacity_conserved (I : srv -> Prop) (cpu memory gpus : Z) (ops : list daemon_op)
    (s0 : daemon) (s : srv) (L : lmap) :
  reliable I -> I s -> cpu < 2 ^ 63 -> memory < 2 ^ 63 -> Forall (op_ok m w) ops ->
  conserved m w cpu memory gpus s0 [] (view s) ->
  ends (daemon_run ParseCIDR m w ops s0 []) s L (λ r d,
    balanced (dc_workerId w) cpu memory gpus d (owed r.1 ++ r.2) /\
    (queue d (dc_workerId w) = Some [] -> owed r.1 = [] -> r.2 = [] ->
     exists worker, stored d (dc_workerId w) = Some worker /\ w_FreeCpu worker = cpu /\
       w_FreeMemory worker = memory /\ w_FreeGpuCount worker = wrap_u32 gpus)).
Proof using Type MSL JL SL.
  intros HR HI Hcpu Hmem Hops HC. apply (ends_rwp I); [done..|].
  eapply wp_mono; [|by apply (conserved_run ParseCIDR m w cpu memory gpus Hcpu Hmem)].
  intros [s' leaked] d L' [_ Hb]. cbn [fst snd] in *. split; [done|].
  intros Hq Ho Hlk. rewrite Ho, Hlk in Hb. destruct Hb as (worker & rs & [[Hst _] _] & _ & (l & Hl & HF) & _ & _ & _ & E1 & _ & E2 & E3).
  rewrite Hq in Hl. simplify_eq. apply Forall2_nil_inv_r in HF as ->. simpl in *.
  exists worker. split; [done|]. split; [lia|]. split; [lia|].
  destruct (stored_ok _ _ _ Hst) as [(_ & _ & _ & _ & _ & Hg & _) _].
  rewrite <- E3, Z.add_0_r. symmetry. by apply wrap_u_id.
Qed.

(** A request for a container the worker already has, or one whose storage cannot
    be mounted, leaves [containerLock] locked: whatever happens afterwards, and
    whatever the server answers, the mutex is never released, so the next request the
    worker handles waits forever. *)
Theorem container_lock_leak (env env' : run_env) (request request' : ContainerRequest)
    (ops : list daemon_op) (s0 : daemon) (s : srv) (L : lmap) :
  d_locked s0 = false ->
  is_Some (d_instances s0 !! cr_ContainerId request) \/
    (StorageAvailable request = true /\ exists e, re_Mount env = inl e) ->
  ends (h <~ handleContainerRequest m w env request s0 ;;
        r <~ daemon_run ParseCIDR m w ops h.2 [] ;;
        x <~ handleContainerRequest m w env' request' r.1 ;; Ret (h.1, x.1)) s L
    (λ r _, (r.1 = Some HDuplicate \/ r.1 = Some HMountFailed) /\ r.2 = None).
Proof using Type SL.
  intros Hs Hreq. apply ends_wp, wp_pbind.
  assert (exists h, (h = HDuplicate \/ h = HMountFailed) /\
    handleContainerRequest m w env request s0 = Ret (Some h, set_locked true s0)) as (h & Hh & ->).
  { unfold handleContainerRequest. rewrite unlocked_bind, get_instance_bind by done.
    cbn [d_instances set_locked]. destruct (d_instances s0 !! cr_ContainerId request) as [i|].
    { exists HDuplicate. split; [by left|reflexivity]. }
    destruct Hreq as [[? ?]|[-> [e ->]]]; [done|]. exists HMountFailed. split; [by right|reflexivity]. }
  apply wp_Ret, wp_pbind. eapply wp_mono; [|by apply lasting_steps].
  intros r d' L' Hr. apply wp_pbind. unfold handleContainerRequest. rewrite locked_bind by done.
  do 2 apply wp_Ret. cbn [fst snd]. split; [|done]. destruct Hh as [-> | ->]; auto.
Qed.
End theorems.

(** ** Concrete runs *)

Definition ex_address_map : JsonAddressMap :=
  {| marshalAddressMap _ := inr "{}"; unmarshalAddressMap _ := inr ∅ |}.

Definition ex_daemon_config : daemon_config :=
  mkDaemonConfig "w1" "10.0.0.1" 1994 1 "runc" (mkCapabilities true true true).

(** A daemon that has just started. *)
Definition new_daemon : daemon :=
  mkDaemon _ _ ex_net ∅ (NewContainerNvidiaManager 2) false [] [] false true [] [].

(** A machine on which everything succeeds; [b] says whether storage can be mounted. *)
Definition ex_run_env (b : bool) : run_env :=
  mkRunEnv (if b then inr tt else inl (EMsg "mount")) (inr tt) false (inr tt) (inr tt)
    (λ i, inr (30000 + Z.of_nat i)) (inr tt) false.
Definition ex_go_env : go_env :=
  mkGoEnv (mkSpawnEnv (inr tt) (inr [0; 1]) (inr tt) (inr tt) (inr tt)) false 0 false 100.

(** The scheduler places a request, and the worker receives it, spawns the container,
    sees it end and gives the capacity back. *)
Definition ex_ops : list daemon_op :=
  [OSchedule ex_worker (ex_request "c1" 1000 2000 "A10G" 1); OReceive (ex_run_env true);
   OGo 0 ex_go_env; OGo 2 ex_go_env; OCapacity].

Abbreviation ex_daemon_run :=
  (daemon_run (FMT := plain_fmt) (MS := copy_struct) (JSON := bits_json) (JA := ex_address_map)
     (λ _, None) ex_manager ex_daemon_config).

Lemma ex_conserved :
  conserved (FMT := plain_fmt) (JSON := bits_json) ex_manager ex_daemon_config 8000 16000 2
    new_daemon [] ex_db.
Proof.
  split.
  - exists ∅, ∅. split; [split|split]; intros; by simplify_map_eq.
  - exists ex_worker, []. split; [split; [|done]|split; [by vm_compute|]].
    { split; [by vm_compute|]. vm_compute. eauto. }
    split; [by exists []|]. split; [done|]. split; [done|]. by vm_compute.
Qed.

Lemma capacity_conserved_witness :
  ends (S := ref_server) (ex_daemon_run ex_ops new_daemon []) (on ex_db) ∅ (λ r d,
    balanced (FMT := plain_fmt) (JSON := bits_json) "w1" 8000 16000 2 d (owed r.1 ++ r.2) /\
    (queue d "w1" = Some [] -> owed r.1 = [] -> r.2 = [] ->
     exists worker, stored (FMT := plain_fmt) d "w1" = Some worker /\ w_FreeCpu worker = 8000 /\
       w_FreeMemory worker = 16000 /\ w_FreeGpuCount worker = wrap_u32 2)) /\
  (let '(r, s', _) := run (S := ref_server) (ex_daemon_run ex_ops new_daemon []) (on ex_db) ∅ in
   queue (view s') "w1" = Some [] /\ owed r.1 = [] /\ r.2 = []).
Proof.
  split; [|vm_compute; auto].
  refine (capacity_conserved (MSL := copy_struct_laws) (JL := bits_json_laws) (S := ref_server)
    (λ _, None) ex_manager ex_daemon_config (λ s, ref_faults s = []) 8000 16000 2 ex_ops new_daemon
    (on ex_db) ∅ ref_reliable eq_refl eq_refl eq_refl _ ex_conserved).
  apply Forall_cons. split; [|by repeat constructor].
  split; [done|]. split; [vm_compute; reflexivity|]. split; [by constructor; vm_compute|].
  intros json r' E1 E2. injection E1 as <-.
  assert (unmarshalRequest (JsonRequests := bits_json) _ = inr r') as E3 by exact E2. clear E2.
  vm_compute in E3. injection E3 as <-. by constructor; vm_compute.
Defined.

Lemma container_lock_leak_witness :
  let request := ex_request "c1" 1000 2000 "" 0 in
  let s0 := set_instances {[ "c1" := mkContainerInstance "stub" request 0 "" ]} ∅ new_daemon in
  ends (S := ref_server)
    (h <~ handleContainerRequest (JA := ex_address_map) ex_manager ex_daemon_config
            (ex_run_env true) request s0 ;;
     r <~ ex_daemon_run [OCapacity] h.2 [] ;;
     x <~ handleContainerRequest (JA := ex_address_map) ex_manager ex_daemon_config
            (ex_run_env true) (ex_request "c2" 1000 2000 "" 0) r.1 ;; Ret (h.1, x.1)) (on ex_db) ∅
    (λ r _, (r.1 = Some HDuplicate \/ r.1 = Some HMountFailed) /\ r.2 = None).
Proof.
  intros request s0.
  refine (container_lock_leak (S := ref_server) (λ _, None) ex_manager ex_daemon_config
    (ex_run_env true) (ex_run_env true) request (ex_request "c2" 1000 2000 "" 0) [OCapacity] s0
    (on ex_db) ∅ eq_refl _).
  left. vm_compute. eauto.
Defined.
