(* ===== verification/EventBus.v ===== *)
(** * The event bus (pkg/common/events.go, key_events.go)

    An event is stored in Redis under the hash of its JSON and its identifier is
    published; every consumer that hears of it claims it, and an event to be handled
    by one consumer only ([LockAndDelete]) is locked while its callback runs and deleted
    when it succeeds.  The hash and JSON are parameters; a callback is a program.  Each
    claim makes a lock of its own: [me] names it. *)

From S2P Require Import Prelude GoStd Redis Keys Types Lock Interleave Env TaskRepo Primitives.

Local Open Scope Z_scope.
Set Default Proof Using "Type".

Definition eventPrefix : string := "event".
Definition eventChannelPrefix : string := "events".
Definition eventLockSuffix : string := "lock".
Definition eventRetriesSuffix : string := "retries".
Definition eventLockTtlS : Z := 60.
Definition eventTtlS : Z := 60.

Record Event := mkEvent {
  ev_Type : string;
  ev_Args : gmap string jvalue;
  ev_LockAndDelete : bool;
  ev_Retries : Z;
}.

Definition EventTypeStopContainer : string := "STOP_CONTAINER".
Definition EventTypeReloadInstance : string := "RELOAD_INSTANCE".
Definition StopBuildEventType (containerId : string) : string := "stop-build-" +:+ containerId.

Class EventCodec := {
  serialize : Event -> gerr + string;
  deserialize : string -> gerr + Event;
  (** base64 of the SHA-1 *)
  event_hash : string -> string;
}.

Definition event_key (eventId : string) : string := eventPrefix +:+ ":" +:+ eventId.
Definition event_lock (eventId : string) : string :=
  eventPrefix +:+ ":" +:+ eventId +:+ ":" +:+ eventLockSuffix.
Definition event_retries (eventId : string) : string :=
  eventPrefix +:+ ":" +:+ eventId +:+ ":" +:+ eventRetriesSuffix.
Definition event_channel (type : string) : string := eventChannelPrefix +:+ "/" +:+ type.

Section bus.
Context {EC : EventCodec}.

Definition Send (event : Event) : M string :=
  match serialize event with
  | inl e => fail e
  | inr data =>
      let eventId := event_hash data in
      res <- rcall (λ e, e) (CExists (event_key eventId)) ;;
      if 0 <? res then fail (EMsg ("event already exists: " +:+ event_key eventId))
      else
        SetEx (event_key eventId) data (eventTtlS * second) ;;
        r <~ cmd (CPublish (event_channel (ev_Type event)) eventId) ;;
        match r with
        | inl (RErr msg) => fail (EMsg ("failed to send event <" +:+ eventId +:+ ">: " +:+ msg))
        | inr _ => ok eventId
        end
  end.

Definition Delete (eventId : string) : M unit :=
  rcall (λ e, e) (CDel [event_key eventId]) ;; ok tt.

(** The event, and whether its lock was taken. *)
Definition Claim (me eventId : string) : prog (option (Event * bool)) :=
  r <~ cmd (CGet (event_key eventId)) ;;
  match r with
  | inl _ | inr None => Ret None
  | inr (Some data) =>
      match deserialize data with
      | inl _ => Ret None
      | inr event =>
          if ev_LockAndDelete event then
            r <~ Acquire me (event_lock eventId) eventLockTtlS 0 ;;
            Ret (match r with inl _ => None | inr _ => Some (event, true) end)
          else Ret (Some (event, false))
      end
  end.

(** The number a retry key holds; [Atoi] of anything else is 0. *)
Definition atoi (r : rerr + option string) : Z :=
  match r with inr (Some s) => default 0 (ParseInt 64 s) | _ => 0 end.

Definition resendEvent (channel eventId : string) (event : Event) : M unit :=
  res <- rcall (λ e, e) (CExists (event_retries eventId)) ;;
  retries <~ (if 0 <? res then r <~ cmd (CGet (event_retries eventId)) ;; Ret (atoi r) else Ret 0) ;;
  if wrap_i64 (ev_Retries event) <=? retries then fail (EMsg "hit event retry limit")
  else
    SetEx (event_retries eventId) (fmt_int (retries + 1)) (eventTtlS * second) ;;
    r <~ cmd (CPublish channel eventId) ;;
    match r with
    | inl (RErr msg) => fail (EMsg ("failed to resend event <" +:+ eventId +:+ ">: " +:+ msg))
    | inr _ => ok tt
    end.

(** [handleEvent] up to the deferred release. *)
Definition handle_body (callbacks : string -> option (Event -> prog bool)) (eventId : string) (event : Event)
    : prog unit :=
  let channel := event_channel (ev_Type event) in
  match callbacks (ev_Type event) with
  | None => cmd (CPublish channel eventId) ;~ Ret tt
  | Some callback =>
      success <~ callback event ;;
      if success : bool then
        if ev_LockAndDelete event then Delete eventId ;~ Ret tt else Ret tt
      else resendEvent channel eventId event ;~ Ret tt
  end.

Definition handleEvent (callbacks : string -> option (Event -> prog bool)) (me eventId : string)
    (event : Event) (locked : bool) : prog unit :=
  handle_body callbacks eventId event ;~
  if locked then Release me (event_lock eventId) ;~ Ret tt else Ret tt.

(** One message of [receive] and the goroutine it starts. *)
Definition consume (callbacks : string -> option (Event -> prog bool)) (me eventId : string) : prog unit :=
  r <~ Claim me eventId ;;
  match r with
  | None => Ret tt
  | Some (event, locked) => handleEvent callbacks me eventId event locked
  end.
End bus.

(** ** Keyspace events (key_events.go) *)

Definition keyspacePrefix : string := "__keyspace@0__:".
Definition KeyOperationSet : string := "set".

Record KeyEvent := mkKeyEvent { ke_Key : string; ke_Operation : string }.

Definition TrimKeyspacePrefix (key : string) : string := TrimPrefix key keyspacePrefix.

Definition fetchExistingKeys `{RM : RedisMode} (patternPrefix : string) : prog (option (gerr + list string)) :=
  r <~ Scan (patternPrefix +:+ "*") ;;
  Ret (scanned (λ keys, (λ key, TrimPrefix key patternPrefix) <$> keys) r).

(** The events [ListenForPattern] sends first, and the one it makes of a message. *)
Definition existing_events `{RM : RedisMode} (patternPrefix : string) : prog (option (gerr + list KeyEvent)) :=
  r <~ fetchExistingKeys patternPrefix ;;
  Ret (scanned (λ keys, (λ key, mkKeyEvent key KeyOperationSet) <$> keys) r).
Definition key_event (patternPrefix channel payload : string) : KeyEvent :=
  mkKeyEvent (TrimPrefix channel (keyspacePrefix +:+ patternPrefix)) payload.

(** ** Handlers of one event *)

Lemma event_key_ne_lock id : event_lock id <> event_key id.
Proof.
  unfold event_lock, event_key. intros E. apply (f_equal String.length) in E.
  rewrite !str_app_length in E. simpl in E. lia.
Qed.
Lemma event_lock_ne_retries id : event_lock id <> event_retries id.
Proof.
  unfold event_lock, event_retries. intros E. do 4 apply str_app_inj_l in E. done.
Qed.

Section handlers.
Context {EC : EventCodec} (eventId : string).
Local Abbreviation lkey := (event_lock eventId).

(** The consumer [name] is in the callback of a locked event: it has left a mark in the
    memory of its process. *)
Definition callback_mark : string := "callback".
Definition running (name : string) (L : lmap) : Prop := is_Some (L !! (name, callback_mark)).

(** A callback that leaves such a mark while it runs. *)
Definition observe (me : string) (callback : Event -> prog bool) (event : Event) : prog bool :=
  if ev_LockAndDelete event then
    Loc (λ L, (tt, <[(me, callback_mark) := ""]> L)) (λ _,
      success <~ callback event ;;
      Loc (λ L, (tt, delete (me, callback_mark) L)) (λ _, Ret success))
  else callback event.

(** A program that touches neither the lock of the event nor the marks. *)
Fixpoint quiet {A} (p : prog A) : Prop :=
  match p with
  | Ret _ => True
  | Do c k => (lkey ∉ cmd_keys c) /\ forall r, quiet (k r)
  | Loc f k => (forall L name, running name (f L).2 -> running name L) /\ forall r, quiet (k r)
  end.

Lemma quiet_pbind {A B} (p : prog A) (f : A -> prog B) :
  quiet p -> (forall a, quiet (f a)) -> quiet (pbind p f).
Proof. intros Hp Hf. induction p as [a|R c k IH|R h k IH]; simpl in *; [apply Hf|split; [apply Hp|]..]; intros r; by apply IH, Hp. Qed.
Lemma quiet_cmd {R} (c : rcmd R) : lkey ∉ cmd_keys c -> quiet (cmd c).
Proof. by split. Qed.
Lemma quiet_rcall {R} w (c : rcmd R) : lkey ∉ cmd_keys c -> quiet (rcall w c).
Proof. intros H. split; [exact H|]. by intros [e|r]. Qed.
Lemma quiet_mbind {A B} (p : M A) (f : A -> M B) : quiet p -> (forall a, quiet (f a)) -> quiet (mbind p f).
Proof. intros Hp Hf. apply quiet_pbind; [done|]. by intros [e|a]. Qed.

Lemma quiet_SetEx k v e : lkey <> k -> quiet (SetEx k v e).
Proof.
  intros Hne. unfold SetEx. case_match; [done|]. apply quiet_rcall. cbn [cmd_keys].
  by rewrite list_elem_of_singleton.
Qed.

Lemma quiet_resend channel event : quiet (resendEvent channel eventId event).
Proof.
  unfold resendEvent. apply quiet_mbind; [apply quiet_rcall, not_elem_of_nil|]. intros n.
  apply quiet_pbind.
  { case_match; [|done]. apply quiet_pbind; [apply quiet_cmd, not_elem_of_nil|done]. }
  intros k. case_match; [done|]. apply quiet_mbind; [apply quiet_SetEx, event_lock_ne_retries|].
  intros []. apply quiet_pbind; [apply quiet_cmd, not_elem_of_nil|]. by intros [[]|].
Qed.

(** What follows the callback. *)
Lemma quiet_finish event (success : bool) :
  quiet (if success
         then if ev_LockAndDelete event then Delete eventId ;~ Ret tt else Ret tt
         else resendEvent (event_channel (ev_Type event)) eventId event ;~ Ret tt).
Proof.
  destruct success; [|apply quiet_pbind; [apply quiet_resend|done]].
  case_match; [|done]. apply quiet_pbind; [|done]. apply quiet_mbind; [|done].
  apply quiet_rcall. cbn [cmd_keys]. rewrite list_elem_of_singleton. apply event_key_ne_lock.
Qed.

(** *** The protocol: a consumer holds the lock or not, and runs its callback or not *)

Inductive handling := HIdle | HLocked | HRunning (name : string).
#[local] Instance handling_eq_dec : EqDecision handling.
Proof. solve_decision. Defined.

Definition locked_at (g : handling) : bool := match g with HIdle => false | _ => true end.

Definition handling_move (g : handling) (d : rdb) (L : lmap) (g' : handling) (d' : rdb) (L' : lmap) : Prop :=
  lock_move lkey (locked_at g) d (locked_at g') d' /\
  forall name, running name L' -> g' = HRunning name \/ (running name L /\ g <> HRunning name).

Definition handling_inv (gs : list handling) (d : rdb) (L : lmap) : Prop :=
  lock_inv lkey (locked_at <$> gs) d /\
  forall name, running name L -> exists i, gs !! i = Some (HRunning name).

Lemma handling_inv_move gs i g g' d L d' L' :
  gs !! i = Some g -> handling_move g d L g' d' L' -> handling_inv gs d L -> handling_inv (<[i := g']> gs) d' L'.
Proof.
  intros Hi [Hl Hm] [H1 H2]. split.
  - rewrite list_fmap_insert. eapply lock_inv_move; [|exact Hl|done]. by rewrite list_lookup_fmap, Hi.
  - intros name Hn. destruct (Hm name Hn) as [->|[Hn' Hne]].
    + exists i. apply list_lookup_insert_eq. by eapply lookup_lt_Some.
    + destruct (H2 name Hn') as [j Hj]. exists j. rewrite list_lookup_insert_ne; [done|]. intros ->. congruence.
Qed.

(** A move that keeps the lock's key, or that takes or frees the lock. *)
Lemma move_quiet g d L d' L' :
  kv d' !! lkey = kv d !! lkey -> (forall name, running name L' -> running name L) -> handling_move g d L g d' L'.
Proof.
  intros E Hm. split; [by apply lock_move_same|]. intros name Hn.
  destruct (decide (g = HRunning name)) as [->|]; [by left|right]. auto.
Qed.
Lemma move_lock g d L g' d' :
  lock_move lkey (locked_at g) d (locked_at g') d' -> g = HIdle \/ g = HLocked -> handling_move g d L g' d' L.
Proof. intros Hl Hg. split; [done|]. intros name Hn. right. split; [done|]. by destruct Hg as [-> | ->]. Qed.

Lemma tracks_quiet {A} (p : prog A) g post :
  quiet p -> (forall a, post a g) -> tracks handling_move p g post.
Proof.
  intros Hp Hpost. induction p as [a|R c k IH|R h k IH]; simpl in *; [done| |]; destruct Hp as [Hc Hk].
  - intros d L. assert (forall d', eq_except (list_to_set (cmd_keys c)) d d' -> handling_move g d L g d' L) as Hf.
    { intros d' He. apply move_quiet; [|done]. apply (eq_except_kv _ _ _ _ He). by rewrite elem_of_list_to_set. }
    split; intros r d' Hd; exists g; (split; [|by apply IH]); apply Hf;
      [eapply rsem_frame|eapply lost_frame]; try exact Hd; intros k'; by rewrite elem_of_list_to_set.
  - intros d L. exists g. split; [|by apply IH]. apply move_quiet; [done|apply Hc].
Qed.

(** Entries of the lock map are no marks. *)
Lemma running_other me name (f : option string) (L : lmap) :
  running name (partial_alter (λ _, f) (me, lkey) L) -> running name L.
Proof. unfold running. by rewrite lookup_partial_alter_ne. Qed.

Lemma tracks_claim me :
  tracks handling_move (Claim me eventId) HIdle (λ r g,
    match r with
    | None => g = HIdle
    | Some (event, locked) => locked = ev_LockAndDelete event /\ g = if locked then HLocked else HIdle
    end).
Proof.
  unfold Claim. eapply tracks_pbind with (mid := λ _ g, g = HIdle).
  { apply tracks_quiet; [apply quiet_cmd, not_elem_of_nil|done]. }
  intros [e|[data|]] g ->; [done| |done]. destruct (deserialize data) as [e|event]; [done|].
  destruct (ev_LockAndDelete event) eqn:El; [|done].
  eapply tracks_pbind with (mid := λ r g, g = match r with inr _ => HLocked | inl _ => HIdle end);
    [|by intros [e|[]] g ->; rewrite ?El].
  unfold Acquire. eapply tracks_pbind with (mid := λ r g, g = match r with inr (Some _) => HLocked | _ => HIdle end).
  - intros d L. split.
    + intros [tok|] d' H; eexists; (split; [|done]); (apply move_lock; [|by left]).
      * destruct H as [Hn ->]. right; left. simpl. rewrite lookup_insert_eq. eauto.
      * destruct H as [_ ->]. by apply lock_move_same.
    + intros e d' [->|[r H]]; eexists; (split; [|done]); (apply move_lock; [|by left]); [by apply lock_move_same|].
      left. split; [done|]. intros [v Hv]. destruct r as [tok|], H as [H1 H2]; [congruence|]. by rewrite H2, Hv.
  - intros [e|[tok|]] g ->; simpl; try done. intros d L. exists HLocked. split; [|done].
    apply move_quiet; [done|]. intros name. apply (running_other me name (Some tok)).
Qed.

Lemma tracks_release me :
  tracks handling_move (Release me lkey) HLocked (λ _ g, g = HIdle).
Proof.
  unfold Release. simpl. intros d L. destruct (L !! (me, lkey)) as [tok|].
  - exists HLocked. split; [by apply move_quiet|]. eapply tracks_pbind with (mid := λ _ g, g = HIdle).
    { intros d1 L1. split; intros; exists HIdle; (split; [|done]); (apply move_lock; [|by right]); right; by right. }
    intros [e|[]] g ->; simpl; try done. intros d1 L1. exists HIdle. split; [|done].
    apply move_quiet; [done|]. intros name. apply (running_other me name None).
  - exists HIdle. split; [|done]. apply move_lock; [|by right]. right; by right.
Qed.

(** The callback of a locked event runs while the lock is held. *)
Lemma tracks_observed me callback event :
  (forall e, quiet (callback e)) ->
  let g := if ev_LockAndDelete event then HLocked else HIdle in
  tracks handling_move (observe me callback event) g (λ _ g', g' = g).
Proof.
  intros Hcb. unfold observe. destruct (ev_LockAndDelete event); [|by apply tracks_quiet].
  intros d L. exists (HRunning me). split.
  { split; [by apply lock_move_same|]. intros name. unfold running. simpl.
    destruct (decide (name = me)) as [->|Hne]; [by left|]. rewrite lookup_insert_ne by congruence. by right. }
  eapply tracks_pbind with (mid := λ _ g, g = HRunning me); [by apply tracks_quiet|].
  intros success g ->. intros d1 L1. exists HLocked. split; [|done].
  split; [by apply lock_move_same|]. intros name. unfold running. simpl.
  destruct (decide (name = me)) as [->|Hne]; [rewrite lookup_delete_eq; by intros []|].
  rewrite lookup_delete_ne by congruence. right. split; [done|]. congruence.
Qed.

Lemma tracks_consume me callbacks :
  (forall t cb e, callbacks t = Some cb -> quiet (cb e)) ->
  tracks handling_move (consume (λ t, observe me <$> callbacks t) me eventId) HIdle (ends_idle HIdle).
Proof.
  intros Hcb. unfold consume. eapply tracks_pbind; [apply tracks_claim|].
  intros [[event locked]|] g; [|by intros ->]. intros [-> ->]. unfold handleEvent.
  eapply tracks_pbind with (mid := λ _ g, g = if ev_LockAndDelete event then HLocked else HIdle).
  - unfold handle_body. destruct (callbacks (ev_Type event)) as [cb|] eqn:E; cbn [fmap option_fmap option_map].
    + eapply tracks_pbind; [apply tracks_observed; intros e; by eapply Hcb|].
      intros success g ->. apply tracks_quiet; [apply quiet_finish|done].
    + apply tracks_quiet; [|done]. apply quiet_pbind; [apply quiet_cmd, not_elem_of_nil|done].
  - intros [] g ->. destruct (ev_LockAndDelete event); [|done].
    eapply tracks_pbind; [apply tracks_release|]. by intros r g ->.
Qed.

(** A consumer of the event with observed callbacks, or a loop that leaves its lock alone. *)
Definition consumer (t : thread) : Prop :=
  exists body, t = Loop body body /\
    (quiet body \/
     exists me callbacks, (forall t cb e, callbacks t = Some cb -> quiet (cb e)) /\
       body = consume (λ t, observe me <$> callbacks t) me eventId).

Lemma consumers_idle ts :
  Forall consumer ts -> Forall2 (loop_at handling_move HIdle) ts (replicate (length ts) HIdle).
Proof.
  intros H. apply Forall2_replicate_r; [done|]. eapply Forall_impl; [exact H|].
  intros t (body & -> & Hb). exists body, body. split; [done|].
  assert (tracks handling_move body HIdle (ends_idle HIdle)) as Ht; [|done].
  destruct Hb as [Hq|(me & cbs & Hcb & ->)]; [by apply tracks_quiet|by apply tracks_consume].
Qed.
End handlers.

(** Two threads that hold the lock are one. *)
Lemma one_holder gs i j :
  (holders gs <= 1)%nat -> gs !! i = Some true -> gs !! j = Some true -> i = j.
Proof.
  revert i j. induction gs as [|g gs IH]; intros [|i] [|j] H Hi Hj; simplify_eq/=; [done|..].
  - exfalso. unfold holders in H. rewrite filter_cons in H. simpl in H.
    assert (true ∈ filter (λ g, g = true) gs) as Hin
      by (apply list_elem_of_filter; split; [done|by eapply list_elem_of_lookup_2]).
    destruct (filter _ gs); [by apply not_elem_of_nil in Hin|]. simpl in H. lia.
  - exfalso. unfold holders in H. rewrite filter_cons in H. simpl in H.
    assert (true ∈ filter (λ g, g = true) gs) as Hin
      by (apply list_elem_of_filter; split; [done|by eapply list_elem_of_lookup_2]).
    destruct (filter _ gs); [by apply not_elem_of_nil in Hin|]. simpl in H. lia.
  - f_equal. apply IH; [|done..]. unfold holders in *. rewrite filter_cons in H. case_decide; simpl in H; lia.
Qed.

(** C22. However the goroutines that [consume] the messages of an event interleave their
    commands with each other's and with those of loops that leave the lock of the event
    alone, and whatever commands fail or lose their replies: of the consumers, which have
    names of their own, at most one at a time is in its callback for the event when the event
    asks for a lock ([LockAndDelete]); the expiry of the lock apart. *)
Theorem event_handlers_exclusive `{EC : EventCodec} (eventId : string) (s s' : system) :
  Forall (consumer eventId) (threads s) -> (forall name, ~ running name (locks s)) ->
  reaches s s' ->
  forall a b, running a (locks s') -> running b (locks s') -> a = b.
Proof.
  intros Hs Hn Hr a b Ha Hb.
  destruct (tracks_sound (handling_move eventId) HIdle (handling_inv eventId) s s'
    (replicate (length (threads s)) HIdle)) as (gs & _ & [[H1 _] H2]).
  - intros. by eapply handling_inv_move.
  - by apply consumers_idle.
  - split; [|by intros name ?%Hn]. rewrite fmap_replicate. unfold lock_inv. rewrite holders_idle. lia.
  - done.
  - destruct (H2 a Ha) as [i Hi], (H2 b Hb) as [j Hj].
    assert (i = j) as -> by (eapply one_holder; [exact H1|by rewrite list_lookup_fmap, ?Hi, ?Hj..]).
    rewrite Hi in Hj. by injection Hj.
Qed.

(** ** An event handled twice *)

(** [may p Q]: [p] can run, without a failure, to an end in [Q]. *)
Fixpoint may {A} (p : prog A) (Q : A -> rdb -> lmap -> Prop) (d : rdb) (L : lmap) : Prop :=
  match p with
  | Ret a => Q a d L
  | Do c k => exists r d', rsem c d r d' /\ may (k (inr r)) Q d' L
  | Loc f k => may (k (f L).1) Q d (f L).2
  end.

Lemma may_pbind {A B} (p : prog A) (f : A -> prog B) Q d L :
  may p (λ a, may (f a) Q) d L -> may (pbind p f) Q d L.
Proof.
  revert d L. induction p as [a|R c k IH|R g k IH]; intros d L; simpl; [done| |apply IH].
  intros (r & d' & Hr & H). exists r, d'. split; [done|]. by apply IH.
Qed.

Lemma may_Ret {A} (a : A) (Q : A -> rdb -> lmap -> Prop) d L : Q a d L -> may (Ret a) Q d L.
Proof. exact id. Qed.
Lemma may_Loc {A R} (f : lmap -> R * lmap) (k : R -> prog A) Q d L :
  may (k (f L).1) Q d (f L).2 -> may (Loc f k) Q d L.
Proof. exact id. Qed.

(** A thread of a pool runs to its end alone. *)
Lemma may_reaches i ts body p Q d L :
  ts !! i = Some (Loop body p) -> may p Q d L ->
  exists d' L', Q tt d' L' /\
    reaches (mkSys ts d L) (mkSys (<[i := Loop body (Ret tt)]> ts) d' L').
Proof.
  revert ts d L. induction p as [[]|R c k IH|R f k IH]; intros ts d L Hi H; simpl in H.
  - exists d, L. split; [done|]. rewrite (list_insert_id ts i _ Hi). apply rtc_refl.
  - destruct H as (r & d1 & Hr & H).
    destruct (IH (inr r) (<[i := Loop body (k (inr r))]> ts) d1 L) as (d' & L' & HQ & Hs); [|done|].
    { apply list_lookup_insert_eq. by eapply lookup_lt_Some. }
    exists d', L'. split; [done|]. rewrite list_insert_insert_eq in Hs. eapply rtc_l; [|exact Hs].
    econstructor; [exact Hi|]. constructor. split; [done|]. left. exists r. by split.
  - destruct (IH (f L).1 (<[i := Loop body (k (f L).1)]> ts) d (f L).2) as (d' & L' & HQ & Hs); [|done|].
    { apply list_lookup_insert_eq. by eapply lookup_lt_Some. }
    exists d', L'. split; [done|]. rewrite list_insert_insert_eq in Hs. eapply rtc_l; [|exact Hs].
    econstructor; [exact Hi|]. constructor. by split.
Qed.

Section twice.
Context {EC : EventCodec} (callbacks : string -> option (Event -> prog bool)).
Context (eventId data counter : string) (event : Event).
Context (Hl : ev_LockAndDelete event = true).
Context (Hcb : callbacks (ev_Type event) = Some (λ _, cmd (CIncr counter) ;~ Ret true)).
Context (Hne1 : counter <> event_key eventId) (Hne2 : counter <> event_lock eventId).

(** A consumer that has read the event, from there on. *)
Definition read_already (me : string) : prog unit :=
  r <~ (r <~ Acquire me (event_lock eventId) eventLockTtlS 0 ;;
        Ret (match r with inl _ => None | inr _ => Some (event, true) end)) ;;
  match r with
  | None => Ret tt
  | Some (event, locked) => handleEvent callbacks me eventId event locked
  end.

Lemma may_handle me n d L :
  kv d !! event_lock eventId = None -> as_int (kv d !! counter) = Some n -> in_i64 (n + 1) ->
  may (read_already me) (λ _ d' _, kv d' !! event_lock eventId = None /\
    kv d' !! event_key eventId = None /\ kv d' !! counter = Some (RVStr (fmt_int (n + 1)))) d L.
Proof using Hl Hcb Hne1 Hne2.
  intros Hfree Hn Hw. pose proof (event_key_ne_lock eventId) as Hne3.
  unfold read_already, Acquire. apply may_pbind, may_pbind, may_pbind. exists (Some "t"). eexists. split; [by split|].
  apply may_Ret, may_Loc, may_Ret, may_Ret. cbn [fst snd]. unfold handleEvent, handle_body. rewrite Hcb.
  apply may_pbind, may_pbind, may_pbind. eexists _, _. split.
  { simpl. unfold incr_by. simpl. rewrite lookup_insert_ne by done. rewrite Hn. simpl.
    rewrite bool_decide_true by done. reflexivity. }
  apply may_Ret, may_Ret. rewrite Hl. apply may_pbind. unfold Delete. apply may_pbind, may_pbind.
  eexists 0, _. split; [reflexivity|].
  apply may_Ret, may_Ret, may_Ret, may_Ret, may_pbind. unfold Release. apply may_Loc. cbn [fst snd].
  rewrite lookup_insert_eq. apply may_pbind. exists true. eexists. split.
  { simpl. rewrite decide_True; [by split|]. by rewrite lookup_delete_ne, lookup_insert_ne, lookup_insert_eq. }
  apply may_Ret, may_Loc, may_Ret, may_Ret. simpl. split; [apply lookup_delete_eq|].
  split; [by rewrite lookup_delete_ne, lookup_delete_eq|]. by rewrite !lookup_delete_ne, lookup_insert_eq.
Qed.
End twice.

(** The lock of an event does not make it be handled once.  [Claim] reads the event
    before it takes the lock: if a second consumer has read it when the first one takes
    the lock, handles the event, deletes it and releases the lock, the second one then
    takes the lock and handles the deleted event again. *)
Theorem event_handled_twice `{EC : EventCodec} (callbacks : string -> option (Event -> prog bool))
    (eventId data counter : string) (event : Event) (d : rdb) (L : lmap) :
  kv d !! event_key eventId = Some (RVStr data) -> deserialize data = inr event ->
  ev_LockAndDelete event = true -> kv d !! event_lock eventId = None ->
  callbacks (ev_Type event) = Some (λ _, cmd (CIncr counter) ;~ Ret true) ->
  kv d !! counter = None -> counter <> event_key eventId -> counter <> event_lock eventId ->
  let c me := consume callbacks me eventId in
  exists s', reaches (mkSys [Loop (c "a") (c "a"); Loop (c "b") (c "b")] d L) s' /\
    kv (db s') !! counter = Some (RVStr "2") /\ kv (db s') !! event_key eventId = None.
Proof.
  intros Hk Hd Hl Hfree Hcb Hc Hne1 Hne2 c.
  assert (forall me, tstep (Loop (c me) (c me)) d L (Loop (c me) (read_already callbacks eventId event me)) d L) as Hget.
  { intros me. constructor. split; [done|]. left. exists (Some data). split; [by simpl; rewrite Hk|].
    change (read_already callbacks eventId event me =
      (r <~ match deserialize data with
            | inl _ => Ret None
            | inr event =>
                if ev_LockAndDelete event then
                  r <~ Acquire me (event_lock eventId) eventLockTtlS 0 ;;
                  Ret (match r with inl _ => None | inr _ => Some (event, true) end)
                else Ret (Some (event, false))
            end ;;
       match r with
       | None => Ret tt
       | Some (event, locked) => handleEvent callbacks me eventId event locked
       end)). by rewrite Hd, Hl. }
  set (r me := Loop (c me) (read_already callbacks eventId event me)).
  assert (reaches (mkSys [Loop (c "a") (c "a"); Loop (c "b") (c "b")] d L) (mkSys [r "a"; r "b"] d L)) as H0.
  { eapply rtc_l; [exact (s_thread 0 [_; _] _ _ _ _ _ _ eq_refl (Hget "a"))|].
    eapply rtc_l; [exact (s_thread 1 [_; _] _ _ _ _ _ _ eq_refl (Hget "b"))|]. apply rtc_refl. }
  destruct (may_reaches 0 [r "a"; r "b"] (c "a") _ _ d L eq_refl
    (may_handle callbacks eventId counter event Hl Hcb Hne1 Hne2 "a" 0 d L Hfree
       ltac:(by rewrite Hc) ltac:(done))) as (d1 & L1 & (H1 & _ & H3) & Hr1).
  destruct (may_reaches 1 [Loop (c "a") (Ret tt); r "b"] (c "b") _ _ d1 L1 eq_refl
    (may_handle callbacks eventId counter event Hl Hcb Hne1 Hne2 "b" 1 d1 L1 H1
       ltac:(by rewrite H3) ltac:(done))) as (d2 & L2 & (_ & H5 & H6) & Hr2).
  exists (mkSys [Loop (c "a") (Ret tt); Loop (c "b") (Ret tt)] d2 L2). split; [|by split].
  etransitivity; [exact H0|]. etransitivity; [exact Hr1|exact Hr2].
Qed.

(** ** Concrete events *)

(** Stop events, by the container they stop. *)
Definition stop_codec : EventCodec := {|
  serialize e := match ev_Args e !! "container_id" with
                 | Some (JStr c) => inr c
                 | _ => inl (EMsg "args")
                 end;
  deserialize s := inr (mkEvent EventTypeStopContainer {[ "container_id" := JStr s ]} true 3);
  event_hash s := s;
|}.
Definition ex_event : Event := mkEvent EventTypeStopContainer {[ "container_id" := JStr "c1" ]} true 3.
Definition ex_callbacks : string -> option (Event -> prog bool) :=
  λ _, Some (λ _, cmd (CIncr "handled") ;~ Ret true).
Definition ex_event_db : rdb := mkRdb {[ event_key "c1" := RVStr "c1" ]} ∅.

Lemma event_handled_twice_witness :
  let c me := consume (EC := stop_codec) ex_callbacks me "c1" in
  exists s', reaches (mkSys [Loop (c "a") (c "a"); Loop (c "b") (c "b")] ex_event_db ∅) s' /\
    kv (db s') !! "handled" = Some (RVStr "2") /\ kv (db s') !! event_key "c1" = None.
Proof.
  apply (event_handled_twice (EC := stop_codec) ex_callbacks "c1" "c1" "handled" ex_event ex_event_db ∅);
    first [reflexivity | discriminate].
Defined.

(** The first of two consumers is in its callback when the second has read the event and
    tried to lock it. *)
Lemma event_handlers_exclusive_witness :
  let c me := consume (EC := stop_codec) (λ t, observe me <$> ex_callbacks t) me "c1" in
  let s := schedule [0; 1; 0; 1; 0; 0; 0; 1]%nat (mkSys [Loop (c "a") (c "a"); Loop (c "b") (c "b")] ex_event_db ∅) in
  (forall a b, running a (locks s) -> running b (locks s) -> a = b) /\ running "a" (locks s) /\ ~ running "b" (locks s).
Proof.
  intros c s. split; [|split; [vm_compute; eexists; reflexivity|vm_compute; intros [x Hx]; discriminate Hx]].
  apply (event_handlers_exclusive (EC := stop_codec) "c1"
    (mkSys [Loop (c "a") (c "a"); Loop (c "b") (c "b")] ex_event_db ∅)); [| |apply schedule_reaches].
  - assert (forall t cb e, ex_callbacks t = Some cb -> quiet "c1" (cb e)) as Hcb.
    { intros t cb e [= <-]. apply quiet_pbind; [|done]. apply quiet_cmd. cbn [cmd_keys].
      rewrite list_elem_of_singleton. discriminate. }
    repeat apply Forall_cons_2; try apply Forall_nil_2.
    + exists (c "a"). split; [done|]. right. by exists "a", ex_callbacks.
    + exists (c "b"). split; [done|]. right. by exists "b", ex_callbacks.
  - intros name [x Hx]. simpl in Hx. by rewrite lookup_empty in Hx.
Defined.
