(* ===== verification/Bot.v ===== *)
(** * Bots (pkg/abstractions/experimental/bot: state.go, instance.go, bot.go, task.go, types.go)

    A bot is a Petri net: locations hold markers, and a transition that finds enough
    markers in its input locations takes them and dispatches a task.  The state of a
    session is in Redis ([botStateManager]); the instance runs [step] for each active
    session.  Ranges over Go maps take their order as an argument; JSON is a parameter
    ([BotJson]). *)

From S2P Require Import Prelude GoStd Redis Keys Types Lock Env ContainerRepo PoolManager TaskRepo Dispatcher.

Local Open Scope Z_scope.
Set Default Proof Using "Type".

(** ** Keys (bot.go) *)

Definition botLock_fmt : string := "bot:%s:%s:session_state_lock:%s".
Definition botInputBuffer_fmt : string := "bot:%s:%s:input_buffer:%s".
Definition botEventPair_fmt : string := "bot:%s:%s:event_pair:%s:%s".
Definition botEventBuffer_fmt : string := "bot:%s:%s:event_buffer:%s".
Definition botEventHistory_fmt : string := "bot:%s:%s:event_history:%s".
Definition botSessionIndex_fmt : string := "bot:%s:%s:session_index".
Definition botSessionState_fmt : string := "bot:%s:%s:session_state:%s".
Definition botSessionKeepAlive_fmt : string := "bot:%s:%s:session_keep_alive:%s".
Definition botMarkers_fmt : string := "bot:%s:%s:markers:%s:%s".
Definition botTaskIndex_fmt : string := "bot:%s:%s:task_index:%s:%s".
Definition botTransitionTask_fmt : string := "bot:%s:%s:transition_task:%s:%s:%s".

Definition botLock (ws stub session : string) : string := sprintf botLock_fmt [ws; stub; session].
Definition botSessionIndex (ws stub : string) : string := sprintf botSessionIndex_fmt [ws; stub].
Definition botInputBuffer (ws stub session : string) : string := sprintf botInputBuffer_fmt [ws; stub; session].
Definition botEventPair (ws stub session pairId : string) : string :=
  sprintf botEventPair_fmt [ws; stub; session; pairId].
Definition botEventBuffer (ws stub session : string) : string := sprintf botEventBuffer_fmt [ws; stub; session].
Definition botEventHistory (ws stub session : string) : string := sprintf botEventHistory_fmt [ws; stub; session].
Definition botSessionState (ws stub session : string) : string := sprintf botSessionState_fmt [ws; stub; session].
Definition botSessionKeepAlive (ws stub session : string) : string :=
  sprintf botSessionKeepAlive_fmt [ws; stub; session].
Definition botMarkers (ws stub session location : string) : string :=
  sprintf botMarkers_fmt [ws; stub; session; location].
(** The format has one verb more than the arguments. *)
Definition botTaskIndex (ws stub session : string) : string := sprintf botTaskIndex_fmt [ws; stub; session].
Definition botTransitionTask (ws stub session transition taskId : string) : string :=
  sprintf botTransitionTask_fmt [ws; stub; session; transition; taskId].

(** ** Data (types.go) *)

Record MarkerField := mkMarkerField { mf_FieldName : string; mf_FieldValue : string }.
Record Marker := mkMarker {
  mk_LocationName : string;
  mk_Fields : list MarkerField;
  mk_SourceTaskId : string;
}.

Record BotEvent := mkBotEvent {
  be_Type : string;
  be_Value : string;
  be_Metadata : gmap string string;
  be_PairId : string;
}.

Record BotChatCompletionMessage := mkBotMessage {
  bm_Role : string;
  bm_Content : string;
  bm_Name : string;
}.

Record BotSession := mkBotSession {
  bs_Id : string;
  bs_Messages : list BotChatCompletionMessage;
  bs_CreatedAt : Z;
  bs_EventHistory : list BotEvent;
}.

Record BotEventPair := mkBotEventPair { bp_Request : BotEvent; bp_Response : BotEvent }.

(** The fields of [BotTransitionConfig] that the net uses. *)
Record BotTransitionConfig := mkBotTransition {
  bt_Name : string;
  bt_Inputs : gmap string Z;
  bt_Outputs : list string;
  bt_Confirm : bool;
}.

Definition BotEventTypeUserMessage : string := "user_message".
Definition BotEventTypeTransitionMessage : string := "transition_message".
Definition BotEventTypeMemoryMessage : string := "memory_message".
Definition BotEventTypeTransitionFired : string := "transition_fired".
Definition BotEventTypeTransitionFailed : string := "transition_failed".
Definition BotEventTypeNetworkState : string := "network_state".
Definition BotEventTypeConfirmTransition : string := "confirm_transition".
Definition BotEventTypeAcceptTransition : string := "accept_transition".
Definition BotEventTypeRejectTransition : string := "reject_transition".
Definition BotEventTypeConfirmRequest : string := "confirm_request".
Definition BotEventTypeConfirmResponse : string := "confirm_response".
Definition MetadataSessionId : string := "session_id".
Definition MetadataTransitionName : string := "transition_name".
Definition MetadataTaskId : string := "task_id".
Definition MetadataErrorMsg : string := "error_msg".

(** [parseContainerId]: the stub and the session of a bot container. *)
Definition parseContainerId (containerId : string) : gerr + string * string :=
  let parts := split_on "-"%char containerId in
  if (length parts <? 8)%nat then inl (EMsg "invalid container id")
  else inr (String.concat "-" (take 5 (drop 2 parts)), nth 7 parts "").

(** [uuid8] is [uuid.New().String()[:8]]. *)
Definition genContainerId (containerType stubId sessionId uuid8 : string) : string :=
  "bot-" +:+ containerType +:+ "-" +:+ stubId +:+ "-" +:+ sessionId +:+ "-" +:+ uuid8.

Class BotJson := {
  marshalMarker : Marker -> gerr + string;
  unmarshalMarker : string -> gerr + Marker;
  marshalMarkers : list Marker -> gerr + string;
  unmarshalMarkers : string -> gerr + list Marker;
  marshalEvent : BotEvent -> gerr + string;
  unmarshalEvent : string -> gerr + BotEvent;
  marshalPair : BotEventPair -> gerr + string;
  unmarshalPair : string -> gerr + BotEventPair;
  marshalSession : BotSession -> gerr + string;
  unmarshalSession : string -> gerr + BotSession;
  (** the network snapshot of a session *)
  marshalSnapshot : string -> gmap string Z -> gerr + string;
}.

Definition ErrBotSessionNotFound : gerr := EMsg "bot session not found".

(** ** The state manager (state.go) *)

Section state.
Context {BJ : BotJson} (ws stub : string).

Definition of_json {A} (r : gerr + A) : M A := Ret r.

Definition loadSession (session : string) : M BotSession :=
  o <- rcall (λ e, e) (CGet (botSessionState ws stub session)) ;;
  match o with
  | None => fail ErrBotSessionNotFound
  | Some jsonData => of_json (unmarshalSession jsonData)
  end.

Definition updateSession (now : Z) (session : string) (state : BotSession) : M unit :=
  with_lock "bot" (botLock ws stub session) 10 0 (
    n <- rcall (λ e, e) (CExists (botSessionState ws stub session)) ;;
    state <- (if n =? 0 then
                rcall (λ e, e) (CSAdd (botSessionIndex ws stub) session) ;;
                ok (mkBotSession (bs_Id state) (bs_Messages state) now (bs_EventHistory state))
              else ok state) ;;
    jsonData <- of_json (marshalSession state) ;;
    rcall (λ e, e) (CSet (botSessionState ws stub session) jsonData 0)).

Definition sessionKeepAlive (session : string) (ttlS : Z) : M unit :=
  rcall (λ e, e) (CSet (botSessionKeepAlive ws stub session) "1" (Z.max 0 (wrap_i64 (ttlS * second)))).

Fixpoint delete_keys (keys : list string) : M unit :=
  match keys with
  | [] => ok tt
  | k :: keys' => rcall (λ e, e) (CDel [k]) ;; delete_keys keys'
  end.

Definition deleteSession (session : string) : M unit :=
  rcall (λ e, e) (CDel [botSessionState ws stub session]) ;;
  taskKeys <- rcall (λ e, e) (CSMembers (botTaskIndex ws stub session)) ;;
  delete_keys taskKeys ;;
  rcall (λ e, e) (CDel [botTaskIndex ws stub session]) ;;
  rcall (λ e, e) (CDel [botEventHistory ws stub session]) ;;
  rcall (λ e, e) (CSRem (botSessionIndex ws stub) session).

Fixpoint load_all (ids : list string) : M (list BotSession) :=
  match ids with
  | [] => ok []
  | id :: ids' => session <- loadSession id ;; rest <- load_all ids' ;; ok (session :: rest)
  end.

Definition listSessions : M (list BotSession) :=
  ids <- rcall (λ e, e) (CSMembers (botSessionIndex ws stub)) ;; load_all ids.

Fixpoint decode_events (l : list string) : gerr + list BotEvent :=
  match l with
  | [] => inr []
  | jsonData :: l' =>
      match unmarshalEvent jsonData with
      | inl e => inl e
      | inr event => match decode_events l' with inl e => inl e | inr es => inr (event :: es) end
      end
  end.

Definition getSession (session : string) : M BotSession :=
  s <- loadSession session ;;
  history <- rcall (λ e, e) (CLRange (botEventHistory ws stub session) 0 (-1)) ;;
  events <- of_json (decode_events history) ;;
  ok (mkBotSession (bs_Id s) (bs_Messages s) (bs_CreatedAt s) events).

(** [Val()] of a failed EXISTS is 0. *)
Fixpoint load_active (ids : list string) : M (list BotSession) :=
  match ids with
  | [] => ok []
  | id :: ids' =>
      n <~ cmd (CExists (botSessionKeepAlive ws stub id)) ;;
      match n with
      | inl _ | inr 0 => load_active ids'
      | inr _ => state <- loadSession id ;; rest <- load_active ids' ;; ok (state :: rest)
      end
  end.

Definition getActiveSessions : M (list BotSession) :=
  ids <- rcall (λ e, e) (CSMembers (botSessionIndex ws stub)) ;; load_active ids.

Definition pushMarker (session location : string) (m : Marker) : M unit :=
  match marshalMarker m with
  | inl e => fail e
  | inr jsonData => rcall (λ e, e) (CRPush (botMarkers ws stub session location) jsonData)
  end.

Definition popMarker (session location : string) : M Marker :=
  o <- rcall (λ e, e) (CLPop (botMarkers ws stub session location)) ;;
  match o with None => fail ERedisNil | Some bytes => of_json (unmarshalMarker bytes) end.

Definition countMarkers (session location : string) : M Z :=
  rcall (λ e, e) (CLLen (botMarkers ws stub session location)).

Definition pushTask (session transition taskId : string) (markers : list Marker) : M unit :=
  let taskKey := botTransitionTask ws stub session transition taskId in
  match marshalMarkers markers with
  | inl e => fail e
  | inr jsonData =>
      rcall (λ e, e) (CSet taskKey jsonData 0) ;;
      rcall (λ e, e) (CSAdd (botTaskIndex ws stub session) taskKey)
  end.

(** The markers stay in Redis. *)
Definition popTask (session transition taskId : string) : M (list Marker) :=
  o <- rcall (λ e, e) (CGet (botTransitionTask ws stub session transition taskId)) ;;
  match o with None => fail ERedisNil | Some bytes => of_json (unmarshalMarkers bytes) end.

Definition pushUserEvent (session : string) (event : BotEvent) : M unit :=
  match marshalEvent event with
  | inl e => fail e
  | inr jsonData =>
      rcall (λ e, e) (CRPush (botEventHistory ws stub session) jsonData) ;;
      rcall (λ e, e) (CRPush (botInputBuffer ws stub session) jsonData)
  end.

Definition pop_event_of (key : string) : M BotEvent :=
  o <- rcall (λ e, e) (CLPop key) ;;
  match o with None => fail ERedisNil | Some val => of_json (unmarshalEvent val) end.
Definition popUserEvent (session : string) : M BotEvent := pop_event_of (botInputBuffer ws stub session).
Definition popEvent (session : string) : M BotEvent := pop_event_of (botEventBuffer ws stub session).

Definition pushEvent (session : string) (event : BotEvent) : M unit :=
  match marshalEvent event with
  | inl e => fail e
  | inr jsonData =>
      (if String.eqb (be_Type event) BotEventTypeNetworkState then ok tt
       else rcall (λ e, e) (CRPush (botEventHistory ws stub session) jsonData)) ;;
      rcall (λ e, e) (CRPush (botEventBuffer ws stub session) jsonData)
  end.

Definition eventPairTtlS : Z := 120 * second.

Definition pushEventPair (session pairId : string) (request response : BotEvent) : M unit :=
  match marshalPair (mkBotEventPair request response) with
  | inl e => fail e
  | inr jsonData => rcall (λ e, e) (CSet (botEventPair ws stub session pairId) jsonData eventPairTtlS)
  end.

(** [ticks] polls happen before the context ends. *)
Fixpoint waitForEventPair (ticks : nat) (session pairId : string) : M BotEventPair :=
  match ticks with
  | O => fail (EMsg "timeout reached while waiting for event pair")
  | S ticks' =>
      r <~ cmd (CGet (botEventPair ws stub session pairId)) ;;
      match r with
      | inr (Some jsonData) => of_json (unmarshalPair jsonData)
      | inr None | inl _ => waitForEventPair ticks' session pairId
      end
  end.

Definition acquireLock (session : string) : M unit := Acquire "bot" (botLock ws stub session) 10 0.
Definition releaseLock (session : string) : M unit := Release "bot" (botLock ws stub session).

(** ** The instance (instance.go) *)

(** What a transition sends to the dispatcher. *)
Record firing := mkFiring {
  fi_transition : string;
  fi_markers : list Marker;
  fi_task : gerr + string;
}.

(** [order] ranges over a map of counts the first time, [order'] the second time.
    [dispatch confirm payload] is the dispatcher's [Send] (with confirmation) or
    [SendAndExecute]; it returns the identifier of the task. *)
Context (order order' : gmap string Z -> list (string * Z)).
Context (dispatch : bool -> string -> string -> list Marker -> M string).

(** The loop over the inputs: whether the transition can fire, and what to pop. *)
Fixpoint count_inputs (session : string) (inputs : list (string * Z)) (toPop : gmap string Z)
    : prog (bool * gmap string Z) :=
  match inputs with
  | [] => Ret (true, toPop)
  | (location, required) :: inputs' =>
      r <~ countMarkers session location ;;
      match r with
      | inl _ => count_inputs session inputs' toPop
      | inr count =>
          if count <? required then Ret (false, toPop)
          else count_inputs session inputs' (<[location := required]> toPop)
      end
  end.

Fixpoint pop_location (session location : string) (n : nat) : prog (list Marker) :=
  match n with
  | O => Ret []
  | S n' =>
      r <~ popMarker session location ;;
      rest <~ pop_location session location n' ;;
      Ret (match r with inl _ => rest | inr m => m :: rest end)
  end.

Fixpoint pop_inputs (session : string) (toPop : list (string * Z)) : prog (list Marker) :=
  match toPop with
  | [] => Ret []
  | (location, required) :: toPop' =>
      ms <~ pop_location session location (Z.to_nat required) ;;
      rest <~ pop_inputs session toPop' ;;
      Ret (ms ++ rest)%list
  end.

Definition transition_event (type session transition : string) (extra : string * string) : BotEvent :=
  mkBotEvent type transition
    {[ MetadataSessionId := session; MetadataTransitionName := transition; extra.1 := extra.2 ]} "".

Definition handleTransitionFailed (session transition : string) (e : gerr) : M unit :=
  pushEvent session
    (transition_event BotEventTypeTransitionFailed session transition (MetadataErrorMsg, Error e)).

(** One transition of [step]: the call of the dispatcher, if it fires. *)
Definition fire (session : string) (t : BotTransitionConfig) : prog (option firing) :=
  if decide (bt_Inputs t = ∅) then Ret None
  else
    c <~ count_inputs session (order (bt_Inputs t)) ∅ ;;
    if c.1 : bool then
      markers <~ pop_inputs session (order' c.2) ;;
      r <~ dispatch (bt_Confirm t) session (bt_Name t) markers ;;
      (match r with
       | inl e => handleTransitionFailed session (bt_Name t) e
       | inr taskId =>
           pushEvent session (transition_event
             (if bt_Confirm t then BotEventTypeConfirmTransition else BotEventTypeTransitionFired)
             session (bt_Name t) (MetadataTaskId, taskId))
       end) ;~
      Ret (Some (mkFiring (bt_Name t) markers r))
    else Ret None.

Fixpoint fire_all (session : string) (ts : list BotTransitionConfig) : prog (list firing) :=
  match ts with
  | [] => Ret []
  | t :: ts' =>
      f <~ fire session t ;;
      fs <~ fire_all session ts' ;;
      Ret (match f with None => fs | Some f => f :: fs end)
  end.

(** [step]: the transitions in the order of the range; the calls of the dispatcher. *)
Definition step (session : string) (ts : list BotTransitionConfig) : prog (list firing) :=
  r <~ acquireLock session ;;
  match r with
  | inl _ => Ret []
  | inr _ => fs <~ fire_all session ts ;; releaseLock session ;~ Ret fs
  end.

(** One session of one tick of [sendNetworkState]; [locations] in the order of the
    range. *)
Fixpoint count_locations (session : string) (locations : list string) : prog (gmap string Z) :=
  match locations with
  | [] => Ret ∅
  | location :: locations' =>
      r <~ countMarkers session location ;;
      counts <~ count_locations session locations' ;;
      Ret (match r with inl _ => counts | inr n => <[location := n]> counts end)
  end.

Definition send_state (session : string) (locations : list string) : M unit :=
  counts <~ count_locations session locations ;;
  match marshalSnapshot session counts with
  | inl e => fail e
  | inr stateJson =>
      pushEvent session
        (mkBotEvent BotEventTypeNetworkState stateJson {[ MetadataSessionId := session ]} "")
  end.

(** ** Events of the user (instance.go, [monitorEvents]) *)

(** [prompt kind] sends a prompt to the model; [retrieve] is the dispatcher's
    [Retrieve].  A request for an input file starts a goroutine that polls a file
    system. *)
Definition meta (event : BotEvent) (key : string) : string := default "" (be_Metadata event !! key).

Definition handle_event (prompt : string -> string -> BotEvent -> M unit)
    (retrieve : string -> M Task) (event : BotEvent) : M unit :=
  let session := meta event MetadataSessionId in
  let type := be_Type event in
  if String.eqb type BotEventTypeUserMessage then prompt session "user_message" event
  else if String.eqb type BotEventTypeTransitionMessage then prompt session "transition_message" event
  else if String.eqb type BotEventTypeMemoryMessage then prompt session "memory_message" event
  else if String.eqb type BotEventTypeConfirmResponse then
    if String.eqb (be_PairId event) "" then ok tt
    else
      pushEventPair session (be_PairId event)
        (mkBotEvent BotEventTypeConfirmRequest (be_Value event)
           {[ MetadataSessionId := session;
              MetadataTransitionName := meta event MetadataTransitionName;
              MetadataTaskId := meta event MetadataTaskId ]} (be_PairId event)) event
  else if String.eqb type BotEventTypeAcceptTransition || String.eqb type BotEventTypeRejectTransition then
    task <- retrieve (meta event MetadataTaskId) ;;
    if String.eqb type BotEventTypeAcceptTransition then
      r <~ Execute (task_ops task) (Message task) ;;
      match r with
      | inl e => handleTransitionFailed session (meta event MetadataTransitionName) e
      | inr _ => ok tt
      end
    else Cancel (task_ops task) (Message task) TaskRequestCancelled
  else ok tt.

(** ** The services (bot.go) *)

(** [PushBotEvent]: [Ok]. *)
Definition PushBotEvent (session type value : string) (metadata : gmap string string) : prog bool :=
  r <~ pushEvent session (mkBotEvent type value metadata "") ;;
  Ret (match r with inl _ => false | inr _ => true end).

(** [PushBotEventBlocking]: the response event. *)
Definition PushBotEventBlocking (pairId : string) (ticks : nat) (session type value : string)
    (metadata : gmap string string) : prog (option BotEvent) :=
  r <~ pushEvent session (mkBotEvent type value metadata pairId) ;;
  match r with
  | inl _ => Ret None
  | inr _ =>
      r <~ waitForEventPair ticks session pairId ;;
      Ret (match r with inl _ => None | inr p => Some (bp_Response p) end)
  end.

(** [PushBotMarkers]: [in.Markers] in the order of the range; a marker that cannot be
    pushed is left out. *)
Fixpoint push_markers (session source location : string) (l : list Marker) : prog unit :=
  match l with
  | [] => Ret tt
  | m :: l' =>
      pushMarker session location (mkMarker (mk_LocationName m) (mk_Fields m) source) ;~
      push_markers session source location l'
  end.
Fixpoint PushBotMarkers (session source : string) (markers : list (string * list Marker)) : prog unit :=
  match markers with
  | [] => Ret tt
  | (location, l) :: markers' =>
      push_markers session source location l ;~ PushBotMarkers session source markers'
  end.

(** [PopBotTask]: the markers of the task by the location they name. *)
Definition group (markers : list Marker) : gmap string (list Marker) :=
  foldl (λ g m, <[mk_LocationName m := (default [] (g !! mk_LocationName m) ++ [m])%list]> g) ∅ markers.

Definition PopBotTask (session transition taskId : string) : prog (option (gmap string (list Marker))) :=
  r <~ popTask session transition taskId ;;
  Ret (match r with inl _ => None | inr markers => Some (group markers) end).

(** ** Tasks (task.go) *)

(** [instance] is [getOrCreateBotInstance], [createTask] the backend's [CreateTask],
    [run] the instance's, [decodeMarker] mapstructure's [Decode].  A type assertion that
    fails is a panic. *)
Definition assert_string (kwargs : option (gmap string jvalue)) (key : string) : gerr + string :=
  match kwargs ≫= lookup key with
  | Some (JStr v) => inr v
  | _ => inl (EPanic "interface conversion: interface {} is not string")
  end.

Fixpoint decode_markers (decodeMarker : jvalue -> gerr + Marker) (l : list jvalue) : gerr + list Marker :=
  match l with
  | [] => inr []
  | v :: l' =>
      match decodeMarker v with
      | inl e => inl e
      | inr m =>
          match decode_markers decodeMarker l' with inl e => inl e | inr ms => inr (m :: ms) end
      end
  end.

Definition BotTask_Execute (instance : gerr + unit) (createTask : M unit)
    (run : string -> string -> string -> M unit) (decodeMarker : jvalue -> gerr + Marker)
    (msg : TaskMessage) : M unit :=
  match instance with
  | inl e => fail e
  | inr _ =>
      createTask ;;
      match assert_string (tm_Kwargs msg) "transition_name", assert_string (tm_Kwargs msg) "session_id" with
      | inl e, _ | _, inl e => fail e
      | inr transition, inr session =>
          match tm_Kwargs msg ≫= lookup "markers" with
          | Some (JArr raw) =>
              match decode_markers decodeMarker raw with
              | inl e => fail e
              | inr markers =>
                  pushTask session transition (tm_TaskId msg) markers ;;
                  run transition session (tm_TaskId msg)
              end
          | _ => fail (EMsg "invalid markers format")
          end
      end
  end.

Definition BotTask_Retry : M unit := fail (EMsg "retry not implemented").
Definition BotTask_HeartBeat : M bool := ok true.
Definition BotTask_Metadata (msg : TaskMessage) : TaskMetadata :=
  mkTaskMetadata (tm_TaskId msg) (tm_StubId msg) (tm_WorkspaceName msg) "".
End state.
