(* ===== verification/BotProps.v ===== *)
(** * Bots are Petri nets

    A marking gives each location of a session its list of markers, oldest first.  The
    stored lists of a session refine a marking; a [step] of the instance fires, in the
    order of the range, every transition whose inputs have enough markers, with exactly
    the oldest markers of each input location, and leaves every other marker. *)

From S2P Require Import Prelude GoStd Redis Keys Types Lock Interleave Env ContainerRepo PoolManager TaskRepo Dispatcher Bot.

Local Open Scope Z_scope.
Set Default Proof Using "Type".

(** ** The net *)

Definition marking := string -> list Marker.

(** Takes [n] markers of a location. *)
Definition take_at (location : string) (n : nat) (M : marking) : marking :=
  λ l, if String.eqb l location then drop n (M l) else M l.

Fixpoint consume (inputs : list (string * Z)) (M : marking) : list Marker * marking :=
  match inputs with
  | [] => ([], M)
  | (location, n) :: inputs' =>
      let r := consume inputs' (take_at location (Z.to_nat n) M) in
      ((take (Z.to_nat n) (M location) ++ r.1)%list, r.2)
  end.

Definition enabled (M : marking) (t : BotTransitionConfig) : bool :=
  bool_decide (bt_Inputs t <> ∅) &&
  bool_decide (map_Forall (λ location n, n <= Z.of_nat (length (M location))) (bt_Inputs t)).

(** The transitions that fire, with the markers each takes. *)
Fixpoint net_step (order' : gmap string Z -> list (string * Z)) (ts : list BotTransitionConfig) (M : marking)
    : list (string * list Marker) * marking :=
  match ts with
  | [] => ([], M)
  | t :: ts' =>
      if enabled M t then
        let c := consume (order' (bt_Inputs t)) M in
        let r := net_step order' ts' c.2 in
        ((bt_Name t, c.1) :: r.1, r.2)
      else net_step order' ts' M
  end.

(** ** What JSON does to markers *)

Class BotJsonLaws (BJ : BotJson) : Prop := {
  marker_roundtrip : forall m json, marshalMarker m = inr json -> unmarshalMarker json = inr m;
}.

Section props.
Context {BJ : BotJson} {BJL : BotJsonLaws BJ}.
Context (ws stub session : string).
Local Abbreviation mkey := (botMarkers ws stub session).

(** Two keys of a bot that differ after the stub. *)
Ltac bot_key_ne :=
  let E := fresh in
  intros E; unfold botMarkers, botLock, botEventHistory, botEventBuffer, botMarkers_fmt, botLock_fmt,
    botEventHistory_fmt, botEventBuffer_fmt in E; simpl in E;
  repeat injection E as E; apply str_app_inj_l in E; repeat injection E as E;
  apply str_app_inj_l in E; discriminate E.

Lemma mkey_inj l1 l2 : mkey l1 = mkey l2 -> l1 = l2.
Proof.
  unfold botMarkers, botMarkers_fmt. simpl. intros E. repeat injection E as E.
  apply str_app_inj_l in E. repeat injection E as E. apply str_app_inj_l in E. repeat injection E as E.
  apply str_app_inj_l in E. repeat injection E as E. by rewrite !str_app_nil_r in E.
Qed.

(** The stored lists are the encodings of the marking. *)
Definition stores (d : rdb) (M : marking) : Prop :=
  forall l, exists js, as_list (kv d !! mkey l) = Some js /\
    Forall2 (λ m json, marshalMarker m = inr json) (M l) js.

Definition leaves {A} (p : prog A) : Prop := forall l, avoids (mkey l) p.

Lemma stores_ext d d' M : (forall l, kv d' !! mkey l = kv d !! mkey l) -> stores d M -> stores d' M.
Proof. intros H HM l. destruct (HM l) as (js & E & HF). exists js. by rewrite H. Qed.

Lemma rwp_leaves {A} (p : prog A) d L M :
  leaves p -> stores d M -> rwp p (λ _ d' _, stores d' M) d L.
Proof.
  intros Hp HM. eapply wp_mono; [|apply (rwp_avoids (λ k, exists l, k = mkey l)); by intros k [l ->]].
  intros a d' L' H. eapply stores_ext; [|exact HM]. intros l. apply H. eauto.
Qed.

Lemma leaves_pushEvent e : leaves (pushEvent ws stub session e).
Proof.
  intros l. unfold pushEvent. case_match; [done|].
  apply avoids_mbind; [case_match; [done|]|intros []]; apply avoids_rcall; cbn [cmd_keys];
    rewrite list_elem_of_singleton; bot_key_ne.
Qed.

Lemma leaves_lock : leaves (acquireLock ws stub session).
Proof.
  intros l. apply avoids_pbind; [|by intros [e|[tok|]]]. apply avoids_cmd.
  cbn [cmd_keys]. rewrite list_elem_of_singleton. bot_key_ne.
Qed.
Lemma leaves_unlock : leaves (releaseLock ws stub session).
Proof.
  intros l [tok|]; [|done]. apply avoids_pbind; [|by intros [e|[]]]. apply avoids_cmd.
  cbn [cmd_keys]. rewrite list_elem_of_singleton. bot_key_ne.
Qed.

(** ** Counting and popping *)

Lemma rwp_countMarkers l d L M :
  stores d M ->
  rwp (countMarkers ws stub session l) (λ r d' _, r = inr (Z.of_nat (length (M l))) /\ d' = d) d L.
Proof.
  intros HM. destruct (HM l) as (js & E & HF). apply Forall2_length in HF. unfold countMarkers. wp_call.
  - destruct H as (l' & El & -> & ->). rewrite E in El. simplify_eq. by rewrite HF.
  - destruct H as [_ Hno]. exfalso. eapply (Hno _ d). by exists js.
Qed.

Definition insert_all (toPop : gmap string Z) (inputs : list (string * Z)) : gmap string Z :=
  foldl (λ m p, <[p.1 := p.2]> m) toPop inputs.

Lemma rwp_count_inputs inputs toPop d L M :
  stores d M ->
  rwp (count_inputs ws stub session inputs toPop) (λ r d' _,
    d' = d /\ r.1 = forallb (λ p, p.2 <=? Z.of_nat (length (M p.1))) inputs /\
    (r.1 = true -> r.2 = insert_all toPop inputs)) d L.
Proof.
  intros HM. revert toPop L. induction inputs as [|[l n] inputs IH]; intros toPop L; cbn [count_inputs]; [done|].
  apply wp_pbind. eapply wp_mono; [|by apply rwp_countMarkers]. intros r d' L' [-> ->]. cbn [forallb fst snd].
  destruct (Z.ltb_spec (Z.of_nat (length (M l))) n).
  - apply wp_Ret. cbn [fst snd]. destruct (Z.leb_spec n (Z.of_nat (length (M l)))); [lia|done].
  - eapply wp_mono; [|apply IH]. intros r d' L2 (-> & H1 & H2).
    destruct (Z.leb_spec n (Z.of_nat (length (M l)))); [done|lia].
Qed.

Lemma stores_pop d d' l js m M M' :
  stores d M -> as_list (kv d !! mkey l) = Some js -> M l = m :: M' ->
  d' = list_or_del (mkey l) (tail js) d ->
  exists json, head js = Some json /\ unmarshalMarker json = inr m /\ stores d' (take_at l 1 M).
Proof using BJL.
  intros HM Hjs HMl ->. destruct (HM l) as (js' & E & HF). rewrite Hjs in E. simplify_eq.
  rewrite HMl in HF. apply Forall2_cons_inv_l in HF as (json & js & Hm & HF & ->). exists json.
  split; [done|]. split; [by apply marker_roundtrip|]. intros l'. unfold take_at.
  destruct (String.eqb_spec l' l) as [->|Hne].
  - exists js. rewrite HMl. split; [|done]. cbn [tail]. unfold list_or_del. case_decide as Ed; simpl.
    + rewrite lookup_delete_eq. by rewrite Ed.
    + by rewrite lookup_insert_eq.
  - destruct (HM l') as (js2 & E2 & HF2). exists js2. split; [|done].
    rewrite <- E2. f_equal. cbn [tail]. unfold list_or_del.
    case_decide; simpl; [apply lookup_delete_ne|apply lookup_insert_ne]; by intros ?%mkey_inj.
Qed.

Lemma rwp_pop l d L m M M' :
  stores d M -> M l = m :: M' ->
  rwp (popMarker ws stub session l) (λ r d' _, r = inr m /\ stores d' (take_at l 1 M)) d L.
Proof using BJL.
  intros HM HMl. destruct (HM l) as (js & E & _). unfold popMarker. wp_bind. wp_call.
  - destruct H as (l' & El & -> & ->). rewrite E in El. simplify_eq.
    destruct (stores_pop d _ l l' m M M' HM E HMl eq_refl) as (json & -> & Hu & Hs).
    apply wp_Ret. split; [exact Hu|exact Hs].
  - destruct H as [_ Hno]. exfalso. eapply (Hno (head js)). exists js. split; [done|]. split; [done|]. reflexivity.
Qed.

Lemma take_at_S l n M M1 : (forall l', M1 l' = take_at l 1 M l') ->
  forall l', take_at l n M1 l' = take_at l (S n) M l'.
Proof.
  intros H l'. unfold take_at in *. rewrite H. destruct (String.eqb_spec l' l); [|done].
  subst. by rewrite drop_drop.
Qed.

Lemma stores_eq d M M' : (forall l, M l = M' l) -> stores d M -> stores d M'.
Proof. intros H HM l. destruct (HM l) as (js & E & HF). exists js. by rewrite <- H. Qed.

Lemma rwp_pop_location l n d L M :
  stores d M -> (n <= length (M l))%nat ->
  rwp (pop_location ws stub session l n) (λ ms d' _, ms = take n (M l) /\ stores d' (take_at l n M)) d L.
Proof using BJL.
  revert d L M. induction n as [|n IH]; intros d L M HM Hn; cbn [pop_location].
  { apply wp_Ret. split; [done|]. eapply stores_eq; [|exact HM]. intros l'. unfold take_at. by case_match. }
  destruct (M l) as [|m M'] eqn:HMl; [simpl in Hn; lia|]. apply wp_pbind.
  eapply wp_mono; [|eapply rwp_pop; [exact HM|exact HMl]]. intros r d1 L1 [-> H1]. apply wp_pbind.
  assert (take_at l 1 M l = M') as E1 by (unfold take_at; by rewrite String.eqb_refl, HMl).
  eapply wp_mono; [|apply (IH _ _ _ H1); rewrite E1; simpl in Hn; lia].
  intros ms d2 L2 [-> H2]. apply wp_Ret. rewrite E1. split; [done|].
  eapply stores_eq; [|exact H2]. by apply take_at_S.
Qed.

Lemma rwp_pop_inputs inputs d L M :
  stores d M -> NoDup inputs.*1 ->
  Forall (λ p, p.2 <= Z.of_nat (length (M p.1))) inputs ->
  rwp (pop_inputs ws stub session inputs) (λ ms d' _,
    ms = (consume inputs M).1 /\ stores d' (consume inputs M).2) d L.
Proof using BJL.
  revert d L M. induction inputs as [|[l n] inputs IH]; intros d L M HM Hnd HF; cbn [pop_inputs consume]; [done|].
  apply NoDup_cons in Hnd as [Hl Hnd]. apply Forall_cons in HF as [Hn HF]. apply wp_pbind.
  eapply wp_mono; [|apply (rwp_pop_location l (Z.to_nat n) d L M HM); simpl in Hn; lia].
  intros ms d1 L1 [-> H1]. apply wp_pbind. eapply wp_mono; [|apply (IH _ _ _ H1 Hnd)].
  - intros ms d2 L2 [-> H2]. apply wp_Ret. done.
  - rewrite Forall_forall in HF |- *. intros [l' n'] Hin. specialize (HF _ Hin). unfold take_at.
    cbn [fst snd] in *. destruct (String.eqb_spec l' l) as [->|]; [|done].
    exfalso. apply Hl, list_elem_of_fmap. by exists (l, n').
Qed.

(** ** Firing *)

Context (order order' : gmap string Z -> list (string * Z)).
Context (dispatch : bool -> string -> string -> list Marker -> M string).

(** A range visits each entry once; the dispatcher leaves the markers alone. *)
Definition ranges (f : gmap string Z -> list (string * Z)) : Prop := forall m, f m ≡ₚ map_to_list m.
Definition dispatch_ok : Prop := forall c n ms, leaves (dispatch c session n ms).

Lemma insert_all_range m : ranges order -> insert_all ∅ (order m) = m.
Proof.
  intros Ho. unfold ranges in Ho. assert (NoDup (order m).*1) as Hnd by (rewrite Ho; apply NoDup_fst_map_to_list).
  transitivity (list_to_map (M := gmap string Z) (order m)); [|by rewrite <- (list_to_map_to_list m) at 2; apply list_to_map_proper, Ho].
  assert (forall l (acc : gmap string Z), NoDup l.*1 -> insert_all acc l = list_to_map l ∪ acc) as H.
  { intros l. induction l as [|[k v] l IH]; intros acc Hl; simpl; [by rewrite (left_id_L ∅ (∪))|].
    apply NoDup_cons in Hl as [Hk Hl]. rewrite IH by done. cbn [fst snd].
    rewrite <- insert_union_l, insert_union_r; [done|]. by apply not_elem_of_list_to_map_1. }
  rewrite H by done. by rewrite (right_id_L ∅ (∪)).
Qed.

Lemma enabled_forallb M t : ranges order -> bt_Inputs t <> ∅ ->
  enabled M t = forallb (λ p, p.2 <=? Z.of_nat (length (M p.1))) (order (bt_Inputs t)).
Proof.
  intros Ho Hne. unfold ranges in Ho. unfold enabled. rewrite bool_decide_true by done. simpl. apply Bool.eq_iff_eq_true.
  rewrite bool_decide_eq_true, forallb_forall. split.
  - intros HF [l n] Hin%list_elem_of_In. rewrite Ho in Hin. apply elem_of_map_to_list in Hin.
    apply Z.leb_le. exact (HF l n Hin).
  - intros H l n Hl. apply Z.leb_le. apply (H (l, n)). apply list_elem_of_In. rewrite Ho.
    by apply elem_of_map_to_list.
Qed.

Definition fired (f : firing) : string * list Marker := (fi_transition f, fi_markers f).

Lemma rwp_fire t d L M :
  ranges order -> ranges order' -> dispatch_ok -> stores d M ->
  rwp (fire ws stub order order' dispatch session t) (λ r d' _,
    if enabled M t then
      let c := consume (order' (bt_Inputs t)) M in
      fired <$> r = Some (bt_Name t, c.1) /\ stores d' c.2
    else r = None /\ stores d' M) d L.
Proof using BJL.
  intros Ho Ho' Hd HM. unfold fire. case_decide as Hi.
  { apply wp_Ret. unfold enabled. by rewrite bool_decide_false by auto. }
  rewrite (enabled_forallb M t Ho Hi). apply wp_pbind. eapply wp_mono; [|by apply rwp_count_inputs].
  intros [canFire toPop] d1 L1 (-> & E & Hpop). cbn [fst snd] in *. rewrite <- E.
  destruct canFire; [|by apply wp_Ret]. rewrite (Hpop eq_refl), insert_all_range by done.
  symmetry in E. rewrite <- (enabled_forallb M t Ho Hi) in E. unfold enabled in E.
  apply andb_prop in E as [_ E%bool_decide_eq_true]. apply wp_pbind.
  eapply wp_mono; [|apply (rwp_pop_inputs (order' (bt_Inputs t)) d L1 M HM)].
  - intros ms d2 L2 [-> H2]. apply wp_pbind. eapply wp_mono; [|by apply rwp_leaves, H2].
    intros r d3 L3 H3. cbv beta in H3. apply wp_pbind. eapply wp_mono; [|apply rwp_leaves; [|exact H3]].
    + intros u d4 L4 H4. apply wp_Ret. by split.
    + destruct r; apply leaves_pushEvent.
  - rewrite (Ho' _). apply NoDup_fst_map_to_list.
  - rewrite (Ho' _). apply Forall_forall. intros [l n] Hin%elem_of_map_to_list. exact (E l n Hin).
Qed.

Lemma rwp_fire_all ts d L M :
  ranges order -> ranges order' -> dispatch_ok -> stores d M ->
  rwp (fire_all ws stub order order' dispatch session ts) (λ fs d' _,
    fired <$> fs = (net_step order' ts M).1 /\ stores d' (net_step order' ts M).2) d L.
Proof using BJL.
  intros Ho Ho' Hd. revert d L M. induction ts as [|t ts IH]; intros d L M HM; cbn [fire_all net_step]; [done|].
  apply wp_pbind. eapply wp_mono; [|by apply rwp_fire]. intros f d1 L1 H1. apply wp_pbind.
  destruct (enabled M t).
  - destruct H1 as [Hf H1]. eapply wp_mono; [|by apply IH]. intros fs d2 L2 [E H2]. apply wp_Ret.
    destruct f as [f|]; [|done]. simpl in Hf. simplify_eq. cbn [fst snd fmap list_fmap].
    split; [|done]. by rewrite E, Hf.
  - destruct H1 as [-> H1]. eapply wp_mono; [|by apply IH]. done.
Qed.

Lemma rwp_step ts d L M :
  ranges order -> ranges order' -> dispatch_ok -> kv d !! botLock ws stub session = None -> stores d M ->
  rwp (step ws stub order order' dispatch session ts) (λ fs d' _,
    fired <$> fs = (net_step order' ts M).1 /\ stores d' (net_step order' ts M).2) d L.
Proof using BJL.
  intros Ho Ho' Hd Hfree HM. unfold step. apply wp_pbind. unfold acquireLock, Acquire. apply wp_pbind, wp_cmd.
  - intros [tok|] d1 Hc.
    + apply wp_Loc, wp_Ret. cbv beta iota. apply wp_pbind.
      assert (stores d1 M) as H1.
      { assert (eq_except {[botLock ws stub session]} d d1) as He by frame.
        eapply stores_ext; [|exact HM]. intros l. apply (eq_except_kv _ _ _ _ He).
        rewrite elem_of_singleton. bot_key_ne. }
      eapply wp_mono; [|by apply rwp_fire_all]. intros fs d2 L2 [E H2]. apply wp_pbind.
      eapply wp_mono; [|apply (rwp_leaves _ _ _ _ leaves_unlock H2)]. intros u d3 L3 H3. by apply wp_Ret.
    + exfalso. destruct Hc as [Hc _]. unfold exists_kv in Hc. rewrite Hfree in Hc.
      by apply bool_decide_eq_true in Hc as [? ?].
  - intros e d1 [_ Hno]. exfalso. by eapply (Hno (Some "")).
Qed.
End props.

(** ** The theorem *)

(** C14. A step of a bot fires its Petri net.  On a reliable server, with the session's
    lock free, [step] calls the dispatcher for exactly the transitions that are enabled
    when their turn in the range comes, in that order, each with the oldest markers of
    its input locations in the required numbers; the lists in Redis then hold the
    marking the net has after these firings, so no other marker is lost, added or
    reordered.  Neither the order of the ranges nor the dispatcher's answers matter. *)
Theorem bot_step_refines_net `{S : RedisServer, SL : !RedisLaws S} `{BJ : BotJson, BJL : !BotJsonLaws BJ}
    (I : srv -> Prop) (ws stub session : string) (order order' : gmap string Z -> list (string * Z))
    (dispatch : bool -> string -> string -> list Marker -> M string)
    (ts : list BotTransitionConfig) (M0 : marking) (s : srv) (L : lmap) :
  reliable I -> I s -> ranges order -> ranges order' ->
  dispatch_ok ws stub session dispatch ->
  kv (view s) !! botLock ws stub session = None -> stores ws stub session (view s) M0 ->
  ends (step ws stub order order' dispatch session ts) s L (λ fs d,
    fired <$> fs = (net_step order' ts M0).1 /\
    stores ws stub session d (net_step order' ts M0).2).
Proof.
  intros HR HI Ho Ho' Hd Hfree HM. apply (ends_rwp I); [done..|]. by apply rwp_step.
Qed.

(** ** A concrete net *)

(** Markers without fields, as their location. *)
Definition bare_json : BotJson := {|
  marshalMarker m := if decide (mk_Fields m = [] /\ mk_SourceTaskId m = "") then inr (mk_LocationName m)
                     else inl (EMsg "fields");
  unmarshalMarker s := inr (mkMarker s [] "");
  marshalMarkers _ := inr "[]"; unmarshalMarkers _ := inr [];
  marshalEvent e := inr (be_Type e); unmarshalEvent s := inr (mkBotEvent s "" ∅ "");
  marshalPair _ := inr "{}"; unmarshalPair _ := inl (EMsg "pair");
  marshalSession _ := inr "{}"; unmarshalSession _ := inl (EMsg "session");
  marshalSnapshot _ _ := inr "{}";
|}.

Lemma bare_json_laws : BotJsonLaws bare_json.
Proof.
  constructor. intros [l fs src] json H. simpl in H. case_decide as E; [|done]. destruct E as [E1 E2].
  simpl in *. by simplify_eq.
Qed.

Definition ex_bot_db : rdb :=
  mkRdb {[ botMarkers "ws" "stub" "s1" "orders" := RVList ["a"; "b"; "c"];
           botMarkers "ws" "stub" "s1" "stock" := RVList ["x"] ]} ∅.
Definition ex_marking : marking := λ l,
  if String.eqb l "orders" then [mkMarker "a" [] ""; mkMarker "b" [] ""; mkMarker "c" [] ""]
  else if String.eqb l "stock" then [mkMarker "x" [] ""] else [].
Definition ex_transitions : list BotTransitionConfig :=
  [mkBotTransition "ship" {[ "orders" := 2; "stock" := 1 ]} ["done"] false;
   mkBotTransition "report" {[ "stock" := 1 ]} [] false;
   mkBotTransition "drop" {[ "orders" := 1 ]} [] true].

Lemma ex_stores : stores (BJ := bare_json) "ws" "stub" "s1" ex_bot_db ex_marking.
Proof.
  intros l. unfold ex_marking. destruct (String.eqb_spec l "orders") as [->|H1].
  { exists ["a"; "b"; "c"]. split; [by vm_compute|]. repeat constructor. }
  destruct (String.eqb_spec l "stock") as [->|H2].
  { exists ["x"]. split; [by vm_compute|]. repeat constructor. }
  exists []. split; [|constructor]. unfold ex_bot_db. simpl kv.
  rewrite lookup_insert_ne by (intros ?%mkey_inj; congruence).
  rewrite lookup_singleton_ne by (intros ?%mkey_inj; congruence). done.
Qed.

Lemma bot_step_refines_net_witness :
  let p := step (BJ := bare_json) "ws" "stub" map_to_list map_to_list (λ _ _ _ _, ok "t1") "s1" ex_transitions in
  ends (S := ref_server) p (on ex_bot_db) ∅ (λ fs d,
    fired <$> fs = (net_step map_to_list ex_transitions ex_marking).1 /\
    stores (BJ := bare_json) "ws" "stub" "s1" d (net_step map_to_list ex_transitions ex_marking).2) /\
  ((net_step map_to_list ex_transitions ex_marking).1).*1 = ["ship"; "drop"].
Proof.
  intros p. split; [|vm_compute; reflexivity].
  refine (bot_step_refines_net (S := ref_server) (BJL := bare_json_laws) (λ s, ref_faults s = [])
    "ws" "stub" "s1" map_to_list map_to_list (λ _ _ _ _, ok "t1") ex_transitions ex_marking
    (on ex_bot_db) ∅ ref_reliable eq_refl (λ _, reflexivity _) (λ _, reflexivity _) _ _ ex_stores).
  - by intros c n ms l.
  - by vm_compute.
Defined.
