(* ===== verification/ModelRegistry.v ===== *)
(** * The model registry (pkg/gateway/model_registry.go)

    Which node serves which model.  A registry is the map of nodes; times are
    nanoseconds since Go's zero time, and [now] is what [time.Now] answers.  A range over
    a map visits the nodes in an order the language leaves open: the operations that
    depend on it take the order as an argument.  The entries of [Models] are pointers
    and a node's message may hold [null] for one; [None] as the result of an operation
    is the panic of a nil pointer.  An operation runs under the registry's mutex. *)

From S2P Require Import Prelude GoStd Types.

Local Open Scope Z_scope.
Set Default Proof Using "Type".

Definition LoadStateIdle : string := "idle".
Definition LoadStateLoading : string := "loading".
Definition LoadStateReady : string := "ready".
Definition LoadStateError : string := "error".

(** A [float64] as its IEEE 754 bits. *)
Definition float64 : Type := Z.

Record ModelInfo := mkModelInfo {
  mi_Name : string;
  mi_LoadState : string;
  mi_SizeGB : float64;
  mi_LastUsed : Z;
  mi_LoadedAt : Z;
  mi_RequestCount : Z;
  mi_Error : string;
}.

Abbreviation models := (gmap string (option ModelInfo)).

Record NodeInferenceInfo := mkNodeInferenceInfo {
  ni_NodeID : string;
  ni_TailscaleIP : string;
  ni_Port : Z;
  ni_GPUType : string;
  ni_TotalVRAM : Z;
  ni_AvailableVRAM : Z;
  ni_Models : models;
  ni_LastHeartbeat : Z;
  ni_Healthy : bool;
}.

Record registry := mkRegistry {
  mr_nodes : gmap string NodeInferenceInfo;
  mr_HeartbeatTimeout : Z;
}.

Definition NewModelRegistry : registry := mkRegistry ∅ (30 * second).

Definition set_nodes (nodes : gmap string NodeInferenceInfo) (r : registry) : registry :=
  mkRegistry nodes (mr_HeartbeatTimeout r).

(** [LastHeartbeat = now], [Healthy = true], and the models. *)
Definition beat (now : Z) (ms : models) (n : NodeInferenceInfo) : NodeInferenceInfo :=
  mkNodeInferenceInfo (ni_NodeID n) (ni_TailscaleIP n) (ni_Port n) (ni_GPUType n) (ni_TotalVRAM n)
    (ni_AvailableVRAM n) ms now true.
Definition set_models (ms : models) (n : NodeInferenceInfo) : NodeInferenceInfo :=
  mkNodeInferenceInfo (ni_NodeID n) (ni_TailscaleIP n) (ni_Port n) (ni_GPUType n) (ni_TotalVRAM n)
    (ni_AvailableVRAM n) ms (ni_LastHeartbeat n) (ni_Healthy n).
Definition set_unhealthy (n : NodeInferenceInfo) : NodeInferenceInfo :=
  mkNodeInferenceInfo (ni_NodeID n) (ni_TailscaleIP n) (ni_Port n) (ni_GPUType n) (ni_TotalVRAM n)
    (ni_AvailableVRAM n) (ni_Models n) (ni_LastHeartbeat n) false.

(** ** Registration and heartbeats *)

(** A sent model over the one the registry has. *)
Definition keep_stats (existing new : ModelInfo) : ModelInfo :=
  mkModelInfo (mi_Name new) (mi_LoadState new) (mi_SizeGB new) (mi_LastUsed new)
    (if (mi_LoadedAt new =? 0) && String.eqb (mi_LoadState existing) LoadStateReady
     then mi_LoadedAt existing else mi_LoadedAt new)
    (mi_RequestCount existing) (mi_Error new).
Definition keep_count (existing new : ModelInfo) : ModelInfo :=
  mkModelInfo (mi_Name new) (mi_LoadState new) (mi_SizeGB new) (mi_LastUsed new) (mi_LoadedAt new)
    (mi_RequestCount existing) (mi_Error new).

(** A model in both maps of which one is nil. *)
Definition clash (existing new : option ModelInfo) : bool :=
  match existing, new with Some _, Some _ => false | _, _ => true end.
Definition nil_clash (existing new : models) : bool :=
  negb (bool_decide (map_Forall (λ _ p, clash p.1 p.2 = false) (map_zip existing new))).

Definition over (f : ModelInfo -> ModelInfo -> ModelInfo) (existing new : models) : models :=
  map_imap (λ name n,
    Some match existing !! name, n with Some (Some e), Some n' => Some (f e n') | _, _ => n end) new.

Definition RegisterNode (now : Z) (info : NodeInferenceInfo) (r : registry) : option registry :=
  match mr_nodes r !! ni_NodeID info with
  | None => Some (set_nodes (<[ni_NodeID info := beat now (ni_Models info) info]> (mr_nodes r)) r)
  | Some existing =>
      if nil_clash (ni_Models existing) (ni_Models info) then None
      else Some (set_nodes (<[ni_NodeID info :=
             beat now (over keep_stats (ni_Models existing) (ni_Models info)) info]> (mr_nodes r)) r)
  end.

Definition UpdateNodeModels (now : Z) (nodeID : string) (ms : models) (r : registry) : option registry :=
  match mr_nodes r !! nodeID with
  | None => Some r
  | Some node =>
      if nil_clash (ni_Models node) ms then None
      else Some (set_nodes (<[nodeID :=
             beat now (over keep_count (ni_Models node) ms ∪ ni_Models node) node]> (mr_nodes r)) r)
  end.

Definition UpdateHeartbeat (now : Z) (nodeID : string) (r : registry) : registry :=
  match mr_nodes r !! nodeID with
  | None => r
  | Some node => set_nodes (<[nodeID := beat now (ni_Models node) node]> (mr_nodes r)) r
  end.

Definition RemoveNode (nodeID : string) (r : registry) : registry :=
  set_nodes (delete nodeID (mr_nodes r)) r.

(** ** Selection *)

Definition isNodeHealthy (now : Z) (r : registry) (node : NodeInferenceInfo) : bool :=
  ni_Healthy node && (now - ni_LastHeartbeat node <? mr_HeartbeatTimeout r).

(** What the loop of [FindNodeForModel] makes of a node. *)
Inductive verdict := Skipped | NilModel | Scored (score : Z).

Definition state_score (st : string) : option Z :=
  if String.eqb st LoadStateReady then Some 100
  else if String.eqb st LoadStateLoading then Some 10
  else if String.eqb st LoadStateIdle then Some 1
  else if String.eqb st LoadStateError then None
  else Some 0.

Definition judge (now : Z) (r : registry) (model preferGPU : string) (node : NodeInferenceInfo) : verdict :=
  if negb (isNodeHealthy now r node) then Skipped
  else
    match ni_Models node !! model with
    | None => Skipped
    | Some None => NilModel
    | Some (Some info) =>
        match state_score (mi_LoadState info) with
        | None => Skipped
        | Some score =>
            let score := if negb (String.eqb preferGPU "") && String.eqb (ni_GPUType node) preferGPU
                         then score + 50 else score in
            let score := if now - mi_LastUsed info <? 5 * minute then score + 20 else score in
            Scored (if 0 <? ni_AvailableVRAM node then score + Z.quot (ni_AvailableVRAM node) 1024
                    else score)
        end
    end.

Fixpoint find_best (now : Z) (r : registry) (model preferGPU : string)
    (order : list NodeInferenceInfo) (bestNode : option NodeInferenceInfo) (bestScore : Z)
    : option (option NodeInferenceInfo) :=
  match order with
  | [] => Some bestNode
  | node :: rest =>
      match judge now r model preferGPU node with
      | NilModel => None
      | Skipped => find_best now r model preferGPU rest bestNode bestScore
      | Scored score =>
          if bestScore <? score then find_best now r model preferGPU rest (Some node) score
          else find_best now r model preferGPU rest bestNode bestScore
      end
  end.

Definition FindNodeForModel (now : Z) (order : list NodeInferenceInfo) (model preferGPU : string)
    (r : registry) : option (option NodeInferenceInfo) :=
  find_best now r model preferGPU order None 0.

Fixpoint find_capacity (now : Z) (r : registry) (minVRAMMB : Z) (preferGPU : string)
    (order : list NodeInferenceInfo) (bestNode : option NodeInferenceInfo) (bestVRAM : Z)
    : option NodeInferenceInfo :=
  match order with
  | [] => bestNode
  | node :: rest =>
      let next := find_capacity now r minVRAMMB preferGPU rest in
      if negb (isNodeHealthy now r node) then next bestNode bestVRAM
      else if (0 <? minVRAMMB) && (ni_AvailableVRAM node <? minVRAMMB) then next bestNode bestVRAM
      else if negb (String.eqb preferGPU "") && String.eqb (ni_GPUType node) preferGPU then
        if bestVRAM <? ni_AvailableVRAM node then next (Some node) (ni_AvailableVRAM node)
        else next bestNode bestVRAM
      else if bool_decide (bestNode = None) || (bestVRAM <? ni_AvailableVRAM node)
      then next (Some node) (ni_AvailableVRAM node)
      else next bestNode bestVRAM
  end.

Definition FindAnyNodeWithCapacity (now : Z) (order : list NodeInferenceInfo) (minVRAMMB : Z)
    (preferGPU : string) (r : registry) : option NodeInferenceInfo :=
  find_capacity now r minVRAMMB preferGPU order None 0.

(** ** Listings *)

(** [result[name] = append(result[name], node)] for the models of the healthy nodes. *)
Definition list_node (node : NodeInferenceInfo) (result : gmap string (list NodeInferenceInfo))
    : gmap string (list NodeInferenceInfo) :=
  foldl (λ res name, <[name := (default [] (res !! name) ++ [node])%list]> res) result
    (elements (dom (ni_Models node))).

Definition ListModels (now : Z) (order : list NodeInferenceInfo) (r : registry)
    : gmap string (list NodeInferenceInfo) :=
  foldl (λ res node, if isNodeHealthy now r node then list_node node res else res) ∅ order.

Definition GetNode (nodeID : string) (r : registry) : option NodeInferenceInfo := mr_nodes r !! nodeID.

Record registry_stats := mkStats {
  rs_total_nodes : nat;
  rs_healthy_nodes : nat;
  rs_unhealthy_nodes : nat;
  rs_total_models : nat;
  rs_ready_models : nat;
}.

Definition is_ready (m : option ModelInfo) : bool :=
  match m with Some i => String.eqb (mi_LoadState i) LoadStateReady | None => false end.

Definition count_node (now : Z) (r : registry) (st : registry_stats) (node : NodeInferenceInfo)
    : option registry_stats :=
  if decide (map_Forall (λ _ m, is_Some m) (ni_Models node)) then
    let h := isNodeHealthy now r node in
    Some (mkStats (rs_total_nodes st) (rs_healthy_nodes st + if h then 1 else 0)
      (rs_unhealthy_nodes st + if h then 0 else 1)
      (rs_total_models st + size (ni_Models node))
      (rs_ready_models st + size (filter (λ p, is_ready p.2 = true) (ni_Models node))))
  else None.

Definition Stats (now : Z) (order : list NodeInferenceInfo) (r : registry) : option registry_stats :=
  foldl (λ st node, st ← st; count_node now r st node) (Some (mkStats (size (mr_nodes r)) 0 0 0 0)) order.

(** ** Updates of one model *)

(** Changes a model of a node, if the node has it. *)
Definition on_model (nodeID model : string) (f : ModelInfo -> ModelInfo) (r : registry) : option registry :=
  match mr_nodes r !! nodeID with
  | None => Some r
  | Some node =>
      match ni_Models node !! model with
      | None => Some r
      | Some None => None
      | Some (Some info) =>
          Some (set_nodes (<[nodeID := set_models (<[model := Some (f info)]> (ni_Models node)) node]>
                             (mr_nodes r)) r)
      end
  end.

Definition count_use (now : Z) (i : ModelInfo) : ModelInfo :=
  mkModelInfo (mi_Name i) (mi_LoadState i) (mi_SizeGB i) now (mi_LoadedAt i)
    (wrap_i64 (mi_RequestCount i + 1)) (mi_Error i).
Definition IncrementRequestCount (now : Z) (nodeID model : string) : registry -> option registry :=
  on_model nodeID model (count_use now).

Definition loaded (now : Z) (i : ModelInfo) : ModelInfo :=
  mkModelInfo (mi_Name i) LoadStateReady (mi_SizeGB i) (mi_LastUsed i) now (mi_RequestCount i) "".
Definition MarkModelLoaded (now : Z) (nodeID model : string) : registry -> option registry :=
  on_model nodeID model (loaded now).

Definition errored (errorMsg : string) (i : ModelInfo) : ModelInfo :=
  mkModelInfo (mi_Name i) LoadStateError (mi_SizeGB i) (mi_LastUsed i) (mi_LoadedAt i)
    (mi_RequestCount i) errorMsg.
Definition MarkModelError (nodeID model errorMsg : string) : registry -> option registry :=
  on_model nodeID model (errored errorMsg).

(** ** Cleanup *)

Definition stale (now : Z) (r : registry) (node : NodeInferenceInfo) : bool :=
  mr_HeartbeatTimeout r * 3 <? now - ni_LastHeartbeat node.

Definition sweep (now : Z) (r : registry) (node : NodeInferenceInfo) : option NodeInferenceInfo :=
  if stale now r node then None
  else if mr_HeartbeatTimeout r <? now - ni_LastHeartbeat node then Some (set_unhealthy node)
  else Some node.

(** The number of nodes removed, and the registry. *)
Definition CleanupStaleNodes (now : Z) (r : registry) : Z * registry :=
  (Z.of_nat (size (filter (λ p, stale now r p.2 = true) (mr_nodes r))),
   set_nodes (omap (sweep now r) (mr_nodes r)) r).

(** ** Selection is by score *)

Definition visits (order : list NodeInferenceInfo) (r : registry) : Prop :=
  order ≡ₚ (map_to_list (mr_nodes r)).*2.

Lemma visits_node order r node :
  visits order r -> node ∈ order <-> exists id, mr_nodes r !! id = Some node.
Proof.
  intros ->. rewrite list_elem_of_fmap. split.
  - intros ([id n] & -> & H%elem_of_map_to_list). eauto.
  - intros [id H]. exists (id, node). split; [done|]. by apply elem_of_map_to_list.
Qed.

(** What a fold over [order] that started with [bestNode] and [bestScore] has found. *)
Lemma find_best_spec now r model gpu order bestNode bestScore :
  match find_best now r model gpu order bestNode bestScore with
  | None => exists n, n ∈ order /\ judge now r model gpu n = NilModel
  | Some res =>
      (forall n, n ∈ order -> judge now r model gpu n <> NilModel) /\
      exists best, bestScore <= best /\
        (forall n s, n ∈ order -> judge now r model gpu n = Scored s -> s <= best) /\
        ((res = bestNode /\ best = bestScore) \/
         exists n, n ∈ order /\ res = Some n /\ judge now r model gpu n = Scored best /\ bestScore < best)
  end.
Proof.
  revert bestNode bestScore. induction order as [|n order IH]; intros b bs; cbn [find_best].
  { split; [by intros n ?%elem_of_nil|]. exists bs. split; [lia|]. split; [by intros n s ?%elem_of_nil|]. by left. }
  destruct (judge now r model gpu n) as [| |s] eqn:Hj.
  - specialize (IH b bs). destruct (find_best _ _ _ _ _ _ _) as [res|].
    + destruct IH as (H1 & best & H2 & H3 & H4). split; [intros n' [->|?]%elem_of_cons; [congruence|auto]|].
      exists best. split; [done|]. split; [intros n' s [->|?]%elem_of_cons; [congruence|eauto]|].
      destruct H4 as [?|(n' & ? & ?)]; [by left|right]. exists n'. split; [by right|done].
    + destruct IH as (n' & ? & ?). exists n'. split; [by right|done].
  - exists n. split; [by left|done].
  - destruct (Z.ltb_spec bs s).
    + specialize (IH (Some n) s). destruct (find_best _ _ _ _ _ _ _) as [res|].
      * destruct IH as (H1 & best & H2 & H3 & H4). split; [intros n' [->|?]%elem_of_cons; [congruence|auto]|].
        exists best. split; [lia|]. split.
        { intros n' s' [->|?]%elem_of_cons Hs; [|eauto]. rewrite Hj in Hs. by simplify_eq. }
        right. destruct H4 as [[-> ->]|(n' & ? & ? & ? & ?)].
        -- exists n. repeat split; [by left|done..].
        -- exists n'. repeat split; [by right|done..|lia].
      * destruct IH as (n' & ? & ?). exists n'. split; [by right|done].
    + specialize (IH b bs). destruct (find_best _ _ _ _ _ _ _) as [res|].
      * destruct IH as (H1 & best & H2 & H3 & H4). split; [intros n' [->|?]%elem_of_cons; [congruence|auto]|].
        exists best. split; [done|]. split.
        { intros n' s' [->|?]%elem_of_cons Hs; [|eauto]. rewrite Hj in Hs. simplify_eq. lia. }
        destruct H4 as [?|(n' & ? & ?)]; [by left|right]. exists n'. split; [by right|done].
      * destruct IH as (n' & ? & ?). exists n'. split; [by right|done].
Qed.
