(* ===== verification/InferenceRouter.v ===== *)
(** * Routing of inference requests (pkg/gateway/inference_router.go, inference_handlers.go)

    The router picks a node for a request, forwards it to the node's server over HTTP
    and counts it.  The node's server is a parameter ([NodeHttp]).  Other requests may
    change the registry while a node works: an operation takes the registry as it is
    when the node is picked and the one it finds afterwards, and returns what it makes
    of the latter.  As in [ModelRegistry], [None] is the panic of a nil pointer. *)

From S2P Require Import Prelude GoStd Redis Types ModelRegistry.

Local Open Scope Z_scope.
Set Default Proof Using "Type".

Inductive router_err :=
| RouterError (code message : string)
| EForward (e : gerr).

Record ChatMessage := mkChatMessage { cm_Role : string; cm_Content : string }.

Record ChatRequest := mkChatRequest {
  ch_Model : string;
  ch_Messages : list ChatMessage;
  ch_Temperature : float64;
  ch_MaxTokens : Z;
  ch_Stream : bool;
  ch_PreferGPU : string;
}.

Record EmbedRequest := mkEmbedRequest {
  em_Model : string;
  em_Input : list string;
  em_PreferGPU : string;
}.

(** The bodies sent to a node. *)
Inductive node_body :=
| BChat (model : string) (messages : list ChatMessage) (stream : bool)
        (options : option (option float64 * option Z))
| BEmbed (model prompt : string)
| BLoad (model prompt : string) (keep_alive : Z)
| BUnload (model : string) (keep_alive : Z).

Record ollama_chat := mkOllamaChat {
  oc_Model : string;
  oc_Message : ChatMessage;
  oc_PromptEvalCount : Z;
  oc_EvalCount : Z;
}.

(** [http.NewRequest], the node's answer to a POST (status and body), and the decoding
    of bodies. *)
Class NodeHttp := {
  new_request : string -> gerr + unit;
  post : string -> node_body -> gerr + Z * string;
  decode_chat : string -> gerr + ollama_chat;
  decode_embedding : string -> gerr + list float64;
}.

Record ChatResponse := mkChatResponse {
  cp_ID : string;
  cp_Object : string;
  cp_Created : Z;
  cp_Model : string;
  cp_Choices : list (Z * ChatMessage * string);
  cp_PromptTokens : Z;
  cp_CompletionTokens : Z;
  cp_TotalTokens : Z;
  cp_Node : string;
}.

Record EmbedResponse := mkEmbedResponse {
  ep_Object : string;
  ep_Data : list (string * list float64 * Z);
  ep_Model : string;
  ep_PromptTokens : Z;
  ep_TotalTokens : Z;
  ep_Node : string;
}.

(** [x > 0] on the bits of a [float64]: the sign bit is clear, it is not zero and not a
    NaN. *)
Definition f64_pos (bits : float64) : bool := (0 <? bits) && (bits <=? 0x7FF0000000000000).

Definition StatusOK : Z := 200.
Definition StatusBadRequest : Z := 400.
Definition StatusInternalServerError : Z := 500.
Definition StatusServiceUnavailable : Z := 503.

(** Nanoseconds from Go's zero time to the Unix epoch. *)
Definition unix_epoch : Z := 62135596800 * second.

Section router.
Context {HTTP : NodeHttp}.

(** The forwarding of a request: the body of the node's answer. *)
Definition forward (url : string) (b : node_body) : router_err + Z * string :=
  match new_request url with
  | inl e => inl (EForward (EWrap "failed to create request" e))
  | inr _ =>
      match post url b with
      | inl e => inl (EForward (EWrap "node request failed" e))
      | inr r => inr r
      end
  end.

Definition node_error (status : Z) (body : string) : router_err :=
  RouterError "NODE_ERROR" ("node returned " +:+ fmt_int status +:+ ": " +:+ body).

Definition node_url (node : NodeInferenceInfo) (path : string) : string :=
  "http://" +:+ ni_TailscaleIP node +:+ ":" +:+ fmt_int (ni_Port node) +:+ path.

Definition Route (now : Z) (order : list NodeInferenceInfo) (model preferGPU : string) (r : registry)
    : option (router_err + NodeInferenceInfo) :=
  match FindNodeForModel now order model preferGPU r with
  | None => None
  | Some None =>
      Some (inl (RouterError "NO_NODE_AVAILABLE" ("no healthy node available for model " +:+ model)))
  | Some (Some node) => Some (inr node)
  end.

Definition chat_options (req : ChatRequest) : option (option float64 * option Z) :=
  let temperature := if f64_pos (ch_Temperature req) then Some (ch_Temperature req) else None in
  let tokens := if 0 <? ch_MaxTokens req then Some (ch_MaxTokens req) else None in
  match temperature, tokens with None, None => None | _, _ => Some (temperature, tokens) end.

(** [later] is the time when the node has answered. *)
Definition Chat (now later : Z) (order : list NodeInferenceInfo) (req : ChatRequest) (r r' : registry)
    : option ((router_err + ChatResponse) * registry) :=
  match Route now order (ch_Model req) (ch_PreferGPU req) r with
  | None => None
  | Some (inl e) => Some (inl e, r')
  | Some (inr node) =>
      match forward (node_url node "/api/chat")
              (BChat (ch_Model req) (ch_Messages req) false (chat_options req)) with
      | inl e => Some (inl e, r')
      | inr (status, body) =>
          if negb (status =? StatusOK) then Some (inl (node_error status body), r')
          else
            match decode_chat body with
            | inl e => Some (inl (EForward (EWrap "failed to decode response" e)), r')
            | inr o =>
                match IncrementRequestCount later (ni_NodeID node) (ch_Model req) r' with
                | None => None
                | Some r'' =>
                    Some (inr (mkChatResponse ("chatcmpl-" +:+ fmt_int (later - unix_epoch))
                      "chat.completion" (Z.div (later - unix_epoch) second) (oc_Model o)
                      [(0, oc_Message o, "stop")] (oc_PromptEvalCount o) (oc_EvalCount o)
                      (wrap_i64 (oc_PromptEvalCount o + oc_EvalCount o)) (ni_NodeID node)), r'')
                end
            end
      end
  end.

(** The loop of [Embed] from input [i] on: the embeddings and the token estimate. *)
Fixpoint embed_inputs (node : NodeInferenceInfo) (model : string) (i : Z) (inputs : list string)
    : router_err + list (string * list float64 * Z) * Z :=
  match inputs with
  | [] => inr ([], 0)
  | input :: rest =>
      match forward (node_url node "/api/embeddings") (BEmbed model input) with
      | inl e => inl e
      | inr (status, body) =>
          if negb (status =? StatusOK) then inl (node_error status body)
          else
            match decode_embedding body with
            | inl e => inl (EForward (EWrap "failed to decode response" e))
            | inr v =>
                match embed_inputs node model (i + 1) rest with
                | inl e => inl e
                | inr (data, tokens) =>
                    inr (("embedding", v, i) :: data, Z.of_nat (String.length input) / 4 + tokens)
                end
            end
      end
  end.

Definition Embed (now later : Z) (order : list NodeInferenceInfo) (req : EmbedRequest) (r r' : registry)
    : option ((router_err + EmbedResponse) * registry) :=
  match Route now order (em_Model req) (em_PreferGPU req) r with
  | None => None
  | Some (inl e) => Some (inl e, r')
  | Some (inr node) =>
      match embed_inputs node (em_Model req) 0 (em_Input req) with
      | inl e => Some (inl e, r')
      | inr (data, tokens) =>
          match IncrementRequestCount later (ni_NodeID node) (em_Model req) r' with
          | None => None
          | Some r'' =>
              Some (inr (mkEmbedResponse "list" data (em_Model req) tokens tokens (ni_NodeID node)), r'')
          end
      end
  end.

Record ModelLocation := mkModelLocation {
  ml_NodeID : string;
  ml_TailscaleIP : string;
  ml_Port : Z;
  ml_GPUType : string;
  ml_LoadState : string;
  ml_LastUsed : Z;
}.

Definition location (model : string) (node : NodeInferenceInfo) : option (list ModelLocation) :=
  match ni_Models node !! model with
  | None => Some []
  | Some None => None
  | Some (Some i) =>
      Some [mkModelLocation (ni_NodeID node) (ni_TailscaleIP node) (ni_Port node) (ni_GPUType node)
              (mi_LoadState i) (mi_LastUsed i)]
  end.

(** [InferenceRouter.ListModels]; the inner [option] is the nil pointer. *)
Definition list_locations (now : Z) (order : list NodeInferenceInfo) (r : registry)
    : gmap string (option (list ModelLocation)) :=
  map_imap (λ model nodes, Some (mjoin (M := list) <$> mapM (location model) nodes))
    (ListModels now order r).

Definition not_found (nodeID : string) : router_err :=
  RouterError "NODE_NOT_FOUND" ("node " +:+ nodeID +:+ " not found").

Definition LoadModel (later : Z) (nodeID model : string) (r r' : registry)
    : option ((router_err + unit) * registry) :=
  match GetNode nodeID r with
  | None => Some (inl (not_found nodeID), r')
  | Some node =>
      match forward (node_url node "/api/generate") (BLoad model "" (-1)) with
      | inl e => Some (inl e, r')
      | inr (status, _) =>
          if negb (status =? StatusOK) then
            r'' ← MarkModelError nodeID model ("load failed: " +:+ fmt_int status) r';
            Some (inl (RouterError "LOAD_FAILED" ("failed to load model: status " +:+ fmt_int status)), r'')
          else r'' ← MarkModelLoaded later nodeID model r'; Some (inr tt, r'')
      end
  end.

Definition idle (i : ModelInfo) : ModelInfo :=
  mkModelInfo (mi_Name i) LoadStateIdle (mi_SizeGB i) (mi_LastUsed i) (mi_LoadedAt i)
    (mi_RequestCount i) (mi_Error i).

Definition UnloadModel (nodeID model : string) (r r' : registry)
    : option ((router_err + unit) * registry) :=
  match GetNode nodeID r with
  | None => Some (inl (not_found nodeID), r')
  | Some node =>
      match forward (node_url node "/api/generate") (BUnload model 0) with
      | inl e => Some (inl e, r')
      | inr _ => r'' ← on_model nodeID model idle r'; Some (inr tt, r'')
      end
  end.

(** ** Handlers *)

(** A reply: its status and the fields of its body. *)
Record reply (A : Type) := mkReply { re_status : Z; re_body : list (string * string) + A }.
Arguments mkReply {_} _ _.
Arguments re_status {_} _.
Arguments re_body {_} _.

Definition refuse {A} (status : Z) (msg : string) : reply A := mkReply status (inl [("error", msg)]).

Definition router_reply {A} (res : router_err + A) : reply A :=
  match res with
  | inr a => mkReply StatusOK (inr a)
  | inl (RouterError code msg) =>
      mkReply StatusServiceUnavailable (inl [("error", msg); ("code", code)])
  | inl (EForward _) => refuse StatusInternalServerError "internal server error"
  end.

(** [body] is the request as it was bound. *)
Definition handleChat (now later : Z) (order : list NodeInferenceInfo) (body : gerr + ChatRequest)
    (r r' : registry) : option (reply ChatResponse * registry) :=
  match body with
  | inl _ => Some (refuse StatusBadRequest "invalid request body", r')
  | inr req =>
      if String.eqb (ch_Model req) "" then Some (refuse StatusBadRequest "model is required", r')
      else match ch_Messages req with
      | [] => Some (refuse StatusBadRequest "messages is required", r')
      | _ => '(res, r'') ← Chat now later order req r r'; Some (router_reply res, r'')
      end
  end.

Definition handleEmbed (now later : Z) (order : list NodeInferenceInfo) (body : gerr + EmbedRequest)
    (r r' : registry) : option (reply EmbedResponse * registry) :=
  match body with
  | inl _ => Some (refuse StatusBadRequest "invalid request body", r')
  | inr req =>
      if String.eqb (em_Model req) "" then Some (refuse StatusBadRequest "model is required", r')
      else match em_Input req with
      | [] => Some (refuse StatusBadRequest "input is required", r')
      | _ => '(res, r'') ← Embed now later order req r r'; Some (router_reply res, r'')
      end
  end.

(** [nodeID] is the query parameter. *)
Definition handleLoadModel (now later : Z) (order : list NodeInferenceInfo) (model nodeID : string)
    (r r' : registry) : option (reply unit * registry) :=
  let load (nodeID : string) :=
    '(res, r'') ← LoadModel later nodeID model r r';
    Some (match res with
          | inl _ => refuse StatusInternalServerError "failed to load model"
          | inr _ => mkReply StatusOK (inl [("status", "loaded"); ("model", model); ("node", nodeID)])
          end, r'') in
  if String.eqb nodeID "" then
    match FindAnyNodeWithCapacity now order 0 "" r with
    | None => Some (refuse StatusServiceUnavailable "no available nodes with capacity", r')
    | Some node => load (ni_NodeID node)
    end
  else load nodeID.

Definition handleUnloadModel (model nodeID : string) (r r' : registry)
    : option (reply unit * registry) :=
  if String.eqb nodeID "" then Some (refuse StatusBadRequest "node query parameter is required", r')
  else
    '(res, r'') ← UnloadModel nodeID model r r';
    Some (match res with
          | inl _ => refuse StatusInternalServerError "failed to unload model"
          | inr _ => mkReply StatusOK (inl [("status", "unloaded"); ("model", model); ("node", nodeID)])
          end, r'').

Record NodeRegistrationRequest := mkNodeRegistrationRequest {
  nr_NodeID : string;
  nr_TailscaleIP : string;
  nr_Port : Z;
  nr_GPUType : string;
  nr_TotalVRAM : Z;
  nr_AvailableVRAM : Z;
  nr_Models : option models;
}.

Definition handleRegisterNode (now : Z) (body : gerr + NodeRegistrationRequest) (r : registry)
    : option (reply unit * registry) :=
  match body with
  | inl _ => Some (refuse StatusBadRequest "invalid request body", r)
  | inr req =>
      if String.eqb (nr_NodeID req) "" || String.eqb (nr_TailscaleIP req) ""
      then Some (refuse StatusBadRequest "node_id and tailscale_ip are required", r)
      else
        let port := if nr_Port req =? 0 then 11434 else nr_Port req in
        let info := mkNodeInferenceInfo (nr_NodeID req) (nr_TailscaleIP req) port (nr_GPUType req)
                      (nr_TotalVRAM req) (nr_AvailableVRAM req) (default ∅ (nr_Models req)) 0 false in
        r' ← RegisterNode now info r;
        Some (mkReply StatusOK (inl [("status", "registered"); ("node_id", nr_NodeID req)]), r')
  end.

Record HeartbeatRequest := mkHeartbeatRequest {
  hb_Models : models;
  hb_AvailableVRAM : Z;
}.

(** A body that cannot be bound is an empty one. *)
Definition handleHeartbeat (now : Z) (nodeID : string) (body : gerr + HeartbeatRequest) (r : registry)
    : option (reply unit * registry) :=
  let req := match body with inl _ => mkHeartbeatRequest ∅ 0 | inr req => req end in
  let r := UpdateHeartbeat now nodeID r in
  r' ← (if decide (hb_Models req = ∅) then Some r else UpdateNodeModels now nodeID (hb_Models req) r);
  Some (mkReply StatusOK (inl [("status", "ok")]), r').

(** One tick of [StartRegistryCleanup]. *)
Definition cleanup_tick (now : Z) (r : registry) : registry := (CleanupStaleNodes now r).2.
End router.
