(* ===== verification/InferenceProps.v ===== *)
(** * What the inference gateway guarantees

    The router sends a request to a healthy node of the highest score, whatever the
    order in which the nodes are visited, and counts it there and nowhere else.  The
    registry refines a map from node identifiers to the time each was last heard of:
    the health flag never says more than that time does. *)

From S2P Require Import Prelude GoStd Redis Types ModelRegistry InferenceRouter.

Local Open Scope Z_scope.
Set Default Proof Using "Type".

(** ** The registry as a map of times *)

Inductive reg_op :=
| ORegister (info : NodeInferenceInfo)
| OModels (nodeID : string) (ms : models)
| OBeat (nodeID : string)
| ORemove (nodeID : string)
| OUse (nodeID model : string)
| OLoaded (nodeID model : string)
| OErrored (nodeID model msg : string)
| OIdle (nodeID model : string)
| OCleanup.

Definition reg_step (now : Z) (o : reg_op) (r : registry) : option registry :=
  match o with
  | ORegister info => RegisterNode now info r
  | OModels id ms => UpdateNodeModels now id ms r
  | OBeat id => Some (UpdateHeartbeat now id r)
  | ORemove id => Some (RemoveNode id r)
  | OUse id model => IncrementRequestCount now id model r
  | OLoaded id model => MarkModelLoaded now id model r
  | OErrored id model msg => MarkModelError id model msg r
  | OIdle id model => on_model id model idle r
  | OCleanup => Some (CleanupStaleNodes now r).2
  end.

Fixpoint reg_run (ops : list (Z * reg_op)) (r : registry) : option registry :=
  match ops with
  | [] => Some r
  | (now, o) :: ops' => r' ← reg_step now o r; reg_run ops' r'
  end.

(** The specification: when each node was last heard of; a node that has not been for
    three timeouts is forgotten by the cleanup. *)
Definition seen_step (timeout now : Z) (o : reg_op) (seen : gmap string Z) : gmap string Z :=
  match o with
  | ORegister info => <[ni_NodeID info := now]> seen
  | OModels id _ | OBeat id => alter (λ _, now) id seen
  | ORemove id => delete id seen
  | OUse _ _ | OLoaded _ _ | OErrored _ _ _ | OIdle _ _ => seen
  | OCleanup => filter (λ p, now - p.2 <= timeout * 3) seen
  end.

Fixpoint seen_run (timeout : Z) (ops : list (Z * reg_op)) (seen : gmap string Z) : gmap string Z :=
  match ops with
  | [] => seen
  | (now, o) :: ops' => seen_run timeout ops' (seen_step timeout now o seen)
  end.

(** Times do not decrease from [t] on, and end before [t']. *)
Fixpoint timed (t : Z) (ops : list (Z * reg_op)) (t' : Z) : Prop :=
  match ops with
  | [] => t <= t'
  | (now, _) :: ops' => t <= now /\ timed now ops' t'
  end.

(** Keys are the nodes' identifiers; a node is flagged only when it is late. *)
Definition node_ok (timeout now : Z) (id : string) (n : NodeInferenceInfo) : Prop :=
  ni_NodeID n = id /\ (ni_Healthy n = true \/ timeout < now - ni_LastHeartbeat n).
Definition reg_rel (timeout now : Z) (r : registry) (seen : gmap string Z) : Prop :=
  mr_HeartbeatTimeout r = timeout /\ ni_LastHeartbeat <$> mr_nodes r = seen /\
  map_Forall (node_ok timeout now) (mr_nodes r).

Lemma node_ok_later timeout t t' id n : t <= t' -> node_ok timeout t id n -> node_ok timeout t' id n.
Proof. intros Ht [H1 [H2|H2]]; split; auto. right. lia. Qed.

Lemma rel_insert timeout now r seen id n :
  reg_rel timeout now r seen -> node_ok timeout now id n ->
  reg_rel timeout now (set_nodes (<[id := n]> (mr_nodes r)) r) (<[id := ni_LastHeartbeat n]> seen).
Proof.
  intros (H1 & <- & H3) Hn. split; [done|]. split; [apply fmap_insert|]. by apply map_Forall_insert_2.
Qed.

Lemma rel_on_model timeout now r seen id model f r' :
  reg_rel timeout now r seen -> on_model id model f r = Some r' -> reg_rel timeout now r' seen.
Proof.
  unfold on_model. intros Hr H. destruct (mr_nodes r !! id) as [n|] eqn:Hn; [|by simplify_eq].
  destruct (ni_Models n !! model) as [[i|]|]; simplify_eq; [|done].
  pose proof Hr as (_ & Hs & HF). specialize (HF _ _ Hn).
  replace seen with (<[id := ni_LastHeartbeat n]> seen); [by apply (rel_insert _ _ _ _ _ (set_models _ n))|].
  apply insert_id. by rewrite <- Hs, lookup_fmap, Hn.
Qed.

Lemma rel_beat timeout now r seen id ms n :
  reg_rel timeout now r seen -> mr_nodes r !! id = Some n ->
  reg_rel timeout now (set_nodes (<[id := beat now ms n]> (mr_nodes r)) r) (alter (λ _, now) id seen).
Proof.
  intros Hr Hn. pose proof Hr as (_ & Hs & HF).
  replace (alter (λ _, now) id seen) with (<[id := now]> seen).
  - apply (rel_insert _ _ _ _ _ (beat now ms n)); [done|]. split; [apply (HF _ _ Hn)|by left].
  - apply map_eq. intros k. destruct (decide (id = k)) as [<-|Hk].
    + rewrite lookup_insert_eq, lookup_alter_eq, <- Hs, lookup_fmap, Hn. done.
    + by rewrite lookup_insert_ne, lookup_alter_ne.
Qed.

Lemma rel_absent r seen id : ni_LastHeartbeat <$> mr_nodes r = seen -> mr_nodes r !! id = None ->
  forall now, alter (λ _, now) id seen = seen.
Proof.
  intros <- Hn now. apply map_eq. intros k. destruct (decide (id = k)) as [<-|Hk].
  - by rewrite lookup_alter_eq, lookup_fmap, Hn.
  - by rewrite lookup_alter_ne.
Qed.

Lemma rel_cleanup timeout now r seen :
  reg_rel timeout now r seen ->
  reg_rel timeout now (CleanupStaleNodes now r).2 (filter (λ p, now - p.2 <= timeout * 3) seen).
Proof.
  intros (<- & <- & H3). split; [done|]. split.
  - apply map_eq. intros k. cbn [CleanupStaleNodes snd set_nodes mr_nodes].
    rewrite lookup_fmap, lookup_omap, map_lookup_filter, lookup_fmap.
    destruct (mr_nodes r !! k) as [n|] eqn:Hn; [|done]. simpl. unfold sweep, stale.
    destruct (Z.ltb_spec (mr_HeartbeatTimeout r * 3) (now - ni_LastHeartbeat n)).
    + rewrite option_guard_False; [done|simpl; lia].
    + rewrite option_guard_True; [|simpl; lia]. by case_match.
  - intros k n' Hk. cbn [CleanupStaleNodes snd set_nodes mr_nodes] in Hk. rewrite lookup_omap in Hk.
    destruct (mr_nodes r !! k) as [n|] eqn:Hn; [|done]. simpl in Hk. unfold sweep in Hk.
    destruct (H3 _ _ Hn) as [Hid Hh]. destruct (stale now r n); [done|].
    destruct (Z.ltb_spec (mr_HeartbeatTimeout r) (now - ni_LastHeartbeat n)); simplify_eq.
    + split; [done|]. right. simpl. lia.
    + by split.
Qed.

Lemma rel_step timeout now o r r' seen :
  reg_rel timeout now r seen -> reg_step now o r = Some r' ->
  reg_rel timeout now r' (seen_step timeout now o seen).
Proof.
  intros Hr H. pose proof Hr as (H1 & H2 & H3). destruct o; cbn [reg_step seen_step] in *.
  - unfold RegisterNode in H. destruct (mr_nodes r !! ni_NodeID info) as [n|] eqn:Hn.
    + destruct (nil_clash _ _); simplify_eq. apply (rel_insert _ _ _ _ _ (beat now _ info)); [done|]. split; [done|by left].
    + simplify_eq. apply (rel_insert _ _ _ _ _ (beat now _ info)); [done|]. split; [done|by left].
  - unfold UpdateNodeModels in H. destruct (mr_nodes r !! nodeID) as [n|] eqn:Hn.
    + destruct (nil_clash _ _); simplify_eq. by apply rel_beat.
    + injection H as <-. by rewrite (rel_absent r).
  - simplify_eq. unfold UpdateHeartbeat. destruct (mr_nodes r !! nodeID) as [n|] eqn:Hn.
    + by apply rel_beat.
    + by rewrite (rel_absent r).
  - simplify_eq. split; [done|]. split; [apply fmap_delete|]. by apply map_Forall_delete.
  - by eapply rel_on_model.
  - by eapply rel_on_model.
  - by eapply rel_on_model.
  - by eapply rel_on_model.
  - simplify_eq. by apply rel_cleanup.
Qed.

Lemma rel_run timeout ops : forall t t' r r' seen,
  timed t ops t' -> reg_rel timeout t r seen -> reg_run ops r = Some r' ->
  reg_rel timeout t' r' (seen_run timeout ops seen).
Proof.
  assert (forall t t' r seen, t <= t' -> reg_rel timeout t r seen -> reg_rel timeout t' r seen) as Hlater.
  { intros t t' r seen Ht (H1 & H2 & H3). split; [done|]. split; [done|].
    intros id n Hn. by eapply node_ok_later, H3. }
  induction ops as [|[now o] ops IH]; intros t t' r r' seen Ht Hr H; cbn [reg_run seen_run] in *.
  { simplify_eq. by eapply Hlater. }
  destruct Ht as [Ht Hts]. apply bind_Some in H as (r1 & Hs & H).
  eapply IH; [exact Hts| |exact H]. eapply rel_step; [|exact Hs]. by eapply Hlater.
Qed.

(** ** The theorems *)

(** C27. Whatever sequence of registrations, heartbeats, model updates, removals,
    requests and cleanups runs at non-decreasing times, the registry holds exactly the
    nodes the specification remembers, under their own identifiers and with the time
    each was last heard of; and a node is healthy if and only if that was less than a
    heartbeat timeout ago. *)
Theorem registry_refines_last_seen (ops : list (Z * reg_op)) (t now : Z) (r : registry) :
  timed t ops now -> reg_run ops NewModelRegistry = Some r ->
  let seen := seen_run (30 * second) ops ∅ in
  ni_LastHeartbeat <$> mr_nodes r = seen /\
  forall id n, mr_nodes r !! id = Some n ->
    ni_NodeID n = id /\
    (isNodeHealthy now r n = true <-> exists s, seen !! id = Some s /\ now - s < 30 * second).
Proof.
  intros Ht Hr seen.
  destruct (rel_run (30 * second) ops t now NewModelRegistry r ∅ Ht) as (H1 & H2 & H3); [by split_and!|done|].
  split; [done|]. intros id n Hn. destruct (H3 _ _ Hn) as [Hid Hh]. split; [done|].
  assert (seen !! id = Some (ni_LastHeartbeat n)) as Hs by (unfold seen; by rewrite <- H2, lookup_fmap, Hn).
  unfold isNodeHealthy. rewrite H1.
  destruct (Z.ltb_spec (now - ni_LastHeartbeat n) (30 * second)) as [Hlt|Hlt].
  - destruct Hh as [->|Hh]; [|lia]. split; [|done]. intros _. by exists (ni_LastHeartbeat n).
  - rewrite andb_false_r. split; [done|]. intros (s & Hs' & Hlt'). rewrite Hs in Hs'. simplify_eq. lia.
Qed.

(** C28. [FindNodeForModel] is right whatever the order of the map: it returns a healthy
    node that has the model, with a positive score that no other node exceeds; it
    returns nil only when no node has a positive score, and it panics only when a
    healthy node registered the model as null. *)
Theorem FindNodeForModel_optimal (now : Z) (order : list NodeInferenceInfo) (model gpu : string)
    (r : registry) :
  visits order r ->
  match FindNodeForModel now order model gpu r with
  | Some (Some n) =>
      exists id score, mr_nodes r !! id = Some n /\ isNodeHealthy now r n = true /\
        judge now r model gpu n = Scored score /\ 0 < score /\
        forall id' n' score', mr_nodes r !! id' = Some n' -> judge now r model gpu n' = Scored score' ->
          score' <= score
  | Some None =>
      forall id n score, mr_nodes r !! id = Some n -> judge now r model gpu n = Scored score -> score <= 0
  | None => exists id n, mr_nodes r !! id = Some n /\ isNodeHealthy now r n = true /\
              ni_Models n !! model = Some None
  end.
Proof.
  intros Hv. assert (forall n id, mr_nodes r !! id = Some n -> n ∈ order) as Hin.
  { intros n id Hn. apply (visits_node _ _ _ Hv). eauto. }
  pose proof (find_best_spec now r model gpu order None 0) as H. unfold FindNodeForModel.
  destruct (find_best _ _ _ _ _ _ _) as [res|].
  - destruct H as (_ & best & _ & Hmax & [[-> ->]|(n & Hn & -> & Hj & Hpos)]); [by eauto|].
    apply (visits_node _ _ _ Hv) in Hn as [id Hn]. exists id, best. split; [done|].
    split; [by unfold judge in Hj; destruct (isNodeHealthy now r n)|]. eauto.
  - destruct H as (n & [id Hn]%(visits_node _ _ _ Hv) & Hj). exists id, n. split; [done|].
    unfold judge in Hj. destruct (isNodeHealthy now r n); [|done]. simpl in Hj. split; [done|].
    destruct (ni_Models n !! model) as [[i|]|]; [|done..]. by destruct (state_score _).
Qed.

(** A chat request that succeeds was answered by the node [FindNodeForModel]
    picked, and changes the registry it finds by one count of that model on that node
    and its time of use; one that fails changes nothing. *)
Theorem Chat_counts_once `{HTTP : NodeHttp} (now later : Z) (order : list NodeInferenceInfo)
    (req : ChatRequest) (r r' : registry) :
  match Chat now later order req r r' with
  | Some (inr resp, r'') =>
      exists n, FindNodeForModel now order (ch_Model req) (ch_PreferGPU req) r = Some (Some n) /\
        cp_Node resp = ni_NodeID n /\
        (forall id, id <> ni_NodeID n -> mr_nodes r'' !! id = mr_nodes r' !! id) /\
        (mr_nodes r'' !! ni_NodeID n =
           (λ n', set_models (alter (fmap (count_use later)) (ch_Model req) (ni_Models n')) n')
             <$> (mr_nodes r' !! ni_NodeID n))
  | Some (inl _, r'') => r'' = r'
  | None =>
      FindNodeForModel now order (ch_Model req) (ch_PreferGPU req) r = None \/
      exists id n, mr_nodes r' !! id = Some n /\ ni_Models n !! ch_Model req = Some None
  end.
Proof.
  unfold Chat, Route. destruct (FindNodeForModel _ _ _ _ _) as [[n|]|] eqn:Hf; [|done|by left].
  destruct (forward _ _) as [e|[status body]]; [done|]. destruct (negb _); [done|].
  destruct (decode_chat body) as [e|o]; [done|]. unfold IncrementRequestCount, on_model.
  assert (forall n', set_models (ni_Models n') n' = n') as Hsame by (by intros []).
  destruct (mr_nodes r' !! ni_NodeID n) as [n'|] eqn:Hn'.
  2: { exists n. split; [done|]. split; [done|]. split; [done|]. by rewrite Hn'. }
  destruct (ni_Models n' !! ch_Model req) as [[i|]|] eqn:Hi.
  - exists n. split; [done|]. split; [done|]. split.
    + intros id Hid. simpl. by rewrite lookup_insert_ne.
    + simpl. rewrite lookup_insert_eq, Hn'. cbn [fmap option_fmap option_map]. f_equal. f_equal. apply map_eq. intros k.
      destruct (decide (ch_Model req = k)) as [<-|].
      * by rewrite lookup_insert_eq, lookup_alter_eq, Hi.
      * by rewrite lookup_insert_ne, lookup_alter_ne.
  - right. eauto.
  - exists n. split; [done|]. split; [done|]. split; [done|]. rewrite Hn'. cbn [fmap option_fmap option_map]. f_equal.
    rewrite <- (Hsame n') at 1. f_equal. apply map_eq. intros k. destruct (decide (ch_Model req = k)) as [<-|].
    + by rewrite lookup_alter_eq, Hi.
    + by rewrite lookup_alter_ne.
Qed.

(** ** Concrete runs *)

Definition ex_model (state : string) : ModelInfo := mkModelInfo "llama" state 0 0 0 0 "".
Definition ex_node (id state : string) (vram : Z) : NodeInferenceInfo :=
  mkNodeInferenceInfo id "100.64.0.1" 11434 "CUDA" 81920 vram {[ "llama" := Some (ex_model state) ]} 0 false.
Definition ex_history : list (Z * reg_op) :=
  [(0, ORegister (ex_node "a" LoadStateReady 0)); (10 * second, ORegister (ex_node "b" LoadStateIdle 81920));
   (20 * second, OBeat "a"); (45 * second, OCleanup)].
Definition ex_registry : registry := default NewModelRegistry (reg_run ex_history NewModelRegistry).

Lemma registry_refines_last_seen_witness :
  let seen := seen_run (30 * second) ex_history ∅ in
  seen = {[ "a" := 20 * second; "b" := 10 * second ]} /\
  ni_LastHeartbeat <$> mr_nodes ex_registry = seen /\
  forall id n, mr_nodes ex_registry !! id = Some n ->
    ni_NodeID n = id /\
    (isNodeHealthy (45 * second) ex_registry n = true <->
     exists s, seen !! id = Some s /\ 45 * second - s < 30 * second).
Proof.
  split; [by vm_compute|].
  exact (registry_refines_last_seen ex_history 0 (45 * second) ex_registry
    ltac:(vm_compute; intuition discriminate) ltac:(vm_compute; reflexivity)).
Defined.

Lemma FindNodeForModel_optimal_witness :
  let order := (map_to_list (mr_nodes ex_registry)).*2 in
  match FindNodeForModel (25 * second) order "llama" "" ex_registry with
  | Some (Some n) =>
      exists id score, mr_nodes ex_registry !! id = Some n /\
        isNodeHealthy (25 * second) ex_registry n = true /\
        judge (25 * second) ex_registry "llama" "" n = Scored score /\ 0 < score /\
        forall id' n' score', mr_nodes ex_registry !! id' = Some n' ->
          judge (25 * second) ex_registry "llama" "" n' = Scored score' -> score' <= score
  | _ => False
  end.
Proof.
  exact (FindNodeForModel_optimal (25 * second) (map_to_list (mr_nodes ex_registry)).*2 "llama" ""
    ex_registry (reflexivity _)).
Defined.
