(* ===== verification/Registry.v ===== *)
(** * Registry credentials (pkg/registry/credentials.go)

    Which credentials an image reference needs, in the two forms the code uses: a map of
    named values, stored as a secret of the workspace, and the text username:password of
    the build.  encoding/json, the token service of ECR, the process environment and
    the keychain of the clip package are parameters. *)

From S2P Require Import Prelude GoStd Redis TaskRepo.

Local Open Scope Z_scope.

(** ** Kinds of credentials *)

Definition CredTypePublic : string := "public".
Definition CredTypeBasic : string := "basic".
Definition CredTypeAWS : string := "aws".
Definition CredTypeGCP : string := "gcp".
Definition CredTypeAzure : string := "azure".
Definition CredTypeToken : string := "token".
Definition CredTypeUnknown : string := "unknown".

Definition knownCredKeys : gset string :=
  list_to_set
    ["USERNAME"; "PASSWORD"; "AWS_ACCESS_KEY_ID"; "AWS_SECRET_ACCESS_KEY"; "AWS_SESSION_TOKEN";
     "AWS_REGION"; "GOOGLE_APPLICATION_CREDENTIALS"; "GCP_PROJECT_ID"; "GCP_ACCESS_TOKEN";
     "AZURE_CLIENT_ID"; "AZURE_CLIENT_SECRET"; "AZURE_TENANT_ID"; "DOCKER_USERNAME";
     "DOCKER_PASSWORD"; "REGISTRY_USERNAME"; "REGISTRY_PASSWORD"; "NGC_API_KEY"; "GITHUB_TOKEN";
     "DOCKERHUB_TOKEN"].

Definition tokenCredKeys : list string := ["NGC_API_KEY"; "GITHUB_TOKEN"; "DOCKERHUB_TOKEN"].

Abbreviation creds_map := (gmap string string).

(** [creds[key]] *)
Definition cred (creds : creds_map) (key : string) : string := default "" (creds !! key).
Definition has (creds : creds_map) (key : string) : bool := bool_decide (is_Some (creds !! key)).

Definition containsAny (s : string) (substrs : list string) : bool :=
  existsb (Contains s) substrs.

Definition ParseRegistry (imageRef : string) : string :=
  if String.eqb imageRef "" then ""
  else
    let imageRef := TrimPrefix (TrimPrefix imageRef "docker://") "oci://" in
    match split_on "/" imageRef with
    | firstPart :: _ :: _ =>
        if Contains firstPart "." || Contains firstPart ":" || String.eqb firstPart "localhost"
        then firstPart else "docker.io"
    | _ => "docker.io"
    end.

Definition ParseCredentialsFromEnv (envMap : creds_map) : creds_map :=
  filter (λ p, p.1 ∈ knownCredKeys) envMap.

(** A credential whose name contains [part], in any letter case. *)
Definition has_key_with (part : string) (creds : creds_map) : bool :=
  existsb (λ p, Contains (ToUpper p.1) part) (map_to_list creds).

Definition DetectCredentialType (registry : string) (creds : creds_map) : string :=
  if bool_decide (creds = ∅) then CredTypePublic
  else if has creds "AWS_ACCESS_KEY_ID" && has creds "AWS_SECRET_ACCESS_KEY" then CredTypeAWS
  else if has creds "GOOGLE_APPLICATION_CREDENTIALS" || has creds "GCP_PROJECT_ID"
          || has creds "GCP_ACCESS_TOKEN" then CredTypeGCP
  else if has creds "AZURE_CLIENT_ID" && has creds "AZURE_CLIENT_SECRET" then CredTypeAzure
  else if existsb (has creds) tokenCredKeys then CredTypeToken
  else if has_key_with "USERNAME" creds && has_key_with "PASSWORD" creds then CredTypeBasic
  else
    let registry := ToLower registry in
    if Contains registry "ecr" || Contains registry "amazonaws.com" then CredTypeAWS
    else if Contains registry "gcr.io" || Contains registry "pkg.dev" then CredTypeGCP
    else if Contains registry "azurecr.io" then CredTypeAzure
    else CredTypeUnknown.

Definition CreateSecretName (registry : string) : string :=
  "oci-registry-" +:+
  replace_char "/" "-" (replace_char ":" "-" (replace_char "." "-" (ToLower registry))).

(** ** JSON *)

Class JsonCreds := {
  marshal_secret : string -> string -> creds_map -> gerr + string;
  unmarshal_object : string -> gerr + gmap string jvalue;
  unmarshal_flat : string -> gerr + creds_map;
}.

Definition MarshalCredentials `{JsonCreds} (registry credType : string) (creds : creds_map)
    : gerr + string :=
  match marshal_secret registry credType creds with
  | inl e => inl (EWrap "failed to marshal credentials" e)
  | inr s => inr s
  end.

(** [v, _ = data[key].(string)] *)
Definition string_at (data : gmap string jvalue) (key : string) : string :=
  match data !! key with Some (JStr s) => s | _ => "" end.

Definition keep_string (creds : creds_map) (p : string * jvalue) : creds_map :=
  match p.2 with JStr s => <[p.1 := s]> creds | _ => creds end.

Definition UnmarshalCredentials `{JsonCreds} (credentialJSON : string)
    : gerr + string * string * creds_map :=
  match unmarshal_object credentialJSON with
  | inl e => inl (EWrap "failed to unmarshal credentials" e)
  | inr data =>
      let creds := match data !! "credentials" with
                   | Some (JObj credMap) => foldl keep_string ∅ credMap
                   | _ => ∅
                   end in
      inr (string_at data "registry", string_at data "type", creds)
  end.

Definition ParseCredentialsFromJSON `{JsonCreds} (credStr : string) : gerr + creds_map :=
  if String.eqb credStr "" then inr ∅
  else
    let otherwise :=
      match unmarshal_flat credStr with
      | inr credMap => inr (ParseCredentialsFromEnv credMap)
      | inl _ =>
          match cut_at ":" credStr with
          | Some (username, password) => inr {[ "USERNAME" := username; "PASSWORD" := password ]}
          | None => inl (EMsg "unable to parse credentials: invalid format")
          end
      end in
    match UnmarshalCredentials credStr with
    | inr (_, _, creds) => if bool_decide (creds = ∅) then otherwise else inr creds
    | inl _ => otherwise
    end.

(** ** Providers from the environment *)

Inductive provider :=
| PublicOnly
| EnvProvider (registry credType : string) (creds : creds_map).

Definition add_env (Getenv : string -> string) (creds : creds_map) (key : string) : creds_map :=
  let value := Getenv key in
  if String.eqb value "" then creds else <[key := value]> creds.

Definition CreateProviderFromEnv (Getenv : string -> string) (registry : string)
    (credKeys : list string) : provider :=
  let creds := foldl (add_env Getenv) ∅ credKeys in
  if bool_decide (credKeys = []) || bool_decide (creds = ∅) then PublicOnly
  else EnvProvider registry (DetectCredentialType registry creds) creds.

(** The environment variables that the callback sets before it asks the keychain. *)
Definition exported_keys (credType : string) : list string :=
  if String.eqb credType CredTypeAWS
  then ["AWS_ACCESS_KEY_ID"; "AWS_SECRET_ACCESS_KEY"; "AWS_SESSION_TOKEN"; "AWS_REGION"]
  else if String.eqb credType CredTypeGCP
  then ["GCP_ACCESS_TOKEN"; "GOOGLE_APPLICATION_CREDENTIALS"; "GCP_PROJECT_ID"]
  else if String.eqb credType CredTypeAzure
  then ["AZURE_CLIENT_ID"; "AZURE_CLIENT_SECRET"; "AZURE_TENANT_ID"]
  else [].

(** [os.Setenv] of every such credential. *)
Definition exported (credType : string) (creds : creds_map) : list (string * string) :=
  omap (λ key, (λ v, (key, v)) <$> creds !! key) (exported_keys credType).

(** The username and the password of the loop over [creds], visited in [order]. *)
Definition pick_basic (order : list (string * string)) : string * string :=
  foldl (λ up p, (if Contains (ToUpper p.1) "USERNAME" then p.2 else up.1,
                  if Contains (ToUpper p.1) "PASSWORD" then p.2 else up.2)) ("", "") order.

Definition ErrNoCredentials : gerr := EMsg "no credentials".

(** The callback of a provider: the variables it sets and the credentials it answers. *)
Definition provider_callback
    (keychain : list (string * string) -> string -> string -> gerr + string * string)
    (order : list (string * string)) (registry credType : string) (creds : creds_map)
    (reg scope : string) : list (string * string) * (gerr + string * string) :=
  if negb (String.eqb reg registry) then ([], inl ErrNoCredentials)
  else if String.eqb credType CredTypeBasic then
    let '(username, password) := pick_basic order in
    ([], if negb (String.eqb username "") && negb (String.eqb password "")
         then inr (username, password) else inl ErrNoCredentials)
  else if String.eqb credType CredTypeAWS || String.eqb credType CredTypeGCP
          || String.eqb credType CredTypeAzure then
    let env := exported credType creds in (env, keychain env reg scope)
  else if String.eqb credType CredTypeToken then
    ([], match list_find (λ key, cred creds key ≠ "") tokenCredKeys with
         | Some (_, key) => inr ("oauth2accesstoken", cred creds key)
         | None => inl ErrNoCredentials
         end)
  else ([], inl ErrNoCredentials).

(** ** Credentials of an image *)

Definition ErrMissingCredential (key : string) : gerr := EMsg (key +:+ " not found or empty").
Definition ErrBothCredentialsRequired (key1 key2 : string) : gerr :=
  EMsg ("both " +:+ key1 +:+ " and " +:+ key2 +:+ " must be provided together").

Definition validateRequiredCredential (creds : creds_map) (key : string) : gerr + string :=
  let value := cred creds key in
  if String.eqb value "" then inl (ErrMissingCredential key) else inr value.

(** Both values, or [None] when there are none. *)
Definition validateOptionalCredentials (creds : creds_map) (usernameKey passwordKey : string)
    : gerr + option (string * string) :=
  let username := cred creds usernameKey in
  let password := cred creds passwordKey in
  let usernameExists := has creds usernameKey in
  let passwordExists := has creds passwordKey in
  let empty s := String.eqb s "" in
  if negb usernameExists && negb passwordExists then inr None
  else if (usernameExists && empty username) || (passwordExists && empty password)
  then inl (ErrBothCredentialsRequired usernameKey passwordKey)
  else if (empty username && negb (empty password)) || (negb (empty username) && empty password)
  then inl (ErrBothCredentialsRequired usernameKey passwordKey)
  else inr (if negb (empty username) && negb (empty password) then Some (username, password) else None).

Definition buildBasicAuthToken (username password : string) : string :=
  username +:+ ":" +:+ password.

Definition awsRegistryDomains : list string := ["amazonaws.com"].
Definition gcpRegistryDomains : list string := ["pkg.dev"; "gcr.io"].
Definition ngcRegistryDomains : list string := ["nvcr.io"].
Definition ghcrRegistryDomains : list string := ["ghcr.io"].

(** What ECR answers to [GetAuthorizationToken] with an access key, a secret key, a
    region and a session token: the first token, if there is one, or the error of the
    configuration or of the call. *)
Class EcrService := {
  ecr_token : string -> string -> string -> string -> gerr + option string;
}.

Local Notation "'let?' x ← p ; q" := (match p with inl e => inl e | inr x => q end)
  (at level 10, x name, p at level 99, q at level 200).

Definition GetECRCredentials (creds : creds_map) : gerr + creds_map :=
  let? accessKey ← validateRequiredCredential creds "AWS_ACCESS_KEY_ID";
  let? secretKey ← validateRequiredCredential creds "AWS_SECRET_ACCESS_KEY";
  let? region ← validateRequiredCredential creds "AWS_REGION";
  let result : creds_map := {[ "AWS_ACCESS_KEY_ID" := accessKey; "AWS_SECRET_ACCESS_KEY" := secretKey;
                               "AWS_REGION" := region ]} in
  let sessionToken := cred creds "AWS_SESSION_TOKEN" in
  inr (if String.eqb sessionToken "" then result else <["AWS_SESSION_TOKEN" := sessionToken]> result).

(** The text of the decoding error does not have the offset of the bad character. *)
Definition GetECRToken `{EcrService} (creds : creds_map) : gerr + string :=
  let? accessKey ← validateRequiredCredential creds "AWS_ACCESS_KEY_ID";
  let? secretKey ← validateRequiredCredential creds "AWS_SECRET_ACCESS_KEY";
  let? region ← validateRequiredCredential creds "AWS_REGION";
  match ecr_token accessKey secretKey region (cred creds "AWS_SESSION_TOKEN") with
  | inl e => inl e
  | inr None => inl (EMsg "no authorization data returned from ECR")
  | inr (Some base64Token) =>
      match b64_decode base64Token with
      | None => inl (EMsg "failed to decode ECR token: illegal base64 data")
      | Some decodedToken =>
          match cut_at ":" decodedToken with
          | None => inl (EMsg "invalid ECR token format")
          | Some (username, password) => inr (buildBasicAuthToken username password)
          end
      end
  end.

Definition GetGARCredentials (creds : creds_map) : gerr + creds_map :=
  let? token ← validateRequiredCredential creds "GCP_ACCESS_TOKEN";
  inr {[ "GCP_ACCESS_TOKEN" := token ]}.
Definition GetGARToken (creds : creds_map) : gerr + string :=
  let? token ← validateRequiredCredential creds "GCP_ACCESS_TOKEN";
  inr (buildBasicAuthToken "oauth2accesstoken" token).

Definition GetNGCCredentials (creds : creds_map) : gerr + creds_map :=
  let? apiKey ← validateRequiredCredential creds "NGC_API_KEY";
  inr {[ "NGC_API_KEY" := apiKey ]}.
Definition GetNGCToken (creds : creds_map) : gerr + string :=
  let? apiKey ← validateRequiredCredential creds "NGC_API_KEY";
  inr (buildBasicAuthToken "$oauthtoken" apiKey).

(** The pair as a map, [nil] for a public image. *)
Definition pair_credentials (creds : creds_map) (usernameKey passwordKey : string) : gerr + creds_map :=
  let? auth ← validateOptionalCredentials creds usernameKey passwordKey;
  inr (match auth with
       | Some (username, password) => {[ usernameKey := username; passwordKey := password ]}
       | None => ∅
       end).

Definition GetGHCRCredentials (creds : creds_map) : gerr + creds_map :=
  pair_credentials creds "GITHUB_USERNAME" "GITHUB_TOKEN".
Definition GetDockerHubCredentials (creds : creds_map) : gerr + creds_map :=
  pair_credentials creds "DOCKERHUB_USERNAME" "DOCKERHUB_PASSWORD".

(** The token of the first pair of names that has one, empty for public access. *)
Fixpoint first_pair (creds : creds_map) (pairs : list (string * string)) : gerr + string :=
  match pairs with
  | [] => inr ""
  | (usernameKey, passwordKey) :: pairs' =>
      let? auth ← validateOptionalCredentials creds usernameKey passwordKey;
      match auth with
      | Some (username, password) => inr (buildBasicAuthToken username password)
      | None => first_pair creds pairs'
      end
  end.

Definition GetGHCRToken (creds : creds_map) : gerr + string :=
  first_pair creds [("GITHUB_USERNAME", "GITHUB_TOKEN")].
Definition GetDockerHubToken (creds : creds_map) : gerr + string :=
  first_pair creds [("DOCKERHUB_USERNAME", "DOCKERHUB_PASSWORD"); ("USERNAME", "PASSWORD");
                    ("REGISTRY_USERNAME", "REGISTRY_PASSWORD")].

(** The switch of the next two functions. *)
Inductive registry_kind := KECR | KGAR | KNGC | KGHCR | KDockerHub.
Definition kind_of (imageURI : string) : registry_kind :=
  if containsAny imageURI awsRegistryDomains then KECR
  else if containsAny imageURI gcpRegistryDomains then KGAR
  else if containsAny imageURI ngcRegistryDomains then KNGC
  else if containsAny imageURI ghcrRegistryDomains then KGHCR
  else KDockerHub.

Definition GetRegistryCredentialsForImage (imageURI : string) (creds : creds_map)
    : string * (gerr + creds_map) :=
  let registry := ParseRegistry imageURI in
  if String.eqb registry ""
  then ("", inl (EMsg ("failed to parse registry from image URI: " +:+ imageURI)))
  else
    (registry,
     match kind_of imageURI with
     | KECR => GetECRCredentials creds
     | KGAR => GetGARCredentials creds
     | KNGC => GetNGCCredentials creds
     | KGHCR => GetGHCRCredentials creds
     | KDockerHub => GetDockerHubCredentials creds
     end).

Definition GetRegistryTokenForImage `{EcrService} (imageURI : string) (creds : creds_map)
    : gerr + string :=
  match kind_of imageURI with
  | KECR => GetECRToken creds
  | KGAR => GetGARToken creds
  | KNGC => GetNGCToken creds
  | KGHCR => GetGHCRToken creds
  | KDockerHub => GetDockerHubToken creds
  end.

(** ** The stored secret grants what the build was granted *)

Lemma required_again creds key (v : string) (m : creds_map) :
  validateRequiredCredential creds key = inr v -> m !! key = Some v ->
  validateRequiredCredential m key = inr v.
Proof.
  unfold validateRequiredCredential, cred. intros H ->. simpl. case_match; [done|]. case_match; congruence.
Qed.

Lemma required_value creds key v : validateRequiredCredential creds key = inr v -> cred creds key = v.
Proof. unfold validateRequiredCredential. case_match; congruence. Qed.

Lemma optional_again creds k1 k2 u p : k1 <> k2 ->
  validateOptionalCredentials creds k1 k2 = inr (Some (u, p)) ->
  validateOptionalCredentials {[ k1 := u; k2 := p ]} k1 k2 = inr (Some (u, p)).
Proof.
  intros Hk. unfold validateOptionalCredentials, has.
  assert (cred {[k1 := u; k2 := p]} k1 = u) as -> by (unfold cred; by simplify_map_eq).
  assert (cred {[k1 := u; k2 := p]} k2 = p) as -> by (unfold cred; by simplify_map_eq).
  rewrite !(bool_decide_true (is_Some (({[k1 := u; k2 := p]} : creds_map) !! _))) by (simplify_map_eq; eauto).
  repeat case_match; intros E; simplify_eq; simpl in *; try done; destruct (String.eqb_spec (cred creds k1) "");
    destruct (String.eqb_spec (cred creds k2) ""); simplify_eq/=; try done.
Qed.

Lemma optional_none_again k1 k2 : validateOptionalCredentials ∅ k1 k2 = inr None.
Proof. unfold validateOptionalCredentials, has. rewrite !lookup_empty. simpl. done. Qed.

Section stored.
Context {ECR : EcrService}.

Lemma ecr_again creds s : GetECRCredentials creds = inr s -> GetECRToken s = GetECRToken creds.
Proof.
  unfold GetECRCredentials, GetECRToken. intros H.
  destruct (validateRequiredCredential creds "AWS_ACCESS_KEY_ID") as [|a] eqn:Ea; [done|].
  destruct (validateRequiredCredential creds "AWS_SECRET_ACCESS_KEY") as [|k] eqn:Ek; [done|].
  destruct (validateRequiredCredential creds "AWS_REGION") as [|r] eqn:Er; [done|].
  assert (s !! "AWS_ACCESS_KEY_ID" = Some a /\ s !! "AWS_SECRET_ACCESS_KEY" = Some k /\
          s !! "AWS_REGION" = Some r /\ cred s "AWS_SESSION_TOKEN" = cred creds "AWS_SESSION_TOKEN")
    as (H1 & H2 & H3 & H4).
  { destruct (String.eqb_spec (cred creds "AWS_SESSION_TOKEN") "") as [E|E]; injection H as <-;
      unfold cred at 1; by simplify_map_eq. }
  by rewrite (required_again _ _ _ _ Ea H1), (required_again _ _ _ _ Ek H2), (required_again _ _ _ _ Er H3), H4.
Qed.

Lemma single_again key creds s (mk : string -> string) :
  match validateRequiredCredential creds key with inl e => inl e | inr v => inr {[ key := v ]} end = inr s ->
  match validateRequiredCredential s key with inl e => inl e | inr v => @inr gerr string (mk v) end
  = match validateRequiredCredential creds key with inl e => inl e | inr v => inr (mk v) end.
Proof.
  destruct (validateRequiredCredential creds key) as [|v] eqn:E; [done|]. intros H.
  apply (inj inr) in H. subst s.
  by rewrite (required_again _ _ _ _ E (lookup_singleton_eq key v)).
Qed.

Lemma pair_again creds k1 k2 rest s : k1 <> k2 ->
  pair_credentials creds k1 k2 = inr s -> s <> ∅ ->
  first_pair s ((k1, k2) :: rest) = first_pair creds ((k1, k2) :: rest).
Proof.
  intros Hk. unfold pair_credentials. simpl.
  destruct (validateOptionalCredentials creds k1 k2) as [|[[u p]|]] eqn:E;
    intros H Hs; [done| |]; apply (inj inr) in H; subst s; [|done].
  by rewrite (optional_again _ _ _ _ _ Hk E).
Qed.

Lemma pair_public creds k1 k2 rest :
  pair_credentials creds k1 k2 = inr ∅ -> first_pair creds ((k1, k2) :: rest) = first_pair creds rest.
Proof.
  unfold pair_credentials. simpl.
  destruct (validateOptionalCredentials creds k1 k2) as [|[[u p]|]]; [done| |done].
  intros H. apply (inj inr) in H. by apply insert_non_empty in H.
Qed.

(** What is stored of the credentials of an image grants at run time what the build
    was granted: the token that [GetRegistryTokenForImage] makes of the structured
    credentials is the one it makes of the user's credentials, for ECR up to the answer
    of the service.  The only exception are registries without a rule of their own: for
    them the structured form knows the Docker Hub names alone, so that credentials given
    as USERNAME and PASSWORD, or REGISTRY_USERNAME and REGISTRY_PASSWORD, with which the
    image was built, are stored as none at all, and no secret is made. *)
Theorem stored_credentials_suffice uri creds registry s :
  GetRegistryCredentialsForImage uri creds = (registry, inr s) ->
  registry = ParseRegistry uri /\
  (GetRegistryTokenForImage uri s = GetRegistryTokenForImage uri creds \/
   kind_of uri = KDockerHub /\ s = ∅ /\ DetectCredentialType registry s = CredTypePublic /\
   GetRegistryTokenForImage uri creds
   = first_pair creds [("USERNAME", "PASSWORD"); ("REGISTRY_USERNAME", "REGISTRY_PASSWORD")]).
Proof using All.
  unfold GetRegistryCredentialsForImage, GetRegistryTokenForImage. case_match; [done|].
  intros Hr. apply (inj2 pair) in Hr as [<- H2].
  split; [done|]. destruct (kind_of uri).
  - left. by apply ecr_again.
  - left. by apply (single_again "GCP_ACCESS_TOKEN" creds s (buildBasicAuthToken "oauth2accesstoken")).
  - left. by apply (single_again "NGC_API_KEY" creds s (buildBasicAuthToken "$oauthtoken")).
  - left. destruct (decide (s = ∅)) as [->|Hs]; [|by apply pair_again].
    unfold GetGHCRToken. rewrite (pair_public creds) by done. simpl. by rewrite optional_none_again.
  - destruct (decide (s = ∅)) as [->|Hs]; [|left; by apply pair_again].
    right. unfold GetDockerHubToken. by rewrite (pair_public creds) by done.
Qed.
End stored.

(** A private registry whose credentials are dropped. *)
Lemma stored_credentials_suffice_witness :
  let E := {| ecr_token _ _ _ _ := inr None |} in
  let creds := {[ "USERNAME" := "ada"; "PASSWORD" := "secret" ]} in
  GetRegistryCredentialsForImage "registry.example.com:5000/team/image:1" creds
  = ("registry.example.com:5000", inr ∅) /\
  GetRegistryTokenForImage "registry.example.com:5000/team/image:1" creds = inr "ada:secret" /\
  "registry.example.com:5000" = ParseRegistry "registry.example.com:5000/team/image:1".
Proof.
  intros E creds.
  assert (GetRegistryCredentialsForImage "registry.example.com:5000/team/image:1" creds
          = ("registry.example.com:5000", inr ∅)) as H by (vm_compute; reflexivity).
  split; [exact H|]. split; [vm_compute; reflexivity|].
  exact (proj1 (stored_credentials_suffice (ECR := E) _ creds _ ∅ H)).
Defined.
