(* ===== verification/Regex.v ===== *)
(** * Regular expressions (Go's package regexp)

    The part of Go's syntax that the program uses.  [FindStringSubmatch] of an anchored
    expression answers the match that a backtracking search finds first: an
    alternative prefers its left branch and a repetition prefers one more round.
    [search] is that search; [lang] is the set of texts with their captures that an
    expression describes, and the two agree ([search_sound], [search_complete]). *)

From S2P Require Import Prelude GoStd.

(** [RStar] and [RUpTo] are greedy; no expression of the program repeats one that matches
    the empty text. *)
Inductive re :=
| RChar (p : Ascii.ascii -> bool)
| RSeq (a b : re)
| RAlt (a b : re)
| ROpt (a : re)
| RStar (a : re)
| RUpTo (n : nat) (a : re)
| RCap (name : string) (a : re).

Definition RPlus (a : re) : re := RSeq a (RStar a).

(** [a{n,}] for a positive [n]. *)
Fixpoint RAtLeast (n : nat) (a : re) : re :=
  match n with
  | O => RStar a
  | S n' => RSeq a (RAtLeast n' a)
  end.

(** A text. *)
Fixpoint RLit (c : Ascii.ascii) (s : string) : re :=
  match s with
  | "" => RChar (Ascii.eqb c)
  | String d s' => RSeq (RChar (Ascii.eqb c)) (RLit d s')
  end.

Definition captures : Type := list (string * string).

(** The text that was read between [s] and its suffix [s']. *)
Definition consumed (s s' : string) : string := substring 0 (String.length s - String.length s') s.

Fixpoint search {X} (r : re) (s : string) (cs : captures) (k : string -> captures -> option X) : option X :=
  match r with
  | RChar p => match s with String c s' => if p c then k s' cs else None | "" => None end
  | RSeq a b => search a s cs (λ s' cs', search b s' cs' k)
  | RAlt a b => match search a s cs k with Some x => Some x | None => search b s cs k end
  | ROpt a => match search a s cs k with Some x => Some x | None => k s cs end
  | RStar a =>
      (fix loop n s cs :=
         match n with
         | O => k s cs
         | S n' =>
             match search a s cs (λ s' cs', if String.eqb s' s then None else loop n' s' cs') with
             | Some x => Some x
             | None => k s cs
             end
         end) (String.length s) s cs
  | RUpTo n a =>
      (fix loop n s cs :=
         match n with
         | O => k s cs
         | S n' =>
             match search a s cs (λ s' cs', loop n' s' cs') with
             | Some x => Some x
             | None => k s cs
             end
         end) n s cs
  | RCap name a => search a s cs (λ s' cs', k s' ((name, consumed s s') :: cs'))
  end.

(** The captures of a match of the whole text. *)
Definition full_match (r : re) (s : string) : option captures :=
  search r s [] (λ s' cs, if String.eqb s' "" then Some cs else None).

(** [result[name]]: the last capture of a group, empty when it took no part. *)
Definition capture (cs : captures) (name : string) : string :=
  default "" (snd <$> (snd <$> list_find (λ p, p.1 = name) cs)).

Inductive lang : re -> string -> captures -> Prop :=
| lang_char p c : p c = true -> lang (RChar p) (String c "") []
| lang_seq a b s t cs ct : lang a s cs -> lang b t ct -> lang (RSeq a b) (s +:+ t) (ct ++ cs)%list
| lang_alt_l a b s cs : lang a s cs -> lang (RAlt a b) s cs
| lang_alt_r a b s cs : lang b s cs -> lang (RAlt a b) s cs
| lang_opt_none a : lang (ROpt a) "" []
| lang_opt a s cs : lang a s cs -> lang (ROpt a) s cs
| lang_star_nil a : lang (RStar a) "" []
| lang_star a s t cs ct : s <> "" -> lang a s cs -> lang (RStar a) t ct -> lang (RStar a) (s +:+ t) (ct ++ cs)%list
| lang_upto_nil n a : lang (RUpTo n a) "" []
| lang_upto n a s t cs ct : lang a s cs -> lang (RUpTo n a) t ct -> lang (RUpTo (S n) a) (s +:+ t) (ct ++ cs)%list
| lang_cap name a s cs : lang a s cs -> lang (RCap name a) s ((name, s) :: cs).

Create HintDb regex.
#[export] Hint Constructors lang : regex.

Lemma consumed_app s t : consumed (s +:+ t) t = s.
Proof.
  unfold consumed. rewrite str_app_length. replace (_ + _ - _)%nat with (String.length s) by lia.
  induction s as [|c s IH]; [by destruct t|]. by apply (f_equal (String c)).
Qed.

(** ** The search finds matches *)

Lemma search_sound {X} r : forall s cs (k : string -> captures -> option X) x,
  search r s cs k = Some x ->
  exists s1 s2 c, s = s1 +:+ s2 /\ lang r s1 c /\ k s2 (c ++ cs)%list = Some x.
Proof.
  induction r as [p|a IHa b IHb|a IHa b IHb|a IHa|a IHa|n a IHa|name a IHa]; cbn [search]; intros s cs k x H.
  - destruct s as [|c s]; [done|]. destruct (p c) eqn:E; [|done].
    exists (String c ""), s, []. eauto with regex.
  - apply IHa in H as (s1 & s2 & c & -> & Ha & H). apply IHb in H as (t1 & t2 & c' & -> & Hb & H).
    exists (s1 +:+ t1), t2, (c' ++ c)%list. rewrite str_app_assoc, <- app_assoc. eauto with regex.
  - destruct (search a s cs k) eqn:E; simplify_eq;
      [apply IHa in E as (s1 & s2 & c & -> & Ha & ?)|apply IHb in H as (s1 & s2 & c & -> & Ha & ?)];
      exists s1, s2, c; eauto with regex.
  - destruct (search a s cs k) eqn:E; simplify_eq; [apply IHa in E as (s1 & s2 & c & -> & Ha & E)|].
    + exists s1, s2, c. eauto with regex.
    + exists "", s, []. eauto with regex.
  - revert H. generalize (String.length s) as n. intros n. revert s cs.
    induction n as [|n IH]; intros s cs H.
    { exists "", s, []. eauto with regex. }
    destruct (search a s cs _) eqn:E in H; simplify_eq; [|exists "", s, []; eauto with regex].
    apply IHa in E as (s1 & s2 & c & -> & Ha & E). destruct (String.eqb_spec s2 (s1 +:+ s2)) as [|Hne]; [done|].
    apply IH in E as (t1 & t2 & c' & -> & Hb & E).
    exists (s1 +:+ t1), t2, (c' ++ c)%list. rewrite str_app_assoc, <- app_assoc. split_and!; [done| |done].
    constructor; [|done|done]. intros ->. by apply Hne.
  - revert s cs H. induction n as [|n IH]; intros s cs H; [exists "", s, []; eauto with regex|].
    destruct (search a s cs _) eqn:E in H; simplify_eq; [|exists "", s, []; eauto with regex].
    apply IHa in E as (s1 & s2 & c & -> & Ha & E). apply IH in E as (t1 & t2 & c' & -> & Hb & E).
    exists (s1 +:+ t1), t2, (c' ++ c)%list. rewrite str_app_assoc, <- app_assoc. eauto with regex.
  - apply IHa in H as (s1 & s2 & c & -> & Ha & H). rewrite consumed_app in H.
    exists s1, s2, ((name, s1) :: c). eauto with regex.
Qed.

(** ** The search misses no match *)

Lemma str_app_neq (s t : string) : s <> "" -> t <> s +:+ t.
Proof.
  intros Hs E. apply (f_equal String.length) in E. rewrite str_app_length in E.
  destruct s; [done|]. simpl in E. lia.
Qed.

Definition agrees {X} (r : re) (s1 : string) : Prop :=
  forall s2 cs (k : string -> captures -> option X),
    (forall cs', is_Some (k s2 cs')) -> is_Some (search r (s1 +:+ s2) cs k).

Lemma star_complete {X} a s1 c : (forall s c, lang a s c -> @agrees X a s) -> lang (RStar a) s1 c ->
  @agrees X (RStar a) s1.
Proof.
  intros Ha H s2 cs k Hk. cbn [search].
  generalize (le_n (String.length (s1 +:+ s2))). generalize (String.length (s1 +:+ s2)) at 2 3 as m.
  intros m. revert m cs. remember (RStar a) as r eqn:Er. induction H; intros m cs' Hm; simplify_eq.
  - destruct m as [|m]; [apply Hk|]. case_match; [done|apply Hk].
  - rewrite str_app_assoc in Hm |- *. destruct m as [|m]; [destruct s; [done|simpl in Hm; lia]|].
    match goal with |- context [search a ?s ?c ?k] => destruct (Ha _ _ H0 (t +:+ s2) c k) as [x ->] end; [|done].
    intros cs''. case_match eqn:E; [apply String.eqb_eq, str_app_neq in E; done|].
    apply IHlang2; [done|]. rewrite str_app_length in Hm. destruct s; [done|]. simpl in Hm. lia.
Qed.

Lemma upto_complete {X} a n s1 c : (forall s c, lang a s c -> @agrees X a s) -> lang (RUpTo n a) s1 c ->
  @agrees X (RUpTo n a) s1.
Proof.
  intros Ha H s2 cs k Hk. cbn [search]. revert cs.
  remember (RUpTo n a) as r eqn:Er. revert n Er. induction H; intros m Er cs'; simplify_eq.
  - destruct m as [|m]; [apply Hk|]. case_match; [done|apply Hk].
  - rewrite str_app_assoc.
    match goal with |- context [search a ?s ?c ?k] => destruct (Ha _ _ H (t +:+ s2) c k) as [x ->] end; [|done].
    intros cs''. by apply IHlang2.
Qed.

Lemma search_complete {X} r s c : lang r s c -> @agrees X r s.
Proof.
  revert s c. induction r as [p|a IHa b IHb|a IHa b IHb|a IHa|a IHa|n a IHa|name a IHa]; intros s c H;
    [..|by eapply star_complete|by eapply upto_complete|]; inversion H; subst; intros s2 cs' k Hk; cbn [search].
  - change (String c0 "" +:+ s2) with (String c0 s2). cbn iota. rewrite H1. apply Hk.
  - rewrite str_app_assoc. eapply IHa; [done|]. intros. by eapply IHb.
  - case_match eqn:E; [done|]. edestruct (IHa _ _ ltac:(done) s2 cs' k Hk). congruence.
  - case_match; [done|]. by eapply IHb.
  - case_match; [done|]. apply Hk.
  - case_match eqn:E; [done|]. edestruct (IHa _ _ ltac:(done) s2 cs' k Hk). congruence.
  - eapply IHa; [done|]. intros. apply Hk.
Qed.

(** ** What a match cannot be *)

Fixpoint nullable (r : re) : bool :=
  match r with
  | RChar _ => false
  | RSeq a b => nullable a && nullable b
  | RAlt a b => nullable a || nullable b
  | ROpt _ | RStar _ | RUpTo _ _ => true
  | RCap _ a => nullable a
  end.

Lemma nullable_false r s c : lang r s c -> nullable r = false -> s <> "".
Proof.
  induction 1; simpl; intros E; try done.
  - apply andb_false_iff in E as [E|E].
    + intros Es. apply IHlang1; [done|]. by destruct s.
    + intros Es. apply IHlang2; [done|]. by destruct s.
  - apply orb_false_iff in E. naive_solver.
  - apply orb_false_iff in E. naive_solver.
  - naive_solver.
Qed.

(** No match contains the character [c]; no match captures. *)
Fixpoint never (c : Ascii.ascii) (r : re) : bool :=
  match r with
  | RChar p => negb (p c)
  | RSeq a b | RAlt a b => never c a && never c b
  | ROpt a | RStar a | RUpTo _ a | RCap _ a => never c a
  end.
Fixpoint captureless (r : re) : bool :=
  match r with
  | RChar _ => true
  | RSeq a b | RAlt a b => captureless a && captureless b
  | ROpt a | RStar a | RUpTo _ a => captureless a
  | RCap _ _ => false
  end.

Lemma never_no_char ch r s c : lang r s c -> never ch r = true -> no_char ch s = true.
Proof.
  induction 1; simpl; rewrite ?no_char_app, ?andb_true_iff; try naive_solver.
  intros Hc. split; [|done]. apply negb_true_iff in Hc. apply negb_true_iff.
  destruct (Ascii.eqb_spec c ch); congruence.
Qed.

Lemma captureless_nil r s c : lang r s c -> captureless r = true -> c = [].
Proof. induction 1; simpl; rewrite ?andb_true_iff; intros; destruct_and?; naive_solver. Qed.

(** A separator that neither side contains marks where a text is cut. *)
Lemma sep_inj ch a b x y : no_char ch a = true -> no_char ch b = true ->
  a +:+ String ch x = b +:+ String ch y -> a = b /\ x = y.
Proof.
  revert b. induction a as [|c a IH]; intros [|d b] Ha Hb E.
  - by injection E.
  - injection E as -> E. simpl in Hb. by rewrite Ascii.eqb_refl in Hb.
  - injection E as -> E. simpl in Ha. by rewrite Ascii.eqb_refl in Ha.
  - injection E as -> E. simpl in Ha, Hb. apply andb_true_iff in Ha as [_ Ha], Hb as [_ Hb].
    destruct (IH b Ha Hb E). by subst.
Qed.
