(* ===== verification/ImageRef.v ===== *)
(** * Image references (pkg/abstractions/image/builder.go)

    [ExtractImageNameAndTag] parses a reference with a regular expression, [String] prints
    one.  The two are inverse on references whose parts the expression accepts. *)

From S2P Require Import Prelude GoStd Redis Regex.

Local Open Scope Z_scope.

Definition dockerHubRegistry : string := "docker.io".

Record BaseImage := mkBaseImage {
  bi_Registry : string;
  bi_Repo : string;
  bi_Tag : string;
  bi_Digest : string;
}.

Definition BaseImage_String (i : BaseImage) : string :=
  if negb (String.eqb (bi_Digest i) "")
  then bi_Registry i +:+ "/" +:+ bi_Repo i +:+ "@" +:+ bi_Digest i
  else bi_Registry i +:+ "/" +:+ bi_Repo i +:+ ":" +:+ bi_Tag i.

(** ** The expression *)

Definition within (lo hi : nat) (c : Ascii.ascii) : bool :=
  let n := Ascii.nat_of_ascii c in (lo <=? n)%nat && (n <=? hi)%nat.
Definition is_digit : Ascii.ascii -> bool := within 48 57.
Definition is_letter (c : Ascii.ascii) : bool := within 65 90 c || within 97 122 c.
Definition is_alnum (c : Ascii.ascii) : bool := is_letter c || is_digit c.
Definition is_hex (c : Ascii.ascii) : bool := is_digit c || within 97 102 c || within 65 70 c.
Definition is_word (c : Ascii.ascii) : bool := is_alnum c || Ascii.eqb c "_".

Definition one_of (s : string) (c : Ascii.ascii) : bool := negb (no_char c s).
Definition word : re := RChar is_word.
Definition wdd : re := RChar (λ c, is_word c || one_of ".-" c).
Definition chr (c : Ascii.ascii) : re := RChar (Ascii.eqb c).

Definition registry_re : re :=
  RAlt (RSeq (RAlt (RLit "l" "ocalhost") (RSeq (RPlus wdd) (RPlus (RSeq (chr ".") (RPlus wdd)))))
             (ROpt (RSeq (chr ":") (RPlus (RChar is_digit)))))
       (RSeq (RPlus word) (RSeq (chr ":") (RPlus (RChar is_digit)))).
Definition repo_re : re :=
  RSeq word (RSeq (RStar wdd) (RStar (RSeq (chr "/") (RSeq word (RStar wdd))))).
Definition tag_re : re := RSeq word (RUpTo 127 wdd).
Definition digest_re : re :=
  RSeq (RChar is_letter) (RSeq (RStar (RChar is_alnum))
    (RSeq (RStar (RSeq (RChar (one_of "-_+.")) (RSeq (RChar is_letter) (RStar (RChar is_alnum)))))
       (RSeq (chr ":") (RAtLeast 32 (RChar is_hex))))).

Definition registry_part : re := RSeq (RCap "Registry" registry_re) (chr "/").
Definition rest_part : re :=
  RSeq (ROpt (RCap "Repo" repo_re))
    (RSeq (ROpt (RSeq (chr ":") (RCap "Tag" tag_re))) (ROpt (RSeq (chr "@") (RCap "Digest" digest_re)))).
Definition imageNamePattern : re := RSeq (ROpt registry_part) rest_part.

Definition invalid_image : gerr := EMsg "invalid image URI format".

(** The image of the captured parts. *)
Definition image_of (result : captures) : gerr + BaseImage :=
  let registry := capture result "Registry" in
  let registry := if String.eqb registry "" then dockerHubRegistry else registry in
  let repo := capture result "Repo" in
  if String.eqb repo "" then inl invalid_image
  else
    let tag := capture result "Tag" in
    let digest := capture result "Digest" in
    let tag := if String.eqb tag "" && String.eqb digest "" then "latest" else tag in
    inr (mkBaseImage registry repo tag digest).

Definition ExtractImageNameAndTag (imageRef : string) : gerr + BaseImage :=
  if String.eqb imageRef "" then inl invalid_image
  else
    match full_match imageNamePattern imageRef with
    | None => inl invalid_image
    | Some result => image_of result
    end.

Example extract_short : ExtractImageNameAndTag "python:3.11" = inr (mkBaseImage "docker.io" "python" "3.11" "").
Proof. vm_compute. reflexivity. Qed.
Example extract_port :
  ExtractImageNameAndTag "reg:5000/a/b" = inr (mkBaseImage "reg:5000" "a/b" "latest" "").
Proof. vm_compute. reflexivity. Qed.
Example extract_tag_digest :
  ExtractImageNameAndTag ("ghcr.io/a/b:1@sha256:" +:+ "0123456789abcdef0123456789abcdef")
  = inr (mkBaseImage "ghcr.io" "a/b" "1" ("sha256:" +:+ "0123456789abcdef0123456789abcdef")).
Proof. vm_compute. reflexivity. Qed.

(** ** Parsing a printed reference *)

Definition matches (r : re) (s : string) : Prop := exists c, lang r s c.

Definition opt_text (prefix : string) (o : option string) : string :=
  match o with Some s => prefix +:+ s | None => "" end.

Lemma lang_chr ch s c : lang (chr ch) s c -> s = String ch "" /\ c = [].
Proof. inversion 1 as [? x Hx| | | | | | | | | |]; subst. by apply Ascii.eqb_eq in Hx as ->. Qed.

Lemma registry_part_inv s c : lang registry_part s c ->
  exists reg, s = reg +:+ "/" /\ matches registry_re reg /\ c = [("Registry", reg)].
Proof.
  inversion 1 as [|a b s1 t cs ct Ha Hb| | | | | | | | |]; subst. apply lang_chr in Hb as [-> ->].
  inversion Ha as [| | | | | | | | | |? ? ? ? Hr]; subst.
  rewrite (captureless_nil _ _ _ Hr eq_refl). exists s1. unfold matches. eauto.
Qed.

Lemma opt_cap_inv name r s c : captureless r = true -> lang (ROpt (RCap name r)) s c ->
  exists o, s = opt_text "" o /\ from_option (matches r) True o /\ c = match o with Some x => [(name, x)] | None => [] end.
Proof.
  intros Hr. inversion 1 as [| | | | |a s1 cs Ha| | | | |]; subst; [by exists None|].
  inversion Ha as [| | | | | | | | | |? ? ? ? Hx]; subst. rewrite (captureless_nil _ _ _ Hx Hr).
  exists (Some s). unfold matches. simpl. eauto.
Qed.

Lemma opt_pre_inv ch name r s c : captureless r = true -> lang (ROpt (RSeq (chr ch) (RCap name r))) s c ->
  exists o, s = opt_text (String ch "") o /\ from_option (matches r) True o /\
            c = match o with Some x => [(name, x)] | None => [] end.
Proof.
  intros Hr. inversion 1 as [| | | | |a s1 cs Ha| | | | |]; subst; [by exists None|].
  inversion Ha as [|? ? s1 t cs1 ct Hb Hc| | | | | | | | |]; subst. apply lang_chr in Hb as [-> ->].
  inversion Hc as [| | | | | | | | | |? ? ? ? Hx]; subst. rewrite (captureless_nil _ _ _ Hx Hr).
  exists (Some t). unfold matches. simpl. eauto.
Qed.

(** The parts a match of a reference consists of, and its captures. *)
Lemma rest_part_inv s c : lang rest_part s c ->
  exists repo tag dig,
    s = opt_text "" repo +:+ opt_text ":" tag +:+ opt_text "@" dig /\
    from_option (matches repo_re) True repo /\ from_option (matches tag_re) True tag /\
    from_option (matches digest_re) True dig /\
    c = (match dig with Some x => [("Digest", x)] | None => [] end
         ++ match tag with Some x => [("Tag", x)] | None => [] end
         ++ match repo with Some x => [("Repo", x)] | None => [] end)%list.
Proof.
  inversion 1 as [|a b s1 t cs ct Ha Hb| | | | | | | | |]; subst.
  inversion Hb as [|a b s2 t2 cs2 ct2 Hc Hd| | | | | | | | |]; subst.
  apply opt_cap_inv in Ha as (repo & -> & Hr & ->); [|done].
  apply opt_pre_inv in Hc as (tag & -> & Ht & ->); [|done].
  apply opt_pre_inv in Hd as (dig & -> & Hg & ->); [|done].
  exists repo, tag, dig. rewrite app_assoc. eauto.
Qed.

Ltac lacks := first [done | eapply never_no_char; [eassumption|vm_compute; reflexivity]].

Lemma opt_pre_matches ch name r o : from_option (matches r) True o ->
  matches (ROpt (RSeq (chr ch) (RCap name r))) (opt_text (String ch "") o).
Proof.
  destruct o as [x|]; [intros [c Hc]|intros _; exists []; apply lang_opt_none].
  eexists. apply lang_opt. apply (lang_seq (chr ch) _ (String ch "") x); [apply lang_char, Ascii.eqb_refl|].
  apply lang_cap, Hc.
Qed.

Lemma rest_part_matches repo tag dig :
  matches repo_re repo -> from_option (matches tag_re) True tag -> from_option (matches digest_re) True dig ->
  matches rest_part (repo +:+ opt_text ":" tag +:+ opt_text "@" dig).
Proof.
  intros [cr Hr] Ht Hd. apply (opt_pre_matches ":" "Tag") in Ht as [ct Ht].
  apply (opt_pre_matches "@" "Digest") in Hd as [cd Hd].
  eexists. apply lang_seq; [apply lang_opt, lang_cap, Hr|]. by apply lang_seq.
Qed.

(** The search with a registry comes first, and succeeds. *)
Lemma pattern_search reg rest : matches registry_re reg -> matches rest_part rest ->
  exists s1 s2 c c', reg +:+ "/" +:+ rest = s1 +:+ s2 /\ lang registry_part s1 c /\ lang rest_part s2 c' /\
    full_match imageNamePattern (reg +:+ "/" +:+ rest) = Some (c' ++ c)%list.
Proof.
  intros [cg Hg] [cr Hr]. unfold full_match, imageNamePattern. cbn [search].
  set (k := λ (s' : string) (cs : captures), if String.eqb s' "" then Some cs else None).
  assert (is_Some (search registry_part (reg +:+ "/" +:+ rest) [] (λ s' cs', search rest_part s' cs' k))) as [x Hx].
  { rewrite <- str_app_assoc. eapply search_complete.
    - apply lang_seq; [apply lang_cap, Hg|apply lang_char; reflexivity].
    - intros cs'. rewrite <- (str_app_nil_r rest). eapply search_complete; [done|]. unfold k. simpl. eauto. }
  pose proof Hx as Hx'. apply search_sound in Hx' as (s1 & s2 & c & E & H1 & H2).
  apply search_sound in H2 as (t1 & t2 & c' & -> & H2 & H3). unfold k in H3.
  destruct (String.eqb_spec t2 ""); simplify_eq. rewrite str_app_nil_r in E.
  exists s1, t1, c, c'. rewrite Hx, app_nil_r. eauto.
Qed.

Lemma opt_lacks ch pre r o : no_char ch pre = true -> never ch r = true ->
  from_option (matches r) True o -> no_char ch (opt_text pre o) = true.
Proof.
  intros Hp Hr. destruct o as [x|]; [intros [c Hc]|done]. cbn [opt_text].
  rewrite no_char_app, Hp. by eapply never_no_char.
Qed.

(** The parts after the registry are determined by their separators. *)
Lemma rest_unique repo tag dig repo' tag' dig' :
  matches repo_re repo -> from_option (matches tag_re) True tag -> from_option (matches digest_re) True dig ->
  from_option (matches repo_re) True repo' -> from_option (matches tag_re) True tag' ->
  from_option (matches digest_re) True dig' ->
  repo +:+ opt_text ":" tag +:+ opt_text "@" dig
  = opt_text "" repo' +:+ opt_text ":" tag' +:+ opt_text "@" dig' ->
  repo' = Some repo /\ tag' = tag /\ dig' = dig.
Proof.
  intros Hr Ht Hd Hr' Ht' Hd' E.
  assert (repo +:+ opt_text ":" tag = opt_text "" repo' +:+ opt_text ":" tag' /\ dig = dig') as [E' <-].
  { assert (no_char "@" (repo +:+ opt_text ":" tag) = true) as N1.
    { rewrite no_char_app, (opt_lacks "@" ":" tag_re tag) by done. destruct Hr. apply andb_true_iff. split; [lacks|done]. }
    assert (no_char "@" (opt_text "" repo' +:+ opt_text ":" tag') = true) as N2.
    { by rewrite no_char_app, (opt_lacks "@" "" repo_re repo'), (opt_lacks "@" ":" tag_re tag'). }
    rewrite <- !str_app_assoc in E. destruct dig as [d|], dig' as [d'|]; simpl in E; rewrite ?str_app_nil_r in E.
    - change (String "@" "" +:+ d) with (String "@" d) in E. change (String "@" "" +:+ d') with (String "@" d') in E.
      apply sep_inj in E as [-> ->]; done.
    - exfalso. rewrite <- E, no_char_app, N1 in N2. done.
    - exfalso. rewrite E, no_char_app, N2 in N1. done.
    - done. }
  assert (no_char ":" repo = true) as N1 by (destruct Hr; lacks).
  assert (no_char ":" (opt_text "" repo') = true) as N2
    by (by apply (opt_lacks ":" "" repo_re repo')).
  assert (repo = opt_text "" repo' /\ tag = tag') as [E2 <-].
  { destruct tag as [t|], tag' as [t'|]; simpl in E'; rewrite ?str_app_nil_r in E'.
    - change (String ":" "" +:+ t) with (String ":" t) in E'. change (String ":" "" +:+ t') with (String ":" t') in E'.
      apply sep_inj in E' as [-> ->]; done.
    - exfalso. rewrite <- E', no_char_app, N1 in N2. done.
    - exfalso. rewrite E', no_char_app, N2 in N1. done.
    - done. }
  split; [|done]. destruct repo' as [r|]; [by rewrite E2|]. destruct Hr as [c Hc].
  by apply (nullable_false _ _ _ Hc) in E2.
Qed.

Lemma pattern_match reg repo tag dig :
  matches registry_re reg -> matches repo_re repo ->
  from_option (matches tag_re) True tag -> from_option (matches digest_re) True dig ->
  full_match imageNamePattern (reg +:+ "/" +:+ repo +:+ opt_text ":" tag +:+ opt_text "@" dig)
  = Some ((match dig with Some x => [("Digest", x)] | None => [] end
           ++ match tag with Some x => [("Tag", x)] | None => [] end ++ [("Repo", repo)]) ++ [("Registry", reg)])%list.
Proof.
  intros Hg Hr Ht Hd.
  destruct (pattern_search reg _ Hg (rest_part_matches _ _ _ Hr Ht Hd)) as (s1 & s2 & c & c' & E & H1 & H2 & ->).
  apply registry_part_inv in H1 as (reg' & -> & Hg' & ->).
  apply rest_part_inv in H2 as (repo' & tag' & dig' & -> & Hr' & Ht' & Hd' & ->).
  rewrite str_app_assoc in E.
  apply (sep_inj "/" reg reg') in E as [-> E]; [|destruct Hg; lacks|destruct Hg'; lacks].
  apply rest_unique in E as (-> & -> & ->); done.
Qed.

Lemma matches_nonempty r s : matches r s -> nullable r = false -> s <> "".
Proof. intros [c H]. by apply (nullable_false _ _ _ H). Qed.

Lemma nonempty_app s t : s <> "" -> String.eqb (s +:+ t) "" = false.
Proof. by destruct s. Qed.

(** [full_match] decides [matches]. *)
Lemma search_matches r s : bool_decide (is_Some (full_match r s)) = true -> matches r s.
Proof.
  rewrite bool_decide_eq_true. intros [c H]. apply search_sound in H as (s1 & s2 & c' & -> & H & E).
  destruct (String.eqb_spec s2 ""); simplify_eq. rewrite str_app_nil_r. by exists c'.
Qed.

Lemma image_of_parts cs reg repo tag dig :
  capture cs "Registry" = reg -> capture cs "Repo" = repo -> capture cs "Tag" = tag ->
  capture cs "Digest" = dig -> reg <> "" -> repo <> "" -> tag <> "" \/ dig <> "" ->
  image_of cs = inr (mkBaseImage reg repo tag dig).
Proof.
  unfold image_of. intros -> -> -> -> N1 N2 N3.
  rewrite (proj2 (String.eqb_neq reg "") N1), (proj2 (String.eqb_neq repo "") N2).
  destruct (String.eqb_spec tag ""), (String.eqb_spec dig ""); simpl; naive_solver.
Qed.

(** An image whose parts the expression accepts, named by a tag or by a digest. *)
Record image_ok (i : BaseImage) : Prop := {
  io_registry : matches registry_re (bi_Registry i);
  io_repo : matches repo_re (bi_Repo i);
  io_name : bi_Digest i = "" /\ matches tag_re (bi_Tag i) \/
            bi_Tag i = "" /\ matches digest_re (bi_Digest i);
}.

(** Printing an image reference and parsing it again gives the same image: for every
    registry (localhost, a name with a dot, or a name with a port), repository path, and
    tag or digest that the pattern accepts, although the pattern also accepts the printed
    text without a registry, the search of [ExtractImageNameAndTag] finds exactly the
    parts that [BaseImage.String] wrote. *)
Theorem image_reference_roundtrip i : image_ok i -> ExtractImageNameAndTag (BaseImage_String i) = inr i.
Proof.
  destruct i as [reg repo tag dig]. intros [Hg Hr Hn]; cbn [bi_Registry bi_Repo bi_Tag bi_Digest] in *.
  unfold ExtractImageNameAndTag, BaseImage_String. cbn [bi_Registry bi_Repo bi_Tag bi_Digest].
  pose proof (matches_nonempty _ _ Hg eq_refl) as N1. pose proof (matches_nonempty _ _ Hr eq_refl) as N2.
  destruct Hn as [[-> Ht]|[-> Hd]].
  - pose proof (matches_nonempty _ _ Ht eq_refl) as N3. cbn [String.eqb negb].
    pose proof (pattern_match reg repo (Some tag) None Hg Hr Ht I) as E. cbn [opt_text] in E.
    rewrite str_app_nil_r in E. rewrite E, nonempty_app by done. by apply image_of_parts; [..|left].
  - pose proof (matches_nonempty _ _ Hd eq_refl) as N3.
    pose proof (pattern_match reg repo None (Some dig) Hg Hr I Hd) as E. cbn [opt_text] in E.
    rewrite (proj2 (String.eqb_neq dig "") N3). cbn [negb].
    change ("" +:+ "@" +:+ dig) with ("@" +:+ dig) in E.
    rewrite E, nonempty_app by done. by apply image_of_parts; [..|right].
Qed.

Lemma image_reference_roundtrip_witness :
  image_ok (mkBaseImage "docker.io" "a/b" "3.11" "") /\
  ExtractImageNameAndTag "docker.io/a/b:3.11" = inr (mkBaseImage "docker.io" "a/b" "3.11" "").
Proof.
  assert (image_ok (mkBaseImage "docker.io" "a/b" "3.11" "")) as H.
  { split; [| |left; split; [reflexivity|]]; apply search_matches; vm_compute; reflexivity. }
  split; [exact H|]. exact (image_reference_roundtrip _ H).
Defined.
