(* ===== verification/ImageOptions.v ===== *)
(** * Build options, commands and Dockerfiles (pkg/abstractions/image)

    build_options.go, image_id.go, and the parts of build.go and builder.go that compute:
    the commands of the build steps, the requirements of every image, the Dockerfile of
    a version 2 build and the identity of an image.  text/template, the hash of the
    hashstructure package and the platform are parameters. *)

From S2P Require Import Prelude GoStd Redis Types ImageRef Registry.

Local Open Scope Z_scope.

(** ** Options *)

Definition defaultBuildContainerCpu : Z := 1000.
Definition defaultBuildContainerMemory : Z := 1024.
Definition defaultContainerSpinupTimeout : Z := 600 * second.
Definition dockerfileContainerSpinupTimeout : Z := 3600 * second.
Definition pipCommandType : string := "pip".
Definition shellCommandType : string := "shell".
Definition micromambaCommandType : string := "micromamba".
Definition Python3 : string := "python3".

Record BuildStep := mkBuildStep { bs_Command : string; bs_Type : string }.

Record BuildOpts := mkBuildOpts {
  o_BaseImageRegistry : string;
  o_BaseImageName : string;
  o_BaseImageTag : string;
  o_BaseImageDigest : string;
  o_BaseImageCreds : string;
  o_ExistingImageUri : string;
  o_ExistingImageCreds : gmap string string;
  o_Dockerfile : string;
  o_BuildCtxObject : string;
  o_PythonVersion : string;
  o_PythonPackages : list string;
  o_Commands : list string;
  o_BuildSteps : list BuildStep;
  o_ForceRebuild : bool;
  o_EnvVars : list string;
  o_BuildSecrets : list string;
  o_Gpu : string;
  o_IgnorePython : bool;
  o_ClipVersion : Z;
}.

Definition set_base (i : BaseImage) (o : BuildOpts) : BuildOpts :=
  mkBuildOpts (bi_Registry i) (bi_Repo i) (bi_Tag i) (bi_Digest i) (o_BaseImageCreds o)
    (o_ExistingImageUri o) (o_ExistingImageCreds o) (o_Dockerfile o) (o_BuildCtxObject o)
    (o_PythonVersion o) (o_PythonPackages o) (o_Commands o) (o_BuildSteps o) (o_ForceRebuild o)
    (o_EnvVars o) (o_BuildSecrets o) (o_Gpu o) (o_IgnorePython o) (o_ClipVersion o).
Definition set_base_creds (creds : string) (o : BuildOpts) : BuildOpts :=
  mkBuildOpts (o_BaseImageRegistry o) (o_BaseImageName o) (o_BaseImageTag o) (o_BaseImageDigest o) creds
    (o_ExistingImageUri o) (o_ExistingImageCreds o) (o_Dockerfile o) (o_BuildCtxObject o)
    (o_PythonVersion o) (o_PythonPackages o) (o_Commands o) (o_BuildSteps o) (o_ForceRebuild o)
    (o_EnvVars o) (o_BuildSecrets o) (o_Gpu o) (o_IgnorePython o) (o_ClipVersion o).
Definition set_existing (uri : string) (creds : gmap string string) (clip : Z) (o : BuildOpts) : BuildOpts :=
  mkBuildOpts (o_BaseImageRegistry o) (o_BaseImageName o) (o_BaseImageTag o) (o_BaseImageDigest o)
    (o_BaseImageCreds o) uri creds (o_Dockerfile o) (o_BuildCtxObject o)
    (o_PythonVersion o) (o_PythonPackages o) (o_Commands o) (o_BuildSteps o) (o_ForceRebuild o)
    (o_EnvVars o) (o_BuildSecrets o) (o_Gpu o) (o_IgnorePython o) clip.
Definition set_dockerfile (dockerfile : string) (o : BuildOpts) : BuildOpts :=
  mkBuildOpts (o_BaseImageRegistry o) (o_BaseImageName o) (o_BaseImageTag o) (o_BaseImageDigest o)
    (o_BaseImageCreds o) (o_ExistingImageUri o) (o_ExistingImageCreds o) dockerfile (o_BuildCtxObject o)
    (o_PythonVersion o) (o_PythonPackages o) (o_Commands o) (o_BuildSteps o) (o_ForceRebuild o)
    (o_EnvVars o) (o_BuildSecrets o) (o_Gpu o) (o_IgnorePython o) (o_ClipVersion o).
Definition set_python (version : string) (packages : list string) (o : BuildOpts) : BuildOpts :=
  mkBuildOpts (o_BaseImageRegistry o) (o_BaseImageName o) (o_BaseImageTag o) (o_BaseImageDigest o)
    (o_BaseImageCreds o) (o_ExistingImageUri o) (o_ExistingImageCreds o) (o_Dockerfile o)
    (o_BuildCtxObject o) version packages (o_Commands o) (o_BuildSteps o) (o_ForceRebuild o)
    (o_EnvVars o) (o_BuildSecrets o) (o_Gpu o) (o_IgnorePython o) (o_ClipVersion o).

(** What the code reads of [config.ImageService]. *)
Record image_config := mkImageConfig {
  ic_ClipVersion : Z;
  ic_PythonVersion : string;
  ic_BaseImageName : string;
  ic_BaseImageRegistry : string;
  ic_Tags : gmap string string;
  ic_PythonVersions : gmap string string;
  ic_InstallScriptTemplate : string;
  ic_DockerUsername : string;
  ic_DockerPassword : string;
  ic_BuildContainerCpu : Z;
  ic_BuildContainerMemory : Z;
  ic_BuildContainerPoolSelector : string;
  ic_ArchiveNanosecondsPerByte : Z;
}.

(** ** Text *)

Definition nl : string := String "010" "".
Definition dq : string := String "034" "".

(** [%q] of ASCII text; a byte of a printable character outside ASCII is left as it is, and
    what [%q] does with other ones is not modelled. *)
Definition hex2 (n : nat) : string :=
  String (hex_char (Z.of_nat n / 16)) (String (hex_char (Z.of_nat n `mod` 16)) "").
Definition quote_char (c : Ascii.ascii) : string :=
  let n := Ascii.nat_of_ascii c in
  let esc := String "092" "" in
  if (n =? 34)%nat || (n =? 92)%nat then esc +:+ String c ""
  else if (n =? 7)%nat then esc +:+ "a" else if (n =? 8)%nat then esc +:+ "b"
  else if (n =? 9)%nat then esc +:+ "t" else if (n =? 10)%nat then esc +:+ "n"
  else if (n =? 11)%nat then esc +:+ "v" else if (n =? 12)%nat then esc +:+ "f"
  else if (n =? 13)%nat then esc +:+ "r"
  else if (n <? 32)%nat || (n =? 127)%nat then esc +:+ "x" +:+ hex2 n
  else String c "".
Fixpoint quote_chars (s : string) : string :=
  match s with "" => "" | String c s' => quote_char c +:+ quote_chars s' end.
Definition Quote (s : string) : string := dq +:+ quote_chars s +:+ dq.

(** ** Commands of the build steps (build.go) *)

Definition hasAnyPrefix (s : string) (prefixes : list string) : bool := existsb (HasPrefix s) prefixes.

Definition parseFlagLinesAndPackages (pythonPackages : list string) : list string * list string :=
  let is_flag pkg := hasAnyPrefix pkg ["--"; "-"] in
  (List.filter is_flag pythonPackages,
   Quote <$> List.filter (λ pkg, negb (is_flag pkg)) pythonPackages).

(** [command], the flags and the packages. *)
Definition with_packages (command : string) (pythonPackages : list string) : string :=
  let '(flagLines, packages) := parseFlagLinesAndPackages pythonPackages in
  let command := if bool_decide (flagLines = []) then command else command +:+ " " +:+ Join flagLines " " in
  if bool_decide (packages = []) then command else command +:+ " " +:+ Join packages " ".

Definition generatePipInstallCommand (pythonPackages : list string) (pythonVersion : string)
    (virtualEnv : bool) : string :=
  with_packages (if virtualEnv then "uv-b9 pip install" else "uv-b9 pip install --system") pythonPackages.
Definition generateStandardPipInstallCommand (pythonPackages : list string) (pythonVersion : string)
    (virtualEnv : bool) : string :=
  with_packages (pythonVersion +:+ " -m pip install") pythonPackages.
Definition generateMicromambaInstallCommand (pythonPackages : list string) : string :=
  with_packages (micromambaCommandType +:+ " install -y -n beta9") pythonPackages.

Definition flag_texts : list string :=
  ["--no-deps"; "--only-binary"; "--no-binary"; "--prefer-binary"; "--require-hashes"; "--pre";
   "--ignore-requires-python"; "--no-pin"; "--force-reinstall"; "--freeze-installed"; "--update-deps";
   "--no-update-deps"].
Definition containsFlag (s : string) : bool := existsb (Contains s) flag_texts.

(** The variables of the loop; a start is -1 when there is no group. *)
Record grouping := mkGrouping {
  g_commands : list string;
  g_mambaStart : Z;
  g_mambaGroup : list string;
  g_pipStart : Z;
  g_pipGroup : list string;
}.

(** [commands[i] = s]; [None] when the index is out of range. *)
Definition store (commands : list string) (i : Z) (s : string) : option (list string) :=
  if (0 <=? i) && (i <? Z.of_nat (length commands))
  then Some (<[Z.to_nat i := s]> commands) else None.

Definition flushMambaCommand (g : grouping) : option grouping :=
  commands ← store (g_commands g) (g_mambaStart g) (generateMicromambaInstallCommand (g_mambaGroup g));
  Some (mkGrouping commands (-1) [] (g_pipStart g) (g_pipGroup g)).

(** [pip] is [generatePipInstallCommand] or [generateStandardPipInstallCommand]. *)
Definition flushPipCommand (pip : list string -> string) (g : grouping) : option grouping :=
  commands ← store (g_commands g) (g_pipStart g) (pip (g_pipGroup g));
  Some (mkGrouping commands (g_mambaStart g) (g_mambaGroup g) (-1) []).

Definition is_type (t : string) (step : BuildStep) : bool := String.eqb (bs_Type step) t.
Definition when {A} (b : bool) (f : A -> option A) (a : A) : option A := if b then f a else Some a.

Definition add_shell (step : BuildStep) (g : grouping) : option grouping :=
  Some (mkGrouping (g_commands g ++ [bs_Command step])%list (g_mambaStart g) (g_mambaGroup g)
          (g_pipStart g) (g_pipGroup g)).
Definition add_pip (step : BuildStep) (g : grouping) : option grouping :=
  let opened := g_pipStart g =? -1 in
  Some (mkGrouping (if opened then g_commands g ++ [""] else g_commands g)%list (g_mambaStart g) (g_mambaGroup g)
          (if opened then Z.of_nat (length (g_commands g)) else g_pipStart g)
          (g_pipGroup g ++ [bs_Command step])%list).
Definition add_mamba (step : BuildStep) (g : grouping) : option grouping :=
  let opened := g_mambaStart g =? -1 in
  Some (mkGrouping (if opened then g_commands g ++ [""] else g_commands g)%list
          (if opened then Z.of_nat (length (g_commands g)) else g_mambaStart g)
          (g_mambaGroup g ++ [bs_Command step])%list (g_pipStart g) (g_pipGroup g)).

(** The body of the loop over the steps. *)
Definition group_step (pip : list string -> string) (step : BuildStep) (g : grouping) : option grouping :=
  let flagCmd := containsFlag (bs_Command step) in
  g ← when (is_type shellCommandType step) (add_shell step) g;
  g ← when (negb (g_pipStart g =? -1) && (negb (is_type pipCommandType step) || flagCmd))
        (flushPipCommand pip) g;
  g ← when (negb (g_mambaStart g =? -1) && (negb (is_type micromambaCommandType step) || flagCmd))
        flushMambaCommand g;
  g ← when (is_type pipCommandType step)
        (λ g, g ← add_pip step g; when flagCmd (flushPipCommand pip) g) g;
  when (is_type micromambaCommandType step)
    (λ g, g ← add_mamba step g; when flagCmd flushMambaCommand g) g.

Fixpoint group_steps (pip : list string -> string) (steps : list BuildStep) (g : grouping) : option grouping :=
  match steps with
  | [] => Some g
  | step :: steps' => g ← group_step pip step g; group_steps pip steps' g
  end.

(** The whole function, with the groups that are left; [None] when an index is out of
    range.  The two functions of the source differ in the pip command alone. *)
Definition parse_steps (pip : list string -> string) (buildSteps : list BuildStep) : option (list string) :=
  g ← group_steps pip buildSteps (mkGrouping [] (-1) [] (-1) []);
  g ← when (negb (g_mambaStart g =? -1)) flushMambaCommand g;
  g ← when (negb (g_pipStart g =? -1)) (flushPipCommand pip) g;
  Some (g_commands g).

Definition parseBuildSteps (buildSteps : list BuildStep) (pythonVersion : string) (virtualEnv : bool)
    : option (list string) :=
  parse_steps (λ group, generatePipInstallCommand group pythonVersion virtualEnv) buildSteps.
Definition parseBuildStepsForDockerfile (buildSteps : list BuildStep) (pythonVersion : string)
    (virtualEnv : bool) : option (list string) :=
  parse_steps (λ group, generateStandardPipInstallCommand group pythonVersion virtualEnv) buildSteps.

(** ** Requirements of every image (build_options.go) *)

Definition basePythonRequirements : string :=
  Join ["fastapi==0.109.0"; "gunicorn==22.0.0"; "uvicorn==0.29.0"; "requests==2.32.2"; "packaging==21.3";
        "MarkupSafe==2.0.0"; "websockets==11.0.3"; "pydantic==2.5.3"; "betterproto-beta9==2.0.0b7";
        "grpcio==1.60.0"; "httpx==0.24.1"; "bson==0.5.10"; "psutil==5.9.6"; "cloudpickle==3.0.0";
        "rich==13.7.0"; "watchdog==4.0.0"; "six==1.16.0"] nl +:+ nl.

Definition name_end (c : Ascii.ascii) : bool := one_of "=><[;" c.

(** [None] when the name has no character before the first separator and the index is out
    of range. *)
Definition extractPackageName (pkg : string) : option string :=
  let regular := head (FieldsFunc pkg name_end) in
  if String.eqb pkg "" then Some ""
  else if HasPrefix pkg "git+" || HasPrefix pkg "-e git+" then
    match after_first "#egg=" pkg with
    | Some rest => Some (before_first "#egg=" rest)
    | None => regular
    end
  else if HasPrefix pkg "-i " || HasPrefix pkg "--index-url " then Some ""
  else regular.

Definition baseRequirementsSlice : list string := split_on "010" (TrimSpace basePythonRequirements).

(** The packages whose name is not among [baseNames]; [None] for a panic. *)
Fixpoint drop_base (baseNames : list string) (packages : list string) : option (list string) :=
  match packages with
  | [] => Some []
  | optPkg :: packages' =>
      name ← extractPackageName optPkg;
      rest ← drop_base baseNames packages';
      Some (if bool_decide (name ∈ baseNames) then rest else optPkg :: rest)
  end.

(** [PythonPackages] with the base requirements; [None] for a panic. *)
Definition addPythonRequirements (o : BuildOpts) : option BuildOpts :=
  if o_IgnorePython o && bool_decide (o_PythonPackages o = []) then Some o
  else
    baseNames ← mapM extractPackageName baseRequirementsSlice;
    filtered ← drop_base baseNames (o_PythonPackages o);
    Some (set_python (o_PythonVersion o) (filtered ++ baseRequirementsSlice)%list o).

Definition index_panic : gerr := EPanic "index out of range".
Definition add_requirements (o : BuildOpts) : gerr + BuildOpts :=
  match addPythonRequirements o with Some o => inr o | None => inl index_panic end.

(** ** Configuration of a build (build_options.go) *)

Section options.
Context {ECR : EcrService}.

Definition setCustomImageBuildOptions (o : BuildOpts) : gerr + BuildOpts :=
  match ExtractImageNameAndTag (o_ExistingImageUri o) with
  | inl e => inl e
  | inr baseImage =>
      let o := set_base baseImage o in
      if bool_decide (o_ExistingImageCreds o = ∅) then inr o
      else
        match GetRegistryTokenForImage (o_ExistingImageUri o) (o_ExistingImageCreds o) with
        | inl e => inl e
        | inr creds => inr (set_base_creds creds o)
        end
  end.

Definition setDefaultDockerCreds (cfg : image_config) (o : BuildOpts) : BuildOpts :=
  if String.eqb (o_BaseImageRegistry o) dockerHubRegistry && String.eqb (o_BaseImageCreds o) ""
     && negb (String.eqb (ic_DockerUsername cfg) "") && negb (String.eqb (ic_DockerPassword cfg) "")
  then set_base_creds (ic_DockerUsername cfg +:+ ":" +:+ ic_DockerPassword cfg) o
  else o.
End options.

(** ** Dockerfiles (builder.go) *)

Definition getSourceImage (o : BuildOpts) : string :=
  if negb (String.eqb (o_BaseImageDigest o) "")
  then o_BaseImageRegistry o +:+ "/" +:+ o_BaseImageName o +:+ "@" +:+ o_BaseImageDigest o
  else o_BaseImageRegistry o +:+ "/" +:+ o_BaseImageName o +:+ ":" +:+ o_BaseImageTag o.

Definition hasWorkToDo (o : BuildOpts) : bool :=
  negb (bool_decide (o_Commands o = [])) || negb (bool_decide (length (o_BuildSteps o) = 0%nat))
  || negb (bool_decide (o_PythonPackages o = [])) || negb (bool_decide (o_EnvVars o = []))
  || negb (bool_decide (o_BuildSecrets o = []))
  || (negb (String.eqb (o_PythonVersion o) "") && negb (o_IgnorePython o)).

Definition hasPipOrMambaSteps (steps : list BuildStep) : bool :=
  existsb (λ s, is_type pipCommandType s || is_type micromambaCommandType s) steps.

(** One line per text that is not empty. *)
Definition lines (instruction : string) (texts : list string) : string :=
  String.concat "" ((λ t, instruction +:+ " " +:+ t +:+ nl) <$> List.filter (λ t, negb (String.eqb t "")) texts).

(** [strings.SplitN(secret, "=", 2)[0]] *)
Definition secret_name (secret : string) : string :=
  match cut_at "=" secret with Some (name, _) => name | None => secret end.

(** A secret is left out when it is empty, not when its name is. *)
Definition renderEnvVarsAndSecrets (o : BuildOpts) : string :=
  lines "ENV" (o_EnvVars o) +:+
  String.concat "" ((λ s, "ARG " +:+ secret_name s +:+ nl)
                    <$> List.filter (λ s, negb (String.eqb s "")) (o_BuildSecrets o)).

Definition renderCommands (o : BuildOpts) : string := lines "RUN" (o_Commands o).

Record PythonStandaloneTemplate := mkPythonStandaloneTemplate {
  pt_PythonVersion : string;
  pt_Architecture : string;
  pt_OS : string;
  pt_Vendor : string;
}.

(** What [getImageID] hashes when the Dockerfile does not say everything. *)
Record hash_input := mkHashInput {
  hi_BaseImageName : string;
  hi_BaseImageTag : string;
  hi_BaseImageDigest : string;
  hi_BaseImageRegistry : string;
  hi_ExistingImageUri : string;
  hi_PythonVersion : string;
  hi_PythonPackages : list string;
  hi_Commands : list string;
  hi_BuildSteps : list BuildStep;
  hi_EnvVars : list string;
  hi_Dockerfile : string;
  hi_BuildCtxObject : string;
}.

Class BuildHost := {
  GOARCH : string;
  GOOS : string;
  (** parsing and executing a template *)
  render_template : string -> PythonStandaloneTemplate -> gerr + string;
  (** [hashstructure.Hash] of the two structs *)
  hash_dockerfile : string -> string -> list string -> gerr + Z;
  hash_options : hash_input -> gerr + Z;
}.

Section render.
Context {BH : BuildHost}.

Definition getPythonInstallCommand (cfg : image_config) (pythonVersion : string) : gerr + string :=
  let render arch vendor os :=
    render_template (ic_InstallScriptTemplate cfg)
      (mkPythonStandaloneTemplate (default "" (ic_PythonVersions cfg !! pythonVersion)) arch os vendor) in
  let on_arch arch :=
    if String.eqb GOOS "linux" then render arch "unknown" "linux"
    else if String.eqb GOOS "darwin" then render arch "apple" "darwin"
    else inl (EMsg "unsupported OS for python standalone install") in
  if String.eqb GOARCH "amd64" then on_arch "x86_64"
  else if String.eqb GOARCH "arm64" then on_arch "aarch64"
  else inl (EMsg "unsupported architecture for python standalone install").

(** The requested version, or the configured one for python3. *)
Definition python_version (cfg : image_config) (o : BuildOpts) : string :=
  if String.eqb (o_PythonVersion o) Python3 then ic_PythonVersion cfg else o_PythonVersion o.
Definition is_micromamba (o : BuildOpts) : bool := Contains (o_PythonVersion o) "micromamba".

(** The RUN lines of the packages and of the build steps. *)
Definition render_packages (o : BuildOpts) (pythonVersion : string) (venv : bool) : string :=
  if negb (bool_decide (o_PythonPackages o = [])) && negb (String.eqb pythonVersion "")
  then lines "RUN" [generateStandardPipInstallCommand (o_PythonPackages o) pythonVersion venv] else "".
Definition render_steps (o : BuildOpts) (pythonVersion : string) (venv : bool) : gerr + string :=
  match parseBuildStepsForDockerfile (o_BuildSteps o) pythonVersion venv with
  | Some steps => inr (lines "RUN" steps)
  | None => inl index_panic
  end.

Definition mamba_line : string := "RUN micromamba config set use_lockfiles False" +:+ nl.

Definition appendToDockerfile (cfg : image_config) (o : BuildOpts) : gerr + string :=
  let base := o_Dockerfile o +:+ (match strip_suffix nl (o_Dockerfile o) with Some _ => "" | None => nl end) in
  let pythonVersion := python_version cfg o in
  let isMicromamba := is_micromamba o in
  let shouldInstallPython :=
    negb (String.eqb pythonVersion "") &&
    (negb (o_IgnorePython o) || negb (bool_decide (o_PythonPackages o = []))
     || hasPipOrMambaSteps (o_BuildSteps o)) in
  let python :=
    if shouldInstallPython then
      if isMicromamba then mamba_line
      else match getPythonInstallCommand cfg pythonVersion with
           | inr installCmd => "RUN " +:+ installCmd +:+ nl
           | inl _ => ""
           end
    else "" in
  match render_steps o pythonVersion isMicromamba with
  | inl e => inl e
  | inr steps =>
      inr (base +:+ renderEnvVarsAndSecrets o +:+ python +:+
           render_packages o pythonVersion isMicromamba +:+ steps +:+ renderCommands o)
  end.

Definition RenderV2Dockerfile (cfg : image_config) (o : BuildOpts) : gerr + string :=
  let head := "FROM " +:+ getSourceImage o +:+ nl +:+ renderEnvVarsAndSecrets o in
  if o_IgnorePython o && bool_decide (o_PythonPackages o = []) && negb (hasPipOrMambaSteps (o_BuildSteps o)) then
    match render_steps o "" false with
    | inl e => inl e
    | inr steps => inr (head +:+ steps +:+ renderCommands o)
    end
  else
    let pythonVersion := python_version cfg o in
    let isMicromamba := is_micromamba o in
    let isBeta9BaseImage := String.eqb (o_BaseImageName o) (ic_BaseImageName cfg)
                            && String.eqb (o_BaseImageRegistry o) (ic_BaseImageRegistry cfg) in
    let python :=
      if isMicromamba then inr mamba_line
      else if negb (String.eqb pythonVersion "") && negb isBeta9BaseImage then
        match getPythonInstallCommand cfg pythonVersion with
        | inl e => inl e
        | inr installCmd => inr ("RUN " +:+ installCmd +:+ nl)
        end
      else inr "" in
    match python with
    | inl e => inl e
    | inr python =>
        match render_steps o pythonVersion isMicromamba with
        | inl e => inl e
        | inr steps =>
            inr (head +:+ python +:+ render_packages o pythonVersion isMicromamba +:+ steps +:+ renderCommands o)
        end
    end.

(** ** Identity (image_id.go) *)

(** [%016x] of a 64-bit hash. *)
Fixpoint hex_digits (n : nat) (z : Z) : string :=
  match n with
  | O => ""
  | S n' => hex_digits n' (z / 16) +:+ String (hex_char (z `mod` 16)) ""
  end.

Definition getImageID (o : BuildOpts) : gerr + string :=
  let hash :=
    if (o_ClipVersion o =? ClipVersion2) && negb (String.eqb (o_Dockerfile o) "")
    then hash_dockerfile (o_Dockerfile o) (o_BuildCtxObject o) (o_EnvVars o)
    else hash_options (mkHashInput (o_BaseImageName o) (o_BaseImageTag o) (o_BaseImageDigest o)
           (o_BaseImageRegistry o) (o_ExistingImageUri o) (o_PythonVersion o) (o_PythonPackages o)
           (o_Commands o) (o_BuildSteps o) (o_EnvVars o) (o_Dockerfile o) (o_BuildCtxObject o)) in
  match hash with inl e => inl e | inr h => inr (hex_digits 16 h) end.
End render.
