(* ===== verification/ImageProps.v ===== *)
(** * Properties of the image options and commands

    [parse_steps] fills slots of a list of commands while it collects the packages of a
    group.  It computes the commands of the maximal groups of the steps. *)

From S2P Require Import Prelude GoStd Redis Types ImageRef Registry ImageOptions.

Local Open Scope Z_scope.

(** ** Groups of build steps *)

(** A shell command, packages installed together, or a step of another type; a step with
    a flag of its own is a group of its own. *)
Inductive group :=
| GShell (command : string)
| GPip (own : bool) (packages : list string)
| GMamba (own : bool) (packages : list string)
| GOther.

Definition join_step (step : BuildStep) (gs : list group) : list group :=
  let c := bs_Command step in
  if is_type shellCommandType step then GShell c :: gs
  else if is_type pipCommandType step then
    if containsFlag c then GPip true [c] :: gs
    else match gs with GPip false l :: gs' => GPip false (c :: l) :: gs' | _ => GPip false [c] :: gs end
  else if is_type micromambaCommandType step then
    if containsFlag c then GMamba true [c] :: gs
    else match gs with GMamba false l :: gs' => GMamba false (c :: l) :: gs' | _ => GMamba false [c] :: gs end
  else GOther :: gs.

Definition groups (steps : list BuildStep) : list group := foldr join_step [] steps.

Definition group_command (pip : list string -> string) (g : group) : list string :=
  match g with
  | GShell c => [c]
  | GPip _ l => [pip l]
  | GMamba _ l => [generateMicromambaInstallCommand l]
  | GOther => []
  end.

Definition commands_of (pip : list string -> string) (gs : list group) : list string :=
  concat (group_command pip <$> gs).

(** ** The loop as a machine with one open group *)

Inductive open_group := Closed | PipOpen (l : list string) | MambaOpen (l : list string).

(** The variables of the loop: the slot of the open group is the last one. *)
Definition loop_state (cmds : list string) (o : open_group) : grouping :=
  match o with
  | Closed => mkGrouping cmds (-1) [] (-1) []
  | PipOpen l => mkGrouping (cmds ++ [""])%list (-1) [] (Z.of_nat (length cmds)) l
  | MambaOpen l => mkGrouping (cmds ++ [""])%list (Z.of_nat (length cmds)) l (-1) []
  end.

Definition close (pip : list string -> string) (o : open_group) : list string :=
  match o with
  | Closed => []
  | PipOpen l => [pip l]
  | MambaOpen l => [generateMicromambaInstallCommand l]
  end.

(** The commands that a step completes, and the group it leaves open. *)
Definition machine_step (pip : list string -> string) (step : BuildStep) (o : open_group)
    : list string * open_group :=
  let c := bs_Command step in
  if is_type shellCommandType step then (close pip o ++ [c], Closed)%list
  else if is_type pipCommandType step then
    if containsFlag c then (close pip o ++ [pip [c]], Closed)%list
    else match o with PipOpen l => ([], PipOpen (l ++ [c])%list) | _ => (close pip o, PipOpen [c]) end
  else if is_type micromambaCommandType step then
    if containsFlag c then (close pip o ++ [generateMicromambaInstallCommand [c]], Closed)%list
    else match o with MambaOpen l => ([], MambaOpen (l ++ [c])%list) | _ => (close pip o, MambaOpen [c]) end
  else (close pip o, Closed).

Lemma store_slot cmds rest s :
  store (cmds ++ "" :: rest)%list (Z.of_nat (length cmds)) s = Some (cmds ++ s :: rest)%list.
Proof.
  unfold store. rewrite length_app. simpl length.
  rewrite (proj2 (Z.leb_le _ _)), (proj2 (Z.ltb_lt _ _)) by lia. simpl.
  by rewrite Nat2Z.id, insert_app_r_alt, Nat.sub_diag by lia.
Qed.

Lemma not_minus_one n : Z.of_nat n =? -1 = false.
Proof. apply Z.eqb_neq. lia. Qed.

Lemma type_distinct step a b : is_type a step = true -> a <> b -> is_type b step = false.
Proof. unfold is_type. intros ->%String.eqb_eq Hn. by apply String.eqb_neq. Qed.

Lemma store_slot2 cmds rest s :
  store ((cmds ++ [""]) ++ rest)%list (Z.of_nat (length cmds)) s = Some (cmds ++ s :: rest)%list.
Proof. rewrite <- app_assoc. apply store_slot. Qed.

Ltac loop :=
  repeat (progress (unfold when, flushPipCommand, flushMambaCommand, add_shell, add_pip, add_mamba; simpl;
                    rewrite ?not_minus_one, ?store_slot, ?store_slot2)).

Lemma group_step_machine pip step cmds o :
  group_step pip step (loop_state cmds o)
  = Some (loop_state (cmds ++ (machine_step pip step o).1)%list (machine_step pip step o).2).
Proof.
  unfold group_step, machine_step.
  destruct (is_type shellCommandType step) eqn:Es;
    [rewrite !(type_distinct _ _ _ Es) by done
    |destruct (is_type pipCommandType step) eqn:Ep;
       [rewrite !(type_distinct _ _ _ Ep) by done|destruct (is_type micromambaCommandType step) eqn:Em]];
  destruct (containsFlag (bs_Command step)), o as [|l|l]; loop; rewrite <- ?app_assoc, ?app_nil_r; reflexivity.
Qed.

(** The machine run over all steps, and its last group closed. *)
Fixpoint machine (pip : list string -> string) (steps : list BuildStep) (o : open_group) : list string :=
  match steps with
  | [] => close pip o
  | step :: steps' =>
      ((machine_step pip step o).1 ++ machine pip steps' (machine_step pip step o).2)%list
  end.

Lemma parse_steps_machine pip steps : parse_steps pip steps = Some (machine pip steps Closed).
Proof.
  unfold parse_steps. change (mkGrouping [] (-1) [] (-1) []) with (loop_state [] Closed).
  rewrite <- (app_nil_l (machine _ _ _)). generalize (@nil string) as cmds. generalize Closed as o.
  induction steps as [|step steps IH]; intros o cmds; simpl.
  - destruct o as [|l|l]; loop; by rewrite ?app_nil_r.
  - rewrite group_step_machine. simpl. by rewrite IH, app_assoc.
Qed.

(** An open group and the groups that follow. *)
Definition resume (o : open_group) (gs : list group) : list group :=
  match o, gs with
  | Closed, _ => gs
  | PipOpen l, GPip false l' :: gs' => GPip false (l ++ l')%list :: gs'
  | PipOpen l, _ => GPip false l :: gs
  | MambaOpen l, GMamba false l' :: gs' => GMamba false (l ++ l')%list :: gs'
  | MambaOpen l, _ => GMamba false l :: gs
  end.

Lemma machine_groups pip steps o : machine pip steps o = commands_of pip (resume o (groups steps)).
Proof.
  revert o. induction steps as [|step steps IH]; intros o; simpl.
  { by destruct o. }
  rewrite IH. unfold machine_step, join_step.
  destruct (is_type shellCommandType step); [by destruct o|].
  destruct (is_type pipCommandType step); [|destruct (is_type micromambaCommandType step); [|by destruct o]];
  destruct (containsFlag (bs_Command step)), o as [|l|l]; try done;
  destruct (groups steps) as [|[|[]|[]|] gs]; unfold commands_of; simpl; by rewrite <- ?app_assoc.
Qed.

(** C31. The commands of the build steps are those of their groups: [parseBuildSteps], which
    runs them in the build container, and [parseBuildStepsForDockerfile], which writes them
    into a Dockerfile, never index out of range, and yield in the order of the steps the
    command of every shell step, one install command for each maximal run of pip steps and
    each maximal run of micromamba steps, and one for each step with a flag of its own; a
    step of another type ends a run and yields nothing. *)
Theorem build_steps_grouped steps pythonVersion venv :
  parseBuildSteps steps pythonVersion venv
  = Some (commands_of (λ l, generatePipInstallCommand l pythonVersion venv) (groups steps)) /\
  parseBuildStepsForDockerfile steps pythonVersion venv
  = Some (commands_of (λ l, generateStandardPipInstallCommand l pythonVersion venv) (groups steps)).
Proof. unfold parseBuildSteps, parseBuildStepsForDockerfile. by rewrite !parse_steps_machine, !machine_groups. Qed.

Example coalesced :
  parseBuildSteps [mkBuildStep "numpy" "pip"; mkBuildStep "pandas" "pip"; mkBuildStep "apt update" "shell";
                   mkBuildStep "torch --pre" "pip"; mkBuildStep "six" "pip"] "python3.11" true
  = Some ["uv-b9 pip install " +:+ Quote "numpy" +:+ " " +:+ Quote "pandas"; "apt update";
          "uv-b9 pip install " +:+ Quote "torch --pre"; "uv-b9 pip install " +:+ Quote "six"].
Proof. vm_compute. reflexivity. Qed.
