(* ===== verification/ImageBuild.v ===== *)
(** * Building images (pkg/abstractions/image: build.go, builder.go, image.go)

    A build runs in a goroutine that reports to the service over an unbuffered channel.
    The service passes the messages on to the user and reads up to the first message that
    has [Done] or that it cannot pass on, a line of the container's log included; a send
    after that blocks for ever, which a build shows by [None].  The container that builds answers
    commands through [bs_exec], which may depend on the commands that ran before. *)

From S2P Require Import Prelude GoStd Redis Keys Types Codec Lock Env WorkerRepo ContainerRepo PoolManager Scheduler TaskRepo EventBus ImageRef Registry ImageOptions.

Local Open Scope Z_scope.

(** ** State *)

Record OutputMsg := mkOutputMsg {
  om_Msg : string;
  om_Done : bool;
  om_Success : bool;
  om_Archiving : bool;
  om_Warning : bool;
  om_ImageId : string;
  om_PythonVersion : string;
}.

(** [b_out] holds the messages the service received, [b_client] tells whether there is a
    container client, and [b_ran], [b_archived] and [b_killed] record its calls. *)
Record build := mkBuild {
  b_opts : BuildOpts;
  b_success : bool;
  b_containerID : string;
  b_imageID : string;
  b_out : list OutputMsg;
  b_client : bool;
  b_commands : list string;
  b_micromamba : bool;
  b_mounts : list Mount;
  b_ran : list string;
  b_archived : list string;
  b_killed : bool;
}.

Definition set_b_opts (o : BuildOpts) (b : build) : build :=
  mkBuild o (b_success b) (b_containerID b) (b_imageID b) (b_out b) (b_client b) (b_commands b)
    (b_micromamba b) (b_mounts b) (b_ran b) (b_archived b) (b_killed b).
Definition set_b_success (s : bool) (b : build) : build :=
  mkBuild (b_opts b) s (b_containerID b) (b_imageID b) (b_out b) (b_client b) (b_commands b)
    (b_micromamba b) (b_mounts b) (b_ran b) (b_archived b) (b_killed b).
Definition set_b_out (l : list OutputMsg) (b : build) : build :=
  mkBuild (b_opts b) (b_success b) (b_containerID b) (b_imageID b) l (b_client b) (b_commands b)
    (b_micromamba b) (b_mounts b) (b_ran b) (b_archived b) (b_killed b).
Definition set_b_client (c : bool) (b : build) : build :=
  mkBuild (b_opts b) (b_success b) (b_containerID b) (b_imageID b) (b_out b) c (b_commands b)
    (b_micromamba b) (b_mounts b) (b_ran b) (b_archived b) (b_killed b).
Definition add_commands (l : list string) (b : build) : build :=
  mkBuild (b_opts b) (b_success b) (b_containerID b) (b_imageID b) (b_out b) (b_client b)
    (b_commands b ++ l)%list (b_micromamba b) (b_mounts b) (b_ran b) (b_archived b) (b_killed b).
Definition add_ran (c : string) (b : build) : build :=
  mkBuild (b_opts b) (b_success b) (b_containerID b) (b_imageID b) (b_out b) (b_client b)
    (b_commands b) (b_micromamba b) (b_mounts b) (b_ran b ++ [c])%list (b_archived b) (b_killed b).
Definition add_archived (id : string) (b : build) : build :=
  mkBuild (b_opts b) (b_success b) (b_containerID b) (b_imageID b) (b_out b) (b_client b)
    (b_commands b) (b_micromamba b) (b_mounts b) (b_ran b) (b_archived b ++ [id])%list (b_killed b).
Definition set_b_killed (b : build) : build :=
  mkBuild (b_opts b) (b_success b) (b_containerID b) (b_imageID b) (b_out b) (b_client b)
    (b_commands b) (b_micromamba b) (b_mounts b) (b_ran b) (b_archived b) true.

(** What the build container and the machine answer: a command, the archive stream of
    [ContainerArchive] ([None] for its end), the host, and the state of the container at
    each poll. *)
Record archive_response := mkArchiveResponse {
  ar_Done : bool;
  ar_Success : bool;
  ar_Progress : Z;
  ar_ErrorMsg : string;
}.
(** What becomes of the [stream.Send] of a message: it is passed on, it fails, or the
    [Send] of a log line before it has failed ([StreamLogs] writes the lines of the
    container's log to the same channel; they have neither [Done] nor [Success]). *)
Inductive delivery := Delivered | SendFails | LineFails.
#[export] Instance delivery_eq_dec : EqDecision delivery.
Proof. solve_decision. Defined.
Inductive poll := PAborted | PTick (running : gerr + bool) | PTimeout.
Record build_env := mkBuildEnv {
  be_exec : list string -> string -> gerr + bool;
  be_archive : gerr + list (gerr + archive_response);
  be_address_ticks : nat;
  be_cancelled : bool;
  be_connect : gerr + unit;
  be_polls : list poll;
  be_inspect : string -> string -> gerr + list Z;
  be_stream : nat -> delivery;                   (* by the number of messages before *)
}.

(** The build goroutine; [None] when it is blocked for ever. *)
Definition BM (A : Type) : Type := build -> prog (option A * build).
Definition bret {A} (a : A) : BM A := λ b, Ret (Some a, b).
Definition bbind {A B} (p : BM A) (f : A -> BM B) : BM B :=
  λ b, r <~ p b ;; match r with (None, b') => Ret (None, b') | (Some a, b') => f a b' end.
Definition bget : BM build := λ b, Ret (Some b, b).
Definition bmod (f : build -> build) : BM unit := λ b, Ret (Some tt, f b).
Definition bredis {A} (p : prog A) : BM A := λ b, r <~ p ;; Ret (Some r, b).

Declare Scope build_scope.
Delimit Scope build_scope with build.
Notation "'let!' x ← p ; q" := (bbind p (λ x, q)) (at level 10, x name, p at level 99, q at level 200) : build_scope.
Notation "'run!' p ; q" := (bbind p (λ _, q)) (at level 10, p at level 99, q at level 200) : build_scope.
Local Open Scope build_scope.

(** [StopContainerArgs.ToMap], a round trip through JSON. *)
Definition stop_args_map (a : StopContainerArgs) : gmap string jvalue :=
  {[ "container_id" := JStr (sa_ContainerId a); "force" := JBool (sa_Force a);
     "reason" := JStr (sa_Reason a) ]}.

(** The registry and the event bus as the scheduler uses them. *)
#[export] Instance scheduler_services {ECR : EcrService} {EC : EventCodec} : SchedulerServices := {|
  Scheduler.GetRegistryTokenForImage := Registry.GetRegistryTokenForImage;
  send_stop_event args :=
    _id <- Send (mkEvent EventTypeStopContainer (stop_args_map args) false 0) ;; ok tt;
|}.

Section image.
Context {JSON : JsonRequests} {BR : BackendRepository} {ECR : EcrService} {EC : EventCodec} {BH : BuildHost}.
Context (cfg : image_config) (env : build_env) (workspace : Workspace).

(** ** Messages *)

Definition log_line : OutputMsg := mkOutputMsg "" false false false false "" "".

(** [lastMessage] of [BuildImage], if the messages [out], the first of which is number [i],
    end its reading. *)
Fixpoint stops_at (i : nat) (out : list OutputMsg) : option OutputMsg :=
  if decide (be_stream env i = LineFails) then Some log_line
  else
    match out with
    | [] => None
    | m :: out' => if om_Done m || bool_decide (be_stream env i = SendFails) then Some m else stops_at (S i) out'
    end.
Definition last_message (out : list OutputMsg) : option OutputMsg := stops_at 0 out.

Definition send (msg : OutputMsg) : BM unit :=
  λ b, match last_message (b_out b) with
       | Some _ => Ret (None, b)
       | None => Ret (Some tt, set_b_out (b_out b ++ [msg])%list b)
       end.

Definition log (Done : bool) (Msg : string) : BM unit :=
  let! b ← bget; send (mkOutputMsg Msg Done (b_success b) false false "" "").
Definition logWarning (Msg : string) : BM unit :=
  let! b ← bget; send (mkOutputMsg Msg false (b_success b) false true "" "").
Definition logWithImageAndPythonVersion (Done : bool) (Msg : string) : BM unit :=
  let! b ← bget;
  send (mkOutputMsg Msg Done (b_success b) true false (b_imageID b) (o_PythonVersion (b_opts b))).

(** ** Preparing the commands (build.go) *)

(** [containerClient.Exec], which the container server answers. *)
Definition Exec (command : string) : BM (gerr + bool) :=
  let! b ← bget; run! bmod (add_ran command); bret (be_exec env (b_ran b) command).

Definition succeeds (r : gerr + bool) : bool := match r with inr ok => ok | inl _ => false end.

Definition checkForVirtualEnv : BM bool :=
  let! b ← bget;
  if String.eqb (o_PythonVersion (b_opts b)) "" then bret false
  else if b_micromamba b then bret true
  else
    let! r ← Exec (o_PythonVersion (b_opts b) +:+ " -c " +:+ dq +:+
                   "import sys; exit(0 if sys.prefix != sys.base_prefix else 1)" +:+ dq);
    bret (succeeds r).

Definition updatePyvenvCmd (pythonVersion : string) : string :=
  pythonVersion +:+ " -c " +:+ dq +:+
  "import sys; import os; venv_dir = os.path.dirname(os.path.dirname(sys.executable)); print(venv_dir)"
  +:+ dq +:+ " && echo " +:+ dq +:+ "include-system-site-packages = true" +:+ dq
  +:+ " >> $(dirname $(dirname $(" +:+ pythonVersion +:+ " -c " +:+ dq +:+
  "import sys; print(sys.executable)" +:+ dq +:+ ")))/pyvenv.cfg".

(** The install command appended, or its error reported. *)
Definition install_python (pythonVersion : string) : BM (gerr + unit) :=
  match getPythonInstallCommand cfg pythonVersion with
  | inl e => run! log true (Error e +:+ nl); bret (inl e)
  | inr installCmd => run! bmod (add_commands [installCmd]); bret (inr tt)
  end.

Definition setupPythonEnv : BM (gerr + unit) :=
  let! b ← bget;
  let o := b_opts b in
  if b_micromamba b then
    run! bmod (add_commands ["micromamba config set use_lockfiles False"]); bret (inr tt)
  else if o_IgnorePython o && bool_decide (o_PythonPackages o = []) then bret (inr tt)
  else if String.eqb (o_PythonVersion o) Python3 then
    let! r ← Exec (o_PythonVersion o +:+ " --version");
    if succeeds r then bret (inr tt)
    else
      run! bmod (set_b_opts (set_python (ic_PythonVersion cfg) (o_PythonPackages o) o));
      install_python (ic_PythonVersion cfg)
  else
    let! r ← Exec (o_PythonVersion o +:+ " --version");
    if succeeds r then bret (inr tt)
    else
      let! r ← Exec (Python3 +:+ " --version");
      run! (if succeeds r
            then logWarning ("requested python version (" +:+ o_PythonVersion o +:+ ") was not detected, but an existing python3 environment was detected. The requested python version will be installed, replacing the existing python environment." +:+ nl)
            else bret tt);
      run! log false (o_PythonVersion o +:+ " not detected, installing it for you..." +:+ nl);
      install_python (o_PythonVersion o).

(** [append(b.commands, parseBuildSteps(...)...)] *)
Definition add_steps (venv : bool) : BM (gerr + unit) :=
  let! b ← bget;
  match parseBuildSteps (o_BuildSteps (b_opts b)) (o_PythonVersion (b_opts b)) venv with
  | Some l => run! bmod (add_commands l); bret (inr tt)
  | None => bret (inl index_panic)
  end.

Definition prepareCommands : BM (gerr + unit) :=
  let! b ← bget;
  let o := b_opts b in
  if o_IgnorePython o && bool_decide (o_PythonPackages o = []) then
    run! bmod (add_commands (o_Commands o)); add_steps false
  else
    let! r ← setupPythonEnv;
    match r with
    | inl e => bret (inl e)
    | inr _ =>
        let! isVirtualEnv ← checkForVirtualEnv;
        let! b ← bget;
        let o := b_opts b in
        run! (if isVirtualEnv && negb (b_micromamba b)
              then bmod (add_commands [updatePyvenvCmd (o_PythonVersion o)]) else bret tt);
        run! (if negb (bool_decide (o_PythonPackages o = [])) && negb (String.eqb (o_PythonVersion o) "")
              then bmod (add_commands [generatePipInstallCommand (o_PythonPackages o) (o_PythonVersion o)
                                         isVirtualEnv])
              else bret tt);
        run! bmod (add_commands (o_Commands o));
        add_steps isVirtualEnv
    end.

(** The error of a command that ran and failed is [nil]. *)
Fixpoint execute (cmds : list string) : BM (gerr + unit) :=
  match cmds with
  | [] => bret (inr tt)
  | cmd :: cmds' =>
      if String.eqb cmd "" then execute cmds'
      else
        let! r ← Exec cmd;
        match r with
        | inr true => execute cmds'
        | inr false => run! log true ""; bret (inr tt)
        | inl e => run! log true (Error e +:+ nl); bret (inl e)
        end
  end.
Definition executeCommands : BM (gerr + unit) := let! b ← bget; execute (b_commands b).

(** ** The archive (pkg/common/container_client.go) *)

Fixpoint repeat_string (s : string) (n : nat) : string :=
  match n with O => "" | S n' => s +:+ repeat_string s n' end.
(** [progress] is between 0 and [total]; [strings.Repeat] panics outside. *)
Definition generateProgressBar (progress total : Z) : string :=
  let progressWidth := Z.quot (progress * 50) total in
  let up := if 0 <? Z.quot (progress * 100) total then String "027" "" +:+ "[A" else "" in
  up +:+ String "013" "" +:+ "[" +:+ repeat_string "=" (Z.to_nat progressWidth) +:+
  repeat_string " " (Z.to_nat (50 - progressWidth)) +:+ "] " +:+
  fmt_int (Z.quot (progress * 100) total) +:+ "%" +:+ nl.

Definition archiving (Msg : string) : OutputMsg := mkOutputMsg Msg false false true false "" "".

(** The responses of the stream up to its end. *)
Fixpoint archive_stream (l : list (gerr + archive_response)) : BM (gerr + unit) :=
  match l with
  | [] => bret (inr tt)
  | inl e :: _ => bret (inl (EWrap "error receiving from archive stream" e))
  | inr resp :: l' =>
      run! (if String.eqb (ar_ErrorMsg resp) "" then bret tt else send (archiving (ar_ErrorMsg resp +:+ nl)));
      run! (if negb (ar_Done resp) && String.eqb (ar_ErrorMsg resp) ""
            then send (archiving (if ar_Progress resp =? 0 then "."
                                  else generateProgressBar (ar_Progress resp) 100))
            else bret tt);
      if ar_Done resp
      then bret (if ar_Success resp then inr tt else inl (EMsg "image archiving failed"))
      else archive_stream l'
  end.

Definition Archive (imageId : string) : BM (gerr + unit) :=
  run! send (archiving (nl +:+ "Saving image, this may take a few minutes..." +:+ nl));
  run! bmod (add_archived imageId);
  match be_archive env with
  | inl e => bret (inl (EWrap "error creating archive stream" e))
  | inr responses => archive_stream responses
  end.

Definition archive : BM (gerr + unit) :=
  let! b ← bget;
  let! r ← Archive (b_imageID b);
  match r with
  | inl e => run! log true (Error e +:+ nl); bret (inl e)
  | inr _ => bret (inr tt)
  end.

(** ** The build container (build.go, builder.go) *)

Definition imageContainerTtlS : Z := 60.

(** The image of the build container: the final one for version 2 and for custom
    Dockerfiles, else the base image. *)
Definition getContainerImageID (b : build) : gerr + string :=
  let o := b_opts b in
  let isV2 := ic_ClipVersion cfg =? 2 in
  let hasCustomDockerfile := negb (String.eqb (o_Dockerfile o) "") && String.eqb (o_BaseImageName o) "" in
  if isV2 || hasCustomDockerfile then inr (b_imageID b)
  else getImageID (mkBuildOpts (o_BaseImageRegistry o) (o_BaseImageName o) (o_BaseImageTag o)
                     (o_BaseImageDigest o) "" (o_ExistingImageUri o) ∅ (o_Dockerfile o) (o_BuildCtxObject o)
                     "" [] [] [] false (o_EnvVars o) [] "" false 0).

Definition generateContainerRequest (b : build) : gerr + ContainerRequest :=
  match getContainerImageID b with
  | inl e => inl e
  | inr containerImageID =>
      let o := b_opts b in
      let cpu := if ic_BuildContainerCpu cfg <=? 0 then defaultBuildContainerCpu else ic_BuildContainerCpu cfg in
      let memory := if ic_BuildContainerMemory cfg <=? 0 then defaultBuildContainerMemory
                    else ic_BuildContainerMemory cfg in
      let sourceImage :=
        if negb (String.eqb (o_BaseImageName o) "") && negb (String.eqb (o_BaseImageRegistry o) "")
        then Some (getSourceImage o) else None in
      let hasCtx := negb (String.eqb (o_BuildCtxObject o) "") in
      let object := if hasCtx then mkObject 0 (o_BuildCtxObject o) "" 0 0 zeroTime else zeroObject in
      let mounts := if hasCtx then (b_mounts b ++ [mkMount "" WorkerUserCodeVolume "" false "" None])%list
                    else b_mounts b in
      let hasGpu := negb (String.eqb (o_Gpu o) "") in
      inr (mkContainerRequest (b_containerID b) ["tail"; "-f"; "/dev/null"] (o_EnvVars o) cpu memory ""
             (if hasGpu then [o_Gpu o] else []) (if hasGpu then 1 else 0) containerImageID ""
             (wk_ExternalId workspace) workspace (mkStubWithRelated zeroStub zeroWorkspace object None)
             zeroTime mounts 0 (if hasGpu then "" else ic_BuildContainerPoolSelector cfg) false false
             (mkBuildOptions sourceImage (Some (o_Dockerfile o)) (Some (o_BuildCtxObject o))
                (o_BaseImageCreds o) (o_BuildSecrets o))
             [] 0 "" None "" "" "" false [] false)
  end.

Definition handleCustomBaseImage : BM (gerr + unit) :=
  let! b ← bget;
  run! send (mkOutputMsg ("Using custom base image: " +:+ o_ExistingImageUri (b_opts b) +:+ nl)
               false false false false "" "");
  match setCustomImageBuildOptions (b_opts b) with
  | inl e => run! send (mkOutputMsg (Error e +:+ nl) true false false false "" ""); bret (inl e)
  | inr o =>
      match add_requirements o with
      | inl e => bret (inl e)
      | inr o => run! bmod (set_b_opts o); bret (inr tt)
      end
  end.

Definition initializeBuildConfiguration : BM (gerr + unit) :=
  let! b ← bget;
  let o := b_opts b in
  let! r ← (if negb (String.eqb (o_Dockerfile o) "") then
              match add_requirements o with
              | inl e => bret (inl e)
              | inr o => run! bmod (set_b_opts o); bret (inr tt)
              end
            else if negb (String.eqb (o_ExistingImageUri o) "") then handleCustomBaseImage
            else bret (inr tt));
  match r with
  | inl e => bret (inl e)
  | inr _ => run! bmod (λ b, set_b_opts (setDefaultDockerCreds cfg (b_opts b)) b); bret (inr tt)
  end.

Definition connectToHost : BM (gerr + unit) :=
  match be_connect env with
  | inl e => run! log true ("Failed to connect to build container." +:+ nl); bret (inl e)
  | inr _ => run! bmod (set_b_client true); bret (inr tt)
  end.

(** [now] is [time.Now()] in nanoseconds. *)
Definition startBuildContainer (now : Z) : BM (gerr + unit) :=
  let! r ← initializeBuildConfiguration;
  match r with
  | inl e => bret (inl e)
  | inr _ =>
      let! b ← bget;
      match generateContainerRequest b with
      | inl e =>
          run! log true ("Error occured while generating container request: " +:+ Error e); bret (inl e)
      | inr containerRequest =>
          let! r ← bredis (Run now containerRequest);
          match r.1 with
          | inl e => run! log true (Error e +:+ nl); bret (inl e)
          | inr _ =>
              let! r ← bredis (GetWorkerAddress (be_address_ticks env) (be_cancelled env) (b_containerID b));
              match r with
              | inl e => run! log true ("Failed to connect to build container." +:+ nl); bret (inl e)
              | inr _ =>
                  let! r ← bredis (SetBuildContainerTTL (b_containerID b) (imageContainerTtlS * second));
                  match r with
                  | inl e => run! log true ("Failed to connect to build container." +:+ nl); bret (inl e)
                  | inr _ => connectToHost
                  end
              end
          end
      end
  end.

(** [types.WorkerContainerExitCodes] and [getExitCodeMsg] *)
Definition getExitCodeMsg (exitCode : Z) : string :=
  if exitCode =? ContainerExitCodeSuccess then "Success"
  else if exitCode =? ContainerExitCodeIncorrectImageArch
  then "InvalidArch: Image must be built for the " +:+ GOARCH +:+ " architecture."
  else if exitCode =? ContainerExitCodeInvalidCustomImage
  then "InvalidCustomImage: Custom image not found. Check your image reference and registry credentials."
  else if exitCode =? ContainerExitCodeIncorrectImageOs
  then "InvalidOS: Image must be built for Linux."
  else "UnknownError: An unknown error occurred.".

(** In nanoseconds, in 64 bits. *)
Definition calculateContainerSpinupTimeout (o : BuildOpts) : Z :=
  if negb (String.eqb (o_Dockerfile o) "") then dockerfileContainerSpinupTimeout
  else if negb (String.eqb (o_ExistingImageUri o) "") then
    match be_inspect env (getSourceImage o) (o_BaseImageCreds o) with
    | inl _ => defaultContainerSpinupTimeout
    | inr layers =>
        let imageSizeBytes := foldl (λ n size, wrap_i64 (n + size)) 0 layers in
        wrap_i64 (wrap_i64 (ic_ArchiveNanosecondsPerByte cfg * imageSizeBytes) * 10)
    end
  else defaultContainerSpinupTimeout.

Definition isV2Build : bool := ic_ClipVersion cfg =? ClipVersion2.

(** The stop event of [stopBuild]; its error is logged by the callers. *)
Definition stopBuild (containerId : string) : M string :=
  Send (mkEvent (StopBuildEventType containerId) {[ "container_id" := JStr containerId ]} false 0).

(** The polls of the loop; [None] inside [Some] while the loop goes on.  The texts of the
    two time-outs do not have the duration. *)
Fixpoint wait_polls (polls : list poll) : BM (option (gerr + unit)) :=
  match polls with
  | [] => bret None
  | PAborted :: _ =>
      run! log true ("Build was aborted." +:+ nl); bret (Some (inl (EMsg "context canceled")))
  | PTimeout :: _ =>
      let! b ← bget;
      let! _err ← bredis (stopBuild (b_containerID b));
      let text := if isV2Build then "Timeout: build did not complete" else "Timeout: container not running" in
      run! log true (text +:+ "." +:+ nl);
      bret (Some (inl (EMsg text)))
  | PTick running :: polls' =>
      let! b ← bget;
      let! r ← bredis (GetContainerExitCode (b_containerID b));
      let status :=
        if isV2Build then wait_polls polls'
        else
          match running with
          | inl e =>
              run! log true ("Error occurred while checking container status: " +:+ Error e);
              bret (Some (inl e))
          | inr true => bret (Some (inr tt))
          | inr false => wait_polls polls'
          end in
      match r with
      | inl _ => status
      | inr exitCode =>
          if exitCode =? 0 then if isV2Build then bret (Some (inr tt)) else status
          else
            let text := if isV2Build then "uild failed: " else "ontainer exited with error: " in
            run! log true ((if isV2Build then "B" else "C") +:+ text +:+ getExitCodeMsg exitCode +:+ nl);
            bret (Some (inl (EMsg ((if isV2Build then "b" else "c") +:+ text +:+ getExitCodeMsg exitCode))))
      end
  end.

(** A ticker with an interval that is not positive panics. *)
Definition waitForBuildContainer : BM (option (gerr + unit)) :=
  run! log false (if isV2Build then "Building image..." +:+ nl else "Setting up build container..." +:+ nl);
  let! b ← bget;
  if calculateContainerSpinupTimeout (b_opts b) <=? 0
  then bret (Some (inl (EPanic "non-positive interval for NewTicker")))
  else wait_polls (be_polls env).

Definition killContainer : BM unit :=
  let! b ← bget; if b_client b then bmod set_b_killed else bret tt.

(** The commands of a version 1 build and its archive. *)
Definition run_commands : BM (gerr + unit) :=
  let! r ← executeCommands;
  match r with
  | inl e => bret (inl e)
  | inr _ => archive
  end.
Definition build_v1 : BM (gerr + unit) :=
  let! r ← prepareCommands;
  match r with
  | inl e => bret (inl e)
  | inr _ => run_commands
  end.

(** [Build] after the identity was computed and before the deferred [killContainer];
    [None] inside [Some] while the container is awaited. *)
Definition build_body (now : Z) : BM (option (gerr + unit)) :=
  let! r ← startBuildContainer now;
  match r with
  | inl e => run! log true ("Failed to start build container: " +:+ Error e); bret (Some (inl e))
  | inr _ =>
      let! r ← waitForBuildContainer;
      match r with
      | None => bret None
      | Some (inl e) => bret (Some (inl e))
      | Some (inr _) =>
          let! r ← (if isV2Build then bret (inr tt) else build_v1);
          match r with
          | inl e => bret (Some (inl e))
          | inr _ =>
              run! bmod (set_b_success true);
              run! logWithImageAndPythonVersion true "Build completed successfully";
              bret (Some (inr tt))
          end
      end
  end.

Definition Build (now : Z) : BM (option (gerr + unit)) :=
  let! r ← build_body now;
  match r with
  | None => bret None
  | Some r => run! killContainer; bret (Some r)
  end.

(** [NewBuild] and the identity; [uuid8] is the random part of the container id. *)
Definition new_build (uuid8 : string) (o : BuildOpts) : gerr + build :=
  match getImageID o with
  | inl e => inl e
  | inr imageID =>
      inr (mkBuild o false (BuildContainerPrefix +:+ uuid8) imageID [] false []
             (Contains (o_PythonVersion o) "micromamba") [] [] [] false)
  end.

(** The goroutine that waits for the end of the user's request; [now] is
    [time.Now().Unix()]. *)
Definition handleBuildCancellation (now : Z) (b : build) : prog unit :=
  if b_success b then Ret tt
  else
    stopBuild (b_containerID b) ;~
    (UpdateContainerStatus now (b_containerID b) ContainerStatusStopping now ;~ Ret tt).

(** One tick of [refreshBuildContainerTTL]. *)
Definition refreshBuildContainerTTL (containerId : string) : M unit :=
  SetBuildContainerTTL containerId (imageContainerTtlS * second).
End image.
