(* ===== verification/ImageService.v ===== *)
(** * The image service (pkg/abstractions/image/image.go)

    Verification of a build request, the build as the service sees it, the secrets of
    private base images and the monitor of build containers.  The registry of images and
    the SQL queries are parameters; the secrets of a workspace are a map. *)

From S2P Require Import Prelude GoStd Redis Keys Types Codec Lock Env WorkerRepo ContainerRepo PoolManager Scheduler TaskRepo EventBus ImageRef Registry ImageOptions ImageBuild.

Local Open Scope Z_scope.

Record VerifyImageBuildRequest := mkVerifyRequest {
  vr_PythonVersion : string;
  vr_PythonPackages : list string;
  vr_Commands : list string;
  vr_ExistingImageUri : string;
  vr_BuildSteps : list BuildStep;
  vr_EnvVars : list string;
  vr_Dockerfile : string;
  vr_BuildCtxObject : string;
  vr_Secrets : option (list string);
  vr_Gpu : string;
  vr_IgnorePython : bool;
  vr_ImageId : option string;
}.

Class ImageBackend := {
  registry_Exists : string -> gerr + bool;
  GetImageClipVersion : string -> gerr + Z;
  GetSecretsByNameDecrypted : list string -> gerr + list (string * string);
  CreateImage : string -> Z -> gerr + unit;
}.

(** The secrets of a workspace by name, and the secret of each image. *)
Record secret_store := mkSecretStore {
  st_secrets : gmap string string;
  st_images : gmap string string;
}.
(** Which of the queries of a secret fail. *)
Record secret_env := mkSecretEnv {
  se_get : option gerr;
  se_write : option gerr;
  se_associate : option gerr;
}.

Section service.
Context {JSON : JsonRequests} {BR : BackendRepository} {ECR : EcrService} {EC : EventCodec} {BH : BuildHost}.
Context {IB : ImageBackend} {JC : JsonCreds}.
Context (cfg : image_config) (workspace : Workspace).

(** ** Verification *)

Definition retrieveBuildSecrets (secrets : option (list string)) : gerr + list string :=
  match secrets with
  | None => inr []
  | Some names =>
      match GetSecretsByNameDecrypted names with
      | inl e => inl e
      | inr l => inr ((λ p, p.1 +:+ "=" +:+ p.2) <$> l)
      end
  end.

(** The options of a request, with the base image of the runner or of the user, before a
    Dockerfile is rendered. *)
Definition request_options (in_ : VerifyImageBuildRequest) (baseImageTag : string) (buildSecrets : list string)
    : gerr + BuildOpts :=
  let noDockerfile := String.eqb (vr_Dockerfile in_) "" in
  let opts :=
    mkBuildOpts (if noDockerfile then ic_BaseImageRegistry cfg else "")
      (if noDockerfile then ic_BaseImageName cfg else "") (if noDockerfile then baseImageTag else "") ""
      "" "" ∅ (vr_Dockerfile in_) (vr_BuildCtxObject in_) (vr_PythonVersion in_) (vr_PythonPackages in_)
      (vr_Commands in_) (vr_BuildSteps in_) false (vr_EnvVars in_) buildSecrets (vr_Gpu in_)
      (vr_IgnorePython in_) (ic_ClipVersion cfg) in
  let opts :=
    if String.eqb (vr_ExistingImageUri in_) "" then inr opts
    else
      match ExtractImageNameAndTag (vr_ExistingImageUri in_) with
      | inl e => inl e
      | inr baseImage => inr (set_base baseImage (set_existing (vr_ExistingImageUri in_) ∅ (ic_ClipVersion cfg) opts))
      end in
  match opts with
  | inl e => inl e
  | inr opts => if noDockerfile then inr opts else add_requirements opts
  end.

(** The Dockerfile of a version 2 build. *)
Definition render_dockerfile (opts : BuildOpts) : gerr + BuildOpts :=
  if ic_ClipVersion cfg =? ClipVersion2 then
    if negb (hasWorkToDo opts) then inr opts
    else
      match (if String.eqb (o_Dockerfile opts) "" then RenderV2Dockerfile cfg opts
             else appendToDockerfile cfg opts) with
      | inl e => inl e
      | inr dockerfile => inr (set_dockerfile dockerfile opts)
      end
  else inr opts.

(** The options of a request. *)
Definition verify_options (in_ : VerifyImageBuildRequest) : gerr + BuildOpts :=
  let tag := if String.eqb (vr_PythonVersion in_) Python3 then ic_PythonVersion cfg
             else vr_PythonVersion in_ in
  match ic_Tags cfg !! tag with
  | None => inl (EMsg ("Python version not supported: " +:+ vr_PythonVersion in_))
  | Some baseImageTag =>
      match retrieveBuildSecrets (vr_Secrets in_) with
      | inl e => inl e
      | inr buildSecrets =>
          match request_options in_ baseImageTag buildSecrets with
          | inl e => inl e
          | inr opts => render_dockerfile opts
          end
      end
  end.

(** The identity and whether it could be computed. *)
Definition identify (opts : BuildOpts) : string * bool :=
  match getImageID opts with inl _ => ("", false) | inr imageId => (imageId, true) end.

(** The identity, whether the image exists, whether the request is valid, and the
    options; no options when the request names an image. *)
Definition verifyImage (in_ : VerifyImageBuildRequest)
    : gerr + string * bool * bool * option BuildOpts :=
  match vr_ImageId in_ with
  | Some (String _ _ as imageId) =>
      match registry_Exists imageId with
      | inl e => inl e
      | inr exists_ => inr (imageId, exists_, true, None)
      end
  | _ =>
      match verify_options in_ with
      | inl e => inl e
      | inr opts =>
          let imageId := (identify opts).1 in
          let valid := (identify opts).2 in
          match registry_Exists imageId with
          | inl e => inl e
          | inr exists_ =>
              match GetImageClipVersion imageId with
              | inl ESqlNoRows => inr (imageId, false, valid, Some opts)
              | inl e => inl e
              | inr _ => inr (imageId, exists_, valid, Some opts)
              end
          end
      end
  end.

Definition VerifyImageBuild (in_ : VerifyImageBuildRequest) : gerr + string * bool * bool :=
  match verifyImage in_ with
  | inl e => inl e
  | inr (imageId, exists_, valid, _) => inr (imageId, exists_, valid)
  end.

(** ** Secrets of private images *)

Definition upsertSecret (env : secret_env) (secretName secretValue : string) (st : secret_store)
    : (gerr + unit) * secret_store :=
  match se_get env with
  | Some e => (inl (EWrap "failed to check for existing secret" e), st)
  | None =>
      match se_write env with
      | Some e =>
          (inl (EWrap (match st_secrets st !! secretName with
                       | Some _ => "failed to update secret" | None => "failed to create secret" end) e), st)
      | None => (inr tt, mkSecretStore (<[secretName := secretValue]> (st_secrets st)) (st_images st))
      end
  end.

Definition createCredentialSecretIfNeeded (env : secret_env) (imageId : string) (opts : BuildOpts)
    (st : secret_store) : (gerr + unit) * secret_store :=
  if hasWorkToDo opts || negb (String.eqb (o_Dockerfile opts) "") then (inr tt, st)
  else if bool_decide (o_ExistingImageCreds opts = ∅) then (inr tt, st)
  else if String.eqb (o_ExistingImageUri opts) "" then (inr tt, st)
  else
    match GetRegistryCredentialsForImage (o_ExistingImageUri opts) (o_ExistingImageCreds opts) with
    | (_, inl _) => (inr tt, st)
    | (registry, inr creds) =>
        let credType := DetectCredentialType registry creds in
        if String.eqb credType CredTypePublic || bool_decide (creds = ∅) then (inr tt, st)
        else
          match MarshalCredentials registry credType creds with
          | inl e => (inl (EWrap "failed to marshal credentials" e), st)
          | inr secretValue =>
              let secretName := CreateSecretName registry in
              match upsertSecret env secretName secretValue st with
              | (inl e, st) => (inl e, st)
              | (inr _, st) =>
                  match se_associate env with
                  | Some e => (inl (EWrap "failed to associate secret with image" e), st)
                  | None => (inr tt, mkSecretStore (st_secrets st) (<[imageId := secretName]> (st_images st)))
                  end
              end
          end
    end.

(** ** A build *)

(** The messages for an image that exists already. *)
Definition already_exists (imageId : string) : list OutputMsg :=
  let nl := String (Ascii.ascii_of_nat 10) "" in
  [ mkOutputMsg ("Image already exists" +:+ nl) false true false false imageId "";
    mkOutputMsg ("Build completed successfully" +:+ nl) true true false false imageId "" ].

(** The options of the build goroutine: those of the verification with the credentials of
    the request. *)
Definition build_options (creds : gmap string string) (opts : BuildOpts) : gerr + BuildOpts :=
  let opts := set_existing (o_ExistingImageUri opts) creds (ic_ClipVersion cfg) opts in
  if negb (String.eqb (o_ExistingImageUri opts) "") && negb (bool_decide (creds = ∅)) then
    match GetRegistryTokenForImage (o_ExistingImageUri opts) creds with
    | inl e => inl e
    | inr baseImageCreds => inr (set_base_creds baseImageCreds opts)
    end
  else inr opts.

(** The verification request of a build request, which has no image id. *)
Definition verify_request (in_ : VerifyImageBuildRequest) : VerifyImageBuildRequest :=
  mkVerifyRequest (vr_PythonVersion in_) (vr_PythonPackages in_) (vr_Commands in_) (vr_ExistingImageUri in_)
    (vr_BuildSteps in_) (vr_EnvVars in_) (vr_Dockerfile in_) (vr_BuildCtxObject in_) (vr_Secrets in_)
    (vr_Gpu in_) (vr_IgnorePython in_) None.

(** [BuildImage]; [None] while it waits for a message that ends its reading.  The result has
    the messages for the user (the lines of the container's log apart) and the secrets. *)
Definition BuildImage (now : Z) (uuid8 : string) (env : build_env) (senv : secret_env)
    (in_ : VerifyImageBuildRequest) (creds : gmap string string) (st : secret_store)
    : prog (option (gerr + string) * secret_store * list OutputMsg) :=
  match verifyImage (verify_request in_) with
  | inl e => Ret (Some (inl e), st, [])
  | inr (imageId, true, _, _) => Ret (Some (inr imageId), st, already_exists imageId)
  | inr (_, false, _, None) => Ret (Some (inl (EPanic "nil pointer dereference")), st, [])
  | inr (_, false, _, Some opts) =>
      match build_options creds opts with
      | inl e => Ret (Some (inl e), st, [])
      | inr opts =>
          match new_build uuid8 opts with
          | inl _ => Ret (None, st, [])
          | inr b =>
              r <~ Build cfg env workspace now b ;;
              let b := r.2 in
              match last_message env (b_out b) with
              | None => Ret (None, st, b_out b)
              | Some m =>
                  if negb (om_Success m) then Ret (Some (inl (EMsg "build failed")), st, b_out b)
                  else
                    match CreateImage (om_ImageId m) (ic_ClipVersion cfg) with
                    | inl _ => Ret (Some (inl (EMsg "failed to create image record")), st, b_out b)
                    | inr _ =>
                        let st := (createCredentialSecretIfNeeded senv (om_ImageId m) (b_opts b) st).2 in
                        Ret (Some (inr (om_ImageId m)), st, b_out b)
                    end
              end
          end
      end
  end.

(** ** Build containers *)

(** One key event of [monitorImageContainers]; [now] is [time.Now().Unix()]. *)
Definition KeyOperationExpired : string := "expired".
Definition monitor_event (now : Z) (event : KeyEvent) : prog unit :=
  let stop key :=
    Stop now (mkStopContainerArgs (TrimPrefix (TrimKeyspacePrefix (ke_Key event)) key) true "TTL") ;~ Ret tt in
  if String.eqb (ke_Operation event) KeyOperationSet then
    if Contains (ke_Key event) (SchedulerContainerState "") then
      let containerId := TrimPrefix (TrimKeyspacePrefix (ke_Key event)) (SchedulerContainerState "") in
      has_ttl <~ HasBuildContainerTTL containerId ;;
      if has_ttl : bool then Ret tt else stop (SchedulerContainerState "")
    else Ret tt
  else if String.eqb (ke_Operation event) KeyOperationExpired then
    if Contains (ke_Key event) (ImageBuildContainerTTL "") then stop (ImageBuildContainerTTL "") else Ret tt
  else Ret tt.
End service.
