(* ===== verification/ImageBuildProps.v ===== *)
(** * Properties of image builds

    The image a build reports is the one that was verified; a command that fails leaves
    the build blocked; a cancelled build leaves its container's state behind. *)

From S2P Require Import Prelude GoStd Redis Keys Types Codec Lock Env WorkerRepo ContainerRepo ContainerSpec PoolManager Scheduler Samples TaskRepo EventBus ImageRef Registry ImageOptions ImageProps ImageBuild ImageService.

Local Open Scope Z_scope.
Local Open Scope build_scope.

Section props.
Context {JSON : JsonRequests} {BR : BackendRepository} {ECR : EcrService} {EC : EventCodec} {BH : BuildHost}.
Context {IB : ImageBackend} {JC : JsonCreds}.
Context (cfg : image_config) (env : build_env) (workspace : Workspace).

(** ** The image of a build *)

(** Before the end of a build: nothing is reported as a success, and what was archived
    is the image [id]. *)
Record building (id : string) (b : build) : Prop := {
  bu_image : b_imageID b = id;
  bu_running : b_success b = false;
  bu_archived : Forall (eq id) (b_archived b);
  bu_out : Forall (λ m, om_Success m = false) (b_out b);
}.

Definition keeps {A} (id : string) (p : BM A) : Prop :=
  forall b d L, building id b -> wp (p b) (λ r _ _, building id r.2) d L.

Lemma keeps_ret {A} id (a : A) : keeps id (bret a).
Proof. intros b d L Hb. exact Hb. Qed.
Lemma keeps_bind {A B} id (p : BM A) (f : A -> BM B) :
  keeps id p -> (forall a, keeps id (f a)) -> keeps id (bbind p f).
Proof.
  intros Hp Hf b d L Hb. apply wp_pbind. eapply wp_mono; [|by apply Hp].
  intros [[a|] b'] d' L' Hb'; [by apply Hf|exact Hb'].
Qed.
Lemma keeps_get id : keeps id bget.
Proof. intros b d L Hb. exact Hb. Qed.
Lemma keeps_mod id f : (forall b, building id b -> building id (f b)) -> keeps id (bmod f).
Proof. intros Hf b d L Hb. by apply wp_Ret, Hf. Qed.
Lemma keeps_redis {A} id (p : prog A) : keeps id (bredis p).
Proof.
  intros b d L Hb. apply wp_pbind. eapply wp_mono; [|apply wp_any]. intros r d' L' _. by apply wp_Ret.
Qed.
Lemma keeps_send id m : om_Success m = false -> keeps id (send env m).
Proof.
  intros Hm b d L Hb. unfold send. case_match; apply wp_Ret; [done|]. destruct Hb as [? ? ? ?].
  split; simpl; [done..|]. apply Forall_app. by repeat constructor.
Qed.

(** A message of [b.log], whose success flag is that of the build. *)
Lemma keeps_log id done msg : keeps id (log env done msg).
Proof.
  intros b d L Hb. apply (keeps_send id (mkOutputMsg msg done (b_success b) false false "" "")); [|done].
  by destruct Hb.
Qed.
Lemma keeps_warning id msg : keeps id (logWarning env msg).
Proof.
  intros b d L Hb. apply (keeps_send id (mkOutputMsg msg false (b_success b) false true "" "")); [|done].
  by destruct Hb.
Qed.

Ltac keep :=
  repeat first
    [ progress intros | apply keeps_ret | apply keeps_get | apply keeps_redis | apply keeps_log
    | apply keeps_warning | apply keeps_send; reflexivity | apply keeps_bind
    | apply keeps_mod; intros ? []; by split | case_match ].

Lemma keeps_Exec id c : keeps id (Exec env c).
Proof. unfold Exec. keep. Qed.
Lemma keeps_add_steps id venv : keeps id (add_steps venv).
Proof. unfold add_steps. keep. Qed.
Lemma keeps_install id v : keeps id (install_python cfg env v).
Proof. unfold install_python. keep. Qed.
Lemma keeps_prepare id : keeps id (prepareCommands cfg env).
Proof.
  unfold prepareCommands, setupPythonEnv, checkForVirtualEnv.
  repeat first [apply keeps_Exec | apply keeps_add_steps | apply keeps_install | progress keep].
Qed.
Lemma keeps_execute id cmds : keeps id (execute env cmds).
Proof.
  induction cmds as [|c cmds IH]; simpl; [keep|]. repeat first [apply IH | apply keeps_Exec | progress keep].
Qed.
Lemma keeps_stream id l : keeps id (archive_stream env l).
Proof. induction l as [|[e|resp] l IH]; simpl; repeat first [apply IH | progress keep]. Qed.

Lemma keeps_archive id : keeps id (archive env).
Proof.
  intros b d L Hb. unfold archive.
  apply (keeps_bind id (Archive env (b_imageID b))); [|intros; keep|done].
  unfold Archive. apply keeps_bind; [by apply keeps_send|]. intros _. apply keeps_bind.
  - apply keeps_mod. intros b' [? ? ? ?]. split; simpl; [done..| |done]. apply Forall_app.
    split; [done|]. apply Forall_singleton. by destruct Hb.
  - intros _. case_match; [keep|apply keeps_stream].
Qed.

Lemma keeps_initialize id : keeps id (initializeBuildConfiguration cfg env).
Proof. unfold initializeBuildConfiguration, handleCustomBaseImage. keep. Qed.
Lemma keeps_start id now : keeps id (startBuildContainer cfg env workspace now).
Proof.
  unfold startBuildContainer, connectToHost. apply keeps_bind; [apply keeps_initialize|]. keep.
Qed.
Lemma keeps_polls id polls : keeps id (wait_polls cfg env polls).
Proof. induction polls as [|[|r|] polls IH]; simpl; repeat first [apply IH | progress keep]. Qed.
Lemma keeps_wait id : keeps id (waitForBuildContainer cfg env).
Proof. unfold waitForBuildContainer. repeat first [apply keeps_polls | progress keep]. Qed.
Lemma keeps_v1 id : keeps id (build_v1 cfg env).
Proof.
  apply keeps_bind; [apply keeps_prepare|]. intros [e|[]]; [apply keeps_ret|].
  apply keeps_bind; [apply keeps_bind; [apply keeps_get|intros; apply keeps_execute]|].
  intros [e|[]]; [apply keeps_ret|apply keeps_archive].
Qed.

(** A build that ended: its archives and its successes are of the image [id]. *)
Record built (id : string) (b : build) : Prop := {
  bt_archived : Forall (eq id) (b_archived b);
  bt_out : Forall (λ m, om_Success m = true -> om_ImageId m = id) (b_out b);
}.

Lemma building_built id b : building id b -> built id b.
Proof. intros [? ? ? Ho]. split; [done|]. eapply Forall_impl; [exact Ho|]. simpl. congruence. Qed.

Definition makes {A} (id : string) (p : BM A) : Prop :=
  forall b d L, building id b -> wp (p b) (λ r _ _, built id r.2) d L.

Lemma makes_keeps {A} id (p : BM A) : keeps id p -> makes id p.
Proof. intros Hp b d L Hb. eapply wp_mono; [|by apply Hp]. intros. by apply building_built. Qed.
Lemma makes_bind {A B} id (p : BM A) (f : A -> BM B) :
  keeps id p -> (forall a, makes id (f a)) -> makes id (bbind p f).
Proof.
  intros Hp Hf b d L Hb. apply wp_pbind. eapply wp_mono; [|by apply Hp].
  intros [[a|] b'] d' L' Hb'; [by apply Hf|by apply building_built].
Qed.

Lemma run_bind {A B} (p : BM A) (f : A -> BM B) b a b' :
  p b = Ret (Some a, b') -> bbind p f b = f a b'.
Proof. unfold bbind. by intros ->. Qed.
Lemma run_stuck {A B} (p : BM A) (f : A -> BM B) b b' :
  p b = Ret (None, b') -> bbind p f b = Ret (None, b').
Proof. unfold bbind. by intros ->. Qed.

Lemma send_open m b : last_message env (b_out b) = None ->
  send env m b = Ret (Some tt, set_b_out (b_out b ++ [m])%list b).
Proof. unfold send. by intros ->. Qed.
Lemma send_closed m m' b : last_message env (b_out b) = Some m' -> send env m b = Ret (None, b).
Proof. unfold send. by intros ->. Qed.

(** The last message of a successful build. *)
Lemma makes_success id :
  makes id (run! bmod (set_b_success true);
            run! logWithImageAndPythonVersion env true "Build completed successfully";
            bret (Some (@inr gerr unit tt))).
Proof.
  intros b d L [Hi Hs Ha Ho]. erewrite run_bind by reflexivity.
  set (m := mkOutputMsg "Build completed successfully" true true true false (b_imageID b)
              (o_PythonVersion (b_opts b))).
  assert (Forall (λ m, om_Success m = true -> om_ImageId m = id) (b_out b)) as Ho'
    by (eapply Forall_impl; [exact Ho|]; simpl; congruence).
  destruct (last_message env (b_out b)) as [m'|] eqn:E.
  - erewrite run_stuck by (exact (send_closed m m' (set_b_success true b) E)). by apply wp_Ret.
  - erewrite run_bind by (exact (send_open m (set_b_success true b) E)). apply wp_Ret.
    split; simpl; [done|]. apply Forall_app. split; [done|]. by apply Forall_singleton.
Qed.

Lemma makes_body id now : makes id (build_body cfg env workspace now).
Proof.
  apply makes_bind; [apply keeps_start|]. intros [e|[]]; [apply makes_keeps; keep|].
  apply makes_bind; [apply keeps_wait|]. intros [[e|[]]|]; [apply makes_keeps, keeps_ret| |apply makes_keeps, keeps_ret].
  apply makes_bind; [case_match; [apply keeps_ret|apply keeps_v1]|].
  intros [e|[]]; [apply makes_keeps, keeps_ret|apply makes_success].
Qed.

Lemma makes_Build id now : makes id (Build cfg env workspace now).
Proof.
  intros b d L Hb. apply wp_pbind. eapply wp_mono; [|by apply makes_body].
  intros [[[r|]|] b'] d' L' [Ha Ho]; [|by apply wp_Ret..]. unfold killContainer.
  destruct (b_client b') eqn:E.
  - erewrite run_bind; [|erewrite run_bind by reflexivity; rewrite E; reflexivity]. by apply wp_Ret.
  - erewrite run_bind; [|erewrite run_bind by reflexivity; rewrite E; reflexivity]. by apply wp_Ret.
Qed.

(** ** The identity of a build *)

Lemma add_requirements_clip o o' : add_requirements o = inr o' -> o_ClipVersion o' = o_ClipVersion o.
Proof.
  unfold add_requirements, addPythonRequirements. case_match; [intros [= <-]|done].
  case_match; [by simplify_eq|]. by simplify_option_eq.
Qed.

Lemma request_options_clip in_ tag secrets o :
  request_options cfg in_ tag secrets = inr o -> o_ClipVersion o = ic_ClipVersion cfg.
Proof.
  unfold request_options. destruct (String.eqb (vr_ExistingImageUri in_) "").
  - case_match; [by intros [= <-]|]. by intros ->%add_requirements_clip.
  - destruct (ExtractImageNameAndTag _) as [|i]; [done|]. case_match; [by intros [= <-]|].
    by intros ->%add_requirements_clip.
Qed.

Lemma render_clip o o' : render_dockerfile cfg o = inr o' -> o_ClipVersion o' = o_ClipVersion o.
Proof. unfold render_dockerfile. repeat case_match; intros; by simplify_eq. Qed.

Lemma verify_options_clip in_ o : verify_options cfg in_ = inr o -> o_ClipVersion o = ic_ClipVersion cfg.
Proof.
  unfold verify_options. destruct (ic_Tags cfg !! _) as [tag|]; [|done].
  destruct (retrieveBuildSecrets _) as [|secrets]; [done|].
  destruct (request_options cfg in_ tag secrets) as [|o1] eqn:E; [done|]. intros H.
  by rewrite (render_clip _ _ H), (request_options_clip _ _ _ _ E).
Qed.

Lemma verified in_ id e v o : verifyImage cfg in_ = inr (id, e, v, Some o) ->
  verify_options cfg in_ = inr o /\ id = (identify o).1.
Proof. unfold verifyImage. repeat case_match; intros; by simplify_eq. Qed.

(** The credentials of a request do not change the identity. *)
Lemma build_options_id creds o o' : o_ClipVersion o = ic_ClipVersion cfg ->
  build_options cfg creds o = inr o' -> getImageID o' = getImageID o.
Proof.
  intros Hc. unfold build_options. case_match; [case_match; [done|]|]; intros [= <-];
    unfold getImageID; simpl; by rewrite Hc.
Qed.

Lemma secret_images senv id o st id' : id' <> id ->
  st_images (createCredentialSecretIfNeeded senv id o st).2 !! id' = st_images st !! id'.
Proof.
  intros Hn. unfold createCredentialSecretIfNeeded, upsertSecret. repeat case_match; simplify_eq; try done.
  simpl. by rewrite lookup_insert_ne.
Qed.

Lemma stops_at_in i out m : stops_at env i out = Some m -> m = log_line \/ m ∈ out.
Proof.
  revert i. induction out as [|m' out IH]; intros i; cbn [stops_at]; (case_decide; [intros [= <-]; by left|]); [done|].
  case_match; [intros [= <-]; right; by left|]. intros [->|H']%IH; [by left|right; by right].
Qed.

(** What [BuildImage] returns: an image id is the verified one, so is that of every
    success it reported, and the secrets of other images are left alone. *)
Definition build_result (id : string) (st : secret_store)
    (r : option (gerr + string) * secret_store * list OutputMsg) : Prop :=
  (forall id', r.1.1 = Some (inr id') -> id' = id) /\
  Forall (λ m, om_Success m = true -> om_ImageId m = id) r.2 /\
  forall id', id' <> id -> st_images r.1.2 !! id' = st_images st !! id'.

Lemma wp_BuildImage now uuid8 senv in_ creds st d L :
  wp (BuildImage cfg workspace now uuid8 env senv in_ creds st) (λ r _ _,
    match verifyImage cfg (verify_request in_) with
    | inl e => r = (Some (inl e), st, [])
    | inr (id, _, _, _) => build_result id st r
    end) d L.
Proof.
  unfold BuildImage. destruct (verifyImage cfg (verify_request in_)) as [e|[[[id ex] v] o]] eqn:E; [by apply wp_Ret|].
  assert (forall r, match r with Some (inr id') => id' = id | _ => True end ->
            build_result id st (r, st, [])) as Hplain.
  { intros r Hr. split_and!; simpl; [|by constructor|done]. by intros id' ->. }
  destruct ex.
  { apply wp_Ret. split_and!; simpl; [by intros id' [= <-]| |done]. by repeat constructor. } destruct o as [o|]; [|by apply wp_Ret, Hplain].
  destruct (verified _ _ _ _ _ E) as [Ho ->]. apply verify_options_clip in Ho.
  destruct (build_options cfg creds o) as [e|o'] eqn:Eo; [by apply wp_Ret, Hplain|].
  unfold new_build. rewrite (build_options_id _ _ _ Ho Eo).
  destruct (getImageID o) as [e|id] eqn:Ei; [by apply wp_Ret, Hplain|].
  assert ((identify o).1 = id) as -> by (unfold identify; by rewrite Ei).
  apply wp_pbind. eapply wp_mono; [|apply (makes_Build id)]; [|split; simpl; by try constructor].
  intros [r b] d' L' [Ha Hout]. simpl.
  assert (forall r, match r with Some (inr id') => id' = id | _ => True end ->
            build_result id st (r, st, b_out b)) as Hend.
  { intros r' Hr. split_and!; simpl; [|done|done]. by intros id' ->. }
  destruct (last_message env (b_out b)) as [m|] eqn:Em; [|by apply wp_Ret, Hend].
  destruct (om_Success m) eqn:Es; simpl; [|by apply Hend].
  apply stops_at_in in Em as [->|Em]; [done|].
  rewrite Forall_forall in Hout. pose proof (Hout m Em Es) as ->.
  destruct (CreateImage id (ic_ClipVersion cfg)) as [e|]; [by apply Hend|].
  split_and!; simpl; [by intros id' [= <-]|by apply Forall_forall|]. intros id' Hne. by apply secret_images.
Qed.
End props.

(** ** A command that fails *)

Section commands.
Context {EC : EventCodec} {BH : BuildHost} (env : build_env).

Definition not_empty (c : string) : bool := negb (String.eqb c "").

(** The commands succeed one after the other, after the commands [ran]. *)
Fixpoint succeed (ran cmds : list string) : Prop :=
  match cmds with
  | [] => True
  | c :: cmds' =>
      if String.eqb c "" then succeed ran cmds'
      else be_exec env ran c = inr true /\ succeed (ran ++ [c])%list cmds'
  end.

Definition with_ran (l : list string) (b : build) : build :=
  mkBuild (b_opts b) (b_success b) (b_containerID b) (b_imageID b) (b_out b) (b_client b) (b_commands b)
    (b_micromamba b) (b_mounts b) l (b_archived b) (b_killed b).

Lemma Exec_run c b : Exec env c b = Ret (Some (be_exec env (b_ran b) c), add_ran c b).
Proof. reflexivity. Qed.

Lemma execute_prefix cmds rest b : succeed (b_ran b) cmds ->
  execute env (cmds ++ rest)%list b
  = execute env rest (with_ran (b_ran b ++ List.filter not_empty cmds)%list b).
Proof.
  revert b. induction cmds as [|c cmds IH]; intros b; simpl.
  { intros _. rewrite app_nil_r. by destruct b. }
  unfold not_empty at 1. destruct (String.eqb_spec c ""); simpl; [apply IH|]. intros [H1 H2].
  erewrite run_bind by apply Exec_run. rewrite H1, IH by done. simpl. by rewrite <- app_assoc.
Qed.

(** A message with [Done] ends the reading. *)
Lemma stops_at_done i out m : stops_at env i out = None -> om_Done m = true ->
  stops_at env i (out ++ [m])%list = Some m.
Proof.
  revert i. induction out as [|m' out IH]; intros i; cbn [stops_at app]; (case_decide; [done|]).
  - intros _ ->. done.
  - case_match; [done|]. apply IH.
Qed.

Lemma execute_fails cmd rest b : cmd <> "" -> be_exec env (b_ran b) cmd = inr false ->
  last_message env (b_out b) = None ->
  execute env (cmd :: rest) b
  = Ret (Some (inr tt),
         set_b_out (b_out b ++ [mkOutputMsg "" true (b_success b) false false "" ""])%list (add_ran cmd b)).
Proof.
  intros Hc He Ho. cbn [execute]. rewrite (proj2 (String.eqb_neq cmd "") Hc).
  erewrite run_bind by apply Exec_run. rewrite He.
  erewrite run_bind; [reflexivity|]. unfold log. erewrite run_bind by reflexivity. exact (send_open env _ (add_ran cmd b) Ho).
Qed.

(** A command that ran and failed blocks a version 1 build for ever.  When the commands
    before it succeed and it exits with an error of its own, [executeCommands] returns the
    error of the call, which is nil: the service is told that the build is over and stops
    reading, the build goes on to archive the image and blocks on its next message.  It
    never archives anything, and the deferred [killContainer] never runs. *)
Theorem failed_command_blocks cmds cmd rest b :
  b_commands b = (cmds ++ cmd :: rest)%list -> cmd <> "" -> succeed (b_ran b) cmds ->
  be_exec env (b_ran b ++ List.filter not_empty cmds)%list cmd = inr false ->
  last_message env (b_out b) = None ->
  exists b', (let! r ← run_commands env; run! killContainer; bret r) b = Ret (None, b') /\
    b_out b' = (b_out b ++ [mkOutputMsg "" true (b_success b) false false "" ""])%list /\
    b_archived b' = b_archived b /\ b_killed b' = b_killed b.
Proof using Type.
  intros Hb Hc Hs He Ho. eexists. split.
  - apply run_stuck. unfold run_commands, executeCommands. erewrite run_bind.
    2: { erewrite run_bind by reflexivity. rewrite Hb, execute_prefix by done. by apply execute_fails. }
    unfold archive. erewrite run_bind by reflexivity. apply run_stuck. unfold Archive. eapply run_stuck, send_closed, stops_at_done; [exact Ho|done].
  - done.
Qed.
End commands.

(** ** A build that is cancelled *)

Lemma touches_Send {EC : EventCodec} event :
  touches (match serialize event with inr data => {[event_key (event_hash data)]} | inl _ => ∅ end) (Send event).
Proof.
  unfold Send. destruct (serialize event) as [e|data]; [apply touches_ret|]. unfold SetEx. touches.
Qed.

(** On a reliable server a status update keeps the state for the given time. *)
Lemma rwp_status_ttl now id e h d L :
  kv d !! SchedulerContainerLock id = None -> as_hash (kv d !! SchedulerContainerState id) = Some h ->
  0 < wrap_i64 (e * second) ->
  rwp (UpdateContainerStatus now id ContainerStatusStopping e) (λ r d' _,
    (r = inr tt /\ ttl d' !! SchedulerContainerState id = Some (wrap_i64 (e * second)) /\
     is_Some (kv d' !! SchedulerContainerState id)) /\ kv d' !! SchedulerContainerLock id = None) d L.
Proof.
  intros Hl Hh He. unfold UpdateContainerStatus. cbn [String.eqb orb].
  apply (rwp_with_lock _ _ _ _ _ {[SchedulerContainerState id]} (λ r d', r = inr tt /\
     ttl d' !! SchedulerContainerState id = Some (wrap_i64 (e * second)) /\
     is_Some (kv d' !! SchedulerContainerState id))); [done|key_not_in| |].
  { intros r d1 d2 Heq (-> & Ht & Hk). destruct (Heq (SchedulerContainerState id)) as [-> ->]; [key_not_in|done]. }
  intros d1 L1 Heq. apply rwp_touches; [touches|].
  assert (as_hash (kv d1 !! SchedulerContainerState id) = Some h) as Hh1.
  { by rewrite (eq_except_kv _ _ _ _ Heq) by key_not_in. }
  wp_bind. wp_call; [|destruct H as [_ H]; exfalso; by eapply (H h)]. destruct H as [_ ->].
  wp_bind. wp_call; [|destruct H as [_ H]; exfalso; eapply (H tt); exists h; done].
  destruct H as (h' & _ & _ & ->).
  wp_bind. wp_call; [|destruct H as [_ H]; exfalso; by eapply (H tt)].
  apply wp_Ret. rewrite H. unfold exists_kv, set_kv. cbn [kv].
  rewrite lookup_insert_eq, bool_decide_true by eauto.
  destruct (Z.leb_spec (wrap_i64 (e * second)) 0); [lia|]. cbn [kv ttl]. rewrite !lookup_insert_eq. eauto.
Qed.

(** A build that fails or is cancelled leaves the state of its container behind:
    [handleBuildCancellation], which runs at the end of every request whose build did not
    succeed, passes the present Unix time as the number of seconds the state is kept.
    On a reliable server the state exists afterwards and expires after as many seconds as
    have passed since 1970, not after the seconds [Scheduler.Stop] gives a stopping
    container. *)
Theorem cancelled_build_kept {EC : EventCodec} {S : RedisServer} {SL : RedisLaws S} I now b h (s : srv) L :
  reliable I -> I s -> 0 < now < 2 ^ 33 -> b_success b = false ->
  kv (view s) !! SchedulerContainerLock (b_containerID b) = None ->
  as_hash (kv (view s) !! SchedulerContainerState (b_containerID b)) = Some h ->
  ends (handleBuildCancellation now b) s L (λ _ d',
    is_Some (kv d' !! SchedulerContainerState (b_containerID b)) /\
    ttl d' !! SchedulerContainerState (b_containerID b) = Some (now * second)).
Proof.
  intros HR HI Hn Hs Hl Hh. apply (ends_rwp I); [done..|]. unfold handleBuildCancellation. rewrite Hs.
  apply wp_pbind. eapply wp_mono; [|apply (rwp_wp (stopBuild _)), touches_Send].
  intros r d1 L1 [Heq ->]. apply wp_pbind.
  assert (forall k, (forall x, k <> event_key x) -> kv d1 !! k = kv (view s) !! k) as Hk.
  { intros k Hne. apply (eq_except_kv _ _ _ _ Heq). destruct (serialize _); set_solver. }
  assert (wrap_i64 (now * second) = now * second) as E by (apply wrap_i_id; unfold in_i, second; lia).
  eapply wp_mono; [|apply (rwp_status_ttl now (b_containerID b) now h)].
  - intros r' d2 L2 [(_ & Ht & Hk2) _]. apply wp_Ret. by rewrite Ht, E.
  - rewrite Hk; [done|]. intros x. key_ne.
  - rewrite Hk; [done|]. intros x. key_ne.
  - unfold second in *. lia.
Qed.

(** ** The image that was verified *)

(** C21. The image that a build reports is the one that the verification of the same request
    announces, on any lawful server and whatever the build container answers and whichever messages the user
    no longer receives: when the
    verification fails, so does [BuildImage] with the same error; otherwise the id it
    returns, the id of every success it reported to the user and the only image whose
    secret it may have set are the announced one, although the credentials are added to
    the options only after the verification and the identity is computed again. *)
Theorem built_image_is_verified {JSON : JsonRequests} {BR : BackendRepository} {ECR : EcrService}
    {EC : EventCodec} {BH : BuildHost} {IB : ImageBackend} {JC : JsonCreds} {S : RedisServer} {SL : RedisLaws S}
    cfg env workspace now uuid8 senv in_ creds st (s : srv) L :
  ends (BuildImage cfg workspace now uuid8 env senv in_ creds st) s L (λ r _,
    match VerifyImageBuild cfg (verify_request in_) with
    | inl e => r = (Some (inl e), st, [])
    | inr (id, _, _) => build_result id st r
    end).
Proof.
  apply ends_wp. eapply wp_mono; [|apply wp_BuildImage]. intros r d' L'. unfold VerifyImageBuild.
  by destruct (verifyImage cfg (verify_request in_)) as [|[[[]]]].
Qed.

(** ** Concrete builds *)

Definition ex_build_host : BuildHost := {|
  GOARCH := "amd64"; GOOS := "linux";
  render_template _ p := inr ("install " +:+ pt_PythonVersion p);
  hash_dockerfile d _ _ := inr (Z.of_nat (String.length d));
  hash_options i := inr (Z.of_nat (length (hi_Commands i)));
|}.
Definition ex_image_backend : ImageBackend := {|
  registry_Exists _ := inr false;
  GetImageClipVersion _ := inl ESqlNoRows;
  GetSecretsByNameDecrypted _ := inr [];
  CreateImage _ _ := inr tt;
|}.
Definition ex_creds_json : JsonCreds := {|
  marshal_secret _ _ _ := inr "{}";
  unmarshal_object _ := inl (EMsg "invalid character");
  unmarshal_flat _ := inl (EMsg "invalid character");
|}.
Definition ex_ecr : EcrService := {| ecr_token _ _ _ _ := inr None |}.
Definition ex_image_config : image_config :=
  mkImageConfig 2 "python3.10" "beta9-runner" "registry.localhost:5000" {[ "python3.10" := "py310" ]}
    {[ "python3.10" := "3.10.15" ]} "" "" "" 1000 1024 "build" 1.
Definition ex_image_request : VerifyImageBuildRequest :=
  mkVerifyRequest "python3" ["numpy"] ["apt update"] "" [mkBuildStep "pandas" "pip"] [] "" "" None "" false None.
(** A machine whose build container was given an address and exited with 0. *)
Definition ex_build_env : build_env :=
  mkBuildEnv (λ _ c, inr (negb (String.eqb c "false"))) (inr []) 1 false (inr tt) [PTick (inr false)] (λ _ _, inr []) (λ _, Delivered).
Definition ex_build_db : rdb :=
  mkRdb {[ SchedulerWorkerAddress "build-12345678" := RVStr "10.0.0.7:1994";
           SchedulerContainerExitCode "build-12345678" := RVStr "0" ]} ∅.
Definition ex_build_backend : BackendRepository := {|
  GetLatestCheckpointByStubId _ := inr None;
  backend_GetConcurrencyLimitByWorkspaceId _ := inl ESqlNoRows;
  GetImageCredentialSecret _ := inl ESqlNoRows;
  GetSecretByNameDecrypted _ _ := inl ESqlNoRows;
|}.

Lemma built_image_is_verified_witness :
  let p := BuildImage (JSON := bits_json) (BR := ex_build_backend) (ECR := ex_ecr) (EC := stop_codec)
             (BH := ex_build_host) (IB := ex_image_backend) (JC := ex_creds_json) ex_image_config zeroWorkspace
             100 "12345678" ex_build_env (mkSecretEnv None None None) ex_image_request ∅ (mkSecretStore ∅ ∅) in
  VerifyImageBuild (BH := ex_build_host) (IB := ex_image_backend) ex_image_config
    (verify_request ex_image_request) = inr ("000000000000008c", false, true) /\
  (run (S := ref_server) p (on ex_build_db) ∅).1.1.1.1 = Some (inr "000000000000008c") /\
  ends (S := ref_server) p (on ex_build_db) ∅
    (λ r _, build_result "000000000000008c" (mkSecretStore ∅ ∅) r).
Proof.
  intros p.
  assert (VerifyImageBuild (BH := ex_build_host) (IB := ex_image_backend) ex_image_config
    (verify_request ex_image_request) = inr ("000000000000008c", false, true)) as E by (vm_compute; reflexivity).
  split; [exact E|]. split; [vm_compute; reflexivity|].
  pose proof (built_image_is_verified (JSON := bits_json) (BR := ex_build_backend) (ECR := ex_ecr)
    (EC := stop_codec) (BH := ex_build_host) (IB := ex_image_backend) (JC := ex_creds_json) (S := ref_server)
    ex_image_config ex_build_env zeroWorkspace 100 "12345678" (mkSecretEnv None None None) ex_image_request ∅
    (mkSecretStore ∅ ∅) (on ex_build_db) ∅) as H.
  rewrite E in H. exact H.
Defined.

Definition ex_build (commands : list string) : build :=
  mkBuild (mkBuildOpts "" "" "" "" "" "" ∅ "" "" "python3" [] [] [] false [] [] "" false 1) false "build-1" "img"
    [] true commands false [] [] [] false.

Lemma failed_command_blocks_witness :
  let b := ex_build ["true"; ""; "false"; "true"] in
  exists b', (let! r ← run_commands ex_build_env; run! killContainer; bret r) b = Ret (None, b') /\
    b_out b' = [mkOutputMsg "" true false false false "" ""] /\ b_archived b' = [] /\ b_killed b' = false.
Proof.
  exact (failed_command_blocks ex_build_env ["true"; ""] "false" ["true"] (ex_build ["true"; ""; "false"; "true"])
           eq_refl ltac:(discriminate) (conj eq_refl I) eq_refl eq_refl).
Defined.

Lemma cancelled_build_kept_witness :
  let b := ex_build [] in
  ends (S := ref_server) (handleBuildCancellation (EC := stop_codec) 1700000000 b)
    (on (mkRdb {[ SchedulerContainerState "build-1" := RVHash ∅ ]} ∅)) ∅ (λ _ d',
    is_Some (kv d' !! SchedulerContainerState "build-1") /\
    ttl d' !! SchedulerContainerState "build-1" = Some (1700000000 * second)).
Proof.
  exact (cancelled_build_kept (EC := stop_codec) (S := ref_server) _ 1700000000 (ex_build []) ∅
           (on (mkRdb {[ SchedulerContainerState "build-1" := RVHash ∅ ]} ∅)) ∅ ref_reliable
           eq_refl (conj eq_refl eq_refl) eq_refl eq_refl eq_refl).
Defined.
