(* ===== verification/HostFs.v ===== *)
(** * Paths and mounts of the host

    The worker mounts file systems by running commands and removes directories behind
    them.  A [call] of the operating system is answered by [HostOS], whatever the calls
    before it were; what it does to the table of mounts is written out.  [h_lost] lists
    the mounts that a removal was run over: [os.RemoveAll] on a directory with a mount in
    it goes into what is mounted and deletes all of it that it can, and it does so whatever
    it answers, since an error on one entry does not keep it from the others.  A mount that
    is not in the list is one whose contents no removal has touched. *)

From S2P Require Import Prelude GoStd Redis.

Local Open Scope Z_scope.
Set Default Proof Using "Type".

(** ** path.Clean and path.Join (filepath.Join is the same on Unix) *)

Abbreviation slash := "/"%char.

(** The parts that are left, [done] in reverse. *)
Fixpoint clean_parts (rooted : bool) (parts done : list string) : list string :=
  match parts with
  | [] => reverse done
  | p :: rest =>
      if String.eqb p "" || String.eqb p "." then clean_parts rooted rest done
      else if String.eqb p ".." then
        match done with
        | [] => clean_parts rooted rest (if rooted then [] else [".."])
        | d :: done' => clean_parts rooted rest (if String.eqb d ".." then ".." :: done else done')
        end
      else clean_parts rooted rest (p :: done)
  end.

Definition Clean (path : string) : string :=
  let rooted := HasPrefix path "/" in
  let s := (if rooted then "/" else "") +:+ Join (clean_parts rooted (split_on slash path) []) "/" in
  if String.eqb s "" then "." else s.

Fixpoint path_Join (elem : list string) : string :=
  match elem with
  | [] => ""
  | "" :: rest => path_Join rest
  | _ => Clean (Join elem "/")
  end.

(** [strings.Replace(s, old, new, 1)] for a non-empty [old]. *)
Definition Replace1 (s old new : string) : string :=
  match after_first old s with Some rest => before_first old s +:+ new +:+ rest | None => s end.

(** [q] is [p] or lies below it. *)
Definition under (p q : string) : bool := String.eqb q p || HasPrefix q (p +:+ "/").

(** A name of a file in a directory. *)
Definition plain (s : string) : Prop := s <> "" /\ s <> "." /\ s <> ".." /\ no_char slash s = true.
#[export] Instance plain_dec s : Decision (plain s).
Proof. unfold plain. apply _. Defined.

(** An absolute path in its shortest form, given by its parts. *)
Definition abs_path (parts : list string) : string := "/" +:+ Join parts "/".

(** ** The operating system *)

Inductive call :=
| CMkdirAll (path : string)
| CStat (path : string)
| CMount (args : list string) (path : string)
| CAwait (path : string)                         (* isMounted before the timeout *)
| CUmount (args : list string) (path : string)
| CRemoveAll (path : string)
| CExec (args : list string)
| CHttp (method url : string) (body : list (string * string)).

Record host := mkHost {
  h_mounts : list string;                        (* newest first *)
  h_lost : list string;
  h_log : list call;
}.

(** The text of the error and the output of a call that fails, the status of an HTTP
    request. *)
Class HostOS := {
  sys : host -> call -> option (string * string);
  http_status : host -> call -> Z;
}.

Fixpoint remove_first (p : string) (l : list string) : list string :=
  match l with
  | [] => []
  | q :: l' => if String.eqb q p then l' else q :: remove_first p l'
  end.

(** A mount or unmount that fails leaves the table as it is; a removal that fails has still
    gone through the mounts in its directory, so [h_lost] has them in either case. *)
Definition effect (c : call) (failed : bool) (h : host) : host :=
  let log := (c :: h_log h)%list in
  match c with
  | CMount _ p => mkHost (if failed then h_mounts h else p :: h_mounts h)%list (h_lost h) log
  | CUmount _ p => mkHost (if failed then h_mounts h else remove_first p (h_mounts h)) (h_lost h) log
  | CRemoveAll p => mkHost (h_mounts h) (h_lost h ++ List.filter (under p) (h_mounts h))%list log
  | _ => mkHost (h_mounts h) (h_lost h) log
  end.

(** A program on the host; [None] when the worker process ends. *)
Definition HM (A : Type) : Type := host -> option A * host.

Definition hret {A} (a : A) : HM A := λ h, (Some a, h).
Definition hexit {A} : HM A := λ h, (None, h).
Definition hbind {A B} (p : HM A) (f : A -> HM B) : HM B :=
  λ h, match p h with (None, h') => (None, h') | (Some a, h') => f a h' end.

Declare Scope host_scope.
Delimit Scope host_scope with host.
Notation "'do!' x ← p ; q" := (hbind p (λ x, q))
  (at level 10, x name, p at level 99, q at level 200) : host_scope.
Notation "'seq!' p ; q" := (hbind p (λ _, q))
  (at level 10, p at level 99, q at level 200) : host_scope.

Section host.
Context {OS : HostOS}.

Definition invoke (c : call) : HM (option (string * string)) :=
  λ h, let r := sys h c in (Some r, effect c (bool_decide (is_Some r)) h).
Definition http_request (c : call) : HM (gerr + Z) :=
  λ h, (Some match sys h c with
             | Some (e, _) => inl (EMsg e)
             | None => inr (http_status h c)
             end, effect c false h).

(** The error of a call as a Go error. *)
Definition go_error (r : option (string * string)) : option gerr :=
  match r with Some (e, _) => Some (EMsg e) | None => None end.
End host.

(** ** Facts *)

Lemma under_refl p : under p p = true.
Proof. unfold under. by rewrite String.eqb_refl. Qed.

Lemma under_spec p q : under p q = true <-> q = p \/ exists r, q = p +:+ "/" +:+ r.
Proof.
  unfold under. rewrite orb_true_iff, String.eqb_eq, HasPrefix_spec.
  split; (intros [H|[r H]]; [by left|right; exists r]).
  - by rewrite H, str_app_assoc.
  - by rewrite H, str_app_assoc.
Qed.

Lemma remove_first_head p l : remove_first p (p :: l) = l.
Proof. simpl. by rewrite String.eqb_refl. Qed.

Lemma remove_first_absent p l : p ∉ l -> remove_first p l = l.
Proof.
  induction l as [|q l IH]; simpl; [done|]. intros H.
  apply not_elem_of_cons in H as [H1 H2].
  destruct (String.eqb_spec q p) as [->|]; [done|]. by rewrite IH.
Qed.

Lemma remove_first_subset p q l : q ∈ remove_first p l -> q ∈ l.
Proof.
  induction l as [|a l IH]; simpl; [done|].
  destruct (String.eqb a p); set_solver.
Qed.

Lemma remove_first_other p q l : q <> p -> q ∈ l -> q ∈ remove_first p l.
Proof.
  intros Hq. induction l as [|a l IH]; simpl; [done|].
  destruct (String.eqb_spec a p) as [->|]; set_solver.
Qed.

Lemma remove_first_NoDup p l : NoDup l -> NoDup (remove_first p l) /\ p ∉ remove_first p l.
Proof.
  induction l as [|q l IH]; simpl; intros Hn; [by split; [constructor|set_solver]|].
  apply NoDup_cons in Hn as [Hq Hn]. destruct (String.eqb_spec q p) as [->|Hne]; [done|].
  destruct (IH Hn) as [H1 H2]. split; [|set_solver].
  apply NoDup_cons. split; [|done]. intros Hin. by apply Hq, (remove_first_subset p).
Qed.

Lemma filter_under_none p l :
  Forall (λ q, under p q = false) l -> List.filter (under p) l = [].
Proof. induction 1 as [|q l H HF IH]; simpl; [done|]. by rewrite H. Qed.

(** ** Paths by their parts *)

Lemma no_slash_int z : no_char slash (fmt_int z) = true.
Proof.
  assert (Hu : forall u, no_char slash (DecimalString.NilEmpty.string_of_uint u) = true).
  { induction u; simpl; done. }
  unfold fmt_int. destruct (Z.to_int z) as [u|u]; destruct u; simpl; try done; apply Hu.
Qed.

Lemma Join_cons p l sep : l <> [] -> Join (p :: l) sep = p +:+ sep +:+ Join l sep.
Proof. by destruct l. Qed.

Lemma Join_app a b sep : a <> [] -> b <> [] -> Join (a ++ b) sep = Join a sep +:+ sep +:+ Join b sep.
Proof.
  intros Ha Hb. induction a as [|p a IH]; [done|].
  destruct a as [|p' a]; [exact (Join_cons p b sep Hb)|].
  change ((p :: p' :: a) ++ b)%list with (p :: ((p' :: a) ++ b))%list.
  rewrite (Join_cons p ((p' :: a) ++ b)) by done. rewrite IH by done.
  rewrite (Join_cons p (p' :: a)) by done. by rewrite !str_app_assoc.
Qed.

Lemma split_on_Join l :
  l <> [] -> Forall (λ p, no_char slash p = true) l -> split_on slash (Join l "/") = l.
Proof.
  intros Hne HF. induction HF as [|p l Hp HF IH]; [done|].
  destruct l as [|p' l]; [by apply split_on_single|].
  rewrite Join_cons by done.
  change ("/" +:+ Join (p' :: l) "/") with (String slash (Join (p' :: l) "/")).
  rewrite split_on_sep by done. f_equal. by apply IH.
Qed.

Lemma split_on_app c a b : split_on c (a +:+ String c b) = (split_on c a ++ split_on c b)%list.
Proof.
  induction a as [|x a IH]; simpl; [by rewrite Ascii.eqb_refl|].
  destruct (Ascii.eqb x c); simpl; [by rewrite IH|].
  rewrite IH. destruct (split_on c a) eqn:E; [by destruct (split_on_nonempty c a)|done].
Qed.

Lemma abs_path_split l :
  l <> [] -> Forall plain l -> split_on slash (abs_path l) = "" :: l.
Proof.
  intros Hne HF. unfold abs_path. simpl. f_equal. apply split_on_Join; [done|].
  eapply Forall_impl; [exact HF|]. by intros p (_ & _ & _ & H).
Qed.

Lemma abs_path_inj a b :
  a <> [] -> b <> [] -> Forall plain a -> Forall plain b -> abs_path a = abs_path b -> a = b.
Proof.
  intros Ha Hb HFa HFb H. apply (f_equal (split_on slash)) in H.
  rewrite !abs_path_split in H by done. by simplify_eq.
Qed.

Lemma clean_parts_plain l : forall done, Forall plain l -> clean_parts true l done = (reverse done ++ l)%list.
Proof.
  induction l as [|p l IH]; intros done HF; simpl; [by rewrite app_nil_r|].
  apply Forall_cons in HF as [(H1 & H2 & H3 & _) HF].
  rewrite (proj2 (String.eqb_neq p "") H1), (proj2 (String.eqb_neq p ".") H2),
    (proj2 (String.eqb_neq p "..") H3); simpl.
  rewrite IH by done. by rewrite reverse_cons, <- app_assoc.
Qed.

Lemma Clean_abs l : l <> [] -> Forall plain l -> Clean (abs_path l) = abs_path l.
Proof.
  intros Hne HF. unfold Clean. rewrite abs_path_split by done.
  replace (HasPrefix (abs_path l) "/") with true by (symmetry; apply HasPrefix_spec; by eexists).
  simpl clean_parts. by rewrite clean_parts_plain.
Qed.

(** Joining an absolute path in its shortest form with names appends them. *)
Lemma path_Join_abs base l :
  base <> [] -> Forall plain base -> Forall plain l -> l <> [] ->
  path_Join (abs_path base :: l) = abs_path (base ++ l).
Proof.
  intros Hb HFb HFl Hl.
  change (path_Join (abs_path base :: l)) with (Clean (Join (abs_path base :: l) "/")).
  rewrite Join_cons by done. unfold abs_path at 1. rewrite str_app_assoc.
  rewrite <- Join_app by done. change ("/" +:+ Join (base ++ l) "/") with (abs_path (base ++ l)).
  apply Clean_abs; [by destruct base|]. by apply Forall_app.
Qed.

Lemma under_prefix a b :
  a <> [] -> b <> [] -> Forall plain a -> Forall plain b ->
  under (abs_path a) (abs_path b) = true -> a `prefix_of` b.
Proof.
  intros Ha Hb HFa HFb [H|[r H]]%under_spec.
  - exists []. rewrite app_nil_r. by apply (abs_path_inj b a).
  - apply (f_equal (split_on slash)) in H.
    change (abs_path a +:+ "/" +:+ r) with (abs_path a +:+ String slash r) in H.
    rewrite split_on_app, !abs_path_split in H by done. simpl in H.
    exists (split_on slash r). by simplify_eq.
Qed.

Lemma under_trans p q r : under p q = true -> under q r = true -> under p r = true.
Proof.
  rewrite !under_spec. intros [->|[a ->]] [->|[b ->]]; eauto.
  right. exists (a +:+ "/" +:+ b). by rewrite !str_app_assoc.
Qed.

Lemma under_abs_app a b : b <> [] -> a <> [] -> under (abs_path a) (abs_path (a ++ b)) = true.
Proof.
  intros Hb Ha. apply under_spec. right. exists (Join b "/").
  unfold abs_path. rewrite Join_app by done. by rewrite !str_app_assoc.
Qed.

(** ** What a program does *)

(** The program returns, with a result and a host that satisfy [Q]. *)
Definition hwp {A} (p : HM A) (Q : A -> host -> Prop) (h : host) : Prop :=
  match p h with (Some a, h') => Q a h' | (None, _) => False end.

Lemma hwp_bind {A B} (p : HM A) (f : A -> HM B) Q h :
  hwp p (λ a h', hwp (f a) Q h') h -> hwp (hbind p f) Q h.
Proof. unfold hwp, hbind. by destruct (p h) as [[a|] h']. Qed.

Lemma hwp_mono {A} (p : HM A) (Q Q' : A -> host -> Prop) h :
  (forall a h', Q a h' -> Q' a h') -> hwp p Q h -> hwp p Q' h.
Proof. unfold hwp. destruct (p h) as [[a|] h']; auto. Qed.

Lemma hwp_ret {A} (a : A) (Q : A -> host -> Prop) h : Q a h -> hwp (hret a) Q h.
Proof. done. Qed.

Lemma hwp_invoke {OS : HostOS} c (Q : option (string * string) -> host -> Prop) h :
  Q (sys h c) (effect c (bool_decide (is_Some (sys h c))) h) -> hwp (invoke c) Q h.
Proof. done. Qed.

(** The mounts and the losses of a host. *)
Definition same_mounts (h h' : host) : Prop := h_mounts h' = h_mounts h /\ h_lost h' = h_lost h.

Lemma same_mounts_refl h : same_mounts h h.
Proof. done. Qed.
Lemma same_mounts_trans h1 h2 h3 : same_mounts h1 h2 -> same_mounts h2 h3 -> same_mounts h1 h3.
Proof. intros [A1 A2] [B1 B2]. split; congruence. Qed.

#[export] Hint Resolve same_mounts_refl : beta9.

#[global] Arguments path_Join : simpl never.
#[global] Arguments under : simpl never.
