(* ===== verification/Storage.v ===== *)
(** * File systems of the worker (pkg/storage, pkg/common/overlay.go, pkg/worker/mount.go, storage_manager.go)

    The four kinds of storage, the storage of workspaces, the buckets mounted for a
    container and the layers over its root file system, as programs on the host
    ([HostFs]).  A storage is an object with methods: an operation returns it anew.  What
    the extraction of the stub's code answers is an argument. *)

From S2P Require Import Prelude GoStd Redis Types PoolManager WorkerDaemon HostFs.

Local Open Scope Z_scope.
Local Open Scope host_scope.
Set Default Proof Using "Type".

(** ** Configuration (pkg/types/config.go) *)

Record JuiceFSConfig := mkJuiceFSConfig {
  jc_RedisURI : string;
  jc_AWSS3Bucket : string;
  jc_AWSAccessKey : string;
  jc_AWSSecretKey : string;
  jc_CacheSize : Z;
  jc_BlockSize : Z;
  jc_Prefetch : Z;
  jc_BufferSize : Z;
}.

Record GeeseConfig := mkGeeseConfig {
  gc_Debug : bool;
  gc_FsyncOnClose : bool;
  gc_MountOptions : list string;
  gc_MemoryLimit : Z;
  gc_MaxFlushers : Z;
  gc_MaxParallelParts : Z;
  gc_ReadAheadKB : Z;
  gc_ReadAheadLargeKB : Z;
  gc_ReadAheadParallelKB : Z;
  gc_FuseReadAheadKB : Z;
  gc_DirMode : string;
  gc_FileMode : string;
  gc_ListType : Z;
  gc_AccessKey : string;
  gc_SecretKey : string;
  gc_EndpointUrl : string;
  gc_BucketName : string;
  gc_Region : string;
  gc_DisableVolumeCaching : bool;
  gc_StagedWriteModeEnabled : bool;
  gc_StagedWritePath : string;
  gc_StagedWriteDebounce : Z;
  gc_CacheStreamingEnabled : bool;
  gc_CacheThroughModeEnabled : bool;
}.

Record AlluxioConfig := mkAlluxioConfig {
  ac_Debug : bool;
  ac_EtcdEndpoint : string;
  ac_EtcdUsername : string;
  ac_EtcdPassword : string;
  ac_EtcdTlsEnabled : bool;
  ac_ImageUrl : string;
  ac_BucketName : string;
  ac_AccessKey : string;
  ac_SecretKey : string;
  ac_EndpointURL : string;
  ac_Region : string;
  ac_ReadOnly : bool;
  ac_ForcePathStyle : bool;
}.

Record StorageConfig := mkStorageConfig {
  sc_Mode : string;
  sc_FilesystemName : string;
  sc_FilesystemPath : string;
  sc_JuiceFS : JuiceFSConfig;
  sc_Geese : GeeseConfig;
  sc_Alluxio : AlluxioConfig;
  sc_MountPoint : MountPointConfig;
}.

Definition zero_JuiceFS : JuiceFSConfig := mkJuiceFSConfig "" "" "" "" 0 0 0 0.
Definition zero_Geese : GeeseConfig :=
  mkGeeseConfig false false [] 0 0 0 0 0 0 0 "" "" 0 "" "" "" "" "" false false "" 0 false false.
Definition zero_Alluxio : AlluxioConfig :=
  mkAlluxioConfig false "" "" "" false "" "" "" "" "" "" false false.
Definition zero_MountPoint : MountPointConfig := mkMountPointConfig "" "" "" "" "" false false.

(** ** The storages (pkg/storage) *)

Definition StorageModeJuiceFS : string := "juicefs".
Definition StorageModeMountPoint : string := "mountpoint".
Definition StorageModeGeese : string := "geese".
Definition StorageModeAlluxio : string := "alluxio".

(** [cache]: there is a cache client; [mounted]: [mfs] and [fs] are not nil. *)
Inductive storage :=
| JuiceFsStorage (config : JuiceFSConfig)
| GeeseStorage (config : GeeseConfig) (cache mounted : bool)
| AlluxioStorage (config : AlluxioConfig)
| MountPointStorage (config : MountPointConfig).

Definition Mode (s : storage) : string :=
  match s with
  | JuiceFsStorage _ => StorageModeJuiceFS
  | GeeseStorage _ _ _ => StorageModeGeese
  | AlluxioStorage _ => StorageModeAlluxio
  | MountPointStorage _ => StorageModeMountPoint
  end.

(** [strconv.ParseInt(s, 8, 32)] *)
Fixpoint parse_octal (acc : Z) (s : string) : option Z :=
  match s with
  | "" => Some acc
  | String c s' =>
      let d := Z.of_nat (Ascii.nat_of_ascii c) - 48 in
      if (0 <=? d) && (d <=? 7) then parse_octal (acc * 8 + d) s' else None
  end.
Definition ParseInt8 (s : string) : option Z :=
  let '(sign, digits) :=
    match s with
    | String c s' => if Ascii.eqb c "-" then (-1, s') else if Ascii.eqb c "+" then (1, s') else (1, s)
    | "" => (1, "")
    end in
  match digits with
  | "" => None
  | _ => match parse_octal 0 digits with
         | Some v => if bool_decide (in_i32 (sign * v)) then Some (sign * v) else None
         | None => None
         end
  end.

Definition defaultGeeseFSDirMode : Z := 493.
Definition defaultGeeseFSFileMode : Z := 420.
Definition defaultGeeseFSRequestTimeout : Z := 60 * second.
Definition defaultGeeseFSFuseReadAheadKb : Z := 32768.

(** The settings of geesefs, over its defaults. *)
Definition geese_settings (c : GeeseConfig) (cache : bool) (localPath : string) : list string :=
  let above name n := if 0 <? n then [name +:+ fmt_int n] else [] in
  (["AccessKey=" +:+ gc_AccessKey c; "SecretKey=" +:+ gc_SecretKey c; "Region=" +:+ gc_Region c;
    "Endpoint=" +:+ gc_EndpointUrl c; "MountPoint=" +:+ localPath; "Foreground=false";
    "DirMode=" +:+ fmt_int (wrap_u32 (default defaultGeeseFSDirMode (ParseInt8 (gc_DirMode c))));
    "FileMode=" +:+ fmt_int (wrap_u32 (default defaultGeeseFSFileMode (ParseInt8 (gc_FileMode c))));
    "MaxFlushers=" +:+ fmt_int (gc_MaxFlushers c);
    "MaxParallelParts=" +:+ fmt_int (gc_MaxParallelParts c);
    "FsyncOnClose=" +:+ fmt_bool (gc_FsyncOnClose c);
    "DebugMain=" +:+ fmt_bool (gc_Debug c);
    "MemoryLimit=" +:+ fmt_int (wrap_u64 (wrap_u64 (wrap_u64 (gc_MemoryLimit c) * 1024) * 1024));
    "SymlinkZeroed=true"; "HTTPTimeout=" +:+ fmt_int defaultGeeseFSRequestTimeout;
    "NoPreloadDir=true"; "FuseReadAheadKB=" +:+ fmt_int defaultGeeseFSFuseReadAheadKb] ++
   map (String.append "MountOptions=") (gc_MountOptions c) ++
   ["StagedWriteModeEnabled=" +:+ fmt_bool (gc_StagedWriteModeEnabled c);
    "StagedWritePath=" +:+ gc_StagedWritePath c;
    "StagedWriteDebounce=" +:+ fmt_int (gc_StagedWriteDebounce c);
    "CacheThroughModeEnabled=" +:+ fmt_bool (gc_CacheThroughModeEnabled c)] ++
   (if gc_DisableVolumeCaching c then ["HashAttr="] else []) ++
   above "ReadAheadLargeKB=" (gc_ReadAheadLargeKB c) ++ above "ReadAheadKB=" (gc_ReadAheadKB c) ++
   above "FuseReadAheadKB=" (gc_FuseReadAheadKB c) ++
   above "ReadAheadParallelKB=" (gc_ReadAheadParallelKB c) ++
   (if cache then ["ExternalCacheClient"; "ExternalCacheStreamingEnabled=" +:+ fmt_bool (gc_CacheStreamingEnabled c)]
    else []))%list.

Definition newMountpointCmdArgs (c : MountPointConfig) (localPath : string) : list string :=
  ([mp_BucketName c; localPath; "--allow-other"; "--log-directory=/var/log/"; "--upload-checksums=off"] ++
   (if mp_ReadOnly c then ["--read-only"] else ["--allow-delete"; "--allow-overwrite"]) ++
   (if mp_ForcePathStyle c then ["--force-path-style"] else []) ++
   (if String.eqb (mp_EndpointURL c) "" then [] else ["--endpoint-url=" +:+ mp_EndpointURL c]) ++
   (if String.eqb (mp_Region c) "" then [] else ["--region=" +:+ mp_Region c]))%list.

Definition mountpoint_env (c : MountPointConfig) : list string :=
  if negb (String.eqb (mp_AccessKey c) "") || negb (String.eqb (mp_SecretKey c) "")
  then ["AWS_ACCESS_KEY_ID=" +:+ mp_AccessKey c; "AWS_SECRET_ACCESS_KEY=" +:+ mp_SecretKey c]
  else [].

Definition alluxio_url : string := "http://0.0.0.0:19999/api/v1/mount".

(** [filepath.Base] of a path; [stripLocalPath]. *)
Definition path_Base (path : string) : string :=
  match reverse (List.filter (λ p, negb (String.eqb p "")) (split_on slash path)) with
  | p :: _ => p
  | [] => if String.eqb path "" then "." else "/"
  end.
Definition stripLocalPath (localPath : string) : string := path_Join ["/"; path_Base localPath].

Section storage.
Context {OS : HostOS}.

(** [os.IsNotExist] of the error of a call. *)
Context (IsNotExist : string -> bool).

Definition geese_Mount (c : GeeseConfig) (cache mounted : bool) (localPath : string)
    : HM (option gerr * storage) :=
  do! r ← invoke (CMount (gc_BucketName c :: geese_settings c cache localPath)%list localPath);
  match r with
  | Some (e, _) => hret (Some (EMsg e), GeeseStorage c cache mounted)
  | None =>
      do! seen ← invoke (CAwait localPath);
      match seen with
      | Some _ => hret (Some (EMsg ("failed to mount GeeseFS filesystem to: '" +:+ localPath +:+ "'")),
                        GeeseStorage c cache mounted)
      | None => hret (None, GeeseStorage c cache true)
      end
  end.

(** The error of [mfs.Unmount] is dropped. *)
Definition geese_Unmount (c : GeeseConfig) (cache mounted : bool) (localPath : string)
    : HM (option gerr * storage) :=
  seq! (if mounted then invoke (CUmount ["mfs.Unmount"] localPath) else hret None);
  hret (None, GeeseStorage c cache false).

Definition juicefs_default (n : Z) (d : string) : string := if n <=? 0 then d else fmt_int n.

Definition juicefs_Mount (c : JuiceFSConfig) (localPath : string) : HM (option gerr) :=
  seq! invoke (CMount ["juicefs"; "mount"; jc_RedisURI c; localPath; "--bucket"; jc_AWSS3Bucket c;
                       "--cache-size"; fmt_int (jc_CacheSize c);
                       "--prefetch"; juicefs_default (jc_Prefetch c) "1";
                       "--buffer-size"; juicefs_default (jc_BufferSize c) "300"; "--no-usage-report"]
                 localPath);
  do! seen ← invoke (CAwait localPath);
  hret match seen with
       | Some _ => Some (EMsg ("failed to mount JuiceFS filesystem to: '" +:+ localPath +:+ "'"))
       | None => None
       end.

Definition juicefs_Format (c : JuiceFSConfig) (fsName : string) : HM (option gerr) :=
  do! r ← invoke (CExec (["juicefs"; "format"; "--storage"; "s3"; "--bucket"; jc_AWSS3Bucket c;
                          "--block-size"; juicefs_default (jc_BlockSize c) "4096"; jc_RedisURI c; fsName;
                          "--no-update"] ++
                         (if negb (String.eqb (jc_AWSAccessKey c) "") || negb (String.eqb (jc_AWSSecretKey c) "")
                          then ["--access-key"; jc_AWSAccessKey c; "--secret-key"; jc_AWSSecretKey c]
                          else []))%list);
  hret match r with
       | Some (e, out) => Some (EMsg ("error executing juicefs format: " +:+ e +:+ ", output: " +:+ out))
       | None => None
       end.

(** [backoff.Retry] with at most [retries] more attempts. *)
Fixpoint juicefs_umount (retries : nat) (localPath : string) : HM bool :=
  do! r ← invoke (CUmount ["juicefs"; "umount"; localPath] localPath);
  match r, retries with
  | None, _ => hret true
  | Some _, O => hret false
  | Some _, S n => juicefs_umount n localPath
  end.

Definition juicefs_Unmount (localPath : string) : HM (option gerr) :=
  do! done ← juicefs_umount 10 localPath;
  if done : bool then hret None
  else
    do! r ← invoke (CExec ["fuser"; "-k"; "/dev/fuse"]);
    hret match r with
         | Some (e, _) => Some (EMsg ("error executing fuser -k /dev/fuse: " +:+ e))
         | None => None
         end.

Definition mountpoint_Unmount (localPath : string) : HM (option gerr) :=
  do! r ← invoke (CUmount ["umount"; localPath] localPath);
  match r with
  | Some (e, out) =>
      hret (Some (EMsg ("error executing mount-s3 umount: " +:+ e +:+ ", output: " +:+ out)))
  | None => seq! invoke (CRemoveAll localPath); hret None
  end.

Definition mountpoint_mkdir (localPath : string) : HM (option gerr) :=
  do! st ← invoke (CStat localPath);
  match st with
  | Some (e, _) =>
      if IsNotExist e then do! r ← invoke (CMkdirAll localPath); hret (go_error r) else hret None
  | None => hret None
  end.

Definition mountpoint_Mount (c : MountPointConfig) (localPath : string) : HM (option gerr) :=
  seq! mountpoint_Unmount localPath;
  do! r ← mountpoint_mkdir localPath;
  match r with
  | Some e => hret (Some e)
  | None =>
      do! r ← invoke (CMount (mountpoint_env c ++ "ms3" :: newMountpointCmdArgs c localPath)%list localPath);
      match r with
      | Some (e, out) =>
          seq! invoke (CRemoveAll localPath); hret (Some (EMsg (e +:+ ", " +:+ out)))
      | None => hret None
      end
  end.

Definition alluxio_Mount (c : AlluxioConfig) (localPath : string) : HM (option gerr) :=
  do! r ← http_request (CHttp "POST" alluxio_url
    [("path", stripLocalPath localPath); ("ufs", "s3://" +:+ ac_BucketName c);
     ("s3a.accessKeyId", ac_AccessKey c); ("s3a.secretKey", ac_SecretKey c);
     ("alluxio.underfs.s3.endpoint", ac_EndpointURL c);
     ("alluxio.underfs.s3.endpoint.region", ac_Region c);
     ("alluxio.underfs.s3.inherit.acl", "false"); ("alluxio.underfs.s3.disable.dns.buckets", "true")]);
  hret match r with
       | inl e => Some e
       | inr status =>
           if negb (status =? 200) && negb (status =? 409)
           then Some (EMsg ("mount request failed with status " +:+ fmt_int status)) else None
       end.

Definition alluxio_Unmount (localPath : string) : HM (option gerr) :=
  do! r ← http_request (CHttp "DELETE" alluxio_url [("path", stripLocalPath localPath)]);
  hret match r with
       | inl e => Some e
       | inr status =>
           if negb (status =? 200)
           then Some (EMsg ("unmount request failed with status " +:+ fmt_int status)) else None
       end.

(** The methods of the interface [Storage]. *)
Definition keeping (s : storage) (p : HM (option gerr)) : HM (option gerr * storage) :=
  do! e ← p; hret (e, s).

Definition storage_Mount (s : storage) (localPath : string) : HM (option gerr * storage) :=
  match s with
  | JuiceFsStorage c => keeping s (juicefs_Mount c localPath)
  | GeeseStorage c cache mounted => geese_Mount c cache mounted localPath
  | AlluxioStorage c => keeping s (alluxio_Mount c localPath)
  | MountPointStorage c => keeping s (mountpoint_Mount c localPath)
  end.

Definition storage_Unmount (s : storage) (localPath : string) : HM (option gerr * storage) :=
  match s with
  | JuiceFsStorage _ => keeping s (juicefs_Unmount localPath)
  | GeeseStorage c cache mounted => geese_Unmount c cache mounted localPath
  | AlluxioStorage _ => keeping s (alluxio_Unmount localPath)
  | MountPointStorage _ => keeping s (mountpoint_Unmount localPath)
  end.

Definition storage_Format (s : storage) (fsName : string) : HM (option gerr) :=
  match s with JuiceFsStorage c => juicefs_Format c fsName | _ => hret None end.

(** [log.Fatal] ends the process. *)
Definition mount_or_die (s : storage) (path : string) : HM (gerr + storage) :=
  do! r ← storage_Mount s path;
  match r.1 with Some _ => hexit | None => hret (inr r.2) end.

Definition NewStorage (config : StorageConfig) (cache : bool) : HM (gerr + storage) :=
  if String.eqb (sc_Mode config) StorageModeJuiceFS then
    do! e ← storage_Format (JuiceFsStorage (sc_JuiceFS config)) (sc_FilesystemName config);
    match e with
    | Some _ => hexit
    | None => mount_or_die (JuiceFsStorage (sc_JuiceFS config)) (sc_FilesystemPath config)
    end
  else if String.eqb (sc_Mode config) StorageModeGeese then
    mount_or_die (GeeseStorage (sc_Geese config) cache false) (sc_FilesystemPath config)
  else if String.eqb (sc_Mode config) StorageModeAlluxio then
    mount_or_die (AlluxioStorage (sc_Alluxio config)) (sc_FilesystemPath config)
  else if String.eqb (sc_Mode config) StorageModeMountPoint then
    mount_or_die (MountPointStorage (sc_MountPoint config)) (sc_FilesystemPath config)
  else hret (inl (EMsg "invalid storage mode")).

(** ** The storage of workspaces (pkg/worker/storage_manager.go) *)

(** [sm_mode] is the storage mode of the pool, or the default one when it has none. *)
Record storage_manager := mkStorageManager {
  sm_mounts : gmap string storage;
  sm_BaseMountPath : string;
  sm_Geese : GeeseConfig;
  sm_Alluxio : AlluxioConfig;
  sm_mode : string;
  sm_cache : bool;
}.

Definition NewWorkspaceStorageManager (base : string) (geese : GeeseConfig) (alluxio : AlluxioConfig)
    (poolMode defaultMode : string) (cache : bool) : storage_manager :=
  mkStorageManager ∅ base geese alluxio (if String.eqb poolMode "" then defaultMode else poolMode) cache.

Definition set_sm_mounts (mounts : gmap string storage) (sm : storage_manager) : storage_manager :=
  mkStorageManager mounts (sm_BaseMountPath sm) (sm_Geese sm) (sm_Alluxio sm) (sm_mode sm) (sm_cache sm).

Definition sm_Create (workspaceName : string) (s : storage) (sm : storage_manager) : storage_manager :=
  set_sm_mounts (SafeMap_Set (sm_mounts sm) workspaceName s) sm.

Definition workspace_path (sm : storage_manager) (workspaceName : string) : string :=
  path_Join [sm_BaseMountPath sm; workspaceName].

(** The configuration of a workspace's storage; a nil field is a panic. *)
Definition geese_config (g : GeeseConfig) (ws : WorkspaceStorage) : option GeeseConfig :=
  endpoint ← ws_EndpointUrl ws; bucket ← ws_BucketName ws; access ← ws_AccessKey ws;
  secret ← ws_SecretKey ws; region ← ws_Region ws;
  Some (mkGeeseConfig (gc_Debug g) (gc_FsyncOnClose g) (gc_MountOptions g) (gc_MemoryLimit g)
    (gc_MaxFlushers g) (gc_MaxParallelParts g) (gc_ReadAheadKB g) (gc_ReadAheadLargeKB g)
    (gc_ReadAheadParallelKB g) (gc_FuseReadAheadKB g) (gc_DirMode g) (gc_FileMode g) (gc_ListType g)
    access secret endpoint bucket region (gc_DisableVolumeCaching g) (gc_StagedWriteModeEnabled g)
    (gc_StagedWritePath g) (gc_StagedWriteDebounce g) (gc_CacheStreamingEnabled g)
    (gc_CacheThroughModeEnabled g)).

Definition alluxio_config (a : AlluxioConfig) (ws : WorkspaceStorage) : option AlluxioConfig :=
  bucket ← ws_BucketName ws; access ← ws_AccessKey ws; secret ← ws_SecretKey ws;
  endpoint ← ws_EndpointUrl ws; region ← ws_Region ws;
  Some (mkAlluxioConfig (ac_Debug a) (ac_EtcdEndpoint a) (ac_EtcdUsername a) (ac_EtcdPassword a)
    (ac_EtcdTlsEnabled a) (ac_ImageUrl a) bucket access secret endpoint region false false).

Definition mount_workspace (sm : storage_manager) (workspaceName : string) (ws : WorkspaceStorage)
    : HM (gerr + storage) :=
  let mountPath := workspace_path sm workspaceName in
  if String.eqb (sm_mode sm) StorageModeGeese then
    seq! invoke (CMkdirAll mountPath);
    match geese_config (sm_Geese sm) ws with
    | None => hexit
    | Some c => NewStorage (mkStorageConfig StorageModeGeese workspaceName mountPath zero_JuiceFS c
                              zero_Alluxio zero_MountPoint) (sm_cache sm)
    end
  else if String.eqb (sm_mode sm) StorageModeAlluxio then
    match alluxio_config (sm_Alluxio sm) ws with
    | None => hexit
    | Some c => NewStorage (mkStorageConfig StorageModeAlluxio workspaceName mountPath zero_JuiceFS
                              zero_Geese c zero_MountPoint) (sm_cache sm)
    end
  else hret (inl (EMsg "invalid storage mode")).

(** [WorkspaceStorageManager.Mount] *)
Definition sm_Mount (workspaceName : string) (ws : WorkspaceStorage) (sm : storage_manager)
    : HM ((gerr + storage) * storage_manager) :=
  match SafeMap_Get (sm_mounts sm) workspaceName with
  | Some mount => hret (inr mount, sm)
  | None =>
      do! r ← mount_workspace sm workspaceName ws;
      match r with
      | inl e => hret (inl e, sm)
      | inr mount => hret (inr mount, set_sm_mounts (SafeMap_Set (sm_mounts sm) workspaceName mount) sm)
      end
  end.

Definition sm_Unmount (workspaceName : string) (sm : storage_manager) : HM (option gerr * storage_manager) :=
  match SafeMap_Get (sm_mounts sm) workspaceName with
  | None => hret (None, sm)
  | Some mount =>
      let localPath := workspace_path sm workspaceName in
      do! e ← (if String.eqb (Mode mount) StorageModeGeese then
                 do! r ← storage_Unmount mount localPath;
                 match r.1 with
                 | Some e => hret (Some e)
                 | None => seq! invoke (CRemoveAll localPath); hret None
                 end
               else hret None);
      match e with
      | Some e => hret (Some e, sm)
      | None => hret (None, set_sm_mounts (SafeMap_Delete (sm_mounts sm) workspaceName) sm)
      end
  end.

Definition active_workspaces (instances : gmap string ContainerInstance) : list string :=
  map (λ p, wk_Name (cr_Workspace (ci_Request p.2))) (map_to_list instances).

Definition note_unused (active : list string) (acc : list string) (workspaceName : string) (_ : storage)
    : list string * bool :=
  (if bool_decide (workspaceName ∈ active) then acc else acc ++ [workspaceName], true)%list.

Fixpoint unmount_all (names : list string) (sm : storage_manager) : HM storage_manager :=
  match names with
  | [] => hret sm
  | workspaceName :: rest => do! r ← sm_Unmount workspaceName sm; unmount_all rest r.2
  end.

(** [order] is the order in which [Range] visits the mounts. *)
Definition sm_Cleanup (instances : gmap string ContainerInstance) (order : list (string * storage))
    (sm : storage_manager) : HM storage_manager :=
  unmount_all (SafeMap_Range order (note_unused (active_workspaces instances)) []) sm.

(** ** The buckets of a container (pkg/worker/mount.go) *)

Definition WorkerUserOutputVolume : string := "/outputs".
Definition WorkerContainerVolumePath : string := "/volumes".
Definition DefaultVolumesPath : string := "/data/volumes".
Definition DefaultOutputsPath : string := "/data/outputs".
Definition DefaultVolumesPrefix : string := "volumes".
Definition DefaultOutputsPrefix : string := "outputs".
Definition TempContainerWorkspace (containerId : string) : string := "/tmp/" +:+ containerId +:+ "/workspace".

Record mount_manager := mkMountManager {
  mm_mountPointPaths : gmap string (list string);
  mm_BaseMountPath : string;
}.

Definition set_LocalPath (p : string) (m : Mount) : Mount :=
  mkMount p (mt_MountPath m) (mt_LinkPath m) (mt_ReadOnly m) (mt_MountType m) (mt_MountPointConfig m).

Definition setupMountPointS3 (containerId localPath : string) (c : MountPointConfig) (mm : mount_manager)
    : HM (option gerr * mount_manager) :=
  do! r ← mountpoint_Mount c localPath;
  match r with
  | Some e => hret (Some e, mm)
  | None =>
      let paths := default [] (SafeMap_Get (mm_mountPointPaths mm) containerId) in
      hret (None, mkMountManager
                    (SafeMap_Set (mm_mountPointPaths mm) containerId (paths ++ [localPath])%list)
                    (mm_BaseMountPath mm))
  end.

(** The paths of a workspace with a storage of its own. *)
Definition migrated_path (base name : string) (m : Mount) : string :=
  let to_volumes := Replace1 (mt_LocalPath m) (path_Join [DefaultVolumesPath; name])
                      (path_Join [base; name; DefaultVolumesPrefix]) in
  if HasPrefix (mt_MountPath m) WorkerContainerVolumePath then to_volumes
  else if HasPrefix (mt_MountPath m) WorkerUserOutputVolume then
    Replace1 (mt_LocalPath m) (path_Join [DefaultOutputsPath; name])
      (path_Join [base; name; DefaultOutputsPrefix])
  else if HasPrefix (mt_LocalPath m) DefaultVolumesPath then to_volumes
  else mt_LocalPath m.

(** The local path of the user's code and of migrated volumes. *)
Definition is_code (m : Mount) : bool := String.eqb (mt_MountPath m) WorkerUserCodeVolume.
Definition local_mount (base : string) (request : ContainerRequest) (m : Mount) : Mount :=
  let m1 := if is_code m then set_LocalPath (TempContainerWorkspace (cr_ContainerId request)) m else m in
  if StorageAvailable request
  then set_LocalPath (migrated_path base (wk_Name (cr_Workspace request)) m1) m1 else m1.

Definition bucket_path (containerId : string) (m : Mount) (c : MountPointConfig) : string :=
  path_Join [mt_LocalPath m; containerId; mp_BucketName c].

(** One turn of the loop; [extracted] is what the extraction of the stub's code answers. *)
Definition setup_mount (extracted : option gerr) (request : ContainerRequest) (m : Mount)
    (mm : mount_manager) : HM (option gerr * Mount * mount_manager) :=
  match (if is_code m then extracted else None) with
  | Some e => hret (Some e, m, mm)
  | None =>
      let m' := local_mount (mm_BaseMountPath mm) request m in
      match mt_MountPointConfig m' with
      | Some c =>
          if String.eqb (mt_MountType m') StorageModeMountPoint then
            let localPath := bucket_path (cr_ContainerId request) m' c in
            do! r ← setupMountPointS3 (cr_ContainerId request) localPath c mm;
            hret (r.1, set_LocalPath localPath m', r.2)
          else hret (None, m', mm)
      | None => hret (None, m', mm)
      end
  end.

(** The mounts of the request as the loop leaves them. *)
Fixpoint SetupContainerMounts (extracted : option gerr) (request : ContainerRequest) (mounts : list Mount)
    (mm : mount_manager) : HM (option gerr * list Mount * mount_manager) :=
  match mounts with
  | [] => hret (None, [], mm)
  | m :: rest =>
      do! r ← setup_mount extracted request m mm;
      match r with
      | (Some e, m', mm') => hret (Some e, m' :: rest, mm')%list
      | (None, m', mm') =>
          do! r' ← SetupContainerMounts extracted request rest mm';
          hret (r'.1.1, m' :: r'.1.2, r'.2)%list
      end
  end.

Fixpoint unmount_paths (paths : list string) : HM unit :=
  match paths with
  | [] => hret tt
  | localPath :: rest => seq! mountpoint_Unmount localPath; unmount_paths rest
  end.

Definition RemoveContainerMounts (containerId : string) (mm : mount_manager) : HM mount_manager :=
  match SafeMap_Get (mm_mountPointPaths mm) containerId with
  | None => hret mm
  | Some paths =>
      seq! unmount_paths paths;
      hret (mkMountManager (SafeMap_Delete (mm_mountPointPaths mm) containerId) (mm_BaseMountPath mm))
  end.

(** ** The layers over a root file system (pkg/common/overlay.go) *)

Record ContainerOverlayLayer := mkLayer {
  ol_index : Z;
  ol_lower : string;
  ol_upper : string;
  ol_work : string;
  ol_merged : string;
}.

Record ContainerOverlay := mkOverlay {
  ov_containerId : string;
  ov_layers : list ContainerOverlayLayer;
  ov_root : string;
  ov_overlayPath : string;
}.

Definition NewContainerOverlay (containerId rootPath overlayPath : string) : ContainerOverlay :=
  mkOverlay containerId [] rootPath overlayPath.

Definition set_layers (l : list ContainerOverlayLayer) (co : ContainerOverlay) : ContainerOverlay :=
  mkOverlay (ov_containerId co) l (ov_root co) (ov_overlayPath co).

Definition TopLayerPath (co : ContainerOverlay) : string :=
  match last (ov_layers co) with Some layer => ol_merged layer | None => ov_root co end.

Definition layerDir (co : ContainerOverlay) (index : Z) : string :=
  path_Join [ov_overlayPath co; ov_containerId co; "layer-" +:+ fmt_int index].

Definition overlay_mount (layer : ContainerOverlayLayer) : HM (option gerr) :=
  let mntOptions := "lowerdir=" +:+ ol_lower layer +:+ ",upperdir=" +:+ ol_upper layer +:+
                    ",workdir=" +:+ ol_work layer in
  do! r ← invoke (CMount ["mount"; "-t"; "overlay"; "overlay"; "-o"; mntOptions; ol_merged layer]
                    (ol_merged layer));
  hret (go_error r).

(** Directories of which the first that cannot be made ends the operation. *)
Fixpoint make_dirs (dirs : list string) : HM (option gerr) :=
  match dirs with
  | [] => hret None
  | d :: rest =>
      do! r ← invoke (CMkdirAll d);
      match r with Some (e, _) => hret (Some (EMsg e)) | None => make_dirs rest end
  end.

Fixpoint try_dirs (dirs : list string) : HM unit :=
  match dirs with [] => hret tt | d :: rest => seq! invoke (CMkdirAll d); try_dirs rest end.

Definition add_layer (layer : ContainerOverlayLayer) (co : ContainerOverlay)
    : HM (option gerr * ContainerOverlay) :=
  do! r ← overlay_mount layer;
  match r with
  | Some e => hret (Some e, co)
  | None => hret (None, set_layers (ov_layers co ++ [layer])%list co)
  end.

Definition AddEmptyLayer (co : ContainerOverlay) : HM (option gerr * ContainerOverlay) :=
  let index := Z.of_nat (length (ov_layers co)) in
  let dir := layerDir co index in
  let workDir := path_Join [dir; "work"] in
  let upperDir := path_Join [dir; "upper"] in
  let mergedDir := path_Join [dir; "merged"] in
  do! e ← make_dirs [workDir; upperDir];
  match e with
  | Some e => hret (Some e, co)
  | None =>
      seq! try_dirs [path_Join [upperDir; "workspace"]; path_Join [upperDir; "volumes"]];
      do! e ← make_dirs [mergedDir];
      match e with
      | Some e => hret (Some e, co)
      | None => add_layer (mkLayer index (TopLayerPath co) upperDir workDir mergedDir) co
      end
  end.

Definition AddLayer (upperDir : string) (co : ContainerOverlay) : HM (option gerr * ContainerOverlay) :=
  let index := Z.of_nat (length (ov_layers co)) in
  let dir := layerDir co index in
  let workDir := path_Join [dir; "work"] in
  let mergedDir := path_Join [dir; "merged"] in
  do! e ← make_dirs [workDir; mergedDir];
  match e with
  | Some e => hret (Some e, co)
  | None => add_layer (mkLayer index (TopLayerPath co) upperDir workDir mergedDir) co
  end.

Definition overlay_Setup (co : ContainerOverlay) : HM (option gerr * ContainerOverlay) := AddEmptyLayer co.

(** The loop of [Cleanup], for the layers from the last one down. *)
Fixpoint remove_layers (rev_layers : list ContainerOverlayLayer) (co : ContainerOverlay)
    : HM (option gerr * ContainerOverlay) :=
  match rev_layers with
  | [] =>
      do! r ← invoke (CRemoveAll (path_Join [ov_overlayPath co; ov_containerId co]));
      hret (go_error r, set_layers [] co)
  | layer :: below =>
      let co := set_layers (reverse rev_layers) co in
      do! r ← invoke (CUmount ["umount"; "-f"; ol_merged layer] (ol_merged layer));
      match r with
      | Some (e, _) => hret (Some (EMsg e), co)
      | None =>
          do! r ← invoke (CRemoveAll (layerDir co (Z.of_nat (length below))));
          match r with
          | Some (e, _) => hret (Some (EMsg e), co)
          | None => remove_layers below co
          end
      end
  end.

Definition overlay_Cleanup (co : ContainerOverlay) : HM (option gerr * ContainerOverlay) :=
  remove_layers (reverse (ov_layers co)) co.
End storage.
