(* ===== verification/StorageProps.v ===== *)
(** * Properties of the file systems of a worker

    The layers of a container are mounted as a stack and removed without touching what
    is mounted; the storage of the workspaces in use survives a cleanup; a storage that
    cannot be unmounted is erased; the buckets of a container are all given back. *)

From S2P Require Import Prelude GoStd Redis Types PoolManager WorkerDaemon HostFs Storage.

Local Open Scope Z_scope.
Local Open Scope host_scope.
Set Default Proof Using "Type".

(** One step of a program: a call, a result or a sequence. *)
Ltac hstep := first [apply hwp_bind | apply hwp_invoke; cbn beta | apply hwp_ret].

(** ** Layers *)

Section overlay.
Context {OS : HostOS}.
Context (base : list string) (cid root : string) (h0 : host).

Inductive layer_op := OEmptyLayer | OLayer (upperDir : string).

Definition add_one (o : layer_op) (co : ContainerOverlay) : HM (option gerr * ContainerOverlay) :=
  match o with OEmptyLayer => AddEmptyLayer co | OLayer upperDir => AddLayer upperDir co end.

(** Layers added one after the other, those that fail included. *)
Fixpoint add_layers (ops : list layer_op) (co : ContainerOverlay) : HM ContainerOverlay :=
  match ops with
  | [] => hret co
  | o :: ops' => do! r ← add_one o co; add_layers ops' r.2
  end.

(** Each layer lies on the one below it. *)
Fixpoint stacked (lower : string) (layers : list ContainerOverlayLayer) : Prop :=
  match layers with
  | [] => True
  | l :: layers' => ol_lower l = lower /\ stacked (ol_merged l) layers'
  end.

Definition overlay0 : ContainerOverlay := NewContainerOverlay cid root (abs_path base).
Definition dir_of (i : Z) : string := "layer-" +:+ fmt_int i.
Definition merged_of (i : Z) : string := abs_path (base ++ [cid; dir_of i; "merged"]).

Definition mounts_of (layers : list ContainerOverlayLayer) : list string :=
  (reverse (ol_merged <$> layers) ++ h_mounts h0)%list.

Record overlay_inv (co : ContainerOverlay) (h : host) : Prop := {
  oi_overlay : set_layers [] co = overlay0;
  oi_merged : ol_merged <$> ov_layers co = merged_of ∘ Z.of_nat <$> seq 0 (length (ov_layers co));
  oi_stacked : stacked root (ov_layers co);
  oi_mounts : h_mounts h = mounts_of (ov_layers co);
  oi_lost : h_lost h = h_lost h0;
}.

Hypothesis base_ok : base <> [] /\ Forall plain base.
Hypothesis cid_ok : plain cid.
Hypothesis fresh : Forall (λ q, under (abs_path (base ++ [cid])) q = false) (h_mounts h0).

Lemma dir_plain i : plain (dir_of i).
Proof.
  unfold dir_of, plain. repeat split; try discriminate. simpl. apply no_slash_int.
Qed.

Lemma parts_plain l : Forall plain l -> Forall plain (base ++ cid :: l).
Proof using base_ok cid_ok. intros H. apply Forall_app. split; [apply base_ok|by constructor]. Qed.

Lemma parts_nonempty (l : list string) : (base ++ l)%list <> [].
Proof using base_ok. intros [E _]%app_eq_nil. by apply base_ok. Qed.

Lemma layerDir_abs co i : set_layers [] co = overlay0 -> layerDir co i = abs_path (base ++ [cid; dir_of i]).
Proof using base_ok cid_ok.
  intros H. unfold layerDir.
  assert (ov_overlayPath co = abs_path base /\ ov_containerId co = cid) as [-> ->].
  { destruct co; unfold overlay0, NewContainerOverlay, set_layers in H; simpl in *; by simplify_eq. }
  apply path_Join_abs; try apply base_ok; [|done].
  constructor; [done|constructor; [apply dir_plain|done]].
Qed.

Lemma container_dir_abs co :
  set_layers [] co = overlay0 ->
  path_Join [ov_overlayPath co; ov_containerId co] = abs_path (base ++ [cid]).
Proof using base_ok cid_ok.
  intros H. destruct co; injection H as -> -> ->.
  apply (path_Join_abs base [cid]); try apply base_ok; [by constructor|done].
Qed.

Lemma merged_abs co i :
  set_layers [] co = overlay0 -> path_Join [layerDir co i; "merged"] = merged_of i.
Proof using base_ok cid_ok.
  intros H. rewrite (layerDir_abs co i H).
  rewrite path_Join_abs; [unfold merged_of; by rewrite <- app_assoc|apply parts_nonempty| | |done].
  - apply parts_plain. constructor; [apply dir_plain|done].
  - constructor; [by vm_compute|done].
Qed.

Lemma stacked_app lower layers l :
  stacked lower layers ->
  ol_lower l = match last layers with Some l' => ol_merged l' | None => lower end ->
  stacked lower (layers ++ [l])%list.
Proof.
  revert lower. induction layers as [|l1 layers IH]; intros lower Hs Hl; [done|].
  destruct Hs as [H1 H2]. split; [done|]. apply IH; [done|].
  rewrite Hl, last_cons. by destruct (last layers).
Qed.

Lemma make_dirs_wp ds h : hwp (make_dirs ds) (λ _ h', same_mounts h h') h.
Proof.
  revert h. induction ds as [|d ds IH]; intros h; simpl; [by hstep|].
  repeat hstep. destruct (sys h (CMkdirAll d)) as [[e o]|]; [by hstep|].
  eapply hwp_mono; [|apply IH]. intros a h'. by apply same_mounts_trans.
Qed.

Lemma try_dirs_wp ds h : hwp (try_dirs ds) (λ _ h', same_mounts h h') h.
Proof.
  revert h. induction ds as [|d ds IH]; intros h; simpl; [by hstep|].
  repeat hstep. eapply hwp_mono; [|apply IH]. intros a h'. by apply same_mounts_trans.
Qed.

Lemma inv_same co h h' : same_mounts h h' -> overlay_inv co h -> overlay_inv co h'.
Proof. intros [H1 H2] []. split; congruence. Qed.

Lemma add_layer_wp upper work co h :
  overlay_inv co h ->
  let index := Z.of_nat (length (ov_layers co)) in
  hwp (add_layer (mkLayer index (TopLayerPath co) upper work (path_Join [layerDir co index; "merged"])) co)
    (λ r h', overlay_inv r.2 h') h.
Proof using base_ok cid_ok.
  intros Hi index. pose proof Hi as [Ho Hm Hs Hmo Hl].
  rewrite (merged_abs co index Ho). unfold add_layer, overlay_mount. repeat hstep.
  destruct (sys h _) as [[e o]|]; repeat hstep; [by apply (inv_same co h)|].
  split; simpl; [done| | | |done].
  - rewrite length_app, Nat.add_1_r, seq_S, !fmap_app, Hm. done.
  - apply stacked_app; [done|]. simpl. unfold TopLayerPath.
    destruct (last (ov_layers co)); [done|]. by destruct co; simpl in *; injection Ho.
  - unfold mounts_of. rewrite Hmo, fmap_app, reverse_app. done.
Qed.

Lemma add_one_wp o co h :
  overlay_inv co h -> hwp (add_one o co) (λ r h', overlay_inv r.2 h') h.
Proof using base_ok cid_ok.
  intros Hi. destruct o as [|upper]; simpl; hstep.
  - eapply hwp_mono; [|apply make_dirs_wp]. intros [e|] h1 H1; [by hstep; apply (inv_same co h)|].
    hstep. eapply hwp_mono; [|apply try_dirs_wp]. intros [] h2 H2.
    hstep. eapply hwp_mono; [|apply make_dirs_wp].
    intros [e|] h3 H3; [hstep|apply add_layer_wp];
      (apply (inv_same co h); [by eauto using same_mounts_trans|done]).
  - eapply hwp_mono; [|apply make_dirs_wp].
    intros [e|] h1 H1; [hstep|apply add_layer_wp]; by apply (inv_same co h).
Qed.

Lemma add_layers_wp ops : forall co h,
  overlay_inv co h -> hwp (add_layers ops co) overlay_inv h.
Proof using base_ok cid_ok.
  induction ops as [|o ops IH]; intros co h Hi; simpl; [by hstep|].
  hstep. eapply hwp_mono; [|by apply add_one_wp]. intros r h' Hr. by apply IH.
Qed.

Lemma under_dir_fresh l : Forall plain l ->
  Forall (λ q, under (abs_path (base ++ cid :: l)) q = false) (h_mounts h0).
Proof using base_ok cid_ok fresh.
  intros Hl. eapply Forall_impl; [exact fresh|]. intros q Hq. simpl in Hq.
  apply not_true_iff_false. intros Hu. apply not_true_iff_false in Hq. apply Hq.
  destruct l as [|p l]; [done|]. eapply under_trans; [|exact Hu].
  change (cid :: p :: l) with ([cid] ++ p :: l)%list. rewrite app_assoc.
  apply under_abs_app; [done|]. apply parts_nonempty.
Qed.

Lemma under_other_layer i j : i <> j -> under (abs_path (base ++ [cid; dir_of i])) (merged_of j) = false.
Proof using base_ok cid_ok.
  intros Hij. apply not_true_iff_false. intros Hu. apply Hij.
  apply under_prefix in Hu as [k Hk]; try apply parts_nonempty;
    try (apply parts_plain; repeat constructor; apply dir_plain || by vm_compute).
  rewrite <- app_assoc in Hk. apply app_inv_head in Hk. injection Hk as Hd _.
  unfold dir_of in Hd. symmetry. apply fmt_int_inj. by simplify_eq.
Qed.

(** Nothing is mounted in the directory of a layer once the layer itself is not. *)
Lemma layer_dir_clear below h n :
  ol_merged <$> below = merged_of ∘ Z.of_nat <$> seq 0 (length below) ->
  h_mounts h = mounts_of below -> (length below <= n)%nat ->
  List.filter (under (abs_path (base ++ [cid; dir_of (Z.of_nat n)]))) (h_mounts h) = [].
Proof using base_ok cid_ok fresh.
  intros Hm Hmo Hn. apply filter_under_none. rewrite Hmo. unfold mounts_of. rewrite Hm.
  apply Forall_app. split; [|apply under_dir_fresh; constructor; [apply dir_plain|done]].
  apply Forall_reverse, Forall_fmap, Forall_seq. intros j Hj. simpl.
  apply under_other_layer. lia.
Qed.

Lemma container_dir_clear h :
  h_mounts h = h_mounts h0 -> List.filter (under (abs_path (base ++ [cid]))) (h_mounts h) = [].
Proof using base_ok cid_ok fresh. intros ->. apply filter_under_none, fresh. Qed.

Definition cleaned (layers : list ContainerOverlayLayer) (r : option gerr * ContainerOverlay) (h : host)
    : Prop :=
  h_lost h = h_lost h0 /\
  match r.1 with
  | None => ov_layers r.2 = [] /\ h_mounts h = h_mounts h0
  | Some _ => exists n, (n <= length layers)%nat /\ h_mounts h = mounts_of (take n layers)
  end.

Lemma cleaned_more layers l r h : cleaned layers r h -> cleaned (layers ++ [l]) r h.
Proof.
  unfold cleaned. intros [Hl Hr]. split; [done|]. destruct r as [[e|] co]; [|done].
  destruct Hr as (n & Hn & Hm). exists n. simpl in *. rewrite length_app, take_app_le by done.
  split; [lia|done].
Qed.

Lemma remove_layers_wp rl : forall co h,
  set_layers [] co = overlay0 ->
  ol_merged <$> reverse rl = merged_of ∘ Z.of_nat <$> seq 0 (length (reverse rl)) ->
  h_mounts h = mounts_of (reverse rl) -> h_lost h = h_lost h0 ->
  hwp (remove_layers rl co) (cleaned (reverse rl)) h.
Proof using base_ok cid_ok fresh.
  induction rl as [|layer below IH]; intros co h Ho Hm Hmo Hl; simpl.
  - repeat hstep. simpl. unfold cleaned; simpl.
    rewrite (container_dir_abs co Ho).
    rewrite container_dir_clear, app_nil_r by done. split; [done|].
    destruct (sys h _) as [[e o]|]; simpl; [|done]. exists 0%nat. done.
  - rewrite reverse_cons in *. rewrite length_app, Nat.add_1_r, seq_S, !fmap_app in Hm.
    apply app_inj_tail in Hm as [Hm Hlayer]. simpl in Hlayer.
    unfold mounts_of in Hmo. rewrite fmap_app, reverse_app in Hmo. simpl in Hmo.
    repeat hstep. destruct (sys h _) as [[e o]|]; repeat hstep; simpl.
    { split; [done|]. simpl. exists (length (reverse below ++ [layer])).
      split; [done|]. rewrite take_ge by done. rewrite Hmo. unfold mounts_of.
      rewrite fmap_app, reverse_app. done. }
    rewrite Hmo, remove_first_head.
    rewrite layerDir_abs by (by rewrite <- Ho; destruct co).
    rewrite <- (length_reverse below).
    set (h1 := mkHost _ _ _).
    change (reverse (ol_merged <$> reverse below) ++ h_mounts h0)%list with (h_mounts h1).
    rewrite (layer_dir_clear (reverse below) h1 (length (reverse below))), app_nil_r by (done || lia).
    destruct (sys h1 _) as [[e o]|]; repeat hstep.
    + split; [done|]. simpl. exists (length (reverse below)). rewrite length_app.
      split; [lia|]. by rewrite take_app_le, take_ge by done.
    + eapply hwp_mono; [|apply IH; simpl; try done; by rewrite <- Ho; destruct co].
      intros r h'. apply cleaned_more.
Qed.

(** C25. The layers over the root of a container: whatever the operating system answers,
    the layers that were added are mounted each on the one below and over the mounts
    there were; a cleanup deletes nothing of what is mounted, and when it reports no
    error every layer is gone and the host has the mounts it had (otherwise the lowest
    ones are left). *)
Theorem overlay_lifecycle ops :
  hwp (add_layers ops overlay0) (λ co h1,
    stacked root (ov_layers co) /\ h_mounts h1 = mounts_of (ov_layers co) /\
    hwp (overlay_Cleanup co) (cleaned (ov_layers co)) h1) h0.
Proof using base_ok cid_ok fresh.
  eapply hwp_mono; [|apply add_layers_wp; by split].
  intros co h1 [Ho Hm Hs Hmo Hl]. split; [done|]. split; [done|].
  unfold overlay_Cleanup.
  replace (ov_layers co) with (reverse (reverse (ov_layers co))) at 2 by apply reverse_involutive.
  apply remove_layers_wp; rewrite ?reverse_involutive; done.
Qed.
End overlay.

(** ** The storage of workspaces *)

Section manager.
Context {OS : HostOS}.
Context (base : list string).

Abbreviation umount_of path := (CUmount ["mfs.Unmount"] path).

(** What [Mount] stores: the storage is mounted. *)
Definition ready (s : storage) : Prop := match s with GeeseStorage _ _ mounted => mounted = true | _ => True end.

Record manager_ok (sm : storage_manager) : Prop := {
  mo_base : sm_BaseMountPath sm = abs_path base;
  mo_names : forall name s, sm_mounts sm !! name = Some s -> plain name;
  mo_ready : forall name s, sm_mounts sm !! name = Some s -> ready s;
}.

(** What the unmounting of a workspace does to the host. *)
Definition gone (sm : storage_manager) (name : string) (h h' : host) : Prop :=
  let path := workspace_path sm name in
  match sm_mounts sm !! name with
  | Some (GeeseStorage _ _ mounted) =>
      let ms := if mounted && bool_decide (sys h (umount_of path) = None)
                then remove_first path (h_mounts h) else h_mounts h in
      h_mounts h' = ms /\ h_lost h' = (h_lost h ++ List.filter (under path) ms)%list
  | _ => same_mounts h h'
  end.

Lemma sm_Unmount_wp name sm h :
  hwp (sm_Unmount name sm)
    (λ r h', r = (None, set_sm_mounts (delete name (sm_mounts sm)) sm) /\ gone sm name h h') h.
Proof.
  unfold sm_Unmount, gone, SafeMap_Get, SafeMap_Delete.
  destruct (sm_mounts sm !! name) as [s|] eqn:E.
  2:{ hstep. rewrite delete_id by done. by destruct sm. }
  destruct s as [c|c cache mounted|c|c]; simpl; try by repeat hstep.
  unfold geese_Unmount. repeat hstep. destruct mounted; repeat hstep; simpl; [|by repeat hstep].
  split; [done|]. simpl. by destruct (sys h _) as [[e o]|].
Qed.

Lemma foldr_delete_swap (names : list string) n (m : gmap string storage) :
  foldr delete (delete n m) names = delete n (foldr delete m names).
Proof. induction names as [|n' names IH]; simpl; [done|]. by rewrite IH, delete_delete. Qed.

Lemma foldr_delete_lookup (names : list string) (m : gmap string storage) n :
  foldr delete m names !! n = if bool_decide (n ∈ names) then None else m !! n.
Proof.
  induction names as [|n' names IH]; simpl; [done|].
  destruct (decide (n = n')) as [->|Hne].
  - rewrite lookup_delete_eq. rewrite bool_decide_true by set_solver. done.
  - rewrite lookup_delete_ne, IH by done.
    destruct (decide (n ∈ names)).
    + rewrite !bool_decide_true by set_solver. done.
    + rewrite !bool_decide_false by set_solver. done.
Qed.

Lemma unmount_all_wp (I : list string -> host -> Prop) sm0 names : forall sm h,
  (forall name rest h h', I (name :: rest) h -> gone sm0 name h h' -> I rest h') ->
  NoDup names ->
  sm_BaseMountPath sm = sm_BaseMountPath sm0 ->
  (forall name, name ∈ names -> sm_mounts sm !! name = sm_mounts sm0 !! name) ->
  I names h ->
  hwp (unmount_all names sm)
    (λ sm' h', sm_mounts sm' = foldr delete (sm_mounts sm) names /\ I [] h') h.
Proof.
  induction names as [|name names IH]; intros sm h HI Hnd Hb Hsame Hi; simpl; [by hstep|].
  apply NoDup_cons in Hnd as [Hnot Hnd]. hstep.
  eapply hwp_mono; [|apply sm_Unmount_wp]. intros r h' [-> Hg]. simpl.
  eapply hwp_mono; [|apply IH; try done].
  - intros sm' h'' [Hm HI']. split; [|done]. rewrite Hm. simpl.
    by rewrite foldr_delete_swap.
  - intros n Hn. simpl. rewrite lookup_delete_ne by set_solver. apply Hsame. set_solver.
  - eapply HI; [exact Hi|]. unfold gone in *. unfold workspace_path in *. rewrite Hb in Hg.
    by rewrite Hsame in Hg by set_solver.
Qed.

(** The names that [Range] collects. *)
Lemma range_unused active order : forall acc,
  SafeMap_Range order (note_unused active) acc =
  (acc ++ List.filter (λ n, negb (bool_decide (n ∈ active))) order.*1)%list.
Proof.
  induction order as [|[n s] order IH]; intros acc; simpl; [by rewrite app_nil_r|].
  rewrite IH. destruct (bool_decide (n ∈ active)); simpl; [done|]. by rewrite <- app_assoc.
Qed.

Lemma elem_of_filter_neg (P : string -> bool) l n : n ∈ List.filter P l <-> n ∈ l /\ P n = true.
Proof. rewrite !list_elem_of_In. apply filter_In. Qed.

(** The workspaces of the mounts that a cleanup visits. *)
Definition unused (instances : gmap string ContainerInstance) (order : list (string * storage)) : list string :=
  List.filter (λ n, negb (bool_decide (n ∈ active_workspaces instances))) order.*1.

Lemma unused_spec instances order sm n :
  order ≡ₚ map_to_list (sm_mounts sm) ->
  n ∈ unused instances order <-> is_Some (sm_mounts sm !! n) /\ n ∉ active_workspaces instances.
Proof.
  intros Ho. unfold unused. rewrite elem_of_filter_neg, negb_true_iff, bool_decide_eq_false.
  f_equiv. rewrite Ho, list_elem_of_fmap. split.
  - intros ([n' s] & -> & Hs%elem_of_map_to_list). by eexists.
  - intros [s Hs]. exists (n, s). by rewrite elem_of_map_to_list.
Qed.

Lemma unused_NoDup instances order sm :
  order ≡ₚ map_to_list (sm_mounts sm) -> NoDup (unused instances order).
Proof.
  intros Ho. apply NoDup_ListNoDup, List.NoDup_filter, NoDup_ListNoDup. rewrite Ho.
  apply NoDup_fst_map_to_list.
Qed.

(** A cleanup keeps an invariant of the hosts between two unmounts. *)
Lemma sm_Cleanup_wp (I : host -> Prop) instances order sm h :
  order ≡ₚ map_to_list (sm_mounts sm) ->
  (forall name h h', name ∈ unused instances order -> I h -> gone sm name h h' -> I h') ->
  I h ->
  hwp (sm_Cleanup instances order sm) (λ sm' h',
    sm_mounts sm' = filter (λ p, p.1 ∈ active_workspaces instances) (sm_mounts sm) /\ I h') h.
Proof.
  intros Ho HI Hi. unfold sm_Cleanup. rewrite range_unused. simpl.
  eapply hwp_mono; [|apply (unmount_all_wp (λ names h, I h /\ forall n, n ∈ names -> n ∈ unused instances order) sm)].
  - intros sm' h' [Hm [Hi' _]]. split; [|done]. rewrite Hm. apply map_eq. intros n.
    rewrite foldr_delete_lookup.
    pose proof (unused_spec instances order sm n Ho) as Hu. unfold unused in Hu.
    destruct (sm_mounts sm !! n) as [s|] eqn:E.
    + destruct (decide (n ∈ active_workspaces instances)) as [Ha|Ha].
      * rewrite bool_decide_false by tauto. symmetry. by apply map_lookup_filter_Some.
      * rewrite bool_decide_true by (apply Hu; split; [by eexists|done]).
        symmetry. apply map_lookup_filter_None. right. by intros s' _ ?.
    + transitivity (@None storage); [by destruct (bool_decide _)|].
      symmetry. apply map_lookup_filter_None. by left.
  - intros name rest h1 h2 [H1 Hr] Hg. split; [|intros n Hn; apply Hr; set_solver].
    eapply HI; [|exact H1|exact Hg]. apply Hr. set_solver.
  - by eapply unused_NoDup.
  - done.
  - done.
  - done.
Qed.

Hypothesis base_ok : base <> [] /\ Forall plain base.

Lemma workspace_path_inj sm n n' :
  manager_ok sm -> plain n -> plain n' -> workspace_path sm n = workspace_path sm n' -> n = n'.
Proof using base_ok.
  intros [Hb _ _] Hn Hn'. unfold workspace_path. rewrite Hb.
  rewrite !path_Join_abs by (done || apply base_ok || by constructor). intros H.
  apply abs_path_inj in H; [by apply app_inj_tail in H as [_ H]| | | |];
    first [apply Forall_app; split; [apply base_ok|by constructor]|by intros [_ ?]%app_eq_nil].
Qed.

(** Each file system is mounted once, and none within the storage of a workspace. *)
Record host_ok (sm : storage_manager) (h : host) : Prop := {
  ho_once : NoDup (h_mounts h);
  ho_flat : forall name q, is_Some (sm_mounts sm !! name) -> q ∈ h_mounts h ->
              under (workspace_path sm name) q = true -> q = workspace_path sm name;
}.

(** The operating system unmounts what it is told to. *)
Definition obliging (sm : storage_manager) : Prop :=
  forall h name, sys h (umount_of (workspace_path sm name)) = None.

Lemma gone_spares sm name name' h h' :
  manager_ok sm -> is_Some (sm_mounts sm !! name) -> is_Some (sm_mounts sm !! name') -> name <> name' ->
  gone sm name h h' -> workspace_path sm name' ∈ h_mounts h -> workspace_path sm name' ∈ h_mounts h'.
Proof using base_ok.
  intros Hok [s Hs] [s' Hs'] Hne Hg Hin.
  assert (workspace_path sm name' <> workspace_path sm name) as Hp.
  { intros E. apply Hne. symmetry. eapply workspace_path_inj; [exact Hok| | |exact E]; by eapply mo_names. }
  unfold gone in Hg. rewrite Hs in Hg. destruct s; try (destruct Hg as [-> _]; done).
  destruct Hg as [-> _]. destruct (_ && _); [|done]. by apply remove_first_other.
Qed.

Lemma gone_lost sm name h h' q : gone sm name h h' -> q ∈ h_lost h -> q ∈ h_lost h'.
Proof.
  unfold gone. destruct (sm_mounts sm !! name) as [[]|]; intros [_ ->]; [done| |done|done|done].
  rewrite elem_of_app. by left.
Qed.

Lemma gone_harmless sm name h h' :
  manager_ok sm -> is_Some (sm_mounts sm !! name) -> obliging sm -> host_ok sm h ->
  gone sm name h h' -> h_lost h' = h_lost h /\ host_ok sm h'.
Proof.
  intros Hok [s Hs] Hob [H1 H2] Hg. unfold gone in Hg. rewrite Hs in Hg.
  pose proof (mo_ready sm Hok _ _ Hs) as Hr.
  destruct s; try (destruct Hg as [E1 E2]; split; [done|split; by rewrite E1]).
  simpl in Hr. subst mounted. rewrite Hob in Hg. simpl in Hg. destruct Hg as [E1 E2].
  destruct (remove_first_NoDup (workspace_path sm name) (h_mounts h) H1) as [H3 H4].
  split.
  - rewrite E2, filter_under_none, app_nil_r; [done|]. apply Forall_forall. intros q Hq.
    apply not_true_iff_false. intros Hu. apply H4.
    assert (q = workspace_path sm name) as Eq.
    { apply H2; [by eexists|by eapply remove_first_subset|done]. }
    by rewrite Eq in Hq.
  - split; rewrite E1; [done|]. intros n q Hn Hq. apply H2; [done|]. by eapply remove_first_subset.
Qed.

(** C26. After a cleanup the manager knows exactly the storage of the workspaces that have
    a container; their storage is mounted if it was, and when the operating system
    unmounts what it is told to, no data is deleted. *)
Theorem Cleanup_keeps_active instances order sm h :
  manager_ok sm -> host_ok sm h -> order ≡ₚ map_to_list (sm_mounts sm) ->
  hwp (sm_Cleanup instances order sm) (λ sm' h',
    sm_mounts sm' = filter (λ p, p.1 ∈ active_workspaces instances) (sm_mounts sm) /\
    (forall name, name ∈ active_workspaces instances -> is_Some (sm_mounts sm !! name) ->
       workspace_path sm name ∈ h_mounts h -> workspace_path sm name ∈ h_mounts h') /\
    (obliging sm -> h_lost h' = h_lost h)) h.
Proof using base_ok.
  intros Hok Hh Ho.
  eapply hwp_mono; [|apply (sm_Cleanup_wp (λ h',
    (forall name, name ∈ active_workspaces instances -> is_Some (sm_mounts sm !! name) ->
       workspace_path sm name ∈ h_mounts h -> workspace_path sm name ∈ h_mounts h') /\
    (obliging sm -> h_lost h' = h_lost h /\ host_ok sm h'))); [done| |by split]].
  - intros sm' h' (Hm & Ha & Hl). split; [done|]. split; [done|]. intros Hob. by apply Hl.
  - intros name h1 h2 Hu [Ha Hl] Hg. apply (unused_spec instances order sm) in Hu as [Hs Hu]; [|done].
    split.
    + intros n Hn Hsn Hin. eapply gone_spares; [exact Hok|exact Hs|exact Hsn| |exact Hg|auto].
      intros ->. done.
    + intros Hob. destruct (Hl Hob) as [E Hh1].
      destruct (gone_harmless sm name h1 h2 Hok Hs Hob Hh1 Hg) as [E' Hh2]. by rewrite E', E.
Qed.

(** C40. A workspace without a container whose storage cannot be unmounted (it is in use)
    loses it: the cleanup runs its removal of the directory over the bucket still mounted
    in it, which deletes of the bucket whatever can be deleted, and forgets the mount. *)
Theorem busy_storage_erased instances order sm h name c cache :
  manager_ok sm -> order ≡ₚ map_to_list (sm_mounts sm) ->
  sm_mounts sm !! name = Some (GeeseStorage c cache true) -> name ∉ active_workspaces instances ->
  workspace_path sm name ∈ h_mounts h ->
  (forall h', sys h' (umount_of (workspace_path sm name)) <> None) ->
  hwp (sm_Cleanup instances order sm) (λ sm' h',
    sm_mounts sm' !! name = None /\ workspace_path sm name ∈ h_mounts h' /\
    workspace_path sm name ∈ h_lost h') h.
Proof using base_ok.
  intros Hok Ho Hs Ha Hin Hbusy. unfold sm_Cleanup. rewrite range_unused.
  change ([] ++ List.filter _ _)%list with (unused instances order).
  assert (name ∈ unused instances order) as Hu by (apply (unused_spec _ _ sm); eauto).
  eapply hwp_mono; [|apply (unmount_all_wp (λ names h,
    (forall n, n ∈ names -> is_Some (sm_mounts sm !! n)) /\
    workspace_path sm name ∈ h_mounts h /\
    (name ∉ names -> workspace_path sm name ∈ h_lost h)) sm); try done].
  - intros sm' h' (Hm & _ & Hmo & Hl). rewrite Hm, foldr_delete_lookup, bool_decide_true by done.
    split; [done|]. split; [done|]. apply Hl, not_elem_of_nil.
  - intros n rest h1 h2 (Hd & Hmo & Hl) Hg. split; [set_solver|].
    destruct (decide (n = name)) as [->|Hne].
    + unfold gone in Hg. rewrite Hs in Hg. simpl in Hg.
      rewrite bool_decide_false in Hg by apply Hbusy. destruct Hg as [-> ->]. split; [done|].
      intros _. apply elem_of_app. right. apply elem_of_filter_neg. split; [done|]. apply under_refl.
    + split; [eapply gone_spares; [exact Hok| | |exact Hne|exact Hg|done]; [set_solver|by eexists]|].
      intros Hn. eapply gone_lost; [exact Hg|]. apply Hl. set_solver.
  - by eapply unused_NoDup.
  - split; [intros n Hn; by eapply unused_spec|]. done.
Qed.
End manager.

(** ** The buckets of a container *)

Section buckets.
Context {OS : HostOS} (IsNotExist : string -> bool).
Context (request : ContainerRequest) (base : string) (mounts : list Mount) (h0 : host).
Abbreviation cid := (cr_ContainerId request).

(** The paths at which the buckets of the request are mounted. *)
Definition bucket_paths (ms : list Mount) : list string :=
  omap (λ m, let m' := local_mount base request m in bucket_path cid m' <$> mt_MountPointConfig m') ms.

(** A file system is unmounted exactly when it is mounted. *)
Definition honest : Prop := forall h args p, sys h (CUmount args p) = None <-> p ∈ h_mounts h.

Definition recorded (mm : mount_manager) : list string := default [] (mm_mountPointPaths mm !! cid).

(** The host has the mounts [l] of the container over those it had. *)
Definition over_host (l : list string) (h : host) : Prop :=
  h_mounts h = (l ++ h_mounts h0)%list /\ NoDup l /\ l ⊆ bucket_paths mounts /\ h_lost h = h_lost h0.

Hypothesis Hhonest : honest.
Hypothesis flat : forall p q, p ∈ bucket_paths mounts -> q ∈ bucket_paths mounts -> under p q = true -> p = q.
Hypothesis fresh : forall p q, p ∈ bucket_paths mounts -> q ∈ h_mounts h0 -> under p q = false.

Lemma remove_first_app p (l l' : list string) :
  p ∉ l' -> remove_first p (l ++ l') = (remove_first p l ++ l')%list.
Proof.
  intros Hp. induction l as [|q l IH]; simpl; [by rewrite remove_first_absent|].
  destruct (String.eqb q p); [done|]. by rewrite IH.
Qed.

Lemma nothing_under p l :
  p ∈ bucket_paths mounts -> l ⊆ bucket_paths mounts -> p ∉ l ->
  List.filter (under p) (l ++ h_mounts h0) = [].
Proof using flat fresh.
  intros Hp Hl Hn. apply filter_under_none, Forall_forall. intros q Hq.
  apply elem_of_app in Hq as [Hq|Hq]; [|by apply fresh].
  apply not_true_iff_false. intros Hu. apply Hn. by rewrite (flat p q Hp (Hl q Hq) Hu).
Qed.

Lemma unmount_wp p l h :
  p ∈ bucket_paths mounts -> over_host l h ->
  hwp (mountpoint_Unmount p) (λ _ h', over_host (remove_first p l) h') h.
Proof using Hhonest flat fresh.
  intros Hp (Hm & Hn & Hl & Hlost).
  assert (p ∉ h_mounts h0) as Hp0.
  { intros Hin. pose proof (fresh p p Hp Hin) as H. by rewrite under_refl in H. }
  destruct (remove_first_NoDup p l Hn) as [Hn' Hp'].
  assert (remove_first p l ⊆ bucket_paths mounts) as Hl'.
  { intros q Hq. eapply Hl, remove_first_subset, Hq. }
  pose proof (Hhonest h ["umount"; p] p) as Hs.
  unfold mountpoint_Unmount. repeat hstep.
  destruct (sys h _) as [[e o]|]; repeat hstep.
  - simpl. rewrite Hm in Hs. rewrite remove_first_absent by (intros Hin; destruct Hs as [_ Hs];
      specialize (Hs ltac:(apply elem_of_app; by left)); done).
    by repeat split.
  - simpl. split; simpl; [rewrite Hm; by apply remove_first_app|]. split; [done|]. split; [done|].
    rewrite Hm, remove_first_app, (nothing_under p _ Hp Hl' Hp'), app_nil_r by done. done.
Qed.

Lemma mkdir_wp p h : hwp (mountpoint_mkdir IsNotExist p) (λ _ h', same_mounts h h') h.
Proof.
  unfold mountpoint_mkdir. repeat hstep. destruct (sys h _) as [[e o]|]; [|by hstep].
  destruct (IsNotExist e); by repeat hstep.
Qed.

Lemma over_same l h h' : same_mounts h h' -> over_host l h -> over_host l h'.
Proof. unfold over_host. by intros [-> ->]. Qed.

Lemma mount_wp c p l h :
  p ∈ bucket_paths mounts -> over_host l h ->
  hwp (mountpoint_Mount IsNotExist c p)
    (λ r h', over_host (match r with None => p :: remove_first p l | Some _ => remove_first p l end) h') h.
Proof using Hhonest flat fresh.
  intros Hp Ho. unfold mountpoint_Mount. hstep.
  eapply hwp_mono; [|by apply unmount_wp]. intros r1 h1 H1. cbn beta in H1. hstep.
  eapply hwp_mono; [|apply mkdir_wp]. intros [e|] h2 H2; [hstep; by apply (over_same _ h1)|].
  destruct (over_same _ _ _ H2 H1) as (Hm & Hn & Hl & Hlost).
  destruct Ho as (_ & Hnl & _ & _). destruct (remove_first_NoDup p l Hnl) as [_ Hp'].
  repeat hstep. destruct (sys h2 _) as [[e o]|]; repeat hstep; simpl.
  - split; simpl; [done|]. split; [done|]. split; [done|].
    rewrite Hm, nothing_under, app_nil_r by done. done.
  - split; simpl; [by rewrite Hm|]. split; [by apply NoDup_cons|]. split; [set_solver|done].
Qed.

(** The mounts of the container are among those that are recorded. *)
Definition tracked (mm0 mm : mount_manager) (h : host) : Prop :=
  mm_BaseMountPath mm = base /\
  delete cid (mm_mountPointPaths mm) = delete cid (mm_mountPointPaths mm0) /\
  recorded mm ⊆ bucket_paths mounts /\
  exists l, over_host l h /\ l ⊆ recorded mm.

Lemma setup_mount_wp extracted mm0 m mm h :
  m ∈ mounts -> tracked mm0 mm h ->
  hwp (setup_mount IsNotExist extracted request m mm) (λ r h', tracked mm0 r.2 h') h.
Proof using Hhonest flat fresh.
  intros Hm Ht. pose proof Ht as (Hb & Hd & Hr & l & Ho & Hl). unfold setup_mount.
  destruct (if is_code m then extracted else None); [by hstep|]. rewrite Hb.
  destruct (mt_MountPointConfig (local_mount base request m)) as [c|] eqn:Ec; [|by hstep].
  destruct (String.eqb _ _); [|by hstep].
  assert (bucket_path cid (local_mount base request m) c ∈ bucket_paths mounts) as Hp.
  { unfold bucket_paths. apply list_elem_of_omap. exists m. split; [done|]. by rewrite Ec. }
  set (p := bucket_path cid (local_mount base request m) c) in *.
  unfold setupMountPointS3. do 2 hstep.
  eapply hwp_mono; [|by apply mount_wp]. intros [e|] h' Ho'; repeat hstep; unfold tracked; simpl.
  - do 3 (split; [done|]). eexists. split; [exact Ho'|].
    intros q Hq. eapply Hl, remove_first_subset, Hq.
  - split; [done|]. unfold recorded, SafeMap_Set, SafeMap_Get; simpl.
    rewrite lookup_insert_eq, delete_insert_eq. simpl.
    fold (recorded mm). split; [done|]. split; [set_solver|].
    eexists. split; [exact Ho'|]. intros q [->|Hq]%elem_of_cons; [set_solver|].
    apply elem_of_app. left. eapply Hl, remove_first_subset, Hq.
Qed.

Lemma SetupContainerMounts_wp extracted mm0 ms : forall mm h,
  ms ⊆ mounts -> tracked mm0 mm h ->
  hwp (SetupContainerMounts IsNotExist extracted request ms mm) (λ r h', tracked mm0 r.2 h') h.
Proof using Hhonest flat fresh.
  induction ms as [|m ms IH]; intros mm h Hms Ht; simpl; [by hstep|].
  hstep. eapply hwp_mono; [|apply setup_mount_wp; [set_solver|exact Ht]].
  intros [[[e|] m'] mm'] h' Ht'; [by hstep|]. hstep.
  eapply hwp_mono; [|apply IH; [set_solver|exact Ht']]. intros r h'' Hr. by hstep.
Qed.

Lemma unmount_paths_wp ps : forall l h,
  ps ⊆ bucket_paths mounts -> over_host l h ->
  hwp (unmount_paths ps) (λ _ h', exists l', over_host l' h' /\ forall q, q ∈ l' -> q ∈ l /\ q ∉ ps) h.
Proof using IsNotExist Hhonest flat fresh.
  induction ps as [|p ps IH]; intros l h Hps Ho; simpl.
  { hstep. exists l. split; [done|]. intros q Hq. split; [done|]. apply not_elem_of_nil. }
  hstep. eapply hwp_mono; [|apply unmount_wp; [set_solver|exact Ho]]. intros r1 h1 H1. cbn beta in H1.
  eapply hwp_mono; [|apply IH; [set_solver|exact H1]]. intros [] h2 (l' & Hl' & Hq).
  exists l'. split; [done|]. intros q Hin. destruct (Hq q Hin) as [Hq1 Hq2].
  split; [by eapply remove_first_subset|]. intros [->|?]%elem_of_cons; [|done].
  destruct Ho as (_ & Hn & _). by destruct (remove_first_NoDup p l Hn) as [_ Hp].
Qed.

(** The buckets mounted for a container are all given back: whether the set-up succeeds
    or stops at a mount that fails, the removal that follows leaves the host with the
    mounts it had, deletes nothing of what is mounted, and leaves the records of the
    other containers as they were. *)
Theorem container_mounts_returned extracted mm :
  mm_BaseMountPath mm = base -> mm_mountPointPaths mm !! cid = None ->
  hwp (SetupContainerMounts IsNotExist extracted request mounts mm) (λ r h1,
    hwp (RemoveContainerMounts cid r.2) (λ mm' h2,
      same_mounts h0 h2 /\ mm_mountPointPaths mm' = mm_mountPointPaths mm) h1) h0.
Proof using Hhonest flat fresh.
  intros Hb Hnone.
  eapply hwp_mono; [|apply (SetupContainerMounts_wp extracted mm mounts mm h0); [done|]].
  2:{ unfold tracked, recorded. rewrite Hnone. do 2 (split; [done|]). split; [set_solver|].
      exists []. split; [|done]. unfold over_host. do 2 (split; [constructor|]). split; [set_solver|done]. }
  intros [r1 mm1] h1 (_ & Hd & Hr & l & Ho & Hl). simpl in *. rewrite (delete_id _ cid Hnone) in Hd.
  unfold RemoveContainerMounts, SafeMap_Get, SafeMap_Delete, recorded in *.
  destruct (mm_mountPointPaths mm1 !! cid) as [paths|] eqn:E; simpl in *.
  - hstep. eapply hwp_mono; [|apply unmount_paths_wp; [exact Hr|exact Ho]].
    intros [] h2 (l' & (Hm & _ & _ & Hlost) & Hq). hstep. split; [|done]. split; [|done].
    destruct l' as [|q l']; [done|]. destruct (Hq q) as [Hq1 Hq2]; [set_solver|]. by destruct Hq2; apply Hl.
  - hstep. destruct l as [|q l]; [|by specialize (Hl q); set_solver].
    destruct Ho as (Hm & _ & _ & Hlost). split; [done|]. rewrite <- Hd. by rewrite delete_id.
Qed.
End buckets.

(** ** Witnesses *)

(** A host that can do everything but unmount what is not mounted. *)
Definition ex_os : HostOS := {|
  sys h c := match c with
             | CUmount _ p => if bool_decide (p ∈ h_mounts h) then None else Some ("exit status 32", "not mounted")
             | _ => None
             end;
  http_status _ _ := 200;
|}.
(** One where a file system is in use. *)
Definition busy_os (path : string) : HostOS := {|
  sys h c := match c with
             | CUmount _ p => if String.eqb p path then Some ("device or resource busy", "") else None
             | _ => None
             end;
  http_status _ _ := 200;
|}.

Definition ex_host : host := mkHost ["/data"] [] [].

Lemma overlay_lifecycle_witness :
  let co0 := overlay0 ["tmp"] "c1" "/images/i1/rootfs" in
  let p := @add_layers ex_os [OEmptyLayer; OLayer "/upper"] co0 in
  h_mounts (p ex_host).2 = ["/tmp/c1/layer-1/merged"; "/tmp/c1/layer-0/merged"; "/data"] /\
  hwp p (λ co h1, stacked "/images/i1/rootfs" (ov_layers co) /\
    h_mounts h1 = mounts_of ex_host (ov_layers co) /\
    hwp (@overlay_Cleanup ex_os co) (cleaned ex_host (ov_layers co)) h1) ex_host.
Proof.
  split; [by vm_compute|].
  apply (@overlay_lifecycle ex_os ["tmp"] "c1" "/images/i1/rootfs" ex_host).
  - split; [done|]. constructor; [by vm_compute|constructor].
  - by vm_compute.
  - constructor; [by vm_compute|constructor].
Defined.

Definition ex_container (id workspace : string) (mounts : list Mount) : ContainerRequest :=
  mkContainerRequest id [] [] 1000 1024 "" [] 0 "img" "stub" "ws"
    (mkWorkspace 1 "" workspace 0 0 None false false None None None None)
    (mkStubWithRelated zeroStub zeroWorkspace zeroObject None) 0 mounts 0 "" false false
    zeroBuildOptions [] 0 "" None "" "" "" false [] false.
Definition ex_running : gmap string ContainerInstance :=
  {[ "c2" := mkContainerInstance "stub" (ex_container "c2" "ws2" []) 0 "" ]}.

Definition ex_storage : storage := GeeseStorage zero_Geese false true.
Definition ex_manager : storage_manager :=
  mkStorageManager {[ "ws1" := ex_storage; "ws2" := ex_storage ]} "/mnt/storage" zero_Geese zero_Alluxio
    StorageModeGeese false.
Definition ex_mounted : host := mkHost ["/mnt/storage/ws2"; "/mnt/storage/ws1"; "/data"] [] [].

Lemma ex_manager_ok : manager_ok ["mnt"; "storage"] ex_manager.
Proof.
  assert (forall name s, sm_mounts ex_manager !! name = Some s ->
            (name = "ws1" \/ name = "ws2") /\ s = ex_storage) as H.
  { intros name s. unfold ex_manager; simpl. rewrite lookup_insert_Some.
    intros [[<- <-]|[_ Hs]]; [by auto|]. apply lookup_singleton_Some in Hs as [<- <-]. auto. }
  split; [done| |]; intros name s [Hn ->]%H; [|done]. by destruct Hn as [->| ->]; vm_compute.
Defined.

Lemma ex_host_ok : host_ok ex_manager ex_mounted.
Proof.
  split; [by apply (bool_decide_unpack _); vm_compute|].
  intros name q [s Hs] Hq Hu. unfold ex_manager in Hs; simpl in Hs. rewrite lookup_insert_Some in Hs.
  destruct Hs as [[<- _]|[_ [<- _]%lookup_singleton_Some]]; simpl in Hq;
    repeat (apply elem_of_cons in Hq as [->|Hq]; [first [done | by vm_compute in Hu]|]);
    by apply not_elem_of_nil in Hq.
Defined.

Lemma Cleanup_keeps_active_witness :
  hwp (@sm_Cleanup ex_os ex_running [("ws1", ex_storage); ("ws2", ex_storage)] ex_manager) (λ sm' h',
    sm_mounts sm' = filter (λ p, p.1 ∈ active_workspaces ex_running) (sm_mounts ex_manager) /\
    (forall name, name ∈ active_workspaces ex_running -> is_Some (sm_mounts ex_manager !! name) ->
       workspace_path ex_manager name ∈ h_mounts ex_mounted -> workspace_path ex_manager name ∈ h_mounts h') /\
    (@obliging ex_os ex_manager -> h_lost h' = h_lost ex_mounted)) ex_mounted.
Proof.
  apply (@Cleanup_keeps_active ex_os ["mnt"; "storage"]).
  - split; [done|]. by repeat (constructor; [by vm_compute|]).
  - apply ex_manager_ok.
  - apply ex_host_ok.
  - vm_compute. first [reflexivity | apply Permutation_swap].
Defined.

Lemma busy_storage_erased_witness :
  let OS := busy_os "/mnt/storage/ws1" in
  hwp (@sm_Cleanup OS ex_running [("ws1", ex_storage); ("ws2", ex_storage)] ex_manager) (λ sm' h',
    sm_mounts sm' !! "ws1" = None /\ workspace_path ex_manager "ws1" ∈ h_mounts h' /\
    workspace_path ex_manager "ws1" ∈ h_lost h') ex_mounted.
Proof.
  intros OS. apply (@busy_storage_erased OS ["mnt"; "storage"]) with (c := zero_Geese) (cache := false).
  - split; [done|]. by repeat (constructor; [by vm_compute|]).
  - apply ex_manager_ok.
  - vm_compute. first [reflexivity | apply Permutation_swap].
  - done.
  - by apply (bool_decide_unpack _); vm_compute.
  - by apply (bool_decide_unpack _); vm_compute.
  - intros h'. by vm_compute.
Defined.

Definition ex_bucket (name : string) : Mount :=
  mkMount "/data/buckets" "/volumes/b" "" false StorageModeMountPoint
    (Some (mkMountPointConfig name "" "" "" "" false false)).
Definition ex_bucket_request : ContainerRequest := ex_container "c1" "ws1" [ex_bucket "a"; ex_bucket "b"].
Definition ex_mount_manager : mount_manager := mkMountManager {[ "c9" := ["/x"] ]} "/mnt/storage".

Lemma container_mounts_returned_witness :
  let ms := cr_Mounts ex_bucket_request in
  let setup := @SetupContainerMounts ex_os (λ _, false) None ex_bucket_request ms ex_mount_manager in
  h_mounts (setup ex_host).2 = ["/data/buckets/c1/b"; "/data/buckets/c1/a"; "/data"] /\
  hwp setup (λ r h1, hwp (@RemoveContainerMounts ex_os "c1" r.2) (λ mm' h2,
    same_mounts ex_host h2 /\ mm_mountPointPaths mm' = mm_mountPointPaths ex_mount_manager) h1) ex_host.
Proof.
  split; [by vm_compute|].
  apply (@container_mounts_returned ex_os (λ _, false) ex_bucket_request "/mnt/storage"); try done.
  - intros h args p. simpl. by case_bool_decide.
  - intros p q Hp Hq Hu.
    repeat (apply elem_of_cons in Hp as [->|Hp]); repeat (apply elem_of_cons in Hq as [->|Hq]);
      try (by apply not_elem_of_nil in Hp); try (by apply not_elem_of_nil in Hq); try done; by vm_compute in Hu.
  - intros p q Hp Hq.
    repeat (apply elem_of_cons in Hp as [->|Hp]); repeat (apply elem_of_cons in Hq as [->|Hq]);
      try (by apply not_elem_of_nil in Hp); try (by apply not_elem_of_nil in Hq); by vm_compute.
Defined.
