(* ===== verification/Agent.v ===== *)
(** * The machine agent (pkg/agent)

    The process that runs on a machine of an external pool: the state its dashboard
    shows, the monitor of the machine's pods, the configuration, registration and the
    keep-alive loop, the manager of the machine's inference server and the control API.

    The state is one object behind a mutex: an operation maps it to what it is
    afterwards.  Times are nanoseconds since Go's zero time and [now] is what [time.Now]
    answers.  What the network and the machine answer are arguments, or the operations of
    [OllamaHost] for the inference server.  The percentages are [float64] values, by
    their text, as in [ProviderRepo]. *)

From S2P Require Import Prelude GoStd Redis Types TaskRepo ProviderRepo.

Local Open Scope Z_scope.
Set Default Proof Using "Type".

(** ** The state (state.go) *)

Definition JobStatusPending : string := "PENDING".
Definition JobStatusRunning : string := "RUNNING".
Definition JobStatusCompleted : string := "COMPLETED".
Definition JobStatusFailed : string := "FAILED".

Record JobInfo := mkJobInfo {
  ji_PodName : string;
  ji_TaskID : string;
  ji_FuncName : string;
  ji_Status : string;
  ji_StartTime : Z;
  ji_EndTime : Z;
  ji_Duration : Z;
  ji_CPU : string;
  ji_Memory : string;
  ji_ExitCode : Z;
}.

Record AgentState := mkAgentState {
  ag_MachineID : string;
  ag_PoolName : string;
  ag_Gateway : string;
  ag_Status : string;
  ag_CPUPercent : string;
  ag_MemoryPercent : string;
  ag_GPUCount : Z;
  ag_StartTime : Z;
  ag_LastHeartbeat : Z;
  ag_HeartbeatStatus : string;
  ag_Jobs : list JobInfo;
  ag_RunningJobs : Z;
  ag_TotalJobs : Z;
  ag_InferenceStatus : string;
  ag_InferenceIP : string;
  ag_InferencePort : Z;
  ag_InferenceModels : list string;
  ag_Logs : list string;
  ag_MaxLogs : Z;
}.

Definition NewAgentState (now : Z) (machineID poolName gateway : string) : AgentState :=
  mkAgentState machineID poolName gateway "STARTING" "0" "0" 0 now 0 "" [] 0 0 "stopped" "" 0 [] [] 10.

Definition set_Status (status : string) (s : AgentState) : AgentState :=
  mkAgentState (ag_MachineID s) (ag_PoolName s) (ag_Gateway s) status (ag_CPUPercent s) (ag_MemoryPercent s)
    (ag_GPUCount s) (ag_StartTime s) (ag_LastHeartbeat s) (ag_HeartbeatStatus s) (ag_Jobs s)
    (ag_RunningJobs s) (ag_TotalJobs s) (ag_InferenceStatus s) (ag_InferenceIP s) (ag_InferencePort s)
    (ag_InferenceModels s) (ag_Logs s) (ag_MaxLogs s).
Definition set_heartbeat (now : Z) (status : string) (s : AgentState) : AgentState :=
  mkAgentState (ag_MachineID s) (ag_PoolName s) (ag_Gateway s) (ag_Status s) (ag_CPUPercent s)
    (ag_MemoryPercent s) (ag_GPUCount s) (ag_StartTime s) now status (ag_Jobs s)
    (ag_RunningJobs s) (ag_TotalJobs s) (ag_InferenceStatus s) (ag_InferenceIP s) (ag_InferencePort s)
    (ag_InferenceModels s) (ag_Logs s) (ag_MaxLogs s).
Definition set_Jobs (jobs : list JobInfo) (s : AgentState) : AgentState :=
  mkAgentState (ag_MachineID s) (ag_PoolName s) (ag_Gateway s) (ag_Status s) (ag_CPUPercent s)
    (ag_MemoryPercent s) (ag_GPUCount s) (ag_StartTime s) (ag_LastHeartbeat s) (ag_HeartbeatStatus s) jobs
    (ag_RunningJobs s) (ag_TotalJobs s) (ag_InferenceStatus s) (ag_InferenceIP s) (ag_InferencePort s)
    (ag_InferenceModels s) (ag_Logs s) (ag_MaxLogs s).
Definition set_counts (running total : Z) (s : AgentState) : AgentState :=
  mkAgentState (ag_MachineID s) (ag_PoolName s) (ag_Gateway s) (ag_Status s) (ag_CPUPercent s)
    (ag_MemoryPercent s) (ag_GPUCount s) (ag_StartTime s) (ag_LastHeartbeat s) (ag_HeartbeatStatus s)
    (ag_Jobs s) running total (ag_InferenceStatus s) (ag_InferenceIP s) (ag_InferencePort s)
    (ag_InferenceModels s) (ag_Logs s) (ag_MaxLogs s).
Definition set_Logs (logs : list string) (s : AgentState) : AgentState :=
  mkAgentState (ag_MachineID s) (ag_PoolName s) (ag_Gateway s) (ag_Status s) (ag_CPUPercent s)
    (ag_MemoryPercent s) (ag_GPUCount s) (ag_StartTime s) (ag_LastHeartbeat s) (ag_HeartbeatStatus s)
    (ag_Jobs s) (ag_RunningJobs s) (ag_TotalJobs s) (ag_InferenceStatus s) (ag_InferenceIP s)
    (ag_InferencePort s) (ag_InferenceModels s) logs (ag_MaxLogs s).

Definition UpdateMetrics (cpu memory : string) (gpus : Z) (s : AgentState) : AgentState :=
  mkAgentState (ag_MachineID s) (ag_PoolName s) (ag_Gateway s) (ag_Status s) cpu memory gpus
    (ag_StartTime s) (ag_LastHeartbeat s) (ag_HeartbeatStatus s) (ag_Jobs s)
    (ag_RunningJobs s) (ag_TotalJobs s) (ag_InferenceStatus s) (ag_InferenceIP s) (ag_InferencePort s)
    (ag_InferenceModels s) (ag_Logs s) (ag_MaxLogs s).

Definition UpdateHeartbeat (now : Z) (success : bool) (s : AgentState) : AgentState :=
  if success then
    let s := set_heartbeat now "ok" s in
    if negb (String.eqb (ag_Status s) "BUSY") then set_Status "READY" s else s
  else set_Status "UNHEALTHY" (set_heartbeat now "failed" s).

Definition is_active (job : JobInfo) : bool :=
  String.eqb (ji_Status job) JobStatusRunning || String.eqb (ji_Status job) JobStatusPending.

Definition updateJobCounts (s : AgentState) : AgentState :=
  let running := Z.of_nat (length (filter (λ j, is_active j = true) (ag_Jobs s))) in
  let s := set_counts running (Z.of_nat (length (ag_Jobs s))) s in
  if 0 <? running then set_Status "BUSY" s
  else if String.eqb (ag_HeartbeatStatus s) "ok" then set_Status "READY" s
  else s.

(** The first job of the pod replaced, if there is one. *)
Fixpoint replace_job (job : JobInfo) (jobs : list JobInfo) : option (list JobInfo) :=
  match jobs with
  | [] => None
  | existing :: rest =>
      if String.eqb (ji_PodName existing) (ji_PodName job) then Some (job :: rest)
      else (cons existing) <$> replace_job job rest
  end.

Definition AddJob (job : JobInfo) (s : AgentState) : AgentState :=
  match replace_job job (ag_Jobs s) with
  | Some jobs => updateJobCounts (set_Jobs jobs s)
  | None => updateJobCounts (set_Jobs (take 20 (job :: ag_Jobs s)) s)
  end.

Definition UpdateInference (status ip : string) (port : Z) (models : list string) (s : AgentState) : AgentState :=
  mkAgentState (ag_MachineID s) (ag_PoolName s) (ag_Gateway s) (ag_Status s) (ag_CPUPercent s)
    (ag_MemoryPercent s) (ag_GPUCount s) (ag_StartTime s) (ag_LastHeartbeat s) (ag_HeartbeatStatus s)
    (ag_Jobs s) (ag_RunningJobs s) (ag_TotalJobs s) status ip port models (ag_Logs s) (ag_MaxLogs s).

(** [timestamp]: the clock as hours, minutes and seconds. *)
Definition log_entry (timestamp msg : string) : string :=
  let entry := timestamp +:+ " " +:+ msg in
  if (70 <? String.length entry)%nat then substring 0 67 entry +:+ "..." else entry.

Definition AddLog (timestamp msg : string) (s : AgentState) : AgentState :=
  let logs := (ag_Logs s ++ [log_entry timestamp msg])%list in
  if (0 <? ag_MaxLogs s) && (ag_MaxLogs s <? Z.of_nat (length logs))
  then set_Logs (drop (length logs - Z.to_nat (ag_MaxLogs s)) logs) s
  else if ag_MaxLogs s =? 0 then set_Logs [] s
  else set_Logs logs s.

Definition TimeSinceHeartbeat (now : Z) (s : AgentState) : Z :=
  if ag_LastHeartbeat s =? 0 then 0 else now - ag_LastHeartbeat s.

(** ** Pods as jobs (job_monitor.go) *)

Record terminated := mkTerminated { tm_ExitCode : Z; tm_FinishedAt : string }.

Record ContainerStatus := mkContainerStatus {
  cs_Running : option string;
  cs_Terminated : option terminated;
}.

(** A pod as kubectl prints it, the fields the agent reads. *)
Record pod := mkPod {
  pod_Name : string;
  pod_Labels : gmap string string;
  pod_CreationTimestamp : string;
  pod_Phase : string;
  pod_ContainerStatuses : list ContainerStatus;
}.

Definition determineJobStatus (event : pod) : string :=
  let by_phase :=
    let phase := pod_Phase event in
    if String.eqb phase "Pending" then JobStatusPending
    else if String.eqb phase "Running" then JobStatusRunning
    else if String.eqb phase "Succeeded" then JobStatusCompleted
    else if String.eqb phase "Failed" then JobStatusFailed
    else JobStatusPending in
  match pod_ContainerStatuses event with
  | [] => by_phase
  | cs :: _ =>
      match cs_Terminated cs with
      | Some t => if tm_ExitCode t =? 0 then JobStatusCompleted else JobStatusFailed
      | None => match cs_Running cs with Some _ => JobStatusRunning | None => by_phase end
      end
  end.

Definition extractFuncName (podName : string) : string :=
  let parts := split_on "-" podName in
  if (3 <=? length parts)%nat then Join (drop 2 (take (length parts - 1) parts)) "-" else podName.

(** Go's zero time when the text is empty or not a time. *)
Definition parseK8sTime (ts : string) : Z :=
  if String.eqb ts "" then 0 else default 0 (parse_rfc3339 ts).

Definition funcName_of (p : pod) : string :=
  let funcName := default "" (pod_Labels p !! "beta9.io/stub-id") in
  if String.eqb funcName "" then extractFuncName (pod_Name p) else funcName.

(** The end and exit code of the first container, if it has terminated. *)
Definition pod_end (p : pod) : Z * Z :=
  match pod_ContainerStatuses p with
  | cs :: _ =>
      match cs_Terminated cs with
      | Some t => (parseK8sTime (tm_FinishedAt t), tm_ExitCode t)
      | None => (0, 0)
      end
  | [] => (0, 0)
  end.

(** The difference of two times saturates at the ends of a [Duration]. *)
Definition time_Sub (a b : Z) : Z := Z.max (- 2 ^ 63) (Z.min (2 ^ 63 - 1) (a - b)).

(** [line]: the event, if it can be decoded. *)
Definition processWatchEvent (line : option pod) (s : AgentState) : AgentState :=
  match line with
  | None => s
  | Some event =>
      if String.eqb (pod_Name event) "" then s
      else
        let startTime := parseK8sTime (pod_CreationTimestamp event) in
        let '(endTime, exitCode) := pod_end event in
        let duration := if negb (endTime =? 0) && negb (startTime =? 0) then time_Sub endTime startTime else 0 in
        AddJob (mkJobInfo (pod_Name event) "" (funcName_of event) (determineJobStatus event) startTime endTime
                  duration "" "" exitCode) s
  end.

Definition refreshed_status (p : pod) : string :=
  let by_phase :=
    if String.eqb (pod_Phase p) "Running" then JobStatusRunning
    else if String.eqb (pod_Phase p) "Succeeded" then JobStatusCompleted
    else if String.eqb (pod_Phase p) "Failed" then JobStatusFailed
    else JobStatusPending in
  match pod_ContainerStatuses p with
  | cs :: _ =>
      match cs_Terminated cs with
      | Some t => if tm_ExitCode t =? 0 then JobStatusCompleted else JobStatusFailed
      | None => by_phase
      end
  | [] => by_phase
  end.

Definition refresh_pod (s : AgentState) (p : pod) : AgentState :=
  let '(endTime, exitCode) := pod_end p in
  AddJob (mkJobInfo (pod_Name p) "" (funcName_of p) (refreshed_status p)
            (parseK8sTime (pod_CreationTimestamp p)) endTime 0 "" "" exitCode) s.

(** [items]: the pods kubectl lists, if it answers and its output can be decoded. *)
Definition RefreshPods (items : option (list pod)) (s : AgentState) : AgentState :=
  match items with None => s | Some l => foldl refresh_pod s l end.

(** One connection of the watcher: the lines of its output. *)
Definition watchPods (lines : list (option pod)) (s : AgentState) : AgentState :=
  foldl (λ s line, processWatchEvent line s) s lines.

(** ** Metrics (metrics.go) *)

(** [output]: of nvidia-smi, if it runs. *)
Definition DetectGPUCount (output : option string) : Z :=
  match output with
  | None => 0
  | Some o =>
      Z.of_nat (length (filter (λ l, TrimSpace l <> "") (split_on (Ascii.ascii_of_nat 10) (TrimSpace o))))
  end.

Definition GetCPUString (count : option Z) : string :=
  fmt_int (wrap_i64 (default 4 count * 1000)) +:+ "m".

Definition GetMemoryString (total : option Z) : string :=
  match total with
  | None => "8Gi"
  | Some t => fmt_int (t / (1024 * 1024 * 1024)) +:+ "Gi"
  end.

(** An address of an interface: [None] for one without an IP. *)
Record ip_addr := mkIpAddr { ia_loopback : bool; ia_link_local : bool; ia_v4 : option string }.
Record iface := mkIface { if_loopback : bool; if_up : bool; if_addrs : option (list (option ip_addr)) }.

Fixpoint first_ipv4 (addrs : list (option ip_addr)) : option string :=
  match addrs with
  | [] => None
  | None :: rest => first_ipv4 rest
  | Some a :: rest =>
      if ia_loopback a || ia_link_local a then first_ipv4 rest
      else match ia_v4 a with Some s => Some s | None => first_ipv4 rest end
  end.

Fixpoint private_ip (interfaces : list iface) : string :=
  match interfaces with
  | [] => "127.0.0.1"
  | i :: rest =>
      if if_loopback i || negb (if_up i) then private_ip rest
      else
        match if_addrs i with
        | None => private_ip rest
        | Some addrs => match first_ipv4 addrs with Some ip => ip | None => private_ip rest end
        end
  end.

Definition GetPrivateIP (interfaces : option (list iface)) : string :=
  match interfaces with None => "127.0.0.1" | Some l => private_ip l end.

(** What gopsutil and nvidia-smi answer. *)
Record machine_info := mkMachineInfo {
  mi_cpus : option Z;
  mi_cpu_percent : option (list string);
  mi_memory : option (Z * string);
  mi_disk : option (Z * Z);
  mi_gpus : option string;
  mi_interfaces : option (list iface);
}.

Definition Collect (i : machine_info) : ProviderMachineMetrics :=
  let cpuPct := match mi_cpu_percent i with Some (p :: _) => p | _ => "0" end in
  mkMachineMetrics (wrap_i64 (default 1 (mi_cpus i) * 1000))
    (wrap_i64 (from_option fst 0 (mi_memory i))) (wrap_i64 (from_option fst 0 (mi_disk i)))
    cpuPct (from_option snd "0" (mi_memory i)) (wrap_i64 (from_option snd 0 (mi_disk i)))
    0 0 (DetectGPUCount (mi_gpus i)) "0" 0 0 "0".

(** ** Configuration (config.go, config_file.go, errors.go) *)

Definition DefaultGatewayPort : Z := 1994.
Definition DefaultKeepaliveInterval : Z := 60 * second.
Definition DefaultRegistrationTimeout : Z := 30 * second.
Definition DefaultProviderName : string := "generic".
Definition DefaultPoolName : string := "external".

Record AgentConfig := mkAgentConfig {
  ac_Token : string;
  ac_MachineID : string;
  ac_PoolName : string;
  ac_GatewayHost : string;
  ac_GatewayPort : Z;
  ac_GatewayScheme : string;
  ac_ProviderName : string;
  ac_Hostname : string;
  ac_K3sToken : string;
  ac_KeepaliveInterval : Z;
  ac_RegistrationTimeout : Z;
  ac_Debug : bool;
  ac_DryRun : bool;
  ac_Once : bool;
}.

Inductive agent_err :=
| ErrConfigValidation (field message : string)
| ErrRegistrationFailed (reason : string) (statusCode : Z)
| ErrKeepaliveFailed (statusCode : Z) (body : string)
| EAgent (e : gerr).

Definition is_hex_char (c : Ascii.ascii) : bool :=
  let n := Ascii.nat_of_ascii c in
  ((97 <=? n) && (n <=? 102) || (65 <=? n) && (n <=? 70) || (48 <=? n) && (n <=? 57))%nat.

(** [^[a-fA-F0-9]{8}$] *)
Fixpoint hex_chars (n : nat) (s : string) : bool :=
  match n, s with
  | O, "" => true
  | S n', String c s' => is_hex_char c && hex_chars n' s'
  | _, _ => false
  end.

Definition Validate (c : AgentConfig) : option agent_err :=
  if String.eqb (ac_Token c) ""
  then Some (ErrConfigValidation "token" "is required (from 'beta9 machine create')")
  else if String.eqb (ac_MachineID c) "" then Some (ErrConfigValidation "machine_id" "is required")
  else if negb (String.length (ac_MachineID c) =? 8)%nat
  then Some (ErrConfigValidation "machine_id"
         ("must be exactly 8 hex chars, got " +:+ fmt_int (Z.of_nat (String.length (ac_MachineID c)))
          +:+ " chars: " +:+ ac_MachineID c))
  else if negb (hex_chars 8 (ac_MachineID c))
  then Some (ErrConfigValidation "machine_id" ("must be hex characters only, got: " +:+ ac_MachineID c))
  else if String.eqb (ac_PoolName c) "" then Some (ErrConfigValidation "pool_name" "is required")
  else if (ac_GatewayPort c <? 1) || (65535 <? ac_GatewayPort c)
  then Some (ErrConfigValidation "gateway_port" ("must be 1-65535, got: " +:+ fmt_int (ac_GatewayPort c)))
  else None.

(** [os.Getenv] is [""] for a variable that is not set. *)
Section env.
Context (Getenv : string -> string).

Definition getEnvOrDefault (key defaultVal : string) : string :=
  if negb (String.eqb (Getenv key) "") then Getenv key else defaultVal.

Definition getEnvIntOrDefault (key : string) (defaultVal : Z) : Z :=
  if negb (String.eqb (Getenv key) "") then default defaultVal (ParseInt 64 (Getenv key)) else defaultVal.

Definition getEnvBool (key : string) : bool :=
  let val := Getenv key in String.eqb val "1" || String.eqb val "true" || String.eqb val "yes".

Definition NewConfigFromEnv : AgentConfig :=
  let port := getEnvIntOrDefault "BETA9_GATEWAY_PORT" DefaultGatewayPort in
  let keepaliveInterval := getEnvIntOrDefault "BETA9_KEEPALIVE_INTERVAL" (DefaultKeepaliveInterval / second) in
  mkAgentConfig (Getenv "BETA9_TOKEN") (Getenv "BETA9_MACHINE_ID")
    (getEnvOrDefault "BETA9_POOL_NAME" DefaultPoolName) (getEnvOrDefault "BETA9_GATEWAY_HOST" "localhost")
    port "http" (getEnvOrDefault "BETA9_PROVIDER_NAME" DefaultProviderName) (Getenv "BETA9_HOSTNAME")
    (Getenv "BETA9_K3S_TOKEN") (wrap_i64 (keepaliveInterval * second)) DefaultRegistrationTimeout
    (getEnvBool "BETA9_DEBUG") false false.
End env.

Record ConfigFile := mkConfigFile {
  cf_GatewayHost : string;
  cf_GatewayPort : Z;
  cf_MachineID : string;
  cf_MachineToken : string;
  cf_MachineHostname : string;
  cf_Pool : string;
  cf_Provider : string;
  cf_K3sToken : string;
  cf_Debug : bool;
}.

Definition ToAgentConfig (c : ConfigFile) : AgentConfig :=
  let port := if cf_GatewayPort c =? 0 then DefaultGatewayPort else cf_GatewayPort c in
  let pool := if String.eqb (cf_Pool c) "" then DefaultPoolName else cf_Pool c in
  let provider := if String.eqb (cf_Provider c) "" then DefaultProviderName else cf_Provider c in
  mkAgentConfig (cf_MachineToken c) (cf_MachineID c) pool (cf_GatewayHost c) port "http" provider
    (cf_MachineHostname c) (cf_K3sToken c) DefaultKeepaliveInterval DefaultRegistrationTimeout (cf_Debug c)
    false false.

Definition NewConfigFileFromAgentConfig (cfg : AgentConfig) : ConfigFile :=
  mkConfigFile (ac_GatewayHost cfg) (ac_GatewayPort cfg) (ac_MachineID cfg) (ac_Token cfg) (ac_Hostname cfg)
    (ac_PoolName cfg) (ac_ProviderName cfg) (ac_K3sToken cfg) (ac_Debug cfg).

(** [file]: what stat says of the file, and its contents as far as they can be read and
    decoded. *)
Definition LoadOrCreateConfig (exists_ : bool) (file : gerr + ConfigFile) : option AgentConfig * bool * option gerr :=
  if negb exists_ then (None, false, None)
  else match file with
       | inl e => (None, true, Some e)
       | inr fileCfg => (Some (ToAgentConfig fileCfg), true, None)
       end.

(** ** Registration (registration.go) *)

(** [is_ipv6 host]: [net.ParseIP] accepts the host and [To4] answers nil. *)
Section urls.
Context (is_ipv6 : string -> bool).

Definition GatewayURL (c : AgentConfig) : string :=
  let host := if is_ipv6 (ac_GatewayHost c) then "[" +:+ ac_GatewayHost c +:+ "]" else ac_GatewayHost c in
  ac_GatewayScheme c +:+ "://" +:+ host +:+ ":" +:+ fmt_int (ac_GatewayPort c).

Definition RegisterURL (c : AgentConfig) : string := GatewayURL c +:+ "/api/v1/machine/register".
Definition KeepaliveURL (c : AgentConfig) : string := GatewayURL c +:+ "/api/v1/machine/keepalive".
End urls.

Record RegistrationPayload := mkRegistrationPayload {
  rp_Token : string;
  rp_MachineID : string;
  rp_Hostname : string;
  rp_ProviderName : string;
  rp_PoolName : string;
  rp_CPU : string;
  rp_Memory : string;
  rp_GPUCount : string;
  rp_PrivateIP : string;
}.

(** The body of the request, as [json.Marshal] writes it: the fields under their tags.  The
    strings are taken to be valid UTF-8. *)
Definition registration_json (p : RegistrationPayload) : jvalue :=
  JObj [ ("token", JStr (rp_Token p)); ("machine_id", JStr (rp_MachineID p)); ("hostname", JStr (rp_Hostname p));
         ("provider_name", JStr (rp_ProviderName p)); ("pool_name", JStr (rp_PoolName p)); ("cpu", JStr (rp_CPU p));
         ("memory", JStr (rp_Memory p)); ("gpu_count", JStr (rp_GPUCount p)); ("private_ip", JStr (rp_PrivateIP p)) ].

Definition registration_payload (config : AgentConfig) (i : machine_info) : RegistrationPayload :=
  let hostname := if String.eqb (ac_Hostname config) "" then "machine-" +:+ ac_MachineID config
                  else ac_Hostname config in
  mkRegistrationPayload (ac_K3sToken config) (ac_MachineID config) hostname (ac_ProviderName config)
    (ac_PoolName config) (GetCPUString (mi_cpus i)) (GetMemoryString (fst <$> mi_memory i))
    (fmt_int (DetectGPUCount (mi_gpus i))) (GetPrivateIP (mi_interfaces i)).

(** The gateway's answer: no connection, a body that cannot be read, or a status with a
    body and, if it decodes, its configuration. *)
Inductive register_answer (Config : Type) :=
| NoConnection (e : string)
| Unreadable (e : string)
| Answered (status : Z) (body : string) (decoded : string + Config).
Arguments NoConnection {Config}.
Arguments Unreadable {Config}.
Arguments Answered {Config}.

(** [DryRunConfig] is the map with the entry [dry_run]. *)
Inductive registered (Config : Type) := DryRunConfig | GatewayConfig (c : Config).
Arguments DryRunConfig {Config}.
Arguments GatewayConfig {Config}.

(** [marshal] and [new_request]: the errors of the encoding and of the request. *)
Definition RegisterMachine {Config} (is_ipv6 : string -> bool) (config : AgentConfig)
    (marshal new_request : option gerr) (answer : register_answer Config) : agent_err + registered Config :=
  if ac_DryRun config then inr DryRunConfig
  else
    match marshal with
    | Some e => inl (EAgent (EWrap "failed to marshal payload" e))
    | None =>
        match new_request with
        | Some e => inl (EAgent (EWrap "failed to create request" e))
        | None =>
            match answer with
            | NoConnection e =>
                inl (ErrRegistrationFailed ("connection failed to " +:+ GatewayURL is_ipv6 config +:+ ": " +:+ e
                       +:+ " (is SSH tunnel running?)") 0)
            | Unreadable e => inl (ErrRegistrationFailed ("failed to read response: " +:+ e) 0)
            | Answered status body decoded =>
                if status =? 200 then
                  match decoded with
                  | inl e => inl (ErrRegistrationFailed ("invalid JSON response: " +:+ e) 0)
                  | inr c => inr (GatewayConfig c)
                  end
                else if status =? 403 then
                  inl (ErrRegistrationFailed "Invalid token - ensure token is from 'beta9 machine create'" 403)
                else if status =? 400 then inl (ErrRegistrationFailed ("Bad request: " +:+ body) 400)
                else inl (ErrRegistrationFailed ("Unexpected response: " +:+ body) status)
            end
        end
    end.

(** ** Keep-alives (keepalive.go) *)

Record InferenceStatus := mkInferenceStatus {
  is_Status : string;
  is_IP : string;
  is_Port : Z;
  is_Models : list string;
}.

Record KeepalivePayload := mkKeepalivePayload {
  ka_MachineID : string;
  ka_ProviderName : string;
  ka_PoolName : string;
  ka_AgentVersion : string;
  ka_Metrics : ProviderMachineMetrics;
  ka_Inference : option InferenceStatus;
}.

(** The body of a keep-alive.  An [int] has 64 bits; the empty fields marked [omitempty]
    are left out. *)
Definition int_json (z : Z) : jvalue := JNum (fmt_int (wrap_i64 z)).

Definition metrics_json (m : ProviderMachineMetrics) : jvalue :=
  JObj [ ("total_cpu_available", int_json (mm_TotalCpuAvailable m));
         ("total_memory_available", int_json (mm_TotalMemoryAvailable m));
         ("total_disk_space_bytes", int_json (mm_TotalDiskSpaceBytes m));
         ("cpu_utilization_pct", JNum (mm_CpuUtilizationPct m));
         ("memory_utilization_pct", JNum (mm_MemoryUtilizationPct m));
         ("total_disk_free_bytes", int_json (mm_TotalDiskFreeBytes m));
         ("worker_count", int_json (mm_WorkerCount m)); ("container_count", int_json (mm_ContainerCount m));
         ("free_gpu_count", int_json (mm_FreeGpuCount m)); ("cache_usage_pct", JNum (mm_CacheUsagePct m));
         ("cache_capacity", int_json (mm_CacheCapacity m)); ("cache_memory_usage", int_json (mm_CacheMemoryUsage m));
         ("cache_cpu_usage", JNum (mm_CacheCpuUsage m)) ].

Definition inference_json (i : InferenceStatus) : jvalue :=
  JObj (("status", JStr (is_Status i)) ::
        (if String.eqb (is_IP i) "" then [] else [("ip", JStr (is_IP i))]) ++
        (if is_Port i =? 0 then [] else [("port", int_json (is_Port i))]) ++
        (match is_Models i with [] => [] | models => [("models", JArr (JStr <$> models))] end))%list.

Definition keepalive_json (p : KeepalivePayload) : jvalue :=
  JObj ([ ("machine_id", JStr (ka_MachineID p)); ("provider_name", JStr (ka_ProviderName p));
          ("pool_name", JStr (ka_PoolName p)); ("agent_version", JStr (ka_AgentVersion p));
          ("metrics", metrics_json (ka_Metrics p)) ] ++
        (match ka_Inference p with None => [] | Some i => [("inference", inference_json i)] end))%list.

(** The loop; the agent's state is the one the dashboard shows, and nil without it. *)
Record KeepaliveLoop := mkKeepaliveLoop {
  kl_config : AgentConfig;
  kl_lastMetrics : option ProviderMachineMetrics;
  kl_consecutiveFailures : Z;
  kl_maxFailures : Z;
}.

Definition NewKeepaliveLoop (config : AgentConfig) : KeepaliveLoop := mkKeepaliveLoop config None 0 3.

Definition GetLastMetrics (k : KeepaliveLoop) : ProviderMachineMetrics :=
  default zeroMachineMetrics (kl_lastMetrics k).

Definition IsHealthy (k : KeepaliveLoop) : bool := kl_consecutiveFailures k <? kl_maxFailures k.

Definition inference_status (s : AgentState) : InferenceStatus :=
  mkInferenceStatus (ag_InferenceStatus s)
    (if String.eqb (ag_InferenceStatus s) "running" && negb (String.eqb (ag_InferenceIP s) "")
     then ag_InferenceIP s else "")
    (ag_InferencePort s) (ag_InferenceModels s).

Definition keepalive_payload (k : KeepaliveLoop) (state : option AgentState) (metrics : ProviderMachineMetrics)
    : KeepalivePayload :=
  mkKeepalivePayload (ac_MachineID (kl_config k)) (ac_ProviderName (kl_config k)) (ac_PoolName (kl_config k))
    "0.2.0-go" metrics (inference_status <$> state).

Definition set_failures (n : Z) (k : KeepaliveLoop) : KeepaliveLoop :=
  mkKeepaliveLoop (kl_config k) (kl_lastMetrics k) n (kl_maxFailures k).
Definition set_lastMetrics (m : ProviderMachineMetrics) (k : KeepaliveLoop) : KeepaliveLoop :=
  mkKeepaliveLoop (kl_config k) (Some m) (kl_consecutiveFailures k) (kl_maxFailures k).

(** What becomes of a keep-alive: it cannot be encoded or requested, the connection
    fails, or the gateway answers with a status. *)
Inductive keepalive_answer :=
| NotSent
| ConnectionFailed
| Status (code : Z).

(** [now]: the time of the answer. *)
Definition sendKeepalive (now : Z) (metrics : ProviderMachineMetrics) (answer : keepalive_answer)
    (k : KeepaliveLoop) (state : option AgentState) : bool * KeepaliveLoop * option AgentState :=
  let k := set_lastMetrics metrics k in
  let failed := set_failures (wrap_i 32 (kl_consecutiveFailures k + 1)) k in
  if ac_DryRun (kl_config k) then (true, k, state)
  else
    match answer with
    | NotSent => (false, k, state)
    | ConnectionFailed => (false, failed, state)
    | Status code =>
        if code =? 200 then (true, set_failures 0 k, UpdateHeartbeat now true <$> state)
        else (false, failed, UpdateHeartbeat now false <$> state)
    end.

(** The loop after keep-alives with these metrics and answers. *)
Fixpoint keepalives (rounds : list (Z * ProviderMachineMetrics * keepalive_answer)) (k : KeepaliveLoop)
    (state : option AgentState) : KeepaliveLoop * option AgentState :=
  match rounds with
  | [] => (k, state)
  | (now, metrics, answer) :: rest =>
      let '(_, k', state') := sendKeepalive now metrics answer k state in keepalives rest k' state'
  end.

Definition SendSingleKeepalive (now : Z) (metrics : ProviderMachineMetrics) (answer : keepalive_answer)
    (config : AgentConfig) : bool :=
  (sendKeepalive now metrics answer (NewKeepaliveLoop config) None).1.1.

(** [monitorHealth] and the check of [tuiLoop] at a tick. *)
Definition health_check (k : KeepaliveLoop) : option agent_err :=
  if negb (IsHealthy k) then Some (ErrKeepaliveFailed 0 "too many consecutive failures") else None.

(** ** The inference server of the machine (inference.go) *)

Definition LoadStateIdle : string := "idle".
Definition LoadStateLoading : string := "loading".
Definition LoadStateReady : string := "ready".
Definition LoadStateError : string := "error".
Definition DefaultOllamaPort : Z := 11434.
Definition OllamaStartTimeout : Z := 30 * second.

(** [Temperature] is a [float64], by its IEEE 754 bits. *)
Record InferenceJob := mkInferenceJob {
  ij_ID : string;
  ij_Model : string;
  ij_Messages : list (string * string);
  ij_Input : string;
  ij_Temperature : Z;
}.

Record InferenceResult := mkInferenceResult { ir_ID : string; ir_Model : string; ir_Content : string }.

Record ModelState := mkModelState {
  md_Name : string;
  md_LoadState : string;
  md_LastUsed : Z;
  md_Error : string;
}.

(** [om_process]: nil, a command that was not started, or a started process. *)
Inductive process := NoProcess | Unstarted | Started.

Record OllamaManager := mkOllamaManager {
  om_process : process;
  om_port : Z;
  om_tailscaleIP : string;
  om_models : gmap string ModelState;
  om_started : bool;
  om_external : bool;
}.

Definition NewOllamaManager (tailscaleIP : string) (port : Z) : OllamaManager :=
  mkOllamaManager NoProcess (if port =? 0 then DefaultOllamaPort else port) tailscaleIP ∅ false false.

(** The bodies sent to the server. *)
Inductive ollama_body :=
| BWarm (model prompt : string) (keep_alive : Z)
| BUnload (model : string) (keep_alive : Z)
| BChat (model : string) (messages : list (string * string)) (stream : bool) (temperature : option Z)
| BGenerate (model prompt : string) (stream : bool)
| BPull (name : string).

(** The machine: whether the server at a port answers a request for its tags with 200,
    whether the binary is in the path, the start of [ollama serve], its interruption and
    end, a POST, and the models the server lists.  The machine may change meanwhile. *)
Class OllamaHost := {
  ohost : Type;
  on_darwin : bool;
  probe : Z -> ohost -> bool * ohost;
  in_path : ohost -> bool;
  spawn : Z -> ohost -> option gerr * ohost;
  interrupt : ohost -> ohost;
  new_post : string -> option gerr;
  post : string -> ollama_body -> ohost -> (gerr + Z * string) * ohost;
  decode_result : string -> gerr + string * string;
  list_tags : ohost -> option (list string) * ohost;
}.

Definition set_started (b : bool) (m : OllamaManager) : OllamaManager :=
  mkOllamaManager (om_process m) (om_port m) (om_tailscaleIP m) (om_models m) b (om_external m).
Definition set_process (p : process) (m : OllamaManager) : OllamaManager :=
  mkOllamaManager p (om_port m) (om_tailscaleIP m) (om_models m) (om_started m) (om_external m).
Definition set_external (m : OllamaManager) : OllamaManager :=
  mkOllamaManager (om_process m) (om_port m) (om_tailscaleIP m) (om_models m) (om_started m) true.
Definition set_models (ms : gmap string ModelState) (m : OllamaManager) : OllamaManager :=
  mkOllamaManager (om_process m) (om_port m) (om_tailscaleIP m) ms (om_started m) (om_external m).

Section ollama.
Context {H : OllamaHost}.

Definition isOllamaRunning (m : OllamaManager) (h : ohost) : bool * ohost := probe (om_port m) h.

(** [Process.Signal] on a command that was not started is the panic of a nil pointer. *)
Definition Stop (m : OllamaManager) (h : ohost) : option (OllamaManager * ohost) :=
  if om_external m then Some (set_started false m, h)
  else
    match om_process m with
    | NoProcess => Some (set_started false m, h)
    | Unstarted => None
    | Started => Some (set_started false m, interrupt h)
    end.

(** The selects of the wait: [None] when the context is done, and the time of a tick.
    The result is [None] while the wait goes on. *)
Fixpoint waitForReady (deadline : Z) (selects : list (option Z)) (m : OllamaManager) (h : ohost)
    : option (option gerr * ohost) :=
  match selects with
  | [] => None
  | None :: _ => Some (Some (EMsg "context canceled"), h)
  | Some now :: rest =>
      let '(up, h) := isOllamaRunning m h in
      if up then Some (None, h)
      else if deadline <? now then Some (Some (EMsg "timeout waiting for Ollama to start"), h)
      else waitForReady deadline rest m h
  end.

(** [None] while it waits for the server, or the panic of [Stop]. *)
Definition Start (now : Z) (selects : list (option Z)) (m : OllamaManager) (h : ohost)
    : option (option gerr * OllamaManager * ohost) :=
  let '(up, h) := isOllamaRunning m h in
  if up then Some (None, set_started true (set_external m), h)
  else if negb on_darwin then Some (None, m, h)
  else if negb (in_path h) then Some (None, m, h)
  else
    let '(err, h) := spawn (om_port m) h in
    match err with
    | Some e => Some (Some (EWrap "failed to start Ollama" e), set_process Unstarted m, h)
    | None =>
        let m := set_process Started m in
        '(err, h) ← waitForReady (now + OllamaStartTimeout) selects m h;
        match err with
        | Some e =>
            '(m, h) ← Stop m h; Some (Some (EWrap "Ollama failed to start" e), m, h)
        | None => Some (None, set_started true m, h)
        end
    end.

Definition IsRunning (m : OllamaManager) (h : ohost) : bool * ohost :=
  if om_started m then isOllamaRunning m h else (false, h).

Definition on_state (model : string) (f : ModelState -> ModelState) (m : OllamaManager) : OllamaManager :=
  set_models (alter f model (om_models m)) m.

Definition setModelError (model : string) (err : string) : OllamaManager -> OllamaManager :=
  on_state model (λ st, mkModelState (md_Name st) LoadStateError (md_LastUsed st) err).

Definition set_load (load : string) (st : ModelState) : ModelState :=
  mkModelState (md_Name st) load (md_LastUsed st) (md_Error st).
Definition use (now : Z) (st : ModelState) : ModelState :=
  mkModelState (md_Name st) (md_LoadState st) now (md_Error st).

Definition local_url (m : OllamaManager) (path : string) : string :=
  "http://localhost:" +:+ fmt_int (om_port m) +:+ path.

(** [text e]: the error's text. *)
Context (text : gerr -> string).

(** [later]: the time when the server has answered.  [None] is the panic of a nil pointer
    for a model that is not in the map. *)
Definition loadModel (later : Z) (model : string) (m : OllamaManager) (h : ohost)
    : option (option gerr * OllamaManager * ohost) :=
  match om_models m !! model with
  | None => None
  | Some _ =>
      let m := on_state model (set_load LoadStateLoading) m in
      let url := local_url m "/api/generate" in
      match new_post url with
      | Some e => Some (Some e, setModelError model (text e) m, h)
      | None =>
          match post url (BWarm model "" (-1)) h with
          | (inl e, h) => Some (Some e, setModelError model (text e) m, h)
          | (inr (status, _), h) =>
              if negb (status =? 200) then
                let e := EMsg ("failed to load model: status " +:+ fmt_int status) in
                Some (Some e, setModelError model (text e) m, h)
              else
                Some (None, on_state model (λ st, mkModelState (md_Name st) LoadStateReady later "") m, h)
          end
      end
  end.

Definition EnsureModelLoaded (now later : Z) (model : string) (m : OllamaManager) (h : ohost)
    : option (option gerr * OllamaManager * ohost) :=
  if negb (om_started m) then Some (Some (EMsg "Ollama not started"), m, h)
  else
    let m := match om_models m !! model with
             | Some _ => m
             | None => set_models (<[model := mkModelState model LoadStateIdle 0 ""]> (om_models m)) m
             end in
    match om_models m !! model with
    | None => None
    | Some state =>
        if String.eqb (md_LoadState state) LoadStateReady then Some (None, on_state model (use now) m, h)
        else loadModel later model m h
    end.

(** The endpoint and body of a job. *)
Definition infer_request (job : InferenceJob) : option (string * ollama_body) :=
  if (0 <? length (ij_Messages job))%nat then
    Some ("/api/chat",
          BChat (ij_Model job) (ij_Messages job) false
            (if (0 <? ij_Temperature job) && (ij_Temperature job <=? 0x7FF0000000000000)
             then Some (ij_Temperature job) else None))
  else if negb (String.eqb (ij_Input job) "") then
    Some ("/api/generate", BGenerate (ij_Model job) (ij_Input job) false)
  else None.

Definition Infer (now later finish : Z) (job : InferenceJob) (m : OllamaManager) (h : ohost)
    : option ((gerr + InferenceResult) * OllamaManager * ohost) :=
  if negb (om_started m) then Some (inl (EMsg "Ollama not started"), m, h)
  else
    '(err, m, h) ← EnsureModelLoaded now later (ij_Model job) m h;
    match err with
    | Some e => Some (inl (EWrap "failed to load model" e), m, h)
    | None =>
        match infer_request job with
        | None => Some (inl (EMsg "no messages or input provided"), m, h)
        | Some (endpoint, body) =>
            let url := local_url m endpoint in
            match new_post url with
            | Some e => Some (inl e, m, h)
            | None =>
                match post url body h with
                | (inl e, h) => Some (inl e, m, h)
                | (inr (status, respBody), h) =>
                    if negb (status =? 200) then
                      Some (inl (EMsg ("inference failed: " +:+ fmt_int status +:+ " - " +:+ respBody)), m, h)
                    else
                      match decode_result respBody with
                      | inl e => Some (inl e, m, h)
                      | inr (message, response) =>
                          let content := if String.eqb message "" then response else message in
                          Some (inr (mkInferenceResult (ij_ID job) (ij_Model job) content),
                                on_state (ij_Model job) (use finish) m, h)
                      end
                end
            end
        end
    end.

Definition UnloadModel (model : string) (m : OllamaManager) (h : ohost) : option gerr * OllamaManager * ohost :=
  if negb (om_started m) then (Some (EMsg "Ollama not started"), m, h)
  else
    let url := local_url m "/api/generate" in
    match new_post url with
    | Some e => (Some e, m, h)
    | None =>
        match post url (BUnload model 0) h with
        | (inl e, h) => (Some e, m, h)
        | (inr _, h) => (None, on_state model (set_load LoadStateIdle) m, h)
        end
    end.

(** The models in the order of a range over the map. *)
Definition ListModels (m : OllamaManager) : list ModelState := (map_to_list (om_models m)).*2.

(** ** The agent (agent.go) and its control API (control.go) *)

(** The agent's state, the manager of its inference server and the machine. *)
Record agent := mkAgent { a_state : AgentState; a_ollama : OllamaManager; a_host : ohost }.

Definition with_state (f : AgentState -> AgentState) (a : agent) : agent :=
  mkAgent (f (a_state a)) (a_ollama a) (a_host a).

(** [clock i]: the clock when the [i]-th line is logged. *)
Context (clock : nat -> string).

Definition StartInference (now : Z) (selects : list (option Z)) (a : agent) : option (option gerr * agent) :=
  let '(up, h) := IsRunning (a_ollama a) (a_host a) in
  let ip := om_tailscaleIP (a_ollama a) in
  if up then
    Some (None, mkAgent (AddLog (clock 0) "Inference: already running" (a_state a)) (a_ollama a) h)
  else
    let s := UpdateInference "starting" ip DefaultOllamaPort []
               (AddLog (clock 0) "Inference: starting Ollama..." (a_state a)) in
    '(err, m, h) ← Start now selects (a_ollama a) h;
    match err with
    | Some e =>
        Some (Some e, mkAgent (UpdateInference "error" "" 0 []
                                 (AddLog (clock 1) ("Inference: FAILED - " +:+ text e) s)) m h)
    | None =>
        let '(up, h) := IsRunning m h in
        if up then
          Some (None, mkAgent (UpdateInference "running" ip DefaultOllamaPort []
                                 (AddLog (clock 1) ("Inference: ready on :" +:+ fmt_int DefaultOllamaPort) s)) m h)
        else Some (None, mkAgent s m h)
    end.

Definition StopInference (a : agent) : option agent :=
  let '(up, h) := IsRunning (a_ollama a) (a_host a) in
  if up then
    let s := AddLog (clock 0) "Inference: stopping..." (a_state a) in
    '(m, h) ← Stop (a_ollama a) h;
    Some (mkAgent (UpdateInference "stopped" "" 0 [] (AddLog (clock 1) "Inference: stopped" s)) m h)
  else Some (mkAgent (a_state a) (a_ollama a) h).

(** The part of [Shutdown] that touches this state. *)
Definition Shutdown (a : agent) : option agent :=
  '(m, h) ← Stop (a_ollama a) (a_host a); Some (mkAgent (a_state a) m h).

Definition getOllamaModels (a : agent) : list string * agent :=
  let '(up, h) := IsRunning (a_ollama a) (a_host a) in
  if negb up then ([], mkAgent (a_state a) (a_ollama a) h)
  else let '(models, h) := list_tags h in (default [] models, mkAgent (a_state a) (a_ollama a) h).

(** A response: its status and the fields of its body. *)
Inductive response :=
| RText (code : Z) (message : string)
| RJson (code : Z) (fields : list (string * string)).

Definition method_not_allowed : response := RText 405 "Method not allowed".

Definition endpoint_of (a : agent) : string :=
  "http://" +:+ om_tailscaleIP (a_ollama a) +:+ ":" +:+ fmt_int DefaultOllamaPort.

Definition handleInferenceStart (method : string) (now : Z) (selects : list (option Z)) (a : agent)
    : option (response * agent) :=
  if negb (String.eqb method "POST") then Some (method_not_allowed, a)
  else
    '(err, a) ← StartInference now selects a;
    match err with
    | Some e => Some (RJson 500 [("status", "error"); ("error", text e)], a)
    | None =>
        let '(models, a) := getOllamaModels a in
        let a := if (0 <? length models)%nat
                 then with_state (UpdateInference "running" (om_tailscaleIP (a_ollama a)) DefaultOllamaPort models) a
                 else a in
        Some (RJson 200 [("status", "ok"); ("message", "Inference server started"); ("endpoint", endpoint_of a)], a)
    end.

Definition handleInferenceStop (method : string) (a : agent) : option (response * agent) :=
  if negb (String.eqb method "POST") then Some (method_not_allowed, a)
  else
    a ← StopInference a;
    Some (RJson 200 [("status", "ok"); ("message", "Inference server stopped")], a).

(** A progress message of a pull. *)
Record progress := mkProgress { pg_Status : string; pg_Digest : string; pg_Total : Z; pg_Completed : Z }.

(** [percent completed total]: the percentage without decimals. *)
Context (percent : Z -> Z -> string).

Definition progress_status (p : progress) : string :=
  if negb (String.eqb (pg_Digest p) "") && (0 <? pg_Total p)
  then pg_Status p +:+ " " +:+ percent (pg_Completed p) (pg_Total p) +:+ "%" else pg_Status p.

(** The stream until it ends or does not decode; [i] counts the lines of the log. *)
Fixpoint log_progress (i : nat) (lastStatus : string) (stream : list progress) (s : AgentState)
    : nat * AgentState :=
  match stream with
  | [] => (i, s)
  | p :: rest =>
      let status := progress_status p in
      if negb (String.eqb status lastStatus)
      then log_progress (S i) status rest (AddLog (clock i) ("Pull: " +:+ status) s)
      else log_progress i lastStatus rest s
  end.

(** [req]: the model of the request if it decodes; [pull]: the messages of the server's
    answer to the pull, whatever its status. *)
Definition handleInferencePull (method : string) (req : option string) (pull : gerr + list progress) (a : agent)
    : response * agent :=
  if negb (String.eqb method "POST") then (method_not_allowed, a)
  else
    match req with
    | None => (RJson 400 [("status", "error"); ("error", "Invalid request body")], a)
    | Some model =>
        if String.eqb model "" then (RJson 400 [("status", "error"); ("error", "Model name required")], a)
        else
          let a := with_state (AddLog (clock 0) ("Pulling model: " +:+ model)) a in
          match pull with
          | inl e =>
              (RJson 500 [("status", "error"); ("error", text e)],
               with_state (AddLog (clock 1) ("Pull failed: " +:+ text e)) a)
          | inr stream =>
              let '(i, s) := log_progress 1 "" stream (a_state a) in
              let a := mkAgent (AddLog (clock i) ("Model " +:+ model +:+ " ready") s) (a_ollama a) (a_host a) in
              let '(models, a) := getOllamaModels a in
              (RJson 200 [("status", "ok"); ("message", "Model " +:+ model +:+ " pulled successfully")],
               with_state (UpdateInference "running" (om_tailscaleIP (a_ollama a)) DefaultOllamaPort models) a)
          end
    end.
End ollama.

(** The state of a new agent; [detected]: the Tailscale address, where no host name is
    configured. *)
Definition NewWithTUI {H : OllamaHost} (now : Z) (is_ipv6 : string -> bool) (config : AgentConfig)
    (detected : string) (h : ohost) : agent :=
  let tailscaleIP := if String.eqb (ac_Hostname config) "" then detected else ac_Hostname config in
  mkAgent (NewAgentState now (ac_MachineID config) (ac_PoolName config) (GatewayURL is_ipv6 config))
    (NewOllamaManager tailscaleIP DefaultOllamaPort) h.

(** [TAILSCALE_IP], or what the tailscale command prints. *)
Definition detectTailscaleIP (env : string) (output : option string) : string :=
  if negb (String.eqb env "") then env
  else
    match output with
    | Some o => let ip := TrimSpace o in if negb (String.eqb ip "") then ip else "localhost"
    | None => "localhost"
    end.

(** [hex.EncodeToString] of the four bytes that were drawn, or of the low bytes of the
    four readings of the clock. *)
Definition hex_byte (b : Z) : string := String (hex_char (b / 16)) (String (hex_char (b mod 16)) "").

Definition GenerateMachineID (drawn : option (Z * Z * Z * Z)) (t0 t1 t2 t3 : Z) : string :=
  let '(a, b, c, d) :=
    match drawn with
    | Some bytes => bytes
    | None => (Z.land (Z.shiftr t0 24) 255, Z.land (Z.shiftr t1 16) 255, Z.land (Z.shiftr t2 8) 255, Z.land t3 255)
    end in
  hex_byte a +:+ hex_byte b +:+ hex_byte c +:+ hex_byte d.
