(* ===== verification/Machines.v ===== *)
(** * Machines at the gateway (pkg/api/v1/machine.go, pkg/gateway/services/machine.go, pkg/providers/base.go)

    What the gateway does with the machines of external pools: the HTTP handlers an agent
    calls, the gRPC calls of an administrator, and the loop of a provider that ends
    machines nobody uses.  A handler is a program on the server of [ProviderRepo].  The
    body of a request is what [Bind] made of it.  A panic of a handler is a value: the
    middleware turns it into an answer. *)

From S2P Require Import Prelude GoStd Redis Keys Types Codec Lock Env WorkerRepo PoolSizing PoolHealth TaskRepo ProviderRepo.

Local Open Scope Z_scope.
Set Default Proof Using "Type".

Definition MachineEmptyConsolidationPeriodM : Z := 10 * minute.

(** A handler on the server. *)
Definition handler (A : Type) : Type := prog (http_err + A).
Definition answer {A} (a : A) : handler A := Ret (inr a).
Definition refuse {A} (e : http_err) : handler A := Ret (inl e).

(** ** The configuration the handlers read *)

Record machine_pool := mkMachinePool {
  mp_Provider : option string;
  mp_GPUType : string;
  mp_UserData : string;
}.

Record gateway_config := mkGatewayConfig {
  gw_DirectRedisHost : string;
  gw_TailscaleHostName : string;
  gw_TailscaleUser : string;
  gw_Pools : gmap string machine_pool;
}.

(** ** Handlers for agents (machine.go) *)

Record RegisterMachineRequest := mkRegisterMachineRequest {
  rm_Token : string;
  rm_MachineID : string;
  rm_HostName : string;
  rm_ProviderName : string;
  rm_PoolName : string;
  rm_Cpu : string;
  rm_Memory : string;
  rm_GpuCount : string;
  rm_PrivateIP : string;
}.

Record machine_inference := mkMachineInference {
  in_Status : string;
  in_IP : string;
  in_Port : Z;
  in_Models : list string;
}.

Record MachineKeepaliveRequest := mkMachineKeepaliveRequest {
  mk_MachineID : string;
  mk_ProviderName : string;
  mk_PoolName : string;
  mk_AgentVersion : string;
  mk_Metrics : option ProviderMachineMetrics;
  mk_Inference : option machine_inference;
}.

(** *** Binding the body of a request

    [ctx.Bind] fills the fields from the JSON body by their tags: a field that is missing or
    null keeps its zero value, one of another type is an error.  The tags of a body are
    taken to be distinct and spelled as in the struct. *)

Fixpoint json_field (tag : string) (fs : list (string * jvalue)) : jvalue :=
  match fs with
  | [] => JNull
  | (t, v) :: fs' => if String.eqb t tag then v else json_field tag fs'
  end.

Definition bind_string (v : jvalue) : option string :=
  match v with JNull => Some "" | JStr s => Some s | _ => None end.
Definition bind_int (v : jvalue) : option Z :=
  match v with JNull => Some 0 | JNum n => ParseInt 64 n | _ => None end.
Definition bind_float (v : jvalue) : option string :=
  match v with JNull => Some "0" | JNum n => if is_float n then Some n else None | _ => None end.
Definition bind_strings (v : jvalue) : option (list string) :=
  match v with JNull => Some [] | JArr l => mapM bind_string l | _ => None end.
Definition bind_struct {A} (bind : (string -> jvalue) -> option A) (v : jvalue) : option A :=
  match v with
  | JNull => bind (λ _, JNull)
  | JObj fs => bind (λ tag, json_field tag fs)
  | _ => None
  end.
(** A field of a pointer type. *)
Definition bind_pointer {A} (bind : jvalue -> option A) (v : jvalue) : option (option A) :=
  match v with JNull => Some None | _ => Some <$> bind v end.

Definition bind_register : jvalue -> option RegisterMachineRequest :=
  bind_struct (λ f,
    token ← bind_string (f "token");
    machine_id ← bind_string (f "machine_id");
    hostname ← bind_string (f "hostname");
    provider_name ← bind_string (f "provider_name");
    pool_name ← bind_string (f "pool_name");
    cpu ← bind_string (f "cpu");
    memory ← bind_string (f "memory");
    gpu_count ← bind_string (f "gpu_count");
    private_ip ← bind_string (f "private_ip");
    Some (mkRegisterMachineRequest token machine_id hostname provider_name pool_name cpu memory gpu_count private_ip)).

Definition bind_metrics : jvalue -> option ProviderMachineMetrics :=
  bind_struct (λ f,
    cpu ← bind_int (f "total_cpu_available");
    mem ← bind_int (f "total_memory_available");
    disk ← bind_int (f "total_disk_space_bytes");
    cpu_pct ← bind_float (f "cpu_utilization_pct");
    mem_pct ← bind_float (f "memory_utilization_pct");
    free ← bind_int (f "total_disk_free_bytes");
    workers ← bind_int (f "worker_count");
    containers ← bind_int (f "container_count");
    gpus ← bind_int (f "free_gpu_count");
    cache_pct ← bind_float (f "cache_usage_pct");
    cache_cap ← bind_int (f "cache_capacity");
    cache_mem ← bind_int (f "cache_memory_usage");
    cache_cpu ← bind_float (f "cache_cpu_usage");
    Some (mkMachineMetrics cpu mem disk cpu_pct mem_pct free workers containers gpus cache_pct cache_cap cache_mem cache_cpu)).

Definition bind_inference : jvalue -> option machine_inference :=
  bind_struct (λ f,
    status ← bind_string (f "status");
    ip ← bind_string (f "ip");
    port ← bind_int (f "port");
    models ← bind_strings (f "models");
    Some (mkMachineInference status ip port models)).

Definition bind_keepalive : jvalue -> option MachineKeepaliveRequest :=
  bind_struct (λ f,
    machine_id ← bind_string (f "machine_id");
    provider_name ← bind_string (f "provider_name");
    pool_name ← bind_string (f "pool_name");
    agent_version ← bind_string (f "agent_version");
    metrics ← bind_pointer bind_metrics (f "metrics");
    inference ← bind_pointer bind_inference (f "inference");
    Some (mkMachineKeepaliveRequest machine_id provider_name pool_name agent_version metrics inference)).

Record MachineStateResponse := mkMachineStateResponse {
  msr_MachineID : string;
  msr_Status : string;
  msr_PoolName : string;
  msr_LastKeepalive : string;
  msr_LastWorkerSeen : string;
  msr_TTLSeconds : Z;
  msr_AgentVersion : string;
}.

(** A token of a machine or a worker. *)
Definition machine_token (tokenType : string) : bool :=
  String.eqb tokenType TokenTypeMachine || String.eqb tokenType TokenTypeWorker.

Definition ListPoolMachines (tokenType poolName providerName : string) : handler (list machine) :=
  if negb (machine_token tokenType) then refuse (HTTPForbidden "Invalid token")
  else
    r <~ ListAllMachines providerName poolName false ;;
    match r with
    | inl _ => refuse (HTTPInternalServerError "Failed to get neighbors")
    | inr machines => answer (filter (λ m, ms_Status (mc_State m) = MachineStatusReady) machines)
    end.

(** The host name the gateway reaches a machine by. *)
Definition machine_host (config : gateway_config) (hostName : string) : string :=
  if negb (String.eqb (gw_DirectRedisHost config) "") then hostName
  else if negb (String.eqb (gw_TailscaleUser config) "")
  then hostName +:+ "." +:+ gw_TailscaleUser config +:+ "." +:+ gw_TailscaleHostName config
  else hostName +:+ "." +:+ gw_TailscaleHostName config.

(** The state a request describes, or what is wrong with it. *)
Definition registration (config : gateway_config) (request : RegisterMachineRequest)
    : string + ProviderMachineState * machine_pool :=
  match ParseCPU (rm_Cpu request) with
  | inl _ => inl "Invalid machine cpu value"
  | inr cpu =>
      match ParseMemory (rm_Memory request) with
      | inl _ => inl "Invalid machine memory value"
      | inr memory =>
          match ParseUint 32 (rm_GpuCount request) with
          | None => inl "Invalid gpu count"
          | Some gpuCount =>
              match gw_Pools config !! rm_PoolName request with
              | None => inl "Invalid pool name"
              | Some poolConfig =>
                  inr (mkMachineState (rm_MachineID request) "" "" (machine_host config (rm_HostName request))
                         (rm_Token request) cpu memory "" (wrap_u32 gpuCount) "" (rm_PrivateIP request)
                         "" "" "" false "", poolConfig)
              end
          end
      end
  end.

(** [remote]: the configuration for workers elsewhere, nil where there is none. *)
Definition RegisterMachine {Config} (now : Z) (config : gateway_config) (remote : option Config)
    (tokenType : string) (bound : option RegisterMachineRequest)
    : handler (option Config * MachineStateResponse) :=
  if negb (machine_token tokenType) then refuse (HTTPForbidden "Invalid token")
  else
    match bound with
    | None => refuse (HTTPBadRequest "Invalid payload")
    | Some request =>
        match registration config request with
        | inl message => refuse (HTTPInternalServerError message)
        | inr (state, poolConfig) =>
            r <~ ProviderRepo.RegisterMachine now (rm_ProviderName request) (rm_PoolName request)
                   (rm_MachineID request) state (mp_GPUType poolConfig) ;;
            match r with
            | inl _ => refuse (HTTPInternalServerError "Failed to register machine")
            | inr _ =>
                answer (remote, mkMachineStateResponse (rm_MachineID request) MachineStatusRegistered
                                  (rm_PoolName request) "" "" MachineKeepaliveExpirationS "")
            end
        end
    end.

(** What the keep-alive handler calls on the registry of inference nodes. *)
Record ModelInfo := mkModelInfo { mo_Name : string; mo_LoadState : string }.

Record NodeInferenceInfo := mkNodeInferenceInfo {
  no_NodeID : string;
  no_TailscaleIP : string;
  no_Port : Z;
  no_GPUType : string;
  no_Models : gmap string ModelInfo;
}.

Inductive registry_call :=
| CallUpdateHeartbeat (nodeID : string)
| CallUpdateNodeModels (nodeID : string) (models : gmap string ModelInfo)
| CallRegisterNode (info : NodeInferenceInfo).

Definition models_map (models : list string) : gmap string ModelInfo :=
  foldl (λ m name, <[name := mkModelInfo name "ready"]> m) ∅ models.

Definition inference_calls (machineID : string) (inference : option machine_inference) : list registry_call :=
  match inference with
  | None => []
  | Some i =>
      if String.eqb (in_Status i) "running" then
        let modelsMap := models_map (in_Models i) in
        [ CallUpdateHeartbeat machineID; CallUpdateNodeModels machineID modelsMap;
          CallRegisterNode (mkNodeInferenceInfo machineID (in_IP i) (in_Port i) "MPS" modelsMap) ]
      else []
  end.

(** [SetMachineKeepAlive] with nil metrics: the state is written, and [ToSlice] of the
    nil pointer panics. *)
Definition keepalive_nil_metrics (now : Z) (providerName poolName machineId agentVersion : string) : M unit :=
  let stateKey := Keys.ProviderMachineState providerName poolName machineId in
  r <~ getMachineStateFromKey stateKey ;;
  match r with
  | inl e => fail (EWrap ("failed to get machine state <" +:+ stateKey +:+ ">") e)
  | inr s =>
      let machineState := mkMachineState (ms_MachineId s) (ms_PoolName s) MachineStatusReady
        (ms_HostName s) (ms_Token s) (ms_Cpu s) (ms_Memory s) (ms_Gpu s) (ms_GpuCount s)
        (ms_RegistrationToken s) (ms_PrivateIP s) (ms_Created s) (ms_LastWorkerSeen s)
        (fmt_int now) (ms_AutoConsolidate s) agentVersion in
      rcall (EWrap ("failed to set machine state <" +:+ stateKey +:+ ">"))
        (CHSet stateKey (to_slice machineState)) ;;
      fail (EPanic "reflect: call of reflect.Value.Type on zero Value")
  end.

Definition keepalive_repo (now : Z) (providerName poolName machineId agentVersion : string)
    (metrics : option ProviderMachineMetrics) : M unit :=
  match metrics with
  | Some m => SetMachineKeepAlive now providerName poolName machineId agentVersion m
  | None => keepalive_nil_metrics now providerName poolName machineId agentVersion
  end.

Definition KeepaliveResponse : Type := string * option MachineStateResponse.

(** The response, and the calls on the registry. *)
Definition MachineKeepalive (now : Z) (tokenType : string) (bound : option MachineKeepaliveRequest)
    : handler (KeepaliveResponse * list registry_call) :=
  if negb (machine_token tokenType) then refuse (HTTPForbidden "Invalid token")
  else
    match bound with
    | None => refuse (HTTPBadRequest "Invalid payload")
    | Some request =>
        if String.eqb (mk_MachineID request) "" || String.eqb (mk_PoolName request) ""
        then refuse (HTTPBadRequest "machine_id and pool_name are required")
        else
          let providerName :=
            if String.eqb (mk_ProviderName request) "" then "generic" else mk_ProviderName request in
          r <~ keepalive_repo now providerName (mk_PoolName request) (mk_MachineID request)
                 (mk_AgentVersion request) (mk_Metrics request) ;;
          match r with
          | inl (EPanic msg) => refuse (HTTPPanic msg)
          | inl e => refuse (HTTPInternalServerError ("Failed to update keepalive: " +:+ Error e))
          | inr _ =>
              let calls := inference_calls (mk_MachineID request) (mk_Inference request) in
              r <~ GetMachine providerName (mk_PoolName request) (mk_MachineID request) ;;
              match r with
              | inl _ => answer (("ok", None), calls)
              | inr m =>
                  let s := mc_State m in
                  answer (("ok", Some (mkMachineStateResponse (mk_MachineID request) (ms_Status s)
                             (mk_PoolName request) (ms_LastKeepalive s) (ms_LastWorkerSeen s)
                             MachineKeepaliveExpirationS (ms_AgentVersion s))), calls)
              end
          end
    end.

(** ** The start of the handlers *)

(** A method by its name and the types of its parameters: a type assertion to an interface
    holds when the value has every method of the interface with exactly its type. *)
Definition method_set : Type := list (string * list string).

Definition implements (value interface : method_set) : bool := forallb (λ m, bool_decide (m ∈ value)) interface.

Definition InferenceRegistry : method_set :=
  [("RegisterNode", ["any"]); ("UpdateHeartbeat", ["string"]); ("UpdateNodeModels", ["string"; "any"])].

(** The methods of [*gateway.ModelRegistry] that are registrations. *)
Definition ModelRegistry_methods : method_set :=
  [("RegisterNode", ["*types.NodeInferenceInfo"]);
   ("UpdateNodeModels", ["string"; "map[string]*types.ModelInfo"]);
   ("UpdateHeartbeat", ["string"]); ("RemoveNode", ["string"])].

(** [None] is the panic of the type assertion. *)
Definition NewMachineGroup (inferenceRegistry : method_set) : option (list (string * string)) :=
  if implements inferenceRegistry InferenceRegistry
  then Some [("GET", "/:workspaceId/gpus"); ("POST", "/register"); ("POST", "/keepalive"); ("GET", "/config");
             ("GET", "/list")]
  else None.

(** ** Calls of an administrator (services/machine.go) *)

(** [mr_error]: the message of a refused call. *)
Inductive machine_reply (A : Type) := MOk (a : A) | MErr (msg : string) | MPanic.
Arguments MOk {A}.
Arguments MErr {A}.
Arguments MPanic {A}.

(** [id]: the random identifier; [token]: what the creation of the token answers.  The
    second result says whether a token was created. *)
Definition CreateMachine (now : Z) (config : gateway_config) (permitted : bool) (tokenType poolName id : string)
    (token : gerr + string) : prog (machine_reply (string * string * machine_pool) * bool) :=
  if negb permitted then Ret (MErr "Unauthorized Access", false)
  else if negb (String.eqb tokenType TokenTypeClusterAdmin) then Ret (MErr "This action is not permitted", false)
  else
    match gw_Pools config !! poolName with
    | None => Ret (MErr "Invalid pool name", false)
    | Some pool =>
        match token with
        | inl e => Ret (MErr ("Unable to create token: " +:+ Error e), false)
        | inr key =>
            match mp_Provider pool with
            | None => Ret (MErr "This pool does not currently support machine creation", true)
            | Some provider =>
                r <~ AddMachine now provider poolName id
                       (mkMachineState "" poolName "" "" "" 0 0 (mp_GPUType pool) 0 key "" "" "" "" false "") ;;
                match r with
                | inl e => Ret (MErr ("Unable to create machine: " +:+ Error e), true)
                | inr _ => Ret (MOk (id, key, pool), true)
                end
            end
        end
    end.

Definition DeleteMachine (config : gateway_config) (permitted : bool) (tokenType poolName machineId : string)
    : prog (machine_reply unit) :=
  if negb permitted then Ret (MErr "Unauthorized Access")
  else if negb (String.eqb tokenType TokenTypeClusterAdmin) then Ret (MErr "This action is not permitted")
  else
    match gw_Pools config !! poolName with
    | None => Ret (MErr "Invalid pool name")
    | Some pool =>
        match mp_Provider pool with
        | None => Ret MPanic
        | Some provider =>
            r <~ RemoveMachine provider poolName machineId ;;
            match r with
            | inl e => Ret (MErr ("Unable to delete machine: " +:+ Error e))
            | inr _ => Ret (MOk tt)
            end
        end
    end.

Section listing.
Context {FMT : GoFmt} {MS : Mapstructure} {JSON : JsonRequests}.
(** [float32]: a percentage at the precision of the message. *)
Context (repo_config : WorkerRepoConfig) (float32 : string -> string).

(** [pb.Machine] and its metrics, the numbers at the width of the message. *)
Record listed_machine := mkListedMachine {
  lm_Id : string; lm_Cpu : Z; lm_Memory : Z; lm_Gpu : string; lm_GpuCount : Z; lm_Status : string;
  lm_PoolName : string; lm_LastKeepalive : string; lm_Created : string; lm_AgentVersion : string;
  lm_TotalCpuAvailable : Z; lm_TotalMemoryAvailable : Z; lm_CpuUtilizationPct : string;
  lm_MemoryUtilizationPct : string; lm_WorkerCount : Z; lm_ContainerCount : Z; lm_FreeGpuCount : Z;
  lm_CacheUsagePct : string; lm_CacheCapacity : Z; lm_CacheMemoryUsage : Z; lm_CacheCpuUsage : string;
}.

Definition format_machine (m : machine) : listed_machine :=
  let x := default zeroMachineMetrics (mc_Metrics m) in
  let s := mc_State m in
  mkListedMachine (ms_MachineId s) (ms_Cpu s) (ms_Memory s) (ms_Gpu s) (ms_GpuCount s) (ms_Status s)
    (ms_PoolName s) (ms_LastKeepalive s) (ms_Created s) (ms_AgentVersion s)
    (wrap_i 32 (mm_TotalCpuAvailable x)) (wrap_i 32 (mm_TotalMemoryAvailable x))
    (float32 (mm_CpuUtilizationPct x)) (float32 (mm_MemoryUtilizationPct x))
    (wrap_i 32 (mm_WorkerCount x)) (wrap_i 32 (mm_ContainerCount x)) (wrap_i 32 (mm_FreeGpuCount x))
    (float32 (mm_CacheUsagePct x)) (wrap_i 32 (mm_CacheCapacity x)) (wrap_i 32 (mm_CacheMemoryUsage x))
    (float32 (mm_CacheCpuUsage x)).

Fixpoint list_pools (pools : list (string * machine_pool)) (acc : list listed_machine)
    : prog (machine_reply (list listed_machine)) :=
  match pools with
  | [] => Ret (MOk acc)
  | (poolName, pool) :: rest =>
      match mp_Provider pool with
      | None => list_pools rest acc
      | Some provider =>
          r <~ ListAllMachines provider poolName false ;;
          match r with
          | inl e => Ret (MErr ("Unable to list machines: " +:+ Error e))
          | inr machines => list_pools rest (acc ++ map format_machine machines)%list
          end
      end
  end.

(** The machines of one pool, or of every pool that has a provider. *)
Definition list_machines_of (config : gateway_config) (order : list (string * machine_pool)) (poolName : string)
    : prog (machine_reply (list listed_machine)) :=
  if negb (String.eqb poolName "") then
    match gw_Pools config !! poolName with
    | None => Ret (MErr "Invalid pool")
    | Some pool =>
        match mp_Provider pool with
        | None => Ret (MErr "Local pools don't currently track machines")
        | Some provider =>
            r <~ ListAllMachines provider poolName false ;;
            match r with
            | inl e => Ret (MErr ("Unable to list machines: " +:+ Error e))
            | inr machines => Ret (MOk (map format_machine machines))
            end
        end
    end
  else list_pools order [].

(** [order]: the pools in the order of a range over their map.  The GPU types with their
    availability, and the machines, which only an administrator sees; the left result is
    the error of the call itself. *)
Definition ListMachines (config : gateway_config) (order : list (string * machine_pool)) (permitted : bool)
    (tokenType poolName : string) : M (machine_reply (gmap string bool * list listed_machine)) :=
  if negb permitted then ok (MErr "Unauthorized Access")
  else
    gpus <- GetGpuAvailability repo_config ;;
    if negb (String.eqb tokenType TokenTypeClusterAdmin) then ok (MOk (gpus, []))
    else
      r <~ list_machines_of config order poolName ;;
      match r with
      | MOk machines => ok (MOk (gpus, machines))
      | MErr msg => ok (MErr msg)
      | MPanic => ok MPanic
      end.
End listing.

(** ** The reconciliation of a provider (base.go) *)

(** What one machine comes to: nothing, or its end. *)
Inductive verdict := Keep | Terminate (instanceId machineId : string).

Section reconcile.
Context {FMT : GoFmt}.

(** The current Unix time in seconds and in nanoseconds.  The recorded time is one that a
    [time.Time] holds. *)
Definition reconcile_unlocked (nowS now : Z) (name poolName machineId instanceId : string) : prog verdict :=
  r <~ GetMachine name poolName machineId ;;
  match r with
  | inl _ => Ret (Terminate instanceId machineId)
  | inr m =>
      r <~ GetAllWorkersOnMachine machineId ;;
      match r with
      | inl _ => Ret Keep
      | inr workers =>
          if (0 <? length workers)%nat then
            SetLastWorkerSeen nowS name poolName machineId ;~ Ret Keep
          else if negb (ms_AutoConsolidate (mc_State m)) then Ret Keep
          else
            match ParseInt 64 (ms_LastKeepalive (mc_State m)) with
            | None => Ret Keep
            | Some lastWorkerSeen =>
                Ret (if MachineEmptyConsolidationPeriodM <? now - lastWorkerSeen * second
                     then Terminate instanceId machineId else Keep)
            end
      end
  end.

(** The machine's lock is held around it; a machine whose lock is taken is left alone. *)
Definition reconcile_machine (nowS now : Z) (name poolName machineId instanceId : string) : prog verdict :=
  locked <~ SetMachineLock name poolName machineId ;;
  match locked with
  | inl _ => Ret Keep
  | inr _ =>
      v <~ reconcile_unlocked nowS now name poolName machineId instanceId ;;
      (RemoveMachineLock name poolName machineId ;~ Ret v)
  end.

(** One tick: the machines the provider lists, in the order of a range over their map. *)
Fixpoint Reconcile_tick (nowS now : Z) (name poolName : string) (machines : list (string * string))
    : prog (list verdict) :=
  match machines with
  | [] => Ret []
  | (machineId, instanceId) :: rest =>
      v <~ reconcile_machine nowS now name poolName machineId instanceId ;;
      (vs <~ Reconcile_tick nowS now name poolName rest ;; Ret (v :: vs))
  end.
End reconcile.
