(* ===== verification/AgentProps.v ===== *)
(** * What the agent and the gateway guarantee about machines

    The state of an agent under any sequence of events, when its keep-alive loop gives
    up, the way of a machine from its creation over its registration to its first
    keep-alive across agent and gateway, and which machines a provider ends. *)

From S2P Require Import Prelude GoStd Redis Keys Types Codec Lock Env WorkerRepo PoolSizing PoolHealth TaskRepo ProviderRepo ProviderProps Agent Machines.

Local Open Scope Z_scope.
Set Default Proof Using "Type".

(** ** The state under any events *)

(** Everything that changes the state of an agent. *)
Inductive agent_op :=
| OpStatus (status : string)
| OpMetrics (cpu memory : string) (gpus : Z)
| OpHeartbeat (now : Z) (success : bool)
| OpEvent (line : option pod)
| OpRefresh (items : option (list pod))
| OpInference (status ip : string) (port : Z) (models : list string)
| OpLog (timestamp msg : string).

Definition agent_step (s : AgentState) (o : agent_op) : AgentState :=
  match o with
  | OpStatus status => set_Status status s
  | OpMetrics cpu memory gpus => UpdateMetrics cpu memory gpus s
  | OpHeartbeat now success => UpdateHeartbeat now success s
  | OpEvent line => processWatchEvent line s
  | OpRefresh items => RefreshPods items s
  | OpInference status ip port models => UpdateInference status ip port models s
  | OpLog timestamp msg => AddLog timestamp msg s
  end.

Definition active_jobs (jobs : list JobInfo) : Z := Z.of_nat (length (filter (λ j, is_active j = true) jobs)).

(** One entry per pod, at most twenty, counted; at most [MaxLogs] lines of at most 70 bytes. *)
Record agent_ok (s : AgentState) : Prop := {
  ao_jobs : (length (ag_Jobs s) <= 20)%nat;
  ao_pods : NoDup (ji_PodName <$> ag_Jobs s);
  ao_running : ag_RunningJobs s = active_jobs (ag_Jobs s);
  ao_total : ag_TotalJobs s = Z.of_nat (length (ag_Jobs s));
  ao_max : ag_MaxLogs s = 10;
  ao_logs : Z.of_nat (length (ag_Logs s)) <= ag_MaxLogs s;
  ao_lines : Forall (λ l, (String.length l <= 70)%nat) (ag_Logs s);
}.

Lemma replace_job_pods job jobs jobs' :
  replace_job job jobs = Some jobs' -> ji_PodName <$> jobs' = ji_PodName <$> jobs.
Proof.
  revert jobs'. induction jobs as [|e jobs IH]; simpl; intros jobs'; [done|].
  destruct (String.eqb_spec (ji_PodName e) (ji_PodName job)) as [E|E].
  - intros [= <-]. simpl. by rewrite E.
  - destruct (replace_job job jobs) as [l|]; simpl; [|done]. intros [= <-]. rewrite !fmap_cons. f_equal. by apply IH.
Qed.

Lemma replace_job_None job jobs : replace_job job jobs = None -> ji_PodName job ∉ ji_PodName <$> jobs.
Proof.
  induction jobs as [|e jobs IH]; simpl; [intros _; apply not_elem_of_nil|].
  destruct (String.eqb_spec (ji_PodName e) (ji_PodName job)) as [E|E]; [done|].
  destruct (replace_job job jobs); simpl; [done|]. intros _. apply not_elem_of_cons. auto.
Qed.

Lemma replace_job_in job jobs jobs' : replace_job job jobs = Some jobs' -> job ∈ jobs'.
Proof.
  revert jobs'. induction jobs as [|e jobs IH]; simpl; intros jobs'; [done|].
  case_match; [intros [= <-]; by left|].
  destruct (replace_job job jobs) as [l|]; simpl; [|done]. intros [= <-]. right. by apply IH.
Qed.

(** Counting makes the counters right and touches neither jobs nor logs. *)
Lemma updateJobCounts_ok s :
  ag_Jobs (updateJobCounts s) = ag_Jobs s /\ ag_Logs (updateJobCounts s) = ag_Logs s /\
  ag_MaxLogs (updateJobCounts s) = ag_MaxLogs s /\
  ag_RunningJobs (updateJobCounts s) = active_jobs (ag_Jobs s) /\
  ag_TotalJobs (updateJobCounts s) = Z.of_nat (length (ag_Jobs s)).
Proof. unfold updateJobCounts. by repeat case_match. Qed.

Lemma AddJob_ok job s : agent_ok s -> agent_ok (AddJob job s) /\ job ∈ ag_Jobs (AddJob job s).
Proof.
  intros [H1 H2 H3 H4 H5 H6 H7]. unfold AddJob.
  destruct (replace_job job (ag_Jobs s)) as [jobs|] eqn:E.
  - pose proof (replace_job_pods _ _ _ E) as Ep. pose proof (f_equal length Ep) as El.
    rewrite !length_fmap in El.
    destruct (updateJobCounts_ok (set_Jobs jobs s)) as (Ej & Elog & Em & Er & Et). simpl in *.
    split; [|rewrite Ej; by eapply replace_job_in].
    split; rewrite ?Ej, ?Elog, ?Em, ?Er, ?Et, ?El, ?Ep; done.
  - apply replace_job_None in E.
    destruct (updateJobCounts_ok (set_Jobs (take 20 (job :: ag_Jobs s)) s)) as (Ej & Elog & Em & Er & Et).
    cbn [ag_Jobs set_Jobs ag_Logs ag_MaxLogs] in *.
    split; [|rewrite Ej; by left].
    split; rewrite ?Ej, ?Elog, ?Em, ?Er, ?Et; try done.
    + rewrite length_take. lia.
    + rewrite fmap_take. eapply sublist_NoDup; [|apply sublist_take]. simpl. by constructor.
Qed.

Lemma length_substring n s : (String.length (substring 0 n s) <= n)%nat.
Proof. revert n. induction s as [|c s IH]; intros [|n]; simpl; [lia..|]. specialize (IH n). lia. Qed.

Lemma log_entry_length timestamp msg : (String.length (log_entry timestamp msg) <= 70)%nat.
Proof.
  unfold log_entry. destruct (Nat.ltb_spec 70 (String.length (timestamp +:+ " " +:+ msg))); [|lia].
  rewrite str_app_length. pose proof (length_substring 67 (timestamp +:+ " " +:+ msg)).
  change (String.length "...") with 3%nat. lia.
Qed.

Lemma AddLog_ok timestamp msg s : agent_ok s -> agent_ok (AddLog timestamp msg s).
Proof.
  intros [H1 H2 H3 H4 H5 H6 H7]. unfold AddLog. rewrite H5 in *. simpl.
  set (logs := (ag_Logs s ++ [log_entry timestamp msg])%list).
  assert (Forall (λ l, (String.length l <= 70)%nat) logs) as Hl.
  { apply Forall_app. split; [done|]. constructor; [apply log_entry_length|constructor]. }
  destruct (Z.ltb_spec 10 (Z.of_nat (length logs))); split; simpl; try done; try lia.
  - rewrite length_drop. lia.
  - by apply Forall_drop.
Qed.

Lemma processWatchEvent_ok line s : agent_ok s -> agent_ok (processWatchEvent line s).
Proof.
  intros H. unfold processWatchEvent. destruct line as [p|]; [|done]. case_match; [done|].
  destruct (pod_end p). by apply AddJob_ok.
Qed.

Lemma RefreshPods_ok items s : agent_ok s -> agent_ok (RefreshPods items s).
Proof.
  destruct items as [l|]; [|done]. simpl. revert s. induction l as [|p l IH]; intros s H; simpl; [done|].
  apply IH. unfold refresh_pod. destruct (pod_end p). by apply AddJob_ok.
Qed.

Lemma agent_step_ok s o : agent_ok s -> agent_ok (agent_step s o).
Proof.
  intros H. destruct o; simpl; auto using AddLog_ok, processWatchEvent_ok, RefreshPods_ok; destruct H.
  - by split.
  - by split.
  - unfold UpdateHeartbeat. repeat case_match; by split.
  - by split.
Qed.

(** However many pods, heartbeats, commands and log lines an agent has seen, its state
    lists at most twenty jobs, no pod twice, its counters are the numbers of running or
    pending and of all listed jobs, and its log has at most ten lines of at most 70 bytes;
    the job of a pod that has just been reported is in the list. *)
Theorem agent_state_invariant (now : Z) (machineID poolName gateway : string) (ops : list agent_op)
    (p : pod) :
  pod_Name p <> "" ->
  let s := foldl agent_step (NewAgentState now machineID poolName gateway) ops in
  agent_ok s /\
  exists job, job ∈ ag_Jobs (processWatchEvent (Some p) s) /\ ji_PodName job = pod_Name p /\
    ji_Status job = determineJobStatus p.
Proof.
  intros Hp s. assert (agent_ok s) as Hs.
  { unfold s. assert (agent_ok (NewAgentState now machineID poolName gateway)) as H0.
    { split; simpl; try done; try lia; constructor. }
    revert H0. generalize (NewAgentState now machineID poolName gateway).
    induction ops as [|o ops IH]; intros s0 H0; simpl; [done|]. by apply IH, agent_step_ok. }
  split; [done|]. unfold processWatchEvent. destruct (String.eqb_spec (pod_Name p) "") as [?|_]; [done|].
  destruct (pod_end p) as [e c]. eexists. split; [by apply AddJob_ok|done].
Qed.

Definition ex_pod : pod :=
  mkPod "worker-ab12-hello-xyz" ∅ "2024-03-01T00:30:00Z" "Running"
    [mkContainerStatus (Some "2024-03-01T00:30:05Z") None].

Lemma agent_state_invariant_witness :
  let s := foldl agent_step (NewAgentState 0 "0a1b2c3d" "external" "http://localhost:1994")
             [OpRefresh (Some [ex_pod]); OpHeartbeat 5 true; OpLog "00:30:05" "ready"] in
  ag_Status s = "BUSY" /\ agent_ok s /\
  exists job, job ∈ ag_Jobs (processWatchEvent (Some ex_pod) s) /\
    ji_PodName job = "worker-ab12-hello-xyz" /\ ji_Status job = "RUNNING".
Proof.
  split; [vm_compute; reflexivity|].
  refine (agent_state_invariant 0 "0a1b2c3d" "external" "http://localhost:1994"
    [OpRefresh (Some [ex_pod]); OpHeartbeat 5 true; OpLog "00:30:05" "ready"] ex_pod _). done.
Defined.

(** ** Health of the keep-alive loop *)

(** Whether the gateway accepted a keep-alive; nothing is known of one that was not sent. *)
Definition accepted (a : keepalive_answer) : option bool :=
  match a with NotSent => None | ConnectionFailed => Some false | Status code => Some (code =? 200) end.

(** Failures since the last accepted keep-alive. *)
Fixpoint failures_since (n : nat) (answers : list keepalive_answer) : nat :=
  match answers with
  | [] => n
  | a :: rest =>
      failures_since (match accepted a with Some true => 0 | Some false => S n | None => n end) rest
  end.

Abbreviation answers_of := (map (λ r : Z * ProviderMachineMetrics * keepalive_answer, r.2)).

Lemma keepalives_failures rounds k st (n : nat) :
  ac_DryRun (kl_config k) = false -> kl_consecutiveFailures k = Z.of_nat n ->
  Z.of_nat n + Z.of_nat (length rounds) < 2 ^ 31 ->
  kl_consecutiveFailures (keepalives rounds k st).1 = Z.of_nat (failures_since n (answers_of rounds)) /\
  kl_maxFailures (keepalives rounds k st).1 = kl_maxFailures k.
Proof.
  revert k st n. induction rounds as [|[[now m] a] rounds IH]; intros k st n Hd Hk Hn; [done|].
  cbn [keepalives map failures_since]. cbn [length] in Hn. unfold sendKeepalive. cbn [kl_config set_lastMetrics].
  change (kl_consecutiveFailures (set_lastMetrics m k)) with (kl_consecutiveFailures k).
  rewrite Hd. assert (wrap_i 32 (kl_consecutiveFailures k + 1) = Z.of_nat (S n)) as Hw.
  { rewrite wrap_i_id; unfold in_i; lia. }
  destruct a as [| |code]; cbn [accepted snd].
  - destruct (IH (set_lastMetrics m k) st n) as [-> ->]; [done..|lia|done].
  - destruct (IH (set_failures (wrap_i 32 (kl_consecutiveFailures k + 1)) (set_lastMetrics m k)) st (S n))
      as [-> ->]; [done|exact Hw|lia|done].
  - destruct (code =? 200).
    + destruct (IH (set_failures 0 (set_lastMetrics m k)) (UpdateHeartbeat now true <$> st) 0%nat) as [-> ->];
        [done..|lia|done].
    + destruct (IH (set_failures (wrap_i 32 (kl_consecutiveFailures k + 1)) (set_lastMetrics m k))
        (UpdateHeartbeat now false <$> st) (S n)) as [-> ->]; [done|exact Hw|lia|done].
Qed.

(** A run of failures at the end. *)
Lemma failures_since_app n l l' : failures_since n (l ++ l') = failures_since (failures_since n l) l'.
Proof. revert n. induction l as [|a l IH]; intros n; simpl; [done|]. apply IH. Qed.

(** C36. The agent gives up exactly when three keep-alives in a row failed: the check of its
    loop reports an error iff at least three keep-alives were refused or did not reach
    the gateway since the last one it accepted.  Keep-alives that could not be sent do not
    count, and one accepted keep-alive makes the loop healthy again. *)
Theorem keepalive_health (config : AgentConfig) (st : option AgentState)
    (rounds : list (Z * ProviderMachineMetrics * keepalive_answer)) :
  ac_DryRun config = false -> Z.of_nat (length rounds) < 2 ^ 31 ->
  let k := (keepalives rounds (NewKeepaliveLoop config) st).1 in
  (health_check k = None <-> (failures_since 0 (answers_of rounds) < 3)%nat) /\
  (forall now m, rounds <> [] -> last rounds = Some (now, m, Status 200) -> health_check k = None).
Proof.
  intros Hd Hl k.
  destruct (keepalives_failures rounds (NewKeepaliveLoop config) st 0) as [Hf Hm]; [done..|].
  assert (health_check k = None <-> (failures_since 0 (answers_of rounds) < 3)%nat) as H.
  { unfold health_check, IsHealthy, k. rewrite Hf, Hm. simpl.
    destruct (Z.ltb_spec (Z.of_nat (failures_since 0 (answers_of rounds))) 3); simpl; split; intros; try done; lia. }
  split; [done|]. intros now m _ Hlast. apply H.
  apply last_Some in Hlast as [l ->]. rewrite map_app, failures_since_app. simpl. lia.
Qed.

Definition ex_agent_config : AgentConfig :=
  mkAgentConfig "tok" "0a1b2c3d" "external" "localhost" 1994 "http" "generic" "" "k3s" (60 * second) (30 * second)
    false false false.

Lemma keepalive_health_witness :
  let rounds := [(1, zeroMachineMetrics, Status 200); (2, zeroMachineMetrics, ConnectionFailed);
                 (3, zeroMachineMetrics, Status 500); (4, zeroMachineMetrics, Status 200)] in
  let k := (keepalives rounds (NewKeepaliveLoop ex_agent_config) None).1 in
  (health_check k = None <-> (failures_since 0 (answers_of rounds) < 3)%nat) /\ health_check k = None.
Proof.
  intros rounds k.
  destruct (keepalive_health ex_agent_config None rounds eq_refl ltac:(vm_compute; reflexivity)) as [H1 H2].
  split; [exact H1|]. by eapply H2.
Defined.

(** ** From creation to the first keep-alive *)

(** The request that the gateway binds from the body the agent sends. *)
Definition register_request (p : RegistrationPayload) : option RegisterMachineRequest :=
  bind_register (registration_json p).
Definition keepalive_request (p : KeepalivePayload) : option MachineKeepaliveRequest :=
  bind_keepalive (keepalive_json p).

(** It has the fields of the payload. *)
Definition register_copy (p : RegistrationPayload) : RegisterMachineRequest :=
  mkRegisterMachineRequest (rp_Token p) (rp_MachineID p) (rp_Hostname p) (rp_ProviderName p) (rp_PoolName p)
    (rp_CPU p) (rp_Memory p) (rp_GPUCount p) (rp_PrivateIP p).

Definition keepalive_copy (p : KeepalivePayload) : MachineKeepaliveRequest :=
  mkMachineKeepaliveRequest (ka_MachineID p) (ka_ProviderName p) (ka_PoolName p) (ka_AgentVersion p)
    (Some (ka_Metrics p))
    ((λ i, mkMachineInference (is_Status i) (is_IP i) (wrap_i64 (is_Port i)) (is_Models i)) <$> ka_Inference p).

Lemma register_request_copy p : register_request p = Some (register_copy p).
Proof. reflexivity. Qed.

Lemma ParseInt_wrapped z : ParseInt 64 (fmt_int (wrap_i64 z)) = Some (wrap_i64 z).
Proof. apply ParseInt_fmt_int, wrap_i_range. lia. Qed.

Lemma bind_metrics_json m : metrics_ok m -> bind_metrics (metrics_json m) = Some m.
Proof.
  destruct m. unfold metrics_ok. cbn. rewrite !Forall_cons. cbn.
  intros (H1 & H2 & H3 & H4 & H5 & H6 & H7 & H8 & H9 & H10 & H11 & H12 & H13 & _).
  rewrite H4, H5, H10, H13, !ParseInt_wrapped. cbn. by rewrite !wrap_i_id.
Qed.

Lemma mapM_strings (l : list string) : mapM bind_string (JStr <$> l) = Some l.
Proof. induction l as [|s l IH]; [done|]. cbn. by rewrite IH. Qed.

Lemma bind_inference_json i : bind_inference (inference_json i) =
  Some (mkMachineInference (is_Status i) (is_IP i) (wrap_i64 (is_Port i)) (is_Models i)).
Proof.
  destruct i as [status ip port models]. unfold bind_inference, inference_json, bind_struct. cbn [is_Status is_IP is_Port is_Models].
  destruct (String.eqb_spec ip "") as [->|_], (Z.eqb_spec port 0) as [->|_];
    destruct models as [|m l]; cbn [app json_field String.eqb Ascii.eqb Bool.eqb];
    cbn; rewrite ?ParseInt_wrapped, ?mapM_strings; reflexivity.
Qed.

Lemma keepalive_request_copy p : metrics_ok (ka_Metrics p) -> keepalive_request p = Some (keepalive_copy p).
Proof.
  intros H%bind_metrics_json. destruct p as [id provider pool version metrics inference].
  assert (bind_pointer bind_metrics (metrics_json metrics) = Some (Some metrics)) as Hm by (cbn in H |- *; by rewrite H).
  unfold keepalive_request, bind_keepalive, keepalive_json, bind_struct. cbn [ka_Metrics ka_Inference] in *.
  destruct inference as [i|]; cbn [app json_field String.eqb Ascii.eqb Bool.eqb]; rewrite Hm; [|reflexivity].
  assert (bind_pointer bind_inference (inference_json i) = Some <$> bind_inference (inference_json i)) as -> by done.
  by rewrite bind_inference_json.
Qed.

(** The status of the response to a handler's result. *)
Definition status_of {A} (r : http_err + A) : Z :=
  match r with inr _ => 200 | inl (HTTPError code _) => code | inl (HTTPPanic _) => 500 end.

Lemma Validate_id c : Validate c = None ->
  String.length (ac_MachineID c) = 8%nat /\ ac_PoolName c <> "" /\ 1 <= ac_GatewayPort c <= 65535.
Proof.
  unfold Validate.
  repeat (case_match; [done|]). intros _.
  repeat match goal with H : _ = false |- _ => revert H end.
  rewrite !negb_false_iff, Nat.eqb_eq, orb_false_iff, !Z.ltb_ge, !String.eqb_neq. intuition.
Qed.

(** What a registration makes of the agent's figures. *)
Lemma registration_of_payload gcfg c i n total pct mp :
  mi_cpus i = Some n -> 0 <= n * 1000 < 2 ^ 63 -> mi_memory i = Some (total, pct) -> in_u64 total ->
  in_u32 (DetectGPUCount (mi_gpus i)) -> gw_Pools gcfg !! ac_PoolName c = Some mp ->
  registration gcfg (register_copy (registration_payload c i)) =
    inr (mkMachineState (ac_MachineID c) "" ""
           (machine_host gcfg (rp_Hostname (registration_payload c i))) (ac_K3sToken c) (n * 1000)
           (total / 2 ^ 30 * 1024) "" (DetectGPUCount (mi_gpus i)) "" (GetPrivateIP (mi_interfaces i))
           "" "" "" false "", mp).
Proof.
  intros Hc Hn Hm Ht Hg Hp. unfold registration, register_copy, registration_payload.
  cbn [rm_Cpu rm_Memory rm_GpuCount rm_PoolName rm_MachineID rm_HostName rm_Token rm_PrivateIP
       rp_CPU rp_Memory rp_GPUCount rp_PoolName rp_MachineID rp_Hostname rp_Token rp_PrivateIP].
  rewrite Hc, Hm, Hp. unfold GetCPUString. simpl default.
  rewrite wrap_i_id, ParseCPU_millicores by (unfold in_i; lia).
  unfold GetMemoryString. cbn [fmap option_fmap option_map fst].
  change (1024 * 1024 * 1024) with (2 ^ 30).
  assert (0 <= total / 2 ^ 30 < 2 ^ 34) as Hq.
  { unfold in_u in Ht. split; [apply Z.div_pos; lia|]. apply Z.div_lt_upper_bound; lia. }
  rewrite ParseMemory_units; [|by set_solver|unfold in_i; lia|].
  2: { simpl. lia. }
  rewrite ParseUint_fmt_int by done. rewrite wrap_u_id by done. done.
Qed.

Section join.
Context (gcfg : gateway_config) (c : AgentConfig) (i : machine_info) (pool : machine_pool).
Context (n total : Z) (pct : string).
Hypothesis Hvalid : Validate c = None.
Hypothesis Hprovider : ac_ProviderName c <> "".
Hypothesis Hpool : gw_Pools gcfg !! ac_PoolName c = Some pool.
Hypothesis Hpp : mp_Provider pool = Some (ac_ProviderName c).
Hypothesis Hcpus : mi_cpus i = Some n.
Hypothesis Hn : 0 <= n * 1000 < 2 ^ 63.
Hypothesis Hmem : mi_memory i = Some (total, pct).
Hypothesis Htotal : in_u64 total.
Hypothesis Hgpus : in_u32 (DetectGPUCount (mi_gpus i)).

Abbreviation provider := (ac_ProviderName c).
Abbreviation poolName := (ac_PoolName c).
Abbreviation id := (ac_MachineID c).

(** The machine of the agent: what it says of itself, and what its pool says. *)
Definition joined_machine (key : string) (now1 now3 : Z) (agentVersion : string) : ProviderMachineState :=
  mkMachineState id poolName MachineStatusReady (machine_host gcfg (rp_Hostname (registration_payload c i)))
    (ac_K3sToken c) (n * 1000) (total / 2 ^ 30 * 1024) (mp_GPUType pool) (DetectGPUCount (mi_gpus i))
    key (GetPrivateIP (mi_interfaces i)) (fmt_int now1) "" (fmt_int now3) false agentVersion.

Lemma id_not_index : id <> "machine_index".
Proof using Hvalid. intros E. destruct (Validate_id c Hvalid) as [H _]. by rewrite E in H. Qed.

Lemma total_range : 0 <= total / 2 ^ 30 < 2 ^ 34.
Proof using Htotal.
  unfold in_u in Htotal. split; [apply Z.div_pos; lia|]. apply Z.div_lt_upper_bound; lia.
Qed.

Lemma rwp_create now key (d : rdb) (L : lmap) X :
  machine_keys provider poolName id d X ->
  rwp (CreateMachine now gcfg true TokenTypeClusterAdmin poolName id (inr key)) (λ r d' _,
    r = (MOk (id, key, pool), true) /\
    has_state provider poolName id d' (pending_machine id now
      (mkMachineState "" poolName "" "" "" 0 0 (mp_GPUType pool) 0 key "" "" "" "" false "")) /\
    machine_keys provider poolName id d' ({[Keys.ProviderMachineState provider poolName id]} ∪ X)) d L.
Proof using Hvalid Hpool Hpp.
  intros Hk. unfold CreateMachine. simpl. rewrite Hpool, Hpp. apply wp_pbind.
  eapply wp_mono; [|apply rwp_AddMachine; [apply id_not_index|exact Hk|repeat split; done]].
  intros r d' L' (-> & Hs & Hk'). by apply wp_Ret.
Qed.

Lemma rwp_register {Config} now (remote : option Config) (d : rdb) (L : lmap) X s :
  has_state provider poolName id d s -> machine_keys provider poolName id d X ->
  rwp (Machines.RegisterMachine now gcfg remote TokenTypeMachine
         (register_request (registration_payload c i))) (λ r d' _,
    r = inr (remote, mkMachineStateResponse id MachineStatusRegistered poolName "" ""
                       MachineKeepaliveExpirationS "") /\
    has_state provider poolName id d' (registered_machine s
      (mkMachineState id "" "" (machine_host gcfg (rp_Hostname (registration_payload c i))) (ac_K3sToken c)
         (n * 1000) (total / 2 ^ 30 * 1024) "" (DetectGPUCount (mi_gpus i)) ""
         (GetPrivateIP (mi_interfaces i)) "" "" "" false "")) /\
    machine_keys provider poolName id d' X) d L.
Proof using Hvalid Hpool Hcpus Hn Hmem Htotal Hgpus.
  intros Hs Hk. rewrite register_request_copy. unfold Machines.RegisterMachine. simpl.
  rewrite (registration_of_payload gcfg c i n total pct pool) by done. apply wp_pbind.
  pose proof total_range.
  eapply wp_mono; [|eapply rwp_RegisterMachine; [apply id_not_index|exact Hs|exact Hk|]].
  - intros r d' L' (-> & Hs' & Hk'). by apply wp_Ret.
  - unfold machine_state_ok, in_i, in_u. simpl. unfold in_u in Hgpus. lia.
Qed.

Lemma rwp_keepalive now k st (d : rdb) (L : lmap) X s :
  kl_config k = c -> has_state provider poolName id d s -> machine_keys provider poolName id d X ->
  metrics_ok (Collect i) ->
  rwp (MachineKeepalive now TokenTypeMachine (keepalive_request (keepalive_payload k st (Collect i))))
    (λ r d' _,
      r = inr (("ok", Some (mkMachineStateResponse id MachineStatusReady poolName (fmt_int now)
                              (ms_LastWorkerSeen s) MachineKeepaliveExpirationS "0.2.0-go")),
               inference_calls id (mk_Inference (keepalive_copy (keepalive_payload k st (Collect i))))) /\
      has_state provider poolName id d' (ready_machine now "0.2.0-go" s) /\
      as_set (kv d' !! ProviderMachineIndex provider poolName) = Some X) d L.
Proof using Hvalid Hprovider.
  intros Hk Hs Hkeys Hm. destruct (Validate_id c Hvalid) as (Hlen & Hpn & _).
  rewrite keepalive_request_copy by done. unfold MachineKeepalive, keepalive_copy, keepalive_payload.
  cbn [machine_token mk_MachineID mk_PoolName mk_ProviderName mk_AgentVersion mk_Metrics mk_Inference
       ka_MachineID ka_PoolName ka_ProviderName ka_AgentVersion ka_Metrics ka_Inference negb orb String.eqb].
  rewrite !Hk. cbn.
  destruct (String.eqb_spec id "") as [E|_]; [by rewrite E in Hlen|].
  destruct (String.eqb_spec poolName "") as [E|_]; [done|].
  destruct (String.eqb_spec provider "") as [E|_]; [done|]. cbn [orb].
  apply wp_pbind. eapply wp_mono;
    [|eapply rwp_SetMachineKeepAlive; [apply id_not_index|exact Hs|exact Hkeys|exact Hm]].
  intros r d1 L1 (-> & Hs1 & Hm1 & HX1). cbn. apply wp_pbind.
  eapply rwp_GetMachine; [exact Hs1|exact Hm1|exact Hm|]. apply wp_Ret. done.
Qed.
End join.

(** C15. A machine joins its pool: once an administrator has created it, and the agent with
    this identity and a valid configuration has registered and sent one keep-alive, each as
    the JSON body that the gateway binds, then on a server that answers every command the
    gateway has answered all three with success, the machine is stored as ready, with the
    CPU in millicores, the memory in mebibytes and the GPUs that the agent detected, the
    GPU type and registration token of its creation and the time of the keep-alive; it is
    in the pool's index, and the agent's loop counts no failure. *)
Theorem machine_joins_pool `{S : RedisServer, SL : !RedisLaws S} (I : srv -> Prop) (s : srv) (L : lmap)
    (gcfg : gateway_config) (c : AgentConfig) (i : machine_info) (pool : machine_pool) (n total : Z)
    (pct key : string) (k : KeepaliveLoop) (st : option AgentState) (now1 now2 now3 : Z) (X : gset string) :
  reliable I -> I s ->
  Validate c = None -> ac_ProviderName c <> "" -> ac_DryRun c = false -> kl_config k = c ->
  gw_Pools gcfg !! ac_PoolName c = Some pool -> mp_Provider pool = Some (ac_ProviderName c) ->
  mi_cpus i = Some n -> 0 <= n * 1000 < 2 ^ 63 -> mi_memory i = Some (total, pct) -> in_u64 total ->
  in_u32 (DetectGPUCount (mi_gpus i)) -> metrics_ok (Collect i) ->
  machine_keys (ac_ProviderName c) (ac_PoolName c) (ac_MachineID c) (view s) X ->
  ends (r1 <~ CreateMachine now1 gcfg true TokenTypeClusterAdmin (ac_PoolName c) (ac_MachineID c) (inr key) ;;
        (r2 <~ Machines.RegisterMachine now2 gcfg (None : option unit) TokenTypeMachine
                 (register_request (registration_payload c i)) ;;
         (r3 <~ MachineKeepalive now3 TokenTypeMachine
                  (keepalive_request (keepalive_payload k st (Collect i))) ;;
          Ret (r1.1, r2, r3)))) s L
    (λ '(r1, r2, r3) d,
      r1 = MOk (ac_MachineID c, key, pool) /\ status_of r2 = 200 /\ status_of r3 = 200 /\
      has_state (ac_ProviderName c) (ac_PoolName c) (ac_MachineID c) d
        (joined_machine gcfg c i pool n total key now1 now3 "0.2.0-go") /\
      as_set (kv d !! ProviderMachineIndex (ac_ProviderName c) (ac_PoolName c)) =
        Some ({[Keys.ProviderMachineState (ac_ProviderName c) (ac_PoolName c) (ac_MachineID c)]} ∪ X) /\
      kl_consecutiveFailures (sendKeepalive now3 (Collect i) (Status (status_of r3)) k st).1.2 = 0).
Proof.
  intros HR HI Hv Hp Hdry Hk Hpool Hpp Hcpus Hn Hmem Ht Hg Hm Hkeys. apply (ends_rwp I); [done..|].
  apply wp_pbind. eapply wp_mono; [|by apply rwp_create]. intros r1 d1 L1 (-> & Hs1 & Hk1).
  apply wp_pbind. eapply wp_mono; [|by eapply (rwp_register gcfg c i pool n total pct)].
  intros r2 d2 L2 (-> & Hs2 & Hk2).
  apply wp_pbind. eapply wp_mono; [|by eapply rwp_keepalive]. intros r3 d3 L3 (-> & Hs3 & HX3).
  apply wp_Ret. cbn. repeat split; [apply Hs3..|exact HX3|].
  unfold sendKeepalive. cbn. by rewrite Hk, Hdry.
Qed.

Definition ex_gateway : gateway_config :=
  mkGatewayConfig "10.0.0.1" "" "" {["external" := mkMachinePool (Some "generic") "A10G" ""]}.
Definition ex_info : machine_info :=
  mkMachineInfo (Some 8) (Some ["12.5"]) (Some (17179869184, "50")) (Some (1000, 500)) (Some "NVIDIA A10G") None.

Lemma machine_joins_pool_witness :
  ends (r1 <~ CreateMachine 1 ex_gateway true TokenTypeClusterAdmin "external" "0a1b2c3d" (inr "key") ;;
        (r2 <~ Machines.RegisterMachine 2 ex_gateway (None : option unit) TokenTypeMachine
                 (register_request (registration_payload ex_agent_config ex_info)) ;;
         (r3 <~ MachineKeepalive 3 TokenTypeMachine
                  (keepalive_request
                     (keepalive_payload (NewKeepaliveLoop ex_agent_config) None (Collect ex_info))) ;;
          Ret (r1.1, r2, r3)))) (on empty_rdb) ∅
    (λ '(r1, r2, r3) d,
      r1 = MOk ("0a1b2c3d", "key", mkMachinePool (Some "generic") "A10G" "") /\
      status_of r2 = 200 /\ status_of r3 = 200 /\
      has_state "generic" "external" "0a1b2c3d" d
        (mkMachineState "0a1b2c3d" "external" "ready" "machine-0a1b2c3d" "k3s" 8000 16384 "A10G" 1 "key"
           "127.0.0.1" "1" "" "3" false "0.2.0-go") /\
      as_set (kv d !! ProviderMachineIndex "generic" "external") =
        Some ({[Keys.ProviderMachineState "generic" "external" "0a1b2c3d"]} ∪ ∅) /\
      kl_consecutiveFailures (sendKeepalive 3 (Collect ex_info) (Status (status_of r3))
        (NewKeepaliveLoop ex_agent_config) None).1.2 = 0).
Proof.
  refine (machine_joins_pool (λ s, ref_faults s = []) (on empty_rdb) ∅ ex_gateway ex_agent_config ex_info
    (mkMachinePool (Some "generic") "A10G" "") 8 17179869184 "50" "key" (NewKeepaliveLoop ex_agent_config) None
    1 2 3 ∅ ref_reliable eq_refl eq_refl _ eq_refl eq_refl eq_refl eq_refl eq_refl _ eq_refl _ _ _ _);
    [done|by vm_compute|by vm_compute|by vm_compute|repeat constructor; done|].
  repeat split; eexists; reflexivity.
Defined.

(** ** Machines a provider ends *)

Section reconcile.
Context {FMT : GoFmt} (provider pool id : string).
Local Abbreviation stateKey := (Keys.ProviderMachineState provider pool id).
Local Abbreviation lockKey := (ProviderMachineLock provider pool id).

Lemma state_ne_lock : stateKey <> lockKey.
Proof.
  unfold Keys.ProviderMachineState, ProviderMachineLock, providerMachineState, providerMachineLock. simpl.
  intros H. by simplify_eq.
Qed.

(** The read of a machine whose state is there, whatever becomes of its metrics. *)
Lemma rwp_GetMachine_state (d : rdb) (L : lmap) (Q : gerr + machine -> rdb -> lmap -> Prop) s :
  has_state provider pool id d s -> (forall m, Q (inr (mkMachine s m)) d L) ->
  rwp (GetMachine provider pool id) Q d L.
Proof.
  intros [Hs [h Hh]] HQ. unfold GetMachine. wp_bind. eapply rwp_rcall_hgetall; [by rewrite Hh|].
  rewrite decide_False by apply hash_nonempty. rewrite machine_state_hash_roundtrip by done.
  unfold with_metrics, getMachineMetrics. apply wp_pbind, wp_pbind. wp_bind. wp_call.
  2: { destruct H as [-> _]. by apply wp_Ret, wp_Ret. }
  destruct H as [_ ->]. cbn beta iota. destruct (r =? 0); [by apply wp_Ret, wp_Ret, wp_Ret|].
  wp_bind. wp_call; [destruct H as [_ ->]; apply wp_Ret|destruct H as [-> _]]; by apply wp_Ret, wp_Ret.
Qed.

(** The read of a machine without a state. *)
Lemma rwp_GetMachine_none (d : rdb) (L : lmap) (Q : gerr + machine -> rdb -> lmap -> Prop) :
  kv d !! stateKey = None -> (forall e, Q (inl e) d L) -> rwp (GetMachine provider pool id) Q d L.
Proof.
  intros Hn HQ. unfold GetMachine. wp_bind. eapply rwp_rcall_hgetall; [by rewrite Hn|].
  rewrite decide_True by done. apply HQ.
Qed.

(** The lock of the machine leaves every other key as it is. *)
Lemma rwp_SetMachineLock (d : rdb) (L : lmap) (Q : gerr + unit -> rdb -> lmap -> Prop) :
  (forall r d' L', (forall k, k <> lockKey -> kv d' !! k = kv d !! k) -> Q r d' L') ->
  rwp (SetMachineLock provider pool id) Q d L.
Proof.
  intros HQ. unfold SetMachineLock, Acquire. apply wp_pbind. wp_call.
  - destruct r as [tok|]; simpl in H; cbn.
    + destruct H as [_ ->]. apply wp_Loc, wp_Ret, HQ. intros k Hk. simpl. by apply lookup_insert_ne.
    + destruct H as [_ ->]. by apply wp_Ret, HQ.
  - destruct H as [-> _]. by apply wp_Ret, HQ.
Qed.

(** *** The workers of a machine *)

(** A worker on the machine is recorded: it is indexed and its record names the machine. *)
Definition worker_on (d : rdb) : Prop :=
  exists X workerId h,
    as_set (kv d !! SchedulerWorkerIndex) = Some X /\ SchedulerWorkerState workerId ∈ X /\
    kv d !! SchedulerWorkerState workerId = Some (RVHash h) /\ h <> ∅ /\
    w_MachineId (to_struct h (zeroWorker (last_segment (SchedulerWorkerState workerId)))) = id.

Lemma worker_on_ext d d' :
  (forall k, k <> lockKey -> kv d' !! k = kv d !! k) -> worker_on d -> worker_on d'.
Proof.
  intros H (X & wid & h & H1 & H2 & H3 & H4). exists X, wid, h.
  rewrite !H by (unfold SchedulerWorkerIndex, SchedulerWorkerState, schedulerWorkerIndex, schedulerWorkerState,
    ProviderMachineLock, providerMachineLock; simpl; intros E; by simplify_eq).
  done.
Qed.

(** What a pipeline of reads answers. *)
Lemma rwp_pipe_hgetall keys (d : rdb) (L : lmap) :
  rwp (pipe_hgetall keys) (λ rs d' _, d' = d /\
    Forall2 (λ k r, forall h, r = inr h -> as_hash (kv d !! k) = Some h) keys rs) d L.
Proof.
  induction keys as [|k keys IH]; cbn [pipe_hgetall]; [by apply wp_Ret|].
  apply wp_pbind. wp_call.
  all: (assert (d' = d) as -> by (by destruct H)); apply wp_pbind; (eapply wp_mono; [|exact IH]);
    intros rs d' L' [-> Hrs]; apply wp_Ret; (split; [done|]); constructor; [|done].
  - intros h [= <-]. by destruct H.
  - done.
Qed.

Lemma first_error_none {A} (rs : list (rerr + A)) r :
  first_error rs = None -> r ∈ rs -> exists a, r = inr a.
Proof.
  induction rs as [|[e|a] rs IH]; simpl; intros H Hr; [by apply not_elem_of_nil in Hr|done|].
  apply elem_of_cons in Hr as [->|Hr]; eauto.
Qed.

(** The listing of the workers skips none that is indexed and has a record. *)
Lemma rwp_collect_workers keys rs i key (h : gmap string string) (d : rdb) (L : lmap) :
  keys !! i = Some key -> rs !! i = Some (inr h) -> h <> ∅ ->
  rwp (collect_workers keys rs) (λ r _ _, forall ws, r = inr ws -> to_struct h (zeroWorker (last_segment key)) ∈ ws) d L.
Proof.
  intros Hk Hr Hh. revert i rs d L Hk Hr.
  induction keys as [|k keys IH]; intros [|i] [|r rs] d L Hk Hr; simplify_eq/=.
  - rewrite decide_False by done. wp_bind. eapply wp_mono; [|apply wp_any].
    intros [e|ws] d' L' _; [done|]. intros ws' [= <-]. by left.
  - destruct r as [e|res]; [|case_decide].
    1-2: apply wp_pbind; eapply wp_mono; [|apply wp_any]; intros; by eapply IH.
    wp_bind. eapply wp_mono; [|by eapply IH]. intros [e|ws] d' L' H'; [done|].
    intros ws' [= <-]. right. by apply H'.
Qed.

Lemma rwp_GetAllWorkersOnMachine (d : rdb) (L : lmap) :
  worker_on d -> rwp (GetAllWorkersOnMachine id) (λ r _ _, forall ws, r = inr ws -> ws <> []) d L.
Proof.
  intros (X & wid & h & HX & Hin & Hh & Hne & Hid). unfold GetAllWorkersOnMachine. wp_bind.
  eapply wp_mono with (Q := λ r _ _, forall ws, r = inr ws ->
    to_struct h (zeroWorker (last_segment (SchedulerWorkerState wid))) ∈ ws).
  { intros [e|ws] d' L' H; [done|]. intros ws' [= <-] E. apply (not_elem_of_nil (A := Worker)) with
      (x := to_struct h (zeroWorker (last_segment (SchedulerWorkerState wid)))).
    rewrite <- E. apply list_elem_of_filter. auto. }
  unfold getWorkers. wp_bind. wp_call; [|done]. destruct H as (X' & HX' & Hp & ->).
  rewrite HX in HX'. injection HX' as <-. apply wp_pbind. unfold getWorkersFromKeys. apply wp_pbind.
  eapply wp_mono; [|apply rwp_pipe_hgetall]. intros rs d' L' [-> Hrs].
  destruct (first_error rs) eqn:He; [done|].
  assert (SchedulerWorkerState wid ∈ r) as [i Hi]%list_elem_of_lookup by (rewrite Hp; by apply elem_of_elements).
  destruct (Forall2_lookup_l _ _ _ _ _ Hrs Hi) as (x & Hx & Hxh).
  destruct (first_error_none rs x He) as [h' ->]; [by eapply list_elem_of_lookup_2|].
  specialize (Hxh h' eq_refl). rewrite Hh in Hxh. injection Hxh as ->.
  eapply wp_mono; [|by eapply rwp_collect_workers]. intros [e|ws] d2 L2 H; [done|].
  intros ws' [= <-]. by apply H.
Qed.

(** Long enough without a keep-alive, and consolidated at all. *)
Definition consolidates (now : Z) (s : ProviderMachineState) : Prop :=
  ms_AutoConsolidate s = true /\
  exists t, ParseInt 64 (ms_LastKeepalive s) = Some t /\ MachineEmptyConsolidationPeriodM < now - t * second.

Lemma rwp_reconcile_unlocked nowS now inst s (d : rdb) (L : lmap) :
  has_state provider pool id d s ->
  rwp (reconcile_unlocked nowS now provider pool id inst) (λ v _ _, v <> Keep -> consolidates now s) d L.
Proof.
  intros Hs. unfold reconcile_unlocked. apply wp_pbind. eapply rwp_GetMachine_state; [exact Hs|].
  intros m. apply wp_pbind. eapply wp_mono; [|apply wp_any]. intros [e|ws] d2 L2 _; [by apply wp_Ret|].
  destruct (0 <? length ws)%nat.
  { apply wp_pbind. eapply wp_mono; [|apply wp_any]. intros ? ? ? _. by apply wp_Ret. }
  cbn [mc_State]. destruct (ms_AutoConsolidate s) eqn:Ha; [|by apply wp_Ret].
  cbn [negb]. destruct (ParseInt 64 (ms_LastKeepalive s)) as [t|] eqn:Ht; apply wp_Ret; [|done].
  destruct (Z.ltb_spec MachineEmptyConsolidationPeriodM (now - t * second)); [|done].
  intros _. split; [done|]. eauto.
Qed.

Lemma rwp_reconcile_worker nowS now inst s (d : rdb) (L : lmap) :
  has_state provider pool id d s -> worker_on d ->
  rwp (reconcile_unlocked nowS now provider pool id inst) (λ v _ _, v = Keep) d L.
Proof.
  intros Hs Hw. unfold reconcile_unlocked. apply wp_pbind. eapply rwp_GetMachine_state; [exact Hs|].
  intros m. apply wp_pbind. eapply wp_mono; [|by apply rwp_GetAllWorkersOnMachine].
  intros [e|ws] d2 L2 H; [by apply wp_Ret|]. specialize (H ws eq_refl). destruct ws as [|w ws]; [done|].
  apply wp_pbind. eapply wp_mono; [|apply wp_any]. intros ? ? ? _. by apply wp_Ret.
Qed.

(** The lock is held around it. *)
Lemma rwp_reconcile_machine nowS now inst s (P : verdict -> Prop) (d : rdb) (L : lmap) :
  has_state provider pool id d s -> P Keep ->
  (forall d1 L1, (forall k, k <> lockKey -> kv d1 !! k = kv d !! k) -> has_state provider pool id d1 s ->
     rwp (reconcile_unlocked nowS now provider pool id inst) (λ v _ _, P v) d1 L1) ->
  rwp (reconcile_machine nowS now provider pool id inst) (λ v _ _, P v) d L.
Proof.
  intros Hs HK HP. unfold reconcile_machine. apply wp_pbind.
  apply rwp_SetMachineLock. intros [e|[]] d1 L1 Hd; [by apply wp_Ret|]. apply wp_pbind.
  eapply wp_mono; [|apply HP; [exact Hd|eapply has_state_ext; [|exact Hs]; apply Hd, state_ne_lock]].
  intros v d2 L2 Hv. apply wp_pbind. eapply wp_mono; [|apply wp_any]. intros ? ? ? _. by apply wp_Ret.
Qed.
End reconcile.

(** C37. A provider ends no machine in use.  On a server that answers every command, one round
    of [Reconcile] over a listed instance keeps a registered machine on which a worker is
    recorded (indexed, with a record that names the machine); it ends any other registered
    machine only if that is to be consolidated and its last recorded keep-alive is more than
    ten minutes old; and it ends an instance that has no stored state (never registered, or
    expired), unless its lock is taken. *)
Theorem reconcile_spares_live_machines `{S : RedisServer, SL : !RedisLaws S} {FMT : GoFmt} (I : srv -> Prop)
    (provider pool id instanceId : string) (nowS now : Z) (s : srv) (L : lmap) :
  reliable I -> I s ->
  (forall m, has_state provider pool id (view s) m ->
     ends (reconcile_machine nowS now provider pool id instanceId) s L
       (λ v _, (worker_on id (view s) -> v = Keep) /\ (v = Terminate instanceId id -> consolidates now m))) /\
  (kv (view s) !! Keys.ProviderMachineState provider pool id = None ->
   kv (view s) !! ProviderMachineLock provider pool id = None ->
     ends (reconcile_machine nowS now provider pool id instanceId) s L
       (λ v _, v = Terminate instanceId id)).
Proof.
  intros HR HI. split.
  - intros m Hm. apply (ends_rwp I); [done..|]. apply wp_and.
    + apply wp_impl. intros Hw. eapply (rwp_reconcile_machine _ _ _ _ _ _ _ (λ v, v = Keep)); [exact Hm|done|].
      intros d1 L1 Hd Hs. eapply rwp_reconcile_worker; [exact Hs|]. by eapply worker_on_ext.
    + eapply rwp_reconcile_machine; [exact Hm|done|]. intros d1 L1 Hd Hs.
      eapply wp_mono; [|by apply rwp_reconcile_unlocked]. intros v d2 L2 Hv ->. by apply Hv.
  - intros Hn Hl. apply (ends_rwp I); [done..|]. unfold reconcile_machine. apply wp_pbind.
    unfold SetMachineLock, Acquire. apply wp_pbind. wp_call.
    2: { destruct H as [_ Hno]. exfalso. by eapply (Hno (Some "t")). }
    destruct r as [tok|]; simpl in H; cbn.
    2: { destruct H as [H _]. unfold exists_kv in H. rewrite Hl in H. by rewrite bool_decide_false in H by by intros []. }
    destruct H as [_ ->]. apply wp_Loc, wp_Ret. cbn. apply wp_pbind. unfold reconcile_unlocked. apply wp_pbind.
    apply rwp_GetMachine_none.
    + simpl. rewrite lookup_insert_ne by (apply not_eq_sym, state_ne_lock). done.
    + intros e. apply wp_Ret, wp_pbind. eapply wp_mono; [|apply wp_any]. intros ? ? ? _. by apply wp_Ret.
Qed.

(** An empty machine whose agent was heard two minutes ago, an instance that never
    registered, and a machine that was last heard long ago but has a worker. *)
Definition ex_idle : ProviderMachineState :=
  mkMachineState "m1" "gpu" "ready" "host" "tok" 8000 16384 "A10G" 1 "key" "10.0.0.7" "1" "" "880" true "v1".
Definition ex_busy : ProviderMachineState :=
  mkMachineState "m3" "gpu" "ready" "host" "tok" 8000 16384 "A10G" 1 "key" "10.0.0.8" "1" "" "5" true "v1".
Definition ex_fleet_db : rdb :=
  mkRdb {[ Keys.ProviderMachineState "ec2" "gpu" "m1" := RVHash (hset_fields (to_slice ex_idle) ∅);
           Keys.ProviderMachineState "ec2" "gpu" "m3" := RVHash (hset_fields (to_slice ex_busy) ∅);
           SchedulerWorkerIndex := RVSet {[ SchedulerWorkerState "w3" ]};
           SchedulerWorkerState "w3" := RVHash {[ "id" := "w3"; "machine_id" := "m3" ]} ]} ∅.

Lemma reconcile_spares_live_machines_witness :
  let tick m i := reconcile_machine (FMT := plain_fmt) 1000 (1000 * second) "ec2" "gpu" m i in
  ends (tick "m1" "i-1") (on ex_fleet_db) ∅ (λ v _, v <> Terminate "i-1" "m1") /\
  ends (tick "m2" "i-2") (on ex_fleet_db) ∅ (λ v _, v = Terminate "i-2" "m2") /\
  ends (tick "m3" "i-3") (on ex_fleet_db) ∅ (λ v _, v = Keep).
Proof.
  intros tick.
  pose proof (λ m i, reconcile_spares_live_machines (S := ref_server) (FMT := plain_fmt) (λ s, ref_faults s = [])
    "ec2" "gpu" m i 1000 (1000 * second) (on ex_fleet_db) ∅ ref_reliable eq_refl) as H.
  split; [|split].
  - pose proof (proj1 (H "m1" "i-1") ex_idle) as H1. unfold ends in *.
    fold (tick "m1" "i-1") in H1. destruct (run (tick "m1" "i-1") _ _) as [[v s'] L']. intros ->.
    assert (consolidates (1000 * second) ex_idle) as (_ & t & Ht & Hl).
    { apply H1; [|done]. split; [by vm_compute|]. exists ∅. vm_compute. reflexivity. }
    vm_compute in Ht. injection Ht as <-. vm_compute in Hl. discriminate.
  - apply H; vm_compute; reflexivity.
  - pose proof (proj1 (H "m3" "i-3") ex_busy) as H3. unfold ends in *.
    fold (tick "m3" "i-3") in H3. destruct (run (tick "m3" "i-3") _ _) as [[v s'] L']. apply H3.
    + split; [by vm_compute|]. exists ∅. vm_compute. reflexivity.
    + exists {[ SchedulerWorkerState "w3" ]}, "w3", {[ "id" := "w3"; "machine_id" := "m3" ]}.
      split_and!; [vm_compute; reflexivity|set_solver|vm_compute; reflexivity|done|vm_compute; reflexivity].
Defined.

(** ** Further facts *)

(** The configuration an agent saves is the one it loads, flags of a single run and
    timings apart. *)
Lemma config_file_roundtrip c :
  ac_GatewayPort c <> 0 -> ac_PoolName c <> "" -> ac_ProviderName c <> "" -> ac_GatewayScheme c = "http" ->
  ac_KeepaliveInterval c = DefaultKeepaliveInterval -> ac_RegistrationTimeout c = DefaultRegistrationTimeout ->
  ac_DryRun c = false -> ac_Once c = false ->
  ToAgentConfig (NewConfigFileFromAgentConfig c) = c.
Proof.
  intros H1 H2 H3 H4 H5 H6 H7 H8. unfold ToAgentConfig. simpl.
  rewrite (proj2 (Z.eqb_neq _ _)) by done. rewrite !(proj2 (String.eqb_neq _ _)) by done.
  destruct c; simpl in *. by subst.
Qed.

(** The type assertion of the machine handlers fails for the registry the gateway passes. *)
Lemma machine_group_panics : NewMachineGroup ModelRegistry_methods = None.
Proof. vm_compute. reflexivity. Qed.

(** After a command that could not be started, the shutdown of the agent panics. *)
Lemma shutdown_after_failed_start `{OllamaHost} now selects m h e h1 h2 :
  probe (om_port m) h = (false, h1) -> on_darwin = true -> in_path h1 = true ->
  spawn (om_port m) h1 = (Some e, h2) -> om_external m = false ->
  exists err m', Start now selects m h = Some (Some err, m', h2) /\ Stop m' h2 = None.
Proof.
  intros Hp Hd Hi Hs He. eexists _, _. unfold Start, isOllamaRunning. rewrite Hp, Hd, Hi, Hs. split; [done|].
  unfold Stop. simpl. by rewrite He.
Qed.

(** A wait for the inference server ends by the deadline: some tick after it is enough. *)
Lemma waitForReady_ends `{OllamaHost} deadline selects m h now :
  Some now ∈ selects -> deadline < now -> is_Some (waitForReady deadline selects m h).
Proof.
  intros Hin Hd. revert h. induction selects as [|[t|] selects IH]; intros h; simpl.
  - by apply elem_of_nil in Hin.
  - destruct (isOllamaRunning m h) as [[] h']; [eauto|]. destruct (Z.ltb_spec deadline t); [eauto|].
    apply elem_of_cons in Hin as [[= <-]|Hin]; [lia|by apply IH].
  - eauto.
Qed.

(** A busy machine that misses one heartbeat reports itself as ready after the next one,
    although its jobs still run. *)
Lemma ready_while_busy now s job :
  agent_ok s -> is_active job = true ->
  let s' := UpdateHeartbeat (now + 1) true (UpdateHeartbeat now false (AddJob job s)) in
  ag_Status s' = "READY" /\ 0 < ag_RunningJobs s'.
Proof.
  intros Hs Ha s'. destruct (AddJob_ok job s Hs) as [[H1 H2 H3 H4 H5 H6 H7] Hin].
  split; [done|]. change (0 < ag_RunningJobs (AddJob job s)). rewrite H3. unfold active_jobs.
  apply list_elem_of_lookup in Hin as [k Hk]. apply list_elem_of_lookup_2 in Hk.
  assert (job ∈ filter (λ j, is_active j = true) (ag_Jobs (AddJob job s))) as Hf
    by by apply list_elem_of_filter.
  destruct (filter _ _); [by apply elem_of_nil in Hf|simpl; lia].
Qed.
