(* ===== verification/Crypto.v ===== *)
(** * Encryption of secrets and signatures (pkg/common/crypto.go, pkg/auth/sign.go)

    Base64 as [encoding/base64] writes it, the encryption of a text with AES-GCM, the
    secret key of a workspace, and the signature of a payload.  The block cipher and HMAC
    are parameters with the documented law of each: an opened box contains what was
    sealed.  A slice out of range is a panic. *)

From S2P Require Import Prelude GoStd Redis TaskRepo.

Local Open Scope Z_scope.
Set Default Proof Using "Type".

(** ** Base64 *)

(** [StdEncoding], and [URLEncoding] with its two other characters. *)
Definition b64_char (url : bool) (n : Z) : Ascii.ascii :=
  let code :=
    if n <? 26 then n + 65 else if n <? 52 then n + 71 else if n <? 62 then n - 4
    else if n =? 62 then (if url then 45 else 43) else (if url then 95 else 47) in
  Ascii.ascii_of_nat (Z.to_nat code).

Definition byte_val (c : Ascii.ascii) : Z := Z.of_nat (Ascii.nat_of_ascii c).

Fixpoint b64_encode (url : bool) (s : string) : string :=
  let e := b64_char url in
  match s with
  | "" => ""
  | String a "" =>
      let x := byte_val a in
      String (e (x `div` 4)) (String (e (x `mod` 4 * 16)) "==")
  | String a (String b "") =>
      let x := byte_val a in let y := byte_val b in
      String (e (x `div` 4)) (String (e (x `mod` 4 * 16 + y `div` 16)) (String (e (y `mod` 16 * 4)) "="))
  | String a (String b (String c s')) =>
      let x := byte_val a in let y := byte_val b in let z := byte_val c in
      String (e (x `div` 4)) (String (e (x `mod` 4 * 16 + y `div` 16))
        (String (e (y `mod` 16 * 4 + z `div` 64)) (String (e (z `mod` 64)) (b64_encode url s'))))
  end.

Lemma sextets (P : Z -> Prop) :
  Forall (λ n, P (Z.of_nat n)) (seq 0 64) -> forall n, 0 <= n < 64 -> P n.
Proof.
  intros H n Hn. rewrite Forall_forall in H. specialize (H (Z.to_nat n)).
  rewrite Z2Nat.id in H by lia. apply H. apply elem_of_seq. lia.
Qed.

Lemma b64_value_char n : 0 <= n < 64 -> b64_value (b64_char false n) = Some n.
Proof. revert n. apply sextets. by repeat constructor. Qed.
Lemma b64_char_not_pad n : 0 <= n < 64 -> Ascii.eqb (b64_char false n) "="%char = false.
Proof. revert n. apply sextets. by repeat constructor. Qed.
Lemma b64_char_no_line_end n :
  0 <= n < 64 ->
  Ascii.eqb (b64_char false n) "010"%char || Ascii.eqb (b64_char false n) "013"%char = false.
Proof. revert n. apply sextets. by repeat constructor. Qed.

Lemma byte_val_bound c : 0 <= byte_val c < 256.
Proof. unfold byte_val. pose proof (Ascii.nat_ascii_bounded c). lia. Qed.
Lemma byte_of_val c k : k = byte_val c -> byte_of k = c.
Proof.
  intros ->. pose proof (byte_val_bound c). unfold byte_of. rewrite Z.mod_small by lia.
  unfold byte_val. by rewrite Nat2Z.id, Ascii.ascii_nat_embedding.
Qed.
Lemma byte_of_wrap c k : k `mod` 256 = byte_val c -> byte_of k = c.
Proof. intros H. rewrite <- (byte_of_val c (k `mod` 256)) by done. unfold byte_of. by rewrite Z.mod_mod. Qed.

(** The cases of an encoded text: a group of three bytes and a rest, or a shorter end. *)
Lemma b64_ind (P : string -> Prop) :
  P "" -> (forall a, P (String a "")) -> (forall a b, P (String a (String b ""))) ->
  (forall a b c s, P s -> P (String a (String b (String c s)))) -> forall s, P s.
Proof.
  intros H0 H1 H2 H3.
  assert (forall n s, (String.length s <= n)%nat -> P s) as H; [|intros s; by eapply H].
  induction n as [|n IH]; intros [|a [|b [|c s]]] Hs; simpl in Hs; try done; try lia.
  apply H3, IH. lia.
Qed.

Ltac b64_bytes :=
  repeat match goal with
    | |- context [byte_val ?c] =>
        lazymatch goal with
        | _ : 0 <= byte_val c < 256 |- _ => fail
        | _ => pose proof (byte_val_bound c)
        end
    end.
Ltac b64_solve := b64_bytes; Z.to_euclidean_division_equations; lia.

Lemma skip_encoded s : skip_line_ends (b64_encode false s) = b64_encode false s.
Proof.
  induction s as [|a|a b|a b c s IH] using b64_ind; cbn [b64_encode skip_line_ends]; try done;
    rewrite ?b64_char_no_line_end by b64_solve; cbn; by rewrite ?IH.
Qed.

Lemma b64_roundtrip s : b64_decode (b64_encode false s) = Some s.
Proof.
  unfold b64_decode. rewrite skip_encoded.
  induction s as [|a|a b|a b c s IH] using b64_ind; cbn [b64_encode b64_groups]; [done|..];
    rewrite !b64_value_char by b64_solve; cbn [base.mbind option_bind];
    rewrite ?b64_char_not_pad by b64_solve; simpl.
  - do 2 f_equal. apply byte_of_val. b64_solve.
  - do 2 f_equal; [apply byte_of_val; b64_solve|]. f_equal. apply byte_of_wrap. b64_solve.
  - rewrite IH. simpl. f_equal. f_equal; [apply byte_of_val; b64_solve|].
    f_equal; [apply byte_of_wrap; b64_solve|]. f_equal. apply byte_of_wrap. b64_solve.
Qed.

(** ** Encryption (crypto.go) *)

Class AesGcm := {
  (** [gcm.Seal] and [gcm.Open] of the cipher with a key, without additional data. *)
  gcm_seal : string -> string -> string -> string;
  gcm_open : string -> string -> string -> option string;
}.

Definition NonceSize : nat := 12.

(** AES takes keys of 16, 24 or 32 bytes. *)
Definition aes_key (key : string) : bool := bool_decide (String.length key ∈ [16; 24; 32]%nat).

Class AesGcmLaws (C : AesGcm) : Prop := {
  gcm_open_seal : forall key nonce plaintext,
    aes_key key = true -> String.length nonce = NonceSize ->
    gcm_open key nonce (gcm_seal key nonce plaintext) = Some plaintext;
}.

Section crypto.
Context {C : AesGcm}.

Definition key_size_error (key : string) : gerr :=
  EMsg ("crypto/aes: invalid key size " +:+ fmt_int (Z.of_nat (String.length key))).

(** [drawn]: what [rand.Read] makes of the nonce. *)
Definition Encrypt (secretKey plaintext : string) (drawn : gerr + string) : gerr + string :=
  if negb (aes_key secretKey) then inl (key_size_error secretKey)
  else
    match drawn with
    | inl e => inl e
    | inr nonce => inr (b64_encode false (nonce +:+ gcm_seal secretKey nonce plaintext))
    end.

Definition Decrypt (secretKey ciphertext64 : string) : gerr + string :=
  match b64_decode ciphertext64 with
  | None => inl (EMsg "illegal base64 data")
  | Some ciphertext =>
      if negb (aes_key secretKey) then inl (key_size_error secretKey)
      else if (String.length ciphertext <? NonceSize)%nat then inl (EMsg "ciphertext too short")
      else
        let nonce := String.substring 0 NonceSize ciphertext in
        let sealed := String.substring NonceSize (String.length ciphertext - NonceSize) ciphertext in
        match gcm_open secretKey nonce sealed with
        | None => inl (EMsg "cipher: message authentication failed")
        | Some plaintext => inr plaintext
        end
  end.

Fixpoint DecryptAllSecrets (signingKey : string) (secrets : list string) : gerr + list string :=
  match secrets with
  | [] => inr []
  | secret :: rest =>
      match Decrypt signingKey secret with
      | inl e => inl e
      | inr decrypted =>
          match DecryptAllSecrets signingKey rest with inl e => inl e | inr l => inr (decrypted :: l) end
      end
  end.

(** The key without its prefix [sk_]; a shorter text is sliced out of range. *)
Definition ParseSecretKey (secretKey : string) : gerr + string :=
  if (String.length secretKey <? 3)%nat then inl (EPanic "slice bounds out of range")
  else
    match b64_decode (String.substring 3 (String.length secretKey - 3) secretKey) with
    | None => inl (EMsg "illegal base64 data")
    | Some key => inr key
    end.

(** ** Signatures (sign.go) *)

(** [hmac_sha256_hex key data], and the Unix time. *)
Definition SignPayload (hmac_sha256_hex : string -> string -> string) (now : Z) (payload secretKey : string)
    : string * Z :=
  (hmac_sha256_hex secretKey (b64_encode false payload +:+ ":" +:+ fmt_int now), now).

(** ** What is encrypted can be read *)

Lemma substring_append_l a b : String.substring 0 (String.length a) (a +:+ b) = a.
Proof. induction a as [|c a IH]; simpl; [by destruct b|]. by f_equal. Qed.
Lemma substring_full s : String.substring 0 (String.length s) s = s.
Proof. induction s as [|c s IH]; simpl; [done|]. by f_equal. Qed.
Lemma substring_append_r a b : String.substring (String.length a) (String.length b) (a +:+ b) = b.
Proof. induction a as [|c a IH]; simpl; [apply substring_full|done]. Qed.
Lemma length_append a b : String.length (a +:+ b) = (String.length a + String.length b)%nat.
Proof. induction a as [|c a IH]; simpl; [done|]. by rewrite IH. Qed.

Lemma Decrypt_Encrypt `{!AesGcmLaws C} key plaintext nonce c :
  String.length nonce = NonceSize ->
  Encrypt key plaintext (inr nonce) = inr c -> Decrypt key c = inr plaintext.
Proof.
  intros Hn. unfold Encrypt, Decrypt. destruct (aes_key key) eqn:Hk; simpl; [|done].
  intros [= <-]. rewrite b64_roundtrip, length_append, Hn.
  destruct (Nat.ltb_spec (NonceSize + String.length (gcm_seal key nonce plaintext)) NonceSize); [lia|].
  replace (NonceSize + String.length (gcm_seal key nonce plaintext) - NonceSize)%nat
    with (String.length (gcm_seal key nonce plaintext)) by lia.
  rewrite <- Hn, substring_append_l, substring_append_r. by rewrite gcm_open_seal.
Qed.

Lemma ParseSecretKey_encoded key : ParseSecretKey ("sk_" +:+ b64_encode false key) = inr key.
Proof.
  unfold ParseSecretKey. rewrite length_append. change (String.length "sk_") with 3%nat.
  destruct (Nat.ltb_spec (3 + String.length (b64_encode false key)) 3); [lia|].
  replace (3 + String.length (b64_encode false key) - 3)%nat with (String.length (b64_encode false key)) by lia.
  change 3%nat with (String.length "sk_") at 1. by rewrite substring_append_r, b64_roundtrip.
Qed.
End crypto.

(** A cipher that satisfies the law: the sealed text is the text. *)
Definition plain_cipher : AesGcm := {| gcm_seal _ _ p := p; gcm_open _ _ c := Some c |}.
#[export] Instance plain_cipher_laws : AesGcmLaws plain_cipher.
Proof. by split. Qed.

Example signing_key_text :
  ParseSecretKey "sk_AAECAwQFBgcICQoLDA0ODw==" =
    inr (string_of_list_ascii (map Ascii.ascii_of_nat (seq 0 16))).
Proof. reflexivity. Qed.
