(* ===== verification/Postgres.v ===== *)
(** * The database (PostgreSQL behind pkg/repository/backend_postgres.go)

    Tables as lists of rows, one record per table of the migrations with the structs of
    pkg/types, and statements on them: what a statement selects, inserts, updates and
    deletes, and the constraints that make it fail.  The server is not part of the
    repository: the text types and random values are parameters ([PgWorld]), and a
    schedule says which statements fail, with or without effect.

    A request handler works on the database and on Redis: [GM] is a program on the server
    of [Redis] that carries the database along. *)

From S2P Require Import Prelude GoStd Redis Types.

Local Open Scope Z_scope.
Set Default Proof Using "Type".

(** ** Errors *)

(** [sql.ErrNoRows], an error of the server with its SQLSTATE code, a connection that
    failed, and the other errors of the code. *)
Inductive dberr :=
| NoRows
| Pq (code msg : string)
| DbConn (msg : string)
| DbErr (e : gerr).
#[export] Instance dberr_eq_dec : EqDecision dberr.
Proof. solve_decision. Defined.

Definition db_Error (e : dberr) : string :=
  match e with
  | NoRows => "sql: no rows in result set"
  | Pq _ msg => "pq: " +:+ msg
  | DbConn msg => msg
  | DbErr e => Error e
  end.

(** The class of an error are the first two characters of its code: 22 is a data
    exception. *)
Definition PostgresDataError (e : dberr) : bool :=
  match e with Pq code _ => HasPrefix code "22" | _ => false end.
Definition unique_violation (e : dberr) : bool :=
  match e with Pq code _ => String.eqb code "23505" | _ => false end.

Definition invalid_text (type value : string) : dberr :=
  Pq "22P02" ("invalid input syntax for type " +:+ type +:+ ": " +:+ value).
Definition out_of_range : dberr := Pq "22003" "integer out of range".
Definition bad_encoding : dberr := Pq "22021" "invalid byte sequence for encoding".
Definition too_long : dberr := Pq "22001" "value too long for type character varying(255)".
Definition duplicate_key (constraint : string) : dberr :=
  Pq "23505" ("duplicate key value violates unique constraint " +:+ constraint).
Definition foreign_key (constraint : string) : dberr :=
  Pq "23503" ("insert or update violates foreign key constraint " +:+ constraint).
Definition check_violation (constraint : string) : dberr :=
  Pq "23514" ("new row violates check constraint " +:+ constraint).

(** ** Rows *)

Record Token := mkToken {
  tk_Id : Z;
  tk_ExternalId : string;
  tk_Key : string;
  tk_Active : bool;
  tk_Reusable : bool;
  tk_WorkspaceId : option Z;
  tk_Workspace : option Workspace;
  tk_TokenType : string;
  tk_CreatedAt : Z;
  tk_UpdatedAt : Z;
  tk_DisabledByClusterAdmin : bool;
}.
#[export] Instance Token_eq_dec : EqDecision Token.
Proof. solve_decision. Defined.

Record Secret := mkSecret {
  se_Id : Z;
  se_ExternalId : string;
  se_CreatedAt : Z;
  se_UpdatedAt : Z;
  se_Name : string;
  se_Value : string;
  se_WorkspaceId : Z;
  se_LastUpdatedBy : option Z;
}.
#[export] Instance Secret_eq_dec : EqDecision Secret.
Proof. solve_decision. Defined.

Record Volume := mkVolume {
  vo_Id : Z;
  vo_ExternalId : string;
  vo_Name : string;
  vo_Size : Z;
  vo_WorkspaceId : Z;
  vo_CreatedAt : Z;
  vo_UpdatedAt : Z;
}.

Record Task := mkTask {
  ta_Id : Z;
  ta_ExternalId : string;
  ta_Status : string;
  ta_ContainerId : string;
  ta_StartedAt : option Z;
  ta_EndedAt : option Z;
  ta_WorkspaceId : Z;
  ta_ExternalWorkspaceId : option Z;
  ta_StubId : Z;
  ta_AppId : option Z;
  ta_CreatedAt : Z;
  ta_UpdatedAt : Z;
}.

Record Deployment := mkDeployment {
  de_Id : Z;
  de_ExternalId : string;
  de_Name : string;
  de_Active : bool;
  de_Subdomain : string;
  de_WorkspaceId : Z;
  de_StubId : Z;
  de_StubType : string;
  de_Version : Z;
  de_CreatedAt : Z;
  de_UpdatedAt : Z;
  de_DeletedAt : option Z;
  de_AppId : Z;
}.

(** A row of the table [image]. *)
Record image_row := mkImageRow {
  im_image_id : string;
  im_clip_version : Z;
  im_credential_secret_name : option string;
  im_credential_secret_id : option string;
}.

Record ScheduledJob := mkScheduledJob {
  sj_Id : Z;
  sj_ExternalId : string;
  sj_JobId : Z;
  sj_JobName : string;
  sj_Schedule : string;
  sj_Payload : string;
  sj_StubId : Z;
  sj_DeploymentId : Z;
  sj_CreatedAt : Z;
  sj_UpdatedAt : Z;
  sj_DeletedAt : option Z;
}.

(** A row of the table [cron.job] of the extension pg_cron. *)
Record cron_job := mkCronJob {
  cj_jobid : Z;
  cj_jobname : string;
  cj_schedule : string;
  cj_command : string;
}.

(** ** Tables *)

(** The rows in the order in which the server finds them, and the sequence of the ids. *)
Record table (R : Type) := mkTable { rows : list R; next_id : Z }.
Arguments mkTable {R}.
Arguments rows {R}.
Arguments next_id {R}.

Record tables := mkTables {
  t_workspace : table Workspace;
  t_storage : table WorkspaceStorage;
  t_token : table Token;
  t_limit : table ConcurrencyLimit;
  t_secret : table Secret;
  t_volume : table Volume;
  t_object : table Object;
  t_app : table App;
  t_stub : table Stub;
  t_deployment : table Deployment;
  t_task : table Task;
  t_image : table image_row;
  t_job : table ScheduledJob;
  t_cron : table cron_job;
}.

Definition empty_tables : tables :=
  mkTables (mkTable [] 1) (mkTable [] 1) (mkTable [] 1) (mkTable [] 1) (mkTable [] 1) (mkTable [] 1)
    (mkTable [] 1) (mkTable [] 1) (mkTable [] 1) (mkTable [] 1) (mkTable [] 1) (mkTable [] 1)
    (mkTable [] 1) (mkTable [] 1).

Section setters.
Context (t : tables).
Let w := t_workspace t.
Let s := t_storage t.
Let k := t_token t.
Let l := t_limit t.
Let e := t_secret t.
Let v := t_volume t.
Let o := t_object t.
Let a := t_app t.
Let b := t_stub t.
Let d := t_deployment t.
Let x := t_task t.
Let i := t_image t.
Let j := t_job t.
Let c := t_cron t.
Definition set_workspaces (w : table Workspace) : tables := mkTables w s k l e v o a b d x i j c.
Definition set_storages (s : table WorkspaceStorage) : tables := mkTables w s k l e v o a b d x i j c.
Definition set_tokens (k : table Token) : tables := mkTables w s k l e v o a b d x i j c.
Definition set_limits (l : table ConcurrencyLimit) : tables := mkTables w s k l e v o a b d x i j c.
Definition set_secrets (e : table Secret) : tables := mkTables w s k l e v o a b d x i j c.
Definition set_volumes (v : table Volume) : tables := mkTables w s k l e v o a b d x i j c.
Definition set_objects (o : table Object) : tables := mkTables w s k l e v o a b d x i j c.
Definition set_apps (a : table App) : tables := mkTables w s k l e v o a b d x i j c.
Definition set_stubs (b : table Stub) : tables := mkTables w s k l e v o a b d x i j c.
Definition set_deployments (d : table Deployment) : tables := mkTables w s k l e v o a b d x i j c.
Definition set_tasks (x : table Task) : tables := mkTables w s k l e v o a b d x i j c.
Definition set_images (i : table image_row) : tables := mkTables w s k l e v o a b d x i j c.
Definition set_jobs (j : table ScheduledJob) : tables := mkTables w s k l e v o a b d x i j c.
Definition set_crons (c : table cron_job) : tables := mkTables w s k l e v o a b d x i j c.
End setters.

(** ** Statements on a table *)

(** [GetContext] reads the first row of the result. *)
Definition get_row {A} (l : list A) : dberr + A := match l with [] => inl NoRows | x :: _ => inr x end.

(** The id is taken from the sequence also when the row is refused. *)
Definition insert_row {R} (mk : Z -> R) (violates : R -> option dberr) (t : table R) : (dberr + R) * table R :=
  let r := mk (next_id t) in
  match violates r with
  | Some e => (inl e, mkTable (rows t) (next_id t + 1))
  | None => (inr r, mkTable (rows t ++ [r]) (next_id t + 1))
  end.

(** The rows that [p] selects, changed by [f]: the result of RETURNING, and the table. *)
Definition update_rows {R} (p : R -> bool) (f : R -> R) (t : table R) : list R * table R :=
  (map f (List.filter p (rows t)), mkTable (map (λ r, if p r then f r else r) (rows t)) (next_id t)).

Definition delete_rows {R} (p : R -> bool) (t : table R) : table R :=
  mkTable (List.filter (λ r, negb (p r)) (rows t)) (next_id t).

(** ORDER BY a time, the latest first. *)
Fixpoint insert_latest {R} (key : R -> Z) (r : R) (l : list R) : list R :=
  match l with
  | [] => [r]
  | r' :: l' => if key r' <? key r then r :: l else r' :: insert_latest key r l'
  end.
Definition latest_first {R} (key : R -> Z) (l : list R) : list R := foldr (insert_latest key) [] l.

(** ** The server *)

Class PgWorld := {
  (** The canonical form of a text that is a UUID. *)
  uuid_in : string -> option string;
  (** A text the server accepts, and its number of characters. *)
  text_ok : string -> bool;
  char_count : string -> nat;
  (** Equal values of the type jsonb. *)
  jsonb_eq : string -> string -> bool;
  (** LIKE with a pattern, and the schedules that pg_cron accepts. *)
  like : string -> string -> bool;
  cron_ok : string -> bool;
  (** The time, and the random values of the server and of the program, at each step. *)
  pg_now : nat -> Z;
  pg_uuid : nat -> string;
  go_uuid : nat -> gerr + string;
  go_rand : nat -> nat -> gerr + string;
}.

Class PgLaws (P : PgWorld) : Prop := {
  uuid_in_canonical : forall u c, uuid_in u = Some c -> uuid_in c = Some c;
  pg_uuid_canonical : forall n, uuid_in (pg_uuid n) = Some (pg_uuid n);
  go_uuid_canonical : forall n u, go_uuid n = inr u -> uuid_in u = Some u;
  go_rand_length : forall n k b, go_rand n k = inr b -> String.length b = k;
}.

(** A statement the server did not execute, or whose result was lost. *)
Inductive outage := Refused (e : dberr) | LostReply (e : dberr).

Record pg := mkPg {
  pg_tables : tables;
  pg_outages : list (option outage);
  pg_steps : nat;
}.

Section statements.
Context {P : PgWorld}.

Definition stmt {A} (f : Z -> string -> tables -> (dberr + A) * tables) (p : pg) : (dberr + A) * pg :=
  let n := pg_steps p in
  let '(r, t) := f (pg_now n) (pg_uuid n) (pg_tables p) in
  let next t := mkPg t (tail (pg_outages p)) (S n) in
  match head (pg_outages p) with
  | Some (Some (Refused e)) => (inl e, next (pg_tables p))
  | Some (Some (LostReply e)) => (inl e, next t)
  | _ => (r, next t)
  end.

(** The parameters of a statement: texts, a UUID, 32-bit integers. *)
Definition texts {A} (l : list string) (k : dberr + A) : dberr + A :=
  if forallb text_ok l then k else inl bad_encoding.
Definition uuid_param {A} (u : string) (k : string -> dberr + A) : dberr + A :=
  match uuid_in u with Some c => k c | None => inl (invalid_text "uuid" u) end.
Definition int4 (z : Z) : bool := bool_decide (in_i 32 z).
Definition varchar255 (s : string) : bool := (char_count s <=? 255)%nat.
End statements.

(** ** Handlers on the database and on Redis *)

Definition GM (A : Type) : Type := pg -> prog (A * pg).

#[export] Instance GM_ret : MRet GM := λ A a p, Ret (a, p).
#[export] Instance GM_bind : MBind GM := λ A B f m p, pbind (m p) (λ '(a, p'), f a p').

Definition on_redis {A} (m : prog A) : GM A := λ p, pbind m (λ a, Ret (a, p)).

(** A method of the repository: a result or an error. *)
Abbreviation DB A := (GM (dberr + A)).

Section repository_monad.
Context {P : PgWorld}.

Definition sql {A} (f : Z -> string -> tables -> (dberr + A) * tables) : DB A := λ p, Ret (stmt f p).
Definition select {A} (f : tables -> dberr + A) : DB A := sql (λ _ _ t, (f t, t)).

(** A random value of the program. *)
Definition draw {A} (f : nat -> gerr + A) : DB A :=
  λ p, Ret (match f (pg_steps p) with inl e => inl (DbErr e) | inr a => inr a end,
            mkPg (pg_tables p) (pg_outages p) (S (pg_steps p))).
End repository_monad.

(** [if err != nil { return ... }]: the error goes up as it is, or as [e] makes it. *)
Definition catch {E F A B} (m : GM (E + A)) (e : E -> F) (k : A -> GM (F + B)) : GM (F + B) :=
  m ≫= λ r, match r with inl x => mret (inl (e x)) | inr a => k a end.

Notation "'let?' x := m 'in' k" := (catch m (λ e, e) (λ x, k))
  (at level 10, x pattern, m at level 100, k at level 200).
Notation "'let?' x := m 'orelse' e 'in' k" := (catch m (λ _, e) (λ x, k))
  (at level 10, x pattern, m at level 100, e at level 100, k at level 200).

Definition done_ {E A} (a : A) : GM (E + A) := mret (inr a).
Definition fail_ {E A} (e : E) : GM (E + A) := mret (inl e).

(** ** Weakest preconditions of handlers *)

Definition gwp (err : forall R, rcmd R -> rdb -> rdb -> Prop) {A} (m : GM A)
    (Q : A -> pg -> rdb -> lmap -> Prop) (p : pg) (d : rdb) (L : lmap) : Prop :=
  wpg err (m p) (λ x d' L', Q x.1 x.2 d' L') d L.

(** A database that executes every statement. *)
Definition calm (p : pg) : Prop := pg_outages p = [].

Section gwp_rules.
Context {P : PgWorld} {err : forall R, rcmd R -> rdb -> rdb -> Prop}.

Lemma gwp_mono {A} (m : GM A) (Q Q' : A -> pg -> rdb -> lmap -> Prop) p d L :
  (forall a p d L, Q a p d L -> Q' a p d L) -> gwp err m Q p d L -> gwp err m Q' p d L.
Proof. intros H. apply wp_mono. intros [a p'] d' L'. apply H. Qed.

Lemma gwp_ret {A} (a : A) (Q : A -> pg -> rdb -> lmap -> Prop) p d L : Q a p d L -> gwp err (mret a) Q p d L.
Proof. exact id. Qed.

Lemma gwp_bind {A B} (m : GM A) (f : A -> GM B) Q p d L :
  gwp err m (λ a p' d' L', gwp err (f a) Q p' d' L') p d L -> gwp err (m ≫= f) Q p d L.
Proof. intros H. unfold gwp. cbn [base.mbind GM_bind]. apply wp_pbind. by eapply wp_mono; [|exact H]; intros []. Qed.

Lemma gwp_catch {E F A B} (m : GM (E + A)) (e : E -> F) (k : A -> GM (F + B)) Q p d L :
  gwp err m (λ r p' d' L',
    match r with inl x => Q (inl (e x)) p' d' L' | inr a => gwp err (k a) Q p' d' L' end) p d L ->
  gwp err (catch m e k) Q p d L.
Proof. intros H. apply gwp_bind. eapply gwp_mono; [|exact H]. by intros [x|a] p' d' L'. Qed.

Lemma gwp_redis {A} (m : prog A) (Q : A -> pg -> rdb -> lmap -> Prop) p d L :
  wpg err m (λ a d' L', Q a p d' L') d L -> gwp err (on_redis m) Q p d L.
Proof. intros H. unfold gwp, on_redis. apply wp_pbind. eapply wp_mono; [|exact H]. by intros a d' L'. Qed.

Lemma gwp_sql_at {A} (f : Z -> string -> tables -> (dberr + A) * tables)
    (Q : dberr + A -> pg -> rdb -> lmap -> Prop) p d L :
  calm p ->
  (forall n p', calm p' -> pg_tables p' = (f (pg_now n) (pg_uuid n) (pg_tables p)).2 ->
     Q (f (pg_now n) (pg_uuid n) (pg_tables p)).1 p' d L) ->
  gwp err (sql f) Q p d L.
Proof.
  intros Hc H. unfold gwp, sql, stmt. cbn [wpg]. unfold calm in Hc. rewrite Hc. simpl.
  specialize (H (pg_steps p)). destruct (f _ _ _) as [r t]. simpl in *. by apply H.
Qed.

Lemma gwp_sql {A} (f : Z -> string -> tables -> (dberr + A) * tables)
    (Q : dberr + A -> pg -> rdb -> lmap -> Prop) p d L :
  calm p ->
  (forall now uuid p', calm p' -> pg_tables p' = (f now uuid (pg_tables p)).2 ->
     Q (f now uuid (pg_tables p)).1 p' d L) ->
  gwp err (sql f) Q p d L.
Proof. intros Hc H. apply gwp_sql_at; [done|]. intros n p'. apply H. Qed.

Lemma gwp_select {A} (f : tables -> dberr + A) (Q : dberr + A -> pg -> rdb -> lmap -> Prop) p d L :
  calm p ->
  (forall p', calm p' -> pg_tables p' = pg_tables p -> Q (f (pg_tables p)) p' d L) ->
  gwp err (select f) Q p d L.
Proof. intros Hc H. apply gwp_sql; [done|]. intros now uuid p'. apply H. Qed.

(** With outages: the statement is executed or not, and its answer may be lost. *)
Lemma gwp_sql_any {A} (f : Z -> string -> tables -> (dberr + A) * tables)
    (Q : dberr + A -> pg -> rdb -> lmap -> Prop) p d L :
  (forall now uuid p', pg_tables p' = (f now uuid (pg_tables p)).2 ->
     Q (f now uuid (pg_tables p)).1 p' d L /\ forall e, Q (inl e) p' d L) ->
  (forall p' e, pg_tables p' = pg_tables p -> Q (inl e) p' d L) ->
  gwp err (sql f) Q p d L.
Proof.
  intros H1 H2. unfold gwp, sql, stmt. cbn [wpg].
  specialize (H1 (pg_now (pg_steps p)) (pg_uuid (pg_steps p))).
  destruct (f _ _ _) as [r t]. simpl in H1.
  destruct (head (pg_outages p)) as [[[e|e]|]|]; simpl; [by apply H2|by apply H1..].
Qed.

Lemma gwp_draw {A} (f : nat -> gerr + A) (Q : dberr + A -> pg -> rdb -> lmap -> Prop) p d L :
  (forall n p', pg_outages p' = pg_outages p -> pg_tables p' = pg_tables p ->
     Q (match f n with inl e => inl (DbErr e) | inr a => inr a end) p' d L) ->
  gwp err (draw f) Q p d L.
Proof. intros H. unfold gwp, draw. cbn [wpg]. by apply H. Qed.

Lemma gwp_any {A} (m : GM A) p d L : gwp err m (λ _ _ _ _, True) p d L.
Proof. apply wp_any. Qed.
End gwp_rules.

(** A handler that keeps a property of the tables, whatever the servers answer. *)
Definition keeps (I : tables -> Prop) {A} (m : GM A) : Prop :=
  forall err p d L, I (pg_tables p) -> gwp err m (λ _ p' _ _, I (pg_tables p')) p d L.

Section keeps_rules.
Context {P : PgWorld} (I : tables -> Prop).

Lemma keeps_mret {A} (a : A) : keeps I (mret a).
Proof. by intros err p d L H. Qed.
Lemma keeps_mbind {A B} (m : GM A) (f : A -> GM B) : keeps I m -> (forall a, keeps I (f a)) -> keeps I (m ≫= f).
Proof.
  intros Hm Hf err p d L H. apply gwp_bind. eapply gwp_mono; [|by apply Hm]. intros a p' d' L' H'. by apply Hf.
Qed.
Lemma keeps_catch {E F A B} (m : GM (E + A)) (e : E -> F) (k : A -> GM (F + B)) :
  keeps I m -> (forall a, keeps I (k a)) -> keeps I (catch m e k).
Proof. intros Hm Hk. apply keeps_mbind; [done|]. intros [x|a]; [apply keeps_mret|done]. Qed.
Lemma keeps_on_redis {A} (m : prog A) : keeps I (on_redis m).
Proof. intros err p d L H. apply gwp_redis. by eapply wp_mono; [|apply wp_any]. Qed.
Lemma keeps_sql {A} (f : Z -> string -> tables -> (dberr + A) * tables) :
  (forall now uuid t, I t -> I (f now uuid t).2) -> keeps I (sql f).
Proof.
  intros Hf err p d L H. apply gwp_sql_any.
  - intros now uuid p' E. rewrite E. by split; [|intros _]; apply Hf.
  - intros p' e ->. done.
Qed.
Lemma keeps_select {A} (f : tables -> dberr + A) : keeps I (select f).
Proof. by apply keeps_sql. Qed.
Lemma keeps_draw {A} (f : nat -> gerr + A) : keeps I (draw f).
Proof. intros err p d L H. apply gwp_draw. intros n p' _ ->. done. Qed.
End keeps_rules.

Create HintDb db_keeps discriminated.
#[export] Hint Resolve keeps_mret keeps_on_redis keeps_select keeps_draw : db_keeps.
#[export] Hint Extern 1 (keeps _ (done_ _)) => apply keeps_mret : db_keeps.
#[export] Hint Extern 1 (keeps _ (fail_ _)) => apply keeps_mret : db_keeps.
Ltac keeps_step :=
  first [ solve [eauto with db_keeps] | apply keeps_catch; [|intro] | apply keeps_mbind; [|intro]
        | match goal with |- keeps _ (match ?x with _ => _ end) => destruct x end ].
Ltac keeps_tac := repeat keeps_step.

(** ** What the statements do to the rows *)

Lemma elem_insert_latest {R} (key : R -> Z) (r : R) l x : x ∈ insert_latest key r l <-> x = r \/ x ∈ l.
Proof.
  induction l as [|y l IH]; simpl; [set_solver|]. destruct (key y <? key r); [set_solver|].
  rewrite !elem_of_cons, IH. tauto.
Qed.
Lemma elem_latest_first {R} (key : R -> Z) (l : list R) x : x ∈ latest_first key l <-> x ∈ l.
Proof. induction l as [|y l IH]; simpl; [done|]. rewrite elem_insert_latest, IH. set_solver. Qed.
(** The first one is the greatest. *)
Lemma latest_first_max {R} (key : R -> Z) (l : list R) y l' :
  latest_first key l = y :: l' -> y ∈ l /\ forall z, z ∈ l -> key z <= key y.
Proof.
  intros E. split; [apply (elem_latest_first key); rewrite E; apply elem_of_cons; by left|].
  revert y l' E. induction l as [|a l IH]; intros y l' E z Hz; [by apply not_elem_of_nil in Hz|].
  simpl in E. fold (latest_first key l) in E.
  destruct (latest_first key l) as [|b l2] eqn:E2; simpl in E.
  - injection E as <- _. apply elem_of_cons in Hz as [->|Hz]; [lia|].
    apply elem_latest_first with (key := key) in Hz. rewrite E2 in Hz. by apply not_elem_of_nil in Hz.
  - assert (forall z, z ∈ l -> key z <= key b) as Hb by by eapply IH.
    destruct (Z.ltb_spec (key b) (key a)); injection E as <- _;
      (apply elem_of_cons in Hz as [->|Hz]; [lia|specialize (Hb z Hz); lia]).
Qed.
Lemma latest_first_top {R} (key : R -> Z) (l : list R) x :
  x ∈ l -> (forall y, y ∈ l -> y = x \/ key y < key x) -> exists l', latest_first key l = x :: l'.
Proof.
  intros Hx Hmax. destruct (latest_first key l) as [|y l'] eqn:E.
  - apply elem_latest_first with (key := key) in Hx. rewrite E in Hx. by apply not_elem_of_nil in Hx.
  - destruct (latest_first_max _ _ _ _ E) as [Hy Htop].
    destruct (Hmax y Hy) as [->|Hlt]; [by exists l'|]. specialize (Htop x Hx). lia.
Qed.
Lemma elem_filter_b {R} (p : R -> bool) l x : x ∈ List.filter p l <-> x ∈ l /\ p x = true.
Proof. rewrite !list_elem_of_In. apply filter_In. Qed.
Lemma get_row_inr {A} (l : list A) x : get_row l = inr x -> x ∈ l.
Proof. destruct l as [|y l]; simpl; [done|]. intros [= ->]. set_solver. Qed.

(** ** A server for examples *)

(** A server whose random values are taken from the number of the step. *)
Fixpoint letters (k : nat) : string := match k with O => EmptyString | S k' => String "a" (letters k') end.
Definition plain_pg : PgWorld :=
  {| uuid_in u := Some u; text_ok _ := true; char_count := String.length; jsonb_eq := String.eqb; like := String.eqb;
     cron_ok _ := true;
     pg_now := Z.of_nat; pg_uuid n := letters (S n); go_uuid n := inr (letters (S n));
     go_rand n k := inr (letters k) |}.
#[export] Instance plain_pg_laws : PgLaws plain_pg.
Proof.
  split; simpl; try done.
  intros n k b [= <-]. clear n. induction k as [|k IH]; simpl; [done|]. by rewrite IH.
Qed.
