(* ===== verification/Backend.v ===== *)
(** * The backend repository (pkg/repository/backend_postgres.go, backend_utils.go)

    The methods of PostgresBackendRepository as statements on the tables of [Postgres]:
    workspaces and their storage, tokens, objects, tasks, stubs, volumes, deployments,
    concurrency limits, secrets, apps and images.  A struct has the zero value in the
    columns a query does not select.  The order of equal rows of an unordered query is
    the order of the table.  Events about tasks are not modelled. *)

From S2P Require Import Prelude GoStd Redis Types Postgres Crypto.

Local Open Scope Z_scope.
Set Default Proof Using "Type".

Definition tokenLength : nat := 64.

(** The values of the type [token_type] of the database. *)
Definition token_types : list string :=
  ["admin"; "workspace"; "worker"; "machine"; "workspace_primary"; "workspace_restricted"].

Section backend.
Context {P : PgWorld} {C : AesGcm}.
(** [r.config.EncryptionKey] *)
Context (EncryptionKey : string).

Definition generateExternalId : DB string := draw go_uuid.

Definition lift {A} (r : gerr + A) : DB A := match r with inl e => fail_ (DbErr e) | inr a => done_ a end.

(** The tables of a statement that changes one of them. *)
Definition on_table {R A} (set : tables -> table R -> tables) (t : tables) (x : A * table R) : A * tables :=
  (x.1, set t x.2).

(** The parameters are checked before the rows are touched. *)
Definition checked {A} (params : dberr + unit) (t : tables) (k : (dberr + A) * tables) : (dberr + A) * tables :=
  match params with inl e => (inl e, t) | inr _ => k end.

(** ** Storage of a workspace *)

Definition no_storage : WorkspaceStorage := mkWorkspaceStorage None None None None None None None None None.

(** LEFT JOIN workspace_storage: columns that are NULL where there is none. *)
Definition storage_of (t : tables) (w : Workspace) : WorkspaceStorage :=
  default no_storage
    (id ← wk_StorageId w; List.find (λ s, bool_decide (ws_Id s = Some id)) (rows (t_storage t))).

Definition with_keys (access secret : option string) (s : WorkspaceStorage) : WorkspaceStorage :=
  mkWorkspaceStorage (ws_Id s) (ws_ExternalId s) (ws_BucketName s) access secret (ws_EndpointUrl s)
    (ws_Region s) (ws_CreatedAt s) (ws_UpdatedAt s).

(** A field with the tag [encrypt]; nil pointers are skipped. *)
Definition decrypt_field (key : string) (field : option string) : gerr + option string :=
  match field with
  | None => inr None
  | Some v => match Decrypt key v with inl e => inl e | inr d => inr (Some d) end
  end.

Definition decryptFields (row : WorkspaceStorage) : gerr + WorkspaceStorage :=
  match ParseSecretKey EncryptionKey with
  | inl e => inl e
  | inr key =>
      match decrypt_field key (ws_AccessKey row) with
      | inl e => inl e
      | inr access =>
          match decrypt_field key (ws_SecretKey row) with
          | inl e => inl e
          | inr secret => inr (with_keys access secret row)
          end
      end
  end.

Definition encrypt_field (key : string) (field : option string) : DB (option string) :=
  match field with
  | None => done_ None
  | Some v =>
      λ p, match Encrypt key v (go_rand (pg_steps p) NonceSize) with
           | inl e => Ret (inl (DbErr e), mkPg (pg_tables p) (pg_outages p) (S (pg_steps p)))
           | inr c => Ret (inr (Some c), mkPg (pg_tables p) (pg_outages p) (S (pg_steps p)))
           end
  end.

Definition encryptFields (row : WorkspaceStorage) : DB WorkspaceStorage :=
  let? key := lift (ParseSecretKey EncryptionKey) in
  let? access := encrypt_field key (ws_AccessKey row) in
  let? secret := encrypt_field key (ws_SecretKey row) in
  done_ (with_keys access secret row).

Definition with_storage (s : WorkspaceStorage) (w : Workspace) : Workspace :=
  mkWorkspace (wk_Id w) (wk_ExternalId w) (wk_Name w) (wk_CreatedAt w) (wk_UpdatedAt w) (wk_SigningKey w)
    (wk_VolumeCacheEnabled w) (wk_MultiGpuEnabled w) (wk_ConcurrencyLimitId w) (wk_ConcurrencyLimit w)
    (wk_StorageId w) (Some s).

(** The storage of a workspace that has one is decrypted. *)
Definition decrypt_storage (w : Workspace) : DB Workspace :=
  match wk_Storage w with
  | Some s =>
      if WorkspaceStorageAvailable w then let? s' := lift (decryptFields s) in done_ (with_storage s' w)
      else done_ w
  | None => done_ w
  end.

Definition stored_storage (now : Z) (uuid : string) (s : WorkspaceStorage) (id : Z) : WorkspaceStorage :=
  mkWorkspaceStorage (Some id) (Some uuid) (ws_BucketName s) (ws_AccessKey s) (ws_SecretKey s)
    (ws_EndpointUrl s) (ws_Region s) (Some now) (Some now).

(** The columns are NOT NULL. *)
Definition storage_violates (s : WorkspaceStorage) : option dberr :=
  if bool_decide (None ∈ [ws_BucketName s; ws_AccessKey s; ws_SecretKey s; ws_EndpointUrl s; ws_Region s])
  then Some (Pq "23502" "null value violates not-null constraint") else None.

Definition set_storage_id (id : option Z) (w : Workspace) : Workspace :=
  mkWorkspace (wk_Id w) (wk_ExternalId w) (wk_Name w) (wk_CreatedAt w) (wk_UpdatedAt w) (wk_SigningKey w)
    (wk_VolumeCacheEnabled w) (wk_MultiGpuEnabled w) (wk_ConcurrencyLimitId w) (wk_ConcurrencyLimit w) id
    (wk_Storage w).

Definition storage_texts (s : WorkspaceStorage) : list string :=
  omap id [ws_BucketName s; ws_AccessKey s; ws_SecretKey s; ws_EndpointUrl s; ws_Region s].

Definition CreateWorkspaceStorage (workspaceId : Z) (storage : WorkspaceStorage) : DB WorkspaceStorage :=
  let? storage := encryptFields storage in
  let? created := sql (λ now uuid t,
    checked (texts (storage_texts storage) (inr tt)) t
      (on_table set_storages t (insert_row (stored_storage now uuid storage) storage_violates (t_storage t)))) in
  let? _ := sql (λ _ _ t,
    (inr tt, set_workspaces t
       (update_rows (λ w, wk_Id w =? workspaceId) (set_storage_id (ws_Id created)) (t_workspace t)).2)) in
  done_ created.

Definition GetWorkspaceStorage (storageId : Z) : DB WorkspaceStorage :=
  let? s := select (λ t, get_row (map (λ s, mkWorkspaceStorage None None (ws_BucketName s) (ws_AccessKey s)
                       (ws_SecretKey s) (ws_EndpointUrl s) (ws_Region s) (ws_CreatedAt s) (ws_UpdatedAt s))
                     (List.filter (λ s, bool_decide (ws_Id s = Some storageId)) (rows (t_storage t))))) in
  lift (decryptFields s).

(** ** Workspaces *)

Definition ListWorkspaces : DB (list Workspace) :=
  select (λ t, inr (map (λ w, mkWorkspace (wk_Id w) (wk_ExternalId w) (wk_Name w) (wk_CreatedAt w)
                              (wk_UpdatedAt w) None false false None None None None)
                        (rows (t_workspace t)))).

Definition workspace_violates (t : tables) (w : Workspace) : option dberr :=
  if existsb (λ w', String.eqb (wk_ExternalId w') (wk_ExternalId w)) (rows (t_workspace t))
  then Some (duplicate_key "workspace_external_id_key")
  else if existsb (λ w', String.eqb (wk_Name w') (wk_Name w)) (rows (t_workspace t))
  then Some (duplicate_key "workspace_name_key") else None.

(** The name are the first six characters of a UUID, whose generation panics when it
    fails. *)
Definition CreateWorkspace : DB Workspace :=
  let? u := draw (λ n, match go_uuid n with
                       | inl e => inl (EPanic (Error e)) | inr u => inr u end) in
  let name := String.substring 0 6 u in
  let? externalId := generateExternalId in
  let? bytes := draw (λ n, go_rand n 32) in
  let signingKey := "sk_" +:+ b64_encode false bytes in
  sql (λ now _ t,
    on_table set_workspaces t
      (insert_row (λ id, mkWorkspace id externalId name now now (Some signingKey) false false None None None None)
         (workspace_violates t) (t_workspace t))).

Definition workspaces_by (externalId : string) (t : tables) : dberr + list Workspace :=
  uuid_param externalId (λ u, inr (List.filter (λ w, String.eqb (wk_ExternalId w) u) (rows (t_workspace t)))).

Definition first_of {A B} (f : A -> B) (r : dberr + list A) : dberr + B :=
  match r with inl e => inl e | inr l => get_row (map f l) end.

(** [external_id] is not among the columns. *)
Definition GetWorkspaceByExternalId (externalId : string) : DB Workspace :=
  select (λ t, first_of (λ w, mkWorkspace (wk_Id w) "" (wk_Name w) (wk_CreatedAt w) (wk_UpdatedAt w) None
                               (wk_VolumeCacheEnabled w) (wk_MultiGpuEnabled w) (wk_ConcurrencyLimitId w) None
                               (wk_StorageId w) None)
                 (workspaces_by externalId t)).

Definition GetWorkspaceByExternalIdWithSigningKey (externalId : string) : DB Workspace :=
  select (λ t, first_of (λ w, mkWorkspace (wk_Id w) "" (wk_Name w) (wk_CreatedAt w) zeroTime (wk_SigningKey w)
                               (wk_VolumeCacheEnabled w) (wk_MultiGpuEnabled w) (wk_ConcurrencyLimitId w) None
                               None None)
                 (workspaces_by externalId t)).

Definition GetWorkspace (workspaceId : Z) : DB Workspace :=
  let? w := select (λ t, get_row (map (λ w,
              let s := storage_of t w in
              mkWorkspace (wk_Id w) (wk_ExternalId w) (wk_Name w) (wk_CreatedAt w) zeroTime None
                (wk_VolumeCacheEnabled w) (wk_MultiGpuEnabled w) (wk_ConcurrencyLimitId w) None None
                (Some (mkWorkspaceStorage (ws_Id s) None (ws_BucketName s) (ws_AccessKey s) (ws_SecretKey s)
                         (ws_EndpointUrl s) (ws_Region s) (ws_CreatedAt s) (ws_UpdatedAt s))))
              (List.filter (λ w, wk_Id w =? workspaceId) (rows (t_workspace t))))) in
  decrypt_storage w.

(** The workspace of a row of tokens: an INNER JOIN drops tokens without one. *)
Definition workspace_of (t : tables) (id : option Z) : option Workspace :=
  id ← id; List.find (λ w, wk_Id w =? id) (rows (t_workspace t)).

(** [r.adminWorkspace] remembers the answer. *)
Definition GetAdminWorkspace (adminWorkspace : option Workspace)
    : GM ((dberr + Workspace) * option Workspace) :=
  match adminWorkspace with
  | Some w => mret (inr w, Some w)
  | None =>
      r ← select (λ t, get_row (omap (λ k,
            if String.eqb (tk_TokenType k) "admin" then
              w ← workspace_of t (tk_WorkspaceId k);
              Some (mkWorkspace (wk_Id w) "" (wk_Name w) (wk_CreatedAt w) zeroTime None (wk_VolumeCacheEnabled w)
                      (wk_MultiGpuEnabled w) (wk_ConcurrencyLimitId w) None None None)
            else None) (rows (t_token t))));
      mret (r, match r with inr w => Some w | inl _ => None end)
  end.

(** ** Tokens *)

Definition token_violates (t : tables) (k : Token) : option dberr :=
  if existsb (λ k', String.eqb (tk_ExternalId k') (tk_ExternalId k)) (rows (t_token t))
  then Some (duplicate_key "token_external_id_key")
  else match workspace_of t (tk_WorkspaceId k) with
       | None => Some (foreign_key "token_workspace_id_fkey")
       | Some _ => None
       end.

(** The columns of a token that the queries name, [disabled_by_cluster_admin] not among
    them. *)
Definition token_columns (k : Token) : Token :=
  mkToken (tk_Id k) (tk_ExternalId k) (tk_Key k) (tk_Active k) (tk_Reusable k) (tk_WorkspaceId k) None
    (tk_TokenType k) (tk_CreatedAt k) (tk_UpdatedAt k) false.

Definition map_ok {E A B} (f : A -> B) (r : E + A) : E + B := match r with inl e => inl e | inr a => inr (f a) end.

Definition CreateToken (workspaceId : Z) (tokenType : string) (reusable : bool) : DB Token :=
  let? externalId := generateExternalId in
  let? bytes := draw (λ n, go_rand n tokenLength) in
  let key := b64_encode true bytes in
  sql (λ now _ t,
    if bool_decide (tokenType ∈ token_types) then
      let '(r, tokens) := insert_row (λ id, mkToken id externalId key true reusable (Some workspaceId) None
                                        tokenType now now false) (token_violates t) (t_token t) in
      (map_ok token_columns r, set_tokens t tokens)
    else (inl (invalid_text "token_type" tokenType), t)).

(** The joined workspace has the columns of the query. *)
Definition auth_workspace (t : tables) (w : Workspace) : Workspace :=
  mkWorkspace (wk_Id w) (wk_ExternalId w) (wk_Name w) (wk_CreatedAt w) (wk_UpdatedAt w) (wk_SigningKey w)
    (wk_VolumeCacheEnabled w) (wk_MultiGpuEnabled w) None None (wk_StorageId w) (Some (storage_of t w)).

Definition auth_row (t : tables) (k : Token) : option Token :=
  w ← workspace_of t (tk_WorkspaceId k);
  Some (mkToken (tk_Id k) (tk_ExternalId k) (tk_Key k) (tk_Active k) (tk_Reusable k) (tk_WorkspaceId k)
          (Some (auth_workspace t w)) (tk_TokenType k) (tk_CreatedAt k) (tk_UpdatedAt k)
          (tk_DisabledByClusterAdmin k)).

Definition auth_rows (tokenKey : string) (t : tables) : list Token :=
  omap (auth_row t) (List.filter (λ k, String.eqb (tk_Key k) tokenKey && tk_Active k) (rows (t_token t))).

Definition set_active (b : bool) (k : Token) : Token :=
  mkToken (tk_Id k) (tk_ExternalId k) (tk_Key k) b (tk_Reusable k) (tk_WorkspaceId k) (tk_Workspace k)
    (tk_TokenType k) (tk_CreatedAt k) (tk_UpdatedAt k) (tk_DisabledByClusterAdmin k).

Definition set_token_workspace (w : Workspace) (k : Token) : Token :=
  mkToken (tk_Id k) (tk_ExternalId k) (tk_Key k) (tk_Active k) (tk_Reusable k) (tk_WorkspaceId k) (Some w)
    (tk_TokenType k) (tk_CreatedAt k) (tk_UpdatedAt k) (tk_DisabledByClusterAdmin k).

(** A token that is not reusable is made inactive. *)
Definition AuthorizeToken (tokenKey : string) : DB (Token * Workspace) :=
  let? token := select (λ t, texts [tokenKey] (get_row (auth_rows tokenKey t))) in
  match tk_Workspace token with
  | None => fail_ (DbErr (EPanic "nil pointer dereference"))
  | Some w =>
      let? w := decrypt_storage w in
      let token := set_token_workspace w token in
      if tk_Reusable token then done_ (token, w)
      else
        let? _ := sql (λ _ _ t,
          (inr tt, set_tokens t (update_rows (λ k, tk_Id k =? tk_Id token) (set_active false) (t_token t)).2)) in
        done_ (token, w)
  end.

Definition of_workspace (workspaceId : Z) (k : Token) : bool := bool_decide (tk_WorkspaceId k = Some workspaceId).

Definition RetrieveActiveToken (workspaceId : Z) : DB Token :=
  select (λ t, get_row (map token_columns (List.filter (λ k,
    of_workspace workspaceId k && tk_Active k && String.eqb (tk_TokenType k) "workspace_primary" &&
    negb (tk_DisabledByClusterAdmin k)) (rows (t_token t))))).

Definition ListTokens (workspaceId : Z) : DB (list Token) :=
  select (λ t, inr (latest_first tk_CreatedAt (map token_columns (List.filter (λ k,
    of_workspace workspaceId k && negb (String.eqb (tk_TokenType k) "worker")) (rows (t_token t)))))).

(** A token by its external id, in a workspace. *)
Definition is_token (u : string) (workspaceId : Z) (k : Token) : bool :=
  String.eqb (tk_ExternalId k) u && of_workspace workspaceId k.

Definition GetTokenByExternalId (workspaceId : Z) (extTokenId : string) : DB Token :=
  catch (select (λ t, uuid_param extTokenId (λ u,
           get_row (map token_columns (List.filter (is_token u workspaceId) (rows (t_token t)))))))
    (λ e, match e with NoRows => DbErr (EMsg "token not found") | _ => e end) done_.

Definition toggle (k : Token) : Token := set_active (negb (tk_Active k)) k.

Definition ToggleToken (workspaceId : Z) (extTokenId : string) : DB Token :=
  sql (λ _ _ t,
    match uuid_in extTokenId with
    | None => (inl (invalid_text "uuid" extTokenId), t)
    | Some u =>
        let '(l, tokens) := update_rows (is_token u workspaceId) toggle (t_token t) in
        (get_row (map token_columns l), set_tokens t tokens)
    end).

(** A secret that the token changed last loses the reference (ON DELETE SET NULL). *)
Definition forget_tokens (ids : list Z) (s : Secret) : Secret :=
  mkSecret (se_Id s) (se_ExternalId s) (se_CreatedAt s) (se_UpdatedAt s) (se_Name s) (se_Value s)
    (se_WorkspaceId s)
    (match se_LastUpdatedBy s with Some i => if bool_decide (i ∈ ids) then None else Some i | None => None end).

Definition DeleteToken (workspaceId : Z) (extTokenId : string) : DB unit :=
  sql (λ _ _ t,
    match uuid_in extTokenId with
    | None => (inl (invalid_text "uuid" extTokenId), t)
    | Some u =>
        let ids := map tk_Id (List.filter (is_token u workspaceId) (rows (t_token t))) in
        (inr tt, set_secrets (set_tokens t (delete_rows (is_token u workspaceId) (t_token t)))
                   (update_rows (λ _, true) (forget_tokens ids) (t_secret t)).2)
    end).

(** UPDATE token ... WHERE external_id = $1 *)
Definition update_token (externalId : string) (f : Token -> Token) : DB unit :=
  sql (λ _ _ t,
    match uuid_in externalId with
    | None => (inl (invalid_text "uuid" externalId), t)
    | Some u => (inr tt, set_tokens t (update_rows (λ k, String.eqb (tk_ExternalId k) u) f (t_token t)).2)
    end).

Definition RevokeTokenByExternalId (externalId : string) : DB unit := update_token externalId (set_active false).

Definition set_disabled (b : bool) (k : Token) : Token :=
  mkToken (tk_Id k) (tk_ExternalId k) (tk_Key k) (tk_Active k) (tk_Reusable k) (tk_WorkspaceId k)
    (tk_Workspace k) (tk_TokenType k) (tk_CreatedAt k) (tk_UpdatedAt k) b.

Definition UpdateTokenAsClusterAdmin (tokenId : string) (disabled : bool) : DB unit :=
  update_token tokenId (set_disabled disabled).

(** ** Concurrency limits *)

Definition GetConcurrencyLimit (concurrencyLimitId : Z) : DB ConcurrencyLimit :=
  select (λ t, get_row (map (λ l, mkConcurrencyLimit 0 "" 0 (cl_GPULimit l) (cl_CPUMillicoreLimit l)
                                    (cl_CreatedAt l) (cl_UpdatedAt l))
                          (List.filter (λ l, cl_Id l =? concurrencyLimitId) (rows (t_limit t))))).

Definition set_limit_id (id : option Z) (w : Workspace) : Workspace :=
  mkWorkspace (wk_Id w) (wk_ExternalId w) (wk_Name w) (wk_CreatedAt w) (wk_UpdatedAt w) (wk_SigningKey w)
    (wk_VolumeCacheEnabled w) (wk_MultiGpuEnabled w) id (wk_ConcurrencyLimit w) (wk_StorageId w) (wk_Storage w).

Definition limit_violates (t : tables) (l : ConcurrencyLimit) : option dberr :=
  match workspace_of t (Some (cl_WorkspaceId l)) with
  | None => Some (foreign_key "concurrency_limit_workspace_id_fkey")
  | Some _ =>
      if existsb (λ l', String.eqb (cl_ExternalId l') (cl_ExternalId l)) (rows (t_limit t))
      then Some (duplicate_key "concurrency_limit_external_id_key") else None
  end.

(** The columns are signed 32-bit integers. *)
Definition CreateConcurrencyLimit (workspaceId gpuLimit cpuMillicoreLimit : Z) : DB ConcurrencyLimit :=
  let? limit := sql (λ now uuid t,
    if negb (int4 gpuLimit && int4 cpuMillicoreLimit) then (inl out_of_range, t)
    else on_table set_limits t
           (insert_row (λ id, mkConcurrencyLimit id uuid workspaceId gpuLimit cpuMillicoreLimit now now)
              (limit_violates t) (t_limit t))) in
  let? _ := sql (λ _ _ t,
    (inr tt, set_workspaces t
       (update_rows (λ w, wk_Id w =? workspaceId) (set_limit_id (Some (cl_Id limit))) (t_workspace t)).2)) in
  done_ limit.

Definition UpdateConcurrencyLimit (concurrencyLimitId gpuLimit cpuMillicoreLimit : Z) : DB ConcurrencyLimit :=
  sql (λ now _ t,
    if negb (int4 gpuLimit && int4 cpuMillicoreLimit) then (inl out_of_range, t)
    else
      let '(l, limits) := update_rows (λ l, cl_Id l =? concurrencyLimitId)
        (λ l, mkConcurrencyLimit (cl_Id l) (cl_ExternalId l) (cl_WorkspaceId l) gpuLimit cpuMillicoreLimit
                (cl_CreatedAt l) now) (t_limit t) in
      (get_row (map (λ l, mkConcurrencyLimit (cl_Id l) "" 0 (cl_GPULimit l) (cl_CPUMillicoreLimit l)
                            (cl_CreatedAt l) (cl_UpdatedAt l)) l), set_limits t limits)).

(** The limit that the workspace with this external id has now. *)
Definition current_limits (u : string) (t : tables) : list ConcurrencyLimit :=
  List.filter (λ l, existsb (λ w, String.eqb (wk_ExternalId w) u &&
                                  bool_decide (wk_ConcurrencyLimitId w = Some (cl_Id l)))
                            (rows (t_workspace t))) (rows (t_limit t)).

Definition GetConcurrencyLimitByWorkspaceId (workspaceId : string) : DB ConcurrencyLimit :=
  select (λ t, uuid_param workspaceId (λ u,
    get_row (map (λ l, mkConcurrencyLimit (cl_Id l) "" 0 (cl_GPULimit l) (cl_CPUMillicoreLimit l)
                         (cl_CreatedAt l) (cl_UpdatedAt l)) (current_limits u t)))).

(** Every limit a workspace has had. *)
Definition limits_of (u : string) (t : tables) : list ConcurrencyLimit :=
  List.filter (λ l, existsb (λ w, String.eqb (wk_ExternalId w) u && (wk_Id w =? cl_WorkspaceId l))
                            (rows (t_workspace t))) (rows (t_limit t)).

Definition ListConcurrencyLimitsByWorkspaceId (workspaceId : string) : DB (list ConcurrencyLimit) :=
  select (λ t, uuid_param workspaceId (λ u, inr (latest_first cl_CreatedAt (limits_of u t)))).

(** One statement of a transaction: it works on the transaction's own tables. *)
Definition tx_exec (f : tables -> dberr + tables) (tx : tables) : DB tables := select (λ _, f tx).

(** The transaction that is not committed has no effect. *)
Definition DeleteConcurrencyLimit (workspace : Workspace) : DB unit :=
  let? tx := select inr in
  let? tx := tx_exec (λ t, inr (set_workspaces t
               (update_rows (λ w, wk_Id w =? wk_Id workspace) (set_limit_id None) (t_workspace t)).2)) tx in
  let? tx := tx_exec (λ t,
    match wk_ConcurrencyLimitId workspace with
    | None => inr t
    | Some id =>
        if existsb (λ w, bool_decide (wk_ConcurrencyLimitId w = Some id)) (rows (t_workspace t))
        then inl (foreign_key "workspace_concurrency_limit_id_fkey")
        else inr (set_limits t (delete_rows (λ l, cl_Id l =? id) (t_limit t)))
    end) tx in
  sql (λ _ _ _, (inr tt, tx)).

Definition RevertToConcurrencyLimit (workspaceId concurrencyLimitId : string) : DB ConcurrencyLimit :=
  let? limit := catch (select (λ t, uuid_param workspaceId (λ u, uuid_param concurrencyLimitId (λ v,
                  get_row (List.filter (λ l, String.eqb (cl_ExternalId l) v) (limits_of u t))))))
                  (λ e, match e with
                        | NoRows => DbErr (EMsg ("concurrency limit " +:+ concurrencyLimitId +:+ " does not exist"))
                        | _ => e end) done_ in
  let? _ := sql (λ _ _ t,
    match uuid_in workspaceId with
    | None => (inl (invalid_text "uuid" workspaceId), t)
    | Some u =>
        (inr tt, set_workspaces t (update_rows (λ w, String.eqb (wk_ExternalId w) u)
                   (set_limit_id (Some (cl_Id limit))) (t_workspace t)).2)
    end) in
  done_ limit.

(** ** Secrets *)

Definition is_letter (c : Ascii.ascii) : bool :=
  let n := Ascii.nat_of_ascii c in
  ((65 <=? n) && (n <=? 90) || (97 <=? n) && (n <=? 122))%nat || Ascii.eqb c "_"%char.
Definition is_name_char (c : Ascii.ascii) : bool :=
  is_letter c || ((48 <=? Ascii.nat_of_ascii c) && (Ascii.nat_of_ascii c <=? 57))%nat.

(** A letter or an underscore and at most 63 further characters. *)
Definition validateEnvironmentVariableName (name : string) : gerr + unit :=
  match name with
  | String c rest =>
      if is_letter c && forallb is_name_char (String.list_ascii_of_string rest) && (String.length rest <=? 63)%nat
      then inr tt else inl (EMsg ("invalid environment variable name: " +:+ name))
  | "" => inl (EMsg ("invalid environment variable name: " +:+ name))
  end.

(** [*workspace.SigningKey] *)
Definition signing_key (workspace : Workspace) : gerr + string :=
  match wk_SigningKey workspace with
  | None => inl (EPanic "invalid memory address or nil pointer dereference")
  | Some k => ParseSecretKey k
  end.

Definition encrypted (secretKey value : string) : DB string :=
  draw (λ n, Encrypt secretKey value (go_rand n NonceSize)).

Definition secret_violates (t : tables) (s : Secret) : option dberr :=
  match workspace_of t (Some (se_WorkspaceId s)) with
  | None => Some (foreign_key "workspace_secret_workspace_id_fkey")
  | Some _ =>
      if existsb (λ s', (se_WorkspaceId s' =? se_WorkspaceId s) && String.eqb (se_Name s') (se_Name s))
           (rows (t_secret t))
      then Some (duplicate_key "workspace_secret_workspace_id_name_unique")
      else if existsb (λ s', String.eqb (se_ExternalId s') (se_ExternalId s)) (rows (t_secret t))
      then Some (duplicate_key "workspace_secret_external_id_key")
      else match se_LastUpdatedBy s with
           | Some id => if existsb (λ k, tk_Id k =? id) (rows (t_token t)) then None
                        else Some (foreign_key "workspace_secret_last_updated_by_fkey")
           | None => None
           end
  end.

(** The columns without the value. *)
Definition secret_columns (s : Secret) : Secret :=
  mkSecret (se_Id s) (se_ExternalId s) (se_CreatedAt s) (se_UpdatedAt s) (se_Name s) "" (se_WorkspaceId s)
    (se_LastUpdatedBy s).

Definition CreateSecret (workspace : Workspace) (tokenId : Z) (name value : string) (validateName : bool)
    : DB Secret :=
  let? _ := lift (if validateName then validateEnvironmentVariableName name else inr tt) in
  let? secretKey := lift (signing_key workspace) in
  let? encryptedValue := encrypted secretKey value in
  sql (λ now uuid t,
    checked (texts [name] (inr tt)) t
      (let '(r, secrets) := insert_row (λ id, mkSecret id uuid now now name encryptedValue (wk_Id workspace)
                                          (Some tokenId)) (secret_violates t) (t_secret t) in
       (map_ok secret_columns r, set_secrets t secrets))).

Definition is_secret (workspace : Workspace) (name : string) (s : Secret) : bool :=
  String.eqb (se_Name s) name && (se_WorkspaceId s =? wk_Id workspace).

Definition GetSecretByName (workspace : Workspace) (name : string) : DB Secret :=
  select (λ t, texts [name] (get_row (List.filter (is_secret workspace name) (rows (t_secret t))))).

Definition GetSecretsByName (workspace : Workspace) (names : list string) : DB (list Secret) :=
  select (λ t, texts names (inr (List.filter (λ s,
    bool_decide (se_Name s ∈ names) && (se_WorkspaceId s =? wk_Id workspace)) (rows (t_secret t))))).

Definition set_value (value : string) (s : Secret) : Secret :=
  mkSecret (se_Id s) (se_ExternalId s) (se_CreatedAt s) (se_UpdatedAt s) (se_Name s) value (se_WorkspaceId s)
    (se_LastUpdatedBy s).

Definition decrypt_secret (secretKey : string) (s : Secret) : gerr + Secret :=
  match Decrypt secretKey (se_Value s) with inl e => inl e | inr v => inr (set_value v s) end.

Definition GetSecretByNameDecrypted (workspace : Workspace) (name : string) : DB Secret :=
  let? secret := GetSecretByName workspace name in
  let? secretKey := lift (signing_key workspace) in
  lift (decrypt_secret secretKey secret).

Fixpoint decrypt_secrets (secretKey : string) (l : list Secret) : gerr + list Secret :=
  match l with
  | [] => inr []
  | s :: l' =>
      match decrypt_secret secretKey s with
      | inl e => inl e
      | inr s' => match decrypt_secrets secretKey l' with inl e => inl e | inr l'' => inr (s' :: l'') end
      end
  end.

Definition GetSecretsByNameDecrypted (workspace : Workspace) (names : list string) : DB (list Secret) :=
  let? secrets := GetSecretsByName workspace names in
  let? secretKey := lift (signing_key workspace) in
  lift (decrypt_secrets secretKey secrets).

Definition ListSecrets (workspace : Workspace) : DB (list Secret) :=
  select (λ t, inr (map secret_columns
    (List.filter (λ s, se_WorkspaceId s =? wk_Id workspace) (rows (t_secret t))))).

Definition DeleteSecret (workspace : Workspace) (name : string) : DB unit :=
  sql (λ _ _ t, checked (texts [name] (inr tt)) t
    (inr tt, set_secrets t (delete_rows (is_secret workspace name) (t_secret t)))).

Definition UpdateSecret (workspace : Workspace) (tokenId : Z) (secretName value : string) : DB Secret :=
  let? secretKey := lift (signing_key workspace) in
  let? encryptedValue := encrypted secretKey value in
  sql (λ now _ t,
    checked (texts [secretName] (inr tt)) t
      (let '(l, secrets) := update_rows (is_secret workspace secretName)
         (λ s, mkSecret (se_Id s) (se_ExternalId s) (se_CreatedAt s) now (se_Name s) encryptedValue
                 (se_WorkspaceId s) (Some tokenId)) (t_secret t) in
       if negb (bool_decide (l = [])) && negb (existsb (λ k, tk_Id k =? tokenId) (rows (t_token t)))
       then (inl (foreign_key "workspace_secret_last_updated_by_fkey"), t)
       else (get_row (map secret_columns l), set_secrets t secrets))).

(** ** Volumes *)

Definition is_volume (workspaceId : Z) (name : string) (v : Volume) : bool :=
  String.eqb (vo_Name v) name && (vo_WorkspaceId v =? workspaceId).

Definition GetVolume (workspaceId : Z) (name : string) : DB Volume :=
  select (λ t, texts [name] (get_row (List.filter (is_volume workspaceId name) (rows (t_volume t))))).

(** No row is not an error. *)
Definition or_none {A} (m : DB A) : DB (option A) :=
  m ≫= λ r, mret (match r with inl NoRows => inr None | inl e => inl e | inr a => inr (Some a) end).

Definition GetVolumeByExternalId (workspaceId : Z) (externalId : string) : DB (option Volume) :=
  or_none (select (λ t, uuid_param externalId (λ u, get_row (List.filter
    (λ v, String.eqb (vo_ExternalId v) u && (vo_WorkspaceId v =? workspaceId)) (rows (t_volume t)))))).

Definition volume_violates (t : tables) (v : Volume) : option dberr :=
  if negb (varchar255 (vo_Name v)) then Some too_long
  else match workspace_of t (Some (vo_WorkspaceId v)) with
       | None => Some (foreign_key "volume_workspace_id_fkey")
       | Some _ =>
           if existsb (λ v', String.eqb (vo_ExternalId v') (vo_ExternalId v)) (rows (t_volume t))
           then Some (duplicate_key "volume_external_id_key") else None
       end.

(** Every error of the query counts as an absent volume. *)
Definition GetOrCreateVolume (workspaceId : Z) (name : string) : DB Volume :=
  GetVolume workspaceId name ≫= λ r,
  match r with
  | inr v => done_ v
  | inl _ =>
      sql (λ now uuid t, checked (texts [name] (inr tt)) t
        (on_table set_volumes t (insert_row (λ id, mkVolume id uuid name 0 workspaceId now now)
                                   (volume_violates t) (t_volume t))))
  end.

Definition DeleteVolume (workspaceId : Z) (name : string) : DB unit :=
  sql (λ _ _ t, checked (texts [name] (inr tt)) t
    (inr tt, set_volumes t (delete_rows (is_volume workspaceId name) (t_volume t)))).

(** The volumes with the name of their workspace. *)
Definition ListVolumesWithRelated (workspaceId : Z) : DB (list (Volume * string)) :=
  select (λ t, inr (omap (λ v,
    if vo_WorkspaceId v =? workspaceId then
      w ← workspace_of t (Some (vo_WorkspaceId v)); Some (v, wk_Name w)
    else None) (rows (t_volume t)))).

(** ** Objects *)

(** The columns of the queries: the workspace is not among them. *)
Definition object_columns (o : Object) : Object :=
  mkObject (ob_Id o) (ob_ExternalId o) (ob_Hash o) (ob_Size o) 0 (ob_CreatedAt o).

Definition object_violates (t : tables) (o : Object) : option dberr :=
  if negb (varchar255 (ob_Hash o)) then Some too_long
  else match workspace_of t (Some (ob_WorkspaceId o)) with
       | None => Some (foreign_key "object_workspace_id_fkey")
       | Some _ =>
           if existsb (λ o', String.eqb (ob_Hash o') (ob_Hash o) && (ob_WorkspaceId o' =? ob_WorkspaceId o))
                (rows (t_object t))
           then Some (duplicate_key "object_hash_workspace_id_key") else None
       end.

Definition CreateObject (hash : string) (size workspaceId : Z) : DB Object :=
  sql (λ now uuid t, checked (texts [hash] (inr tt)) t
    (on_table set_objects t (insert_row (λ id, mkObject id uuid hash size workspaceId now) (object_violates t)
                               (t_object t)))).

Definition GetObjectByHash (hash : string) (workspaceId : Z) : DB Object :=
  select (λ t, texts [hash] (get_row (map object_columns (List.filter
    (λ o, String.eqb (ob_Hash o) hash && (ob_WorkspaceId o =? workspaceId)) (rows (t_object t)))))).

Definition GetObjectByExternalId (externalId : string) (workspaceId : Z) : DB Object :=
  select (λ t, uuid_param externalId (λ u, get_row (map object_columns (List.filter
    (λ o, String.eqb (ob_ExternalId o) u && (ob_WorkspaceId o =? workspaceId)) (rows (t_object t)))))).

Definition GetObjectByExternalStubId (stubId : string) (workspaceId : Z) : DB Object :=
  select (λ t, uuid_param stubId (λ u, get_row (map object_columns (List.filter
    (λ o, (ob_WorkspaceId o =? workspaceId) &&
          existsb (λ s, String.eqb (st_ExternalId s) u && (st_ObjectId s =? ob_Id o)) (rows (t_stub t)))
    (rows (t_object t)))))).

Definition set_size (size : Z) (o : Object) : Object :=
  mkObject (ob_Id o) (ob_ExternalId o) (ob_Hash o) size (ob_WorkspaceId o) (ob_CreatedAt o).

Definition UpdateObjectSizeByExternalId (externalId : string) (size : Z) : DB unit :=
  sql (λ _ _ t,
    match uuid_in externalId with
    | None => (inl (invalid_text "uuid" externalId), t)
    | Some u => (inr tt, set_objects t
                   (update_rows (λ o, String.eqb (ob_ExternalId o) u) (set_size size) (t_object t)).2)
    end).

(** An object of a stub cannot be deleted. *)
Definition DeleteObjectByExternalId (externalId : string) : DB unit :=
  sql (λ _ _ t,
    match uuid_in externalId with
    | None => (inl (invalid_text "uuid" externalId), t)
    | Some u =>
        if existsb (λ o, String.eqb (ob_ExternalId o) u &&
                         existsb (λ s, st_ObjectId s =? ob_Id o) (rows (t_stub t))) (rows (t_object t))
        then (inl (foreign_key "stub_object_id_fkey"), t)
        else (inr tt, set_objects t (delete_rows (λ o, String.eqb (ob_ExternalId o) u) (t_object t)))
    end).

(** ** Apps *)

(** NULL values of [deleted_at] are distinct: the constraint does not keep two apps apart
    that are not deleted. *)
Definition app_violates (t : tables) (a : App) : option dberr :=
  if negb (varchar255 (ap_Name a)) then Some too_long
  else match workspace_of t (Some (ap_WorkspaceId a)) with
       | None => Some (foreign_key "app_workspace_id_fkey")
       | Some _ => None
       end.

Definition is_live_app (workspaceId : Z) (a : App) : bool :=
  (ap_WorkspaceId a =? workspaceId) && bool_decide (ap_DeletedAt a = None).

Definition GetOrCreateApp (workspaceId : Z) (appName : string) : DB App :=
  select (λ t, texts [appName] (get_row (map (λ a,
            mkApp (ap_Id a) (ap_ExternalId a) (ap_Name a) "" (ap_WorkspaceId a) (ap_CreatedAt a) (ap_UpdatedAt a) None)
            (List.filter (λ a, String.eqb (ap_Name a) appName && is_live_app workspaceId a) (rows (t_app t))))))
  ≫= λ r,
  match r with
  | inr a => done_ a
  | inl NoRows =>
      sql (λ now uuid t, on_table set_apps t
        (insert_row (λ id, mkApp id uuid appName "" workspaceId now now None) (app_violates t) (t_app t)))
  | inl e => fail_ e
  end.

Definition ListApps (workspaceId : Z) : DB (list App) :=
  select (λ t, inr (List.filter (is_live_app workspaceId) (rows (t_app t)))).

Definition RetrieveApp (workspaceId : Z) (appId : string) : DB (option App) :=
  or_none (select (λ t, uuid_param appId (λ u, get_row (List.filter
    (λ a, String.eqb (ap_ExternalId a) u && (ap_WorkspaceId a =? workspaceId)) (rows (t_app t)))))).

Definition DeleteApp (appId : string) : DB unit :=
  sql (λ now _ t,
    match uuid_in appId with
    | None => (inl (invalid_text "uuid" appId), t)
    | Some u =>
        (inr tt, set_apps t (update_rows (λ a, String.eqb (ap_ExternalId a) u)
           (λ a, mkApp (ap_Id a) (ap_ExternalId a) (ap_Name a) (ap_Description a) (ap_WorkspaceId a)
                   (ap_CreatedAt a) (ap_UpdatedAt a) (Some now)) (t_app t)).2)
    end).

Definition RetrieveAppByStubExternalId (stubExternalId : string) : DB App :=
  select (λ t, uuid_param stubExternalId (λ u, get_row (List.filter
    (λ a, existsb (λ s, String.eqb (st_ExternalId s) u && (st_AppId s =? ap_Id a)) (rows (t_stub t)))
    (rows (t_app t))))).

Definition updateAppActivity (appId : Z) : DB unit :=
  sql (λ now _ t, (inr tt, set_apps t (update_rows (λ a, ap_Id a =? appId)
    (λ a, mkApp (ap_Id a) (ap_ExternalId a) (ap_Name a) (ap_Description a) (ap_WorkspaceId a)
            (ap_CreatedAt a) now (ap_DeletedAt a)) (t_app t)).2)).

(** ** Images *)

Definition GetImageClipVersion (imageId : string) : DB Z :=
  select (λ t, texts [imageId] (get_row (map im_clip_version
    (List.filter (λ i, String.eqb (im_image_id i) imageId) (rows (t_image t)))))).

Definition image_violates (t : tables) (i : image_row) : option dberr :=
  if negb (int4 (im_clip_version i)) then Some out_of_range
  else if existsb (λ i', String.eqb (im_image_id i') (im_image_id i)) (rows (t_image t))
  then Some (duplicate_key "image_image_id_key") else None.

Definition CreateImage (imageId : string) (clipVersion : Z) : DB Z :=
  sql (λ _ _ t, checked (texts [imageId] (inr tt)) t
    (let '(r, images) := insert_row (λ _, mkImageRow imageId clipVersion None None) (image_violates t) (t_image t) in
     (map_ok (λ _, clipVersion) r, set_images t images))).

Definition SetImageCredentialSecret (imageId secretName secretExternalId : string) : DB unit :=
  sql (λ _ _ t,
    checked (texts [imageId; secretName; secretExternalId] (inr tt)) t
      (if negb (varchar255 secretName) || (36 <? char_count secretExternalId)%nat then (inl too_long, t)
       else (inr tt, set_images t (update_rows (λ i, String.eqb (im_image_id i) imageId)
              (λ i, mkImageRow (im_image_id i) (im_clip_version i) (Some secretName) (Some secretExternalId))
              (t_image t)).2))).

(** A column that is NULL reads as the empty text. *)
Definition GetImageCredentialSecret (imageId : string) : DB (string * string) :=
  select (λ t, texts [imageId] (get_row (map (λ i,
    (default "" (im_credential_secret_name i), default "" (im_credential_secret_id i)))
    (List.filter (λ i, String.eqb (im_image_id i) imageId) (rows (t_image t)))))).

(** ** Stubs *)

(** The values of the type [stub_type]. *)
Definition stub_types : list string :=
  ["taskqueue"; "function"; "taskqueue/deployment"; "function/deployment"; "endpoint"; "endpoint/deployment";
   "container"; "taskqueue/serve"; "function/serve"; "endpoint/serve"; "asgi"; "asgi/deployment"; "asgi/serve";
   "schedule"; "schedule/deployment"; "bot"; "bot/deployment"; "bot/serve"; "shell"; "pod"; "pod/deployment";
   "pod/run"; "sandbox"].

Definition stub_violates (t : tables) (s : Stub) : option dberr :=
  if negb (varchar255 (st_Name s)) then Some too_long
  else match workspace_of t (Some (st_WorkspaceId s)) with
       | None => Some (foreign_key "stub_workspace_id_fkey")
       | Some _ =>
           if negb (existsb (λ o, ob_Id o =? st_ObjectId s) (rows (t_object t)))
           then Some (foreign_key "stub_object_id_fkey")
           else if negb (existsb (λ a, ap_Id a =? st_AppId s) (rows (t_app t)))
           then Some (foreign_key "stub_app_id_fkey") else None
       end.

(** The columns of the queries: [public] is not among them. *)
Definition stub_columns (s : Stub) : Stub :=
  mkStub (st_Id s) (st_ExternalId s) (st_Name s) (st_Type s) (st_Config s) (st_ConfigVersion s) (st_ObjectId s)
    (st_WorkspaceId s) (st_CreatedAt s) (st_UpdatedAt s) false (st_AppId s).

Definition same_stub (name stubType configJSON : string) (objectId : Z) (s : Stub) : bool :=
  String.eqb (st_Name s) name && String.eqb (st_Type s) stubType && (st_ObjectId s =? objectId) &&
  jsonb_eq (st_Config s) configJSON.

(** [config]: what [json.Marshal] makes of the configuration.  An existing stub is looked
    up without the workspace; an error of the query counts as none.  The method fails
    also when the stub was created and only the app could not be updated. *)
Definition GetOrCreateStub (name stubType : string) (config : gerr + string) (objectId workspaceId : Z)
    (forceCreate : bool) (appId : Z) : DB Stub :=
  let? configJSON := lift config in
  (if forceCreate then fail_ NoRows
   else select (λ t, texts [name; configJSON]
          (if bool_decide (stubType ∈ stub_types)
           then get_row (map stub_columns (List.filter (same_stub name stubType configJSON objectId) (rows (t_stub t))))
           else inl (invalid_text "stub_type" stubType))))
  ≫= λ r : dberr + Stub,
  match r with
  | inr stub => done_ stub
  | inl _ =>
      let? stub := sql (λ now uuid t,
        checked (texts [name; configJSON] (inr tt)) t
          (if bool_decide (stubType ∈ stub_types) then
             let '(r, stubs) := insert_row (λ id, mkStub id uuid name stubType configJSON 1 objectId workspaceId now now
                                              false appId) (stub_violates t) (t_stub t) in
             (map_ok stub_columns r, set_stubs t stubs)
           else (inl (invalid_text "stub_type" stubType), t))) in
      let? _ := updateAppActivity appId in
      done_ stub
  end.

Definition set_config (configJSON : string) (s : Stub) : Stub :=
  mkStub (st_Id s) (st_ExternalId s) (st_Name s) (st_Type s) configJSON (st_ConfigVersion s) (st_ObjectId s)
    (st_WorkspaceId s) (st_CreatedAt s) (st_UpdatedAt s) (st_Public s) (st_AppId s).

Definition UpdateStubConfig (stubId : Z) (config : gerr + string) : DB unit :=
  let? configJSON := lift config in
  sql (λ _ _ t, checked (texts [configJSON] (inr tt)) t
    (inr tt, set_stubs t (update_rows (λ s, st_Id s =? stubId) (set_config configJSON) (t_stub t)).2)).

(** The stub with its workspace, object and app; the storage of the workspace is joined. *)
Definition stub_related (t : tables) (s : Stub) : option StubWithRelated :=
  w ← workspace_of t (Some (st_WorkspaceId s));
  a ← List.find (λ a, ap_Id a =? st_AppId s) (rows (t_app t));
  o ← List.find (λ o, ob_Id o =? st_ObjectId s) (rows (t_object t));
  Some (mkStubWithRelated s
          (mkWorkspace (wk_Id w) (wk_ExternalId w) (wk_Name w) (wk_CreatedAt w) (wk_UpdatedAt w) (wk_SigningKey w)
             (wk_VolumeCacheEnabled w) (wk_MultiGpuEnabled w) None None None (Some (storage_of t w)))
          o (Some (mkApp (ap_Id a) (ap_ExternalId a) (ap_Name a) "" 0 zeroTime zeroTime None))).

(** [workspaceFilter]: the external id of the filter, or nothing.  Every stub of the table
    has an object. *)
Definition stub_rows (p : Stub -> bool) (workspaceFilter : string) (t : tables) : dberr + list StubWithRelated :=
  let found := omap (stub_related t) (List.filter p (rows (t_stub t))) in
  if String.eqb workspaceFilter "" then inr found
  else uuid_param workspaceFilter (λ u,
         inr (List.filter (λ s, String.eqb (wk_ExternalId (sr_Workspace s)) u) found)).

Definition get_stub (rows : tables -> dberr + list StubWithRelated) : DB (option StubWithRelated) :=
  let? found := or_none (select (λ t, first_of id (rows t))) in
  match found with
  | None => done_ None
  | Some s =>
      let? w := decrypt_storage (sr_Workspace s) in
      done_ (Some (mkStubWithRelated (sr_Stub s) w (sr_Object s) (sr_App s)))
  end.

Definition GetStubByExternalId (externalId workspaceFilter : string) : DB (option StubWithRelated) :=
  get_stub (λ t, match uuid_in externalId with
                 | None => inl (invalid_text "uuid" externalId)
                 | Some u => stub_rows (λ s, String.eqb (st_ExternalId s) u) workspaceFilter t
                 end).

Definition GetStubById (stubId : Z) (workspaceFilter : string) : DB (option StubWithRelated) :=
  get_stub (stub_rows (λ s, st_Id s =? stubId) workspaceFilter).

(** ** Tasks *)

Definition task_statuses : list string :=
  ["PENDING"; "RUNNING"; "CANCELLED"; "COMPLETE"; "ERROR"; "TIMEOUT"; "RETRY"; "EXPIRED"].

Record TaskParams := mkTaskParams {
  tp_TaskId : string;
  tp_ContainerId : string;
  tp_StubId : Z;
  tp_WorkspaceId : Z;
  tp_ExternalWorkspaceId : option Z;
}.

Definition task_refs (t : tables) (x : Task) : option dberr :=
  match workspace_of t (Some (ta_WorkspaceId x)) with
  | None => Some (foreign_key "task_workspace_id_fkey")
  | Some _ =>
      if existsb (λ s, st_Id s =? ta_StubId x) (rows (t_stub t)) then None
      else Some (foreign_key "task_stub_id_fkey")
  end.

Definition task_violates (t : tables) (x : Task) : option dberr :=
  if negb (varchar255 (ta_ContainerId x)) then Some too_long
  else if existsb (λ x', String.eqb (ta_ExternalId x') (ta_ExternalId x)) (rows (t_task t))
  then Some (duplicate_key "task_external_id_key")
  else match ta_ExternalWorkspaceId x with
       | Some id => match workspace_of t (Some id) with
                    | None => Some (foreign_key "task_external_workspace_id_fkey")
                    | Some _ => task_refs t x
                    end
       | None => task_refs t x
       end.

Definition CreateTask (params : TaskParams) : DB Task :=
  let? taskId := (if String.eqb (tp_TaskId params) "" then generateExternalId else done_ (tp_TaskId params)) in
  sql (λ now _ t,
    checked (texts [tp_ContainerId params] (inr tt)) t
      match uuid_in taskId with
      | None => (inl (invalid_text "uuid" taskId), t)
      | Some u =>
          on_table set_tasks t
            (insert_row (λ id, mkTask id u "PENDING" (tp_ContainerId params) None None (tp_WorkspaceId params)
                                 (tp_ExternalWorkspaceId params) (tp_StubId params) None now now)
               (task_violates t) (t_task t))
      end).

Definition is_task (u : string) (x : Task) : bool := String.eqb (ta_ExternalId x) u.

(** The returned task lacks the external workspace and the app. *)
Definition UpdateTask (externalId : string) (updated : Task) : DB Task :=
  sql (λ now _ t,
    checked (texts [ta_ContainerId updated] (inr tt)) t
      match uuid_in externalId with
      | None => (inl (invalid_text "uuid" externalId), t)
      | Some u =>
          if negb (bool_decide (ta_Status updated ∈ task_statuses))
          then (inl (invalid_text "task_status" (ta_Status updated)), t)
          else if negb (varchar255 (ta_ContainerId updated)) then (inl too_long, t)
          else
            let '(l, tasks) := update_rows (is_task u)
              (λ x, mkTask (ta_Id x) (ta_ExternalId x) (ta_Status updated) (ta_ContainerId updated)
                      (ta_StartedAt updated) (ta_EndedAt updated) (ta_WorkspaceId updated)
                      (ta_ExternalWorkspaceId x) (ta_StubId updated) (ta_AppId x) (ta_CreatedAt x) now)
              (t_task t) in
            match omap (task_refs t) l with
            | e :: _ => (inl e, t)
            | [] =>
                (get_row (map (λ x, mkTask (ta_Id x) (ta_ExternalId x) (ta_Status x) (ta_ContainerId x)
                                      (ta_StartedAt x) (ta_EndedAt x) (ta_WorkspaceId x) None (ta_StubId x) None
                                      (ta_CreatedAt x) (ta_UpdatedAt x)) l), set_tasks t tasks)
            end
      end).

Definition DeleteTask (externalId : string) : DB unit :=
  sql (λ _ _ t,
    match uuid_in externalId with
    | None => (inl (invalid_text "uuid" externalId), t)
    | Some u => (inr tt, set_tasks t (delete_rows (is_task u) (t_task t)))
    end).

Definition GetTask (externalId : string) : DB Task :=
  select (λ t, uuid_param externalId (λ u, get_row (map
    (λ x, mkTask (ta_Id x) (ta_ExternalId x) (ta_Status x) (ta_ContainerId x) (ta_StartedAt x) (ta_EndedAt x)
            (ta_WorkspaceId x) (ta_ExternalWorkspaceId x) (ta_StubId x) None (ta_CreatedAt x) (ta_UpdatedAt x))
    (List.filter (is_task u) (rows (t_task t)))))).

Definition GetTaskStatus (externalId : string) : DB string :=
  select (λ t, uuid_param externalId (λ u, get_row (map ta_Status (List.filter (is_task u) (rows (t_task t)))))).

(** A task with its workspace and its stub, and what else the queries join. *)
Record TaskWithRelated := mkTaskWithRelated {
  twr_Task : Task;
  twr_Workspace : string * string;
  twr_ExternalWorkspace : option (Z * string * string);
  twr_Stub : Stub;
  twr_App : option (string * string);
  twr_Deployment : option (string * string * Z);
}.

Definition related_stub (s : Stub) : Stub :=
  mkStub 0 (st_ExternalId s) (st_Name s) (st_Type s) (st_Config s) 0 0 0 zeroTime zeroTime false 0.

(** The external workspace is nil where there is none. *)
Definition task_related (t : tables) (x : Task) : option TaskWithRelated :=
  w ← workspace_of t (Some (ta_WorkspaceId x));
  s ← List.find (λ s, st_Id s =? ta_StubId x) (rows (t_stub t));
  a ← List.find (λ a, ap_Id a =? st_AppId s) (rows (t_app t));
  let ew := workspace_of t (ta_ExternalWorkspaceId x) in
  let d := List.find (λ d, de_StubId d =? st_Id s) (rows (t_deployment t)) in
  Some (mkTaskWithRelated x (wk_ExternalId w, wk_Name w)
          ((λ w, (wk_Id w, wk_ExternalId w, wk_Name w)) <$> ew) (related_stub s)
          (Some (ap_ExternalId a, ap_Name a)) ((λ d, (de_ExternalId d, de_Name d, de_Version d)) <$> d)).

(** Neither a missing row nor a malformed identifier is an error. *)
Definition or_nil {A} (m : DB A) : DB (option A) :=
  m ≫= λ r, mret (match r with
                  | inl e => if PostgresDataError e || bool_decide (e = NoRows) then inr None else inl e
                  | inr a => inr (Some a)
                  end).

Definition GetTaskWithRelated (externalId : string) : DB (option TaskWithRelated) :=
  or_nil (select (λ t, uuid_param externalId (λ u,
    get_row (omap (task_related t) (List.filter (is_task u) (rows (t_task t))))))).

Definition GetTaskByWorkspace (externalId : string) (workspace : Workspace) : DB (option TaskWithRelated) :=
  or_nil (select (λ t, uuid_param externalId (λ u,
    get_row (omap (λ x,
      if ta_WorkspaceId x =? wk_Id workspace then
        w ← workspace_of t (Some (ta_WorkspaceId x));
        s ← List.find (λ s, st_Id s =? ta_StubId x) (rows (t_stub t));
        Some (mkTaskWithRelated x (wk_ExternalId w, wk_Name w) None
                (mkStub 0 (st_ExternalId s) (st_Name s) (st_Type s) (st_Config s) 0 0 0 (st_CreatedAt s)
                   (st_UpdatedAt s) false 0) None None)
      else None) (List.filter (is_task u) (rows (t_task t))))))).

Definition ListTasks : DB (list Task) :=
  select (λ t, inr (map (λ x, mkTask (ta_Id x) (ta_ExternalId x) (ta_Status x) (ta_ContainerId x) (ta_StartedAt x)
    (ta_EndedAt x) (ta_WorkspaceId x) None (ta_StubId x) None (ta_CreatedAt x) (ta_UpdatedAt x)) (rows (t_task t)))).

(** ** Subdomains (backend_utils.go) *)

Definition is_alnum (c : Ascii.ascii) : bool :=
  let n := Ascii.nat_of_ascii c in
  ((65 <=? n) && (n <=? 90) || (97 <=? n) && (n <=? 122) || (48 <=? n) && (n <=? 57))%nat.

(** The two replacements: a run of characters other than letters and digits becomes one
    hyphen.  [pending]: the run has begun. *)
Fixpoint hyphenate (pending : bool) (s : string) : string :=
  match s with
  | "" => if pending then "-" else ""
  | String c s' =>
      if is_alnum c then if pending then String "-" (String c (hyphenate false s')) else String c (hyphenate false s')
      else hyphenate true s'
  end.

Definition trim_hyphens (s : string) : string := TrimSuffix (TrimPrefix s "-") "-".

Definition sanitizeDeploymentName (name : string) : string := ToLower (trim_hyphens (hyphenate false name)).

(** [md5_hex] of the inputs one after another. *)
Definition generateHash (md5_hex : string -> string) (hashLength : nat) (inputs : list string) : string :=
  String.substring 0 hashLength (md5_hex (String.concat "" inputs)).

Definition generateSubdomain (md5_hex : string -> string) (deploymentName stubType : string) (workspaceId : Z)
    : string :=
  let sanitized := sanitizeDeploymentName deploymentName in
  if String.eqb sanitized "" then ""
  else
    let sanitized := if (55 <? String.length sanitized)%nat then String.substring 0 55 sanitized else sanitized in
    sanitized +:+ "-" +:+ generateHash md5_hex 7 [deploymentName; stubType; fmt_int workspaceId].

(** The check of the column: groups of letters and digits with single hyphens between. *)
Definition subdomain_check (s : string) : bool :=
  forallb (λ part, negb (String.eqb part "") && forallb is_alnum (String.list_ascii_of_string part)) (split_on "-" s).

(** ** Deployments *)

Definition deployment_violates (t : tables) (d : Deployment) : option dberr :=
  if negb (varchar255 (de_Name d)) || (64 <? char_count (de_Subdomain d))%nat then Some too_long
  else if negb (subdomain_check (de_Subdomain d)) then Some (check_violation "deployment_subdomain_check")
  else if existsb (λ d', String.eqb (de_Name d') (de_Name d) && (de_Version d' =? de_Version d) &&
                         (de_WorkspaceId d' =? de_WorkspaceId d) && String.eqb (de_StubType d') (de_StubType d))
            (rows (t_deployment t))
  then Some (duplicate_key "deployment_name_version_workspace_id_stub_type_key")
  else match workspace_of t (Some (de_WorkspaceId d)) with
       | None => Some (foreign_key "deployment_workspace_id_fkey")
       | Some _ =>
           if negb (existsb (λ s, st_Id s =? de_StubId d) (rows (t_stub t)))
           then Some (foreign_key "deployment_stub_id_fkey")
           else if negb (existsb (λ a, ap_Id a =? de_AppId d) (rows (t_app t)))
           then Some (foreign_key "deployment_app_id_fkey") else None
       end.

(** The version is an INTEGER. *)
Definition CreateDeployment (md5_hex : string -> string) (workspaceId : Z) (name : string) (version stubId : Z)
    (stubType : string) (appId : Z) : DB Deployment :=
  let subdomain := generateSubdomain md5_hex name stubType workspaceId in
  let? deployment := sql (λ now uuid t,
    checked (texts [name] (inr tt)) t
      (if negb (bool_decide (stubType ∈ stub_types)) then (inl (invalid_text "stub_type" stubType), t)
       else if negb (int4 version) then (inl out_of_range, t)
       else on_table set_deployments t
              (insert_row (λ id, mkDeployment id uuid name true subdomain workspaceId stubId stubType version now now
                                   None appId) (deployment_violates t) (t_deployment t)))) in
  let? _ := updateAppActivity appId in
  done_ deployment.

(** AND binds tighter than OR: a deleted deployment is updated by its id. *)
Definition updated_by (deployment d : Deployment) (u : string) : bool :=
  (de_Id d =? de_Id deployment) ||
  (String.eqb (de_ExternalId d) u && bool_decide (de_DeletedAt d = None)).

(** The returned deployment lacks the subdomain and the app. *)
Definition UpdateDeployment (deployment : Deployment) : DB Deployment :=
  sql (λ now _ t,
    checked (texts [de_Name deployment] (inr tt)) t
      match uuid_in (de_ExternalId deployment) with
      | None => (inl (invalid_text "uuid" (de_ExternalId deployment)), t)
      | Some u =>
          if negb (varchar255 (de_Name deployment)) then (inl too_long, t)
          else if negb (int4 (de_Version deployment)) then (inl out_of_range, t)
          else
            let '(l, deployments) := update_rows (λ d, updated_by deployment d u)
              (λ d, mkDeployment (de_Id d) (de_ExternalId d) (de_Name deployment) (de_Active deployment)
                      (de_Subdomain d) (de_WorkspaceId d) (de_StubId d) (de_StubType d) (de_Version deployment)
                      (de_CreatedAt d) now (de_DeletedAt d) (de_AppId d)) (t_deployment t) in
            if existsb (λ d, existsb (λ d', negb (de_Id d' =? de_Id d) && String.eqb (de_Name d') (de_Name d) &&
                   (de_Version d' =? de_Version d) && (de_WorkspaceId d' =? de_WorkspaceId d) &&
                   String.eqb (de_StubType d') (de_StubType d)) (rows deployments)) l
            then (inl (duplicate_key "deployment_name_version_workspace_id_stub_type_key"), t)
            else
              (get_row (map (λ d, mkDeployment (de_Id d) (de_ExternalId d) (de_Name d) (de_Active d) "" (de_WorkspaceId d)
                                    (de_StubId d) (de_StubType d) (de_Version d) (de_CreatedAt d) (de_UpdatedAt d)
                                    None 0) l), set_deployments t deployments)
      end).

Definition DeleteDeployment (deployment : Deployment) : DB unit :=
  sql (λ now _ t, (inr tt, set_deployments t (update_rows (λ d, de_Id d =? de_Id deployment)
    (λ d, mkDeployment (de_Id d) (de_ExternalId d) (de_Name d) false (de_Subdomain d) (de_WorkspaceId d) (de_StubId d)
            (de_StubType d) (de_Version d) (de_CreatedAt d) (de_UpdatedAt d) (Some now) (de_AppId d))
    (t_deployment t)).2)).

(** A deployment with its workspace (its internal id only where the query names it), its
    stub and its app. *)
Record DeploymentWithRelated := mkDeploymentWithRelated {
  dwr_Deployment : Deployment;
  dwr_WorkspaceId : Z;
  dwr_Workspace : string * string;
  dwr_Stub : Stub;
  dwr_App : option (string * string);
}.

Definition deployment_related (with_id with_type with_app : bool) (t : tables) (d : Deployment)
    : option DeploymentWithRelated :=
  w ← workspace_of t (Some (de_WorkspaceId d));
  s ← List.find (λ s, st_Id s =? de_StubId d) (rows (t_stub t));
  let a := List.find (λ a, ap_Id a =? de_AppId d) (rows (t_app t)) in
  if with_app && negb (bool_decide (is_Some a)) then None
  else
    Some (mkDeploymentWithRelated d (if with_id then wk_Id w else 0) (wk_ExternalId w, wk_Name w)
            (mkStub (if with_type then st_Id s else 0) (st_ExternalId s) (st_Name s)
               (if with_type then st_Type s else "") (st_Config s) 0 0 0 zeroTime zeroTime false 0)
            (if with_app then (λ a, (ap_ExternalId a, ap_Name a)) <$> a else None)).

Definition is_live (d : Deployment) : bool := bool_decide (de_DeletedAt d = None).

Definition GetDeploymentByExternalId (workspaceId : Z) (deploymentExternalId : string)
    : DB (option DeploymentWithRelated) :=
  or_nil (select (λ t, uuid_param deploymentExternalId (λ u, get_row (omap (deployment_related false true true t)
    (List.filter (λ d, (de_WorkspaceId d =? workspaceId) && String.eqb (de_ExternalId d) u && is_live d)
       (rows (t_deployment t))))))).

Definition GetAnyDeploymentByExternalId (deploymentExternalId : string) : DB (option DeploymentWithRelated) :=
  or_nil (select (λ t, uuid_param deploymentExternalId (λ u, get_row (omap (deployment_related false true false t)
    (List.filter (λ d, String.eqb (de_ExternalId d) u && is_live d) (rows (t_deployment t))))))).

Definition GetDeploymentByStubExternalId (workspaceId : Z) (stubExternalId : string)
    : DB (option DeploymentWithRelated) :=
  or_nil (select (λ t, uuid_param stubExternalId (λ u, get_row (List.filter
    (λ d, String.eqb (st_ExternalId (dwr_Stub d)) u)
    (omap (deployment_related false true false t)
       (List.filter (λ d, (de_WorkspaceId d =? workspaceId) && is_live d) (rows (t_deployment t)))))))).

(** ORDER BY version DESC *)
Definition GetLatestDeploymentByName (workspaceId : Z) (name stubType : string) (filterDeleted : bool)
    : DB (option DeploymentWithRelated) :=
  or_none (select (λ t, texts [name]
    (if bool_decide (stubType ∈ stub_types) then
       get_row (latest_first (λ d, de_Version (dwr_Deployment d)) (omap (deployment_related true false false t)
         (List.filter (λ d, (de_WorkspaceId d =? workspaceId) && String.eqb (de_Name d) name &&
                            String.eqb (de_StubType d) stubType && (negb filterDeleted || is_live d))
            (rows (t_deployment t)))))
     else inl (invalid_text "stub_type" stubType)))).

Definition GetDeploymentByNameAndVersion (workspaceId : Z) (name : string) (version : Z) (stubType : string)
    : DB DeploymentWithRelated :=
  select (λ t, texts [name]
    (if bool_decide (stubType ∈ stub_types) then
       get_row (omap (deployment_related true false false t)
         (List.filter (λ d, (de_WorkspaceId d =? workspaceId) && String.eqb (de_Name d) name &&
                            (de_Version d =? version) && String.eqb (de_StubType d) stubType && is_live d)
            (rows (t_deployment t))))
     else inl (invalid_text "stub_type" stubType))).

Definition max_version (l : list DeploymentWithRelated) : Z :=
  foldr (λ d m, Z.max (de_Version (dwr_Deployment d)) m) 0 l.

(** Version 0 is the latest.  Neither the state of the deployment nor its stub's id are
    among the columns. *)
Definition GetDeploymentBySubdomain (subdomain : string) (version : Z) : DB DeploymentWithRelated :=
  select (λ t, texts [subdomain]
    (let data := omap (deployment_related false false false t)
                   (List.filter (λ d, String.eqb (de_Subdomain d) subdomain && is_live d) (rows (t_deployment t))) in
     let wanted := if version =? 0 then max_version data else version in
     get_row (omap (λ r, let d := dwr_Deployment r in
       if de_Version d =? wanted then
         s ← List.find (λ s, st_Id s =? de_StubId d) (rows (t_stub t));
         Some (mkDeploymentWithRelated
                 (mkDeployment (de_Id d) (de_ExternalId d) (de_Name d) false "" 0 0 "" (de_Version d) zeroTime zeroTime
                    None 0) 0 (dwr_Workspace r)
                 (mkStub 0 (st_ExternalId s) (st_Name s) (st_Type s) (st_Config s) 0 0 0 zeroTime zeroTime false 0) None)
       else None) data))).

(** The fields of the filter that its callers set; an empty one does not restrict. *)
Record DeploymentFilter := mkDeploymentFilter {
  df_WorkspaceID : Z;
  df_Name : string;
  df_Active : option bool;
  df_Version : Z;
  df_Limit : Z;
}.

Definition deployment_passes (f : DeploymentFilter) (d : Deployment) : bool :=
  is_live d &&
  ((df_WorkspaceID f =? 0) || (de_WorkspaceId d =? df_WorkspaceID f)) &&
  (String.eqb (df_Name f) "" || like ("%" +:+ df_Name f +:+ "%") (de_Name d)) &&
  match df_Active f with None => true | Some b => Bool.eqb (de_Active d) b end &&
  ((df_Version f <=? 0) || (de_Version d =? df_Version f)).

(** The app and the internal id of the stub are not among the columns. *)
Definition listed_deployment (t : tables) (d : Deployment) : option DeploymentWithRelated :=
  w ← workspace_of t (Some (de_WorkspaceId d));
  s ← List.find (λ s, st_Id s =? de_StubId d) (rows (t_stub t));
  a ← List.find (λ a, ap_Id a =? de_AppId d) (rows (t_app t));
  Some (mkDeploymentWithRelated
          (mkDeployment (de_Id d) (de_ExternalId d) (de_Name d) (de_Active d) (de_Subdomain d) (de_WorkspaceId d)
             (de_StubId d) (de_StubType d) (de_Version d) (de_CreatedAt d) (de_UpdatedAt d) (de_DeletedAt d) 0)
          0 (wk_ExternalId w, wk_Name w)
          (mkStub 0 (st_ExternalId s) (st_Name s) (st_Type s) (st_Config s) 0 0 0 (st_CreatedAt s) (st_UpdatedAt s)
             false 0) (Some (ap_ExternalId a, ap_Name a))).

Definition ListDeploymentsWithRelated (f : DeploymentFilter) : DB (list DeploymentWithRelated) :=
  select (λ t, texts [df_Name f]
    (let l := latest_first (λ d, de_CreatedAt (dwr_Deployment d))
                (omap (listed_deployment t) (List.filter (deployment_passes f) (rows (t_deployment t)))) in
     inr (if 0 <? df_Limit f then take (Z.to_nat (df_Limit f)) l else l))).

(** ** Scheduled jobs *)

(** [cron.unschedule] of a job that is not there is an error. *)
Definition unscheduleCron (jobId : Z) : DB unit :=
  sql (λ _ _ t,
    if negb (int4 jobId) then (inl out_of_range, t)
    else if existsb (λ j, cj_jobid j =? jobId) (rows (t_cron t))
    then (inr tt, set_crons t (delete_rows (λ j, cj_jobid j =? jobId) (t_cron t)))
    else (inl (Pq "XX000" ("could not find valid entry for job " +:+ fmt_int jobId)), t)).

(** A job of the same name keeps its id and gets the new schedule and command. *)
Definition cron_schedule (name schedule command : string) (t : tables) : (dberr + Z) * tables :=
  if negb (cron_ok schedule) then (inl (Pq "22023" ("invalid schedule: " +:+ schedule)), t)
  else
    match List.find (λ j, String.eqb (cj_jobname j) name) (rows (t_cron t)) with
    | Some j =>
        (inr (cj_jobid j), set_crons t (update_rows (λ j', cj_jobid j' =? cj_jobid j)
           (λ j', mkCronJob (cj_jobid j') name schedule command) (t_cron t)).2)
    | None =>
        let '(r, crons) := insert_row (λ id, mkCronJob id name schedule command) (λ _, None) (t_cron t) in
        (map_ok cj_jobid r, set_crons t crons)
    end.

(** Five fields, or a name that begins with an at sign. *)
Definition job_violates (t : tables) (j : ScheduledJob) : option dberr :=
  if negb (varchar255 (sj_JobName j)) || negb (varchar255 (sj_Schedule j)) then Some too_long
  else if String.eqb (sj_JobName j) "" then Some (check_violation "scheduled_job_job_name_check")
  else if negb ((length (split_on " " (sj_Schedule j)) =? 5)%nat || String.prefix "@" (sj_Schedule j))
  then Some (check_violation "scheduled_job_job_schedule_check")
  else if negb (existsb (λ d, de_Id d =? sj_DeploymentId j) (rows (t_deployment t)))
  then Some (foreign_key "scheduled_job_deployment_id_fkey")
  else if negb (existsb (λ s, st_Id s =? sj_StubId j) (rows (t_stub t)))
  then Some (foreign_key "scheduled_job_stub_id_fkey") else None.

(** [payload]: the JSON of the payload.  The row lacks what the query does not return; a
    job that cannot be stored is unscheduled. *)
Definition CreateScheduledJob (JobName Schedule : string) (payload : gerr + string) (DeploymentId StubId : Z)
    : DB ScheduledJob :=
  match payload with
  | inl e => fail_ (DbErr (EMsg ("failed to marshal scheduled job payload: " +:+ Error e)))
  | inr payloadJSON =>
      if Contains Schedule "@reboot" || Contains Schedule "@restart"
      then fail_ (DbErr (EMsg ("invalid schedule: " +:+ Schedule)))
      else
        let? jobId := sql (λ _ _ t, checked (texts [JobName; Schedule; payloadJSON] (inr tt)) t
                        (cron_schedule JobName Schedule ("NOTIFY jobs, '" +:+ payloadJSON +:+ "'") t)) in
        sql (λ now uuid t,
          on_table set_jobs t
            (insert_row (λ id, mkScheduledJob id uuid jobId JobName Schedule payloadJSON StubId DeploymentId now now None)
               (job_violates t) (t_job t))) ≫= λ r,
        match r with
        | inr j =>
            done_ (mkScheduledJob (sj_Id j) (sj_ExternalId j) (sj_JobId j) "" (sj_Schedule j) (sj_Payload j) (sj_StubId j)
                     0 (sj_CreatedAt j) (sj_UpdatedAt j) (sj_DeletedAt j))
        | inl e => unscheduleCron jobId ≫= λ _, fail_ e
        end
  end.

Definition GetScheduledJob (deploymentId : Z) : DB ScheduledJob :=
  select (λ t, get_row (List.filter (λ j,
    (sj_DeploymentId j =? deploymentId) && bool_decide (sj_DeletedAt j = None) &&
    existsb (λ c, cj_jobid c =? sj_JobId j) (rows (t_cron t)) &&
    existsb (λ d, de_Id d =? sj_DeploymentId j) (rows (t_deployment t))) (rows (t_job t)))).

Definition DeleteScheduledJob (job : ScheduledJob) : DB unit :=
  let? _ := sql (λ now _ t, (inr tt, set_jobs t (update_rows (λ j, sj_Id j =? sj_Id job)
              (λ j, mkScheduledJob (sj_Id j) (sj_ExternalId j) (sj_JobId j) (sj_JobName j) (sj_Schedule j) (sj_Payload j)
                      (sj_StubId j) (sj_DeploymentId j) (sj_CreatedAt j) (sj_UpdatedAt j) (Some now)) (t_job t)).2)) in
  catch (unscheduleCron (sj_JobId job))
    (λ e, DbErr (EMsg ("failed to unschedule job: " +:+ db_Error e))) done_.

(** An error of the two queries is not one of the call. *)
Definition DeletePreviousScheduledJob (deployment : Deployment) : DB unit :=
  GetDeploymentByNameAndVersion (de_WorkspaceId deployment) (de_Name deployment)
    (wrap_u64 (de_Version deployment - 1)) (de_StubType deployment) ≫= λ r,
  match r with
  | inl _ => done_ tt
  | inr previous =>
      GetScheduledJob (de_Id (dwr_Deployment previous)) ≫= λ r,
      match r with inl _ => done_ tt | inr job => DeleteScheduledJob job end
  end.
End backend.
