(* ===== verification/AuthCache.v ===== *)
(** * The cache of authorized tokens (pkg/repository/workspace_redis.go)

    A token that the database has authorized is kept in Redis for ten minutes, with its
    workspace, as JSON.  The encoding is a parameter: numbers, booleans and ASCII texts come
    back as they were. *)

From S2P Require Import Prelude GoStd Redis Keys Types Env Postgres.

Local Open Scope Z_scope.
Set Default Proof Using "Type".

Class AuthJson := {
  marshal_auth : Token -> Workspace -> gerr + string;
  (** Either pointer may be null. *)
  unmarshal_auth : string -> gerr + (option Token * option Workspace);
}.

Definition same_text (a b : string) : Prop := ascii_only a = true -> a = b.

Record same_token (k k' : Token) : Prop := {
  same_Id : tk_Id k = tk_Id k';
  same_ExternalId : same_text (tk_ExternalId k) (tk_ExternalId k');
  same_Key : same_text (tk_Key k) (tk_Key k');
  same_Active : tk_Active k = tk_Active k';
  same_Reusable : tk_Reusable k = tk_Reusable k';
  same_WorkspaceId : tk_WorkspaceId k = tk_WorkspaceId k';
  same_TokenType : same_text (tk_TokenType k) (tk_TokenType k');
  same_Disabled : tk_DisabledByClusterAdmin k = tk_DisabledByClusterAdmin k';
}.

Record same_workspace (w w' : Workspace) : Prop := {
  same_wk_Id : wk_Id w = wk_Id w';
  same_wk_ExternalId : same_text (wk_ExternalId w) (wk_ExternalId w');
  same_wk_Name : same_text (wk_Name w) (wk_Name w');
}.

Class AuthJsonLaws (J : AuthJson) : Prop := {
  unmarshal_marshal : forall k w s,
    marshal_auth k w = inr s ->
    exists k' w', unmarshal_auth s = inr (Some k', Some w') /\ same_token k k' /\ same_workspace w w';
}.

Definition cachedTokenTTLS : Z := 600.

Section cache.
Context {J : AuthJson}.

Definition AuthorizeToken (token : string) : M (Token * Workspace) :=
  res <- rcall (λ e, e) (CGet (WorkspaceAuthorizedToken token)) ;;
  match res with
  | None => fail ERedisNil
  | Some res =>
      if String.eqb res "" then fail (EMsg "token not found")
      else
        match unmarshal_auth res with
        | inl e => fail e
        | inr (Some token, Some workspace) => ok (token, workspace)
        | inr _ => fail (EMsg "token not found")
        end
  end.

Definition RevokeToken (tokenKey : string) : M unit :=
  rcall (λ e, e) (CDel [WorkspaceAuthorizedToken tokenKey]) ;; ok tt.

Definition SetAuthorizationToken (token : Token) (workspace : Workspace) : M unit :=
  match marshal_auth token workspace with
  | inl e => fail e
  | inr bytes =>
      rcall (λ e, e) (CSet (WorkspaceAuthorizedToken (tk_Key token)) bytes (cachedTokenTTLS * 10 ^ 9)) ;; ok tt
  end.
End cache.
