(* ===== verification/Auth.v ===== *)
(** * Authentication (pkg/auth/http.go, grpc.go)

    The middleware that finds the token of a request in the cache or in the database, the
    wrappers that decide who may call a handler, and the interceptor of gRPC calls.  A
    handler gets the authentication of its request, or none where the request has no
    token. *)

From S2P Require Import Prelude GoStd Redis Keys Types Env Postgres Crypto Backend AuthCache.

Local Open Scope Z_scope.
Set Default Proof Using "Type".

Record AuthInfo := mkAuthInfo {
  ai_Token : Token;
  ai_Workspace : Workspace;
}.

(** What the middleware reads of a request: the header and the query parameter. *)
Record http_request := mkHttpRequest {
  hr_Authorization : string;
  hr_auth_token : string;
}.

(** The token of a request, nothing where it has none. *)
Definition request_token (req : http_request) : option string :=
  let authHeader := hr_Authorization req in
  let tokenKey := TrimPrefix authHeader "Bearer " in
  if String.eqb authHeader "" || String.eqb tokenKey "" then
    let tokenKey := hr_auth_token req in
    if String.eqb tokenKey "" then None else Some tokenKey
  else Some tokenKey.

(** An error of the repository is answered with [h], a panic goes through. *)
Definition or_panic (h : http_err) (e : dberr) : http_err :=
  match e with DbErr (EPanic msg) => HTTPPanic msg | _ => h end.
Notation "'let?' x := m 'orelse!' h 'in' k" := (catch m (or_panic h) (λ x, k))
  (at level 10, x pattern, m at level 100, h at level 100, k at level 200).

Section auth.
Context {P : PgWorld} {C : AesGcm} {J : AuthJson} (EncryptionKey : string).

(** The cache is asked first; an error of it is not one of the request. *)
Definition find_token (tokenKey : string) : GM (http_err + (Token * Workspace)) :=
  on_redis (AuthCache.AuthorizeToken tokenKey) ≫= λ r,
  match r with
  | inr info => done_ info
  | inl _ =>
      let? info := Backend.AuthorizeToken EncryptionKey tokenKey orelse! Unauthorized in
      let? _ := on_redis (SetAuthorizationToken info.1 info.2) orelse HTTPError 500 "Internal Server Error" in
      done_ info
  end.

Definition usable (token : Token) : bool := tk_Active token && negb (tk_DisabledByClusterAdmin token).

Definition AuthMiddleware {A} (next : option AuthInfo -> GM (http_err + A)) (req : http_request)
    : GM (http_err + A) :=
  match request_token req with
  | None => next None
  | Some tokenKey =>
      let? info := find_token tokenKey in
      if usable info.1 then next (Some (mkAuthInfo info.1 info.2)) else fail_ Unauthorized
  end.

(** ** Who may call a handler *)

Definition WithAuth {A} (next : AuthInfo -> GM (http_err + A)) (ctx : option AuthInfo) : GM (http_err + A) :=
  match ctx with None => fail_ Unauthorized | Some cc => next cc end.

Definition verifyWorkspaceAuth (ctx : option AuthInfo) (workspaceId : string) : http_err + AuthInfo :=
  match ctx with
  | None => inl Unauthorized
  | Some cc =>
      if negb (String.eqb (wk_ExternalId (ai_Workspace cc)) workspaceId) &&
         negb (String.eqb (tk_TokenType (ai_Token cc)) TokenTypeClusterAdmin)
      then inl Unauthorized else inr cc
  end.

(** [workspaceId]: the parameter of the path. *)
Definition WithWorkspaceAuth {A} (next : AuthInfo -> GM (http_err + A)) (workspaceId : string)
    (ctx : option AuthInfo) : GM (http_err + A) :=
  match verifyWorkspaceAuth ctx workspaceId with inl e => fail_ e | inr cc => next cc end.

Definition WithStrictWorkspaceAuth {A} (next : AuthInfo -> GM (http_err + A)) (workspaceId : string)
    (ctx : option AuthInfo) : GM (http_err + A) :=
  match verifyWorkspaceAuth ctx workspaceId with
  | inl e => fail_ e
  | inr cc =>
      if String.eqb (tk_TokenType (ai_Token cc)) TokenTypeWorkspaceRestricted then fail_ Unauthorized else next cc
  end.

Definition WithClusterAdminAuth {A} (next : AuthInfo -> GM (http_err + A)) (ctx : option AuthInfo)
    : GM (http_err + A) :=
  match ctx with
  | None => fail_ Unauthorized
  | Some cc =>
      if negb (String.eqb (tk_TokenType (ai_Token cc)) TokenTypeClusterAdmin) then fail_ Unauthorized else next cc
  end.

(** ** gRPC (grpc.go) *)

(** Every gRPC call of the module has one of these ends besides its response. *)
Inductive grpc_err := Unauthenticated | GrpcPanic.
#[export] Instance grpc_err_eq_dec : EqDecision grpc_err.
Proof. solve_decision. Defined.

Definition isAuthRequired (debugMode : bool) (method : string) : bool :=
  negb (bool_decide (method ∈ ["/gateway.GatewayService/Authorize"; "/grpc.health.v1.Health/Check"]) ||
        debugMode && String.eqb method "/grpc.reflection.v1.ServerReflection/ServerReflectionInfo").

(** [inl false]: an error, [inl true]: a panic. *)
Definition is_panic (e : dberr) : bool := match e with DbErr (EPanic _) => true | _ => false end.

Definition getToken (tokenKey : string) : GM (bool + (Token * Workspace)) :=
  on_redis (AuthCache.AuthorizeToken tokenKey) ≫= λ r,
  match r with
  | inr info => done_ info
  | inl _ =>
      catch (Backend.AuthorizeToken EncryptionKey tokenKey) is_panic (λ info,
      let? _ := on_redis (SetAuthorizationToken info.1 info.2) orelse false in
      done_ info)
  end.

(** [authorization]: the values of the metadata. *)
Definition validateToken (authorization : list string) : GM (grpc_err + option AuthInfo) :=
  match authorization with
  | [] => done_ None
  | header :: _ =>
      getToken (TrimPrefix header "Bearer ") ≫= λ r,
      match r with
      | inl true => fail_ GrpcPanic
      | inl false => done_ None
      | inr (token, workspace) => done_ (if usable token then Some (mkAuthInfo token workspace) else None)
      end
  end.

(** [md]: the metadata, if the call has it. *)
Definition Unary {A} (debugMode : bool) (method : string) (md : option (list string))
    (handler : option AuthInfo -> GM (grpc_err + A)) : GM (grpc_err + A) :=
  match md with
  | None => fail_ Unauthenticated
  | Some authorization =>
      let? r := validateToken authorization in
      match r with
      | Some authInfo => handler (Some authInfo)
      | None => if isAuthRequired debugMode method then fail_ Unauthenticated else handler None
      end
  end.

Definition HasPermission (authInfo : AuthInfo) : bool :=
  negb (String.eqb (tk_TokenType (ai_Token authInfo)) TokenTypeWorkspaceRestricted).
End auth.
