(* ===== verification/Api.v ===== *)
(** * Handlers for tokens, limits, secrets and workspaces

    The HTTP handlers of pkg/api/v1/token.go, concurrencylimit.go and workspace.go and of
    pkg/abstractions/secret/http.go, each with the wrapper its route has, and the gRPC
    calls of pkg/gateway/services/token.go and auth.go and of
    pkg/abstractions/secret/secret.go.  The serialization of a response and the object
    storage are parameters or arguments. *)

From S2P Require Import Prelude GoStd Redis Keys Types Codec Env WorkspaceRepo Postgres Crypto Backend AuthCache Auth.

Local Open Scope Z_scope.
Set Default Proof Using "Type".

(** The calls that answer nothing but success. *)
Abbreviation handled A := (GM (http_err + A)).

(** A gRPC call answers with a response that says whether it succeeded; a panic ends it. *)

Inductive reply (A : Type) := Ok (a : A) | NotOk (ErrMsg : string).
Arguments Ok {A}.
Arguments NotOk {A}.

Abbreviation called A := (GM (grpc_err + reply A)).

(** The error of the repository as the message of the response. *)
Definition respond {A} (msg : dberr -> string) (m : DB A) : called A :=
  m ≫= λ r, mret (match r with
                  | inl e => if is_panic e then inl GrpcPanic else inr (NotOk (msg e))
                  | inr a => inr (Ok a)
                  end).

Definition permitted {A} (authInfo : AuthInfo) (m : called A) : called A :=
  if HasPermission authInfo then m else done_ (NotOk "Unauthorized Access").

Section handlers.
Context {P : PgWorld} {C : AesGcm} {J : AuthJson} (EncryptionKey : string).

(** ** Tokens over HTTP (token.go) *)

Definition invalid_workspace : http_err := HTTPBadRequest "Invalid workspace ID".

(** [token_type]: the query parameter. *)
Definition CreateWorkspaceToken (workspaceId token_type : string) (cc : AuthInfo) : handled Token :=
  let? workspace := GetWorkspaceByExternalId workspaceId orelse! invalid_workspace in
  let tokenType := if String.eqb token_type "" then TokenTypeWorkspace else token_type in
  if String.eqb tokenType TokenTypeWorkspacePrimary &&
     negb (String.eqb (tk_TokenType (ai_Token cc)) TokenTypeClusterAdmin)
  then fail_ (HTTPBadRequest "Invalid token type")
  else
    let? token := CreateToken (wk_Id workspace) tokenType true orelse!
                    (HTTPInternalServerError "Unable to create token") in
    done_ token.

(** The tokens one after another, as far as the first error. *)
Fixpoint disable_tokens (disabled : bool) (tokens : list Token) : handled unit :=
  match tokens with
  | [] => done_ tt
  | token :: rest =>
      let? _ := UpdateTokenAsClusterAdmin (tk_ExternalId token) disabled orelse!
                  (HTTPInternalServerError "Unable to update token") in
      let? _ := (if disabled then on_redis (RevokeToken (tk_Key token)) else done_ tt) orelse
                  (HTTPInternalServerError "Failed to revoke token") in
      disable_tokens disabled rest
  end.

(** [bound]: the field of the body, if it can be decoded. *)
Definition ClusterAdminUpdateAllWorkspaceTokens (workspaceId : string) (bound : option bool) (cc : AuthInfo)
    : handled unit :=
  let? workspace := GetWorkspaceByExternalId workspaceId orelse! invalid_workspace in
  match bound with
  | None => fail_ (HTTPBadRequest "Invalid request")
  | Some disabled =>
      let? tokens := ListTokens (wk_Id workspace) orelse! (HTTPInternalServerError "Failed to list tokens") in
      disable_tokens disabled tokens
  end.

Definition ListWorkspaceTokens (workspaceId : string) (cc : AuthInfo) : handled (list Token) :=
  let? workspace := GetWorkspaceByExternalId workspaceId orelse! invalid_workspace in
  let? tokens := ListTokens (wk_Id workspace) orelse! (HTTPInternalServerError "Failed to list tokens") in
  done_ tokens.

(** A primary token is left to administrators. *)
Definition protected (token : Token) (cc : AuthInfo) : bool :=
  String.eqb (tk_TokenType token) TokenTypeWorkspacePrimary &&
  negb (String.eqb (tk_TokenType (ai_Token cc)) TokenTypeClusterAdmin).

Definition ToggleWorkspaceToken (workspaceId tokenId : string) (cc : AuthInfo) : handled Token :=
  let? workspace := GetWorkspaceByExternalId workspaceId orelse! invalid_workspace in
  let? token := GetTokenByExternalId (wk_Id workspace) tokenId orelse! (HTTPBadRequest "Invalid token ID") in
  if protected token cc then fail_ (HTTPBadRequest "Cannot toggle primary token")
  else
    let? toggled := ToggleToken (wk_Id workspace) tokenId orelse!
                      (HTTPInternalServerError "Failed to toggle token") in
    let? _ := (if negb (tk_Active toggled) then on_redis (RevokeToken (tk_Key token)) else done_ tt) orelse
                (HTTPInternalServerError "Failed to revoke token") in
    done_ toggled.

Definition DeleteWorkspaceToken (workspaceId tokenId : string) (cc : AuthInfo) : handled unit :=
  let? workspace := GetWorkspaceByExternalId workspaceId orelse! invalid_workspace in
  let? token := GetTokenByExternalId (wk_Id workspace) tokenId orelse! (HTTPBadRequest "Invalid token ID") in
  if protected token cc then fail_ (HTTPBadRequest "Cannot delete primary token")
  else
    let? _ := DeleteToken (wk_Id workspace) tokenId orelse! (HTTPInternalServerError "Failed to delete token") in
    let? _ := on_redis (RevokeToken (tk_Key token)) orelse (HTTPInternalServerError "Failed to revoke token") in
    done_ tt.

Definition GetSigningKey (workspaceId : string) (cc : AuthInfo) : handled (option string) :=
  let? workspace := GetWorkspaceByExternalIdWithSigningKey workspaceId orelse! invalid_workspace in
  done_ (wk_SigningKey workspace).

(** The requests of the group [/token], with the wrappers of their routes. *)
Inductive token_request :=
| ReqAdminUpdate (workspaceId : string) (bound : option bool)
| ReqCreate (workspaceId token_type : string)
| ReqList (workspaceId : string)
| ReqSigningKey (workspaceId : string)
| ReqToggle (workspaceId tokenId : string)
| ReqDelete (workspaceId tokenId : string).

Inductive token_response :=
| RespDone
| RespToken (token : Token)
| RespTokens (tokens : list Token)
| RespKey (key : option string).

Definition responds {A} (f : A -> token_response) (m : handled A) : handled token_response :=
  let? a := m in done_ (f a).

Definition token_route (r : token_request) (ctx : option AuthInfo) : handled token_response :=
  match r with
  | ReqAdminUpdate w b =>
      WithClusterAdminAuth (λ cc, responds (λ _, RespDone) (ClusterAdminUpdateAllWorkspaceTokens w b cc)) ctx
  | ReqCreate w ty => WithStrictWorkspaceAuth (λ cc, responds RespToken (CreateWorkspaceToken w ty cc)) w ctx
  | ReqList w => WithStrictWorkspaceAuth (λ cc, responds RespTokens (ListWorkspaceTokens w cc)) w ctx
  | ReqSigningKey w => WithStrictWorkspaceAuth (λ cc, responds RespKey (GetSigningKey w cc)) w ctx
  | ReqToggle w t => WithStrictWorkspaceAuth (λ cc, responds RespToken (ToggleWorkspaceToken w t cc)) w ctx
  | ReqDelete w t => WithStrictWorkspaceAuth (λ cc, responds (λ _, RespDone) (DeleteWorkspaceToken w t cc)) w ctx
  end.

(** A request of the group as it arrives. *)
Definition serve_token_request (req : http_request) (r : token_request) : handled token_response :=
  AuthMiddleware EncryptionKey (token_route r) req.

(** ** Concurrency limits (concurrencylimit.go) *)

Definition http_GetConcurrencyLimitByWorkspaceId (workspaceId : string) (cc : AuthInfo) : handled ConcurrencyLimit :=
  let? workspace := GetWorkspaceByExternalId workspaceId orelse! invalid_workspace in
  match wk_ConcurrencyLimitId workspace with
  | None => fail_ HTTPNotFound
  | Some id =>
      let? limit := GetConcurrencyLimit id orelse! (HTTPInternalServerError "Failed to get concurrency limit") in
      done_ limit
  end.

Definition recache_failed : http_err := HTTPInternalServerError "Failed to recache concurrency limit".

(** [bound]: the GPU and CPU limits of the body. *)
Definition http_CreateConcurrencyLimit (workspaceId : string) (bound : option (Z * Z)) (cc : AuthInfo)
    : handled ConcurrencyLimit :=
  let? workspace := GetWorkspaceByExternalId workspaceId orelse! invalid_workspace in
  match bound with
  | None => fail_ (HTTPBadRequest "Invalid request")
  | Some (gpu, cpu) =>
      let? limit := CreateConcurrencyLimit (wk_Id workspace) gpu cpu orelse!
                      (HTTPInternalServerError "Failed to create concurrency limit") in
      let? _ := on_redis (SetConcurrencyLimitByWorkspaceId workspaceId limit) orelse recache_failed in
      done_ limit
  end.

(** The cache is written with nil, of which [ToSlice] panics. *)
Definition http_DeleteConcurrencyLimit (workspaceId : string) (cc : AuthInfo) : handled unit :=
  let? workspace := GetWorkspaceByExternalId workspaceId orelse! invalid_workspace in
  match wk_ConcurrencyLimitId workspace with
  | None => done_ tt
  | Some _ =>
      let? _ := DeleteConcurrencyLimit workspace orelse!
                  (HTTPInternalServerError "Failed to delete concurrency limit") in
      fail_ (HTTPPanic "reflect: call of reflect.Value.Type on zero Value")
  end.

Definition http_ListConcurrencyLimits (workspaceId : string) (cc : AuthInfo) : handled (list ConcurrencyLimit) :=
  let? limits := ListConcurrencyLimitsByWorkspaceId workspaceId orelse!
                   (HTTPInternalServerError "Failed to get concurrency limits") in
  done_ limits.

Definition latest_nonzero (limits : list ConcurrencyLimit) : option ConcurrencyLimit :=
  List.find (λ l, (0 <? cl_GPULimit l) && (0 <? cl_CPUMillicoreLimit l)) limits.

Definition http_RevertConcurrencyLimit (workspaceId : string) (cc : AuthInfo) : handled ConcurrencyLimit :=
  let? _ := GetWorkspaceByExternalId workspaceId orelse! invalid_workspace in
  let? limits := ListConcurrencyLimitsByWorkspaceId workspaceId orelse!
                   (HTTPInternalServerError "Failed to get concurrency limits") in
  match latest_nonzero limits with
  | None => fail_ (HTTPBadRequest "No non-zero concurrency limit found")
  | Some latest =>
      let? limit := RevertToConcurrencyLimit workspaceId (cl_ExternalId latest) orelse!
                      (HTTPInternalServerError "Failed to revert concurrency limit") in
      let? _ := on_redis (SetConcurrencyLimitByWorkspaceId workspaceId limit) orelse recache_failed in
      done_ limit
  end.

(** ** Workspaces (workspace.go) *)

Record storage_config := mkStorageConfig {
  sc_DefaultBucketPrefix : string;
  sc_DefaultAccessKey : string;
  sc_DefaultSecretKey : string;
  sc_DefaultEndpointUrl : string;
  sc_DefaultRegion : string;
}.

Definition WorkspaceBucketName (prefix workspaceExternalId : string) : string :=
  prefix +:+ "-" +:+ workspaceExternalId.

(** [created] and [validated]: the errors of the object storage for the bucket. *)
Definition setupDefaultWorkspaceStorage (config : storage_config) (created validated : option gerr)
    (bucketName : string) (workspaceId : Z) : DB WorkspaceStorage :=
  match created with
  | Some e => fail_ (DbErr e)
  | None =>
      match validated with
      | Some e => fail_ (DbErr e)
      | None =>
          Backend.CreateWorkspaceStorage EncryptionKey workspaceId
            (mkWorkspaceStorage None None (Some bucketName) (Some (sc_DefaultAccessKey config))
               (Some (sc_DefaultSecretKey config)) (Some (sc_DefaultEndpointUrl config))
               (Some (sc_DefaultRegion config)) None None)
      end
  end.

(** Without a token the context is nil.  [bound]: the body can be decoded. *)
Definition http_CreateWorkspace (config : storage_config) (created validated : option gerr) (bound : bool)
    (ctx : option AuthInfo) : handled (string * string) :=
  match ctx with
  | None => fail_ (HTTPPanic "invalid memory address or nil pointer dereference")
  | Some cc =>
      if negb (String.eqb (tk_TokenType (ai_Token cc)) TokenTypeClusterAdmin)
      then fail_ (HTTPUnauthorized "Invalid token")
      else if negb bound then fail_ (HTTPBadRequest "Invalid payload")
      else
        let? workspace := CreateWorkspace orelse! (HTTPInternalServerError "Unable to create workspace") in
        let? token := CreateToken (wk_Id workspace) TokenTypeWorkspacePrimary true orelse!
                        (HTTPInternalServerError "Unable to create workspace token") in
        let? _ := setupDefaultWorkspaceStorage config created validated
                    (WorkspaceBucketName (sc_DefaultBucketPrefix config) (wk_ExternalId workspace))
                    (wk_Id workspace) orelse! (HTTPInternalServerError "Unable to setup workspace storage") in
        done_ (wk_ExternalId workspace, tk_Key token)
  end.

Definition validateWorkspaceForStorageCreation (workspaceId : string) (cc : AuthInfo) : http_err + Workspace :=
  let workspace := ai_Workspace cc in
  if negb (String.eqb (wk_ExternalId workspace) workspaceId) then inl (HTTPUnauthorized "Invalid token for workspace")
  else if WorkspaceStorageAvailable workspace then inl (HTTPBadRequest "Workspace storage already exists")
  else inr workspace.

(** The token of the header is taken out of the cache, which holds the workspace without
    its storage. *)
Definition revokeTokenIfPresent (authHeader : string) : GM (gerr + unit) :=
  let tokenKey := TrimPrefix authHeader "Bearer " in
  if String.eqb tokenKey "" then done_ tt else on_redis (RevokeToken tokenKey).

Definition http_CreateWorkspaceStorage (config : storage_config) (created validated : option gerr)
    (workspaceId authHeader : string) (cc : AuthInfo) : handled WorkspaceStorage :=
  match validateWorkspaceForStorageCreation workspaceId cc with
  | inl e => fail_ e
  | inr workspace =>
      let? storage := setupDefaultWorkspaceStorage config created validated
                        (WorkspaceBucketName (sc_DefaultBucketPrefix config) (wk_ExternalId workspace))
                        (wk_Id workspace) orelse! (HTTPInternalServerError "Unable to create workspace storage") in
      let? _ := revokeTokenIfPresent authHeader orelse (HTTPInternalServerError "Unable to revoke token cache") in
      done_ storage
  end.

(** [bound]: bucket, keys, endpoint and region of the body; each is required. *)
Definition missing_fields (r : string * string * string * string * string) : list string :=
  let '(bucket, access, secret, endpoint, region) := r in
  omap (λ p, if String.eqb p.2 "" then Some p.1 else None)
    [("BucketName", bucket); ("AccessKey", access); ("SecretKey", secret); ("EndpointUrl", endpoint);
     ("Region", region)].

(** [client]: the error of making a client; [access]: of validating the access. *)
Definition SetExternalWorkspaceStorage (client access : option gerr) (workspaceId authHeader : string)
    (bound : option (string * string * string * string * string)) (cc : AuthInfo) : handled WorkspaceStorage :=
  match validateWorkspaceForStorageCreation workspaceId cc with
  | inl e => fail_ e
  | inr workspace =>
      match bound with
      | None => fail_ (HTTPBadRequest "Invalid payload")
      | Some r =>
          match missing_fields r with
          | _ :: _ => fail_ (HTTPBadRequest ("Missing required fields: " +:+ Join (missing_fields r) ", "))
          | [] =>
              let '(bucket, accessKey, secretKey, endpoint, region) := r in
              match client, access with
              | Some _, _ => fail_ (HTTPInternalServerError "Unable to create workspace storage")
              | None, Some e => fail_ (HTTPInternalServerError ("Unable to access bucket: " +:+ Error e))
              | None, None =>
                  let? storage := Backend.CreateWorkspaceStorage EncryptionKey (wk_Id workspace)
                    (mkWorkspaceStorage None None (Some bucket) (Some accessKey) (Some secretKey) (Some endpoint)
                       (Some region) None None) orelse!
                    (HTTPInternalServerError "Unable to create workspace storage") in
                  let? _ := revokeTokenIfPresent authHeader orelse
                              (HTTPInternalServerError "Unable to revoke token cache") in
                  done_ storage
              end
          end
      end
  end.

(** ** Secrets over HTTP (secret/http.go) *)

Definition invalid_workspace_id : http_err := HTTPError 400 "invalid workspace ID".

(** [bound]: name and value of the body. *)
Definition http_CreateSecret (workspaceId : string) (bound : option (string * string)) (cc : AuthInfo)
    : handled Secret :=
  let? workspace := GetWorkspaceByExternalIdWithSigningKey workspaceId orelse! invalid_workspace_id in
  match bound with
  | None => fail_ (HTTPError 400 "invalid secret")
  | Some (name, value) =>
      catch (CreateSecret workspace (tk_Id (ai_Token cc)) name value true)
        (λ e, if unique_violation e then HTTPError 409 "secret already exists"
              else or_panic (HTTPError 500 "failed to create secret") e) done_
  end.

Definition http_GetSecret (workspaceId secretName : string) (cc : AuthInfo) : handled Secret :=
  let? workspace := GetWorkspaceByExternalIdWithSigningKey workspaceId orelse! invalid_workspace_id in
  let? secret := GetSecretByNameDecrypted workspace secretName orelse! (HTTPError 404 "secret not found") in
  done_ secret.

Definition http_ListSecrets (workspaceId : string) (cc : AuthInfo) : handled (list Secret) :=
  let? workspace := GetWorkspaceByExternalIdWithSigningKey workspaceId orelse! invalid_workspace_id in
  let? secrets := ListSecrets workspace orelse! (HTTPError 500 "failed to list secret") in
  done_ secrets.

Definition http_UpdateSecret (workspaceId secretName : string) (bound : option (string * string)) (cc : AuthInfo)
    : handled Secret :=
  let? workspace := GetWorkspaceByExternalIdWithSigningKey workspaceId orelse! invalid_workspace_id in
  match bound with
  | None => fail_ (HTTPError 400 "invalid secret")
  | Some (_, value) =>
      let? secret := UpdateSecret workspace (tk_Id (ai_Token cc)) secretName value orelse!
                       (HTTPError 500 "failed to update secret") in
      done_ secret
  end.

Definition http_DeleteSecret (workspaceId secretName : string) (cc : AuthInfo) : handled unit :=
  let? workspace := GetWorkspaceByExternalIdWithSigningKey workspaceId orelse! invalid_workspace_id in
  let? _ := DeleteSecret workspace secretName orelse! (HTTPError 500 "failed to delete secret") in
  done_ tt.

(** ** gRPC calls *)

(** *** Tokens (services/token.go) *)

Definition grpc_ListTokens (authInfo : AuthInfo) : called (list Token) :=
  permitted authInfo (respond (λ _, "Unable to list tokens.") (ListTokens (wk_Id (ai_Workspace authInfo)))).

Definition grpc_CreateToken (authInfo : AuthInfo) (TokenType : string) : called Token :=
  permitted authInfo
    (let tokenType := if String.eqb TokenType "" then TokenTypeWorkspace else TokenType in
     if negb (String.eqb tokenType TokenTypeWorkspace) && negb (String.eqb tokenType TokenTypeWorkspaceRestricted)
     then done_ (NotOk "Invalid token type. Allowed types: workspace, workspace_restricted")
     else respond (λ _, "Unable to create token.") (CreateToken (wk_Id (ai_Workspace authInfo)) tokenType true)).

Definition grpc_ToggleToken (authInfo : AuthInfo) (tokenId : string) : called Token :=
  permitted authInfo
    (respond (λ _, "Unable to toggle token.") (ToggleToken (wk_Id (ai_Workspace authInfo)) tokenId)).

Definition grpc_DeleteToken (authInfo : AuthInfo) (tokenId : string) : called unit :=
  permitted authInfo
    (respond (λ _, "Unable to delete token.") (DeleteToken (wk_Id (ai_Workspace authInfo)) tokenId)).

(** *** The first token of a cluster (services/auth.go) *)

(** The identifier of the workspace and, in a new cluster, the key of its first token. *)
Definition Authorize (ctx : option AuthInfo) : called (string * string) :=
  match ctx with
  | Some authInfo => done_ (Ok (wk_ExternalId (ai_Workspace authInfo), ""))
  | None =>
      ListWorkspaces ≫= λ workspaces,
      match workspaces with
      | inr [] =>
          CreateWorkspace ≫= λ workspace,
          match workspace with
          | inl e => if is_panic e then fail_ GrpcPanic else done_ (NotOk "Failed to create new workspace")
          | inr workspace =>
              CreateToken (wk_Id workspace) TokenTypeClusterAdmin true ≫= λ token,
              match token with
              | inl _ => done_ (NotOk "Failed to create new token")
              | inr token =>
                  CreateToken (wk_Id workspace) TokenTypeWorkspacePrimary true ≫= λ primary,
                  match primary with
                  | inl _ => done_ (NotOk "Failed to create new workspace primary token")
                  | inr _ => done_ (Ok (wk_ExternalId workspace, tk_Key token))
                  end
              end
          end
      | _ => done_ (NotOk "Invalid token")
      end
  end.

Definition grpc_SignPayload (hmac_sha256_hex : string -> string -> string) (now : Z) (ctx : option AuthInfo)
    (payload : string) : reply (string * Z) :=
  match ctx with
  | None => NotOk "Invalid token"
  | Some authInfo =>
      match wk_SigningKey (ai_Workspace authInfo) with
      | None => NotOk "Invalid signing key"
      | Some key =>
          if String.eqb key "" then NotOk "Invalid signing key"
          else Ok (SignPayload hmac_sha256_hex now payload key)
      end
  end.

(** *** Secrets (secret/secret.go) *)

Definition handleErrMsg (e : dberr) : string :=
  match e with
  | Pq _ _ => if unique_violation e then "Secret already exists" else "Failed to create secret"
  | NoRows => "Secret not found"
  | _ => db_Error e
  end.

Definition grpc_CreateSecret (authInfo : AuthInfo) (name value : string) : called string :=
  permitted authInfo
    (respond handleErrMsg
       (let? secret := CreateSecret (ai_Workspace authInfo) (tk_Id (ai_Token authInfo)) name value true in
        done_ (se_Name secret))).

(** There is no check of the permission. *)
Definition grpc_GetSecret (authInfo : AuthInfo) (name : string) : called Secret :=
  respond handleErrMsg (GetSecretByNameDecrypted (ai_Workspace authInfo) name).

Definition grpc_ListSecrets (authInfo : AuthInfo) : called (list Secret) :=
  permitted authInfo (respond handleErrMsg (ListSecrets (ai_Workspace authInfo))).

Definition grpc_UpdateSecret (authInfo : AuthInfo) (name value : string) : called unit :=
  permitted authInfo
    (respond handleErrMsg
       (let? _ := UpdateSecret (ai_Workspace authInfo) (tk_Id (ai_Token authInfo)) name value in done_ tt)).

Definition grpc_DeleteSecret (authInfo : AuthInfo) (name : string) : called unit :=
  permitted authInfo (respond handleErrMsg (DeleteSecret (ai_Workspace authInfo) name)).
End handlers.
