(* ===== verification/TaskApi.v ===== *)
(** * Handlers for tasks and containers

    pkg/api/v1/task.go and container.go, pkg/gateway/services/task.go and container.go:
    starting, ending, stopping and reading tasks, and reading and stopping containers.  The
    cost of a task and the storage of its result are arguments. *)

From S2P Require Import Prelude GoStd Redis Keys Types Codec Env RequestBuffer Lock ContainerRepo WorkerRepo Scheduler TaskRepo Dispatcher TaskQueue Postgres Crypto Backend Auth Api.

Local Open Scope Z_scope.
Set Default Proof Using "Type".

Section task_handlers.
Context {P : PgWorld} {C : AesGcm} {SS : SchedulerServices} (EncryptionKey : string).

(** ** Tasks over HTTP (task.go) *)

Definition with_end (status : string) (now : Z) (x : Task) : Task :=
  mkTask (ta_Id x) (ta_ExternalId x) status (ta_ContainerId x) (ta_StartedAt x) (Some now) (ta_WorkspaceId x)
    (ta_ExternalWorkspaceId x) (ta_StubId x) (ta_AppId x) (ta_CreatedAt x) (ta_UpdatedAt x).

Definition hasTaskAccess (task : TaskWithRelated) (authInfo : AuthInfo) : bool :=
  (ta_WorkspaceId (twr_Task task) =? wk_Id (ai_Workspace authInfo)) ||
  bool_decide (ta_ExternalWorkspaceId (twr_Task task) = Some (wk_Id (ai_Workspace authInfo))).

(** The task that the response is made of; its outputs, statistics and result are read
    afterwards. *)
Definition RetrieveTask (taskId : string) (cc : AuthInfo) : handled TaskWithRelated :=
  let? task := GetTaskWithRelated taskId orelse! (HTTPInternalServerError "Failed to retrieve task") in
  match task with
  | None => fail_ HTTPNotFound
  | Some task => if hasTaskAccess task cc then done_ task else fail_ HTTPNotFound
  end.

(** The check at the start of [SubscribeTask]: the external workspace is dereferenced
    when the workspace is another one. *)
Definition subscribe_access (taskId : string) (cc : AuthInfo) : handled TaskWithRelated :=
  if String.eqb taskId "" then fail_ (HTTPBadRequest "Missing task ID")
  else
    let? task := GetTaskWithRelated taskId orelse! (HTTPInternalServerError "Failed to retrieve task") in
    match task with
    | None => fail_ HTTPNotFound
    | Some task =>
        if ta_WorkspaceId (twr_Task task) =? wk_Id (ai_Workspace cc) then done_ task
        else
          match ta_ExternalWorkspaceId (twr_Task task) with
          | None => fail_ (HTTPPanic "invalid memory address or nil pointer dereference")
          | Some id => if id =? wk_Id (ai_Workspace cc) then done_ task else fail_ HTTPNotFound
          end
    end.

Definition publish_cancel (workspaceName stubId taskId : string) : M unit :=
  rcall (λ e, e) (CPublish (TaskCancel workspaceName stubId taskId) taskId) ;; ok tt.

(** [now]: the time of the end, [nowS]: the Unix time. *)
Definition http_stopTask (now nowS : Z) (task : TaskWithRelated) : GM (gerr + unit) :=
  let x := twr_Task task in
  let stub := st_ExternalId (twr_Stub task) in
  if IsCompleted (ta_Status x) then done_ tt
  else
    let? _ := on_redis (Complete (twr_Workspace task).2 stub (ta_ExternalId x)) orelse
                (EMsg "failed to complete task") in
    let? _ := on_redis (publish_cancel (twr_Workspace task).2 stub (ta_ExternalId x)) orelse
                (EMsg "failed to cancel task") in
    (if String.eqb (Kind (st_Type (twr_Stub task))) "function" && negb (String.eqb (ta_ContainerId x) "")
     then on_redis (Stop nowS (mkStopContainerArgs (ta_ContainerId x) true "USER")) else done_ tt) ≫= λ _,
    let? _ := UpdateTask (ta_ExternalId x) (with_end "CANCELLED" now x) orelse (EMsg "failed to update task") in
    done_ tt.

(** The workspace of the path is not compared with that of a task. *)
Fixpoint http_StopTasks (now nowS : Z) (taskIds : list string) (cc : AuthInfo) : handled unit :=
  match taskIds with
  | [] => done_ tt
  | taskId :: rest =>
      GetTaskWithRelated taskId ≫= λ r,
      match r with
      | inr (Some task) => http_stopTask now nowS task ≫= λ _, http_StopTasks now nowS rest cc
      | _ => http_StopTasks now nowS rest cc
      end
  end.

(** ** Tasks over gRPC (services/task.go) *)

Definition grpc_stopTask (now : Z) (authInfo : AuthInfo) (task : TaskWithRelated) : GM (gerr + unit) :=
  let x := twr_Task task in
  let stub := st_ExternalId (twr_Stub task) in
  if IsCompleted (ta_Status x) then done_ tt
  else
    let? _ := on_redis (Complete (twr_Workspace task).2 stub (ta_ExternalId x)) orelse
                (EMsg "failed to complete task") in
    let? _ := on_redis (publish_cancel (wk_Name (ai_Workspace authInfo)) stub (ta_ExternalId x)) orelse
                (EMsg "failed to cancel task") in
    let? _ := UpdateTask (ta_ExternalId x) (with_end "CANCELLED" now x) orelse (EMsg "failed to update task") in
    done_ tt.

Fixpoint stop_tasks (now : Z) (authInfo : AuthInfo) (taskIds : list string) : called unit :=
  match taskIds with
  | [] => done_ (Ok tt)
  | taskId :: rest =>
      GetTaskWithRelated taskId ≫= λ r,
      match r with
      | inl e => done_ (NotOk (db_Error e))
      | inr None => done_ (NotOk "Task not found")
      | inr (Some task) =>
          if negb (String.eqb (twr_Workspace task).1 (wk_ExternalId (ai_Workspace authInfo)))
          then done_ (NotOk "Invalid workspace ID")
          else
            grpc_stopTask now authInfo task ≫= λ r,
            match r with
            | inl e => done_ (NotOk (Error e))
            | inr _ => stop_tasks now authInfo rest
            end
      end
  end.

Definition grpc_StopTasks (now : Z) (ctx : option AuthInfo) (taskIds : list string) : called unit :=
  match ctx with
  | None => done_ (NotOk "Invalid token")
  | Some authInfo => stop_tasks now authInfo taskIds
  end.

Definition with_start (containerId : string) (now : Z) (x : Task) : Task :=
  mkTask (ta_Id x) (ta_ExternalId x) "RUNNING"
    (if String.eqb containerId "" then ta_ContainerId x else containerId) (Some now) (ta_EndedAt x)
    (ta_WorkspaceId x) (ta_ExternalWorkspaceId x) (ta_StubId x) (ta_AppId x) (ta_CreatedAt x) (ta_UpdatedAt x).

(** The response is only whether it succeeded. *)
Definition StartTask (now : Z) (authInfo : AuthInfo) (taskId containerId : string) : GM bool :=
  if negb (HasPermission authInfo) then mret false
  else
    GetTaskWithRelated taskId ≫= λ r,
    match r with
    | inr (Some task) =>
        if negb (String.eqb (twr_Workspace task).1 (wk_ExternalId (ai_Workspace authInfo))) then mret false
        else if IsCompleted (ta_Status (twr_Task task)) then mret false
        else
          let x := with_start containerId now (twr_Task task) in
          on_redis (Claim (twr_Workspace task).2 (st_ExternalId (twr_Stub task)) (ta_ExternalId x) (ta_ContainerId x))
          ≫= λ r,
          match r with
          | inl _ => mret false
          | inr _ =>
              UpdateTask (ta_ExternalId x) x ≫= λ r,
              mret (match r with inl _ => false | inr _ => true end)
          end
    | _ => mret false
    end.

(** [cost]: the error of tracking the cost of a task of another workspace, whose
    workspace is read first; the result of the task is stored elsewhere. *)
Definition EndTask (now : Z) (cost : option gerr) (authInfo : AuthInfo)
    (taskId containerId taskStatus : string) : GM bool :=
  if negb (HasPermission authInfo) then mret false
  else
    GetTaskWithRelated taskId ≫= λ r,
    match r with
    | inr (Some task) =>
        let x := twr_Task task in
        if negb (String.eqb (twr_Workspace task).1 (wk_ExternalId (ai_Workspace authInfo))) then mret false
        else if IsCompleted (ta_Status x) then mret true
        else
          (match ta_ExternalWorkspaceId x with
           | None => mret true
           | Some id =>
               GetWorkspace EncryptionKey id ≫= λ w,
               mret (match w, cost with inr _, None => true | _, _ => false end)
           end) ≫= λ tracked : bool,
          if negb tracked then mret false
          else
            let ended := with_end taskStatus now
              (mkTask (ta_Id x) (ta_ExternalId x) (ta_Status x)
                 (if String.eqb containerId "" then ta_ContainerId x else containerId) (ta_StartedAt x)
                 (ta_EndedAt x) (ta_WorkspaceId x) (ta_ExternalWorkspaceId x) (ta_StubId x) (ta_AppId x)
                 (ta_CreatedAt x) (ta_UpdatedAt x)) in
            on_redis (Complete (twr_Workspace task).2 (st_ExternalId (twr_Stub task)) taskId) ≫= λ r,
            match r with
            | inl _ => mret false
            | inr _ =>
                UpdateTask (ta_ExternalId x) ended ≫= λ r,
                mret (match r with inl _ => false | inr _ => true end)
            end
    | _ => mret false
    end.

(** ** Containers over HTTP (container.go) *)

Definition GetContainerAsAdmin (containerId : string) (cc : AuthInfo) : handled ContainerState :=
  let? state := on_redis (GetContainerState containerId) orelse (HTTPBadRequest "Invalid container id") in
  done_ state.

Definition GetContainer (workspaceId containerId : string) (cc : AuthInfo) : handled ContainerState :=
  let? state := on_redis (GetContainerState containerId) orelse (HTTPBadRequest "Invalid container id") in
  if negb (String.eqb (cs_WorkspaceId state) workspaceId) then fail_ (HTTPBadRequest "Invalid workspace id")
  else done_ state.

(** A container that cannot be stopped is logged. *)
Fixpoint stop_all (nowS : Z) (states : list ContainerState) : prog unit :=
  match states with
  | [] => Ret tt
  | state :: rest =>
      (_ <~ Stop nowS (mkStopContainerArgs (cs_ContainerId state) false "") ;; stop_all nowS rest)
  end.

Definition StopAllWorkspaceContainers (nowS : Z) (workspaceId : string) (cc : AuthInfo) : handled unit :=
  let? states := on_redis (GetActiveContainersByWorkspaceId workspaceId) orelse
                   (HTTPInternalServerError "Failed to stop containers") in
  on_redis (stop_all nowS states) ≫= λ _, done_ tt.

Definition http_StopContainer (nowS : Z) (workspaceId containerId : string) (force : bool) (cc : AuthInfo)
    : handled unit :=
  let? state := on_redis (GetContainerState containerId) orelse (HTTPBadRequest "Invalid container id") in
  if negb (String.eqb (cs_WorkspaceId state) workspaceId) then fail_ (HTTPBadRequest "Invalid workspace id")
  else
    catch (on_redis (Stop nowS (mkStopContainerArgs containerId force "")))
      (λ e, if Contains (Error e) "event already exists" then HTTPConflict "Container is already stopping"
            else HTTPInternalServerError "Failed to stop container") done_.

(** The apps of stubs that were looked up already are remembered. *)
Fixpoint with_apps (states : list ContainerState) (known : gmap string string)
    : handled (list (ContainerState * string)) :=
  match states with
  | [] => done_ []
  | state :: rest =>
      match known !! cs_StubId state with
      | Some appId =>
          let? l := with_apps rest known in done_ ((state, appId) :: l)
      | None =>
          let? app := RetrieveAppByStubExternalId (cs_StubId state) orelse!
                        (HTTPInternalServerError "Failed to get app") in
          let? l := with_apps rest (<[cs_StubId state := ap_ExternalId app]> known) in
          done_ ((state, ap_ExternalId app) :: l)
      end
  end.

Definition ListContainersByWorkspaceId (workspaceId : string) (cc : AuthInfo)
    : handled (list (ContainerState * string)) :=
  let? states := on_redis (GetActiveContainersByWorkspaceId workspaceId) orelse
                   (HTTPInternalServerError "Failed to get containers") in
  with_apps states ∅.

(** ** Containers over gRPC (services/container.go) *)

(** [isClusterAdmin] of the context. *)
Definition isClusterAdmin (authInfo : AuthInfo) : bool :=
  String.eqb (tk_TokenType (ai_Token authInfo)) TokenTypeClusterAdmin.

Definition grpc_StopContainer (nowS : Z) (authInfo : AuthInfo) (containerId : string) : called unit :=
  on_redis (GetContainerState containerId) ≫= λ r,
  match r with
  | inl _ => done_ (NotOk ("Container not found: " +:+ containerId))
  | inr state =>
      if negb (String.eqb (cs_WorkspaceId state) (wk_ExternalId (ai_Workspace authInfo))) &&
         negb (isClusterAdmin authInfo)
      then done_ (NotOk ("Container not found: " +:+ containerId))
      else
        on_redis (Stop nowS (mkStopContainerArgs containerId false "USER")) ≫= λ r,
        match r with
        | inl _ => done_ (NotOk ("Unable to stop container: " +:+ containerId))
        | inr _ => done_ (Ok tt)
        end
  end.
End task_handlers.
