(* ===== verification/AuthProps.v ===== *)
(** * What the authentication of requests guarantees

    The database, the cache of tokens, the middleware and the handlers of tokens together:
    a request is served only in the name of a token that is usable in the database at that
    moment, and a token that was taken away is refused from then on. *)

From S2P Require Import Prelude GoStd Redis Keys Types Codec Env Postgres Crypto Backend AuthCache Auth Api.

Local Open Scope Z_scope.
Set Default Proof Using "Type".

#[export] Instance WorkspaceAuthorizedToken_inj : Inj (=) (=) WorkspaceAuthorizedToken.
Proof.
  intros a b E. unfold WorkspaceAuthorizedToken, workspaceAuthorizedToken in E. simpl in E.
  simplify_eq. by rewrite !str_app_nil_r in *.
Qed.

Lemma token_type_ascii ty : ty ∈ token_types -> ascii_only ty = true.
Proof. unfold token_types. rewrite !elem_of_cons, elem_of_nil. by intuition subst. Qed.

(** A row that a request may be served for: not disabled, and active, unless it is that of
    a token that is not reusable: its first use makes the row inactive, and its cached
    copy stays accepted. *)
Definition in_force (row : Token) : bool :=
  negb (tk_DisabledByClusterAdmin row) && (tk_Active row || negb (tk_Reusable row)).

Lemma usable_in_force row : usable row = true -> in_force row = true.
Proof. unfold usable, in_force. by destruct (tk_Active row), (tk_DisabledByClusterAdmin row). Qed.

(** [k] and [w] are what the database says of a token with this key that is in force. *)
Definition authentic (t : tables) (key : string) (k : Token) (w : Workspace) : Prop :=
  exists row w0,
    row ∈ rows (t_token t) /\ tk_Key row = key /\ in_force row = true /\
    tk_Id row = tk_Id k /\ tk_TokenType row = tk_TokenType k /\
    workspace_of t (tk_WorkspaceId row) = Some w0 /\
    wk_Id w0 = wk_Id w /\ wk_ExternalId w0 = wk_ExternalId w.

(** The ids and the external ids of tokens are unique, the latter are UUIDs (constraints of
    the table), the sequence of the ids is ahead of them, and the types of tokens are those
    of the column. *)
Record db_ok {P : PgWorld} (t : tables) : Prop := {
  ok_token_ids : NoDup (map tk_ExternalId (rows (t_token t)));
  ok_canonical : forall k, k ∈ rows (t_token t) -> uuid_in (tk_ExternalId k) = Some (tk_ExternalId k);
  ok_ids : NoDup (map tk_Id (rows (t_token t)));
  ok_next : forall k, k ∈ rows (t_token t) -> tk_Id k < next_id (t_token t);
  ok_types : forall k, k ∈ rows (t_token t) -> tk_TokenType k ∈ token_types;
  ok_workspace_ids : forall w, w ∈ rows (t_workspace t) -> ascii_only (wk_ExternalId w) = true;
}.

(** A column whose values differ determines the row. *)
Lemma unique_by {A B} (f : A -> B) (l : list A) a b :
  NoDup (map f l) -> a ∈ l -> b ∈ l -> f a = f b -> a = b.
Proof.
  induction l as [|x l IH]; simpl; [intros _ Ha; by apply not_elem_of_nil in Ha|].
  intros Hd Ha Hb E. apply NoDup_cons in Hd as [Hx Hd].
  assert (forall y, y ∈ l -> f y ∈ map f l) as Hin by (intros y Hy; apply list_elem_of_fmap; eauto).
  apply elem_of_cons in Ha as [->|Ha]; apply elem_of_cons in Hb as [->|Hb]; [done|..].
  - exfalso. apply Hx. rewrite E. by apply Hin.
  - exfalso. apply Hx. rewrite <- E. by apply Hin.
  - by apply IH.
Qed.

Lemma NoDup_map_filter {A B} (f : A -> B) (p : A -> bool) l : NoDup (map f l) -> NoDup (map f (List.filter p l)).
Proof.
  induction l as [|x l IH]; simpl; [done|]. intros [Hx Hd]%NoDup_cons. destruct (p x); simpl; [|by apply IH].
  constructor; [|by apply IH]. intros Hin. apply Hx. apply list_elem_of_fmap in Hin as (y & -> & Hy).
  apply elem_filter_b in Hy as [Hy _]. apply list_elem_of_fmap. eauto.
Qed.

Lemma elem_map_if {R} (p : R -> bool) (f : R -> R) l x :
  x ∈ l -> (if p x then f x else x) ∈ map (λ r, if p r then f r else r) l.
Proof. intros H. apply (list_elem_of_fmap (λ r, if p r then f r else r)). eauto. Qed.

Section auth_props.
Context {P : PgWorld} {PL : PgLaws P} {C : AesGcm} {J : AuthJson} {JL : AuthJsonLaws J} (EncryptionKey : string).

(** Every usable token of the cache is usable in the database. *)
Definition coherent (t : tables) (d : rdb) : Prop :=
  forall key v, kv d !! WorkspaceAuthorizedToken key = Some v ->
    exists s, v = RVStr s /\
      forall k w, unmarshal_auth s = inr (Some k, Some w) -> usable k = true -> authentic t key k w.

(** ** The cache *)

Lemma rwp_cached t key d L (Q : gerr + Token * Workspace -> rdb -> lmap -> Prop) :
  coherent t d ->
  (forall r, (forall k w, r = inr (k, w) -> usable k = true -> authentic t key k w) -> Q r d L) ->
  rwp (AuthCache.AuthorizeToken key) Q d L.
Proof using Type.
  intros Hc HQ. unfold AuthCache.AuthorizeToken. apply wp_mbind. apply wp_rcall.
  - intros r d' [Hr ->]. destruct (kv d !! WorkspaceAuthorizedToken key) as [v|] eqn:E.
    + destruct (Hc _ _ E) as (s & -> & Hs). simpl in Hr. injection Hr as <-.
      destruct (String.eqb s ""); [by apply wp_Ret, HQ|].
      destruct (unmarshal_auth s) as [e|[[k|] [w|]]] eqn:Hu; apply wp_Ret, HQ; try done.
      intros k' w' [= <- <-] Hk. by eapply Hs.
    + injection Hr as <-. by apply wp_Ret, HQ.
  - intros e d' [-> Hno]. apply HQ. done.
Qed.

Lemma coherent_del t d key : coherent t d -> coherent t (del_kv (WorkspaceAuthorizedToken key) d).
Proof using Type.
  intros Hc key' v. simpl. intros H. apply lookup_delete_Some in H as [_ H]. by apply Hc.
Qed.

Lemma rwp_RevokeToken key d L (Q : gerr + unit -> rdb -> lmap -> Prop) :
  Q (inr tt) (del_kv (WorkspaceAuthorizedToken key) d) L -> rwp (RevokeToken key) Q d L.
Proof using Type.
  intros HQ. unfold RevokeToken. apply wp_mbind. apply wp_rcall.
  - intros r d' ->. by apply wp_Ret.
  - intros e d' [_ Hno]. exfalso. by apply (Hno 1 (foldr del_kv d [WorkspaceAuthorizedToken key])).
Qed.

(** ** The database *)

Lemma decrypt_storage_same w p :
  exists r, decrypt_storage EncryptionKey w p = Ret (r, p) /\
    forall w', r = inr w' -> wk_Id w' = wk_Id w /\ wk_ExternalId w' = wk_ExternalId w.
Proof using Type.
  unfold decrypt_storage. destruct (wk_Storage w) as [s|]; [|eexists; split; [done|]; by intros ? [= <-]].
  destruct (WorkspaceStorageAvailable w); [|eexists; split; [done|]; by intros ? [= <-]].
  destruct (decryptFields EncryptionKey s); eexists; (split; [done|]); [done|]. by intros ? [= <-].
Qed.

Lemma elem_auth_rows t key k :
  k ∈ auth_rows key t ->
  exists row w, row ∈ rows (t_token t) /\ tk_Key row = key /\ tk_Active row = true /\
    workspace_of t (tk_WorkspaceId row) = Some w /\ auth_row t row = Some k /\
    tk_Workspace k = Some (auth_workspace t w).
Proof using Type.
  unfold auth_rows. intros H. apply list_elem_of_omap in H as (row & Hrow & Hk).
  apply elem_filter_b in Hrow as [Hrow Hp]. apply andb_true_iff in Hp as [Hkey Ha].
  apply String.eqb_eq in Hkey. unfold auth_row in Hk.
  destruct (workspace_of t (tk_WorkspaceId row)) as [w|] eqn:Ew; [|done].
  exists row, w. split_and!; try done; unfold auth_row; rewrite ?Ew; [done|]. simpl in Hk. by injection Hk as <-.
Qed.

(** The first use of a token that is not reusable makes its row inactive. *)
Definition spend (id : Z) (t : tables) : tables :=
  set_tokens t (update_rows (λ k, tk_Id k =? id) (set_active false) (t_token t)).2.

Definition used (t t' : tables) : Prop :=
  t' = t \/ exists row, row ∈ rows (t_token t) /\ tk_Reusable row = false /\ t' = spend (tk_Id row) t.

(** The row of a token, before and after a use of another or of this one. *)
Lemma elem_spend id t row :
  row ∈ rows (t_token t) -> (if tk_Id row =? id then set_active false row else row) ∈ rows (t_token (spend id t)).
Proof using Type. intros H. by apply (elem_map_if (λ k, tk_Id k =? id)). Qed.

Lemma used_row t t' row :
  used t t' -> row ∈ rows (t_token t) ->
  exists row', row' ∈ rows (t_token t') /\ tk_ExternalId row' = tk_ExternalId row /\ tk_Key row' = tk_Key row.
Proof using Type.
  intros [->|(x & _ & _ & ->)] Hrow; [eauto|]. eexists. split; [by apply elem_spend|]. by destruct (_ =? _).
Qed.

Lemma used_keys t t' : used t t' -> map tk_Key (rows (t_token t')) = map tk_Key (rows (t_token t)).
Proof using Type.
  intros [->|(x & _ & _ & ->)]; [done|]. simpl. rewrite map_map. apply map_ext. intros k. by destruct (_ =? _).
Qed.

Lemma used_workspace t t' : used t t' -> t_workspace t' = t_workspace t.
Proof using Type. by intros [->|(x & _ & _ & ->)]. Qed.

(** What holds between requests. *)
Definition good (p : pg) (d : rdb) : Prop := calm p /\ db_ok (pg_tables p) /\ coherent (pg_tables p) d.

(** The same token in the eyes of a cached entry. *)
Definition survives (t' : tables) (row : Token) : Prop :=
  exists row', row' ∈ rows (t_token t') /\ tk_Key row' = tk_Key row /\ in_force row' = true /\
    tk_Id row' = tk_Id row /\ tk_TokenType row' = tk_TokenType row /\ tk_WorkspaceId row' = tk_WorkspaceId row.

Lemma coherent_step t t' d d' :
  coherent t d -> t_workspace t' = t_workspace t ->
  (forall key v, kv d' !! WorkspaceAuthorizedToken key = Some v ->
     kv d !! WorkspaceAuthorizedToken key = Some v /\
     forall row, row ∈ rows (t_token t) -> tk_Key row = key -> in_force row = true -> survives t' row) ->
  coherent t' d'.
Proof using Type.
  intros Hc Hw Hstep key v Hv. destruct (Hstep _ _ Hv) as [Hv0 Hs]. destruct (Hc _ _ Hv0) as (s & -> & Hk).
  exists s. split; [done|]. intros k w Hu Huse.
  destruct (Hk k w Hu Huse) as (row & w0 & Hrow & Hkey & Huse0 & Hid & Hty & Hww & Hwi & Hwe).
  destruct (Hs row Hrow Hkey Huse0) as (row' & Hr' & Hkey' & Huse' & Hid' & Hty' & Hwid').
  exists row', w0. split_and!; try congruence. unfold workspace_of in *. by rewrite Hw, Hwid'.
Qed.

(** An update that leaves the identity of tokens alone. *)
Lemma db_ok_update (p : Token -> bool) f t :
  (forall k, tk_ExternalId (f k) = tk_ExternalId k /\ tk_Id (f k) = tk_Id k /\
             tk_TokenType (f k) = tk_TokenType k) ->
  db_ok t -> db_ok (set_tokens t (update_rows p f (t_token t)).2).
Proof using Type.
  intros Hf [H1 Hc H2 Hn H3 H4].
  assert (forall k, k ∈ rows (t_token (set_tokens t (update_rows p f (t_token t)).2)) ->
    exists k0, k0 ∈ rows (t_token t) /\ tk_ExternalId k = tk_ExternalId k0 /\ tk_Id k = tk_Id k0 /\
      tk_TokenType k = tk_TokenType k0) as Hin.
  { simpl. intros k Hk. apply list_elem_of_fmap in Hk as (k0 & -> & Hk0). exists k0. split; [done|].
    destruct (p k0); [apply Hf|done]. }
  split; try done; try (intros k Hk; destruct (Hin k Hk) as (k0 & Hk0 & E1 & E2 & E3); rewrite ?E1, ?E2, ?E3; by auto);
    simpl; rewrite map_map; (erewrite map_ext; [first [exact H1|exact H2]|]); intros k; simpl; by destruct (p k); [apply Hf|].
Qed.

(** Rows that a statement leaves alone survive it. *)
Lemma survives_update p f t row :
  row ∈ rows (t_token t) -> in_force row = true -> p row = false ->
  survives (set_tokens t (update_rows p f (t_token t)).2) row.
Proof using Type.
  intros Hrow Hu Hp. exists row. split_and!; try done. simpl.
  pose proof (elem_map_if p f _ _ Hrow) as H. by rewrite Hp in H.
Qed.
Lemma good_used p p' d : good p d -> calm p' -> used (pg_tables p) (pg_tables p') -> good p' d.
Proof using Type.
  intros (Hc & Hok & Hco) Hc' [E|(x & Hx & Hre & E)]; (split; [done|]); rewrite E; [done|].
  split; [by apply db_ok_update|]. eapply coherent_step; [exact Hco|done|]. intros key v Hv. split; [done|].
  intros row Hrow _ Hf. destruct (tk_Id row =? tk_Id x) eqn:E0; [|by apply survives_update].
  assert (row = x) as -> by (apply Z.eqb_eq in E0; eapply (unique_by tk_Id); [apply (ok_ids _ Hok)|done..]).
  exists (set_active false x). split_and!; try done.
  - pose proof (elem_spend (tk_Id x) _ _ Hx) as H. by rewrite Z.eqb_refl in H.
  - apply andb_true_iff in Hf as [Hd _]. unfold in_force. simpl. by rewrite Hd, Hre.
Qed.

(** What the query of the database answers describes a row that was active. *)
Lemma gwp_AuthorizeToken key p d L (Q : dberr + Token * Workspace -> pg -> rdb -> lmap -> Prop) :
  calm p -> db_ok (pg_tables p) ->
  (forall r p', calm p' -> used (pg_tables p) (pg_tables p') ->
     (forall k w, r = inr (k, w) ->
        tk_Key k = key /\ tk_TokenType k ∈ token_types /\ ascii_only (wk_ExternalId w) = true /\
        (usable k = true -> authentic (pg_tables p') key k w) /\
        exists row, row ∈ rows (t_token (pg_tables p)) /\ tk_Key row = key /\ tk_Active row = true) -> Q r p' d L) ->
  gwp (@stuck) (Backend.AuthorizeToken EncryptionKey key) Q p d L.
Proof using Type.
  intros Hc Hok HQ. unfold Backend.AuthorizeToken. apply gwp_catch, gwp_select; [done|]. intros p' Hc' E.
  assert (used (pg_tables p) (pg_tables p')) as Hsame by by left.
  unfold texts. destruct (forallb text_ok [key]); [|by apply HQ].
  destruct (get_row (auth_rows key (pg_tables p))) as [e|k] eqn:Eg; [by apply HQ|].
  apply get_row_inr, elem_auth_rows in Eg as (row & w & Hrow & Hkey & Hact & Hw & Hk & Hkw).
  rewrite Hkw. apply gwp_catch.
  destruct (decrypt_storage_same (auth_workspace (pg_tables p) w) p') as (r & Er & Hr).
  unfold gwp at 1. rewrite Er. cbn [wpg fst snd]. destruct r as [e|w']; [by apply HQ|].
  destruct (Hr _ eq_refl) as [Hid Hext].
  unfold auth_row in Hk. rewrite Hw in Hk. simpl in Hk. injection Hk as <-. simpl.
  assert (ascii_only (wk_ExternalId w') = true) as Hasc.
  { rewrite Hext. change (wk_ExternalId (auth_workspace (pg_tables p) w)) with (wk_ExternalId w).
    apply (ok_workspace_ids _ Hok). unfold workspace_of in Hw.
    destruct (tk_WorkspaceId row); [|done]. apply find_some in Hw as [Hin _]. by apply list_elem_of_In. }
  pose proof (ok_types _ Hok row Hrow) as Hty.
  destruct (tk_Reusable row) eqn:Hre.
  - apply gwp_ret, HQ; [done..|]. intros k0 w0 [= <- <-]. simpl. rewrite E. split_and!; try done; [|by exists row].
    intros Hu. exists row, w. split_and!; try done. by apply usable_in_force.
  - apply gwp_catch, gwp_sql; [done|]. intros now uuid p2 Hc2. cbn [fst snd]. rewrite E. intros E2.
    change (pg_tables p2 = spend (tk_Id row) (pg_tables p)) in E2. apply gwp_ret, HQ; [done| |].
    { right. by exists row. }
    intros k0 w0 [= <- <-]. rewrite E2. simpl. split_and!; try done; [|by exists row].
    intros Hu. exists (set_active false row), w. split_and!; try done.
    + pose proof (elem_spend (tk_Id row) _ _ Hrow) as H. by rewrite Z.eqb_refl in H.
    + unfold usable in Hu. simpl in Hu. apply andb_true_iff in Hu as [_ Hu]. unfold in_force. simpl. by rewrite Hu, Hre.
Qed.

(** ** A token is found *)

Lemma coherent_set t d key k w s :
  coherent t d -> tk_Key k = key -> tk_TokenType k ∈ token_types -> ascii_only (wk_ExternalId w) = true ->
  (usable k = true -> authentic t key k w) -> marshal_auth k w = inr s ->
  coherent t (mkRdb (<[WorkspaceAuthorizedToken key := RVStr s]> (kv d))
                (<[WorkspaceAuthorizedToken key := cachedTokenTTLS * 10 ^ 9]> (ttl d))).
Proof using Type*.
  intros Hc Hkey Hty Hasc Ha Hm key' v. simpl. intros H.
  apply lookup_insert_Some in H as [[E <-]|[_ H]]; [|by apply Hc].
  apply (inj WorkspaceAuthorizedToken) in E as <-. exists s. split; [done|]. intros k' w' Hu' Hk'.
  destruct (unmarshal_marshal _ _ _ Hm) as (k1 & w1 & Hu1 & Sk & Sw).
  rewrite Hu1 in Hu'. injection Hu' as <- <-.
  assert (usable k = true) as Hk.
  { revert Hk'. unfold usable. by rewrite (same_Active _ _ Sk), (same_Disabled _ _ Sk). }
  destruct (Ha Hk) as (row & w0 & Hrow & Hkey0 & Hu & Hid & Htt & Hw & Hwi & Hwe).
  exists row, w0. split_and!; try done.
  - by rewrite Hid, (same_Id _ _ Sk).
  - rewrite Htt. by apply (same_TokenType _ _ Sk), token_type_ascii.
  - by rewrite Hwi, (same_wk_Id _ _ Sw).
  - rewrite Hwe. by apply (same_wk_ExternalId _ _ Sw).
Qed.

Lemma rwp_SetAuthorizationToken t key k w d L (Q : gerr + unit -> rdb -> lmap -> Prop) :
  coherent t d -> tk_Key k = key -> tk_TokenType k ∈ token_types -> ascii_only (wk_ExternalId w) = true ->
  (usable k = true -> authentic t key k w) ->
  (forall r d', coherent t d' -> Q r d' L) ->
  rwp (SetAuthorizationToken k w) Q d L.
Proof using Type*.
  intros Hc Hkey Hty Hasc Ha HQ. unfold SetAuthorizationToken.
  destruct (marshal_auth k w) as [e|s] eqn:Hm; [by apply wp_Ret, HQ|].
  apply wp_mbind. apply wp_rcall.
  - intros r d' ->. apply wp_Ret, HQ. rewrite Hkey. by eapply coherent_set.
  - intros e d' [-> _]. by apply HQ.
Qed.

(** The cache or the database: who is found is authentic, and the cache stays coherent. *)
Lemma gwp_find_token key p d L (Q : http_err + Token * Workspace -> pg -> rdb -> lmap -> Prop) :
  good p d ->
  (forall r p' d', good p' d' -> used (pg_tables p) (pg_tables p') ->
     (forall k w, r = inr (k, w) -> usable k = true -> authentic (pg_tables p') key k w) -> Q r p' d' L) ->
  gwp (@stuck) (find_token EncryptionKey key) Q p d L.
Proof using Type*.
  intros Hg HQ. unfold find_token. apply gwp_bind, gwp_redis. eapply rwp_cached; [apply Hg|].
  intros [e|[k w]] Hr; [|apply gwp_ret, HQ; [done|by left|]; intros ? ? [= <- <-]; by apply Hr].
  apply gwp_catch. apply gwp_AuthorizeToken; [apply Hg..|].
  intros [e'|[k w]] p' Hc' Hu Hk; pose proof (good_used p p' d Hg Hc' Hu) as Hg'; [by apply HQ|].
  destruct (Hk k w eq_refl) as (Hkey & Hty & Hasc & Ha & _).
  apply gwp_catch, gwp_redis. eapply rwp_SetAuthorizationToken; [apply Hg'|done..|].
  intros r d' Hd. assert (good p' d') as Hg2 by (split; [done|]; split; [apply Hg'|done]).
  destruct r as [e'|[]]; [by apply HQ|]. apply gwp_ret, HQ; try done. by intros ? ? [= <- <-].
Qed.

(** A key that is not cached and whose rows are inactive is refused. *)
Lemma gwp_refused key p d L (Q : http_err + Token * Workspace -> pg -> rdb -> lmap -> Prop) :
  good p d -> kv d !! WorkspaceAuthorizedToken key = None ->
  (forall row, row ∈ rows (t_token (pg_tables p)) -> tk_Key row = key -> tk_Active row = false) ->
  (forall e p', good p' d -> Q (inl e) p' d L) ->
  gwp (@stuck) (find_token EncryptionKey key) Q p d L.
Proof using Type*.
  intros Hg Hn Hi HQ. unfold find_token. apply gwp_bind, gwp_redis. unfold AuthCache.AuthorizeToken.
  assert (forall k, gwp (@stuck) (catch (Backend.AuthorizeToken EncryptionKey key) (or_panic Unauthorized) k)
    Q p d L) as Hdb.
  { intros k0. apply gwp_catch. apply gwp_AuthorizeToken; [apply Hg..|].
    intros [e'|[k w]] p' Hc' Hu Hk; [by apply HQ, (good_used p)|].
    destruct (Hk k w eq_refl) as (_ & _ & _ & _ & row & Hrow & Hkey & Hact). by rewrite (Hi row Hrow Hkey) in Hact. }
  apply wp_mbind. apply wp_rcall.
  - intros r d' [Hr ->]. rewrite Hn in Hr. injection Hr as <-. apply wp_Ret, Hdb.
  - intros e d' [-> _]. apply Hdb.
Qed.

(** ** The middleware *)

Lemma gwp_AuthMiddleware {A} (next : option AuthInfo -> handled A) req p d L Q :
  good p d ->
  (forall ctx p' d', good p' d' -> used (pg_tables p) (pg_tables p') ->
     match ctx with
     | None => request_token req = None
     | Some cc => exists key, request_token req = Some key /\
                    authentic (pg_tables p') key (ai_Token cc) (ai_Workspace cc)
     end -> gwp (@stuck) (next ctx) Q p' d' L) ->
  (forall e p' d', good p' d' -> used (pg_tables p) (pg_tables p') -> Q (inl e) p' d' L) ->
  gwp (@stuck) (AuthMiddleware EncryptionKey next req) Q p d L.
Proof using Type*.
  intros Hg Hnext Herr. unfold AuthMiddleware.
  destruct (request_token req) as [key|] eqn:Ek; [|apply Hnext; [done|by left|done]].
  apply gwp_catch. apply gwp_find_token; [done..|]. intros [e|[k w]] p' d' Hg' Hu' Hr; [by apply Herr|].
  simpl. destruct (usable k) eqn:Hu; [|by apply gwp_ret, Herr].
  apply Hnext; [done..|]. exists key. split; [done|]. by apply Hr.
Qed.

(** ** Changes of the tokens *)

Lemma db_ok_delete p t :
  db_ok t -> db_ok (set_tokens t (delete_rows p (t_token t))).
Proof using Type.
  intros [H1 Hc H2 Hn H3 H4].
  split; simpl; try done; try (by apply NoDup_map_filter); intros k Hk; apply elem_filter_b in Hk as [Hk _]; auto.
Qed.

(** The tables of the tokens and of the secrets are the only ones that matter. *)
Lemma db_ok_tables t t' :
  t_token t' = t_token t -> t_workspace t' = t_workspace t -> db_ok t -> db_ok t'.
Proof using Type. intros E1 E2 [H1 Hc H2 Hn H3 H4]. split; rewrite ?E1, ?E2; done. Qed.

Lemma first_token (u : string) wid t (f : Token -> Token) tok :
  get_row (map token_columns (map f (List.filter (is_token u wid) (rows (t_token t))))) = inr tok ->
  exists row, row ∈ rows (t_token t) /\ is_token u wid row = true /\ tok = token_columns (f row).
Proof using Type.
  intros H. apply get_row_inr in H. apply list_elem_of_fmap in H as (x & -> & H).
  apply list_elem_of_fmap in H as (row & -> & H). apply elem_filter_b in H as [H1 H2]. eauto.
Qed.
Lemma found_token (u : string) wid t tok :
  get_row (map token_columns (List.filter (is_token u wid) (rows (t_token t)))) = inr tok ->
  exists row, row ∈ rows (t_token t) /\ is_token u wid row = true /\ tok = token_columns row.
Proof using Type. intros H. apply (first_token u wid t id). by rewrite map_id. Qed.

Lemma is_token_unique t u wid a b :
  db_ok t -> a ∈ rows (t_token t) -> b ∈ rows (t_token t) -> is_token u wid a = true -> is_token u wid b = true ->
  a = b.
Proof using Type.
  intros Hok Ha Hb H1 H2. apply andb_true_iff in H1 as [H1 _], H2 as [H2 _].
  apply String.eqb_eq in H1, H2. eapply (unique_by tk_ExternalId); [apply (ok_token_ids _ Hok)|done..|congruence].
Qed.

Lemma survives_delete p t row :
  row ∈ rows (t_token t) -> in_force row = true -> p row = false ->
  survives (set_tokens t (delete_rows p (t_token t))) row.
Proof using Type.
  intros Hrow Hu Hp. exists row. split_and!; try done. simpl. apply elem_filter_b. by rewrite Hp.
Qed.

(** ** The handlers of tokens *)

Lemma good_same p p' d : good p d -> calm p' -> pg_tables p' = pg_tables p -> good p' d.
Proof using Type. intros (H1 & H2 & H3) Hc E. by split_and!; rewrite ?E. Qed.

Lemma gwp_workspace ext p d L (Q : dberr + Workspace -> pg -> rdb -> lmap -> Prop) :
  calm p ->
  (forall r p', calm p' -> pg_tables p' = pg_tables p ->
     (forall w, r = inr w -> exists w0 u, w0 ∈ rows (t_workspace (pg_tables p)) /\ uuid_in ext = Some u /\
        wk_ExternalId w0 = u /\ wk_Id w = wk_Id w0) -> Q r p' d L) ->
  gwp (@stuck) (GetWorkspaceByExternalId ext) Q p d L.
Proof using Type.
  intros Hc HQ. apply gwp_select; [done|]. intros p' Hc' E. apply HQ; [done..|].
  unfold workspaces_by, uuid_param, first_of. destruct (uuid_in ext) as [u|]; [|done]. intros w Hw.
  apply get_row_inr in Hw. apply list_elem_of_fmap in Hw as (w0 & -> & Hw0).
  apply elem_filter_b in Hw0 as [Hw0 Hu]. apply String.eqb_eq in Hu. by exists w0, u.
Qed.

Lemma gwp_GetToken wid ext p d L (Q : dberr + Token -> pg -> rdb -> lmap -> Prop) :
  calm p ->
  (forall r p', calm p' -> pg_tables p' = pg_tables p ->
     (forall tok, r = inr tok -> exists row u, uuid_in ext = Some u /\ row ∈ rows (t_token (pg_tables p)) /\
        is_token u wid row = true /\ tok = token_columns row) -> Q r p' d L) ->
  gwp (@stuck) (GetTokenByExternalId wid ext) Q p d L.
Proof using Type.
  intros Hc HQ. apply gwp_catch, gwp_select; [done|]. intros p' Hc' E. unfold uuid_param.
  destruct (uuid_in ext) as [u|] eqn:Eu; [|by apply HQ].
  destruct (get_row _) as [e|tok] eqn:Eg; [by apply HQ|]. apply gwp_ret, HQ; [done..|].
  intros ? [= <-]. apply found_token in Eg as (row & H1 & H2 & ->). by exists row, u.
Qed.

(** The token of an answer, and the cache without it. *)
Definition taken (row : Token) (d : rdb) : Prop := kv d !! WorkspaceAuthorizedToken (tk_Key row) = None.

Lemma taken_del row d : taken row (del_kv (WorkspaceAuthorizedToken (tk_Key row)) d).
Proof using Type. apply lookup_delete_eq. Qed.

Lemma good_toggle p p' d row u wid :
  good p d -> calm p' -> row ∈ rows (t_token (pg_tables p)) -> is_token u wid row = true ->
  pg_tables p' = set_tokens (pg_tables p) (update_rows (is_token u wid) toggle (t_token (pg_tables p))).2 ->
  good p' (if tk_Active row then del_kv (WorkspaceAuthorizedToken (tk_Key row)) d else d).
Proof using Type.
  intros (Hc & Hok & Hco) Hc' Hrow Ht E. split; [done|]. rewrite E. split.
  { by apply db_ok_update. }
  eapply coherent_step; [exact Hco|done|]. intros key v Hv.
  assert (kv d !! WorkspaceAuthorizedToken key = Some v /\ (tk_Active row = true -> key <> tk_Key row)) as [Hv0 Hne].
  { destruct (tk_Active row); [|done]. cbn [del_kv kv] in Hv. apply lookup_delete_Some in Hv as [Hn Hv]. split; [done|].
    intros _ ->. done. }
  split; [done|]. intros row0 Hrow0 Hkey Hu.
  destruct (is_token u wid row0) eqn:E0; [|by apply survives_update].
  assert (row0 = row) as -> by by eapply is_token_unique.
  destruct (tk_Active row) eqn:Ha; [by destruct (Hne eq_refl)|].
  exists (toggle row). split_and!; try done.
  - pose proof (elem_map_if (is_token u wid) toggle _ _ Hrow0) as H. by rewrite E0 in H.
  - apply andb_true_iff in Hu as [Hu _]. unfold in_force. simpl. by rewrite Hu, Ha.
Qed.

Lemma gwp_Toggle w tid cc p d L (Q : http_err + Token -> pg -> rdb -> lmap -> Prop) :
  good p d ->
  (forall r p' d', good p' d' -> t_workspace (pg_tables p') = t_workspace (pg_tables p) ->
     (forall tok, r = inr tok -> exists row u wid,
        uuid_in tid = Some u /\ row ∈ rows (t_token (pg_tables p)) /\ is_token u wid row = true /\
        pg_tables p' = set_tokens (pg_tables p) (update_rows (is_token u wid) toggle (t_token (pg_tables p))).2 /\
        tok = token_columns (toggle row) /\ (tk_Active row = true -> taken row d')) -> Q r p' d' L) ->
  gwp (@stuck) (ToggleWorkspaceToken w tid cc) Q p d L.
Proof using Type.
  intros Hg HQ. unfold ToggleWorkspaceToken. apply gwp_catch, gwp_workspace; [apply Hg|].
  intros [e|ws] p1 Hc1 E1 _; [apply HQ; [by eapply good_same|by rewrite E1|done]|].
  apply gwp_catch, gwp_GetToken; [done|].
  intros [e|tok] p2 Hc2 E2 Htok; [apply HQ; [eapply good_same; [done..|congruence]|congruence|done]|].
  destruct (Htok tok eq_refl) as (row & u & Eu & Hrow & Hit & ->). clear Htok. rewrite E1 in E2, Hrow.
  destruct (protected _ cc); [apply gwp_ret, HQ; [by eapply good_same|by rewrite E2|done]|].
  apply gwp_catch. apply gwp_sql; [done|]. intros now uuid p3 Hc3. rewrite Eu, E2.
  unfold update_rows at 1 2. cbn [fst snd].
  destruct (get_row _) as [e|tog] eqn:Eg.
  { destruct (List.filter (is_token u (wk_Id ws)) (rows (t_token (pg_tables p)))) as [|x l] eqn:Ef; [|done].
    exfalso. assert (row ∈ ([] : list Token)) as Hin by (rewrite <- Ef; by apply elem_filter_b). by apply not_elem_of_nil in Hin. }
  cbn [map_ok]. intros E3. apply first_token in Eg as (row2 & Hrow2 & Hit2 & ->).
  assert (row2 = row) as -> by (eapply is_token_unique; [apply Hg|done..]).
  pose proof (good_toggle p p3 d row u (wk_Id ws) Hg Hc3 Hrow Hit E3) as Hg3. simpl.
  apply gwp_catch. rewrite negb_involutive. destruct (tk_Active row) eqn:Ea.
  - apply gwp_redis, rwp_RevokeToken. apply gwp_ret, HQ; [exact Hg3|by rewrite E3|].
    intros ? [= <-]. exists row, u, (wk_Id ws). split_and!; [done..|]. intros _. apply taken_del.
  - apply gwp_ret. apply gwp_ret, HQ; [exact Hg3|by rewrite E3|].
    intros ? [= <-]. exists row, u, (wk_Id ws). split_and!; try done. by rewrite Ea.
Qed.

Lemma good_delete p p' d row u wid :
  good p d -> calm p' -> row ∈ rows (t_token (pg_tables p)) -> is_token u wid row = true ->
  t_token (pg_tables p') = delete_rows (is_token u wid) (t_token (pg_tables p)) ->
  t_workspace (pg_tables p') = t_workspace (pg_tables p) ->
  good p' (del_kv (WorkspaceAuthorizedToken (tk_Key row)) d).
Proof using Type.
  intros (Hc & Hok & Hco) Hc' Hrow Ht E Ew. split; [done|]. split.
  { eapply (db_ok_tables (set_tokens (pg_tables p) (delete_rows (is_token u wid) (t_token (pg_tables p)))));
      [done..|]. by apply db_ok_delete. }
  eapply coherent_step; [exact Hco|done|]. intros key v Hv. cbn [del_kv kv] in Hv.
  apply lookup_delete_Some in Hv as [Hn Hv]. split; [done|]. intros row0 Hrow0 Hkey Hu.
  unfold survives. rewrite E. apply (survives_delete (is_token u wid) (pg_tables p) row0); [done..|].
  destruct (is_token u wid row0) eqn:E0; [|done].
  assert (row0 = row) as -> by by eapply is_token_unique. by subst key.
Qed.

Lemma gwp_Delete w tid cc p d L (Q : http_err + unit -> pg -> rdb -> lmap -> Prop) :
  good p d ->
  (forall r p' d', good p' d' -> t_workspace (pg_tables p') = t_workspace (pg_tables p) ->
     (forall x, r = inr x -> exists row u wid,
        uuid_in tid = Some u /\ row ∈ rows (t_token (pg_tables p)) /\ is_token u wid row = true /\
        t_token (pg_tables p') = delete_rows (is_token u wid) (t_token (pg_tables p)) /\ taken row d') ->
     Q r p' d' L) ->
  gwp (@stuck) (DeleteWorkspaceToken w tid cc) Q p d L.
Proof using Type.
  intros Hg HQ. unfold DeleteWorkspaceToken. apply gwp_catch, gwp_workspace; [apply Hg|].
  intros [e|ws] p1 Hc1 E1 _; [apply HQ; [by eapply good_same|by rewrite E1|done]|].
  apply gwp_catch, gwp_GetToken; [done|].
  intros [e|tok] p2 Hc2 E2 Htok; [apply HQ; [eapply good_same; [done..|congruence]|congruence|done]|].
  destruct (Htok tok eq_refl) as (row & u & Eu & Hrow & Hit & ->). clear Htok. rewrite E1 in E2, Hrow.
  destruct (protected _ cc); [apply gwp_ret, HQ; [by eapply good_same|by rewrite E2|done]|].
  apply gwp_catch. apply gwp_sql; [done|]. intros now uuid p3 Hc3. rewrite Eu, E2. cbn [fst snd]. intros E3.
  apply gwp_catch, gwp_redis, rwp_RevokeToken. apply gwp_ret, HQ.
  - eapply (good_delete p p3 d row u (wk_Id ws)); [done..| |]; by rewrite E3.
  - by rewrite E3.
  - intros _ _. exists row, u, (wk_Id ws). do 3 (split; [done|]). split; [by rewrite E3|exact (taken_del row d)].
Qed.

(** *** Disabling the tokens of a workspace *)

Definition set_flag (disabled : bool) (u : string) (t : tables) : tables :=
  set_tokens t (update_rows (λ k, String.eqb (tk_ExternalId k) u) (set_disabled disabled) (t_token t)).2.

Lemma good_disable p p' d disabled u key :
  good p d -> calm p' -> pg_tables p' = set_flag disabled u (pg_tables p) ->
  (forall row, row ∈ rows (t_token (pg_tables p)) -> tk_ExternalId row = u -> tk_Key row = key) ->
  good p' (if disabled then del_kv (WorkspaceAuthorizedToken key) d else d).
Proof using Type.
  intros (Hc & Hok & Hco) Hc' E Hkey. split; [done|]. rewrite E. split; [by apply db_ok_update|].
  eapply coherent_step; [exact Hco|done|]. intros k v Hv.
  destruct disabled.
  - cbn [del_kv kv] in Hv. apply lookup_delete_Some in Hv as [Hn Hv]. split; [done|]. intros row Hrow Hk Hu.
    apply survives_update; [done..|]. apply String.eqb_neq. intros Hx. apply Hn. by rewrite <- Hk, (Hkey row Hrow Hx).
  - split; [done|]. intros row Hrow Hk Hu.
    exists (if String.eqb (tk_ExternalId row) u then set_disabled false row else row).
    split; [by apply (elem_map_if (λ k, String.eqb (tk_ExternalId k) u))|].
    apply andb_true_iff in Hu as [Hd Ha].
    destruct (String.eqb (tk_ExternalId row) u); split_and!; try done; unfold in_force; simpl; rewrite Ha; try rewrite Hd; done.
Qed.

(** What the loop knows of the tokens it was given: their keys are those of the rows. *)
Definition keys_known (t : tables) (l : list Token) : Prop :=
  forall k, k ∈ l -> uuid_in (tk_ExternalId k) = Some (tk_ExternalId k) /\
    forall row, row ∈ rows (t_token t) -> tk_ExternalId row = tk_ExternalId k -> tk_Key row = tk_Key k.

Lemma keys_known_flag t l disabled u : keys_known t l -> keys_known (set_flag disabled u t) l.
Proof using Type.
  intros H k Hk. destruct (H k Hk) as [H1 H2]. split; [done|]. intros row Hrow.
  apply list_elem_of_fmap in Hrow as (row0 & -> & Hr0). intros Hx.
  destruct (String.eqb (tk_ExternalId row0) u); apply (H2 row0); done.
Qed.

(** After it, the keys of the tokens are out of the cache and the tokens disabled. *)
Lemma gwp_disable_tokens disabled l p d L (Q : http_err + unit -> pg -> rdb -> lmap -> Prop) :
  good p d -> keys_known (pg_tables p) l ->
  (forall r p' d', good p' d' -> t_workspace (pg_tables p') = t_workspace (pg_tables p) -> Q r p' d' L) ->
  gwp (@stuck) (disable_tokens disabled l) Q p d L.
Proof using Type.
  revert p d. induction l as [|k l IH]; intros p d Hg Hk HQ; simpl; [by apply gwp_ret, HQ|].
  destruct (Hk k ltac:(apply elem_of_cons; by left)) as [Hu Hkey].
  apply gwp_catch. unfold UpdateTokenAsClusterAdmin, update_token. apply gwp_sql; [apply Hg|].
  intros now uuid p1 Hc1. rewrite Hu. cbn [fst snd]. intros E1.
  pose proof (good_disable p p1 d disabled (tk_ExternalId k) (tk_Key k) Hg Hc1 E1 Hkey) as Hg1.
  assert (keys_known (pg_tables p1) l) as Hk1.
  { rewrite E1. apply keys_known_flag. intros k' Hk'. apply Hk. apply elem_of_cons. by right. }
  apply gwp_catch. destruct disabled.
  - apply gwp_redis, rwp_RevokeToken. apply IH; [exact Hg1|done|].
    intros r p' d' Hg' Ew. apply HQ; [done|]. by rewrite Ew, E1.
  - apply gwp_ret. apply IH; [exact Hg1|done|]. intros r p' d' Hg' Ew. apply HQ; [done|]. by rewrite Ew, E1.
Qed.

Lemma gwp_AdminUpdate w bound cc p d L (Q : http_err + unit -> pg -> rdb -> lmap -> Prop) :
  good p d ->
  (forall r p' d', good p' d' -> t_workspace (pg_tables p') = t_workspace (pg_tables p) -> Q r p' d' L) ->
  gwp (@stuck) (ClusterAdminUpdateAllWorkspaceTokens w bound cc) Q p d L.
Proof using Type.
  intros Hg HQ. unfold ClusterAdminUpdateAllWorkspaceTokens. apply gwp_catch, gwp_workspace; [apply Hg|].
  intros [e|ws] p1 Hc1 E1 _; [apply HQ; [by eapply good_same|by rewrite E1]|].
  destruct bound as [disabled|]; [|apply gwp_ret, HQ; [by eapply good_same|by rewrite E1]].
  apply gwp_catch, gwp_select; [done|]. intros p2 Hc2 E2. rewrite E1 in E2.
  apply gwp_disable_tokens; [by eapply good_same| |intros r p' d' Hg' Ew; apply HQ; [done|by rewrite Ew, E2]].
  intros k Hk. apply elem_latest_first, list_elem_of_fmap in Hk as (row & -> & Hrow).
  apply elem_filter_b in Hrow as [Hrow _]. rewrite E1 in Hrow. destruct Hg as (_ & Hok & _). split.
  - apply (ok_canonical _ Hok row Hrow).
  - intros row' Hrow' Hx. rewrite E2 in Hrow'.
    by rewrite (unique_by tk_ExternalId _ row' row (ok_token_ids _ Hok) Hrow' Hrow Hx).
Qed.

(** *** New tokens *)

Lemma good_insert p p' d k :
  good p d -> calm p' -> token_violates (pg_tables p) k = None ->
  tk_Id k = next_id (t_token (pg_tables p)) -> next_id (t_token (pg_tables p')) = tk_Id k + 1 ->
  tk_TokenType k ∈ token_types -> uuid_in (tk_ExternalId k) = Some (tk_ExternalId k) ->
  rows (t_token (pg_tables p')) = (rows (t_token (pg_tables p)) ++ [k])%list ->
  t_workspace (pg_tables p') = t_workspace (pg_tables p) -> good p' d.
Proof using Type.
  intros (Hc & [H1 Hcan H2 Hn H3 H4] & Hco) Hc' Hv Hid Hnx Hty Hu E Ew. split; [done|].
  assert (forall x, x ∈ rows (t_token (pg_tables p')) -> x ∈ rows (t_token (pg_tables p)) \/ x = k) as Hin.
  { intros x. rewrite E, elem_of_app, list_elem_of_singleton. tauto. }
  split.
  - split; try (intros x Hx; destruct (Hin x Hx) as [Hx0| ->]; by auto); [| | |by rewrite Ew].
    2: { rewrite E, map_app. apply NoDup_app. split_and!; [done| |apply NoDup_singleton].
         intros x Hx Hk. apply list_elem_of_singleton in Hk as ->.
         apply list_elem_of_fmap in Hx as (k0 & Ek & Hk0). specialize (Hn k0 Hk0). simpl in Ek. lia. }
    2: { intros x Hx. rewrite Hnx. destruct (Hin x Hx) as [Hx0| ->]; [|lia]. specialize (Hn x Hx0). lia. }
    rewrite E, map_app. apply NoDup_app. split_and!; [done| |apply NoDup_singleton].
    intros x Hx Hk. apply list_elem_of_singleton in Hk as ->.
    unfold token_violates in Hv. destruct (existsb _ _) eqn:Ex; [done|].
    apply list_elem_of_fmap in Hx as (k0 & Ek & Hk0).
    assert (existsb (λ k', String.eqb (tk_ExternalId k') (tk_ExternalId k)) (rows (t_token (pg_tables p))) = true)
      as Ht; [|congruence].
    apply existsb_exists. exists k0. split; [by apply list_elem_of_In|]. apply String.eqb_eq. congruence.
  - eapply coherent_step; [exact Hco|done|]. intros key v Hv'. split; [done|]. intros row Hrow Hk Hus.
    exists row. split_and!; try done. rewrite E. apply elem_of_app. by left.
Qed.

Lemma gwp_CreateToken wid ty p d L (Q : dberr + Token -> pg -> rdb -> lmap -> Prop) :
  good p d ->
  (forall r p', good p' d -> t_workspace (pg_tables p') = t_workspace (pg_tables p) ->
     (forall tok, r = inr tok -> tk_TokenType tok = ty /\ tk_WorkspaceId tok = Some wid /\
        exists row, row ∈ rows (t_token (pg_tables p')) /\ usable row = true /\ tok = token_columns row) ->
     Q r p' d L) ->
  gwp (@stuck) (CreateToken wid ty true) Q p d L.
Proof using PL.
  intros Hg HQ. unfold CreateToken, generateExternalId. apply gwp_catch, gwp_draw. intros n p1 Ho1 E1.
  assert (good p1 d) as Hg1 by (eapply good_same; [done| |done]; unfold calm; rewrite Ho1; apply Hg).
  destruct (go_uuid n) as [e|ext] eqn:Eu; [by apply HQ; [|rewrite E1|]|].
  apply gwp_catch, gwp_draw. intros n2 p2 Ho2 E2.
  assert (good p2 d) as Hg2 by (eapply good_same; [exact Hg1| |done]; unfold calm; rewrite Ho2; apply Hg1).
  destruct (go_rand n2 tokenLength) as [e|b]; [by apply HQ; [|rewrite E2, E1|]|].
  apply gwp_sql; [apply Hg2|]. intros now uuid p3 Hc3.
  destruct (bool_decide_reflect (ty ∈ token_types)) as [Hty|_].
  2: { intros E3. simpl in E3. apply HQ; [by eapply good_same|by rewrite E3, E2, E1|done]. }
  unfold insert_row. set (k := mkToken _ _ _ _ _ _ _ _ _ _ _).
  destruct (token_violates (pg_tables p2) k) as [e|] eqn:Hv; cbn [fst snd map_ok]; intros E3.
  - apply HQ; [|by rewrite E3; simpl; rewrite E2, E1|done].
    split; [done|]. rewrite E3. split; [|].
    + destruct Hg2 as (_ & [G1 G2 G3 G4 G5 G6] & _). split; try done. simpl. intros x Hx. specialize (G4 x Hx). lia.
    + destruct Hg2 as (_ & _ & Hco). eapply coherent_step; [exact Hco|done|]. intros key v Hkv. split; [done|].
      intros row Hrow Hk Hus. by exists row.
  - apply HQ.
    + eapply (good_insert p2 p3 d k); try done; [by rewrite E3|by apply (go_uuid_canonical n)|by rewrite E3..].
    + by rewrite E3; simpl; rewrite E2, E1.
    + intros tok [= <-]. simpl. split_and!; [done..|]. exists k. split_and!; [|done..].
      rewrite E3. simpl. apply elem_of_app. right. by apply list_elem_of_singleton.
Qed.

(** *** The group of routes *)

Lemma gwp_responds {A} (f : A -> token_response) (m : handled A) Q p d L :
  gwp (@stuck) m (λ r p' d' L', Q (match r with inl e => inl e | inr a => inr (f a) end) p' d' L') p d L ->
  gwp (@stuck) (responds f m) Q p d L.
Proof using Type. intros H. apply gwp_catch. eapply gwp_mono; [|exact H]. by intros [e|a] p' d' L'. Qed.

(** What an answer says of the token [tid] it was asked to take away. *)
Definition withdrawn (r : token_request) (a : http_err + token_response) : option string :=
  match r, a with
  | ReqDelete _ tid, inr RespDone => Some tid
  | ReqToggle _ tid, inr (RespToken tok) => if tk_Active tok then None else Some tid
  | _, _ => None
  end.

(** No active token has the key of [row], and it is not cached. *)
Definition gone (t : tables) (d : rdb) (row : Token) : Prop :=
  kv d !! WorkspaceAuthorizedToken (tk_Key row) = None /\
  forall row', row' ∈ rows (t_token t) -> tk_Key row' = tk_Key row -> tk_Active row' = false.

(** The effect of a request on the keys that the tables had before it. *)
Definition takes (t : tables) (r : token_request) (a : http_err + token_response) (t' : tables) (d' : rdb) : Prop :=
  forall tid row, withdrawn r a = Some tid -> NoDup (map tk_Key (rows (t_token t))) ->
    row ∈ rows (t_token t) -> uuid_in tid = Some (tk_ExternalId row) -> gone t' d' row.

Lemma takes_used t t1 r a t' d' : used t t1 -> takes t1 r a t' d' -> takes t r a t' d'.
Proof using Type.
  intros Hu Ht tid row Hw Hd Hrow Hid. destruct (used_row _ _ _ Hu Hrow) as (row1 & Hr1 & Ee & Ek).
  destruct (Ht tid row1 Hw) as [H1 H2]; [by rewrite (used_keys _ _ Hu)|done|congruence|].
  rewrite Ek in H1, H2. by split.
Qed.

Lemma gone_delete t t' d u wid row :
  NoDup (map tk_Key (rows (t_token t))) -> row ∈ rows (t_token t) -> is_token u wid row = true ->
  t_token t' = delete_rows (is_token u wid) (t_token t) -> taken row d -> gone t' d row.
Proof using Type.
  intros Hd Hrow Hit E Htk. split; [done|]. intros row' Hr' Hk. rewrite E in Hr'. apply elem_filter_b in Hr' as [Hr' Hn].
  assert (row' = row) as -> by by eapply (unique_by tk_Key). by rewrite Hit in Hn.
Qed.

Lemma gone_toggle t d u wid row :
  NoDup (map tk_Key (rows (t_token t))) -> row ∈ rows (t_token t) -> is_token u wid row = true ->
  tk_Active row = true -> taken row d ->
  gone (set_tokens t (update_rows (is_token u wid) toggle (t_token t)).2) d row.
Proof using Type.
  intros Hd Hrow Hit Ha Htk. split; [done|]. intros row' Hr' Hk. apply list_elem_of_fmap in Hr' as (row0 & -> & Hr0).
  assert (row0 = row) as ->.
  { eapply (unique_by tk_Key); [done..|]. by destruct (is_token u wid row0). }
  rewrite Hit. simpl. by rewrite Ha.
Qed.

Lemma gwp_Create w ty cc p d L :
  good p d ->
  gwp (@stuck) (CreateWorkspaceToken w ty cc) (λ _ p' d' _, good p' d' /\
    t_workspace (pg_tables p') = t_workspace (pg_tables p)) p d L.
Proof using PL.
  intros Hg. unfold CreateWorkspaceToken. apply gwp_catch, gwp_workspace; [apply Hg|].
  intros [e|ws] p1 Hc1 E1 _; [split; [by eapply good_same|by rewrite E1]|]. cbv zeta.
  destruct (_ && _); [apply gwp_ret; split; [by eapply good_same|by rewrite E1]|].
  apply gwp_catch, gwp_CreateToken; [by eapply good_same|].
  intros [e|tok] p2 Hg2 E2 _; [|apply gwp_ret]; (split; [done|by rewrite E2, E1]).
Qed.

Lemma gwp_List w cc p d L :
  good p d ->
  gwp (@stuck) (ListWorkspaceTokens w cc) (λ _ p' d' _, good p' d' /\
    t_workspace (pg_tables p') = t_workspace (pg_tables p)) p d L.
Proof using Type.
  intros Hg. unfold ListWorkspaceTokens. apply gwp_catch, gwp_workspace; [apply Hg|].
  intros [e|ws] p1 Hc1 E1 _; [split; [by eapply good_same|by rewrite E1]|].
  apply gwp_catch, gwp_select; [done|]. intros p2 Hc2 E2. rewrite E1 in E2. apply gwp_ret.
  split; [by eapply good_same|by rewrite E2].
Qed.

Lemma gwp_SigningKey w cc p d L :
  good p d ->
  gwp (@stuck) (GetSigningKey w cc) (λ _ p' d' _, good p' d' /\
    t_workspace (pg_tables p') = t_workspace (pg_tables p)) p d L.
Proof using Type.
  intros Hg. unfold GetSigningKey. apply gwp_catch. apply gwp_select; [apply Hg|]. intros p1 Hc1 E1.
  destruct (first_of _ _); [|apply gwp_ret]; (split; [by eapply good_same|by rewrite E1]).
Qed.

(** A request the wrapper of its route refuses changes nothing. *)
Lemma gwp_strict {A} (next : AuthInfo -> handled A) w ctx p d L (Q : http_err + A -> pg -> rdb -> lmap -> Prop) :
  (forall e, Q (inl e) p d L) ->
  (forall cc, gwp (@stuck) (next cc) Q p d L) -> gwp (@stuck) (WithStrictWorkspaceAuth next w ctx) Q p d L.
Proof using Type.
  intros He Hn. unfold WithStrictWorkspaceAuth. destruct (verifyWorkspaceAuth ctx w) as [e|cc]; [by apply gwp_ret|].
  destruct (String.eqb _ _); [by apply gwp_ret|done].
Qed.

Lemma gwp_token_route r ctx p d L :
  good p d ->
  gwp (@stuck) (token_route r ctx) (λ a p' d' _, good p' d' /\
    t_workspace (pg_tables p') = t_workspace (pg_tables p) /\ takes (pg_tables p) r a (pg_tables p') d') p d L.
Proof using PL.
  intros Hg.
  destruct r as [w b|w ty|w|w|w tid|w tid]; unfold token_route;
    [unfold WithClusterAdminAuth; destruct ctx as [cc|]; [destruct (negb _)|]; [by apply gwp_ret| |by apply gwp_ret]
    |apply gwp_strict; [done|intros cc]..]; apply gwp_responds.
  - apply gwp_AdminUpdate; [done|]. by intros r p' d' Hg' Ew.
  - eapply gwp_mono; [|by apply gwp_Create]. intros a p' d' L' [H1 H2]. by split_and!.
  - eapply gwp_mono; [|by apply gwp_List]. intros a p' d' L' [H1 H2]. by split_and!.
  - eapply gwp_mono; [|by apply gwp_SigningKey]. intros a p' d' L' [H1 H2]. by split_and!.
  - apply gwp_Toggle; [done|]. intros a p' d' Hg' Ew Ha. split_and!; [done..|].
    intros tid0 row0 Hw Hd Hrow0 Hu. destruct a as [e|tok]; [done|]. simpl in Hw.
    destruct (tk_Active tok) eqn:Et; [done|]. injection Hw as <-.
    destruct (Ha tok eq_refl) as (row & u & wid & Eu & Hrow & Hit & E & -> & Htk). rewrite E.
    apply andb_true_iff in Hit as Hb. destruct Hb as [Hb _]. apply String.eqb_eq in Hb.
    assert (row0 = row) as ->.
    { destruct Hg as (_ & Hok & _). eapply (unique_by tk_ExternalId); [apply (ok_token_ids _ Hok)|done..|congruence]. }
    simpl in Et. apply gone_toggle; [done..| |apply Htk]; by destruct (tk_Active row).
  - apply gwp_Delete; [done|]. intros a p' d' Hg' Ew Ha. split_and!; [done..|].
    intros tid0 row0 Hw Hd Hrow0 Hu. destruct a as [e|[]]; [done|]. simpl in Hw. injection Hw as <-.
    destruct (Ha tt eq_refl) as (row & u & wid & Eu & Hrow & Hit & E & Htk).
    apply andb_true_iff in Hit as Hb. destruct Hb as [Hb _]. apply String.eqb_eq in Hb.
    assert (row0 = row) as ->.
    { destruct Hg as (_ & Hok & _). eapply (unique_by tk_ExternalId); [apply (ok_token_ids _ Hok)|done..|congruence]. }
    by eapply gone_delete.
Qed.

Lemma gwp_serve req r p d L :
  good p d ->
  gwp (@stuck) (serve_token_request EncryptionKey req r) (λ a p' d' _, good p' d' /\
    takes (pg_tables p) r a (pg_tables p') d') p d L.
Proof using Type*.
  intros Hg. apply gwp_AuthMiddleware; [done..| |].
  - intros ctx p' d' Hg' Hu _. eapply gwp_mono; [|by apply gwp_token_route].
    intros a p2 d2 L2 (H1 & _ & H2). split; [done|]. by eapply takes_used.
  - intros e p' d' Hg' Hu. split; [done|]. intros tid row Hw. by destruct r.
Qed.

(** Requests one after another. *)
Fixpoint serve_all (reqs : list (http_request * token_request)) : GM unit :=
  match reqs with
  | [] => mret tt
  | (req, r) :: reqs' => serve_token_request EncryptionKey req r ≫= λ _, serve_all reqs'
  end.

Lemma gwp_serve_all reqs p d L :
  good p d -> gwp (@stuck) (serve_all reqs) (λ _ p' d' _, good p' d') p d L.
Proof using Type*.
  revert p d L. induction reqs as [|[req r] reqs IH]; intros p d L Hg; [done|]. simpl.
  apply gwp_bind. eapply gwp_mono; [|by apply gwp_serve]. intros a p' d' L' [Hg' _]. by apply IH.
Qed.

(** Who a request is served as. *)
Definition authenticate (req : http_request) : handled (option AuthInfo) := AuthMiddleware EncryptionKey done_ req.

Lemma gwp_authenticate req p d L :
  good p d ->
  gwp (@stuck) (authenticate req) (λ a p' d' _, good p' d' /\ used (pg_tables p) (pg_tables p') /\
    match a with
    | inl _ => True
    | inr None => request_token req = None
    | inr (Some cc) => exists key, request_token req = Some key /\
                         authentic (pg_tables p') key (ai_Token cc) (ai_Workspace cc)
    end) p d L.
Proof using Type*.
  intros Hg. apply gwp_AuthMiddleware; [done..| |].
  - intros ctx p' d' Hg' Hu Hx. apply gwp_ret. by split_and!.
  - intros e p' d' Hg' Hu. by split_and!.
Qed.

Lemma gwp_turned_away req key p d L :
  good p d -> request_token req = Some key -> kv d !! WorkspaceAuthorizedToken key = None ->
  (forall row, row ∈ rows (t_token (pg_tables p)) -> tk_Key row = key -> tk_Active row = false) ->
  gwp (@stuck) (authenticate req) (λ a _ _ _, exists e, a = inl e) p d L.
Proof using Type*.
  intros Hg Hk Hn Hi. unfold authenticate, AuthMiddleware. rewrite Hk. apply gwp_catch.
  apply gwp_refused; [done..|]. intros e p' _. by eexists.
Qed.

Context `{S : RedisServer, SL : !RedisLaws S}.

Lemma ends_gwp I {A} (m : GM A) p s L (Q : A -> pg -> rdb -> Prop) :
  reliable I -> I s -> gwp (@stuck) m (λ a p' d' _, Q a p' d') p (view s) L ->
  ends (m p) s L (λ '(a, p') d, Q a p' d).
Proof using Type*.
  intros HR HI H. apply (ends_rwp I); [done..|]. eapply wp_mono; [|exact H]. by intros [a p'] d' L'.
Qed.

(** C7. With a Redis server and a database that do not fail: whatever requests of the HTTP
    API for tokens were served before, in any order and by anyone, an authenticated request
    is served in the name of a token that the database has at that moment, not disabled,
    with the type and the workspace that the handler sees, and active if it is a reusable
    one: the cached copies of tokens do not outlive a change made through these handlers.
    The copy of a token that is not reusable is served although its first use has made the
    row inactive; changes made by gRPC calls are not covered. *)
Theorem token_cache_sound (I : srv -> Prop) (s : srv) (L : lmap) (p : pg)
    (reqs : list (http_request * token_request)) (req : http_request) :
  reliable I -> I s -> good p (view s) ->
  ends ((serve_all reqs ≫= λ _, authenticate req) p) s L (λ '(a, p') d,
    good p' d /\
    forall cc, a = inr (Some cc) -> exists key, request_token req = Some key /\
      authentic (pg_tables p') key (ai_Token cc) (ai_Workspace cc)).
Proof using Type*.
  intros HR HI Hg.
  apply (ends_gwp I (serve_all reqs ≫= λ _, authenticate req) p s L (λ a p' d, good p' d /\ forall cc,
    a = inr (Some cc) -> exists key, request_token req = Some key /\
      authentic (pg_tables p') key (ai_Token cc) (ai_Workspace cc))); [done..|].
  apply gwp_bind. eapply gwp_mono; [|by apply gwp_serve_all]. intros u0 p1 d1 L1 Hg1.
  eapply gwp_mono; [|by apply gwp_authenticate]. intros a p2 d2 L2 (Hg2 & E2 & Ha). split; [done|].
  by intros cc ->.
Qed.

(** C8. With a Redis server and a database that do not fail: once the HTTP API has answered
    that a token was deleted, or deactivated, a request that bears its key is refused, also
    when the token, reusable or not, had been cached by a use before.  (The keys of tokens
    are unique; the gRPC calls DeleteToken and ToggleToken, which leave the cached copy in
    place, are not covered.) *)
Theorem revoked_token_refused (I : srv -> Prop) (s : srv) (L : lmap) (p : pg)
    (admin bearer : http_request) (r : token_request) (tid : string)
    (row : Token) :
  reliable I -> I s -> good p (view s) -> NoDup (map tk_Key (rows (t_token (pg_tables p)))) ->
  row ∈ rows (t_token (pg_tables p)) -> uuid_in tid = Some (tk_ExternalId row) ->
  request_token bearer = Some (tk_Key row) ->
  ends ((authenticate bearer ≫= λ _, serve_token_request EncryptionKey admin r ≫= λ a,
         authenticate bearer ≫= λ b, mret (a, b)) p) s L (λ '(x, _) _,
    withdrawn r x.1 = Some tid -> exists e, x.2 = inl e).
Proof using Type*.
  intros HR HI Hg Hd Hrow Hu Hb.
  apply (ends_gwp I (authenticate bearer ≫= λ _, serve_token_request EncryptionKey admin r ≫= λ a,
         authenticate bearer ≫= λ b, mret (a, b)) p s L
         (λ ab _ _, withdrawn r ab.1 = Some tid -> exists e, ab.2 = inl e)); [done..|].
  apply gwp_bind. eapply gwp_mono; [|by apply gwp_authenticate]. intros u0 p1 d1 L1 (Hg1 & Hu1 & _).
  apply gwp_bind. eapply gwp_mono; [|by apply gwp_serve]. intros a p2 d2 L2 [Hg2 Ht].
  apply (takes_used _ _ _ _ _ _ Hu1) in Ht. apply gwp_bind.
  destruct (decide (withdrawn r a = Some tid)) as [Hw|Hw].
  - destruct (Ht tid row Hw Hd Hrow Hu) as [H1 H2].
    eapply gwp_mono; [|by eapply gwp_turned_away]. intros b p3 d3 L3 Hb'. by apply gwp_ret.
  - eapply gwp_mono; [|by apply gwp_authenticate]. intros b p3 d3 L3 _. by apply gwp_ret.
Qed.
End auth_props.

(** ** Examples *)

Definition ex_workspace : Workspace :=
  mkWorkspace 1 "11111111-1111-1111-1111-111111111111" "acme" 0 0 None false false None None None None.
Definition ex_token (id : Z) (ext key ty : string) : Token :=
  mkToken id ext key true true (Some 1) None ty 0 0 false.
Definition ex_owner : Token := ex_token 1 "22222222-2222-2222-2222-222222222222" "owner-key" TokenTypeWorkspace.
Definition ex_guest : Token := ex_token 2 "33333333-3333-3333-3333-333333333333" "guest-key" TokenTypeWorkspace.
Definition ex_auth_tables : tables :=
  set_tokens (set_workspaces empty_tables (mkTable [ex_workspace] 2)) (mkTable [ex_owner; ex_guest] 3).
Definition ex_auth_pg : pg := mkPg ex_auth_tables [] 0.
Definition ex_bearer (key : string) : http_request := mkHttpRequest ("Bearer " ++ key) "".

(** A serialization that knows the tokens of the example. *)
Definition auth_known : list (string * (Token * Workspace)) :=
  map (λ '(n, k), (n, (set_token_workspace (auth_workspace ex_auth_tables ex_workspace) k, auth_workspace ex_auth_tables ex_workspace)))
    [("1", ex_owner); ("2", ex_guest)].
#[local] Instance ex_auth_json : AuthJson :=
  {| marshal_auth k w :=
       match List.find (λ x, bool_decide (x.2 = (k, w))) auth_known with
       | Some x => inr x.1 | None => inl (EMsg "json") end;
     unmarshal_auth s :=
       match List.find (λ x, String.eqb x.1 s) auth_known with
       | Some x => inr (Some x.2.1, Some x.2.2) | None => inl (EMsg "json") end |}.
#[local] Instance ex_auth_json_laws : AuthJsonLaws ex_auth_json.
Proof.
  split. intros k w s H. simpl in H. unfold auth_known in H. simpl in H.
  case_bool_decide as E1; [|case_bool_decide as E2; [|done]]; injection H as <-;
    [injection E1 as <- <-|injection E2 as <- <-]; eexists _, _; (split; [vm_compute; reflexivity|by repeat split]).
Qed.

#[local] Instance ex_pg_world : PgWorld := plain_pg.

Lemma ex_auth_good : good (P := plain_pg) ex_auth_pg empty_rdb.
Proof.
  split; [done|]. split; [|by intros key v].
  split; simpl.
  - apply NoDup_cons. split; [by intros H%list_elem_of_singleton|apply NoDup_singleton].
  - done.
  - apply NoDup_cons. split; [by intros H%list_elem_of_singleton|apply NoDup_singleton].
  - intros k Hk. apply elem_of_cons in Hk as [->|Hk]; [done|]. by apply list_elem_of_singleton in Hk as ->.
  - intros k Hk. apply elem_of_cons in Hk as [->|Hk]; [by vm_compute; set_solver|].
    apply list_elem_of_singleton in Hk as ->. by vm_compute; set_solver.
  - intros w Hw. by apply list_elem_of_singleton in Hw as ->.
Qed.

(** The guest is authenticated, and so cached; the owner deletes its token; the owner lists the tokens. *)
Lemma token_cache_sound_witness :
  let reqs := [(ex_bearer "guest-key", ReqList (wk_ExternalId ex_workspace));
               (ex_bearer "owner-key", ReqDelete (wk_ExternalId ex_workspace) (tk_ExternalId ex_guest))] in
  ends ((serve_all (C := plain_cipher) "" reqs ≫= λ _, authenticate (C := plain_cipher) "" (ex_bearer "owner-key"))
          ex_auth_pg) (on empty_rdb) ∅ (λ '(a, p') d,
    good p' d /\
    forall cc, a = inr (Some cc) -> exists key, request_token (ex_bearer "owner-key") = Some key /\
      authentic (pg_tables p') key (ai_Token cc) (ai_Workspace cc)) /\
  ends ((serve_all (C := plain_cipher) "" reqs ≫= λ _, authenticate (C := plain_cipher) "" (ex_bearer "owner-key"))
          ex_auth_pg) (on empty_rdb) ∅ (λ '(a, _) _, exists cc, a = inr (Some cc)).
Proof.
  intros reqs. split.
  - refine (token_cache_sound (C := plain_cipher) "" (λ s, ref_faults s = []) (on empty_rdb) ∅ ex_auth_pg reqs
      (ex_bearer "owner-key") ref_reliable eq_refl ex_auth_good).
  - vm_compute. eexists. reflexivity.
Defined.

Lemma revoked_token_refused_witness :
  ends ((authenticate (C := plain_cipher) "" (ex_bearer "guest-key") ≫= λ _,
         serve_token_request (C := plain_cipher) "" (ex_bearer "owner-key")
           (ReqDelete (wk_ExternalId ex_workspace) (tk_ExternalId ex_guest)) ≫= λ a,
         authenticate (C := plain_cipher) "" (ex_bearer "guest-key") ≫= λ b, mret (a, b)) ex_auth_pg)
    (on empty_rdb) ∅ (λ '(x, _) _,
    withdrawn (ReqDelete (wk_ExternalId ex_workspace) (tk_ExternalId ex_guest)) x.1 =
      Some (tk_ExternalId ex_guest) -> exists e, x.2 = inl e) /\
  ends ((serve_token_request (C := plain_cipher) "" (ex_bearer "owner-key")
           (ReqDelete (wk_ExternalId ex_workspace) (tk_ExternalId ex_guest))) ex_auth_pg)
    (on empty_rdb) ∅ (λ '(a, _) _, a = inr RespDone).
Proof.
  split; [|vm_compute; reflexivity].
  refine (revoked_token_refused (C := plain_cipher) "" (λ s, ref_faults s = []) (on empty_rdb) ∅ ex_auth_pg
    (ex_bearer "owner-key") (ex_bearer "guest-key")
    (ReqDelete (wk_ExternalId ex_workspace) (tk_ExternalId ex_guest)) (tk_ExternalId ex_guest) ex_guest
    ref_reliable eq_refl ex_auth_good _ _ eq_refl eq_refl).
  - apply NoDup_cons. split; [by intros H%list_elem_of_singleton|apply NoDup_singleton].
  - apply elem_of_cons. right. by apply list_elem_of_singleton.
Defined.
