(* ===== verification/Deployments.v ===== *)
(** * Deployments

    pkg/gateway/services/deployment.go and the deployment of stubs in stub.go,
    pkg/api/v1/deployment.go and common.go, the lookup of a deployment for a request in
    pkg/abstractions/common/deployment.go, and the addresses of pkg/common/url.go.  The
    configuration of a stub is JSON in the database: decoding it is a parameter, with the
    fields the code reads and the text of the others. *)

From S2P Require Import Prelude GoStd Redis Keys Types Codec Env RequestBuffer Lock ContainerRepo WorkerRepo Scheduler TaskRepo Dispatcher TaskQueue EventBus Autoscaler Postgres Crypto Backend Auth Api.

Local Open Scope Z_scope.
Set Default Proof Using "Type".

Record StubConfigV1 := mkStubConfigV1 {
  sc_Autoscaler : option AutoscalerConfig;
  sc_KeepWarmSeconds : Z;
  sc_Authorized : bool;
  sc_Pricing : bool;
  sc_TCP : bool;
  sc_Ports : list Z;
  sc_others : string;
}.

Definition zeroStubConfig : StubConfigV1 := mkStubConfigV1 None 0 false false false [] "".

(** JSON null is [None]. *)
Class StubConfigJson := {
  unmarshal_config : string -> gerr + option StubConfigV1;
  marshal_config : StubConfigV1 -> gerr + string;
}.

Class StubConfigLaws (J : StubConfigJson) : Prop := {
  unmarshal_marshal_config : forall c s, marshal_config c = inr s -> unmarshal_config s = inr (Some c);
}.

Definition nil_dereference : gerr := EPanic "invalid memory address or nil pointer dereference".

Section deployments.
Context {P : PgWorld} {C : AesGcm} {SS : SchedulerServices} {EC : EventCodec} {J : StubConfigJson}
  (EncryptionKey : string) (md5_hex : string -> string).

(** [json.Unmarshal] into a struct, which null leaves as it is. *)
Definition decode_config (raw : string) : gerr + StubConfigV1 :=
  match unmarshal_config raw with inl e => inl e | inr c => inr (default zeroStubConfig c) end.

(** ** Addresses (url.go) *)

Definition InvokeUrlTypePath : string := "path".
Definition InvokeUrlTypeHost : string := "host".

(** [url]: scheme and host of the external URL, if it can be parsed.  A configuration
    that is null is dereferenced. *)
Definition BuildDeploymentURL (url : option (string * string)) (urlType : string) (stub : Stub) (deployment : Deployment)
    : gerr + string :=
  match url with
  | None => inr ""
  | Some (scheme, host) =>
      if String.eqb urlType InvokeUrlTypeHost
      then inr (scheme +:+ "://" +:+ de_Subdomain deployment +:+ "-v" +:+ fmt_int (de_Version deployment) +:+ "." +:+ host)
      else
        let private := inr (scheme +:+ "://" +:+ host +:+ "/" +:+ Kind (st_Type stub) +:+ "/" +:+ de_Name deployment +:+
                            "/v" +:+ fmt_int (de_Version deployment)) in
        match unmarshal_config (st_Config stub) with
        | inl _ => private
        | inr None => inl nil_dereference
        | inr (Some c) =>
            if sc_Authorized c then private
            else inr (scheme +:+ "://" +:+ host +:+ "/" +:+ Kind (st_Type stub) +:+ "/public/" +:+ st_ExternalId stub)
        end
  end.

Definition BuildStubURL (url : option (string * string)) (urlType : string) (stub : Stub) : string :=
  match url with
  | None => ""
  | Some (scheme, host) =>
      if String.eqb urlType InvokeUrlTypeHost then scheme +:+ "://" +:+ st_ExternalId stub +:+ "." +:+ host
      else scheme +:+ "://" +:+ host +:+ "/" +:+ Kind (st_Type stub) +:+ "/id/" +:+ st_ExternalId stub
  end.

Definition BuildPodURL (url : option (string * string)) (urlType : string) (stub : Stub) (config : StubConfigV1) : string :=
  match url with
  | None => ""
  | Some (scheme, host) =>
      let port := match sc_Ports config with [p] => fmt_int p | _ => "<PORT>" end in
      if String.eqb urlType InvokeUrlTypeHost
      then scheme +:+ "://" +:+ st_ExternalId stub +:+ "-" +:+ port +:+ "." +:+ host
      else scheme +:+ "://" +:+ host +:+ "/" +:+ Kind (st_Type stub) +:+ "/id/" +:+ st_ExternalId stub +:+ "/" +:+ port
  end.

Definition BuildSandboxURL (url : option (string * string)) (urlType : string) (stub : Stub) (port : Z) : string :=
  match url with
  | None => ""
  | Some (scheme, host) =>
      if String.eqb urlType InvokeUrlTypeHost
      then scheme +:+ "://" +:+ st_ExternalId stub +:+ "-" +:+ fmt_int port +:+ "." +:+ host
      else scheme +:+ "://" +:+ host +:+ "/" +:+ Kind (st_Type stub) +:+ "/id/" +:+ st_ExternalId stub +:+ "/" +:+
           fmt_int port
  end.

(** ** Stopping *)

Definition StubTypeScheduledJobDeployment : string := "schedule/deployment".

Definition reload_event (nowS : Z) (stubId stubType : string) : Event :=
  mkEvent EventTypeReloadInstance
    {[ "stub_id" := JStr stubId; "stub_type" := JStr stubType; "timestamp" := JNum (fmt_int nowS) ]} false 3.

Definition publish_reload (nowS : Z) (d : DeploymentWithRelated) : GM unit :=
  on_redis (Send (reload_event nowS (st_ExternalId (dwr_Stub d)) (de_StubType (dwr_Deployment d)))) ≫= λ _, mret tt.

Definition set_de_active (b : bool) (d : Deployment) : Deployment :=
  mkDeployment (de_Id d) (de_ExternalId d) (de_Name d) b (de_Subdomain d) (de_WorkspaceId d) (de_StubId d)
    (de_StubType d) (de_Version d) (de_CreatedAt d) (de_UpdatedAt d) (de_DeletedAt d) (de_AppId d).

(** The job of a deployment; errors are ignored. *)
Definition stop_job (d : Deployment) : GM unit :=
  if String.eqb (de_StubType d) StubTypeScheduledJobDeployment then
    GetScheduledJob (de_Id d) ≫= λ r,
    match r with inl _ => mret tt | inr job => DeleteScheduledJob job ≫= λ _, mret tt end
  else mret tt.

Fixpoint stop_containers (nowS : Z) (args : string -> StopContainerArgs) (l : list ContainerState) : prog unit :=
  match l with
  | [] => Ret tt
  | c :: l' => (_ <~ Stop nowS (args (cs_ContainerId c)) ;; stop_containers nowS args l')
  end.

(** [args]: how a container is stopped; the rest is the same over gRPC and HTTP. *)
Fixpoint stop_deployments (nowS : Z) (args : string -> StopContainerArgs) (l : list DeploymentWithRelated) : DB unit :=
  match l with
  | [] => done_ tt
  | d :: rest =>
      stop_job (dwr_Deployment d) ≫= λ _,
      on_redis (GetActiveContainersByStubId (st_ExternalId (dwr_Stub d))) ≫= λ r,
      (match r with inl _ => mret tt | inr cs => on_redis (stop_containers nowS args cs) end) ≫= λ _,
      let? _ := UpdateDeployment (set_de_active false (dwr_Deployment d)) in
      publish_reload nowS d ≫= λ _,
      stop_deployments nowS args rest
  end.

Definition grpc_stopDeployments (nowS : Z) : list DeploymentWithRelated -> DB unit :=
  stop_deployments nowS (λ id, mkStopContainerArgs id false "USER").

Definition http_stopDeployments (nowS : Z) (l : list DeploymentWithRelated) : DB unit :=
  catch (stop_deployments nowS (λ id, mkStopContainerArgs id true "") l)
    (λ e, if is_panic e then e else DbErr (EMsg "failed to disable deployment")) done_.

(** ** Over gRPC (services/deployment.go) *)

(** An error of the repository is answered with [msg]. *)
Definition attempt {A B} (m : DB A) (msg : string) (k : A -> called B) : called B :=
  m ≫= λ r,
  match r with
  | inl e => if is_panic e then fail_ GrpcPanic else done_ (NotOk msg)
  | inr a => k a
  end.

(** The deployment of the workspace with this id. *)
Definition with_deployment {B} (authInfo : AuthInfo) (id : string) (k : DeploymentWithRelated -> called B) : called B :=
  attempt (GetDeploymentByExternalId (wk_Id (ai_Workspace authInfo)) id) "Unable to get deployment" (λ d,
    match d with None => done_ (NotOk "Deployment not found") | Some d => k d end).

(** The value of a filter; its first text, which may be missing. *)
Definition apply_filter (f : DeploymentFilter) (field : string) (values : list string) : option DeploymentFilter :=
  if String.eqb field "name" then
    v ← head values; Some (mkDeploymentFilter (df_WorkspaceID f) v (df_Active f) (df_Version f) (df_Limit f))
  else if String.eqb field "active" then
    v ← head values;
    let v := ToLower v in
    let active := if String.eqb v "yes" || String.eqb v "y" then Some true
                  else if String.eqb v "no" || String.eqb v "n" then Some false
                  else match ParseBool v with Some b => Some b | None => df_Active f end in
    Some (mkDeploymentFilter (df_WorkspaceID f) (df_Name f) active (df_Version f) (df_Limit f))
  else if String.eqb field "version" then
    v ← head values;
    Some (mkDeploymentFilter (df_WorkspaceID f) (df_Name f) (df_Active f)
            (match ParseUint 32 v with Some n => n | None => df_Version f end) (df_Limit f))
  else Some f.

Definition deployment_filter (authInfo : AuthInfo) (limit : Z) (filters : list (string * list string))
    : option DeploymentFilter :=
  let limit := if (0 <? limit) && (limit <? 1000) then limit else 1000 in
  foldl (λ f p, f ≫= λ f, apply_filter f p.1 p.2)
    (Some (mkDeploymentFilter (wk_Id (ai_Workspace authInfo)) "" None 0 limit)) filters.

Definition grpc_ListDeployments (authInfo : AuthInfo) (limit : Z) (filters : list (string * list string))
    : called (list DeploymentWithRelated) :=
  match deployment_filter authInfo limit filters with
  | None => fail_ GrpcPanic
  | Some f => respond (λ _, "Unable to list deployments") (ListDeploymentsWithRelated f)
  end.

Definition grpc_StopDeployment (nowS : Z) (authInfo : AuthInfo) (id : string) : called unit :=
  permitted authInfo (with_deployment authInfo id (λ d,
    attempt (grpc_stopDeployments nowS [d]) "Unable to stop deployment" (λ _, done_ (Ok tt)))).

Definition grpc_StartDeployment (nowS : Z) (authInfo : AuthInfo) (id : string) : called unit :=
  permitted authInfo (with_deployment authInfo id (λ d,
    attempt (UpdateDeployment (set_de_active true (dwr_Deployment d))) "Unable to start deployment" (λ _,
      publish_reload nowS d ≫= λ _, done_ (Ok tt)))).

Definition grpc_DeleteDeployment (nowS : Z) (authInfo : AuthInfo) (id : string) : called unit :=
  permitted authInfo (with_deployment authInfo id (λ d,
    attempt (grpc_stopDeployments nowS [d]) "Unable to stop deployment" (λ _,
      attempt (DeleteDeployment (dwr_Deployment d)) "Unable to delete deployment" (λ _, done_ (Ok tt))))).

(** The bounds of the autoscaler, whose configuration may be nil. *)
Definition scaled_config (config : StubConfigV1) (containers : Z) : gerr + StubConfigV1 :=
  match sc_Autoscaler config with
  | None => inl nil_dereference
  | Some a =>
      inr (mkStubConfigV1
             (Some (mkAutoscalerConfig containers (as_TasksPerContainer a)
                      (if 0 <? sc_KeepWarmSeconds config then 0 else containers)))
             (sc_KeepWarmSeconds config) (sc_Authorized config) (sc_Pricing config) (sc_TCP config) (sc_Ports config)
             (sc_others config))
  end.

Definition scaleDeployment (nowS : Z) (d : DeploymentWithRelated) (containers : Z) : DB unit :=
  let? config := lift (decode_config (st_Config (dwr_Stub d))) in
  let? config := lift (scaled_config config containers) in
  let? _ := UpdateStubConfig (st_Id (dwr_Stub d)) (marshal_config config) in
  publish_reload nowS d ≫= λ _, done_ tt.

Definition grpc_ScaleDeployment (nowS : Z) (authInfo : AuthInfo) (id : string) (containers : Z) : called unit :=
  with_deployment authInfo id (λ d,
    if negb (String.eqb (st_Type (dwr_Stub d)) StubTypePodDeployment)
    then done_ (NotOk "This type of deployment cannot be scaled directly.")
    else attempt (scaleDeployment nowS d containers) "Unable to scale deployment" (λ _, done_ (Ok tt))).

(** ** Deploying a stub (services/stub.go) *)

Definition next_version (latest : option DeploymentWithRelated) : Z :=
  match latest with Some d => wrap_u64 (de_Version (dwr_Deployment d) + 1) | None => 1 end.

(** A stub that is not found is dereferenced.  The deployment exists when the
    configuration turns out not to be readable or to lack an autoscaler. *)
Definition DeployStub (nowS : Z) (url : option (string * string)) (authInfo : AuthInfo) (stubId name : string)
    : called (string * Z * string) :=
  attempt (GetStubByExternalId EncryptionKey stubId "") "" (λ found,
  match found with
  | None => fail_ GrpcPanic
  | Some s =>
      let stub := sr_Stub s in
      if negb (String.eqb (wk_ExternalId (sr_Workspace s)) (wk_ExternalId (ai_Workspace authInfo)))
      then done_ (NotOk "")
      else
        let wid := wk_Id (ai_Workspace authInfo) in
        attempt (GetLatestDeploymentByName wid name (st_Type stub) false) "" (λ latest,
        attempt (match latest with
                 | Some d => if String.eqb (st_Type stub) StubTypeScheduledJobDeployment
                             then grpc_stopDeployments nowS [d] else done_ tt
                 | None => done_ tt
                 end) "" (λ _,
        attempt (CreateDeployment md5_hex wid name (next_version latest) (st_Id stub) (st_Type stub) (st_AppId stub)) ""
          (λ deployment,
        match BuildDeploymentURL url InvokeUrlTypePath stub deployment, decode_config (st_Config stub) with
        | inl _, _ => fail_ GrpcPanic
        | inr _, inl _ => done_ (NotOk "")
        | inr invokeUrl, inr config =>
            match sc_Autoscaler config with
            | None => fail_ GrpcPanic
            | Some a =>
                (if 0 <? as_MinContainers a
                 then on_redis (Send (reload_event nowS (st_ExternalId stub) (st_Type stub))) ≫= λ _, mret tt
                 else mret tt) ≫= λ _,
                done_ (Ok (de_ExternalId deployment, de_Version deployment mod 2 ^ 32, invokeUrl))
            end
        end)))
  end).

(** ** Over HTTP (api/v1/deployment.go) *)

Definition http_deployment {A} (cc : AuthInfo) (deploymentId : string) (k : DeploymentWithRelated -> handled A)
    : handled A :=
  let? d := GetDeploymentByExternalId (wk_Id (ai_Workspace cc)) deploymentId orelse!
              (HTTPBadRequest "Failed to get deployment") in
  match d with None => fail_ (HTTPBadRequest "Deployment not found") | Some d => k d end.

(** The configuration of the stub is sanitized and the answer serialized afterwards. *)
Definition RetrieveDeployment (workspaceId deploymentId : string) (cc : AuthInfo) : handled DeploymentWithRelated :=
  let? workspace := GetWorkspaceByExternalId workspaceId orelse! invalid_workspace in
  let? d := GetDeploymentByExternalId (wk_Id workspace) deploymentId orelse!
              (HTTPInternalServerError "Failed to get deployment") in
  match d with None => fail_ HTTPNotFound | Some d => done_ d end.

(** The error of the repository as the text of an answer. *)
Definition internal (e : dberr) : http_err := or_panic (HTTPInternalServerError (db_Error e)) e.

Definition http_StopDeployment (nowS : Z) (deploymentId : string) (cc : AuthInfo) : handled unit :=
  http_deployment cc deploymentId (λ d, catch (http_stopDeployments nowS [d]) internal done_).

Definition http_StartDeployment (nowS : Z) (deploymentId : string) (cc : AuthInfo) : handled unit :=
  http_deployment cc deploymentId (λ d,
    let? _ := UpdateDeployment (set_de_active true (dwr_Deployment d)) orelse!
                (HTTPInternalServerError "Failed to start deployment") in
    publish_reload nowS d ≫= λ _, done_ tt).

Definition StopAllActiveDeployments (nowS : Z) (workspaceId : string) (cc : AuthInfo) : handled unit :=
  let? workspace := GetWorkspaceByExternalId workspaceId orelse! invalid_workspace in
  let? l := ListDeploymentsWithRelated (mkDeploymentFilter (wk_Id workspace) "" (Some true) 0 0) orelse!
              (HTTPBadRequest "Failed to get deployments") in
  catch (http_stopDeployments nowS l) internal done_.

(** The deployment is deleted before it is stopped. *)
Definition http_DeleteDeployment (nowS : Z) (deploymentId : string) (cc : AuthInfo) : handled unit :=
  http_deployment cc deploymentId (λ d,
    let? _ := DeleteDeployment (dwr_Deployment d) orelse! (HTTPInternalServerError "Failed to delete deployment") in
    let? _ := http_stopDeployments nowS [d] orelse! (HTTPInternalServerError "Failed to stop deployment") in
    done_ tt).

(** [uint(version)] of a number that may be negative. *)
Definition deployment_by_version (wid : Z) (name version stubType : string) (bad_version : dberr)
    : DB (option DeploymentWithRelated) :=
  match ParseInt 64 version with
  | None => fail_ bad_version
  | Some v => let? d := GetDeploymentByNameAndVersion wid name (wrap_u64 v) stubType in done_ (Some d)
  end.

Definition getDeploymentByNameAndVersion (workspaceId stubType deploymentName version : string)
    : DB (option DeploymentWithRelated) :=
  let? workspace := GetWorkspaceByExternalId workspaceId in
  if String.eqb version "latest" || String.eqb version ""
  then GetLatestDeploymentByName (wk_Id workspace) deploymentName stubType true
  else deployment_by_version (wk_Id workspace) deploymentName version stubType (DbErr (EMsg "invalid syntax")).

Definition stubTypeMap : list (string * string) :=
  [("taskqueue", "taskqueue/deployment"); ("endpoint", "endpoint/deployment"); ("http", "endpoint/deployment");
   ("asgi", "asgi/deployment"); ("function", "function/deployment")].

(** A configuration that the owner of the token may see the address of; null is
    dereferenced. *)
Definition visible_config (cc : AuthInfo) (d : DeploymentWithRelated) : http_err + StubConfigV1 :=
  match unmarshal_config (st_Config (dwr_Stub d)) with
  | inl _ => inl (HTTPInternalServerError "Failed to decode deployment config")
  | inr None => inl (HTTPPanic "invalid memory address or nil pointer dereference")
  | inr (Some c) =>
      if negb (sc_Pricing c) && negb (String.eqb (dwr_Workspace d).1 (wk_ExternalId (ai_Workspace cc)))
      then inl HTTPNotFound else inr c
  end.

Definition nil_stub : http_err := HTTPPanic "invalid memory address or nil pointer dereference".

(** The addresses of a stub that may be gone: nil is dereferenced where its fields are
    used. *)
Definition stub_url (url : option (string * string)) (urlType : string) (s : option StubWithRelated) : http_err + string :=
  match url, s with
  | None, _ => inr ""
  | Some _, None => inl nil_stub
  | Some _, Some s => inr (BuildStubURL url urlType (sr_Stub s))
  end.

Definition deployment_url (url : option (string * string)) (urlType : string) (s : option StubWithRelated)
    (deployment : Deployment) : http_err + string :=
  match url, s with
  | Some _, None =>
      if String.eqb urlType InvokeUrlTypeHost
      then match BuildDeploymentURL url urlType zeroStub deployment with inl _ => inl nil_stub | inr u => inr u end
      else inl nil_stub
  | _, _ =>
      match BuildDeploymentURL url urlType (default zeroStub (sr_Stub <$> s)) deployment with
      | inl _ => inl nil_stub
      | inr u => inr u
      end
  end.

Definition http_GetURL (url : option (string * string)) (invokeURLType : string)
    (deploymentId workspaceId deploymentName stubType version : string) (cc : AuthInfo) : handled string :=
  if negb (String.eqb workspaceId "") && negb (String.eqb deploymentName "") && negb (String.eqb stubType "") then
    match list_to_map (M := gmap string string) stubTypeMap !! stubType with
    | None => fail_ (HTTPBadRequest "Invalid stub type")
    | Some stubType =>
        let? d := getDeploymentByNameAndVersion workspaceId stubType deploymentName version orelse! HTTPNotFound in
        match d with
        | None => fail_ (HTTPBadRequest "Invalid deployment name and version")
        | Some d =>
            let? s := GetStubByExternalId EncryptionKey (st_ExternalId (dwr_Stub d)) "" orelse! HTTPNotFound in
            match visible_config cc d with
            | inl e => fail_ e
            | inr _ => mret (stub_url url invokeURLType s)
            end
        end
    end
  else
    let? d := GetAnyDeploymentByExternalId deploymentId orelse! HTTPNotFound in
    match d with
    | None => fail_ (HTTPBadRequest "Invalid deployment ID")
    | Some d =>
        let? s := GetStubByExternalId EncryptionKey (st_ExternalId (dwr_Stub d)) "" orelse!
                    (HTTPInternalServerError "Failed to lookup stub") in
        match visible_config cc d with
        | inl e => fail_ e
        | inr c =>
            mret (if sc_Pricing c then stub_url url invokeURLType s
                  else deployment_url url invokeURLType s (dwr_Deployment d))
        end
    end.

(** ** Access to a stub (services/stub.go) *)

Definition hasStubAccess (authInfo : AuthInfo) (stub : StubWithRelated) (config : StubConfigV1) : bool :=
  negb (sc_Authorized config) || sc_Pricing config ||
  String.eqb (wk_ExternalId (sr_Workspace stub)) (wk_ExternalId (ai_Workspace authInfo)).

Definition set_stub_type (ty : string) (s : Stub) : Stub :=
  mkStub (st_Id s) (st_ExternalId s) (st_Name s) ty (st_Config s) (st_ConfigVersion s) (st_ObjectId s)
    (st_WorkspaceId s) (st_CreatedAt s) (st_UpdatedAt s) (st_Public s) (st_AppId s).

(** [tcp]: the external URL of the TCP proxy for pods; a deployment that is not found is
    dereferenced. *)
Definition grpc_GetURL (url tcp : option (string * string)) (invokeURLType : string) (authInfo : AuthInfo)
    (stubId deploymentId urlType : string) (isShell : bool) : called string :=
  attempt (GetStubByExternalId EncryptionKey stubId "") "Invalid stub ID" (λ found,
  match found with
  | None => done_ (NotOk "Invalid stub ID")
  | Some s =>
      match unmarshal_config (st_Config (sr_Stub s)) with
      | inl _ => done_ (NotOk "Unable to get stub config")
      | inr None => fail_ GrpcPanic
      | inr (Some config) =>
          if negb (hasStubAccess authInfo s config) then done_ (NotOk "Invalid stub ID")
          else
            let urlType := if String.eqb urlType "" then invokeURLType else urlType in
            let ty := st_Type (sr_Stub s) in
            if IsServe ty || String.eqb (Kind ty) "shell" || isShell then
              done_ (Ok (BuildStubURL url urlType (if isShell then set_stub_type "shell" (sr_Stub s) else sr_Stub s)))
            else if String.eqb (Kind ty) "pod" || String.eqb (Kind ty) "sandbox" then
              done_ (Ok (if sc_TCP config then BuildPodURL tcp InvokeUrlTypeHost (sr_Stub s) config
                         else BuildPodURL url urlType (sr_Stub s) config))
            else if String.eqb deploymentId "" then done_ (NotOk "Deployment ID is required")
            else
              attempt (GetDeploymentByExternalId (wk_Id (ai_Workspace authInfo)) deploymentId)
                "Unable to get deployment" (λ d,
              match d with
              | None => fail_ GrpcPanic
              | Some d =>
                  match BuildDeploymentURL url urlType (sr_Stub s) (dwr_Deployment d) with
                  | inl _ => fail_ GrpcPanic
                  | inr u => done_ (Ok u)
                  end
              end)
      end
  end).

(** ** The stub of a request (abstractions/common/deployment.go) *)

Definition makeCacheKey (authInfo : AuthInfo) (stubId deploymentName version stubType : string) : string :=
  Join [wk_ExternalId (ai_Workspace authInfo); stubId; deploymentName; version; stubType] "|".

(** The active deployment with this name. *)
Definition deployment_stub (authInfo : AuthInfo) (deploymentName version stubType : string) : handled string :=
  let wid := wk_Id (ai_Workspace authInfo) in
  let? d := (if String.eqb version "" then
               let? d := GetLatestDeploymentByName wid deploymentName stubType true orelse!
                           (HTTPBadRequest "Invalid deployment") in done_ d
             else
               match ParseInt 64 version with
               | None => fail_ (HTTPBadRequest "Invalid deployment version")
               | Some v =>
                   let? d := GetDeploymentByNameAndVersion wid deploymentName (wrap_u64 v) stubType orelse!
                               (HTTPBadRequest "Invalid deployment") in done_ (Some d)
               end) in
  match d with
  | None => fail_ (HTTPBadRequest "Invalid deployment")
  | Some d =>
      if de_Active (dwr_Deployment d) then done_ (st_ExternalId (dwr_Stub d))
      else fail_ (HTTPBadRequest "Deployment is not active")
  end.

(** The token may use the stub. *)
Definition stub_allowed (authInfo : AuthInfo) (stubId : string) : handled unit :=
  let? s := GetStubByExternalId EncryptionKey stubId "" orelse! (HTTPBadRequest "Invalid stub") in
  match s with
  | None => fail_ (HTTPBadRequest "Invalid stub")
  | Some s =>
      match decode_config (st_Config (sr_Stub s)) with
      | inl _ => fail_ (HTTPBadRequest "Invalid stub")
      | inr c =>
          if negb (sc_Pricing c) && sc_Authorized c &&
             negb (String.eqb (wk_ExternalId (ai_Workspace authInfo)) (wk_ExternalId (sr_Workspace s)))
          then fail_ (HTTPUnauthorized "Invalid token") else done_ tt
      end
  end.

(** [cached]: what the cache has under the key; what is added to it is returned with the
    stub. *)
Definition ParseAndValidateDeploymentStubId (cached : option string) (authInfo : AuthInfo)
    (stubId deploymentName version stubType : string) : handled (string * option (string * string)) :=
  match cached with
  | Some id => done_ (id, None)
  | None =>
      let? id := (if String.eqb deploymentName "" then done_ stubId
                  else deployment_stub authInfo deploymentName version stubType) in
      if String.eqb id "" then done_ (id, None)
      else
        let? _ := stub_allowed authInfo id in
        done_ (id, Some (makeCacheKey authInfo stubId deploymentName version stubType, id))
  end.

(** ** Volumes and GPUs of a stub (services/stub.go) *)

(** A volume with the names of the two secrets of its bucket, which their values replace. *)
Fixpoint configureVolumes (workspace : Workspace) (volumes : list (string * option (string * string)))
    : GM (gerr + list (string * option (string * string))) :=
  match volumes with
  | [] => done_ []
  | (id, None) :: rest => let? l := configureVolumes workspace rest in done_ ((id, None) :: l)
  | (id, Some (access, secret)) :: rest =>
      let? a := GetSecretByName workspace access orelse (EMsg ("Failed to get secret: " +:+ access)) in
      let? s := GetSecretByName workspace secret orelse (EMsg ("Failed to get secret: " +:+ secret)) in
      let? l := configureVolumes workspace rest in
      done_ ((id, Some (se_Value a, se_Value s)) :: l)
  end.

Definition anyGpuAvailable {FMT : GoFmt} (cfg : WorkerRepoConfig) (gpus : list string) : M bool :=
  available <- GetGpuAvailability cfg ;;
  ok (bool_decide (GPU_ANY ∈ gpus) || existsb (λ g, default false (available !! g)) gpus).

Definition getLowCapacityGpus {FMT : GoFmt} (cfg : WorkerRepoConfig) (gpus : list string) : M (list string) :=
  gpuCounts <- GetFreeGpuCounts ;;
  ok (List.filter (λ g, (default 0 (gpuCounts !! g) <=? 1) &&
                        negb (bool_decide (g ∈ GetPreemptibleGpus cfg))) gpus).
End deployments.

(** ** A deployment is the latest *)

Section latest.
Context {P : PgWorld} {C : AesGcm} {SS : SchedulerServices} {EC : EventCodec} {J : StubConfigJson}
  {err : forall R, rcmd R -> rdb -> rdb -> Prop} (EncryptionKey : string) (md5_hex : string -> string).

(** Every deployment has its workspace and its stub (foreign keys), stubs have unique ids and
    UUIDs, and versions are not negative. *)
Record deployment_tables (t : tables) : Prop := {
  dt_workspace : forall d, d ∈ rows (t_deployment t) -> is_Some (workspace_of t (Some (de_WorkspaceId d)));
  dt_stub : forall d, d ∈ rows (t_deployment t) ->
    is_Some (List.find (λ s, st_Id s =? de_StubId d) (rows (t_stub t)));
  dt_stub_ids : forall a b, a ∈ rows (t_stub t) -> b ∈ rows (t_stub t) -> st_Id a = st_Id b -> a = b;
  dt_stub_uuids : forall s, s ∈ rows (t_stub t) ->
    uuid_in (st_ExternalId s) = Some (st_ExternalId s) /\ st_ExternalId s <> "";
  dt_versions : forall d, d ∈ rows (t_deployment t) -> 0 <= de_Version d < 2 ^ 31;
}.

(** The deployments that one name stands for. *)
Definition named (wid : Z) (name ty : string) (d : Deployment) : bool :=
  (de_WorkspaceId d =? wid) && String.eqb (de_Name d) name && String.eqb (de_StubType d) ty.

(** The deployments of a name, as the query for the latest one finds them. *)
Definition candidates (all : bool) (wid : Z) (name ty : string) (t : tables) : list DeploymentWithRelated :=
  omap (deployment_related true false false t)
    (List.filter (λ d, (de_WorkspaceId d =? wid) && String.eqb (de_Name d) name && String.eqb (de_StubType d) ty &&
                       (all || is_live d)) (rows (t_deployment t))).

Lemma elem_candidates all wid name ty t x :
  x ∈ candidates all wid name ty t ->
  dwr_Deployment x ∈ rows (t_deployment t) /\ named wid name ty (dwr_Deployment x) = true /\
  deployment_related true false false t (dwr_Deployment x) = Some x.
Proof using Type.
  intros H. apply list_elem_of_omap in H as (d & Hd & Hr). apply elem_filter_b in Hd as [Hd Hn].
  apply andb_true_iff in Hn as [Hn _].
  assert (dwr_Deployment x = d) as ->.
  { unfold deployment_related in Hr. apply bind_Some in Hr as (w & _ & Hr). apply bind_Some in Hr as (s & _ & Hr).
    simpl in Hr. by injection Hr as <-. }
  done.
Qed.

Lemma candidate_of all wid name ty t d :
  deployment_tables t -> d ∈ rows (t_deployment t) -> named wid name ty d = true -> all || is_live d = true ->
  exists x, x ∈ candidates all wid name ty t /\ dwr_Deployment x = d.
Proof using Type.
  intros Ht Hd Hn Hl. destruct (dt_workspace _ Ht d Hd) as [w Hw], (dt_stub _ Ht d Hd) as [s Hs].
  eexists. split; [apply list_elem_of_omap; exists d; split|].
  - apply elem_filter_b. split; [done|]. unfold named in Hn. by rewrite Hn, Hl.
  - unfold deployment_related. rewrite Hw. simpl. rewrite Hs. reflexivity.
  - reflexivity.
Qed.

(** The next version is greater than those of all deployments of the name, deleted ones
    included. *)
Lemma gwp_latest wid name ty p d L (Q : dberr + option DeploymentWithRelated -> pg -> rdb -> lmap -> Prop) :
  calm p -> deployment_tables (pg_tables p) ->
  (forall r p', calm p' -> pg_tables p' = pg_tables p ->
     (forall latest, r = inr latest -> ty ∈ stub_types /\ text_ok name = true /\
        forall d, d ∈ rows (t_deployment (pg_tables p)) -> named wid name ty d = true ->
          de_Version d < next_version latest) -> Q r p' d L) ->
  gwp err (GetLatestDeploymentByName wid name ty false) Q p d L.
Proof using Type.
  intros Hc Ht HQ. unfold GetLatestDeploymentByName, or_none. apply gwp_bind, gwp_select; [done|].
  intros p' Hc' E. apply gwp_ret, HQ; [done..|]. intros latest Hr. unfold texts in Hr. cbn [forallb] in Hr.
  destruct (text_ok name); [|done]. cbn [andb] in Hr. destruct (bool_decide_reflect (ty ∈ stub_types)) as [Hty|]; [|done].
  split; [done|]. split; [done|]. intros x Hx Hn.
  destruct (candidate_of true wid name ty _ x Ht Hx Hn eq_refl) as (y & Hy & Ey).
  change (omap _ _) with (candidates true wid name ty (pg_tables p)) in Hr.
  destruct (latest_first _ (candidates true wid name ty (pg_tables p))) as [|z l] eqn:El.
  { apply elem_latest_first with (key := λ d, de_Version (dwr_Deployment d)) in Hy. rewrite El in Hy.
    by apply not_elem_of_nil in Hy. }
  apply latest_first_max in El as [Hz Hmax]. injection Hr as <-. simpl.
  apply elem_candidates in Hz as (Hz & _ & _). pose proof (dt_versions _ Ht _ Hz). specialize (Hmax y Hy).
  rewrite Ey in Hmax. unfold wrap_u64, wrap_u. rewrite Z.mod_small by lia. lia.
Qed.

(** The stub with an external id, with its workspace decrypted. *)
Definition stub_answer (u : string) (t : tables) : dberr + option StubWithRelated :=
  match omap (stub_related t) (List.filter (λ s, String.eqb (st_ExternalId s) u) (rows (t_stub t))) with
  | [] => inr None
  | x :: _ =>
      let found w := inr (Some (mkStubWithRelated (sr_Stub x) w (sr_Object x) (sr_App x))) in
      match wk_Storage (sr_Workspace x) with
      | Some sto =>
          if WorkspaceStorageAvailable (sr_Workspace x) then
            match decryptFields EncryptionKey sto with
            | inl e => inl (DbErr e)
            | inr sto' => found (with_storage sto' (sr_Workspace x))
            end
          else found (sr_Workspace x)
      | None => found (sr_Workspace x)
      end
  end.

Lemma gwp_stub_answer id u p d L (Q : dberr + option StubWithRelated -> pg -> rdb -> lmap -> Prop) :
  calm p -> uuid_in id = Some u ->
  (forall p', calm p' -> pg_tables p' = pg_tables p -> Q (stub_answer u (pg_tables p)) p' d L) ->
  gwp err (GetStubByExternalId EncryptionKey id "") Q p d L.
Proof using Type.
  intros Hc Hu HQ. unfold GetStubByExternalId, get_stub, or_none. apply gwp_catch, gwp_bind, gwp_select; [done|].
  intros p' Hc' E. apply gwp_ret. rewrite Hu. specialize (HQ p' Hc' E). unfold stub_answer in HQ.
  unfold stub_rows, first_of. simpl. rewrite map_id.
  destruct (omap _ _) as [|x l]; simpl; [by apply gwp_ret|].
  apply gwp_catch. unfold decrypt_storage. destruct (wk_Storage _) as [sto|]; [|by repeat apply gwp_ret].
  destruct (WorkspaceStorageAvailable _); [|by repeat apply gwp_ret].
  apply gwp_catch. unfold lift. destruct (decryptFields _ _); by repeat apply gwp_ret.
Qed.

Lemma stub_answer_inr u t s :
  stub_answer u t = inr (Some s) -> sr_Stub s ∈ rows (t_stub t) /\ st_ExternalId (sr_Stub s) = u.
Proof using Type.
  unfold stub_answer. destruct (omap _ _) as [|x l] eqn:El; [done|]. intros Hs.
  assert (x ∈ x :: l) as Hx by (apply elem_of_cons; by left). rewrite <- El in Hx.
  apply list_elem_of_omap in Hx as (st & Hst & Hr). apply elem_filter_b in Hst as [Hst Hi].
  apply String.eqb_eq in Hi.
  assert (sr_Stub x = st) as Es.
  { unfold stub_related in Hr. apply bind_Some in Hr as (w & _ & Hr). apply bind_Some in Hr as (a & _ & Hr).
    apply bind_Some in Hr as (o & _ & Hr). simpl in Hr. by injection Hr as <-. }
  assert (sr_Stub s = sr_Stub x) as ->; [|by rewrite Es].
  destruct (wk_Storage _); [destruct (WorkspaceStorageAvailable _); [destruct (decryptFields _ _)|]|]; by simplify_eq/=.
Qed.

(** The stub of an id, as the query finds it. *)
Lemma gwp_stub id p d L (Q : dberr + option StubWithRelated -> pg -> rdb -> lmap -> Prop) :
  calm p ->
  (forall r p', calm p' -> pg_tables p' = pg_tables p ->
     (forall s, r = inr (Some s) -> sr_Stub s ∈ rows (t_stub (pg_tables p)) /\
        uuid_in id = Some (st_ExternalId (sr_Stub s)) /\
        stub_answer (st_ExternalId (sr_Stub s)) (pg_tables p) = inr (Some s)) -> Q r p' d L) ->
  gwp err (GetStubByExternalId EncryptionKey id "") Q p d L.
Proof using Type.
  intros Hc HQ. destruct (uuid_in id) as [u|] eqn:Eu.
  - eapply gwp_stub_answer; [done..|]. intros p' Hc' E. apply HQ; [done..|]. intros s Hs.
    destruct (stub_answer_inr _ _ _ Hs) as [H1 H2]. rewrite H2. by split_and!.
  - unfold GetStubByExternalId, get_stub, or_none. apply gwp_catch, gwp_bind, gwp_select; [done|].
    intros p' Hc' E. apply gwp_ret. rewrite Eu. by apply HQ.
Qed.

(** The activity of an app is no part of the stubs that are read. *)
Lemma find_app_touched (p : App -> bool) (f : App -> App) id l :
  (forall a, ap_Id (f a) = ap_Id a) ->
  List.find (λ a, ap_Id a =? id) (map (λ a, if p a then f a else a) l) =
  (λ a, if p a then f a else a) <$> List.find (λ a, ap_Id a =? id) l.
Proof using Type.
  intros Hf. induction l as [|a l IH]; [done|]. simpl.
  assert (ap_Id (if p a then f a else a) = ap_Id a) as -> by (destruct (p a); [apply Hf|done]).
  by destruct (ap_Id a =? id).
Qed.

(** Reading a stub gives the same with both tables. *)
Definition same_stubs (t t' : tables) : Prop :=
  t_stub t' = t_stub t /\ forall s, stub_related t' s = stub_related t s.

Lemma stub_answer_same u t t' : same_stubs t t' -> stub_answer u t' = stub_answer u t.
Proof using Type.
  intros [E H]. unfold stub_answer. rewrite E. f_equal.
  assert (forall l, omap (stub_related t') l = omap (stub_related t) l) as ->; [|done].
  intros l. induction l as [|x l IH]; [done|]. csimpl. by rewrite H, IH.
Qed.

Lemma gwp_CreateDeployment wid name v sid ty app p d L (Q : dberr + Deployment -> pg -> rdb -> lmap -> Prop) :
  calm p ->
  (forall r p', calm p' ->
     (forall dep, r = inr dep ->
        rows (t_deployment (pg_tables p')) = (rows (t_deployment (pg_tables p)) ++ [dep])%list /\
        t_workspace (pg_tables p') = t_workspace (pg_tables p) /\ same_stubs (pg_tables p) (pg_tables p') /\
        named wid name ty dep = true /\ de_Active dep = true /\ de_DeletedAt dep = None /\ de_StubId dep = sid /\
        de_Version dep = v /\ in_i 32 v /\ deployment_violates (pg_tables p) dep = None) -> Q r p' d L) ->
  gwp err (CreateDeployment md5_hex wid name v sid ty app) Q p d L.
Proof using Type.
  intros Hc HQ. unfold CreateDeployment. apply gwp_catch, gwp_sql; [done|]. intros now uuid p1 Hc1.
  unfold checked. destruct (texts _ _); [intros _; by apply HQ|].
  destruct (negb (bool_decide (ty ∈ stub_types))); [intros _; by apply HQ|].
  unfold int4. destruct (bool_decide_reflect (in_i 32 v)) as [Hv|]; [|intros _; by apply HQ]. cbn [negb].
  unfold on_table, insert_row. set (dep := mkDeployment _ _ _ _ _ _ _ _ _ _ _ _ _).
  destruct (deployment_violates _ dep) as [e|] eqn:Ev; cbn [fst snd]; intros E1; [by apply HQ|].
  apply gwp_catch, gwp_sql; [done|]. intros now2 uuid2 p2 Hc2 E2. apply gwp_ret, HQ; [done|].
  intros ? [= <-]. rewrite E2. simpl. rewrite E1. simpl. split_and!; try done.
  - split; [done|]. intros s. unfold stub_related, workspace_of, storage_of. simpl.
    rewrite find_app_touched by done.
    destruct (List.find _ (rows (t_workspace (pg_tables p)))) as [w|]; [|done]. simpl.
    destruct (List.find _ (rows (t_app (pg_tables p)))) as [a|]; [|done]. simpl. by destruct (_ =? app).
  - unfold named. simpl. by rewrite Z.eqb_refl, !String.eqb_refl.
Qed.

Lemma tables_deployed p p' dep wid name ty sid :
  deployment_tables (pg_tables p) ->
  rows (t_deployment (pg_tables p')) = (rows (t_deployment (pg_tables p)) ++ [dep])%list ->
  t_workspace (pg_tables p') = t_workspace (pg_tables p) -> t_stub (pg_tables p') = t_stub (pg_tables p) ->
  named wid name ty dep = true -> de_StubId dep = sid -> 0 <= de_Version dep < 2 ^ 31 ->
  deployment_violates (pg_tables p) dep = None -> deployment_tables (pg_tables p').
Proof using Type.
  clear EncryptionKey md5_hex. intros [H1 H2 H3 H5 H4] E Ew Es Hn Hs Hv Hviol.
  assert (forall d, d ∈ rows (t_deployment (pg_tables p')) ->
    d ∈ rows (t_deployment (pg_tables p)) \/ d = dep) as Hin.
  { intros d. rewrite E, elem_of_app, list_elem_of_singleton. tauto. }
  assert (forall id, workspace_of (pg_tables p') id = workspace_of (pg_tables p) id) as Hwo
    by (intros id; unfold workspace_of; by rewrite Ew).
  unfold deployment_violates in Hviol. destruct (negb _ || _); [done|]. destruct (negb _); [done|].
  destruct (existsb _ _); [done|]. destruct (workspace_of _ _) as [w|] eqn:Hw; [|done].
  destruct (existsb (λ s, st_Id s =? de_StubId dep) _) eqn:Hst; [|done].
  split.
  - intros d Hd. rewrite Hwo. destruct (Hin d Hd) as [Hd0| ->]; [by apply H1|by exists w].
  - intros d Hd. rewrite Es. destruct (Hin d Hd) as [Hd0| ->]; [by apply H2|].
    apply existsb_exists in Hst as (s & Hs1 & Hs2).
    destruct (List.find _ _) as [s'|] eqn:Ef; [by exists s'|]. by rewrite (find_none _ _ Ef s Hs1) in Hs2.
  - by rewrite Es.
  - by rewrite Es.
  - intros d Hd. destruct (Hin d Hd) as [Hd0| ->]; [by apply H4|done].
Qed.

(** The name stands for the stub of its greatest version. *)
Lemma gwp_lookup authInfo name ty dep st p d L (Q : http_err + string -> pg -> rdb -> lmap -> Prop) :
  calm p -> deployment_tables (pg_tables p) -> ty ∈ stub_types -> text_ok name = true ->
  dep ∈ rows (t_deployment (pg_tables p)) -> named (wk_Id (ai_Workspace authInfo)) name ty dep = true ->
  de_Active dep = true -> de_DeletedAt dep = None ->
  (forall d', d' ∈ rows (t_deployment (pg_tables p)) -> named (wk_Id (ai_Workspace authInfo)) name ty d' = true ->
     d' = dep \/ de_Version d' < de_Version dep) ->
  st ∈ rows (t_stub (pg_tables p)) -> st_Id st = de_StubId dep ->
  (forall p', calm p' -> pg_tables p' = pg_tables p -> Q (inr (st_ExternalId st)) p' d L) ->
  gwp err (deployment_stub authInfo name "" ty) Q p d L.
Proof using Type.
  intros Hc Ht Hty Htx Hd Hn Ha Hdel Hmax Hst Hid HQ. unfold deployment_stub. apply gwp_catch.
  cbn [String.eqb]. apply gwp_catch. unfold GetLatestDeploymentByName, or_none. apply gwp_bind, gwp_select; [done|].
  intros p' Hc' E. unfold texts. cbn [forallb]. rewrite Htx, bool_decide_true by done. cbn [andb].
  change (omap _ _) with (candidates false (wk_Id (ai_Workspace authInfo)) name ty (pg_tables p)).
  destruct (candidate_of false (wk_Id (ai_Workspace authInfo)) name ty _ dep Ht Hd Hn) as (x & Hx & Ex).
  { unfold is_live. by rewrite bool_decide_true. }
  destruct (latest_first_top (λ d, de_Version (dwr_Deployment d)) _ x Hx) as [l' ->].
  { intros y Hy. apply elem_candidates in Hy as (Hy1 & Hy2 & Hy3). apply elem_candidates in Hx as (_ & _ & Hx3).
    rewrite Ex in *. destruct (Hmax _ Hy1 Hy2) as [Ey|Hlt]; [left|by right].
    rewrite Ey in Hy3. by rewrite Hx3 in Hy3; injection Hy3. }
  apply gwp_ret. apply gwp_ret. rewrite Ex, Ha.
  assert (st_ExternalId (dwr_Stub x) = st_ExternalId st) as ->; [|apply gwp_ret; by apply HQ].
  apply elem_candidates in Hx as (_ & _ & Hx3). rewrite Ex in Hx3. unfold deployment_related in Hx3.
  apply bind_Some in Hx3 as (w & _ & Hx3). apply bind_Some in Hx3 as (s & Hs & Hx3). simpl in Hx3.
  injection Hx3 as <-. simpl. apply find_some in Hs as [Hs1 Hs2]. apply Z.eqb_eq in Hs2.
  apply list_elem_of_In in Hs1. by rewrite (dt_stub_ids _ Ht s st Hs1 Hst) by congruence.
Qed.

(** A caller may use a stub of its own workspace. *)
Lemma gwp_allowed authInfo ext s c p d L (Q : http_err + unit -> pg -> rdb -> lmap -> Prop) :
  calm p -> uuid_in ext = Some ext -> stub_answer ext (pg_tables p) = inr (Some s) ->
  wk_ExternalId (sr_Workspace s) = wk_ExternalId (ai_Workspace authInfo) ->
  decode_config (st_Config (sr_Stub s)) = inr c ->
  (forall p', calm p' -> pg_tables p' = pg_tables p -> Q (inr tt) p' d L) ->
  gwp err (stub_allowed EncryptionKey authInfo ext) Q p d L.
Proof using Type.
  intros Hc Hu Hs Hw Hcfg HQ. unfold stub_allowed. apply gwp_catch. eapply gwp_stub_answer; [done..|].
  intros p' Hc' E. rewrite Hs, Hcfg, Hw, String.eqb_refl. simpl. rewrite andb_false_r. by apply gwp_ret, HQ.
Qed.

(** What a successful deployment leaves behind. *)
Definition deployed (t t' : tables) (wid : Z) (name ty : string) (st : Stub) (dep : Deployment) : Prop :=
  rows (t_deployment t') = (rows (t_deployment t) ++ [dep])%list /\
  named wid name ty dep = true /\ de_Active dep = true /\ de_StubId dep = st_Id st /\
  forall d, d ∈ rows (t_deployment t) -> named wid name ty d = true -> de_Version d < de_Version dep.

Lemma gwp_deploy nowS url authInfo id name p d L :
  calm p -> deployment_tables (pg_tables p) ->
  (forall s, s ∈ rows (t_stub (pg_tables p)) -> uuid_in id = Some (st_ExternalId s) ->
     st_Type s <> StubTypeScheduledJobDeployment) ->
  gwp err (DeployStub EncryptionKey md5_hex nowS url authInfo id name) (λ a p' _ _,
    forall ext v u, a = inr (Ok (ext, v, u)) -> exists st dep,
      calm p' /\ deployment_tables (pg_tables p') /\ t_stub (pg_tables p') = t_stub (pg_tables p) /\
      (exists s c, stub_answer (st_ExternalId st) (pg_tables p') = inr (Some s) /\ sr_Stub s = st /\
         wk_ExternalId (sr_Workspace s) = wk_ExternalId (ai_Workspace authInfo) /\
         decode_config (st_Config st) = inr c) /\
      st ∈ rows (t_stub (pg_tables p)) /\ uuid_in id = Some (st_ExternalId st) /\
      st_Type st ∈ stub_types /\ text_ok name = true /\ de_DeletedAt dep = None /\
      de_ExternalId dep = ext /\ de_Version dep = v /\
      deployed (pg_tables p) (pg_tables p') (wk_Id (ai_Workspace authInfo)) name (st_Type st) st dep) p d L.
Proof using Type.
  intros Hc Ht Hsch. unfold DeployStub, attempt. apply gwp_bind, gwp_stub; [done|].
  intros [e|[s|]] p1 Hc1 E1 Hs; [destruct (is_panic e); by apply gwp_ret| |by apply gwp_ret].
  destruct (Hs s eq_refl) as (Hst & Hid & Hans). cbv zeta.
  destruct (String.eqb_spec (wk_ExternalId (sr_Workspace s)) (wk_ExternalId (ai_Workspace authInfo))) as [Hown|];
    cbn [negb]; [|by apply gwp_ret].
  rewrite <- E1 in Ht. apply gwp_bind, gwp_latest; [done..|].
  intros [e|latest] p2 Hc2 E2 Hl; [destruct (is_panic e); by apply gwp_ret|].
  destruct (Hl latest eq_refl) as (Hty & Htx & Hv). clear Hl. rewrite E1 in E2, Hv.
  assert (String.eqb (st_Type (sr_Stub s)) StubTypeScheduledJobDeployment = false) as ->.
  { apply String.eqb_neq. by apply Hsch. }
  apply gwp_bind.
  replace (match latest with Some _ => done_ tt | None => done_ tt end) with (done_ tt : DB unit) by by destruct latest.
  apply gwp_ret. apply gwp_bind. apply gwp_CreateDeployment; [done|].
  intros [e|dep] p3 Hc3 Hdep; [destruct (is_panic e); by apply gwp_ret|].
  destruct (Hdep dep eq_refl) as (Hr & Hw & Hstub & Hn & Ha & Hdel & Hsid & Hver & Hint & Hviol). clear Hdep.
  rewrite E2 in Hr, Hw, Hstub, Hviol. rewrite E1 in Ht. pose proof (proj1 Hstub) as Hstub1.
  assert (0 <= de_Version dep < 2 ^ 31) as Hrange.
  { rewrite Hver. split; [|unfold in_i in Hint; lia]. unfold next_version, wrap_u64, wrap_u.
    destruct latest; [apply Z.mod_pos_bound|]; lia. }
  destruct (BuildDeploymentURL _ _ _ _) as [e|invokeUrl]; [by apply gwp_ret|].
  destruct (decode_config _) as [e|config] eqn:Hcfg; [by apply gwp_ret|].
  destruct (sc_Autoscaler config) as [a|]; [|by apply gwp_ret].
  apply gwp_bind. apply (gwp_mono _ (λ _ p' _ _, p' = p3)).
  - intros u p' d' L' ->. apply gwp_ret. intros ext v u' [= <- <- <-]. exists (sr_Stub s), dep.
    rewrite Z.mod_small by lia. rewrite Hver in *.
    assert (deployment_tables (pg_tables p3)) by (eapply (tables_deployed p p3 dep); try done; by rewrite Hver).
    split_and!; try done; [|unfold deployed; rewrite Hver; by split_and!].
    exists s, config. by rewrite (stub_answer_same _ _ _ Hstub).
  - destruct (0 <? as_MinContainers a); [|by apply gwp_ret]. apply gwp_bind, gwp_redis.
    eapply wp_mono; [|apply wp_any]. by intros x d' L' _.
Qed.
End latest.

(** The stub a request is given and the entry that is added to the cache: [stub], unless the
    cache has an answer. *)
Definition served (cached : option string) (key stub : string) : string * option (string * string) :=
  match cached with Some old => (old, None) | None => (stub, Some (key, stub)) end.

(** C20. A stub that is deployed under a name becomes the latest version of it, with a
    database that does not fail (Redis may; scheduled jobs, whose previous deployment is
    stopped first, are left out): the deployment is added with a version greater than that
    of every deployment the name ever had, deleted ones included, no other deployment is
    touched, and a request of the caller for the name that the cache of stubs cannot answer
    is then given this stub, which is cached.  A request that the cache can answer is given
    the cached stub, whatever was deployed since (entries live for five minutes). *)
Theorem deployed_stub_is_latest {P : PgWorld} {C : AesGcm} {SS : SchedulerServices} {EC : EventCodec}
    {J : StubConfigJson} `{S : RedisServer, SL : !RedisLaws S} (EncryptionKey : string) (md5_hex : string -> string)
    (nowS : Z) (url : option (string * string)) (authInfo : AuthInfo) (id name ty sid : string)
    (cached : option string) (s : srv) (L : lmap) (p : pg) :
  calm p -> deployment_tables (pg_tables p) -> name <> "" ->
  (forall st, st ∈ rows (t_stub (pg_tables p)) -> uuid_in id = Some (st_ExternalId st) -> st_Type st = ty) ->
  ty <> StubTypeScheduledJobDeployment ->
  ends ((DeployStub EncryptionKey md5_hex nowS url authInfo id name ≫= λ a,
         ParseAndValidateDeploymentStubId EncryptionKey cached authInfo sid name "" ty ≫= λ b,
         mret (a, b)) p) s L (λ '(x, p') _,
    forall ext v u, x.1 = inr (Ok (ext, v, u)) -> exists st dep,
      uuid_in id = Some (st_ExternalId st) /\ de_ExternalId dep = ext /\ de_Version dep = v /\
      deployed (pg_tables p) (pg_tables p') (wk_Id (ai_Workspace authInfo)) name ty st dep /\
      x.2 = inr (served cached (makeCacheKey authInfo sid name "" ty) (st_ExternalId st))).
Proof.
  intros Hc Ht Hname Hty Hsch. apply ends_wp.
  set (post := λ (x : ((grpc_err + reply (string * Z * string)%type) * (http_err + (string * option (string * string))%type))%type) (p' : pg)
    (_ : rdb) (_ : lmap),
    forall ext v u, x.1 = inr (Ok (ext, v, u)) -> exists st dep,
      uuid_in id = Some (st_ExternalId st) /\ de_ExternalId dep = ext /\ de_Version dep = v /\
      deployed (pg_tables p) (pg_tables p') (wk_Id (ai_Workspace authInfo)) name ty st dep /\
      x.2 = inr (served cached (makeCacheKey authInfo sid name "" ty) (st_ExternalId st))).
  eapply wp_mono; [|apply (gwp_bind (err := @lost) (DeployStub EncryptionKey md5_hex nowS url authInfo id name) _ post)];
    [by intros [x p'] d' L'|].
  eapply gwp_mono; [|apply gwp_deploy; [done..|]; intros st Hst Hu; by rewrite (Hty st Hst Hu)].
  intros a p1 d1 L1 Ha. apply gwp_bind.
  destruct a as [e|[[[ext v] u]|msg]];
    [by eapply gwp_mono; [|apply gwp_any]; intros b p2 d2 L2 _; apply gwp_ret| |
     by eapply gwp_mono; [|apply gwp_any]; intros b p2 d2 L2 _; apply gwp_ret].
  destruct (Ha ext v u eq_refl) as (st & dep & Hc1 & Ht1 & Es & (sr & c & Hans & Esr & Hown & Hcfg) & Hst & Hu &
    Hsty & Htx & Hdel & He & Hv & Hdep).
  rewrite (Hty st Hst Hu) in *. pose proof Hdep as (Hr & Hn & Hact & Hsid & Hmax).
  unfold ParseAndValidateDeploymentStubId. destruct cached as [old|].
  { repeat apply gwp_ret. intros ext' v' u' [= <- <- <-]. exists st, dep. by split_and!. }
  rewrite (proj2 (String.eqb_neq name "") Hname). apply gwp_catch. eapply gwp_lookup; try done.
  - rewrite Hr. apply elem_of_app. right. by apply list_elem_of_singleton.
  - intros d' Hd'. rewrite Hr in Hd'. apply elem_of_app in Hd' as [Hd'|Hd']; intros Hn'; [right; by apply Hmax|].
    left. by apply list_elem_of_singleton in Hd'.
  - by rewrite Es.
  - intros p2 Hc2 E2. destruct (dt_stub_uuids _ Ht st Hst) as [Huu Hne].
    rewrite (proj2 (String.eqb_neq _ "") Hne). apply gwp_catch.
    eapply (gwp_allowed _ authInfo (st_ExternalId st) sr c); [done..|by rewrite E2|done|by rewrite Esr|].
    intros p3 Hc3 E3. repeat apply gwp_ret. intros ext' v' u' [= <- <- <-]. exists st, dep.
    rewrite E3, E2. by split_and!.
Qed.

(** ** Examples *)

Definition ex_config : StubConfigV1 := mkStubConfigV1 (Some (mkAutoscalerConfig 1 1 0)) 0 true false false [] "".
Definition ex_config_json : StubConfigJson :=
  {| unmarshal_config s := if String.eqb s "{}" then inr (Some ex_config) else inl (EMsg "invalid character");
     marshal_config _ := inl (EMsg "unsupported") |}.
Definition ex_dep_stub (id : Z) (ext : string) : Stub := mkStub id ext "fn" "endpoint/deployment" "{}" 0 1 1 0 0 false 1.
Definition ex_dep (id v sid : Z) (ext : string) (deleted : option Z) : Deployment :=
  mkDeployment id ext "api" true "api-aaaaaaa" 1 sid "endpoint/deployment" v 0 0 deleted 1.
Definition ex_dep_workspace : Workspace := mkWorkspace 1 "ws-1" "acme" 0 0 None false false None None None None.
Definition ex_dep_tables : tables :=
  set_deployments (set_stubs (set_objects (set_apps (set_workspaces empty_tables (mkTable [ex_dep_workspace] 2))
    (mkTable [mkApp 1 "app-1" "app" "" 1 0 0 None] 2))
    (mkTable [mkObject 1 "obj-1" "" 0 1 0] 2))
    (mkTable [ex_dep_stub 1 "stub-1"; ex_dep_stub 2 "stub-2"] 3))
    (mkTable [ex_dep 1 1 1 "dep-1" None; ex_dep 2 2 1 "dep-2" (Some 5)] 3).
Definition ex_dep_caller : AuthInfo :=
  mkAuthInfo (mkToken 1 "token-1" "key-1" true true (Some 1) None TokenTypeWorkspace 0 0 false) ex_dep_workspace.
Definition ex_events : EventCodec :=
  {| serialize _ := inr "event"; deserialize _ := inl (EMsg "json"); event_hash s := s |}.
Definition ex_dep_services : SchedulerServices :=
  {| GetRegistryTokenForImage _ _ := inr ""; send_stop_event _ := ok tt |}.

(** Version 1 is live and version 2 was deleted: the second stub becomes version 3. *)
Lemma deployed_stub_is_latest_witness :
  let run cached := (DeployStub (P := plain_pg) (C := plain_cipher) (SS := ex_dep_services) (EC := ex_events)
                (J := ex_config_json) "" (λ _, "0123456789") 7 (Some ("https", "beta9.test")) ex_dep_caller "stub-2" "api"
              ≫= λ a, ParseAndValidateDeploymentStubId (P := plain_pg) (C := plain_cipher) (J := ex_config_json) "" cached
                        ex_dep_caller "" "api" "" "endpoint/deployment" ≫= λ b, mret (a, b))
               (mkPg ex_dep_tables [] 0) in
  let key := "ws-1||api||endpoint/deployment" in
  (forall cached, ends (run cached) (on empty_rdb) ∅ (λ '(x, p') _,
    forall ext v u, x.1 = inr (Ok (ext, v, u)) -> exists st dep,
      Some "stub-2" = Some (st_ExternalId st) /\ de_ExternalId dep = ext /\ de_Version dep = v /\
      deployed ex_dep_tables (pg_tables p') 1 "api" "endpoint/deployment" st dep /\
      x.2 = inr (served cached (makeCacheKey ex_dep_caller "" "api" "" "endpoint/deployment") (st_ExternalId st)))) /\
  ends (run None) (on empty_rdb) ∅ (λ '(x, _) _,
    exists ext, x = (inr (Ok (ext, 3, "https://beta9.test/endpoint/api/v3")), inr ("stub-2", Some (key, "stub-2")))) /\
  ends (run (Some "stub-1")) (on empty_rdb) ∅ (λ '(x, _) _,
    exists ext, x = (inr (Ok (ext, 3, "https://beta9.test/endpoint/api/v3")), inr ("stub-1", None))).
Proof.
  intros run key. split; [|split; vm_compute; eexists; reflexivity]. intros cached.
  refine (deployed_stub_is_latest (P := plain_pg) (C := plain_cipher) (SS := ex_dep_services) (EC := ex_events)
    (J := ex_config_json) "" (λ _, "0123456789") 7 (Some ("https", "beta9.test")) ex_dep_caller "stub-2" "api"
    "endpoint/deployment" "" cached (on empty_rdb) ∅ (mkPg ex_dep_tables [] 0) eq_refl _ _ _ _).
  - split; cbn [ex_dep_tables pg_tables set_deployments t_deployment t_stub rows].
    + intros d Hd. apply elem_of_cons in Hd as [->|Hd]; [|apply list_elem_of_singleton in Hd as ->]; by vm_compute; eauto.
    + intros d Hd. apply elem_of_cons in Hd as [->|Hd]; [|apply list_elem_of_singleton in Hd as ->]; by vm_compute; eauto.
    + intros a b Ha Hb E. apply elem_of_cons in Ha as [->|Ha]; apply elem_of_cons in Hb as [->|Hb];
        try apply list_elem_of_singleton in Ha as ->; try apply list_elem_of_singleton in Hb as ->; done.
    + intros st Hst. apply elem_of_cons in Hst as [->|Hst]; [done|]. by apply list_elem_of_singleton in Hst as ->.
    + intros d Hd. apply elem_of_cons in Hd as [->|Hd]; [|apply list_elem_of_singleton in Hd as ->]; by vm_compute.
  - done.
  - cbn [ex_dep_tables pg_tables set_deployments t_deployment set_stubs t_stub rows]. intros st Hst _.
    apply elem_of_cons in Hst as [->|Hst]; [done|]. by apply list_elem_of_singleton in Hst as ->.
  - done.
Defined.
