(* ===== verification/ApiProps.v ===== *)
(** * What the handlers of the API guarantee

    Calls for tasks and requests for tokens leave what belongs to other workspaces alone,
    whatever the database and Redis answer; a new concurrency limit is the one that the
    scheduler reads; a secret is read back as it was written. *)

From S2P Require Import Prelude GoStd Redis Keys Types Codec Env WorkspaceRepo ContainerRepo ProviderRepo ProviderProps Scheduler SchedulerProps TaskRepo Dispatcher TaskQueue Postgres Crypto Backend AuthCache Auth Api TaskApi.

Local Open Scope Z_scope.
Set Default Proof Using "Type".

Section isolation.
Context {P : PgWorld} {C : AesGcm} (EncryptionKey : string).

(** ** Tasks *)

(** The tasks of the other workspaces. *)
Definition other_tasks (wid : Z) (t : tables) : list Task :=
  List.filter (λ x, negb (ta_WorkspaceId x =? wid)) (rows (t_task t)).

(** Which workspace a task belongs to. *)
Definition owners (t : tables) : list (string * Z) :=
  map (λ x, (ta_ExternalId x, ta_WorkspaceId x)) (rows (t_task t)).

Record tasks_kept (wid : Z) (t0 t : tables) : Prop := {
  kept_workspaces : t_workspace t = t_workspace t0;
  kept_owners : owners t = owners t0;
  kept_others : other_tasks wid t = other_tasks wid t0;
}.

(** External ids are unique UUIDs, as are those of the workspaces. *)
Record task_tables (ext : string) (wid : Z) (t : tables) : Prop := {
  tt_unique : NoDup (owners t).*1;
  tt_canonical : forall x, x ∈ rows (t_task t) -> uuid_in (ta_ExternalId x) = Some (ta_ExternalId x);
  tt_workspace : forall w, w ∈ rows (t_workspace t) -> wk_ExternalId w = ext -> wk_Id w = wid;
}.

Lemma update_kept {R} (p keep : R -> bool) (f : R -> R) (l : list R) :
  (forall x, x ∈ l -> p x = true -> keep x = false /\ keep (f x) = false) ->
  List.filter keep (map (λ x, if p x then f x else x) l) = List.filter keep l.
Proof.
  induction l as [|x l IH]; intros H; simpl; [done|].
  rewrite IH by (intros y Hy; apply H; apply elem_of_cons; by right).
  destruct (p x) eqn:Hp; [|done].
  destruct (H x ltac:(apply elem_of_cons; by left) Hp) as [-> ->]. done.
Qed.

Lemma filter_kept {R} (p keep : R -> bool) (l : list R) :
  (forall x, p x = true -> keep x = false) ->
  List.filter keep (List.filter (λ x, negb (p x)) l) = List.filter keep l.
Proof.
  intros H. induction l as [|x l IH]; simpl; [done|]. destruct (p x) eqn:Hp; simpl; rewrite IH; [|done].
  by rewrite (H x Hp).
Qed.

Lemma nodup_fst {A B} (l : list (A * B)) a b b' : NoDup l.*1 -> (a, b) ∈ l -> (a, b') ∈ l -> b = b'.
Proof.
  induction l as [|[x y] l IH]; simpl; [intros _ H; by apply not_elem_of_nil in H|].
  intros Hd H1 H2. apply NoDup_cons in Hd as [Hx Hd].
  apply elem_of_cons in H1 as [E1|H1]; apply elem_of_cons in H2 as [E2|H2]; simplify_eq; [done|..|by apply IH];
    exfalso; apply Hx, list_elem_of_fmap; [exists (x, b')|exists (x, b)]; done.
Qed.

(** The update of a task of the workspace. *)
Lemma keeps_UpdateTask ext wid t0 x :
  task_tables ext wid t0 -> (ta_ExternalId x, wid) ∈ owners t0 -> ta_WorkspaceId x = wid ->
  uuid_in (ta_ExternalId x) = Some (ta_ExternalId x) ->
  keeps (tasks_kept wid t0) (UpdateTask (ta_ExternalId x) x).
Proof.
  intros Ht Hx Hw Hu. apply keeps_sql. intros now uuid t Hk. unfold checked.
  destruct (texts _ _); [done|]. rewrite Hu. destruct (negb _); [done|]. destruct (negb _); [done|].
  unfold update_rows. cbv beta iota. destruct (omap (task_refs t) _); [|done]. simpl.
  assert (forall y, y ∈ rows (t_task t) -> is_task (ta_ExternalId x) y = true -> ta_WorkspaceId y = wid) as Hy.
  { intros y Hy Hi. apply String.eqb_eq in Hi.
    assert ((ta_ExternalId x, ta_WorkspaceId y) ∈ owners t0) as H.
    { rewrite <- (kept_owners _ _ _ Hk). apply list_elem_of_fmap. exists y. by rewrite Hi. }
    by eapply nodup_fst; [apply (tt_unique _ _ _ Ht)|exact H|]. }
  split; simpl.
  - apply Hk.
  - rewrite <- (kept_owners _ _ _ Hk). unfold owners. simpl. rewrite map_map. apply map_ext_in.
    intros y Hin. apply list_elem_of_In in Hin. destruct (is_task _ y) eqn:Ei; [|done]. simpl.
    by rewrite (Hy y Hin Ei), Hw.
  - rewrite <- (kept_others _ _ _ Hk). apply update_kept. intros y Hin Hi. simpl.
    by rewrite (Hy y Hin Hi), Hw, Z.eqb_refl.
Qed.

(** A task that is found is one of the table, with the workspace it belongs to. *)
Lemma gwp_found_task {err} {B} (k : dberr + option TaskWithRelated -> GM B) ext wid t0 id Q p d L :
  task_tables ext wid t0 -> tasks_kept wid t0 (pg_tables p) ->
  (forall r p', tasks_kept wid t0 (pg_tables p') ->
     (forall task, r = inr (Some task) -> (twr_Workspace task).1 = ext ->
        let x := twr_Task task in
        (ta_ExternalId x, wid) ∈ owners t0 /\ ta_WorkspaceId x = wid /\
        uuid_in (ta_ExternalId x) = Some (ta_ExternalId x)) ->
     gwp err (k r) Q p' d L) ->
  gwp err (GetTaskWithRelated id ≫= k) Q p d L.
Proof.
  intros Ht Hk HQ. apply gwp_bind. unfold GetTaskWithRelated, or_nil. apply gwp_bind.
  set (found := λ t, uuid_param id _).
  assert (forall task, found (pg_tables p) = inr task -> (twr_Workspace task).1 = ext ->
    let x := twr_Task task in
    (ta_ExternalId x, wid) ∈ owners t0 /\ ta_WorkspaceId x = wid /\
    uuid_in (ta_ExternalId x) = Some (ta_ExternalId x)) as Hf.
  { intros task Hf Hext. unfold found, uuid_param in Hf. destruct (uuid_in id) as [u|]; [|done].
    apply get_row_inr, list_elem_of_omap in Hf as (x & Hx & Hr). apply elem_filter_b in Hx as [Hx _].
    unfold task_related in Hr. apply bind_Some in Hr as (w & Ew & Hr). apply bind_Some in Hr as (s & _ & Hr).
    apply bind_Some in Hr as (a & _ & Hr).
    simpl in Hr. injection Hr as <-. simpl in *. unfold workspace_of in Ew.
    apply find_some in Ew as [Hin Hid]. apply Z.eqb_eq in Hid.
    assert (wk_Id w = wid) as Hwid.
    { apply (tt_workspace _ _ _ Ht); [|done]. rewrite <- (kept_workspaces _ _ _ Hk). by apply list_elem_of_In. }
    assert ((ta_ExternalId x, ta_WorkspaceId x) ∈ owners t0) as Ho.
    { rewrite <- (kept_owners _ _ _ Hk). apply list_elem_of_fmap. by exists x. }
    rewrite <- Hid, Hwid in *. split_and!; [done..|].
    apply list_elem_of_fmap in Ho as (x0 & [= E _] & Hx0). rewrite E. by apply (tt_canonical _ _ _ Ht). }
  apply gwp_sql_any.
  - intros now uuid p' E. simpl in E. split; [|intros e]; apply gwp_ret, HQ; rewrite ?E; try done.
    + intros task Htask. simpl in Htask. destruct (found (pg_tables p)) as [e|y] eqn:Ey.
      * by destruct (_ || _).
      * injection Htask as ->. by apply Hf.
    + intros task Htask. by destruct (_ || _).
  - intros p' e E. apply gwp_ret, HQ; rewrite ?E; [done|]. intros task Htask. by destruct (_ || _).
Qed.

(** A task of the workspace, as it is found and as it is written. *)
Definition own_task (wid : Z) (t0 : tables) (x : Task) : Prop :=
  (ta_ExternalId x, wid) ∈ owners t0 /\ ta_WorkspaceId x = wid /\ uuid_in (ta_ExternalId x) = Some (ta_ExternalId x).

Lemma keeps_own ext wid t0 x x' :
  task_tables ext wid t0 -> own_task wid t0 x ->
  ta_ExternalId x' = ta_ExternalId x -> ta_WorkspaceId x' = ta_WorkspaceId x ->
  keeps (tasks_kept wid t0) (UpdateTask (ta_ExternalId x) x').
Proof. intros Ht (H1 & H2 & H3) E1 E2. rewrite <- E1 in *. apply (keeps_UpdateTask ext); [done..|congruence|done]. Qed.

Lemma keeps_grpc_stopTask now authInfo ext wid t0 task :
  task_tables ext wid t0 -> own_task wid t0 (twr_Task task) ->
  keeps (tasks_kept wid t0) (grpc_stopTask now authInfo task).
Proof.
  intros Ht Ho. unfold grpc_stopTask. destruct (IsCompleted _); [apply keeps_mret|].
  keeps_step; [apply keeps_on_redis|]. keeps_step; [apply keeps_on_redis|].
  keeps_step; [|apply keeps_mret]. by eapply keeps_own.
Qed.

Lemma gwp_stop_tasks {err} now authInfo wid t0 ids p d L :
  task_tables (wk_ExternalId (ai_Workspace authInfo)) wid t0 -> tasks_kept wid t0 (pg_tables p) ->
  gwp err (stop_tasks now authInfo ids) (λ _ p' _ _, tasks_kept wid t0 (pg_tables p')) p d L.
Proof.
  intros Ht. revert p d L. induction ids as [|id ids IH]; intros p d L Hk; simpl; [done|].
  eapply gwp_found_task; [done..|]. intros r p' Hk' Htask.
  destruct r as [e|[task|]]; [by apply gwp_ret| |by apply gwp_ret].
  destruct (String.eqb_spec (twr_Workspace task).1 (wk_ExternalId (ai_Workspace authInfo))) as [E|_];
    [|by apply gwp_ret].
  specialize (Htask task eq_refl E). simpl. apply gwp_bind.
  eapply gwp_mono; [|by eapply keeps_grpc_stopTask]. intros [e|[]] p2 d2 L2 Hk2; [by apply gwp_ret|by apply IH].
Qed.

Lemma gwp_StartTask {err} now authInfo wid t0 id c p d L :
  task_tables (wk_ExternalId (ai_Workspace authInfo)) wid t0 -> tasks_kept wid t0 (pg_tables p) ->
  gwp err (StartTask now authInfo id c) (λ _ p' _ _, tasks_kept wid t0 (pg_tables p')) p d L.
Proof.
  intros Ht Hk. unfold StartTask. destruct (negb (HasPermission _)); [by apply gwp_ret|].
  eapply gwp_found_task; [done..|]. intros r p' Hk' Htask.
  destruct r as [e|[task|]]; [by apply gwp_ret| |by apply gwp_ret].
  destruct (String.eqb_spec (twr_Workspace task).1 (wk_ExternalId (ai_Workspace authInfo))) as [E|_];
    [|by apply gwp_ret].
  specialize (Htask task eq_refl E). simpl. destruct (IsCompleted _); [by apply gwp_ret|].
  apply (keeps_mbind (tasks_kept wid t0)); [apply keeps_on_redis| |done]. intros [e|u]; [apply keeps_mret|].
  apply keeps_mbind; [|intros; apply keeps_mret].
  by apply (keeps_own (wk_ExternalId (ai_Workspace authInfo)) wid t0 (twr_Task task)).
Qed.

Lemma gwp_EndTask {err} now cost authInfo wid t0 id c st p d L :
  task_tables (wk_ExternalId (ai_Workspace authInfo)) wid t0 -> tasks_kept wid t0 (pg_tables p) ->
  gwp err (EndTask EncryptionKey now cost authInfo id c st) (λ _ p' _ _, tasks_kept wid t0 (pg_tables p')) p d L.
Proof.
  intros Ht Hk. unfold EndTask. destruct (negb (HasPermission _)); [by apply gwp_ret|].
  eapply gwp_found_task; [done..|]. intros r p' Hk' Htask.
  destruct r as [e|[task|]]; [by apply gwp_ret| |by apply gwp_ret].
  destruct (String.eqb_spec (twr_Workspace task).1 (wk_ExternalId (ai_Workspace authInfo))) as [E|_];
    [|by apply gwp_ret].
  specialize (Htask task eq_refl E). simpl. destruct (IsCompleted _); [by apply gwp_ret|].
  apply (keeps_mbind (tasks_kept wid t0)); [| |done].
  - destruct (ta_ExternalWorkspaceId _); [|apply keeps_mret]. apply keeps_mbind; [|intros; apply keeps_mret].
    unfold GetWorkspace, decrypt_storage, lift. keeps_tac.
  - intros b. destruct (negb b); [apply keeps_mret|]. apply keeps_mbind; [apply keeps_on_redis|].
    intros [e|u]; [apply keeps_mret|]. apply keeps_mbind; [|intros; apply keeps_mret].
    by apply (keeps_own (wk_ExternalId (ai_Workspace authInfo)) wid t0 (twr_Task task)).
Qed.
End isolation.

(** The calls of a workspace on tasks. *)
Inductive task_call :=
| CallStop (taskIds : list string)
| CallStart (taskId containerId : string)
| CallEnd (cost : option gerr) (taskId containerId status : string).

Section calls.
Context {P : PgWorld} {C : AesGcm} `{S : RedisServer, SL : !RedisLaws S} (EncryptionKey : string).

Definition task_call_run (now : Z) (authInfo : AuthInfo) (c : task_call) : GM unit :=
  match c with
  | CallStop ids => grpc_StopTasks now (Some authInfo) ids ≫= λ _, mret tt
  | CallStart id c => StartTask now authInfo id c ≫= λ _, mret tt
  | CallEnd cost id c st => EndTask EncryptionKey now cost authInfo id c st ≫= λ _, mret tt
  end.

Fixpoint task_calls (calls : list (Z * task_call)) (authInfo : AuthInfo) : GM unit :=
  match calls with
  | [] => mret tt
  | (now, c) :: rest => task_call_run now authInfo c ≫= λ _, task_calls rest authInfo
  end.

Lemma gwp_task_calls {err} calls authInfo wid t0 p d L :
  task_tables (wk_ExternalId (ai_Workspace authInfo)) wid t0 -> tasks_kept wid t0 (pg_tables p) ->
  gwp err (task_calls calls authInfo) (λ _ p' _ _, tasks_kept wid t0 (pg_tables p')) p d L.
Proof.
  intros Ht. revert p d L. induction calls as [|[now c] calls IH]; intros p d L Hk; simpl; [done|].
  apply gwp_bind. eapply gwp_mono; [intros u p' d' L' H; apply IH; exact H|].
  destruct c; simpl; apply gwp_bind.
  - by eapply gwp_mono; [|by apply gwp_stop_tasks].
  - by eapply gwp_mono; [|by apply gwp_StartTask].
  - by eapply gwp_mono; [|by apply gwp_EndTask].
Qed.

(** C16. Whatever the containers of a workspace call for tasks over gRPC (stopping, starting and
    ending any task, by any identifiers), the tasks of every other workspace keep their rows,
    and no task changes hands, also when the database or Redis fails at any step. *)
Theorem task_calls_isolated (s : srv) (L : lmap) (p : pg) (calls : list (Z * task_call)) (authInfo : AuthInfo)
    (wid : Z) :
  task_tables (wk_ExternalId (ai_Workspace authInfo)) wid (pg_tables p) ->
  ends (task_calls calls authInfo p) s L (λ '(_, p') _,
    other_tasks wid (pg_tables p') = other_tasks wid (pg_tables p) /\ owners (pg_tables p') = owners (pg_tables p)).
Proof using Type*.
  intros Ht. apply ends_wp. eapply wp_mono; [|apply (gwp_task_calls (err := @lost) calls authInfo wid (pg_tables p)); [done|by split]].
  intros [u p'] d' L' [_ H1 H2]. by split.
Qed.
End calls.

(** ** Tokens *)

Section tokens.
Context {P : PgWorld} {C : AesGcm} {J : AuthJson} (EncryptionKey : string).

Definition other_tokens (wid : Z) (t : tables) : list Token :=
  List.filter (λ k, negb (of_workspace wid k)) (rows (t_token t)).

Definition tokens_kept (wid : Z) (t0 t : tables) : Prop :=
  t_workspace t = t_workspace t0 /\ other_tokens wid t = other_tokens wid t0.

(** One workspace has the external id [ext], the one with the id [wid]. *)
Definition identifies (ext : string) (wid : Z) (t : tables) : Prop :=
  forall w, w ∈ rows (t_workspace t) -> uuid_in ext = Some (wk_ExternalId w) -> wk_Id w = wid.

Lemma keeps_workspace {A} ext wid t0 (h : dberr -> http_err) (k : Workspace -> handled A) :
  identifies ext wid t0 ->
  (forall w, wk_Id w = wid -> keeps (tokens_kept wid t0) (k w)) ->
  keeps (tokens_kept wid t0) (catch (GetWorkspaceByExternalId ext) h k).
Proof.
  intros Hid Hk err p d L [Hw Ho]. apply gwp_catch. apply gwp_sql_any.
  - intros now uuid p' E. simpl in E. split; [|intros e; by split; rewrite E].
    destruct (first_of _ _) as [e|w] eqn:Ef; [by split; rewrite E|]. apply Hk; [|by split; rewrite E].
    unfold first_of, workspaces_by, uuid_param in Ef. destruct (uuid_in ext) as [u|] eqn:Eu; [|done].
    apply get_row_inr, list_elem_of_fmap in Ef as (w0 & -> & Hin). simpl.
    apply elem_filter_b in Hin as [Hin Hx]. apply String.eqb_eq in Hx. apply Hid; [by rewrite <- Hw|congruence].
  - intros p' e E. by split; rewrite E.
Qed.

Lemma own_token u wid k : is_token u wid k = true -> negb (of_workspace wid k) = false.
Proof. intros H. apply andb_true_iff in H as [_ ->]. done. Qed.

Lemma keeps_ToggleToken wid t0 id : keeps (tokens_kept wid t0) (ToggleToken wid id).
Proof.
  apply keeps_sql. intros now uuid t [H1 H2]. destruct (uuid_in id) as [u|]; [|done]. split; [done|].
  rewrite <- H2. apply update_kept. intros k _ Hk. split; [by eapply own_token|]. simpl.
  by apply (own_token u wid k) in Hk.
Qed.

Lemma keeps_DeleteToken wid t0 id : keeps (tokens_kept wid t0) (DeleteToken wid id).
Proof.
  apply keeps_sql. intros now uuid t [H1 H2]. destruct (uuid_in id) as [u|]; [|done]. split; [done|].
  rewrite <- H2. apply filter_kept. intros k Hk. by eapply own_token.
Qed.

Lemma keeps_CreateToken wid t0 ty b : keeps (tokens_kept wid t0) (CreateToken wid ty b).
Proof.
  unfold CreateToken, generateExternalId. keeps_step; [apply keeps_draw|]. keeps_step; [apply keeps_draw|].
  apply keeps_sql. intros now uuid t [H1 H2]. destruct (bool_decide _); [|done]. unfold insert_row.
  destruct (token_violates _ _); (split; [done|]); rewrite <- H2; [done|].
  unfold other_tokens. simpl. rewrite List.filter_app. simpl. unfold of_workspace at 2. simpl.
  rewrite bool_decide_true by done. simpl. by rewrite app_nil_r.
Qed.
#[local] Hint Resolve keeps_ToggleToken keeps_DeleteToken keeps_CreateToken : db_keeps.

(** The handlers of the routes that a workspace may call. *)
Lemma keeps_token_route r cc wid t0 :
  tk_TokenType (ai_Token cc) <> TokenTypeClusterAdmin ->
  identifies (wk_ExternalId (ai_Workspace cc)) wid t0 ->
  keeps (tokens_kept wid t0) (token_route r (Some cc)).
Proof.
  intros Hty Hid. apply String.eqb_neq in Hty.
  assert (forall A w (next : AuthInfo -> handled A),
    (wk_ExternalId (ai_Workspace cc) = w -> keeps (tokens_kept wid t0) (next cc)) ->
    keeps (tokens_kept wid t0) (WithStrictWorkspaceAuth next w (Some cc))) as Hs.
  { intros A w next H. unfold WithStrictWorkspaceAuth, verifyWorkspaceAuth. rewrite Hty.
    destruct (String.eqb_spec (wk_ExternalId (ai_Workspace cc)) w) as [E|_]; simpl; [|apply keeps_mret].
    destruct (String.eqb (tk_TokenType (ai_Token cc)) TokenTypeWorkspaceRestricted); [apply keeps_mret|by apply H]. }
  destruct r as [w b|w ty|w|w|w id|w id]; unfold token_route;
    [unfold WithClusterAdminAuth; rewrite Hty; apply keeps_mret|apply Hs; intros <-; keeps_step; [|apply keeps_mret]..];
    unfold CreateWorkspaceToken, ListWorkspaceTokens, GetSigningKey, ToggleWorkspaceToken, DeleteWorkspaceToken;
    try (apply keeps_workspace; [done|]; intros ws Hws; subst wid; unfold GetTokenByExternalId, ListTokens; keeps_tac).
  unfold GetWorkspaceByExternalIdWithSigningKey. keeps_tac.
Qed.

(** C17. Whatever a caller who is not a cluster administrator asks of the handlers of tokens, and
    whatever the database and Redis answer, the tokens of every other workspace stay as
    they are. *)
Theorem token_api_isolated `{S : RedisServer, SL : !RedisLaws S} (s : srv) (L : lmap) (p : pg) (r : token_request)
    (cc : AuthInfo) (wid : Z) :
  tk_TokenType (ai_Token cc) <> TokenTypeClusterAdmin ->
  identifies (wk_ExternalId (ai_Workspace cc)) wid (pg_tables p) ->
  ends (token_route r (Some cc) p) s L (λ '(_, p') _,
    other_tokens wid (pg_tables p') = other_tokens wid (pg_tables p)).
Proof.
  intros Hty Hid. apply ends_wp. eapply wp_mono; [|by apply (keeps_token_route r cc wid (pg_tables p) Hty Hid (@lost))].
  by intros [u p'] d' L' [_ H].
Qed.
End tokens.

(** ** Limits *)

Section limits.
Context {P : PgWorld} {BR : BackendRepository}.

(** A limit that was cached is the one that the scheduler reads. *)
Lemma rwp_recached ext limit request d L h :
  limit_ok limit -> cr_WorkspaceId request = ext -> as_hash (kv d !! WorkspaceConcurrencyLimit ext) = Some h ->
  rwp (SetConcurrencyLimitByWorkspaceId ext limit) (λ r d' L',
    r = inr tt /\ rwp (getConcurrencyLimit request) (λ q _ _, q = inr (Some (cached_limit limit))) d' L') d L.
Proof.
  intros Hok <- Hh. unfold SetConcurrencyLimitByWorkspaceId. apply wp_mbind. eapply rwp_rcall_hset; [done..|]. cbn beta iota.
  apply wp_mbind. apply rwp_rcall_expire; [done|]. intros d' Hd. apply wp_Ret. split; [done|].
  unfold getConcurrencyLimit, GetConcurrencyLimitByWorkspaceId. apply wp_mbind. apply wp_mbind.
  eapply rwp_rcall_hgetall; [rewrite Hd; cbn [set_kv kv]; by rewrite lookup_insert_eq|]. cbn beta iota.
  rewrite decide_False by (unfold to_slice; cbn; apply insert_non_empty).
  apply wp_Ret. cbn beta iota. apply wp_Ret. by rewrite limit_hash_roundtrip.
Qed.

(** The database can store a new limit for the workspace of [ext]. *)
Record limit_tables (ext : string) (w : Workspace) (t : tables) : Prop := {
  lt_uuid : uuid_in ext = Some (wk_ExternalId w);
  lt_row : w ∈ rows (t_workspace t);
  lt_ids : NoDup (map wk_Id (rows (t_workspace t)));
  lt_exts : NoDup (map wk_ExternalId (rows (t_workspace t)));
  lt_fresh : forall n l, l ∈ rows (t_limit t) -> cl_ExternalId l <> pg_uuid n;
  lt_next : forall l, l ∈ rows (t_limit t) -> cl_Id l < next_id (t_limit t);
  lt_range : in_u64 (wk_Id w);
}.

Lemma nodup_map {A B} (f : A -> B) l a b : NoDup (map f l) -> a ∈ l -> b ∈ l -> f a = f b -> a = b.
Proof.
  intros Hd Ha Hb E. eapply (nodup_fst (map (λ x, (f x, x)) l) (f a)).
  - change (NoDup (map fst (map (λ x, (f x, x)) l))). rewrite map_map. exact Hd.
  - apply list_elem_of_fmap. by exists a.
  - rewrite E. apply list_elem_of_fmap. by exists b.
Qed.

Lemma find_unique {A} (p : A -> bool) l a :
  a ∈ l -> p a = true -> (forall b, b ∈ l -> p b = true -> b = a) -> List.find p l = Some a.
Proof.
  intros Ha Hp Hu. destruct (List.find p l) as [b|] eqn:E.
  - apply find_some in E as [Hb Hpb]. f_equal. apply Hu; [by apply list_elem_of_In|done].
  - apply list_elem_of_In in Ha. by rewrite (find_none _ _ E a Ha) in Hp.
Qed.

Lemma filter_unique {A} (p : A -> bool) l a :
  a ∈ l -> p a = true -> (forall b, b ∈ l -> p b = true -> b = a) -> exists l', List.filter p l = a :: l'.
Proof.
  intros Ha Hp Hu. destruct (List.filter p l) as [|b l'] eqn:E.
  - assert (a ∈ ([] : list A)) as H by (rewrite <- E; by apply elem_filter_b). by apply not_elem_of_nil in H.
  - assert (b ∈ List.filter p l) as Hb by (rewrite E; apply elem_of_cons; by left).
    apply elem_filter_b in Hb as [Hb Hpb]. rewrite (Hu b Hb Hpb). by exists l'.
Qed.

Lemma limit_tables_row ext w t b : limit_tables ext w t -> b ∈ rows (t_workspace t) ->
  wk_ExternalId b = wk_ExternalId w \/ wk_Id b = wk_Id w -> b = w.
Proof.
  intros Ht Hb [E|E]; [eapply (nodup_map wk_ExternalId)|eapply (nodup_map wk_Id)]; try done; apply Ht.
Qed.

(** The workspace of the request. *)
Lemma first_workspace {A} (f : Workspace -> A) ext w t :
  limit_tables ext w t -> first_of f (workspaces_by ext t) = inr (f w).
Proof.
  intros Ht. unfold workspaces_by, uuid_param. rewrite (lt_uuid _ _ _ Ht).
  destruct (filter_unique (λ w0, String.eqb (wk_ExternalId w0) (wk_ExternalId w)) (rows (t_workspace t)) w)
    as [l' ->]; [apply Ht|apply String.eqb_refl| |done].
  intros b Hb E. apply String.eqb_eq in E. eapply limit_tables_row; [done..|by left].
Qed.

Definition with_limit (l : ConcurrencyLimit) (wid : Z) (t t' : tables) : Prop :=
  t_limit t' = mkTable (rows (t_limit t) ++ [l])%list (next_id (t_limit t) + 1) /\
  t_workspace t' =
    (update_rows (λ w, wk_Id w =? wid) (set_limit_id (Some (cl_Id l))) (t_workspace t)).2.

(** The database answers with the limit that was stored. *)
Lemma stored_limit ext w t t' l :
  limit_tables ext w t -> cl_Id l = next_id (t_limit t) -> with_limit l (wk_Id w) t t' ->
  exists l', current_limits (wk_ExternalId w) t' = l :: l'.
Proof.
  intros Ht Hid [E1 E2]. unfold current_limits. rewrite E1, E2. simpl.
  apply filter_unique.
  - apply elem_of_app. right. by apply list_elem_of_singleton.
  - apply existsb_exists. exists (set_limit_id (Some (cl_Id l)) w). split; simpl.
    + apply in_map_iff. exists w. rewrite Z.eqb_refl. split; [done|]. apply list_elem_of_In, Ht.
    + by rewrite String.eqb_refl, bool_decide_true.
  - intros b Hb Hx. apply existsb_exists in Hx as (w' & Hw' & Hx). apply andb_true_iff in Hx as [Hx1 Hx2].
    apply String.eqb_eq in Hx1. apply bool_decide_eq_true in Hx2.
    apply in_map_iff in Hw' as (w0 & <- & Hw0). apply list_elem_of_In in Hw0.
    assert (w0 = w) as ->. { eapply limit_tables_row; [done..|]. left. by destruct (wk_Id w0 =? wk_Id w). }
    rewrite Z.eqb_refl in Hx2. simpl in Hx2. apply elem_of_app in Hb as [Hb|Hb].
    + pose proof (lt_next _ _ _ Ht b Hb). injection Hx2 as Hx2. lia.
    + by apply list_elem_of_singleton in Hb.
Qed.

Lemma gwp_CreateLimit ext w gpu cpu p d L (Q : dberr + ConcurrencyLimit -> pg -> rdb -> lmap -> Prop) :
  calm p -> limit_tables ext w (pg_tables p) -> 0 <= gpu < 2 ^ 31 -> 0 <= cpu < 2 ^ 31 ->
  (forall l p', calm p' -> cl_Id l = next_id (t_limit (pg_tables p)) -> cl_WorkspaceId l = wk_Id w ->
     cl_GPULimit l = gpu -> cl_CPUMillicoreLimit l = cpu ->
     with_limit l (wk_Id w) (pg_tables p) (pg_tables p') -> Q (inr l) p' d L) ->
  gwp (@stuck) (Backend.CreateConcurrencyLimit (wk_Id w) gpu cpu) Q p d L.
Proof.
  intros Hc Ht Hg Hcpu HQ. unfold Backend.CreateConcurrencyLimit. apply gwp_catch, gwp_sql_at; [done|].
  intros n p1 Hc1. unfold int4, in_i. rewrite !bool_decide_true by (simpl; lia). cbn [andb negb].
  unfold on_table, insert_row. set (l := mkConcurrencyLimit _ _ _ _ _ _ _).
  assert (limit_violates (pg_tables p) l = None) as ->.
  { unfold limit_violates, workspace_of. cbn [base.mbind option_bind]. rewrite (find_unique _ _ w); [|apply Ht|simpl; apply Z.eqb_refl|].
    - destruct (existsb _ _) eqn:Ex; [|done]. apply existsb_exists in Ex as (l' & Hl' & E).
      apply String.eqb_eq in E. apply list_elem_of_In in Hl'. by apply (lt_fresh _ _ _ Ht n) in Hl'.
    - simpl. intros b Hb E. apply Z.eqb_eq in E. eapply limit_tables_row; [done..|by right]. }
  cbn [fst snd]. intros E1. apply gwp_catch, gwp_sql; [done|]. intros now uuid p2 Hc2 E2. apply gwp_ret.
  apply HQ; try done. unfold with_limit. rewrite E2. simpl. rewrite E1. done.
Qed.

(** C18. Once the creation of a concurrency limit was answered, it is the limit that the scheduler
    reads for the requests of the workspace, from the cache, whatever was cached before, and
    also the one that the database holds for the time after the entry has expired. *)
Theorem new_limit_enforced `{S : RedisServer, SL : !RedisLaws S} (I : srv -> Prop) (s : srv) (L : lmap) (p : pg)
    (ext : string) (w : Workspace) (gpu cpu : Z) (cc : AuthInfo) (request : ContainerRequest)
    (h : gmap string string) :
  reliable I -> I s -> calm p -> limit_tables ext w (pg_tables p) ->
  0 <= gpu < 2 ^ 31 -> 0 <= cpu < 2 ^ 31 -> cr_WorkspaceId request = ext ->
  as_hash (kv (view s) !! WorkspaceConcurrencyLimit ext) = Some h ->
  ends ((http_CreateConcurrencyLimit ext (Some (gpu, cpu)) cc ≫= λ r,
         on_redis (getConcurrencyLimit request) ≫= λ q,
         Backend.GetConcurrencyLimitByWorkspaceId ext ≫= λ b, mret (r, q, b)) p) s L
    (λ '(x, _) _, exists l q b, x = (inr l, inr (Some q), inr b) /\
       Forall (λ l, cl_GPULimit l = gpu /\ cl_CPUMillicoreLimit l = cpu) [l; q; b]).
Proof.
  intros HR HI Hc Ht Hg Hcpu Hr Hh. apply (ends_rwp I); [done..|].
  eapply wp_mono; [|apply (gwp_bind (http_CreateConcurrencyLimit ext (Some (gpu, cpu)) cc) _
    (λ x _ _ _, exists l q b, x = (inr l, inr (Some q), inr b) /\
       Forall (λ l, cl_GPULimit l = gpu /\ cl_CPUMillicoreLimit l = cpu) [l; q; b]))]; [by intros [x p']|].
  unfold http_CreateConcurrencyLimit. apply gwp_catch. apply gwp_select; [done|]. intros p1 Hc1 E1.
  rewrite (first_workspace _ ext w) by done. rewrite <- E1 in Ht. apply gwp_catch.
  change (wk_Id _) with (wk_Id w). eapply gwp_CreateLimit; [done..|].
  intros l p2 Hc2 Hid Hw El1 El2 Hwl. destruct (stored_limit _ _ _ _ _ Ht Hid Hwl) as [l' Hl'].
  apply gwp_catch, gwp_redis. eapply wp_mono; [|eapply rwp_recached; [|done..]].
  2: { split_and!; [rewrite Hw; apply Ht|unfold in_u; rewrite El1; lia|unfold in_u; rewrite El2; lia]. }
  intros r d' L' [-> Hget]. apply gwp_ret. apply gwp_bind, gwp_redis.
  eapply wp_mono; [|exact Hget]. intros q d2 L2 ->. apply gwp_bind. apply gwp_select; [done|].
  intros p3 Hc3 E3. unfold uuid_param. rewrite (lt_uuid _ _ _ Ht), Hl'. apply gwp_ret.
  eexists _, _, _. split; [reflexivity|]. by repeat constructor.
Qed.
End limits.

(** ** Secrets *)

Section secrets.
Context {P : PgWorld} {PL : PgLaws P} {C : AesGcm} {CL : AesGcmLaws C}.

(** The workspace of the requests has the signing key that encodes [key]; the token of the
    caller is in the database. *)
Record secret_tables (ext : string) (w : Workspace) (key : string) (tokenId : Z) (t : tables) : Prop := {
  st_uuid : uuid_in ext = Some (wk_ExternalId w);
  st_row : w ∈ rows (t_workspace t);
  st_ids : NoDup (map wk_Id (rows (t_workspace t)));
  st_exts : NoDup (map wk_ExternalId (rows (t_workspace t)));
  st_key : wk_SigningKey w = Some ("sk_" +:+ b64_encode false key);
  st_aes : aes_key key = true;
  st_token : exists k, k ∈ rows (t_token t) /\ tk_Id k = tokenId;
  st_rand : forall n, exists b, go_rand n NonceSize = inr b;
}.

(** The secret with this name has the value [v]. *)
Definition has_secret (key : string) (w : Workspace) (name v : string) (t : tables) : Prop :=
  exists s, List.filter (is_secret w name) (rows (t_secret t)) = [s] /\ se_Name s = name /\
    Decrypt key (se_Value s) = inr v.

(** Nothing but the secrets is changed. *)
Definition same_but_secrets (t t' : tables) : Prop := t_workspace t' = t_workspace t /\ t_token t' = t_token t.

Lemma gwp_signing_key {A} ext w key tokenId (h : dberr -> http_err) (k : Workspace -> handled A) Q p d L :
  calm p -> secret_tables ext w key tokenId (pg_tables p) ->
  (forall w' p', calm p' -> pg_tables p' = pg_tables p -> wk_Id w' = wk_Id w -> signing_key w' = inr key ->
     gwp (@stuck) (k w') Q p' d L) ->
  gwp (@stuck) (catch (GetWorkspaceByExternalIdWithSigningKey ext) h k) Q p d L.
Proof.
  intros Hc Ht HQ. apply gwp_catch, gwp_select; [done|]. intros p' Hc' E.
  unfold workspaces_by, uuid_param. rewrite (st_uuid _ _ _ _ _ Ht).
  destruct (filter_unique (λ w0, String.eqb (wk_ExternalId w0) (wk_ExternalId w)) (rows (t_workspace (pg_tables p))) w)
    as [l' ->]; [apply Ht|apply String.eqb_refl| |].
  { intros b Hb Eb. apply String.eqb_eq in Eb. eapply (nodup_map wk_ExternalId); try done; apply Ht. }
  apply HQ; try done. unfold signing_key. simpl. rewrite (st_key _ _ _ _ _ Ht). apply ParseSecretKey_encoded.
Qed.

(** An encrypted value is one that decrypts to what was given. *)
Lemma gwp_encrypted key v p d L (Q : dberr + string -> pg -> rdb -> lmap -> Prop) :
  calm p -> aes_key key = true -> (forall n, exists b, go_rand n NonceSize = inr b) ->
  (forall c p', calm p' -> pg_tables p' = pg_tables p -> Decrypt key c = inr v -> Q (inr c) p' d L) ->
  gwp (@stuck) (encrypted key v) Q p d L.
Proof using Type*.
  intros Hc Hk Hr HQ. apply gwp_draw. intros n p' Ho E. destruct (Hr n) as [b Hb]. rewrite Hb.
  destruct (Encrypt key v (inr b)) as [e|c] eqn:Ee; [unfold Encrypt in Ee; by rewrite Hk in Ee|].
  apply HQ; [by unfold calm; rewrite Ho|done|]. eapply Decrypt_Encrypt; [|exact Ee]. by eapply go_rand_length.
Qed.

Lemma secret_tables_same ext w key tokenId t t' :
  secret_tables ext w key tokenId t -> same_but_secrets t t' -> secret_tables ext w key tokenId t'.
Proof. intros [H1 H2 H3 H4 H5 H6 H7 H8] [E1 E2]. by split; rewrite ?E1, ?E2. Qed.

(** The server draws identifiers that no secret has. *)
Definition fresh_secrets (t : tables) : Prop := forall n s, s ∈ rows (t_secret t) -> se_ExternalId s <> pg_uuid n.

Lemma gwp_CreateSecret ext w w' key tokenId name v p d L (Q : dberr + Secret -> pg -> rdb -> lmap -> Prop) :
  calm p -> secret_tables ext w key tokenId (pg_tables p) -> wk_Id w' = wk_Id w -> signing_key w' = inr key ->
  validateEnvironmentVariableName name = inr tt -> text_ok name = true ->
  List.filter (is_secret w name) (rows (t_secret (pg_tables p))) = [] -> fresh_secrets (pg_tables p) ->
  (forall s p', calm p' -> same_but_secrets (pg_tables p) (pg_tables p') ->
     has_secret key w name v (pg_tables p') -> Q (inr s) p' d L) ->
  gwp (@stuck) (CreateSecret w' tokenId name v true) Q p d L.
Proof using Type*.
  intros Hc Ht Hid Hkey Hn Htx Hnone Hfr HQ. unfold CreateSecret. rewrite Hn, Hkey.
  apply gwp_catch, gwp_ret. apply gwp_catch, gwp_ret. apply gwp_catch, gwp_encrypted; [done|apply Ht|apply Ht|].
  intros c p1 Hc1 E1 Hdec. apply gwp_sql_at; [done|]. intros n p2 Hc2. rewrite E1.
  unfold checked, texts. cbn [forallb]. rewrite Htx. cbn [andb]. unfold insert_row.
  set (s := mkSecret _ _ _ _ _ _ _ _).
  assert (secret_violates (pg_tables p) s = None) as ->.
  { unfold secret_violates, workspace_of. cbn [base.mbind option_bind].
    rewrite (find_unique _ _ w); [|apply Ht|simpl; by rewrite Hid, Z.eqb_refl|].
    2: { simpl. intros b Hb E. apply Z.eqb_eq in E. eapply (nodup_map wk_Id); try done; [apply Ht..|congruence]. }
    destruct (existsb _ _) eqn:Ex.
    { apply existsb_exists in Ex as (s' & Hs' & E). apply andb_true_iff in E as [E2 E3]. apply list_elem_of_In in Hs'.
      assert (s' ∈ ([] : list Secret)) as Hin; [|by apply not_elem_of_nil in Hin].
      rewrite <- Hnone. apply elem_filter_b. split; [done|]. unfold is_secret. simpl in E2, E3.
      rewrite Hid in E2. by rewrite E3, E2. }
    destruct (existsb (λ s', String.eqb (se_ExternalId s') _) _) eqn:Ex2.
    { apply existsb_exists in Ex2 as (s' & Hs' & E). apply String.eqb_eq in E. apply list_elem_of_In in Hs'.
      by apply (Hfr n) in Hs'. }
    simpl. destruct (st_token _ _ _ _ _ Ht) as (k & Hk & Hki).
    destruct (existsb (λ k0, tk_Id k0 =? tokenId) _) eqn:Ex3; [done|].
    assert (existsb (λ k0, tk_Id k0 =? tokenId) (rows (t_token (pg_tables p))) = true) as Ht3; [|congruence].
    apply existsb_exists. exists k. split; [by apply list_elem_of_In|by rewrite Hki, Z.eqb_refl]. }
  cbn [fst snd map_ok]. intros E2. apply HQ; [done|by rewrite E2|]. rewrite E2. exists s. simpl.
  rewrite List.filter_app, Hnone. simpl. unfold is_secret at 1. simpl. by rewrite String.eqb_refl, Hid, Z.eqb_refl.
Qed.

Lemma filter_map_if {R} (p : R -> bool) (f : R -> R) (l : list R) :
  (forall x, p (f x) = p x) -> List.filter p (map (λ x, if p x then f x else x) l) = map f (List.filter p l).
Proof.
  intros H. induction l as [|x l IH]; simpl; [done|]. destruct (p x) eqn:E; [rewrite H, E|rewrite E]; by rewrite IH.
Qed.

Lemma is_secret_id w w' name s : wk_Id w' = wk_Id w -> is_secret w' name s = is_secret w name s.
Proof. intros E. unfold is_secret. by rewrite E. Qed.

Lemma filter_secrets w w' name l :
  wk_Id w' = wk_Id w -> List.filter (is_secret w' name) l = List.filter (is_secret w name) l.
Proof. intros E. apply filter_ext. intros s. by apply is_secret_id. Qed.

Lemma gwp_UpdateSecret ext w w' key tokenId name old v p d L (Q : dberr + Secret -> pg -> rdb -> lmap -> Prop) :
  calm p -> secret_tables ext w key tokenId (pg_tables p) -> wk_Id w' = wk_Id w -> signing_key w' = inr key ->
  text_ok name = true -> has_secret key w name old (pg_tables p) ->
  (forall s p', calm p' -> same_but_secrets (pg_tables p) (pg_tables p') ->
     has_secret key w name v (pg_tables p') -> Q (inr s) p' d L) ->
  gwp (@stuck) (UpdateSecret w' tokenId name v) Q p d L.
Proof using Type*.
  intros Hc Ht Hid Hkey Htx (s0 & Hs0 & Hname & _) HQ. unfold UpdateSecret. rewrite Hkey.
  apply gwp_catch, gwp_ret. apply gwp_catch, gwp_encrypted; [done|apply Ht|apply Ht|].
  intros c p1 Hc1 E1 Hdec. apply gwp_sql; [done|]. intros now uuid p2 Hc2. rewrite E1.
  unfold checked, texts. cbn [forallb]. rewrite Htx. cbn [andb]. unfold update_rows.
  rewrite (filter_secrets w w') by done. rewrite Hs0. cbn [map].
  destruct (st_token _ _ _ _ _ Ht) as (k & Hk & Hki).
  destruct (existsb (λ k0, tk_Id k0 =? tokenId) _) eqn:Ex.
  2: { assert (existsb (λ k0, tk_Id k0 =? tokenId) (rows (t_token (pg_tables p))) = true) as Ht3; [|congruence].
       apply existsb_exists. exists k. split; [by apply list_elem_of_In|by rewrite Hki, Z.eqb_refl]. }
  rewrite andb_false_r. cbn [fst snd get_row map]. intros E2. apply HQ; [done|by rewrite E2|]. rewrite E2.
  exists (mkSecret (se_Id s0) (se_ExternalId s0) (se_CreatedAt s0) now (se_Name s0) c (se_WorkspaceId s0) (Some tokenId)).
  cbn [set_secrets t_secret rows]. split; [|by split].
  erewrite map_ext; [|intros x; rewrite (is_secret_id w w') by done; reflexivity].
  rewrite (filter_map_if (is_secret w name)) by done. by rewrite Hs0.
Qed.

Lemma gwp_GetSecret ext w key tokenId name v cc p d L (Q : http_err + Secret -> pg -> rdb -> lmap -> Prop) :
  calm p -> secret_tables ext w key tokenId (pg_tables p) -> text_ok name = true ->
  has_secret key w name v (pg_tables p) ->
  (forall s p', calm p' -> pg_tables p' = pg_tables p -> se_Name s = name -> se_Value s = v -> Q (inr s) p' d L) ->
  gwp (@stuck) (http_GetSecret ext name cc) Q p d L.
Proof.
  intros Hc Ht Htx (s0 & Hs0 & Hname & Hdec) HQ. unfold http_GetSecret. eapply gwp_signing_key; [done..|].
  intros w' p1 Hc1 E1 Hid Hkey. apply gwp_catch. unfold GetSecretByNameDecrypted, GetSecretByName.
  apply gwp_catch, gwp_select; [done|]. intros p2 Hc2 E2. rewrite E1 in *. unfold texts. cbn [forallb].
  rewrite Htx, (filter_secrets w w'), Hs0 by done. cbn [andb get_row]. rewrite Hkey. apply gwp_catch, gwp_ret.
  unfold decrypt_secret, lift. rewrite Hdec. apply gwp_ret. apply gwp_ret. by apply HQ.
Qed.

(** The requests of an owner: create a secret, read it, give it another value, read it. *)
Definition secret_session (ext name v1 v2 other : string) (cc : AuthInfo)
    : GM ((http_err + Secret) * (http_err + Secret) * (http_err + Secret) * (http_err + Secret)) :=
  http_CreateSecret ext (Some (name, v1)) cc ≫= λ a,
  http_GetSecret ext name cc ≫= λ b,
  http_UpdateSecret ext name (Some (other, v2)) cc ≫= λ c,
  http_GetSecret ext name cc ≫= λ d, mret (a, b, c, d).

(** C19. A secret is read back with the value it was created with, and after an update with the
    new value, whatever the bytes are and whatever the other secrets are: encoding, sealing
    under the key of the workspace and storing lose nothing, and the four requests succeed. *)
Theorem secret_roundtrip `{S : RedisServer, SL : !RedisLaws S} (I : srv -> Prop) (s : srv) (L : lmap) (p : pg)
    (ext : string) (w : Workspace) (key name v1 v2 other : string) (cc : AuthInfo) :
  reliable I -> I s -> calm p -> secret_tables ext w key (tk_Id (ai_Token cc)) (pg_tables p) ->
  validateEnvironmentVariableName name = inr tt -> text_ok name = true ->
  List.filter (is_secret w name) (rows (t_secret (pg_tables p))) = [] -> fresh_secrets (pg_tables p) ->
  ends (secret_session ext name v1 v2 other cc p) s L (λ '(x, _) _, exists a b c d,
    x = (inr a, inr b, inr c, inr d) /\
    se_Name b = name /\ se_Value b = v1 /\ se_Name d = name /\ se_Value d = v2).
Proof using Type*.
  intros HR HI Hc Ht Hn Htx Hnone Hfr. apply (ends_rwp I); [done..|].
  eapply wp_mono; [|apply (gwp_bind (http_CreateSecret ext (Some (name, v1)) cc) _
    (λ x _ _ _, exists a b c d, x = (inr a, inr b, inr c, inr d) /\
       se_Name b = name /\ se_Value b = v1 /\ se_Name d = name /\ se_Value d = v2))]; [by intros [x p']|].
  unfold http_CreateSecret. eapply gwp_signing_key; [done..|]. intros w1 p1 Hc1 E1 Hid1 Hk1. apply gwp_catch.
  rewrite <- E1 in *. eapply gwp_CreateSecret; [done..|]. intros a p2 Hc2 Hs2 Hh2. apply gwp_ret.
  assert (secret_tables ext w key (tk_Id (ai_Token cc)) (pg_tables p2)) as Ht2
    by by eapply secret_tables_same.
  apply gwp_bind. eapply gwp_GetSecret; [done..|]. intros b p3 Hc3 E3 Hb1 Hb2. rewrite <- E3 in *.
  apply gwp_bind. unfold http_UpdateSecret. eapply gwp_signing_key; [done..|]. intros w4 p4 Hc4 E4 Hid4 Hk4.
  rewrite <- E4 in *. apply gwp_catch. eapply gwp_UpdateSecret; [done..|]. intros c p5 Hc5 Hs5 Hh5. apply gwp_ret.
  apply gwp_bind. eapply gwp_GetSecret; [done| |done..|].
  { by eapply secret_tables_same. }
  intros e p6 Hc6 E6 He1 He2. apply gwp_ret. by exists a, b, c, e.
Qed.
End secrets.

(** ** Examples *)

Definition ex_acme : Workspace :=
  mkWorkspace 1 "11111111-1111-1111-1111-111111111111" "acme" 0 0
    (Some ("sk_" +:+ b64_encode false "0123456789abcdef")) false false None None None None.
Definition ex_other : Workspace :=
  mkWorkspace 2 "22222222-2222-2222-2222-222222222222" "other" 0 0 None false false None None None None.
Definition ex_api_token (id wid : Z) (ext key : string) : Token :=
  mkToken id ext key true true (Some wid) None TokenTypeWorkspace 0 0 false.
Definition ex_stub_row : Stub := mkStub 1 "stub-1" "fn" "function/deployment" "{}" 0 1 1 0 0 false 1.
Definition ex_task_row (id wid : Z) (ext : string) : Task := mkTask id ext "PENDING" "" None None wid None 1 None 0 0.
Definition ex_api_tables : tables :=
  set_tasks (set_stubs (set_apps (set_tokens
    (set_workspaces empty_tables (mkTable [ex_acme; ex_other] 3))
    (mkTable [ex_api_token 1 1 "token-1" "key-1"; ex_api_token 2 2 "token-2" "key-2"] 3))
    (mkTable [mkApp 1 "app-1" "app" "" 1 0 0 None] 2))
    (mkTable [ex_stub_row] 2))
    (mkTable [ex_task_row 1 1 "task-1"; ex_task_row 2 2 "task-2"] 3).
Definition ex_api_pg : pg := mkPg ex_api_tables [] 0.
Definition ex_acme_caller : AuthInfo := mkAuthInfo (ex_api_token 1 1 "token-1" "key-1") ex_acme.

#[local] Instance ex_api_world : PgWorld := plain_pg.

(** The own task is cancelled, the other is not. *)
Lemma task_calls_isolated_witness :
  let calls := [(5, CallStart "task-1" "c1"); (7, CallStop ["task-1"; "task-2"])] in
  ends (task_calls (C := plain_cipher) "" calls ex_acme_caller ex_api_pg) (on empty_rdb) ∅ (λ '(_, p') _,
    other_tasks 1 (pg_tables p') = other_tasks 1 ex_api_tables /\ owners (pg_tables p') = owners ex_api_tables) /\
  ends (task_calls (C := plain_cipher) "" calls ex_acme_caller ex_api_pg) (on empty_rdb) ∅ (λ '(_, p') _,
    map ta_Status (rows (t_task (pg_tables p'))) = ["CANCELLED"; "PENDING"]).
Proof.
  intros calls. split; [|vm_compute; reflexivity].
  refine (task_calls_isolated (C := plain_cipher) "" (on empty_rdb) ∅ ex_api_pg calls ex_acme_caller 1 _).
  split; simpl.
  - apply NoDup_cons. split; [by intros H%list_elem_of_singleton|apply NoDup_singleton].
  - done.
  - intros w Hw E. apply elem_of_cons in Hw as [->|Hw]; [done|]. by apply list_elem_of_singleton in Hw as ->.
Defined.

Lemma token_api_isolated_witness :
  ends (token_route (ReqDelete (wk_ExternalId ex_acme) "token-2") (Some ex_acme_caller) ex_api_pg) (on empty_rdb) ∅
    (λ '(_, p') _, other_tokens 1 (pg_tables p') = other_tokens 1 ex_api_tables).
Proof.
  refine (token_api_isolated (on empty_rdb) ∅ ex_api_pg (ReqDelete (wk_ExternalId ex_acme) "token-2")
    ex_acme_caller 1 _ _); [done|].
  intros w Hw E. apply elem_of_cons in Hw as [->|Hw]; [done|]. by apply list_elem_of_singleton in Hw as ->.
Defined.

Lemma secret_roundtrip_witness :
  ends (secret_session (C := plain_cipher) (wk_ExternalId ex_acme) "API_KEY" "hello" "world" "" ex_acme_caller ex_api_pg)
    (on empty_rdb) ∅ (λ '(x, _) _, exists a b c d,
    x = (inr a, inr b, inr c, inr d) /\
    se_Name b = "API_KEY" /\ se_Value b = "hello" /\ se_Name d = "API_KEY" /\ se_Value d = "world").
Proof.
  refine (secret_roundtrip (C := plain_cipher) (λ s, ref_faults s = []) (on empty_rdb) ∅ ex_api_pg
    (wk_ExternalId ex_acme) ex_acme "0123456789abcdef" "API_KEY" "hello" "world" "" ex_acme_caller
    ref_reliable eq_refl eq_refl _ eq_refl eq_refl eq_refl _).
  - split; simpl; try done.
    + by left.
    + apply NoDup_cons. split; [by intros H%list_elem_of_singleton|apply NoDup_singleton].
    + apply NoDup_cons. split; [by intros H%list_elem_of_singleton|apply NoDup_singleton].
    + eexists. split; [by left|done].
    + intros n. by eexists.
  - intros n s Hs. by apply not_elem_of_nil in Hs.
Defined.

Definition ex_limit_request : ContainerRequest :=
  mkContainerRequest "c1" [] [] 1000 1024 "" [] 0 "img" "stub" (wk_ExternalId ex_acme) ex_acme
    (mkStubWithRelated zeroStub zeroWorkspace zeroObject None) 0 [] 0 "" false false
    zeroBuildOptions [] 0 "" None "" "" "" false [] false.
(** The limit of before, still cached. *)
Definition ex_limit_hash : gmap string string := {[ "gpu_limit" := "1"; "cpu_millicore_limit" := "1000" ]}.

Lemma new_limit_enforced_witness :
  ends ((http_CreateConcurrencyLimit (wk_ExternalId ex_acme) (Some (4, 64000)) ex_acme_caller ≫= λ r,
         on_redis (getConcurrencyLimit (BR := SchedulerProps.ex_backend) ex_limit_request) ≫= λ q,
         Backend.GetConcurrencyLimitByWorkspaceId (wk_ExternalId ex_acme) ≫= λ b, mret (r, q, b)) ex_api_pg)
    (on (mkRdb {[ WorkspaceConcurrencyLimit (wk_ExternalId ex_acme) := RVHash ex_limit_hash ]} ∅)) ∅
    (λ '(x, _) _, exists l q b, x = (inr l, inr (Some q), inr b) /\
       Forall (λ l, cl_GPULimit l = 4 /\ cl_CPUMillicoreLimit l = 64000) [l; q; b]).
Proof.
  refine (new_limit_enforced (BR := SchedulerProps.ex_backend) (λ s, ref_faults s = [])
    (on (mkRdb {[ WorkspaceConcurrencyLimit (wk_ExternalId ex_acme) := RVHash ex_limit_hash ]} ∅)) ∅ ex_api_pg
    (wk_ExternalId ex_acme) ex_acme 4 64000 ex_acme_caller ex_limit_request ex_limit_hash
    ref_reliable eq_refl eq_refl _ _ _ eq_refl _); [|lia..|vm_compute; reflexivity].
  split; simpl; try done.
  - by left.
  - apply NoDup_cons. split; [by intros H%list_elem_of_singleton|apply NoDup_singleton].
  - apply NoDup_cons. split; [by intros H%list_elem_of_singleton|apply NoDup_singleton].
  - intros n l Hl. by apply not_elem_of_nil in Hl.
  - intros l Hl. by apply not_elem_of_nil in Hl.
Defined.
